(* ===== verification/_CoqProject ===== *)
-Q . S2P
Prelude.v
Bitmap.v
Cstring.v
Vaddr.v
Palloc.v
Dlist.v
DlistOrder.v
Thread.v
Synch.v
Scheduler.v
SchedulerSteps.v
KernelPages.v
SchedulerProps.v
Memory.v
Malloc.v
MallocOps.v
MallocProps.v
Pagedir.v
PagedirInv.v
PagedirOps.v
PagedirDestroy.v
PagingInit.v
UserPages.v
PagedirProps.v
Hash.v
Arith.v
Sort.v
Block.v
Filesys.v
FileIO.v
FreeMap.v
Directory.v
FilesysInv.v
FilesysOps.v
FilesysProps.v
Process.v
ProcessSegments.v
ProcessStack.v
ProcessLoad.v
ProcessProps.v
ProcessFiles.v
Syscall.v
SyscallFetch.v
SyscallProps.v
SyscallFiles.v
SyscallDisk.v
Stdio.v
StdioProps.v
Intq.v
IntqProps.v
Descriptor.v
Interrupt.v
InterruptProps.v
Clock.v
ClockProps.v
Serial.v
SerialProps.v
Neighbours.v
FilesysKeeps.v
Ustar.v
UstarProps.v
Fsutil.v
FsutilProps.v
