(* ===== verification/Prelude.v ===== *)
(** * The Pintos kernel

    A model of the teaching kernel under src/cau15841-pintos2-qemu-linux/ and
    the theorems that make its parts correct.  File names below are relative
    to that directory.  The kernel runs on one i386 processor: threads share
    the kernel's memory and are preempted by the timer; user programs run in
    address spaces of their own and enter the kernel by system calls and
    exceptions; a file system lives on a partition of an IDE disk.

    ** How code is translated

    A function is a computation [M S A] on the state [S] of its component: it
    returns a value and a new state, or fails with [Panic] (an assertion or
    [PANIC]), [Fault] (memory that is not there), [Sleep] (the thread blocks,
    in sequential models only) or [OutOfFuel] (the bound of a loop is used
    up).  [wp m Q s] says that [m] returns from [s] and [Q] holds then, so
    every theorem of this form excludes all four failures.  Integers are [Z];
    where the source can leave the 32 or 64 bits of a type the reduction is
    written out ([u32] and the like).  Assertions are enabled.  Code that is
    not in the repository or belongs to a caller (a comparison function, the
    ports of a device) is a parameter, with its documented behaviour as the
    laws of a type class or as hypotheses.

    threads/malloc.c has a model of its own, but the models of devices, files
    and system calls only know whether a call of [malloc] succeeds: a function
    [malloc_ok] says so for every address or size, and the code handles both
    cases.  The theorems on files, the file system, archives and system calls
    on files assume that every call succeeds, and say so; those on partitions
    and on what the handler of system calls does with the memory of a process
    do not.

    ** Parts, files and theorems

    - Data structures.  Bitmap (lib/kernel/bitmap.c), Dlist and DlistOrder
      (lib/kernel/list.c on a heap of links), Hash (lib/kernel/hash.c), Sort
      (lib/stdlib.c), Arith (lib/arithmetic.c), Cstring (lib/string.c), Stdio
      and StdioProps (lib/stdio.c).  Lists refine sequences and hash tables
      refine sets; sorting sorts; division is division; printf is safe
      exactly for the arguments that its format asks for, and printed numbers
      read back.
    - Memory.  Vaddr (threads/vaddr.h), Palloc (threads/palloc.c), Memory and
      Malloc, MallocOps, MallocProps (threads/malloc.c); KernelPages and
      UserPages show that the page allocator, under the first-fit policy,
      keeps the contracts [PageAllocator], [PageRuns] and [PagePools] that
      threads, the heap and the page tables are proved against.  The source
      fixes the next-fit policy (threads/palloc.c, line 40), under which the
      second allocation fails, as a theorem of Palloc shows: what is proved
      against the contracts holds of the kernel with the first-fit policy.
      Allocated blocks never overlap and keep their contents; requests near
      2^32 bytes fail in the way that a theorem states.
    - Threads.  Thread (threads/thread.c), Synch (threads/synch.c), the
      invariant in Scheduler, its preservation in SchedulerSteps, and
      SchedulerProps.  One step is a piece of code with interrupts off, a
      continuation after a switch, or a timer interrupt; [thread_create],
      which runs with interrupts on, is one step too, for the reasons that
      Synch gives.  The theorems hold under every interleaving of steps: locks
      exclude, no assertion of the scheduler fails, a step of a thread fails
      only if its code has misused an operation, a ready thread runs after a
      bounded number of ticks.  Elements of lists are in the pages of threads:
      following one into a page that has been freed is a [Fault], even where
      the machine would go on.
    - Interrupts and devices.  Descriptor (userprog/gdt.c, userprog/tss.c and
      gates), Interrupt and InterruptProps (threads/interrupt.c,
      userprog/exception.c), Clock and ClockProps (devices/timer.c, pit.c,
      rtc.c), Intq and IntqProps (devices/intq.c), Serial and SerialProps
      (devices/serial.c, input.c, kbd.c).  External interrupts are
      acknowledged and yield as asked; user programs have four entry points;
      a thread that sleeps is late by at most the time slices of the others;
      an interrupt queue is a bounded queue, and safe for a single thread
      besides the interrupt handlers; the serial port is two streams of
      bytes.
    - Address spaces.  Pagedir (threads/pte.h, userprog/pagedir.c,
      [paging_init] of threads/init.c), PagedirInv, PagedirOps,
      PagedirDestroy, PagingInit, PagedirProps.  A page directory refines a
      map from user pages to entries; address spaces share no page, and the
      translation buffer never holds an entry that the tables do not justify.
    - Storage.  Block (devices/block.c, devices/partition.c and the sectors of
      devices/ide.c) with the contract [BlockDevices]; Neighbours, the
      contract of two devices that share no sector; Filesys
      (filesys/inode.c, file.c, free-map.c, directory.c, filesys.c), FileIO,
      FreeMap, Directory, FilesysInv, FilesysOps, FilesysProps, FilesysKeeps.
      An open file refines a sequence of bytes with a position, and the file
      system a map from names to contents; other devices are left alone.
    - Programs.  Process (userprog/process.c) on the contract [FileSystem],
      ProcessSegments, ProcessStack, ProcessLoad, ProcessFiles (filesys/
      keeps the contract) and ProcessProps; Syscall (userprog/syscall.c),
      SyscallFetch, SyscallProps, SyscallFiles and SyscallDisk.  A loaded
      program has its segments and its arguments in memory, what it has taken
      is given back when it ends, and a system call does what the memory of
      the process asks for.
    - Archives.  Ustar and UstarProps (lib/ustar.c), Fsutil and FsutilProps
      (filesys/fsutil.c).  Headers are read back as they were made, damaged
      ones are refused, and files travel from one machine to another on the
      scratch device.

    This file has the computations, their rules and tactics, and facts on
    integers, lists and bits that the others share.

    ** Bounds

    A loop of the source is a [for_loop] where it counts, and otherwise a
    [loop] with a bound; the rule [wp_loop] asks for a measure below the
    bound, so a theorem about such a loop shows that it ends.  Where a
    function has the bound as an argument ([fuel]), theorems hold for all
    bounds above the length of the string, list or archive that the loop
    walks over, the number of devices, or the ticks to wait for; [loop_mono]
    shows that a larger bound does not change the outcome.  Loops that may run
    2^32 times have their bound in binary ([big_loop]).

    ** What is not modelled

    The registers of the IDE controller (devices/ide.c) and of the display
    (devices/vga.c), devices/speaker.c and devices/shutdown.c, which only
    write to ports; assembly (threads/loader.S, start.S, intr-stubs.S,
    switch.S), of which the effect on the state is part of the C functions
    that use it; the console and messages of statistics
    (lib/kernel/console.c, lib/kernel/debug.c), except where text is the
    result; the rest of threads/init.c; the library, programs and tests of
    user space (lib/user, examples, tests) and the tools of the host (utils,
    misc).  Memory models weaker than interleaving do not arise on one
    processor. *)
From stdpp Require Import base gmap list sets strings.
From Stdlib Require Import ZArith Lia.

Declare Scope kernel_scope.
Delimit Scope kernel_scope with K.
Open Scope Z_scope.

(** ** Outcomes of kernel code *)

(** Why a computation does not return: an [ASSERT]/[PANIC] fired; memory
    that is not there (or not initialised) was read or a null pointer was
    dereferenced; the running thread goes to sleep, so that a sequential
    model ends there; or the loop bound of the model was exhausted. *)
Inductive failure :=
  | Panic
  | Fault
  | Sleep
  | OutOfFuel.

#[export] Instance failure_eq_dec : EqDecision failure.
Proof. solve_decision. Defined.

Inductive res (A : Type) :=
  | Ok (a : A)
  | Err (e : failure).
Arguments Ok {A} a.
Arguments Err {A} e.

(** State passing with failure.  A failure loses the state: a panic halts
    the machine. *)
Definition M (S A : Type) : Type := S → res (A * S).

#[export] Instance M_ret S : MRet (M S) := λ A a s, Ok (a, s).
#[export] Instance M_bind S : MBind (M S) := λ A B k m s,
  match m s with
  | Ok (a, s') => k a s'
  | Err e => Err e
  end.

Definition fail {S A} (e : failure) : M S A := λ _, Err e.
Definition get {S} : M S S := λ s, Ok (s, s).
Definition put {S} (s : S) : M S unit := λ _, Ok (tt, s).
Definition gets {S A} (f : S → A) : M S A := λ s, Ok (f s, s).
Definition modify {S} (f : S → S) : M S unit := λ s, Ok (tt, f s).

(** [ASSERT (b)] of lib/debug.h, with assertions enabled. *)
Definition ASSERT {S} (b : bool) : M S unit :=
  λ s, if b then Ok (tt, s) else Err Panic.

Definition of_option {S A} (e : failure) (o : option A) : M S A :=
  λ s, match o with Some a => Ok (a, s) | None => Err e end.

(** Code that does not use the state. *)
Definition of_res {S A} (r : res A) : M S A :=
  λ s, match r with Ok a => Ok (a, s) | Err e => Err e end.

(** A loop: the body either continues with a new loop state or leaves the
    loop with a result. *)
Fixpoint loop {S A R} (fuel : nat) (body : A → M S (A + R)) (a : A) : M S R :=
  match fuel with
  | O => fail OutOfFuel
  | Datatypes.S fuel =>
      x ← body a;
      match x with
      | inl a' => loop fuel body a'
      | inr r => mret r
      end
  end.

(** The same loop with a bound in binary, for loops that may run as often as
    an address space has bytes. *)
Fixpoint ploop {S A R} (p : positive) (body : A → M S (A + R)) (a : A) : M S (A + R) :=
  match p with
  | xH => body a
  | xO p =>
      x ← ploop p body a;
      match x with inl a' => ploop p body a' | inr r => mret (inr r) end
  | xI p =>
      x ← body a;
      match x with
      | inl a' =>
          y ← ploop p body a';
          match y with inl a'' => ploop p body a'' | inr r => mret (inr r) end
      | inr r => mret (inr r)
      end
  end.
Definition big_loop {S A R} (p : positive) (body : A → M S (A + R)) (a : A) : M S R :=
  x ← ploop p body a;
  match x with inl _ => fail OutOfFuel | inr r => mret r end.

(** ** Total-correctness reasoning *)

(** [wp m Q s]: [m] started in [s] returns, and its result and final state
    satisfy [Q]. *)
Definition wp {S A} (m : M S A) (Q : A → S → Prop) (s : S) : Prop :=
  match m s with
  | Ok (a, s') => Q a s'
  | Err _ => False
  end.

Section wp.
Context {S : Type}.
Implicit Types s : S.

Lemma wp_Ok {A} (m : M S A) (Q : A → S → Prop) s :
  wp m Q s ↔ ∃ a s', m s = Ok (a, s') ∧ Q a s'.
Proof.
  unfold wp. split.
  - destruct (m s) as [[a s']|]; [eauto | done].
  - intros (a & s' & -> & HQ). done.
Qed.

Lemma wp_ret {A} (a : A) (Q : A → S → Prop) s : Q a s → wp (mret a) Q s.
Proof. done. Qed.

Lemma wp_bind {A B} (m : M S A) (k : A → M S B) (Q : B → S → Prop) s :
  wp m (λ a s', wp (k a) Q s') s → wp (m ≫= k) Q s.
Proof. unfold wp, mbind, M_bind. by destruct (m s) as [[a s']|]. Qed.

Lemma wp_bind_inv {A B} (m : M S A) (k : A → M S B) (Q : B → S → Prop) s :
  wp (m ≫= k) Q s → wp m (λ a s', wp (k a) Q s') s.
Proof. unfold wp, mbind, M_bind. by destruct (m s) as [[a s']|]. Qed.

Lemma wp_mono {A} (m : M S A) (P Q : A → S → Prop) s :
  wp m P s → (∀ a s', P a s' → Q a s') → wp m Q s.
Proof. unfold wp. destruct (m s) as [[a s']|]; auto. Qed.

Lemma wp_conj {A} (m : M S A) (P Q : A → S → Prop) s :
  wp m P s → wp m Q s → wp m (λ a s', P a s' ∧ Q a s') s.
Proof. unfold wp. destruct (m s) as [[a s']|]; auto. Qed.

Lemma wp_eq {A} (m : M S A) (Q : A → S → Prop) s a s' :
  m s = Ok (a, s') → Q a s' → wp m Q s.
Proof. unfold wp. by intros ->. Qed.

Lemma bind_ok {A B} (m : M S A) (k : A → M S B) s a s' : m s = Ok (a, s') → (m ≫= k) s = k a s'.
Proof. intros E. unfold mbind, M_bind. by rewrite E. Qed.
Lemma bind_err {A B} (m : M S A) (k : A → M S B) s e : m s = Err e → (m ≫= k) s = Err e.
Proof. intros E. unfold mbind, M_bind. by rewrite E. Qed.
Lemma bind_Ok {A B} (m : M S A) (k : A → M S B) s r : (m ≫= k) s = Ok r → ∃ a s', m s = Ok (a, s') ∧ k a s' = Ok r.
Proof. unfold mbind, M_bind. destruct (m s) as [[a s']|]; [eauto | done]. Qed.

Lemma wp_ASSERT (b : bool) (Q : unit → S → Prop) s :
  b = true → Q tt s → wp (ASSERT b) Q s.
Proof. unfold wp, ASSERT. by intros ->. Qed.

Lemma wp_gets {A} (f : S → A) (Q : A → S → Prop) s :
  Q (f s) s → wp (gets f) Q s.
Proof. done. Qed.

Lemma wp_modify (f : S → S) (Q : unit → S → Prop) s :
  Q tt (f s) → wp (modify f) Q s.
Proof. done. Qed.

Lemma wp_of_option {A} e (o : option A) a (Q : A → S → Prop) s :
  o = Some a → Q a s → wp (of_option e o) Q s.
Proof. unfold wp, of_option. by intros ->. Qed.

Lemma wp_of_res {A} (r : res A) a (Q : A → S → Prop) s :
  r = Ok a → Q a s → wp (of_res r) Q s.
Proof. unfold wp, of_res. by intros ->. Qed.

(** A loop with an invariant [I] and a variant [μ] that the body decreases
    returns as soon as the fuel exceeds the variant. *)
Lemma wp_loop {A R} (I : A → S → Prop) (μ : A → S → nat)
    (body : A → M S (A + R)) (Q : R → S → Prop) fuel a s :
  (∀ a s, I a s →
     wp (body a) (λ x s', match x with
                          | inl a' => I a' s' ∧ (μ a' s' < μ a s)%nat
                          | inr r => Q r s'
                          end) s) →
  I a s → (μ a s < fuel)%nat → wp (loop fuel body a) Q s.
Proof.
  intros Hbody. revert a s. induction fuel as [|fuel IH]; intros a s HI Hμ; [lia|].
  simpl. apply wp_bind. eapply wp_mono; [by apply Hbody|].
  intros [a'|r] s'; simpl.
  - intros [HI' Hlt]. apply IH; [done | lia].
  - intros HQ. by apply wp_ret.
Qed.

(** More fuel does not change the outcome of a loop that has returned. *)
Lemma loop_mono {A R} (body : A → M S (A + R)) n m a s r :
  loop n body a s = Ok r → (n ≤ m)%nat → loop m body a s = Ok r.
Proof.
  revert m a s. induction n as [|n IH]; intros m a s Hn Hle; [done|].
  destruct m as [|m]; [lia|]. simpl in *. revert Hn. unfold mbind, M_bind.
  destruct (body a s) as [[[a'|r'] s']|]; [|done..].
  intros Hn. apply (IH m a' s'); [done | lia].
Qed.

(** A loop with a binary bound is a loop. *)
Fixpoint niter {A R} (n : nat) (body : A → M S (A + R)) (a : A) : M S (A + R) :=
  match n with
  | O => mret (inl a)
  | Datatypes.S n => x ← body a; match x with inl a' => niter n body a' | inr r => mret (inr r) end
  end.

Lemma niter_add {A R} n m (body : A → M S (A + R)) a s :
  niter (n + m) body a s
  = (x ← niter n body a; match x with inl a' => niter m body a' | inr r => mret (inr r) end) s.
Proof.
  revert a s. induction n as [|n IH]; intros a s; simpl; [done|]. unfold mbind, M_bind in *.
  destruct (body a s) as [[[a'|r] s']|]; [apply IH | done..].
Qed.
Lemma ploop_niter {A R} p (body : A → M S (A + R)) a s : ploop p body a s = niter (Pos.to_nat p) body a s.
Proof.
  revert a s. induction p as [p IH|p IH|]; intros a s.
  - rewrite Pos2Nat.inj_xI. simpl. unfold mbind, M_bind in *.
    destruct (body a s) as [[[a'|r] s']|]; [|done..]. rewrite Nat.add_0_r, niter_add, IH. unfold mbind, M_bind.
    by destruct (niter (Pos.to_nat p) body a' s') as [[[a''|r] s'']|].
  - rewrite Pos2Nat.inj_xO. simpl. rewrite Nat.add_0_r, niter_add. unfold mbind, M_bind in *. rewrite IH.
    by destruct (niter (Pos.to_nat p) body a s) as [[[a'|r] s']|].
  - simpl. unfold mbind, M_bind. by destruct (body a s) as [[[a'|r] s']|].
Qed.
Lemma big_loop_eq {A R} p (body : A → M S (A + R)) a s : big_loop p body a s = loop (Pos.to_nat p) body a s.
Proof.
  unfold big_loop. unfold mbind at 1, M_bind at 1. rewrite ploop_niter. generalize (Pos.to_nat p) as n. intros n.
  revert a s. induction n as [|n IH]; intros a s; simpl; [done|]. unfold mbind, M_bind.
  destruct (body a s) as [[[a'|r] s']|]; [apply IH | done..].
Qed.
End wp.

(** A mark for facts that a tactic has used. *)
Definition used {A} (_ : A) : Prop := True.

Create HintDb kernel.
#[export] Hint Resolve wp_ret : kernel.

(** Symbolic execution of straight-line code. *)
Ltac wp_bind := apply wp_bind.
Ltac wp_assert := apply wp_bind, wp_ASSERT; [| ].
(** Linear arithmetic with division and remainder by constants. *)
Ltac div_lia := Z.to_euclidean_division_equations; lia.
Ltac wp_use H := eapply wp_mono; [eapply H | cbv beta].

(** Run straight-line code in a hypothesis or in the goal. *)
Ltac run_in H :=
  cbv beta iota zeta delta [mbind M_bind mret M_ret gets get put modify ASSERT fail of_option of_res] in H.
Ltac run :=
  cbv beta iota zeta delta [mbind M_bind mret M_ret gets get put modify ASSERT fail of_option of_res].

(** ** Machine integers

    A w-bit unsigned integer is a [Z] in [0, 2^w); arithmetic that the code
    performs at width w is reduced explicitly. *)
Definition u8 (x : Z) : Z := x mod 2^8.
Definition u16 (x : Z) : Z := x mod 2^16.
Definition u32 (x : Z) : Z := x mod 2^32.
Definition u64 (x : Z) : Z := x mod 2^64.
(** Conversion to a signed type of the given width. *)
Definition sgn (w : Z) (x : Z) : Z :=
  let y := x mod 2^w in if y <? 2^(w-1) then y else y - 2^w.
Definition s8 (x : Z) : Z := sgn 8 x.
Definition s32 (x : Z) : Z := sgn 32 x.
Definition s64 (x : Z) : Z := sgn 64 x.

Definition SIZE_MAX : Z := 2^32 - 1.

Lemma u32_small x : 0 ≤ x < 2^32 → u32 x = x.
Proof. apply Z.mod_small. Qed.
Lemma u32_range x : 0 ≤ u32 x < 2^32.
Proof. apply Z.mod_pos_bound. lia. Qed.
Lemma u64_small x : 0 ≤ x < 2^64 → u64 x = x.
Proof. apply Z.mod_small. Qed.
Lemma u64_range x : 0 ≤ u64 x < 2^64.
Proof. apply Z.mod_pos_bound. lia. Qed.
Lemma u8_small x : 0 ≤ x < 2^8 → u8 x = x.
Proof. apply Z.mod_small. Qed.
Lemma u8_range x : 0 ≤ u8 x < 2^8.
Proof. apply Z.mod_pos_bound. lia. Qed.

Lemma sgn_small w x : 0 < w → - 2^(w-1) ≤ x < 2^(w-1) → sgn w x = x.
Proof.
  intros Hw Hx. unfold sgn.
  assert (2^w = 2 * 2^(w-1)) as Hp.
  { rewrite <- Z.pow_succ_r by lia. f_equal; lia. }
  destruct (decide (0 ≤ x)).
  - rewrite Z.mod_small by lia. destruct (Z.ltb_spec x (2^(w-1))); lia.
  - replace (x mod 2^w) with (x + 2^w).
    + destruct (Z.ltb_spec (x + 2^w) (2^(w-1))); lia.
    + apply Z.mod_unique with (-1); lia.
Qed.

(** ROUND_UP, DIV_ROUND_UP and ROUND_DOWN of lib/round.h, before reduction
    to the width of the operands. *)
Definition DIV_ROUND_UP (x step : Z) : Z := (x + step - 1) / step.
Definition ROUND_UP (x step : Z) : Z := (x + step - 1) / step * step.
Definition ROUND_DOWN (x step : Z) : Z := x / step * step.

(** ** Membership in lists without duplicates *)

(** One step towards a contradiction between membership facts: split
    [NoDup] and [∈] of concatenations, and use disjointness facts for the
    members at hand. *)
Ltac mem_step :=
  match goal with
  | H : context [(?x :: ?X) ++ ?Y] |- _ => change ((x :: X) ++ Y) with (x :: X ++ Y) in H
  | H : _ ∈ [] |- _ => by apply elem_of_nil in H
  | H : ?P, H' : ¬ ?P |- _ => by destruct H'
  | H : NoDup (_ ++ _) |- _ => apply NoDup_app in H as (? & ? & ?)
  | H : NoDup (_ :: _) |- _ => apply NoDup_cons in H as [? ?]
  | H : _ ∉ _ :: _ |- _ => apply not_elem_of_cons in H as [? ?]
  | H : _ ∉ _ ++ _ |- _ => apply not_elem_of_app in H as [? ?]
  | D : ∀ x, x ∈ ?X → x ∉ ?Y, H : ?a ∈ ?X |- _ =>
      lazymatch goal with
      | _ : used (D, a) |- _ => fail
      | _ => pose proof (D a H); assert (used (D, a)) by exact I
      end
  | H : _ ∈ _ :: _ |- _ => apply elem_of_cons in H as [?|?]; subst
  | H : _ ∈ _ ++ _ |- _ => apply elem_of_app in H as [?|?]
  end.
Ltac mem_solve := intros ?; subst; repeat mem_step; congruence.

(** Case analysis on lookups in updated maps. *)
Ltac lookups :=
  repeat match goal with
  | E : <[_ := _]> _ !! _ = Some _ |- _ => apply lookup_insert_Some in E as [[<- <-]|[? E]]
  | E : delete _ _ !! _ = Some _ |- _ => apply lookup_delete_Some in E as [? E]
  end.

(** ** Counting loops *)

(** [for (i = lo; ...; i++) body (i)], [n] times. *)
Fixpoint for_loop {S} (n : nat) (i : Z) (body : Z → M S unit) : M S unit :=
  match n with
  | O => mret tt
  | Datatypes.S n => body i ;; for_loop n (i + 1) body
  end.

(** The same loop with an early return. *)
Fixpoint for_return {S R} (n : nat) (i : Z) (body : Z → M S (option R)) : M S (option R) :=
  match n with
  | O => mret None
  | Datatypes.S n =>
      o ← body i;
      match o with
      | Some r => mret (Some r)
      | None => for_return n (i + 1) body
      end
  end.

Lemma wp_for_loop {S} (I : Z → S → Prop) n i (body : Z → M S unit) (Q : unit → S → Prop) s :
  I i s →
  (∀ j s, i ≤ j < i + Z.of_nat n → I j s → wp (body j) (λ _ s', I (j + 1) s') s) →
  (∀ s, I (i + Z.of_nat n) s → Q tt s) →
  wp (for_loop n i body) Q s.
Proof.
  revert i s. induction n as [|n IH]; intros i s HI Hbody HQ; simpl.
  - apply wp_ret, HQ. by replace (i + Z.of_nat 0) with i by lia.
  - apply wp_bind. eapply wp_mono; [apply Hbody; [lia | done]|].
    intros [] s' HI'. apply IH; [done | |].
    + intros j s'' Hj. apply Hbody. lia.
    + intros s'' Hs. apply HQ. by replace (i + Z.of_nat (Datatypes.S n)) with (i + 1 + Z.of_nat n) by lia.
Qed.

Lemma wp_for_return {S R} (I : Z → S → Prop) n i (body : Z → M S (option R))
    (Q : option R → S → Prop) s :
  I i s →
  (∀ j s, i ≤ j < i + Z.of_nat n → I j s →
     wp (body j) (λ o s', match o with
                          | Some r => Q (Some r) s'
                          | None => I (j + 1) s'
                          end) s) →
  (∀ s, I (i + Z.of_nat n) s → Q None s) →
  wp (for_return n i body) Q s.
Proof.
  revert i s. induction n as [|n IH]; intros i s HI Hbody HQ; simpl.
  - apply wp_ret, HQ. by replace (i + Z.of_nat 0) with i by lia.
  - apply wp_bind. eapply wp_mono; [apply Hbody; [lia | done]|].
    intros [r|] s' HI'; [by apply wp_ret|]. apply IH; [done | |].
    + intros j s'' Hj. apply Hbody. lia.
    + intros s'' Hs. apply HQ. by replace (i + Z.of_nat (Datatypes.S n)) with (i + 1 + Z.of_nat n) by lia.
Qed.

(** Running code on a component of the state. *)
Definition zoom {S T A} (g : S → T) (p : T → S → S) (m : M T A) : M S A :=
  λ s, match m (g s) with
       | Ok (a, t) => Ok (a, p t s)
       | Err e => Err e
       end.

Lemma wp_zoom {S T A} (g : S → T) (p : T → S → S) (m : M T A) (Q : A → S → Prop) s :
  wp m (λ a t, Q a (p t s)) (g s) → wp (zoom g p m) Q s.
Proof. unfold wp, zoom. by destruct (m (g s)) as [[a t]|]. Qed.

(** A read-only component of the state. *)
Definition reader {S T A} (g : S → T) (m : M T A) : M S A :=
  λ s, match m (g s) with
       | Ok (a, _) => Ok (a, s)
       | Err e => Err e
       end.

(** ** Locks as a sequential client sees them

    The state of a lock is its holder.  Acquiring a lock that another thread
    holds puts the running thread [cur] to sleep; the code of the lock itself
    (threads/synch.c) is modelled in the file Synch. *)
Definition lock_acquire (cur : Z) : M (option Z) unit := λ h,
  match h with
  | None => Ok (tt, Some cur)
  | Some t => if t =? cur then Err Panic else Err Sleep
  end.
Definition lock_release (cur : Z) : M (option Z) unit := λ h,
  match h with
  | Some t => if t =? cur then Ok (tt, None) else Err Panic
  | None => Err Panic
  end.

Lemma wp_lock_acquire cur (Q : unit → option Z → Prop) :
  Q tt (Some cur) → wp (lock_acquire cur) Q None.
Proof. done. Qed.
Lemma wp_lock_release cur (Q : unit → option Z → Prop) :
  Q tt None → wp (lock_release cur) Q (Some cur).
Proof. unfold wp, lock_release. by rewrite Z.eqb_refl. Qed.
