(* ===== verification/Bitmap.v ===== *)
(** * Bitmaps: lib/kernel/bitmap.c

    A bitmap is an array of 32-bit words ([elem_type] is [unsigned long] on
    i386).  The operations are state-passing computations on the record
    [bitmap]; assertions are enabled, so a failed one is [Err Panic], and an
    access past the word array is [Err Fault].  The lemmas relate the word
    operations to the array of booleans [bit b] that a client sees. *)
From stdpp Require Import base list.
From Stdlib Require Import ZArith Lia.
From S2P Require Import Prelude.

Module Bitmap.

Definition ELEM_BITS : Z := 32.
Definition BITMAP_ERROR : Z := SIZE_MAX.

Record bitmap := mk_bitmap { bit_cnt : Z; bits : list Z }.

Definition elem_idx (bit_idx : Z) : Z := bit_idx / ELEM_BITS.
Definition bit_mask (bit_idx : Z) : Z := u32 (Z.shiftl 1 (bit_idx mod ELEM_BITS)).
Definition elem_cnt (bit_cnt : Z) : Z := u32 (bit_cnt + ELEM_BITS - 1) / ELEM_BITS.
Definition byte_cnt (bit_cnt : Z) : Z := u32 (4 * elem_cnt bit_cnt).

(** [last_bits ? ((elem_type) 1 << last_bits) - 1 : (elem_type) -1]. *)
Definition last_mask (b : bitmap) : Z :=
  let last_bits := bit_cnt b mod ELEM_BITS in
  if negb (last_bits =? 0) then u32 (u32 (Z.shiftl 1 last_bits) - 1) else u32 (-1).

Definition bitmap_size : M bitmap Z := gets bit_cnt.

(** The word [b->bits[idx]] and its update. *)
Definition load_word (idx : Z) : M bitmap Z :=
  b ← get; of_option Fault (bits b !! Z.to_nat idx).
Definition store_word (idx : Z) (w : Z) : M bitmap unit :=
  b ← get; put (mk_bitmap (bit_cnt b) (<[Z.to_nat idx := w]> (bits b))).

Definition bitmap_mark (bit_idx : Z) : M bitmap unit :=
  let idx := elem_idx bit_idx in
  let mask := bit_mask bit_idx in
  w ← load_word idx; store_word idx (Z.lor w mask).

Definition bitmap_reset (bit_idx : Z) : M bitmap unit :=
  let idx := elem_idx bit_idx in
  let mask := bit_mask bit_idx in
  w ← load_word idx; store_word idx (Z.land w (u32 (Z.lnot mask))).

Definition bitmap_flip (bit_idx : Z) : M bitmap unit :=
  let idx := elem_idx bit_idx in
  let mask := bit_mask bit_idx in
  w ← load_word idx; store_word idx (Z.lxor w mask).

Definition bitmap_set (idx : Z) (value : bool) : M bitmap unit :=
  b ← get;
  ASSERT (idx <? bit_cnt b) ;;
  if value then bitmap_mark idx else bitmap_reset idx.

Definition bitmap_test (idx : Z) : M bitmap bool :=
  b ← get;
  ASSERT (idx <? bit_cnt b) ;;
  w ← load_word (elem_idx idx);
  mret (negb (Z.land w (bit_mask idx) =? 0)).

Definition bitmap_set_multiple (start cnt : Z) (value : bool) : M bitmap unit :=
  b ← get;
  ASSERT (start <=? bit_cnt b) ;;
  ASSERT (u32 (start + cnt) <=? bit_cnt b) ;;
  for_loop (Z.to_nat cnt) 0 (λ i, bitmap_set (u32 (start + i)) value).

Definition bitmap_set_all (value : bool) : M bitmap unit :=
  n ← bitmap_size; bitmap_set_multiple 0 n value.

Fixpoint count_loop (n : nat) (i start : Z) (value : bool) (value_cnt : Z) : M bitmap Z :=
  match n with
  | O => mret value_cnt
  | S n =>
      t ← bitmap_test (u32 (start + i));
      count_loop n (i + 1) start value
        (if bool_decide (t = value) then u32 (value_cnt + 1) else value_cnt)
  end.

Definition bitmap_count (start cnt : Z) (value : bool) : M bitmap Z :=
  b ← get;
  ASSERT (start <=? bit_cnt b) ;;
  ASSERT (u32 (start + cnt) <=? bit_cnt b) ;;
  count_loop (Z.to_nat cnt) 0 start value 0.

Definition bitmap_contains (start cnt : Z) (value : bool) : M bitmap bool :=
  b ← get;
  ASSERT (start <=? bit_cnt b) ;;
  ASSERT (u32 (start + cnt) <=? bit_cnt b) ;;
  o ← for_return (Z.to_nat cnt) 0 (λ i,
        t ← bitmap_test (u32 (start + i));
        mret (if bool_decide (t = value) then Some true else None));
  mret (default false o).

Definition bitmap_any (start cnt : Z) : M bitmap bool :=
  bitmap_contains start cnt true.
Definition bitmap_none (start cnt : Z) : M bitmap bool :=
  c ← bitmap_contains start cnt true; mret (negb c).
Definition bitmap_all (start cnt : Z) : M bitmap bool :=
  c ← bitmap_contains start cnt false; mret (negb c).

Definition bitmap_scan (start cnt : Z) (value : bool) : M bitmap Z :=
  b ← get;
  ASSERT (start <=? bit_cnt b) ;;
  if cnt <=? bit_cnt b then
    let last := bit_cnt b - cnt in
    o ← for_return (Z.to_nat (last + 1 - start)) start (λ i,
          c ← bitmap_contains i cnt (negb value);
          mret (if negb c then Some i else None));
    mret (default BITMAP_ERROR o)
  else mret BITMAP_ERROR.

Definition bitmap_scan_and_flip (start cnt : Z) (value : bool) : M bitmap Z :=
  idx ← bitmap_scan start cnt value;
  (if negb (idx =? BITMAP_ERROR)
   then bitmap_set_multiple idx cnt (negb value) else mret tt) ;;
  mret idx.

(** [sizeof (struct bitmap)] is 8. *)
Definition bitmap_buf_size (bit_cnt : Z) : Z := u32 (8 + byte_cnt bit_cnt).

(** Creation.  [words] is what the storage for the words holds when it is
    obtained: [malloc] and the caller's buffer do not clear it. *)
Definition bitmap_create_in_buf (bit_cnt : Z) (block_size : Z) (words : list Z) : res bitmap :=
  if bitmap_buf_size bit_cnt <=? block_size then
    match bitmap_set_all false (mk_bitmap bit_cnt words) with
    | Ok (_, b) => Ok b
    | Err e => Err e
    end
  else Err Panic.

(** [malloc_b] tells whether the first [malloc] succeeds, [malloc_bits] what
    the second one returns: [None] for a null pointer. *)
Definition bitmap_create (malloc_b : bool) (malloc_bits : option (list Z)) (bit_cnt : Z)
    : res (option bitmap) :=
  if malloc_b then
    match malloc_bits with
    | Some words =>
        match bitmap_set_all false (mk_bitmap bit_cnt words) with
        | Ok (_, b) => Ok (Some b)
        | Err e => Err e
        end
    | None =>
        if bit_cnt =? 0 then
          match bitmap_set_all false (mk_bitmap bit_cnt []) with
          | Ok (_, b) => Ok (Some b)
          | Err e => Err e
          end
        else Ok None
    end
  else Ok None.

Definition bitmap_file_size (b : bitmap) : Z := byte_cnt (bit_cnt b).

(** ** What a client sees *)

(** The bit numbered [i]. *)
Definition bit (b : bitmap) (i : Z) : bool :=
  Z.testbit (nth (Z.to_nat (elem_idx i)) (bits b) 0) (i mod ELEM_BITS).

(** A bitmap as the kernel makes them: the word array has the size that
    [bit_cnt] asks for and holds 32-bit words. *)
Definition wf (b : bitmap) : Prop :=
  0 ≤ bit_cnt b ≤ 2^32 - 32
  ∧ Z.of_nat (length (bits b)) = elem_cnt (bit_cnt b)
  ∧ Forall (λ w, 0 ≤ w < 2^32) (bits b).

Example scan_small :
  bitmap_scan_and_flip 2 3 false (mk_bitmap 40 [23; 0])
  = Ok (5, mk_bitmap 40 [247; 0]).
Proof. vm_compute. reflexivity. Qed.
(** ** Word operations as bit operations *)

(** [b'] is [b] with the bits for which [upd] gives a value changed to it. *)
Definition updated (b b' : bitmap) (upd : Z → option bool) : Prop :=
  wf b' ∧ bit_cnt b' = bit_cnt b ∧
  ∀ j, 0 ≤ j → bit b' j = default (bit b j) (upd j).

Lemma elem_cnt_bound n i : 0 ≤ n ≤ 2^32 - 32 → 0 ≤ i < n → 0 ≤ elem_idx i < elem_cnt n.
Proof.
  intros Hn Hi. unfold elem_idx, elem_cnt, ELEM_BITS in *. rewrite u32_small by lia.
  split; [apply Z.div_pos; lia|]. apply Z.div_lt_upper_bound; [lia|].
  pose proof (Z.div_mod (n + 32 - 1) 32). pose proof (Z.mod_pos_bound (n + 32 - 1) 32). lia.
Qed.

Lemma wf_word b i :
  wf b → 0 ≤ i < bit_cnt b →
  ∃ w, bits b !! Z.to_nat (elem_idx i) = Some w ∧ 0 ≤ w < 2^32
       ∧ nth (Z.to_nat (elem_idx i)) (bits b) 0 = w.
Proof.
  intros (Hn & Hlen & Hall) Hi. pose proof (elem_cnt_bound _ _ Hn Hi) as Hidx.
  destruct (lookup_lt_is_Some_2 (bits b) (Z.to_nat (elem_idx i))) as [w Hw]; [lia|].
  exists w. split; [done|]. split.
  - eapply Forall_lookup_1 in Hall; eauto.
  - by apply nth_lookup_Some.
Qed.

Lemma bit_mask_eq i : bit_mask i = 2 ^ (i mod 32).
Proof.
  unfold bit_mask, ELEM_BITS. rewrite Z.shiftl_1_l. apply u32_small.
  pose proof (Z.mod_pos_bound i 32). split; [apply Z.pow_nonneg; lia|].
  apply Z.pow_lt_mono_r; lia.
Qed.

Lemma testbit_mask i k : 0 ≤ k → Z.testbit (bit_mask i) k = bool_decide (k = i mod 32).
Proof.
  intros Hk. pose proof (Z.mod_pos_bound i 32). rewrite bit_mask_eq, Z.pow2_bits_eqb by lia.
  case_bool_decide; lia.
Qed.

Lemma range_of_bits w n :
  0 ≤ n → (∀ k, n ≤ k → Z.testbit w k = false) → 0 ≤ w → 0 ≤ w < 2^n.
Proof.
  intros Hn Hhigh Hw. split; [done|]. destruct (decide (w = 0)) as [->|]; [by apply Z.pow_pos_nonneg|].
  apply Z.log2_lt_pow2; [lia|]. destruct (decide (Z.log2 w < n)) as [|Hge]; [done|].
  exfalso. pose proof (Z.bit_log2 w). rewrite Hhigh in H by lia. lia.
Qed.

Lemma testbit_high w n k : 0 ≤ w < 2^n → n ≤ k → 0 ≤ n → Z.testbit w k = false.
Proof.
  intros Hw Hk Hn. destruct (decide (w = 0)) as [->|]; [apply Z.testbit_0_l|].
  apply Z.bits_above_log2; [lia|]. assert (Z.log2 w < n); [|lia]. apply Z.log2_lt_pow2; lia.
Qed.

(** Two bit numbers with the same word and the same position are equal. *)
Lemma bit_position i j :
  0 ≤ i → 0 ≤ j → Z.to_nat (elem_idx i) = Z.to_nat (elem_idx j) → i mod 32 = j mod 32 → i = j.
Proof.
  intros Hi Hj Hidx Hmod. unfold elem_idx, ELEM_BITS in *.
  pose proof (Z.div_pos i 32). pose proof (Z.div_pos j 32).
  assert (i / 32 = j / 32) by lia.
  pose proof (Z.div_mod i 32). pose proof (Z.div_mod j 32). lia.
Qed.

(** Storing a word that differs from the old one only at the position of
    bit [i]. *)
Lemma store_word_bit b i (f : Z → Z) (v : bool) :
  wf b → 0 ≤ i < bit_cnt b →
  (∀ w, 0 ≤ w < 2^32 → 0 ≤ f w ∧
     ∀ k, 0 ≤ k → Z.testbit (f w) k = if decide (k = i mod 32) then v else Z.testbit w k) →
  wp (w ← load_word (elem_idx i); store_word (elem_idx i) (f w))
     (λ _ b', updated b b' (λ j, if decide (j = i) then Some v else None)) b.
Proof.
  intros Hwf Hi Hf. destruct (wf_word b i Hwf Hi) as (w & Hw & Hrange & Hnth).
  destruct (Hf w Hrange) as [Hpos Hbits]. pose proof (Z.mod_pos_bound i 32) as Hmod.
  unfold wp, load_word, store_word, get, put, of_option, mbind, M_bind. rewrite Hw. simpl.
  destruct Hwf as (Hn & Hlen & Hall). split; [|split; [done|]].
  { split; [done|]. split; simpl; [by rewrite length_insert|].
    apply Forall_insert; [done|]. apply range_of_bits; [lia| |done].
    intros k Hk. rewrite Hbits by lia. rewrite decide_False by lia.
    apply (testbit_high _ 32); lia. }
  intros j Hj. unfold bit at 1. simpl.
  assert (Z.to_nat (elem_idx i) < length (bits b))%nat by eauto using lookup_lt_Some.
  destruct (decide (Z.to_nat (elem_idx j) = Z.to_nat (elem_idx i))) as [Heq|Hne].
  - rewrite Heq, (nth_lookup_Some _ _ _ (f w)) by by apply list_lookup_insert_eq.
    unfold ELEM_BITS. rewrite Hbits by (apply Z.mod_pos_bound; lia).
    destruct (decide (j = i)) as [->|Hji].
    + by rewrite decide_True.
    + rewrite decide_False by (intros ?; apply Hji, bit_position; lia || done).
      simpl. unfold bit. by rewrite Heq, Hnth.
  - rewrite decide_False by (intros ->; done). simpl. unfold bit. f_equal.
    rewrite !nth_lookup. by rewrite list_lookup_insert_ne.
Qed.

Lemma bitmap_mark_spec b i :
  wf b → 0 ≤ i < bit_cnt b →
  wp (bitmap_mark i) (λ _ b', updated b b' (λ j, if decide (j = i) then Some true else None)) b.
Proof.
  intros Hwf Hi. apply (store_word_bit b i (λ w, Z.lor w (bit_mask i))); [done..|].
  intros w Hw. split.
  { rewrite Z.lor_nonneg, bit_mask_eq. split; [lia | apply Z.pow_nonneg; lia]. }
  intros k Hk. rewrite Z.lor_spec, testbit_mask by done.
  case_decide; [rewrite bool_decide_true by done; apply orb_true_r|].
  rewrite bool_decide_false by done. apply orb_false_r.
Qed.

Lemma testbit_u32 x k : 0 ≤ k < 32 → Z.testbit (u32 x) k = Z.testbit x k.
Proof. intros. unfold u32. apply Z.mod_pow2_bits_low. lia. Qed.

Lemma bitmap_reset_spec b i :
  wf b → 0 ≤ i < bit_cnt b →
  wp (bitmap_reset i) (λ _ b', updated b b' (λ j, if decide (j = i) then Some false else None)) b.
Proof.
  intros Hwf Hi. apply (store_word_bit b i (λ w, Z.land w (u32 (Z.lnot (bit_mask i))))); [done..|].
  intros w Hw. split; [apply Z.land_nonneg; lia|].
  intros k Hk. rewrite Z.land_spec. pose proof (Z.mod_pos_bound i 32).
  destruct (decide (k < 32)).
  - rewrite testbit_u32, Z.lnot_spec, testbit_mask by lia.
    case_decide; [rewrite bool_decide_true by done; apply andb_false_r|].
    rewrite bool_decide_false by done. apply andb_true_r.
  - rewrite decide_False by lia. rewrite (testbit_high w 32) by lia. done.
Qed.

Lemma bitmap_set_spec b i v :
  wf b → 0 ≤ i < bit_cnt b →
  wp (bitmap_set i v) (λ _ b', updated b b' (λ j, if decide (j = i) then Some v else None)) b.
Proof.
  intros Hwf Hi. unfold bitmap_set. wp_bind. apply wp_gets with (f := id). simpl.
  wp_assert; [lia|]. destruct v; [by apply bitmap_mark_spec | by apply bitmap_reset_spec].
Qed.

Lemma bitmap_test_spec b i (Q : bool → bitmap → Prop) :
  wf b → 0 ≤ i < bit_cnt b → Q (bit b i) b → wp (bitmap_test i) Q b.
Proof.
  intros Hwf Hi HQ. destruct (wf_word b i Hwf Hi) as (w & Hw & Hrange & Hnth).
  unfold bitmap_test. wp_bind. apply wp_gets with (f := id). simpl. wp_assert; [lia|].
  unfold wp, load_word, get, of_option, mret, M_ret, mbind, M_bind. rewrite Hw. simpl.
  replace (negb (Z.land w (bit_mask i) =? 0)) with (bit b i); [done|].
  unfold bit. rewrite Hnth. pose proof (Z.mod_pos_bound i 32) as Hmod. unfold ELEM_BITS.
  destruct (Z.eqb_spec (Z.land w (bit_mask i)) 0) as [Heq|Hne]; simpl.
  - apply (f_equal (λ x, Z.testbit x (i mod 32))) in Heq. revert Heq.
    rewrite Z.land_spec, testbit_mask, Z.testbit_0_l, bool_decide_true by lia.
    by rewrite andb_true_r.
  - apply not_false_iff_true. intros Hbit. apply Hne. apply Z.bits_inj'. intros k Hk.
    rewrite Z.land_spec, testbit_mask, Z.testbit_0_l by done.
    case_bool_decide as E; [by rewrite E, Hbit | apply andb_false_r].
Qed.

Lemma updated_refl b : wf b → updated b b (λ _, None).
Proof. by split. Qed.

(** [bitmap_set_multiple] sets exactly the bits in [start, start + cnt). *)
Lemma bitmap_set_multiple_spec b start cnt v :
  wf b → 0 ≤ start → 0 ≤ cnt → start + cnt ≤ bit_cnt b →
  wp (bitmap_set_multiple start cnt v)
     (λ _ b', updated b b' (λ j, if decide (start ≤ j < start + cnt) then Some v else None)) b.
Proof.
  intros Hwf Hs Hc Hle. pose proof (proj1 Hwf) as Hn.
  unfold bitmap_set_multiple. wp_bind. apply wp_gets with (f := id). simpl.
  wp_assert; [lia|]. wp_assert; [rewrite u32_small; lia|].
  apply (wp_for_loop (λ i b',
    updated b b' (λ j, if decide (start ≤ j < start + i) then Some v else None))).
  - split; [done|]. split; [done|]. intros j Hj. by rewrite decide_False by lia.
  - intros j b' Hj (Hwf' & Hcnt & Hbits). rewrite u32_small by lia.
    eapply wp_mono; [apply bitmap_set_spec; [done | lia]|].
    intros [] b'' (Hwf'' & Hcnt' & Hbits'). split; [done|]. split; [congruence|].
    intros k Hk. rewrite Hbits', Hbits by done. repeat case_decide; subst; done || lia.
  - intros b'. by replace (start + (0 + Z.of_nat (Z.to_nat cnt))) with (start + cnt) by lia.
Qed.

Lemma bitmap_set_all_spec b v :
  wf b →
  wp (bitmap_set_all v)
     (λ _ b', updated b b' (λ j, if decide (0 ≤ j < bit_cnt b) then Some v else None)) b.
Proof.
  intros Hwf. unfold bitmap_set_all, bitmap_size. wp_bind. apply wp_gets.
  apply bitmap_set_multiple_spec; [done | lia | destruct Hwf; lia | lia].
Qed.

(** ** Tests on ranges *)

Lemma bitmap_contains_spec b start cnt v (Q : bool → bitmap → Prop) :
  wf b → 0 ≤ start → 0 ≤ cnt → start + cnt ≤ bit_cnt b →
  (∀ r, r = true ↔ (∃ j, start ≤ j < start + cnt ∧ bit b j = v) → Q r b) →
  wp (bitmap_contains start cnt v) Q b.
Proof.
  intros Hwf Hs Hc Hle HQ. pose proof (proj1 Hwf) as Hn.
  unfold bitmap_contains. wp_bind. apply wp_gets with (f := id). simpl.
  wp_assert; [lia|]. wp_assert; [rewrite u32_small; lia|]. wp_bind.
  apply (wp_for_return (λ i b', b' = b ∧ ∀ j, start ≤ j < start + i → bit b j ≠ v)).
  - split; [done|]. lia.
  - intros j b' Hj [-> Hnone]. rewrite u32_small by lia. wp_bind.
    apply bitmap_test_spec; [done | lia|]. apply wp_ret.
    case_bool_decide as E.
    + apply wp_ret, HQ. split; [|done]. intros _. exists (start + j). split; [lia | done].
    + split; [done|]. intros k Hk. destruct (decide (k = start + j)) as [->|]; [done|].
      apply Hnone. lia.
  - intros b' [-> Hnone]. apply wp_ret, HQ. split; [done|]. intros (j & Hj & Hbit).
    exfalso. eapply Hnone; [|exact Hbit]. lia.
Qed.

Lemma bitmap_all_spec b start cnt (Q : bool → bitmap → Prop) :
  wf b → 0 ≤ start → 0 ≤ cnt → start + cnt ≤ bit_cnt b →
  (∀ r, r = true ↔ (∀ j, start ≤ j < start + cnt → bit b j = true) → Q r b) →
  wp (bitmap_all start cnt) Q b.
Proof.
  intros Hwf Hs Hc Hle HQ. unfold bitmap_all. wp_bind.
  apply bitmap_contains_spec; [done..|]. intros r Hr. apply wp_ret, HQ.
  rewrite negb_true_iff, <- not_true_iff_false, Hr. split.
  - intros Hno j Hj. apply not_false_iff_true. intros ?. apply Hno. by exists j.
  - intros Hall (j & Hj & Hbit). rewrite Hall in Hbit by done. done.
Qed.

(** The group of [cnt] bits at [i] lies in the bitmap and is all [v]. *)
Definition group (b : bitmap) (cnt : Z) (v : bool) (i : Z) : Prop :=
  i + cnt ≤ bit_cnt b ∧ ∀ j, i ≤ j < i + cnt → bit b j = v.

(** [r] is what a scan from [start] should return: the first group, or
    [BITMAP_ERROR] if there is none. *)
Definition first_group (b : bitmap) (start cnt : Z) (v : bool) (r : Z) : Prop :=
  (start ≤ r ≤ bit_cnt b - cnt ∧ group b cnt v r ∧ ∀ i, start ≤ i < r → ¬ group b cnt v i)
  ∨ (r = BITMAP_ERROR ∧ ∀ i, start ≤ i → ¬ group b cnt v i).

Lemma bitmap_scan_spec b start cnt v (Q : Z → bitmap → Prop) :
  wf b → 0 ≤ start ≤ bit_cnt b → 0 ≤ cnt →
  (∀ r, first_group b start cnt v r → Q r b) →
  wp (bitmap_scan start cnt v) Q b.
Proof.
  intros Hwf Hs Hc HQ. pose proof (proj1 Hwf) as Hn.
  unfold bitmap_scan. wp_bind. apply wp_gets with (f := id). simpl. wp_assert; [lia|].
  destruct (Z.leb_spec cnt (bit_cnt b)) as [Hle|Hgt].
  - wp_bind.
    apply (wp_for_return (λ i b', b' = b ∧ ∀ k, start ≤ k < i → ¬ group b cnt v k)).
    + split; [done|]. lia.
    + intros i b' Hi [-> Hnone]. wp_bind. apply bitmap_contains_spec; [done | lia..|].
      intros c Hcont. apply wp_ret.
      destruct c; simpl.
      * split; [done|]. intros k Hk. destruct (decide (k = i)) as [->|]; [|apply Hnone; lia].
        intros [_ Hall]. destruct (proj1 Hcont eq_refl) as (j & Hj & Hbit).
        rewrite Hall in Hbit by done. by destruct v.
      * apply wp_ret, HQ. left. split; [lia|]. split; [|done]. split; [lia|].
        intros j Hj. destruct (decide (bit b j = v)) as [|Hne]; [done|].
        exfalso. enough (false = true) by done. apply Hcont. exists j. split; [done|].
        by destruct (bit b j), v.
    + intros b' [-> Hnone]. apply wp_ret, HQ. right. split; [done|]. intros i Hi Hgrp.
      apply (Hnone i); [|done]. destruct Hgrp. lia.
  - apply wp_ret, HQ. right. split; [done|]. intros i Hi [Hle _]. lia.
Qed.

Lemma bitmap_scan_and_flip_spec b start cnt v (Q : Z → bitmap → Prop) :
  wf b → 0 ≤ start ≤ bit_cnt b → 0 ≤ cnt →
  (∀ r b', first_group b start cnt v r →
     updated b b' (λ j, if decide (r ≠ BITMAP_ERROR ∧ r ≤ j < r + cnt)
                        then Some (negb v) else None) →
     Q r b') →
  wp (bitmap_scan_and_flip start cnt v) Q b.
Proof.
  intros Hwf Hs Hc HQ. pose proof (proj1 Hwf) as Hn. unfold bitmap_scan_and_flip. wp_bind.
  apply bitmap_scan_spec; [done..|]. intros r Hr. wp_bind.
  destruct (Z.eqb_spec r BITMAP_ERROR) as [->|Hne]; simpl.
  - apply wp_ret, wp_ret, HQ; [done|]. split; [done|]. split; [done|]. intros j Hj.
    by rewrite decide_False by tauto.
  - assert (start ≤ r ≤ bit_cnt b - cnt) by (destruct Hr as [(?&_)|[? _]]; [lia | done]).
    eapply wp_mono; [apply bitmap_set_multiple_spec; [done | lia..]|].
    intros [] b' (Hwf' & Hcnt & Hbits). apply wp_ret, HQ; [done|].
    split; [done|]. split; [done|]. intros j Hj. rewrite Hbits by done.
    repeat case_decide; done || lia.
Qed.

Lemma bitmap_flip_spec b i :
  wf b → 0 ≤ i < bit_cnt b →
  wp (bitmap_flip i)
     (λ _ b', updated b b' (λ j, if decide (j = i) then Some (negb (bit b i)) else None)) b.
Proof.
  intros Hwf Hi. destruct (wf_word b i Hwf Hi) as (w & Hw & Hrange & Hnth).
  pose proof (Z.mod_pos_bound i 32) as Hmod.
  assert (wp (w ← load_word (elem_idx i); store_word (elem_idx i)
                (if bit b i then Z.land w (u32 (Z.lnot (bit_mask i))) else Z.lor w (bit_mask i)))
             (λ _ b', updated b b' (λ j, if decide (j = i) then Some (negb (bit b i)) else None)) b)
    as Hwp.
  { destruct (bit b i); [by apply bitmap_reset_spec | by apply bitmap_mark_spec]. }
  revert Hwp. unfold bitmap_flip, wp, load_word, store_word, get, put, of_option, mbind, M_bind.
  rewrite Hw. intros Hu. enough (Z.lxor w (bit_mask i) =
    if bit b i then Z.land w (u32 (Z.lnot (bit_mask i))) else Z.lor w (bit_mask i)) as -> by done.
  unfold bit, ELEM_BITS. rewrite Hnth. apply Z.bits_inj'. intros k Hk.
  destruct (decide (k < 32)); [|destruct (Z.testbit w (i mod 32));
    rewrite ?Z.lxor_spec, ?Z.land_spec, ?Z.lor_spec, ?(testbit_high w 32 k) by lia;
    rewrite testbit_mask, bool_decide_false by lia; done].
  rewrite Z.lxor_spec, testbit_mask by done.
  destruct (Z.testbit w (i mod 32)) eqn:E;
    rewrite ?Z.land_spec, ?Z.lor_spec, ?testbit_u32, ?Z.lnot_spec, ?testbit_mask by lia;
    case_bool_decide as Ek; rewrite ?Ek, ?E; by destruct (Z.testbit w k).
Qed.

Lemma count_loop_spec b n start cnt i v acc (Q : Z → bitmap → Prop) :
  wf b → 0 ≤ start → 0 ≤ i → start + cnt ≤ bit_cnt b → i + Z.of_nat n = cnt → 0 ≤ acc ≤ i →
  Q (acc + Z.of_nat (length (filter (λ j, bit b j = v) (seqZ (start + i) (Z.of_nat n))))) b →
  wp (count_loop n i start v acc) Q b.
Proof.
  intros Hwf Hs. revert i acc. pose proof (proj1 Hwf) as Hn.
  induction n as [|n IH]; intros i acc Hi Hle Hn' Hacc HQ; simpl.
  - apply wp_ret. revert HQ. simpl. by rewrite Z.add_0_r.
  - wp_bind. rewrite u32_small by lia. apply bitmap_test_spec; [done | lia|].
    assert (u32 (acc + 1) = acc + 1) as -> by (apply u32_small; lia).
    apply IH; [lia | lia | lia | case_bool_decide; lia|]. revert HQ.
    rewrite (seqZ_cons (start + i)) by lia.
    replace (Z.succ (start + i)) with (start + (i + 1)) by lia.
    replace (Z.pred (Z.of_nat (S n))) with (Z.of_nat n) by lia.
    rewrite filter_cons. case_bool_decide; case_decide; try done; simpl; intros HQ.
    by replace (acc + 1 + Z.of_nat (length (filter (λ j, bit b j = v) (seqZ (start + (i + 1)) (Z.of_nat n)))))
      with (acc + Z.of_nat (S (length (filter (λ j, bit b j = v) (seqZ (start + (i + 1)) (Z.of_nat n)))))) by lia.
Qed.

Definition small_bitmap : bitmap := mk_bitmap 40 [23; 0].

Lemma small_bitmap_wf : wf small_bitmap.
Proof. split; [simpl; lia|]. split; [done|]. repeat constructor; lia. Qed.

(** [bitmap_scan_and_flip] returns the lowest index at or after [start] of a
    group of [cnt] bits that are all [value], flips exactly that group, and
    reports [BITMAP_ERROR], changing nothing, only when there is no such
    group. *)
Theorem bitmap_scan_and_flip_first_fit b start cnt v :
  wf b → 0 ≤ start ≤ bit_cnt b → 0 ≤ cnt →
  ∃ r b', bitmap_scan_and_flip start cnt v b = Ok (r, b')
    ∧ first_group b start cnt v r
    ∧ updated b b' (λ j, if decide (r ≠ BITMAP_ERROR ∧ r ≤ j < r + cnt)
                         then Some (negb v) else None).
Proof.
  intros Hwf Hs Hc. apply (wp_Ok (bitmap_scan_and_flip start cnt v)
    (λ r b', first_group b start cnt v r ∧ updated b b' _)).
  by apply bitmap_scan_and_flip_spec.
Qed.

Lemma bitmap_scan_and_flip_first_fit_witness :
  ∃ r b', bitmap_scan_and_flip 2 3 false small_bitmap = Ok (r, b')
    ∧ first_group small_bitmap 2 3 false r
    ∧ updated small_bitmap b' (λ j, if decide (r ≠ BITMAP_ERROR ∧ r ≤ j < r + 3)
                                    then Some (negb false) else None).
Proof.
  apply (bitmap_scan_and_flip_first_fit small_bitmap 2 3 false); [apply small_bitmap_wf | simpl; lia..].
Defined.

(** [bitmap_count] returns the number of bits of the range that have the
    given value. *)
Theorem bitmap_count_correct b start cnt v :
  wf b → 0 ≤ start → 0 ≤ cnt → start + cnt ≤ bit_cnt b →
  bitmap_count start cnt v b
  = Ok (Z.of_nat (length (filter (λ j, bit b j = v) (seqZ start cnt))), b).
Proof.
  intros Hwf Hs Hc Hle. pose proof (proj1 Hwf) as Hn.
  assert (wp (bitmap_count start cnt v)
    (λ r b', r = Z.of_nat (length (filter (λ j, bit b j = v) (seqZ start cnt))) ∧ b' = b) b)
    as (r & b' & -> & -> & ->)%wp_Ok; [|done].
  unfold bitmap_count. wp_bind. apply wp_gets with (f := id). simpl.
  wp_assert; [lia|]. wp_assert; [rewrite u32_small; lia|].
  apply (count_loop_spec b _ start cnt); [done | lia..|].
  by rewrite Z.add_0_r, Z2Nat.id by lia.
Qed.

Lemma bitmap_count_correct_witness :
  bitmap_count 1 5 true small_bitmap
  = Ok (Z.of_nat (length (filter (λ j, bit small_bitmap j = true) (seqZ 1 5))), small_bitmap).
Proof.
  apply (bitmap_count_correct small_bitmap 1 5 true); [apply small_bitmap_wf | simpl; lia..].
Defined.

(** creating a bitmap makes every bit false whatever the allocated words
    held. *)
Theorem bitmap_create_cleared words n :
  wf (mk_bitmap n words) →
  ∃ b, bitmap_create true (Some words) n = Ok (Some b)
    ∧ wf b ∧ bit_cnt b = n ∧ ∀ j, 0 ≤ j < n → bit b j = false.
Proof.
  intros Hwf. unfold bitmap_create.
  destruct (proj1 (wp_Ok _ _ _) (bitmap_set_all_spec _ false Hwf)) as ([] & b & -> & Hwf' & Hcnt & Hbits).
  exists b. split; [done|]. split; [done|]. split; [done|]. intros j Hj.
  rewrite Hbits by lia. simpl. by rewrite decide_True by done.
Qed.

Lemma bitmap_create_cleared_witness :
  ∃ b, bitmap_create true (Some [23; 0]) 40 = Ok (Some b)
    ∧ wf b ∧ bit_cnt b = 40 ∧ ∀ j, 0 ≤ j < 40 → bit b j = false.
Proof. apply (bitmap_create_cleared [23; 0] 40), small_bitmap_wf. Defined.

End Bitmap.
