(* ===== verification/Cstring.v ===== *)
(** * Memory and strings: lib/string.c

    Memory is a finite map from addresses to bytes.  Reading a byte that is
    not in the map, or writing through a null pointer, is [Err Fault]; the
    assertions of the source are [Err Panic].  Loops over a null-terminated
    string take a bound [fuel]; the lemmas show that a bound larger than the
    length of the string suffices. *)
From stdpp Require Import base gmap list.
From Stdlib Require Import ZArith Lia.
From S2P Require Import Prelude.

Module Mem.
Abbreviation mem := (gmap Z Z).
Definition NULL : Z := 0.

Definition load (p : Z) : M mem Z :=
  λ m, match m !! p with Some c => Ok (c, m) | None => Err Fault end.
Definition store (p c : Z) : M mem unit :=
  λ m, if p =? NULL then Err Fault else Ok (tt, <[p := c]> m).

(** The bytes [s] at address [p]. *)
Fixpoint bytes (m : mem) (p : Z) (s : list Z) : Prop :=
  match s with
  | [] => True
  | c :: s => m !! p = Some c ∧ bytes m (p + 1) s
  end.

(** The null-terminated string [s] at address [p]. *)
Definition cstr (m : mem) (p : Z) (s : list Z) : Prop :=
  0 < p ∧ bytes m p (s ++ [0]) ∧ Forall (λ c, 0 < c < 256) s.

(** Memory after the bytes [s] have been written at [p]. *)
Fixpoint write (p : Z) (s : list Z) (m : mem) : mem :=
  match s with
  | [] => m
  | c :: s => write (p + 1) s (<[p := c]> m)
  end.

Lemma lookup_write p s m a :
  write p s m !! a =
  if decide (p ≤ a < p + Z.of_nat (length s)) then s !! Z.to_nat (a - p) else m !! a.
Proof.
  revert p m. induction s as [|c s IH]; intros p m; simpl.
  - by rewrite decide_False by lia.
  - rewrite IH, lookup_insert. destruct (decide (p = a)) as [->|].
    + rewrite decide_False, decide_True by lia. by rewrite Z.sub_diag.
    + repeat case_decide; try lia; [|done].
      by replace (Z.to_nat (a - p)) with (S (Z.to_nat (a - (p + 1)))) by lia.
Qed.

Lemma write_app p s t m : write p (s ++ t) m = write (p + Z.of_nat (length s)) t (write p s m).
Proof.
  revert p m. induction s as [|c s IH]; intros p m; simpl.
  - by rewrite Z.add_0_r.
  - rewrite IH. f_equal. lia.
Qed.

Lemma bytes_app m p s t : bytes m p (s ++ t) ↔ bytes m p s ∧ bytes m (p + Z.of_nat (length s)) t.
Proof.
  revert p. induction s as [|c s IH]; intros p; simpl.
  - rewrite Z.add_0_r. tauto.
  - rewrite IH. replace (p + 1 + Z.of_nat (length s)) with (p + Z.of_nat (S (length s))) by lia.
    tauto.
Qed.

Lemma bytes_lookup m p s i c : bytes m p s → s !! i = Some c → m !! (p + Z.of_nat i) = Some c.
Proof.
  revert p i. induction s as [|c' s IH]; intros p i; simpl; [done|]. intros [Hp Hs] Hi.
  destruct i as [|i]; simplify_eq/=; [by rewrite Z.add_0_r|].
  replace (p + Z.of_nat (S i)) with (p + 1 + Z.of_nat i) by lia. eauto.
Qed.

Lemma bytes_intro m p s :
  (∀ i c, s !! i = Some c → m !! (p + Z.of_nat i) = Some c) → bytes m p s.
Proof.
  revert p. induction s as [|c s IH]; intros p Hs; simpl; [done|]. split.
  - specialize (Hs 0%nat c eq_refl). by rewrite Z.add_0_r in Hs.
  - apply IH. intros i c' Hi. replace (p + 1 + Z.of_nat i) with (p + Z.of_nat (S i)) by lia.
    by apply Hs.
Qed.

(** Memory that agrees on the range of [s] holds [s] too. *)
Lemma bytes_agree m m' p s :
  (∀ a, p ≤ a < p + Z.of_nat (length s) → m' !! a = m !! a) → bytes m p s → bytes m' p s.
Proof.
  intros Hag Hs. apply bytes_intro. intros i c Hi. pose proof (lookup_lt_Some _ _ _ Hi).
  rewrite Hag by lia. by apply (bytes_lookup m p s).
Qed.

Lemma bytes_write p s m : bytes (write p s m) p s.
Proof.
  apply bytes_intro. intros i c Hi. pose proof (lookup_lt_Some _ _ _ Hi).
  rewrite lookup_write, decide_True by lia. by rewrite Z.add_simpl_l, Nat2Z.id.
Qed.

Lemma cstr_cons m p c s : cstr m p (c :: s) → m !! p = Some c ∧ 0 < c < 256 ∧ cstr m (p + 1) s.
Proof.
  intros (Hp & [Hc Hs] & Hall). inversion Hall; subst.
  split; [done|]. split; [done|]. split; [lia | done].
Qed.

Lemma cstr_nil m p : cstr m p [] → m !! p = Some 0.
Proof. intros (_ & [H _] & _). done. Qed.

Lemma cstr_pos m p s : cstr m p s → 0 < p.
Proof. by intros [? _]. Qed.

Lemma cstr_app m p s t : cstr m p (s ++ t) → cstr m (p + Z.of_nat (length s)) t.
Proof.
  intros (Hp & Hb & Hall). rewrite <- app_assoc in Hb. apply bytes_app in Hb as [_ Hb].
  apply Forall_app in Hall as [_ Hall]. split; [lia | done].
Qed.

Lemma cstr_agree m m' p s :
  (∀ a, p ≤ a ≤ p + Z.of_nat (length s) → m' !! a = m !! a) → cstr m p s → cstr m' p s.
Proof.
  intros Hag (Hp & Hb & Hall). split; [done|]. split; [|done].
  eapply bytes_agree; [|done]. intros a Ha. apply Hag. rewrite length_app in Ha. simpl in Ha. lia.
Qed.
End Mem.

Module Cstring.
Import Mem.

Definition memcpy (dst src size : Z) : M mem Z :=
  ASSERT (negb (dst =? NULL) || (size =? 0)) ;;
  ASSERT (negb (src =? NULL) || (size =? 0)) ;;
  for_loop (Z.to_nat size) 0 (λ i, c ← load (src + i); store (dst + i) c) ;;
  mret dst.

(** The result is the C variable [dst] as the loops leave it. *)
Definition memmove (dst src size : Z) : M mem Z :=
  ASSERT (negb (dst =? NULL) || (size =? 0)) ;;
  ASSERT (negb (src =? NULL) || (size =? 0)) ;;
  if dst <? src then
    for_loop (Z.to_nat size) 0 (λ i, c ← load (src + i); store (dst + i) c) ;;
    mret (dst + size)
  else
    for_loop (Z.to_nat size) 0 (λ i,
      c ← load (src + size - (i + 1)); store (dst + size - (i + 1)) c) ;;
    mret dst.

Definition memset (dst value size : Z) : M mem Z :=
  ASSERT (negb (dst =? NULL) || (size =? 0)) ;;
  for_loop (Z.to_nat size) 0 (λ i, store (dst + i) (u8 value)) ;;
  mret dst.

Definition memcmp (a b size : Z) : M mem Z :=
  ASSERT (negb (a =? NULL) || (size =? 0)) ;;
  ASSERT (negb (b =? NULL) || (size =? 0)) ;;
  o ← for_return (Z.to_nat size) 0 (λ i,
        x ← load (a + i); y ← load (b + i);
        mret (if negb (x =? y) then Some (if y <? x then 1 else -1) else None));
  mret (default 0 o).

Definition strcmp (fuel : nat) (a b : Z) : M mem Z :=
  ASSERT (negb (a =? NULL)) ;;
  ASSERT (negb (b =? NULL)) ;;
  loop fuel (λ '(a, b),
    x ← load a; y ← load b;
    mret (if negb (x =? 0) && (x =? y) then inl (a + 1, b + 1)
          else inr (if x <? y then -1 else if y <? x then 1 else 0))) (a, b).

Definition memchr (block ch size : Z) : M mem (option Z) :=
  ASSERT (negb (block =? NULL) || (size =? 0)) ;;
  for_return (Z.to_nat size) 0 (λ i,
    x ← load (block + i);
    mret (if x =? u8 ch then Some (block + i) else None)).

Definition strchr (fuel : nat) (string c : Z) : M mem (option Z) :=
  ASSERT (negb (string =? NULL)) ;;
  loop fuel (λ p,
    x ← load p;
    mret (if x =? u8 c then inr (Some p)
          else if x =? 0 then inr None else inl (p + 1))) string.

Definition strcspn (fuel : nat) (string stop : Z) : M mem Z :=
  loop fuel (λ length,
    x ← load (string + length);
    if negb (x =? 0) then
      o ← strchr fuel stop x;
      mret (match o with Some _ => inr length | None => inl (length + 1) end)
    else mret (inr length)) 0.

Definition strpbrk (fuel : nat) (string stop : Z) : M mem (option Z) :=
  loop fuel (λ p,
    x ← load p;
    if negb (x =? 0) then
      o ← strchr fuel stop x;
      mret (match o with Some _ => inr (Some p) | None => inl (p + 1) end)
    else mret (inr None)) string.

Definition strrchr (fuel : nat) (string c : Z) : M mem (option Z) :=
  loop fuel (λ '(s, p),
    x ← load s;
    mret (if negb (x =? 0) then inl (s + 1, if x =? u8 c then Some s else p)
          else inr p)) (string, None).

Definition strspn (fuel : nat) (string skip : Z) : M mem Z :=
  loop fuel (λ length,
    x ← load (string + length);
    if negb (x =? 0) then
      o ← strchr fuel skip x;
      mret (match o with Some _ => inl (length + 1) | None => inr length end)
    else mret (inr length)) 0.

Definition strlen (fuel : nat) (string : Z) : M mem Z :=
  ASSERT (negb (string =? NULL)) ;;
  loop fuel (λ p,
    x ← load p;
    mret (if negb (x =? 0) then inl (p + 1) else inr (p - string))) string.

Definition strnlen (fuel : nat) (string maxlen : Z) : M mem Z :=
  loop fuel (λ length,
    x ← load (string + length);
    mret (if negb (x =? 0) && (length <? maxlen) then inl (length + 1)
          else inr length)) 0.

Definition strstr (fuel : nat) (haystack needle : Z) : M mem (option Z) :=
  haystack_len ← strlen fuel haystack;
  needle_len ← strlen fuel needle;
  if needle_len <=? haystack_len then
    for_return (Z.to_nat (haystack_len - needle_len + 1)) 0 (λ i,
      r ← memcmp (haystack + i) needle needle_len;
      mret (if r =? 0 then Some (haystack + i) else None))
  else mret None.

(** The result and the new value of [*save_ptr]; [s] is [NULL] to go on
    from the saved position. *)
Definition strtok_r (fuel : nat) (s delimiters save_ptr : Z) : M mem (option Z * Z) :=
  ASSERT (negb (delimiters =? NULL)) ;;
  let s := if s =? NULL then save_ptr else s in
  ASSERT (negb (s =? NULL)) ;;
  o ← loop fuel (λ s,
        x ← load s;
        d ← strchr fuel delimiters x;
        mret (match d with
              | Some _ => if x =? 0 then inr (inl s) else inl (s + 1)
              | None => inr (inr s)
              end)) s;
  match o with
  | inl s => mret (None, s)
  | inr token =>
      s ← loop fuel (λ s,
            x ← load s;
            d ← strchr fuel delimiters x;
            mret (match d with None => inl (s + 1) | Some _ => inr s end)) token;
      x ← load s;
      if negb (x =? 0) then store s 0 ;; mret (Some token, s + 1)
      else mret (Some token, s)
  end.

Definition strlcpy (fuel : nat) (dst src size : Z) : M mem Z :=
  ASSERT (negb (dst =? NULL)) ;;
  ASSERT (negb (src =? NULL)) ;;
  src_len ← strlen fuel src;
  (if 0 <? size then
     let dst_len := size - 1 in
     let dst_len := if src_len <? dst_len then src_len else dst_len in
     memcpy dst src dst_len ;;
     store (dst + dst_len) 0
   else mret tt) ;;
  mret src_len.

Definition strlcat (fuel : nat) (dst src size : Z) : M mem Z :=
  ASSERT (negb (dst =? NULL)) ;;
  ASSERT (negb (src =? NULL)) ;;
  src_len ← strlen fuel src;
  dst_len ← strlen fuel dst;
  (if (0 <? size) && (dst_len <? size) then
     let copy_cnt := size - dst_len - 1 in
     let copy_cnt := if src_len <? copy_cnt then src_len else copy_cnt in
     memcpy (dst + dst_len) src copy_cnt ;;
     store (dst + dst_len + copy_cnt) 0
   else mret tt) ;;
  mret (src_len + dst_len).

(** ** Blocks of memory *)

Lemma wp_load p c m (Q : Z → mem → Prop) : m !! p = Some c → Q c m → wp (load p) Q m.
Proof. unfold wp, load. by intros ->. Qed.

Lemma wp_store p c m (Q : unit → mem → Prop) : 0 < p → Q tt (<[p := c]> m) → wp (store p c) Q m.
Proof.
  intros Hp HQ. unfold wp, store. destruct (Z.eqb_spec p NULL); [|done].
  unfold NULL in *. lia.
Qed.

Lemma nonnull_ok p (b : bool) : 0 < p → negb (p =? NULL) || b = true.
Proof. intros. destruct (Z.eqb_spec p NULL); [unfold NULL in *; lia | done]. Qed.

(** Copying in increasing order of addresses is right when the destination
    does not start inside the source. *)
Lemma copy_forward dst src s m (Q : unit → mem → Prop) :
  0 < dst → bytes m src s → dst ≤ src ∨ src + Z.of_nat (length s) ≤ dst →
  Q tt (write dst s m) →
  wp (for_loop (length s) 0 (λ i, c ← load (src + i); store (dst + i) c)) Q m.
Proof.
  intros Hd Hs Hov HQ.
  apply (wp_for_loop (λ i m', 0 ≤ i ∧ m' = write dst (take (Z.to_nat i) s) m)).
  - split; [lia|]. by rewrite take_0.
  - intros i m' Hi [_ ->]. destruct (lookup_lt_is_Some_2 s (Z.to_nat i)) as [c Hc]; [lia|].
    wp_bind. apply (wp_load _ c).
    { rewrite lookup_write, length_take, decide_False by lia.
      rewrite <- (Z2Nat.id i) by lia. by apply (bytes_lookup m src s). }
    apply wp_store; [lia|]. split; [lia|].
    replace (Z.to_nat (i + 1)) with (S (Z.to_nat i)) by lia.
    rewrite (take_S_r _ _ c) by done. rewrite write_app, length_take. simpl.
    f_equal. lia.
  - intros m' [_ ->]. rewrite take_ge by lia. done.
Qed.

(** Copying in decreasing order is right when the source does not start
    inside the destination. *)
Lemma copy_backward dst src s m (Q : unit → mem → Prop) :
  0 < dst → bytes m src s → src ≤ dst →
  Q tt (write dst s m) →
  wp (for_loop (length s) 0 (λ i,
        c ← load (src + Z.of_nat (length s) - (i + 1));
        store (dst + Z.of_nat (length s) - (i + 1)) c)) Q m.
Proof.
  intros Hd Hs Hov HQ. set (n := Z.of_nat (length s)).
  apply (wp_for_loop (λ i m', 0 ≤ i ∧ m' = write (dst + n - i) (drop (Z.to_nat (n - i)) s) m)).
  - split; [lia|]. by rewrite drop_ge by lia.
  - intros i m' Hi [_ ->]. set (k := Z.to_nat (n - (i + 1))).
    destruct (lookup_lt_is_Some_2 s k) as [c Hc]; [lia|]. wp_bind. apply (wp_load _ c).
    { rewrite lookup_write, length_drop, decide_False by lia.
      replace (src + n - (i + 1)) with (src + Z.of_nat k) by lia. by apply (bytes_lookup m src s). }
    apply wp_store; [lia|]. split; [lia|].
    replace (Z.to_nat (n - (i + 1))) with k by lia. rewrite (drop_S s c k) by done.
    replace (Z.to_nat (n - i)) with (S k) by lia. apply map_eq. intros a.
    rewrite lookup_insert, !lookup_write. simpl. rewrite length_drop.
    destruct (decide (dst + n - (i + 1) = a)) as [<-|].
    + rewrite decide_True by lia. by rewrite Z.sub_diag.
    + repeat case_decide; try lia; [|done].
      by replace (Z.to_nat (a - (dst + n - (i + 1)))) with (S (Z.to_nat (a - (dst + n - i)))) by lia.
  - intros m' [_ ->].
    replace (Z.to_nat (n - (0 + Z.of_nat (length s)))) with 0%nat by lia.
    replace (dst + n - (0 + Z.of_nat (length s))) with dst by lia. by rewrite drop_0.
Qed.

Lemma memcpy_spec dst src s m (Q : Z → mem → Prop) :
  0 < dst → 0 < src → bytes m src s → dst ≤ src ∨ src + Z.of_nat (length s) ≤ dst →
  Q dst (write dst s m) → wp (memcpy dst src (Z.of_nat (length s))) Q m.
Proof.
  intros Hd Hs Hb Hov HQ. unfold memcpy. wp_assert; [by apply nonnull_ok|].
  wp_assert; [by apply nonnull_ok|]. wp_bind. rewrite Nat2Z.id. by apply copy_forward.
Qed.

Lemma memset_spec dst v n m (Q : Z → mem → Prop) :
  0 < dst → Q dst (write dst (replicate n (u8 v)) m) → wp (memset dst v (Z.of_nat n)) Q m.
Proof.
  intros Hd HQ. unfold memset. wp_assert; [by apply nonnull_ok|]. wp_bind.
  apply (wp_for_loop (λ i m', 0 ≤ i ∧ m' = write dst (replicate (Z.to_nat i) (u8 v)) m)).
  - split; [lia|]. done.
  - intros i m' Hi [_ ->]. apply wp_store; [lia|]. split; [lia|].
    replace (Z.to_nat (i + 1)) with (Z.to_nat i + 1)%nat by lia.
    rewrite replicate_add, write_app, length_replicate. simpl. f_equal. lia.
  - intros m' [_ ->]. apply wp_ret.
    by replace (Z.to_nat (0 + Z.of_nat (Z.to_nat (Z.of_nat n)))) with n by lia.
Qed.

Lemma memset_run dst v n m :
  0 < dst → 0 ≤ n → memset dst v n m = Ok (dst, write dst (replicate (Z.to_nat n) (u8 v)) m).
Proof.
  intros Hd Hn.
  assert (wp (memset dst v (Z.of_nat (Z.to_nat n))) (λ r m', r = dst ∧
    m' = write dst (replicate (Z.to_nat n) (u8 v)) m) m) as Hwp by by apply memset_spec.
  rewrite Z2Nat.id in Hwp by done. by apply wp_Ok in Hwp as (r & m' & -> & -> & ->).
Qed.

(** Memory with the strings "/bin/ls" at 100, "/bin" at 200 and "/" at 300. *)
Definition paths : mem :=
  write 100 [47; 98; 105; 110; 47; 108; 115; 0]
    (write 200 [47; 98; 105; 110; 0] (write 300 [47; 0] ∅)).

Lemma path_100 : cstr paths 100 [47; 98; 105; 110; 47; 108; 115].
Proof. split; [done|]. split; [repeat split | repeat constructor; lia]. Qed.

Lemma path_200 : cstr paths 200 [47; 98; 105; 110].
Proof. split; [done|]. split; [repeat split | repeat constructor; lia]. Qed.

Lemma path_300 : cstr paths 300 [47].
Proof. split; [done|]. split; [repeat split | repeat constructor; lia]. Qed.

(** [memmove] writes the original bytes of the source to the destination
    and changes nothing else, however the two blocks overlap. *)
Theorem memmove_overlap dst src s m :
  0 < dst → 0 < src → bytes m src s →
  ∃ r, memmove dst src (Z.of_nat (length s)) m = Ok (r, write dst s m).
Proof.
  intros Hd Hs Hb.
  assert (wp (memmove dst src (Z.of_nat (length s))) (λ _ m', m' = write dst s m) m)
    as (r & m' & -> & ->)%wp_Ok; [|by exists r].
  unfold memmove. wp_assert; [by apply nonnull_ok|]. wp_assert; [by apply nonnull_ok|].
  rewrite Nat2Z.id. destruct (Z.ltb_spec dst src); wp_bind.
  - apply copy_forward; [done | done | lia | done].
  - apply copy_backward; [done | done | lia | done].
Qed.

Lemma memmove_overlap_witness :
  ∃ r, memmove 102 100 4 paths = Ok (r, write 102 [47; 98; 105; 110] paths).
Proof. apply (memmove_overlap 102 100 [47; 98; 105; 110] paths); [lia | lia | repeat split]. Defined.

(** ** Strings *)

(** The index of the first element of [l] equal to [c]. *)
Fixpoint index_of (c : Z) (l : list Z) : option Z :=
  match l with
  | [] => None
  | x :: l => if x =? c then Some 0 else Z.succ <$> index_of c l
  end.

Lemma strlen_loop m p0 p s fuel (Q : Z → mem → Prop) :
  cstr m p s → (length s < fuel)%nat → Q (p + Z.of_nat (length s) - p0) m →
  wp (loop fuel (λ p, x ← load p;
        mret (if negb (x =? 0) then inl (p + 1) else inr (p - p0))) p) Q m.
Proof.
  revert p fuel. induction s as [|c s IH]; intros p fuel Hs Hf HQ;
    (destruct fuel as [|fuel]; [simpl in Hf; lia|]); simpl.
  - wp_bind. wp_bind. apply (wp_load _ 0); [by apply cstr_nil|]. apply wp_ret. simpl.
    apply wp_ret. simpl in HQ. by rewrite Z.add_0_r in HQ.
  - apply cstr_cons in Hs as (Hc & Hr & Hs). wp_bind. wp_bind. apply (wp_load _ c); [done|].
    apply wp_ret. destruct (Z.eqb_spec c 0); [lia|]. simpl. apply IH; [done | simpl in Hf; lia|].
    by replace (p + 1 + Z.of_nat (length s) - p0) with (p + Z.of_nat (length (c :: s)) - p0)
      by (simpl; lia).
Qed.

Lemma strlen_spec m p s fuel (Q : Z → mem → Prop) :
  cstr m p s → (length s < fuel)%nat → Q (Z.of_nat (length s)) m → wp (strlen fuel p) Q m.
Proof.
  intros Hs Hf HQ. pose proof (cstr_pos _ _ _ Hs). unfold strlen.
  wp_assert; [rewrite <- (orb_false_r (negb _)); by apply nonnull_ok|].
  eapply strlen_loop; [done..|].
  by replace (p + Z.of_nat (length s) - p) with (Z.of_nat (length s)) by lia.
Qed.

Lemma strchr_loop m p s c fuel (Q : option Z → mem → Prop) :
  cstr m p s → 0 ≤ c < 256 → (length s < fuel)%nat →
  Q (Z.add p <$> index_of c (s ++ [0])) m →
  wp (loop fuel (λ p, x ← load p;
        mret (if x =? u8 c then inr (Some p) else if x =? 0 then inr None else inl (p + 1))) p) Q m.
Proof.
  intros Hs Hc. revert p fuel Hs. rewrite u8_small by lia.
  induction s as [|x s IH]; intros p fuel Hs Hf HQ;
    (destruct fuel as [|fuel]; [simpl in Hf; lia|]); cbn [loop app index_of] in HQ |- *.
  - wp_bind. wp_bind. apply (wp_load _ 0); [by apply cstr_nil|]. apply wp_ret.
    destruct (Z.eqb_spec 0 c); apply wp_ret; simpl in HQ; [|done].
    by rewrite Z.add_0_r in HQ.
  - apply cstr_cons in Hs as (Hx & Hr & Hs). wp_bind. wp_bind. apply (wp_load _ x); [done|].
    apply wp_ret. destruct (Z.eqb_spec x c).
    + apply wp_ret. simpl in HQ. by rewrite Z.add_0_r in HQ.
    + destruct (Z.eqb_spec x 0); [lia|]. apply IH; [done | simpl in Hf; lia|].
      destruct (index_of c (s ++ [0])); simpl in *; [|done].
      by replace (p + 1 + z) with (p + Z.succ z) by lia.
Qed.

Lemma strchr_spec m p s c fuel (Q : option Z → mem → Prop) :
  cstr m p s → 0 ≤ c < 256 → (length s < fuel)%nat →
  Q (Z.add p <$> index_of c (s ++ [0])) m → wp (strchr fuel p c) Q m.
Proof.
  intros Hs Hc Hf HQ. pose proof (cstr_pos _ _ _ Hs). unfold strchr.
  wp_assert; [rewrite <- (orb_false_r (negb _)); by apply nonnull_ok|].
  by eapply strchr_loop.
Qed.

Lemma index_of_elem c l : is_Some (index_of c l) ↔ c ∈ l.
Proof.
  induction l as [|x l IH]; simpl.
  - split; [by intros [? ?] | by intros ?%not_elem_of_nil].
  - rewrite elem_of_cons, <- IH. destruct (Z.eqb_spec x c) as [->|].
    + split; [by left | eauto].
    + rewrite fmap_is_Some. split; [by right | by intros [?|?]].
Qed.

(** Lexicographic comparison of byte strings. *)
Fixpoint lex (a b : list Z) : Z :=
  match a, b with
  | [], [] => 0
  | [], _ => -1
  | _, [] => 1
  | x :: a, y :: b => if x =? y then lex a b else if x <? y then -1 else 1
  end.

(** [strcmp] returns, and its result is the lexicographic comparison of the
    two strings as sequences of unsigned characters. *)
Theorem strcmp_lexicographic m p q a b fuel :
  cstr m p a → cstr m q b → (length a < fuel)%nat →
  strcmp fuel p q m = Ok (lex a b, m).
Proof.
  intros Ha Hb Hf. enough (wp (strcmp fuel p q) (λ r m', r = lex a b ∧ m' = m) m)
    as (r & m' & -> & -> & ->)%wp_Ok by done.
  pose proof (cstr_pos _ _ _ Ha). pose proof (cstr_pos _ _ _ Hb). unfold strcmp.
  do 2 (wp_assert; [rewrite <- (orb_false_r (negb _)); by apply nonnull_ok|]).
  clear H H0. revert p q b fuel Ha Hb Hf.
  induction a as [|x a IH]; intros p q b fuel Ha Hb Hf;
    (destruct fuel as [|fuel]; [simpl in Hf; lia|]); cbn [loop]; wp_bind; wp_bind.
  - apply (wp_load _ 0); [by apply cstr_nil|]. wp_bind. destruct b as [|y b].
    + apply (wp_load _ 0); [by apply cstr_nil|]. done.
    + apply cstr_cons in Hb as (Hy & Hr & Hb). apply (wp_load _ y); [done|].
      apply wp_ret. simpl. destruct (Z.ltb_spec 0 y); [|lia]. done.
  - apply cstr_cons in Ha as (Hx & Hr & Ha). apply (wp_load _ x); [done|]. wp_bind.
    destruct b as [|y b].
    + apply (wp_load _ 0); [by apply cstr_nil|]. apply wp_ret.
      destruct (Z.eqb_spec x 0); [lia|]. simpl.
      destruct (Z.ltb_spec x 0); [lia|]. destruct (Z.ltb_spec 0 x); [done | lia].
    + apply cstr_cons in Hb as (Hy & Hr' & Hb). apply (wp_load _ y); [done|]. apply wp_ret.
      destruct (Z.eqb_spec x 0); [lia|]. simpl. destruct (Z.eqb_spec x y) as [<-|].
      * apply IH; [done..|]. simpl in Hf. lia.
      * apply wp_ret. split; [|done]. destruct (Z.ltb_spec x y); [done|].
        destruct (Z.ltb_spec y x); [done | lia].
Qed.

Lemma strcmp_lexicographic_witness :
  strcmp 10 100 200 paths = Ok (lex [47; 98; 105; 110; 47; 108; 115] [47; 98; 105; 110], paths).
Proof.
  apply (strcmp_lexicographic paths 100 200); [apply path_100 | apply path_200 | simpl; lia].
Defined.

Lemma cstr_write dst s m :
  0 < dst → Forall (λ c, 0 < c < 256) s → cstr (write dst (s ++ [0]) m) dst s.
Proof. intros Hd Hs. split; [done|]. split; [apply bytes_write | done]. Qed.

Lemma cstr_bytes m p s : cstr m p s → bytes m p s.
Proof. intros (_ & Hb & _). by apply bytes_app in Hb as [Hb _]. Qed.

(** [strlcpy] always leaves a null-terminated string of at most [size - 1]
    characters in a nonempty destination, the longest prefix of the source
    that fits; it writes inside the [size] bytes of the destination only, and
    returns the length of the source. *)
Theorem strlcpy_truncates m dst src s size fuel :
  0 < dst → cstr m src s → (length s < fuel)%nat → 0 < size →
  dst ≤ src ∨ src + Z.of_nat (length s) ≤ dst →
  ∃ m', strlcpy fuel dst src size m = Ok (Z.of_nat (length s), m')
    ∧ cstr m' dst (take (Z.to_nat (size - 1)) s)
    ∧ ∀ a, ¬ (dst ≤ a < dst + size) → m' !! a = m !! a.
Proof.
  intros Hd Hs Hf Hsize Hov. set (k := Z.to_nat (size - 1)).
  assert (wp (strlcpy fuel dst src size)
    (λ r m', r = Z.of_nat (length s) ∧ m' = write dst (take k s ++ [0]) m) m)
    as (r & m' & -> & -> & ->)%wp_Ok.
  { pose proof (cstr_pos _ _ _ Hs). unfold strlcpy.
    do 2 (wp_assert; [rewrite <- (orb_false_r (negb _)); by apply nonnull_ok|]).
    wp_bind. apply (strlen_spec _ _ s); [done..|]. wp_bind.
    destruct (Z.ltb_spec 0 size); [|lia]. wp_bind.
    assert ((if Z.of_nat (length s) <? size - 1 then Z.of_nat (length s) else size - 1)
            = Z.of_nat (length (take k s))) as ->.
    { rewrite length_take. destruct (Z.ltb_spec (Z.of_nat (length s)) (size - 1)); lia. }
    apply memcpy_spec; [done | done | | rewrite length_take; lia |].
    { apply cstr_bytes in Hs. rewrite <- (take_drop k s) in Hs. by apply bytes_app in Hs as [Hs _]. }
    apply wp_store; [lia|]. apply wp_ret. split; [done|]. by rewrite write_app. }
  eexists. split; [done|]. split.
  - apply cstr_write; [done|]. apply Forall_take. by destruct Hs as (_ & _ & Hs).
  - intros a Ha. rewrite lookup_write, length_app, length_take, decide_False; [done|]. simpl. lia.
Qed.

Lemma strlcpy_truncates_witness :
  ∃ m', strlcpy 10 400 100 5 paths = Ok (7, m')
    ∧ cstr m' 400 [47; 98; 105; 110]
    ∧ ∀ a, ¬ (400 ≤ a < 400 + 5) → m' !! a = paths !! a.
Proof.
  apply (strlcpy_truncates paths 400 100 [47; 98; 105; 110; 47; 108; 115] 5 10);
    [lia | apply path_100 | simpl; lia | lia | right; simpl; lia].
Defined.

(** ** Tokens *)

(** [s] split after its longest prefix of elements that satisfy [P]. *)
Fixpoint span (P : Z → bool) (s : list Z) : list Z * list Z :=
  match s with
  | [] => ([], [])
  | c :: s' => if P c then (c :: (span P s').1, (span P s').2) else ([], s)
  end.

Lemma span_app P s : (span P s).1 ++ (span P s).2 = s.
Proof. induction s as [|c s IH]; simpl; [done|]. destruct (P c); simpl; by rewrite ?IH. Qed.

Lemma span_fst P s : Forall (λ c, P c = true) (span P s).1.
Proof. induction s as [|c s IH]; simpl; [done|]. destruct (P c) eqn:E; simpl; auto. Qed.

Lemma span_snd P s c t : (span P s).2 = c :: t → P c = false.
Proof.
  induction s as [|x s IH]; simpl; [done|]. destruct (P x) eqn:E; simpl; [done | congruence].
Qed.

Definition delim (ds : list Z) (c : Z) : bool := bool_decide (c ∈ ds).

(** The next token of [s]: the delimiters before it, the token itself and
    what is left, without the delimiter that ends the token. *)
Definition next_token (ds s : list Z) : option (list Z * list Z * list Z) :=
  let '(pre, rest) := span (delim ds) s in
  let '(tok, rest') := span (λ c, negb (delim ds c)) rest in
  match tok with
  | [] => None
  | _ => Some (pre, tok, tail rest')
  end.

Section tokens.
Context (m : mem) (dl : Z) (ds : list Z) (fuel0 : nat).
Context (Hds : cstr m dl ds) (Hfuel0 : (length ds < fuel0)%nat).

Lemma strchr_delim c (Q : option Z → mem → Prop) :
  0 ≤ c < 256 →
  (∀ o, is_Some o ↔ c = 0 ∨ delim ds c = true → Q o m) →
  wp (strchr fuel0 dl c) Q m.
Proof.
  intros Hc HQ. apply (strchr_spec m dl ds); [done..|]. apply HQ. unfold delim.
  rewrite fmap_is_Some, index_of_elem, elem_of_app, list_elem_of_singleton, bool_decide_eq_true.
  tauto.
Qed.

Lemma skip_loop p s fuel (Q : Z + Z → mem → Prop) :
  cstr m p s → (length s < fuel)%nat →
  Q (let '(pre, rest) := span (delim ds) s in
     let p := p + Z.of_nat (length pre) in
     match rest with [] => inl p | _ => inr p end) m →
  wp (loop fuel (λ s, x ← load s; d ← strchr fuel0 dl x;
        mret (match d with
              | Some _ => if x =? 0 then inr (inl s) else inl (s + 1)
              | None => inr (inr s)
              end)) p) Q m.
Proof.
  revert p fuel. induction s as [|c s IH]; intros p fuel Hs Hf HQ;
    (destruct fuel as [|fuel]; [simpl in Hf; lia|]); cbn [loop]; wp_bind; wp_bind.
  - apply (wp_load _ 0); [by apply cstr_nil|]. wp_bind. apply strchr_delim; [lia|].
    intros o [_ [z ->]]; [by left|]. apply wp_ret. simpl. apply wp_ret. simpl in HQ.
    by rewrite Z.add_0_r in HQ.
  - pose proof Hs as (Hc & Hr & Hs')%cstr_cons. apply (wp_load _ c); [done|]. wp_bind.
    apply strchr_delim; [lia|]. intros o Ho. simpl in HQ. destruct (delim ds c) eqn:E.
    + destruct Ho as [_ [z ->]]; [by right|]. apply wp_ret. destruct (Z.eqb_spec c 0); [lia|].
      apply IH; [done | simpl in Hf; lia|]. destruct (span (delim ds) s) as [pre rest]. simpl in *.
      by replace (p + 1 + Z.of_nat (length pre)) with (p + Z.of_nat (S (length pre))) by lia.
    + destruct o; [exfalso; destruct Ho as [Ho _]; destruct Ho as [->|?]; [done | lia | done]|].
      apply wp_ret, wp_ret. simpl in HQ. by rewrite Z.add_0_r in HQ.
Qed.

Lemma token_loop p s fuel (Q : Z → mem → Prop) :
  cstr m p s → (length s < fuel)%nat →
  Q (p + Z.of_nat (length (span (λ c, negb (delim ds c)) s).1)) m →
  wp (loop fuel (λ s, x ← load s; d ← strchr fuel0 dl x;
        mret (match d with None => inl (s + 1) | Some _ => inr s end)) p) Q m.
Proof.
  revert p fuel. induction s as [|c s IH]; intros p fuel Hs Hf HQ;
    (destruct fuel as [|fuel]; [simpl in Hf; lia|]); cbn [loop]; wp_bind; wp_bind.
  - apply (wp_load _ 0); [by apply cstr_nil|]. wp_bind. apply strchr_delim; [lia|].
    intros o [_ [z ->]]; [by left|]. apply wp_ret. simpl. apply wp_ret. simpl in HQ.
    by rewrite Z.add_0_r in HQ.
  - pose proof Hs as (Hc & Hr & Hs')%cstr_cons. apply (wp_load _ c); [done|]. wp_bind.
    apply strchr_delim; [lia|]. intros o Ho. simpl in HQ. destruct (delim ds c) eqn:E.
    + destruct Ho as [_ [z ->]]; [by right|]. apply wp_ret, wp_ret. simpl in HQ.
      by rewrite Z.add_0_r in HQ.
    + destruct o; [exfalso; destruct Ho as [Ho _]; destruct Ho as [->|?]; [done | lia | done]|].
      apply wp_ret. apply IH; [done | simpl in Hf; lia|]. simpl in HQ.
      destruct (span (λ c, negb (delim ds c)) s) as [tok rest]. simpl in *.
      by replace (p + 1 + Z.of_nat (length tok)) with (p + Z.of_nat (S (length tok))) by lia.
Qed.
End tokens.

Lemma next_token_split ds s :
  match next_token ds s with
  | None => (span (delim ds) s).2 = []
  | Some (pre, tok, rest) =>
      pre = (span (delim ds) s).1 ∧ tok = (span (λ c, negb (delim ds c)) (span (delim ds) s).2).1
      ∧ tok ≠ [] ∧ Forall (λ c, delim ds c = true) pre ∧ Forall (λ c, delim ds c = false) tok
      ∧ (s = pre ++ tok ∧ rest = [] ∨ ∃ d, delim ds d = true ∧ s = pre ++ tok ++ d :: rest)
  end.
Proof.
  unfold next_token. pose proof (span_app (delim ds) s) as Hs.
  pose proof (span_fst (delim ds) s) as Hpre. pose proof (span_snd (delim ds) s) as Hhd.
  destruct (span (delim ds) s) as [pre rest]. simpl in *.
  pose proof (span_app (λ c, negb (delim ds c)) rest) as Hr.
  pose proof (span_fst (λ c, negb (delim ds c)) rest) as Htok.
  pose proof (span_snd (λ c, negb (delim ds c)) rest) as Hhd'.
  destruct (span (λ c, negb (delim ds c)) rest) as [tok rest'] eqn:E. simpl in *.
  destruct tok as [|t tok].
  - destruct rest as [|c rest]; [done|]. specialize (Hhd c rest eq_refl). simpl in Hr. subst rest'.
    specialize (Hhd' c rest eq_refl). rewrite Hhd in Hhd'. done.
  - split; [done|]. split; [done|]. split; [done|]. split; [done|]. split.
    { eapply Forall_impl; [exact Htok|]. intros x Hx. by apply negb_true_iff. }
    subst s rest. destruct rest' as [|d rest']; simpl; [by left; rewrite app_nil_r|].
    right. exists d. split; [|done]. by apply negb_false_iff, (Hhd' d rest').
Qed.

Lemma ptr_ok q : 0 < q → negb (q =? NULL) = true.
Proof. intros Hq. rewrite <- (orb_false_r (negb _)). by apply nonnull_ok. Qed.

(** Ending the token in front of the delimiter [d]. *)
Lemma cut_token m t tok d rest :
  let e := t + Z.of_nat (length tok) in
  cstr m t (tok ++ d :: rest) →
  cstr (<[e := 0]> m) t tok ∧ cstr (<[e := 0]> m) (e + 1) rest.
Proof.
  intros e Hs. split.
  - destruct Hs as (Ht & Hb & Hall). apply Forall_app in Hall as [Hall _].
    rewrite <- app_assoc in Hb. apply bytes_app in Hb as [Hb _].
    split; [done|]. split; [|done]. apply bytes_app. split; [|split; [|done]].
    + eapply bytes_agree; [|done]. intros a Ha. apply lookup_insert_ne. lia.
    + apply lookup_insert_eq.
  - apply cstr_app, cstr_cons in Hs as (_ & _ & Hs). eapply cstr_agree; [|exact Hs].
    intros a Ha. apply lookup_insert_ne. lia.
Qed.

Lemma strtok_r_none m p s dl ds save fuel :
  cstr m p s → cstr m dl ds → (length s < fuel)%nat → (length ds < fuel)%nat →
  (span (delim ds) s).2 = [] →
  wp (strtok_r fuel p dl save) (λ '(o, save') m', o = None ∧ m' = m) m.
Proof.
  intros Hs Hds Hf Hfd Hspan.
  pose proof (ptr_ok _ (cstr_pos _ _ _ Hs)) as Hp. pose proof (ptr_ok _ (cstr_pos _ _ _ Hds)) as Hd.
  unfold strtok_r. wp_assert; [done|]. cbv zeta.
  destruct (p =? NULL) eqn:Hn; [done|]. wp_assert; [by rewrite Hn|]. wp_bind.
  eapply (skip_loop m dl ds); [done..|].
  destruct (span (delim ds) s) as [pre' rest']. simpl in *. subst rest'. by apply wp_ret.
Qed.

Lemma strtok_r_some m p s dl ds save fuel pre tok rest :
  cstr m p s → cstr m dl ds → (length s < fuel)%nat → (length ds < fuel)%nat →
  next_token ds s = Some (pre, tok, rest) →
  let t := p + Z.of_nat (length pre) in
  let e := t + Z.of_nat (length tok) in
  wp (strtok_r fuel p dl save) (λ '(o, save') m', o = Some t ∧
    (s = pre ++ tok ∧ rest = [] ∧ save' = e ∧ m' = m
     ∨ ∃ d, s = pre ++ tok ++ d :: rest ∧ save' = e + 1 ∧ m' = <[e := 0]> m)) m.
Proof.
  intros Hs Hds Hf Hfd Hnext t e.
  pose proof (ptr_ok _ (cstr_pos _ _ _ Hs)) as Hp. pose proof (ptr_ok _ (cstr_pos _ _ _ Hds)) as Hd.
  pose proof (next_token_split ds s) as Hsplit. pose proof (span_app (delim ds) s) as Hspan.
  rewrite Hnext in Hsplit. destruct Hsplit as (Hpre & Htok & Hne & _ & Hnd & Hcase).
  unfold strtok_r. wp_assert; [done|]. cbv zeta.
  destruct (p =? NULL) eqn:Hn; [done|]. wp_assert; [by rewrite Hn|]. wp_bind.
  eapply (skip_loop m dl ds); [done..|].
  destruct (span (delim ds) s) as [pre' rest'] eqn:E. simpl in *. subst pre'.
  destruct rest' as [|c rest']; [by rewrite Htok in Hne|]. wp_bind.
  assert (cstr m t (c :: rest')) as Ht by (subst t s; by apply cstr_app in Hs).
  eapply (token_loop m dl ds); [done..| |].
  { rewrite <- Hspan, length_app in Hf. lia. }
  rewrite <- Htok. fold t e. wp_bind. destruct Hcase as [[Heq ->]|(d & _ & Heq)].
  - apply (wp_load _ 0).
    { apply cstr_nil. rewrite Heq, <- (app_nil_r (pre ++ tok)) in Hs. apply cstr_app in Hs.
      rewrite length_app in Hs. by replace e with (p + Z.of_nat (length pre + length tok)) by lia. }
    simpl. apply wp_ret. split; [done|]. by left.
  - rewrite Heq in Hs. apply cstr_app, cstr_app, cstr_cons in Hs as (Hd' & Hd0 & _).
    apply (wp_load _ d); [done|]. destruct (Z.eqb_spec d 0); [lia|]. simpl. wp_bind.
    pose proof (cstr_pos _ _ _ Ht). apply wp_store; [lia|]. apply wp_ret.
    split; [done|]. right. by exists d.
Qed.

(** [strtok_r] returns null exactly when only delimiters are left.  Otherwise
    it returns the address of the next token, which it has null-terminated in
    place, and saves the address of the rest of the string; a token is never
    empty and contains no delimiter, and only the byte after it changes. *)
Theorem strtok_r_next_token m p s dl ds save fuel :
  cstr m p s → cstr m dl ds → (length s < fuel)%nat → (length ds < fuel)%nat →
  match next_token ds s with
  | None => ∃ save', strtok_r fuel p dl save m = Ok ((None, save'), m)
  | Some (pre, tok, rest) =>
      let t := p + Z.of_nat (length pre) in
      let e := t + Z.of_nat (length tok) in
      ∃ save' m', strtok_r fuel p dl save m = Ok ((Some t, save'), m')
        ∧ tok ≠ [] ∧ Forall (λ c, delim ds c = false) tok
        ∧ cstr m' t tok ∧ cstr m' save' rest
        ∧ ∀ a, a ≠ e → m' !! a = m !! a
  end.
Proof.
  intros Hs Hds Hf Hfd. pose proof (next_token_split ds s) as Hsplit.
  destruct (next_token ds s) as [[[pre tok] rest]|] eqn:Hnext.
  - destruct Hsplit as (_ & _ & Hne & _ & Hnd & _).
    pose proof (strtok_r_some _ _ _ _ _ save _ _ _ _ Hs Hds Hf Hfd Hnext)
      as ([o save'] & m' & Hrun & -> & Hm)%wp_Ok.
    exists save', m'. split; [done|]. split; [done|]. split; [done|].
    destruct Hm as [(Heq & -> & -> & ->)|(d & Heq & -> & ->)]; rewrite Heq in Hs.
    + split; [by apply cstr_app in Hs|]. split; [|done].
      rewrite <- (app_nil_r (pre ++ tok)) in Hs. apply cstr_app in Hs. rewrite length_app in Hs.
      by replace (p + Z.of_nat (length pre) + Z.of_nat (length tok))
        with (p + Z.of_nat (length pre + length tok)) by lia.
    + apply cstr_app, cut_token in Hs as [Ht Hr]. split_and!; [done..|].
      intros a Ha. by apply lookup_insert_ne.
  - pose proof (strtok_r_none _ _ _ _ _ save _ Hs Hds Hf Hfd Hsplit)
      as ([o save'] & m' & Hrun & -> & ->)%wp_Ok. by exists save'.
Qed.

Lemma strtok_r_next_token_witness :
  ∃ save' m', strtok_r 10 100 300 0 paths = Ok ((Some 101, save'), m')
    ∧ [98; 105; 110] ≠ [] ∧ Forall (λ c, delim [47] c = false) [98; 105; 110]
    ∧ cstr m' 101 [98; 105; 110] ∧ cstr m' save' [108; 115]
    ∧ ∀ a, a ≠ 104 → m' !! a = paths !! a.
Proof.
  apply (strtok_r_next_token paths 100 [47; 98; 105; 110; 47; 108; 115] 300 [47] 0 10);
    [apply path_100 | apply path_300 | simpl; lia | simpl; lia].
Defined.

End Cstring.
