(* ===== verification/Vaddr.v ===== *)
(** * Virtual addresses and page table entries: threads/vaddr.h, threads/pte.h

    Addresses are 32-bit integers. *)
From stdpp Require Import base tactics numbers.
From Stdlib Require Import ZArith Lia.
From S2P Require Import Prelude.

Module Vaddr.

(** [(((1ul << CNT) - 1) << SHIFT)]. *)
Definition BITMASK (shift cnt : Z) : Z := u32 (Z.shiftl (u32 (u32 (Z.shiftl 1 cnt) - 1)) shift).
Definition PGSHIFT : Z := 0.
Definition PGBITS : Z := 12.
Definition PGSIZE : Z := Z.shiftl 1 PGBITS.
Definition PGMASK : Z := BITMASK PGSHIFT PGBITS.

Definition pg_ofs (va : Z) : Z := Z.land va PGMASK.
Definition pg_no (va : Z) : Z := Z.shiftr va PGBITS.
Definition pg_round_up (va : Z) : Z := Z.land (u32 (va + PGSIZE - 1)) (u32 (Z.lnot PGMASK)).
Definition pg_round_down (va : Z) : Z := Z.land va (u32 (Z.lnot PGMASK)).

(** [LOADER_PHYS_BASE]. *)
Definition PHYS_BASE : Z := 3221225472.

Definition is_user_vaddr (vaddr : Z) : bool := vaddr <? PHYS_BASE.
Definition is_kernel_vaddr (vaddr : Z) : bool := PHYS_BASE <=? vaddr.

Definition ptov {S} (paddr : Z) : M S Z :=
  ASSERT (paddr <? PHYS_BASE) ;; mret (u32 (paddr + PHYS_BASE)).
Definition vtop {S} (vaddr : Z) : M S Z :=
  ASSERT (is_kernel_vaddr vaddr) ;; mret (u32 (vaddr - PHYS_BASE)).

Lemma PGSIZE_eq : PGSIZE = 4096.
Proof. reflexivity. Qed.

Lemma pg_ofs_eq va : pg_ofs va = va mod PGSIZE.
Proof. unfold pg_ofs. change PGMASK with (Z.ones 12). apply Z.land_ones. lia. Qed.

Lemma pg_no_eq va : pg_no va = va / PGSIZE.
Proof. unfold pg_no. by rewrite Z.shiftr_div_pow2. Qed.

(** The word with the page offset bits of a 32-bit address cleared. *)
Lemma land_page_mask x : 0 ≤ x < 2^32 → Z.land x (u32 (Z.lnot PGMASK)) = x / 4096 * 4096.
Proof.
  intros Hx. change (u32 (Z.lnot PGMASK)) with (Z.ldiff (Z.ones 32) (Z.ones 12)).
  apply Z.bits_inj'. intros k Hk.
  rewrite Z.land_spec, Z.ldiff_spec, !Z.testbit_ones_nonneg by lia.
  change 4096 with (2^12). rewrite <- Z.shiftr_div_pow2, <- Z.shiftl_mul_pow2, Z.shiftl_spec by lia.
  destruct (decide (k < 12)).
  - rewrite (Z.testbit_neg_r _ (k - 12)) by lia.
    destruct (Z.ltb_spec k 12); [|lia]. by rewrite andb_false_r, andb_false_r.
  - rewrite Z.shiftr_spec by lia. replace (k - 12 + 12) with k by lia.
    destruct (Z.ltb_spec k 12); [lia|]. rewrite andb_true_r.
    destruct (Z.ltb_spec k 32); [apply andb_true_r|].
    rewrite andb_false_r. symmetry.
    destruct (decide (x = 0)) as [->|]; [apply Z.testbit_0_l|].
    apply Z.bits_above_log2; [lia|]. assert (Z.log2 x < 32); [apply Z.log2_lt_pow2; lia | lia].
Qed.

Lemma pg_round_down_eq va : 0 ≤ va < 2^32 → pg_round_down va = va - va mod PGSIZE.
Proof.
  intros Hva. unfold pg_round_down. rewrite land_page_mask, PGSIZE_eq by done.
  pose proof (Z.div_mod va 4096). lia.
Qed.
End Vaddr.
