(* ===== verification/Palloc.v ===== *)
(** * The page allocator: threads/palloc.c

    Two pools of pages, each with a lock, a bitmap of the used pages and a
    base address.  The placement policy is a variable of the module, as in
    the source, where it is initialised to [NEXTFIT].  [cur] is the running
    thread. *)
From stdpp Require Import base gmap list.
From Stdlib Require Import ZArith Lia.
From S2P Require Import Prelude Cstring Bitmap Vaddr.

Module Palloc.
Import Mem Cstring Bitmap Vaddr.

Record pool := mk_pool {
  lock : option Z;
  used_map : bitmap;
  base : Z
}.

Inductive polloc_policys := FIRSTFIT | NEXTFIT.

#[export] Instance polloc_policys_eq_dec : EqDecision polloc_policys.
Proof. solve_decision. Defined.

Record palloc := mk_palloc {
  kernel_pool : pool;
  user_pool : pool;
  policy : polloc_policys;
  nextfitStart : Z;
  pmem : mem
}.

Definition PAL_ASSERT : Z := 1.
Definition PAL_ZERO : Z := 2.
Definition PAL_USER : Z := 4.

(** [flags & f]. *)
Definition has (flags f : Z) : bool := negb (Z.land flags f =? 0).

Definition set_lock (h : option Z) (p : pool) : pool := mk_pool h (used_map p) (base p).
Definition set_used_map (b : bitmap) (p : pool) : pool := mk_pool (lock p) b (base p).

(** The pool that [pool = user ? &user_pool : &kernel_pool] points to. *)
Definition get_pool (user : bool) (st : palloc) : pool :=
  if user then user_pool st else kernel_pool st.
Definition set_pool (user : bool) (p : pool) (st : palloc) : palloc :=
  if user then mk_palloc (kernel_pool st) p (policy st) (nextfitStart st) (pmem st)
  else mk_palloc p (user_pool st) (policy st) (nextfitStart st) (pmem st).
Definition set_nextfitStart (n : Z) (st : palloc) : palloc :=
  mk_palloc (kernel_pool st) (user_pool st) (policy st) n (pmem st).
Definition set_pmem (m : mem) (st : palloc) : palloc :=
  mk_palloc (kernel_pool st) (user_pool st) (policy st) (nextfitStart st) m.

Definition on_lock {A} (user : bool) (m : M (option Z) A) : M palloc A :=
  zoom (λ st, lock (get_pool user st)) (λ h st, set_pool user (set_lock h (get_pool user st)) st) m.
Definition on_used_map {A} (user : bool) (m : M bitmap A) : M palloc A :=
  zoom (λ st, used_map (get_pool user st))
       (λ b st, set_pool user (set_used_map b (get_pool user st)) st) m.
Definition on_mem {A} (m : M mem A) : M palloc A := zoom pmem set_pmem m.

(** [ram a] is the 32-bit word that memory holds at address [a] before the
    pools are set up; the words of the bitmap follow its 8-byte header. *)
Definition init_pool (ram : Z → Z) (base page_cnt : Z) : res pool :=
  let bm_pages := u32 (bitmap_buf_size page_cnt + PGSIZE - 1) / PGSIZE in
  if page_cnt <? bm_pages then Err Panic
  else
    let page_cnt := page_cnt - bm_pages in
    let words := map (λ i, u32 (ram (base + 8 + 4 * i))) (seqZ 0 (elem_cnt page_cnt)) in
    match bitmap_create_in_buf page_cnt (u32 (bm_pages * PGSIZE)) words with
    | Ok b => Ok (mk_pool None b (u32 (base + bm_pages * PGSIZE)))
    | Err e => Err e
    end.

(** [init_ram_pages] is the number of pages of RAM, found by the loader. *)
Definition palloc_init (ram : Z → Z) (init_ram_pages user_page_limit : Z) : M palloc unit :=
  free_start ← ptov (1024 * 1024);
  free_end ← ptov (u32 (init_ram_pages * PGSIZE));
  let free_pages := u32 (Z.quot (s32 (free_end - free_start)) PGSIZE) in
  let user_pages := free_pages / 2 in
  let user_pages := if user_page_limit <? user_pages then user_page_limit else user_pages in
  let kernel_pages := u32 (free_pages - user_pages) in
  kp ← of_res (init_pool ram free_start kernel_pages);
  up ← of_res (init_pool ram (u32 (free_start + kernel_pages * PGSIZE)) user_pages);
  modify (λ st, mk_palloc kp up (policy st)
                  (match policy st with FIRSTFIT => nextfitStart st | NEXTFIT => 0 end)
                  (pmem st)).

Section with_current_thread.
Context (cur : Z).

Definition palloc_get_multiple (flags page_cnt : Z) : M palloc Z :=
  let user := has flags PAL_USER in
  if page_cnt =? 0 then mret NULL
  else
    on_lock user (lock_acquire cur) ;;
    st ← get;
    page_idx ←
      match policy st with
      | FIRSTFIT => on_used_map user (bitmap_scan_and_flip 0 page_cnt false)
      | NEXTFIT =>
          page_idx ← on_used_map user (bitmap_scan_and_flip (nextfitStart st) page_cnt false);
          page_idx ←
            (if page_idx =? BITMAP_ERROR then
               modify (set_nextfitStart 0) ;;
               on_used_map user (bitmap_scan_and_flip 0 page_cnt false)
             else mret page_idx);
          modify (set_nextfitStart
            (u32 (base (get_pool user st) + PGSIZE * (page_idx + page_cnt)))) ;;
          mret page_idx
      end;
    on_lock user (lock_release cur) ;;
    let pages := if negb (page_idx =? BITMAP_ERROR)
                 then u32 (base (get_pool user st) + PGSIZE * page_idx) else NULL in
    (if negb (pages =? NULL) then
       if has flags PAL_ZERO then on_mem (memset pages 0 (u32 (PGSIZE * page_cnt))) ;; mret tt
       else mret tt
     else if has flags PAL_ASSERT then fail Panic else mret tt) ;;
    mret pages.

Definition palloc_get_page (flags : Z) : M palloc Z := palloc_get_multiple flags 1.

Definition page_from_pool (p : pool) (page : Z) : bool :=
  let page_no := pg_no page in
  let start_page := pg_no (base p) in
  let end_page := u32 (start_page + bit_cnt (used_map p)) in
  (start_page <=? page_no) && (page_no <? end_page).

Definition palloc_free_multiple (pages page_cnt : Z) : M palloc unit :=
  ASSERT (pg_ofs pages =? 0) ;;
  if (pages =? NULL) || (page_cnt =? 0) then mret tt
  else
    st ← get;
    user ← (if page_from_pool (kernel_pool st) pages then mret false
            else if page_from_pool (user_pool st) pages then mret true
            else fail Panic);
    let page_idx := u32 (pg_no pages - pg_no (base (get_pool user st))) in
    on_mem (memset pages 204 (u32 (PGSIZE * page_cnt))) ;;
    all ← on_used_map user (bitmap_all page_idx page_cnt);
    ASSERT all ;;
    on_used_map user (bitmap_set_multiple page_idx page_cnt false).

Definition palloc_free_page (page : Z) : M palloc unit := palloc_free_multiple page 1.

End with_current_thread.

Definition two_pools : palloc :=
  mk_palloc (mk_pool None (mk_bitmap 40 [23; 0]) 3222274048)
            (mk_pool None (mk_bitmap 40 [0; 0]) 3222437888) FIRSTFIT 0 ∅.

Example get_two :
  (λ r, match r with Ok (a, st) => Some (a, bits (used_map (kernel_pool st))) | _ => None end)
    (palloc_get_multiple 7 0 2 two_pools) = Some (3222294528, [119; 0]).
Proof. vm_compute. reflexivity. Qed.
(** ** Well-formed pools *)

(** A pool whose lock is free, whose base is a page in kernel memory and
    whose pages lie below the end of the address space. *)
Definition wf_pool (p : pool) : Prop :=
  lock p = None ∧ Bitmap.wf (used_map p)
  ∧ PHYS_BASE ≤ base p ∧ base p mod PGSIZE = 0
  ∧ base p + PGSIZE * bit_cnt (used_map p) < 2^32.

(** The page with number [i] of a pool. *)
Definition page (p : pool) (i : Z) : Z := base p + PGSIZE * i.

(** The kernel pool lies below the user pool. *)
Definition wf_palloc (st : palloc) : Prop :=
  wf_pool (kernel_pool st) ∧ wf_pool (user_pool st)
  ∧ page (kernel_pool st) (bit_cnt (used_map (kernel_pool st))) ≤ base (user_pool st).

Lemma wf_get_pool user st : wf_palloc st → wf_pool (get_pool user st).
Proof. intros (Hk & Hu & _). by destruct user. Qed.

Lemma get_set_pool user p st : get_pool user (set_pool user p st) = p.
Proof. by destruct user. Qed.

Lemma get_set_other user p st : get_pool (negb user) (set_pool user p st) = get_pool (negb user) st.
Proof. by destruct user. Qed.

(** [if (flags & PAL_ZERO) memset (pages, 0, PGSIZE * page_cnt)]. *)
Definition zero_pages (flags pages page_cnt : Z) (m : mem) : res mem :=
  if has flags PAL_ZERO then
    match memset pages 0 (u32 (PGSIZE * page_cnt)) m with
    | Ok (_, m) => Ok m
    | Err e => Err e
    end
  else Ok m.

(** What [palloc_get_multiple] does once the search has returned [idx] and
    the new bitmap [b']. *)
Definition deliver (flags page_cnt idx : Z) (b' : bitmap) (next : Z) (st : palloc)
    : res (Z * palloc) :=
  let user := has flags PAL_USER in
  let p := get_pool user st in
  let st' := set_nextfitStart next (set_pool user (mk_pool None b' (base p)) st) in
  if idx =? BITMAP_ERROR then
    if has flags PAL_ASSERT then Err Panic else Ok (NULL, st')
  else
    let pages := u32 (base p + PGSIZE * idx) in
    match zero_pages flags pages page_cnt (pmem st) with
    | Ok m => Ok (pages, set_pmem m st')
    | Err e => Err e
    end.

Ltac run_allocator :=
  unfold mbind, M_bind, mret, M_ret, on_lock, on_used_map, on_mem, zoom, get, modify, fail,
    lock_acquire, lock_release.

Section runs.
Context (cur : Z) (flags page_cnt : Z) (st : palloc).
Local Abbreviation user := (has flags PAL_USER).
Local Abbreviation p := (get_pool user st).
Context (Hcnt : 0 < page_cnt) (Hlock : lock p = None).

Lemma page_nonnull idx :
  wf_pool p → 0 ≤ idx ≤ bit_cnt (used_map p) →
  u32 (base p + PGSIZE * idx) = page p idx ∧ 0 < page p idx.
Proof.
  intros (_ & Hwf & Hbase & _ & Hend) Hidx. unfold page. rewrite PGSIZE_eq in *.
  assert (0 ≤ base p + 4096 * idx < 2^32) by (unfold PHYS_BASE in *; lia).
  split; [by apply u32_small | unfold PHYS_BASE in *; lia].
Qed.

Lemma run_firstfit idx b' :
  policy st = FIRSTFIT →
  bitmap_scan_and_flip 0 page_cnt false (used_map p) = Ok (idx, b') →
  (idx ≠ BITMAP_ERROR → u32 (base p + PGSIZE * idx) ≠ NULL) →
  palloc_get_multiple cur flags page_cnt st
  = deliver flags page_cnt idx b' (nextfitStart st) st.
Proof using Hcnt Hlock.
  unfold palloc_get_multiple, deliver, zero_pages. destruct (Z.eqb_spec page_cnt 0); [lia|].
  destruct st as [[kl kb ka] [ul ub ua] pol next m].
  destruct (has flags PAL_USER); simpl in *; intros -> Hscan Hnn; subst; run_allocator; simpl;
    rewrite Hscan; simpl; rewrite Z.eqb_refl; simpl;
    (destruct (Z.eqb_spec idx BITMAP_ERROR) as [->|Hne]; simpl;
     [by destruct (has flags PAL_ASSERT)|]);
    apply Hnn, Z.eqb_neq in Hne; rewrite Hne; simpl;
    (destruct (has flags PAL_ZERO); [|done]);
    by destruct (memset _ _ _ _) as [[]|].
Qed.

(** Next fit, when the search from [nextfitStart] succeeds. *)
Lemma run_nextfit idx b' :
  policy st = NEXTFIT →
  bitmap_scan_and_flip (nextfitStart st) page_cnt false (used_map p) = Ok (idx, b') →
  idx ≠ BITMAP_ERROR → u32 (base p + PGSIZE * idx) ≠ NULL →
  palloc_get_multiple cur flags page_cnt st
  = deliver flags page_cnt idx b' (u32 (base p + PGSIZE * (idx + page_cnt))) st.
Proof using Hcnt Hlock.
  unfold palloc_get_multiple, deliver, zero_pages. destruct (Z.eqb_spec page_cnt 0); [lia|].
  destruct st as [[kl kb ka] [ul ub ua] pol next m].
  destruct (has flags PAL_USER); simpl in *; intros -> Hscan Hne Hnn; subst; run_allocator; simpl;
    rewrite Hscan; simpl;
    apply Z.eqb_neq in Hne, Hnn; rewrite !Hne; simpl; rewrite Z.eqb_refl; simpl; rewrite ?Hne; simpl;
    rewrite Hnn; simpl;
    (destruct (has flags PAL_ZERO); [|done]);
    by destruct (memset _ _ _ _) as [[]|].
Qed.

(** Next fit, when the search wraps around to the start of the pool. *)
Lemma run_nextfit_wrap idx b b' :
  policy st = NEXTFIT →
  bitmap_scan_and_flip (nextfitStart st) page_cnt false (used_map p) = Ok (BITMAP_ERROR, b) →
  bitmap_scan_and_flip 0 page_cnt false b = Ok (idx, b') →
  (idx ≠ BITMAP_ERROR → u32 (base p + PGSIZE * idx) ≠ NULL) →
  palloc_get_multiple cur flags page_cnt st
  = deliver flags page_cnt idx b' (u32 (base p + PGSIZE * (idx + page_cnt))) st.
Proof using Hcnt Hlock.
  unfold palloc_get_multiple, deliver, zero_pages. destruct (Z.eqb_spec page_cnt 0); [lia|].
  destruct st as [[kl kb ka] [ul ub ua] pol next m].
  destruct (has flags PAL_USER); simpl in *; intros -> Hscan Hscan' Hnn; subst; run_allocator; simpl;
    rewrite Hscan; simpl; rewrite Hscan'; simpl; rewrite Z.eqb_refl; simpl;
    (destruct (Z.eqb_spec idx BITMAP_ERROR) as [->|Hne]; simpl;
     [by destruct (has flags PAL_ASSERT)|]);
    apply Hnn, Z.eqb_neq in Hne; rewrite Hne; simpl;
    (destruct (has flags PAL_ZERO); [|done]);
    by destruct (memset _ _ _ _) as [[]|].
Qed.

End runs.

(** ** Allocation *)

(** A pool after the pages in [[i, i + cnt)] got the status [v]. *)
Definition pages_set (p p' : pool) (i cnt : Z) (v : bool) : Prop :=
  lock p' = lock p ∧ base p' = base p
  ∧ updated (used_map p) (used_map p') (λ j, if decide (i ≤ j < i + cnt) then Some v else None).

(** No run of [cnt] free pages. *)
Definition exhausted (p : pool) (cnt : Z) : Prop :=
  ∀ i, 0 ≤ i → ¬ group (used_map p) cnt false i.

(** What a correct allocation of [cnt] pages with [flags] does: it returns a
    run of free pages and marks exactly these, or reports that there is no
    such run, by a null pointer or, under [PAL_ASSERT], by a panic. *)
Definition allocates (flags cnt : Z) (st : palloc) (r : res (Z * palloc)) : Prop :=
  let user := has flags PAL_USER in
  let p := get_pool user st in
  match r with
  | Ok (pages, st') =>
      wf_palloc st' ∧ policy st' = policy st
      ∧ get_pool (negb user) st' = get_pool (negb user) st
      ∧ ((∃ i, pages = page p i ∧ pages ≠ NULL ∧ 0 ≤ i ∧ group (used_map p) cnt false i
            ∧ pages_set p (get_pool user st') i cnt true
            ∧ pmem st' = (if has flags PAL_ZERO
                          then write pages (replicate (Z.to_nat (PGSIZE * cnt)) 0) (pmem st)
                          else pmem st))
         ∨ (pages = NULL ∧ exhausted p cnt ∧ pages_set p (get_pool user st') 0 0 true
            ∧ pmem st' = pmem st ∧ has flags PAL_ASSERT = false))
  | Err e => e = Panic ∧ has flags PAL_ASSERT = true ∧ exhausted p cnt
  end.

Lemma wf_set_pool user p st :
  wf_palloc st → wf_pool p → base p = base (get_pool user st) →
  bit_cnt (used_map p) = bit_cnt (used_map (get_pool user st)) →
  wf_palloc (set_pool user p st).
Proof.
  intros (Hk & Hu & Hord) Hp Hb Hc. unfold wf_palloc, page in *.
  destruct user; simpl in *; rewrite ?Hb, ?Hc; done.
Qed.

Lemma wf_pool_pages_set p p' i cnt v : wf_pool p → pages_set p p' i cnt v → wf_pool p'.
Proof.
  intros (Hl & Hwf & Hb & Ha & He) (Hl' & Hb' & Hwf' & Hc & _).
  unfold wf_pool. rewrite Hl', Hb', Hc. done.
Qed.

Lemma wf_next n st : wf_palloc st → wf_palloc (set_nextfitStart n st).
Proof. done. Qed.

Lemma wf_set_pmem m st : wf_palloc st → wf_palloc (set_pmem m st).
Proof. done. Qed.

Lemma get_pool_next user n st : get_pool user (set_nextfitStart n st) = get_pool user st.
Proof. by destruct user. Qed.

Lemma get_pool_pmem user m st : get_pool user (set_pmem m st) = get_pool user st.
Proof. by destruct user. Qed.

Lemma zero_pages_run flags pages cnt m :
  0 < pages → 0 ≤ PGSIZE * cnt < 2^32 →
  zero_pages flags pages cnt m
  = Ok (if has flags PAL_ZERO then write pages (replicate (Z.to_nat (PGSIZE * cnt)) 0) m else m).
Proof.
  intros Hp Hc. unfold zero_pages. destruct (has flags PAL_ZERO); [|done].
  rewrite u32_small, memset_run by lia. done.
Qed.

Lemma deliver_ok flags cnt idx b' next st :
  wf_palloc st → 0 < cnt →
  let p := get_pool (has flags PAL_USER) st in
  (idx ≠ BITMAP_ERROR → 0 ≤ idx ∧ group (used_map p) cnt false idx) →
  (idx = BITMAP_ERROR → exhausted p cnt) →
  updated (used_map p) b' (λ j, if decide (idx ≠ BITMAP_ERROR ∧ idx ≤ j < idx + cnt)
                                then Some true else None) →
  allocates flags cnt st (deliver flags cnt idx b' next st).
Proof.
  intros Hwf Hcnt p Hgot Hnone Hupd.
  pose proof (wf_get_pool (has flags PAL_USER) st Hwf) as Hp. fold p in Hp.
  unfold deliver, allocates. fold p.
  set (p' := mk_pool None b' (base p)).
  assert (pages_set p p' (if decide (idx = BITMAP_ERROR) then 0 else idx)
            (if decide (idx = BITMAP_ERROR) then 0 else cnt) true) as Hset.
  { destruct Hupd as (Hwf' & Hc & Hbits). split; [by destruct Hp as [-> _]|]. split; [done|].
    split; [done|]. split; [done|]. intros j Hj. rewrite Hbits by done.
    repeat case_decide; try done; lia || tauto. }
  assert (wf_palloc (set_nextfitStart next (set_pool (has flags PAL_USER) p' st))) as Hwf'.
  { apply wf_next, wf_set_pool; [done | by eapply wf_pool_pages_set | done | apply Hupd]. }
  destruct (Z.eqb_spec idx BITMAP_ERROR) as [He|Hne].
  { rewrite !decide_True in Hset by done. destruct (has flags PAL_ASSERT) eqn:Hassert.
    { split_and!; [done.. | by apply Hnone]. }
    split; [done|]. split; [by destruct (has flags PAL_USER)|].
    rewrite !get_pool_next, get_set_other, get_set_pool. split; [done|]. right.
    split_and!; [done | by apply Hnone | done | by destruct (has flags PAL_USER) | done]. }
  rewrite !decide_False in Hset by done. destruct (Hgot Hne) as [Hi Hgroup].
  destruct (page_nonnull flags st idx) as [Hpage Hnn]; [done | unfold p in *; pose proof Hgroup as [? _]; lia|].
  fold p in Hpage, Hnn. rewrite Hpage.
  rewrite zero_pages_run; [|done | destruct Hp as (_ & _ & Hb & _ & He), Hgroup as [Hle _];
    rewrite PGSIZE_eq in *; unfold PHYS_BASE in *; lia].
  split; [by apply wf_set_pmem|]. rewrite !get_pool_pmem, !get_pool_next, get_set_other, get_set_pool.
  split; [by destruct (has flags PAL_USER)|]. split; [done|]. left. exists idx.
  split_and!; [done | unfold NULL; lia | done.. |]. done.
Qed.

(** The search of a well-formed pool from [start]. *)
Lemma pool_scan p start cnt :
  wf_pool p → 0 ≤ start ≤ bit_cnt (used_map p) → 0 < cnt →
  ∃ r b', bitmap_scan_and_flip start cnt false (used_map p) = Ok (r, b')
    ∧ first_group (used_map p) start cnt false r
    ∧ updated (used_map p) b' (λ j, if decide (r ≠ BITMAP_ERROR ∧ r ≤ j < r + cnt)
                                    then Some true else None).
Proof.
  intros (_ & Hwf & _) Hs Hc.
  apply (wp_Ok (bitmap_scan_and_flip start cnt false)
    (λ r b', first_group (used_map p) start cnt false r ∧ updated (used_map p) b' _)).
  apply bitmap_scan_and_flip_spec; [done | done | lia | done].
Qed.

(** A scan that starts beyond the bitmap's end fails its assertion. *)
Lemma scan_beyond b start cnt :
  bit_cnt b < start → bitmap_scan_and_flip start cnt false b = Err Panic.
Proof.
  intros Hs. unfold bitmap_scan_and_flip, bitmap_scan, mbind, M_bind, get, ASSERT. simpl.
  rewrite (proj2 (Z.leb_gt start (bit_cnt b))) by done. done.
Qed.

Lemma pool_addresses p : wf_pool p → bit_cnt (used_map p) < PHYS_BASE.
Proof.
  intros (_ & _ & Hb & _ & He). rewrite PGSIZE_eq in *. unfold PHYS_BASE in *. lia.
Qed.

Lemma got_page p cnt r :
  first_group (used_map p) 0 cnt false r → r ≠ BITMAP_ERROR →
  0 ≤ r ∧ group (used_map p) cnt false r.
Proof. intros [(? & ? & _)|[? _]] ?; [|done]. split; [lia | done]. Qed.

Lemma get_multiple_firstfit cur flags page_cnt st :
  wf_palloc st → policy st = FIRSTFIT → 0 < page_cnt →
  allocates flags page_cnt st (palloc_get_multiple cur flags page_cnt st).
Proof.
  intros Hwf Hpol Hcnt. pose proof (wf_get_pool (has flags PAL_USER) st Hwf) as Hp.
  destruct (pool_scan _ 0 page_cnt Hp) as (r & b' & Hscan & Hfirst & Hupd);
    [destruct Hp as (_ & [? _] & _); lia | done |].
  rewrite (run_firstfit cur flags page_cnt st Hcnt (proj1 Hp) r b' Hpol Hscan).
  - apply deliver_ok; [done | done | by apply got_page | | done].
    intros ->. destruct Hfirst as [(? & _)|[_ ?]]; [unfold BITMAP_ERROR, SIZE_MAX in *|done].
    destruct Hp as (_ & [? _] & _). lia.
  - intros Hne. destruct (got_page _ _ _ Hfirst Hne) as [? [? _]].
    destruct (page_nonnull flags st r) as [-> ?]; [done | lia | unfold NULL; lia].
Qed.

Lemma two_pools_wf : wf_palloc two_pools.
Proof.
  unfold wf_palloc, wf_pool, Bitmap.wf. simpl.
  split_and!; try done; try (unfold PHYS_BASE; simpl; lia); repeat constructor; lia.
Qed.

(** under the first-fit policy [palloc_get_multiple] is a correct
    allocator: it returns a run of [page_cnt] free pages of the pool that
    [PAL_USER] selects, marks exactly those pages as used, zeroes them under
    [PAL_ZERO] and touches no other pool or memory; if there is no run it
    returns a null pointer or, under [PAL_ASSERT], panics.  No other outcome
    is possible. *)
Theorem palloc_get_multiple_firstfit cur flags page_cnt st :
  wf_palloc st → policy st = FIRSTFIT → 0 < page_cnt →
  allocates flags page_cnt st (palloc_get_multiple cur flags page_cnt st).
Proof. apply get_multiple_firstfit. Qed.

Lemma palloc_get_multiple_firstfit_witness :
  allocates PAL_ZERO 3 two_pools (palloc_get_multiple 7 PAL_ZERO 3 two_pools).
Proof. apply (palloc_get_multiple_firstfit 7 PAL_ZERO 3 two_pools); [apply two_pools_wf | done | done]. Defined.

(** A next-fit search from an address instead of a page number. *)
Lemma nextfit_panics cur flags page_cnt st :
  wf_palloc st → policy st = NEXTFIT → 0 < page_cnt → PHYS_BASE ≤ nextfitStart st →
  palloc_get_multiple cur flags page_cnt st = Err Panic.
Proof.
  intros Hwf Hpol Hcnt Hstart. pose proof (wf_get_pool (has flags PAL_USER) st Hwf) as Hp.
  assert (bit_cnt (used_map (get_pool (has flags PAL_USER) st)) < nextfitStart st)
    by (pose proof (pool_addresses _ Hp); lia).
  unfold palloc_get_multiple. destruct (Z.eqb_spec page_cnt 0); [lia|].
  destruct st as [[kl kb ka] [ul ub ua] pol next m]. destruct Hp as [Hl _].
  destruct (has flags PAL_USER); simpl in *; subst; run_allocator; simpl; by rewrite scan_beyond.
Qed.

(** C35: under the next-fit policy, the one the source selects, the first
    allocation is correct but leaves an address in [nextfitStart], where the
    next search expects a page number: every later allocation, from either
    pool, panics in [bitmap_scan]. *)
Theorem palloc_nextfit_second_allocation_panics cur flags page_cnt st i :
  wf_palloc st → policy st = NEXTFIT → nextfitStart st = 0 → 0 < page_cnt → 0 ≤ i →
  group (used_map (get_pool (has flags PAL_USER) st)) page_cnt false i →
  ∃ pages st', palloc_get_multiple cur flags page_cnt st = Ok (pages, st') ∧ pages ≠ NULL
    ∧ allocates flags page_cnt st (Ok (pages, st'))
    ∧ ∀ cur' flags' page_cnt', 0 < page_cnt' →
        palloc_get_multiple cur' flags' page_cnt' st' = Err Panic.
Proof.
  intros Hwf Hpol Hnext Hcnt Hi Hgroup. set (p := get_pool _ _) in *.
  pose proof (wf_get_pool (has flags PAL_USER) st Hwf) as Hp. fold p in Hp.
  destruct (pool_scan p 0 page_cnt Hp) as (r & b' & Hscan & Hfirst & Hupd);
    [destruct Hp as (_ & [? _] & _); lia | done |].
  assert (r ≠ BITMAP_ERROR) as Hne.
  { intros ->. destruct Hfirst as [(? & _)|[_ Hno]]; [|by eapply Hno].
    unfold BITMAP_ERROR, SIZE_MAX in *. destruct Hp as (_ & [? _] & _). lia. }
  destruct (got_page _ _ _ Hfirst Hne) as [Hr [Hend Hfree]].
  destruct (page_nonnull flags st r) as [Hpage Hnn]; [done | fold p; lia |]. fold p in Hpage, Hnn.
  pose proof (page_nonnull flags st (r + page_cnt) Hp) as [Hpage' _]; [fold p; lia|].
  fold p in Hpage'. rewrite <- Hnext in Hscan.
  pose proof (run_nextfit cur flags page_cnt st Hcnt (proj1 Hp) r b' Hpol Hscan Hne) as Hrun.
  fold p in Hrun. rewrite Hpage, Hpage' in Hrun. specialize (Hrun ltac:(unfold NULL; lia)).
  pose proof (deliver_ok flags page_cnt r b' (page p (r + page_cnt)) st Hwf Hcnt) as Hok.
  specialize (Hok (λ _, conj Hr (conj Hend Hfree)) (λ He, False_ind _ (Hne He)) Hupd).
  unfold deliver in Hrun, Hok. fold p in Hrun, Hok.
  rewrite (proj2 (Z.eqb_neq _ _) Hne), Hpage, zero_pages_run in Hrun, Hok
    by (done || (destruct Hp as (_ & _ & Hb & _ & He); rewrite PGSIZE_eq in *;
                 unfold PHYS_BASE in *; lia)).
  eexists _, _. split; [exact Hrun|]. split; [unfold NULL; lia|]. split; [exact Hok|].
  intros cur' flags' page_cnt' Hcnt'. destruct Hok as (Hwf' & Hpol' & _).
  apply nextfit_panics; [done | by rewrite Hpol' | done |].
  simpl. unfold page. destruct Hp as (_ & _ & Hb & _). rewrite PGSIZE_eq. lia.
Qed.

Definition two_pools_nextfit : palloc :=
  mk_palloc (kernel_pool two_pools) (user_pool two_pools) NEXTFIT 0 ∅.

Lemma palloc_nextfit_second_allocation_panics_witness :
  ∃ pages st', palloc_get_multiple 7 0 2 two_pools_nextfit = Ok (pages, st') ∧ pages ≠ NULL
    ∧ allocates 0 2 two_pools_nextfit (Ok (pages, st'))
    ∧ ∀ cur' flags' page_cnt', 0 < page_cnt' →
        palloc_get_multiple cur' flags' page_cnt' st' = Err Panic.
Proof.
  apply (palloc_nextfit_second_allocation_panics 7 0 2 two_pools_nextfit 5);
    [apply two_pools_wf | done | done | done | done |].
  split; [simpl; lia|]. intros j Hj. assert (j = 5 ∨ j = 6) as [->| ->] by lia; reflexivity.
Defined.

(** ** Freeing *)

(** Pages of a pool as page-aligned addresses. *)
Lemma page_aligned p i : wf_pool p → pg_ofs (page p i) = 0.
Proof.
  intros (_ & _ & _ & Ha & _). rewrite pg_ofs_eq. unfold page.
  by rewrite (Z.mul_comm PGSIZE), Z.mod_add by by rewrite PGSIZE_eq.
Qed.

Lemma page_pg_no p i : pg_no (page p i) = pg_no (base p) + i.
Proof.
  rewrite !pg_no_eq. unfold page.
  rewrite (Z.mul_comm PGSIZE), Z.div_add by by rewrite PGSIZE_eq. lia.
Qed.

(** A page number [n] at an aligned base. *)
Lemma base_pg_no p : wf_pool p → base p = PGSIZE * pg_no (base p) ∧ 0 ≤ pg_no (base p).
Proof.
  intros (_ & _ & Hb & Ha & _). rewrite pg_no_eq, PGSIZE_eq in *. unfold PHYS_BASE in *.
  pose proof (Z.div_mod (base p) 4096). pose proof (Z.div_pos (base p) 4096). lia.
Qed.

Lemma page_from_own_pool p i :
  wf_pool p → 0 ≤ i < bit_cnt (used_map p) → page_from_pool p (page p i) = true.
Proof.
  intros Hp Hi. pose proof (base_pg_no p Hp). destruct Hp as (_ & _ & _ & _ & He).
  rewrite PGSIZE_eq in *. unfold page_from_pool. rewrite page_pg_no, u32_small by lia.
  apply andb_true_intro. split; [apply Z.leb_le | apply Z.ltb_lt]; lia.
Qed.

Lemma page_from_higher_pool p q i :
  wf_pool p → wf_pool q → page p (bit_cnt (used_map p)) ≤ base q → 0 ≤ i →
  page_from_pool p (page q i) = false.
Proof.
  intros Hp Hq Hord Hi. pose proof (base_pg_no p Hp). pose proof (base_pg_no q Hq).
  destruct Hp as (_ & [? _] & _ & _ & He). unfold page in Hord. rewrite PGSIZE_eq in *.
  unfold page_from_pool. rewrite page_pg_no, u32_small by lia.
  apply andb_false_intro2, Z.ltb_ge. lia.
Qed.

(** Which pool the code finds for a page. *)
Lemma pool_of_page user st i :
  wf_palloc st → 0 ≤ i < bit_cnt (used_map (get_pool user st)) →
  page_from_pool (kernel_pool st) (page (get_pool user st) i) = negb user
  ∧ (user = true → page_from_pool (user_pool st) (page (get_pool user st) i) = true).
Proof.
  intros (Hk & Hu & Hord) Hi. destruct user; simpl in *.
  - split; [apply page_from_higher_pool; [done..|lia] | intros _; by apply page_from_own_pool].
  - split; [by apply page_from_own_pool | done].
Qed.

(** What a correct release of the pages [[i, i + cnt)] of a pool does. *)
Definition releases (user : bool) (i cnt : Z) (st st' : palloc) : Prop :=
  wf_palloc st' ∧ policy st' = policy st ∧ nextfitStart st' = nextfitStart st
  ∧ get_pool (negb user) st' = get_pool (negb user) st
  ∧ pages_set (get_pool user st) (get_pool user st') i cnt false
  ∧ pmem st' = write (page (get_pool user st) i) (replicate (Z.to_nat (PGSIZE * cnt)) 204) (pmem st).

Lemma run_free user st i cnt :
  wf_palloc st → 0 ≤ i → 0 < cnt → i + cnt ≤ bit_cnt (used_map (get_pool user st)) →
  let p := get_pool user st in
  let st1 := set_pmem (write (page p i) (replicate (Z.to_nat (PGSIZE * cnt)) 204) (pmem st)) st in
  palloc_free_multiple (page p i) cnt st
  = (all ← on_used_map user (bitmap_all i cnt);
     ASSERT all ;; on_used_map user (bitmap_set_multiple i cnt false)) st1.
Proof.
  intros Hwf Hi Hcnt Hend p st1. pose proof (wf_get_pool user st Hwf) as Hp. fold p in Hp, Hend.
  destruct (pool_of_page user st i Hwf) as [Hk Hu]; [fold p; lia|]. fold p in Hk, Hu.
  pose proof (page_pg_no p i) as Hno. pose proof (base_pg_no p Hp) as [Hbase Hb0].
  assert (0 < page p i) as Hnn.
  { destruct Hp as (_ & _ & ? & _ & _). unfold page, PHYS_BASE in *. rewrite PGSIZE_eq. lia. }
  assert (PGSIZE * cnt < 2^32) as Hsz.
  { destruct Hp as (_ & _ & ? & _ & ?). unfold PHYS_BASE in *. rewrite PGSIZE_eq in *. lia. }
  unfold palloc_free_multiple. rewrite page_aligned by done.
  rewrite (proj2 (Z.eqb_neq (page p i) NULL)) by (unfold NULL; lia).
  rewrite (proj2 (Z.eqb_neq cnt 0)) by lia. simpl.
  assert (u32 (pg_no (page p i) - pg_no (base p)) = i) as Hidx.
  { rewrite Hno. rewrite u32_small; [lia|]. destruct Hp as (_ & [? _] & _). lia. }
  unfold mbind at 1 2, M_bind at 1 2, ASSERT at 1, get at 1. simpl.
  rewrite Hk. unfold mbind at 1, M_bind at 1.
  destruct user; simpl; [rewrite (Hu eq_refl)|]; simpl;
    unfold mret, M_ret; simpl; unfold p in *; simpl in *; rewrite Hidx;
    unfold on_mem at 1, zoom at 1, mbind at 1, M_bind at 1;
    (rewrite u32_small, memset_run by (rewrite ?PGSIZE_eq in *; lia)); done.
Qed.

Lemma on_used_map_run {A} user (m : M bitmap A) st a b :
  m (used_map (get_pool user st)) = Ok (a, b) →
  on_used_map user m st = Ok (a, set_pool user (set_used_map b (get_pool user st)) st).
Proof. unfold on_used_map, zoom. by intros ->. Qed.

Lemma on_used_map_read {A} user (m : M bitmap A) st a :
  m (used_map (get_pool user st)) = Ok (a, used_map (get_pool user st)) →
  on_used_map user m st = Ok (a, st).
Proof.
  intros ->%on_used_map_run. do 2 f_equal. by destruct user, st as [[] []].
Qed.

Lemma free_spec user st i cnt :
  wf_palloc st → 0 ≤ i → 0 < cnt → i + cnt ≤ bit_cnt (used_map (get_pool user st)) →
  match palloc_free_multiple (page (get_pool user st) i) cnt st with
  | Ok (_, st') =>
      (∀ j, i ≤ j < i + cnt → bit (used_map (get_pool user st)) j = true)
      ∧ releases user i cnt st st'
  | Err e => e = Panic ∧ ¬ ∀ j, i ≤ j < i + cnt → bit (used_map (get_pool user st)) j = true
  end.
Proof.
  intros Hwf Hi Hcnt Hend. rewrite (run_free user st i cnt Hwf Hi Hcnt Hend).
  set (p := get_pool user st) in *. set (m := write _ _ _).
  pose proof (wf_get_pool user st Hwf) as Hp. fold p in Hp. pose proof Hp as (Hl & Hb & _).
  assert (wp (bitmap_all i cnt) (λ r b', b' = used_map p ∧
    (r = true ↔ ∀ j, i ≤ j < i + cnt → bit (used_map p) j = true)) (used_map p))
    as (r & b' & Hall & -> & Hr)%wp_Ok by (apply bitmap_all_spec; [done | lia.. | done]).
  pose proof (bitmap_set_multiple_spec (used_map p) i cnt false Hb Hi ltac:(lia) Hend)
    as ([] & b' & Hset & Hupd)%wp_Ok.
  assert (pages_set p (mk_pool None b' (base p)) i cnt false) as Hps by done.
  unfold mbind, M_bind, ASSERT. rewrite (on_used_map_read user _ _ r) by (by rewrite get_pool_pmem).
  destruct r; simpl; [|split; [done | by intros ?%Hr]].
  rewrite (on_used_map_run user _ _ tt b') by (by rewrite get_pool_pmem).
  split; [by apply Hr|]. rewrite get_pool_pmem. fold p. unfold releases.
  rewrite get_set_pool, get_set_other, get_pool_pmem.
  split_and!; [|by destruct user..|done | by destruct user].
  apply wf_set_pool; [done | by eapply wf_pool_pages_set | done | apply Hupd].
Qed.

(** [palloc_free_multiple] of [page_cnt] pages of a pool returns exactly
    when all of them are in use; it then marks these pages, and no others, as
    free and fills them with the byte 0xcc.  If one of them is free already
    (a double free) it panics. *)
Theorem palloc_free_multiple_exact user st i page_cnt :
  wf_palloc st → 0 ≤ i → 0 < page_cnt → i + page_cnt ≤ bit_cnt (used_map (get_pool user st)) →
  match palloc_free_multiple (page (get_pool user st) i) page_cnt st with
  | Ok (_, st') =>
      (∀ j, i ≤ j < i + page_cnt → bit (used_map (get_pool user st)) j = true)
      ∧ releases user i page_cnt st st'
  | Err e =>
      e = Panic ∧ ¬ ∀ j, i ≤ j < i + page_cnt → bit (used_map (get_pool user st)) j = true
  end.
Proof. apply free_spec. Qed.

Lemma palloc_free_multiple_exact_witness :
  match palloc_free_multiple (page (kernel_pool two_pools) 1) 2 two_pools with
  | Ok (_, st') =>
      (∀ j, 1 ≤ j < 1 + 2 → bit (used_map (kernel_pool two_pools)) j = true)
      ∧ releases false 1 2 two_pools st'
  | Err e =>
      e = Panic ∧ ¬ ∀ j, 1 ≤ j < 1 + 2 → bit (used_map (kernel_pool two_pools)) j = true
  end.
Proof.
  apply (palloc_free_multiple_exact false two_pools 1 2); [apply two_pools_wf | simpl; lia..].
Defined.

(** freeing what a successful allocation returned gives back a state in
    which every page of both pools has the status it had before. *)
Theorem palloc_get_free_roundtrip cur flags page_cnt st pages st1 :
  wf_palloc st → policy st = FIRSTFIT → 0 < page_cnt →
  palloc_get_multiple cur flags page_cnt st = Ok (pages, st1) → pages ≠ NULL →
  ∃ st2, palloc_free_multiple pages page_cnt st1 = Ok (tt, st2) ∧ wf_palloc st2
    ∧ ∀ user j, 0 ≤ j →
        bit (used_map (get_pool user st2)) j = bit (used_map (get_pool user st)) j.
Proof.
  intros Hwf Hpol Hcnt Hrun Hnn. pose proof (get_multiple_firstfit cur flags page_cnt st) as Hok.
  rewrite Hrun in Hok.
  destruct Hok as (Hwf1 & _ & Hother & [(i & -> & _ & Hi & [Hend Hfree] & Hset & _)|(? & _)]);
    [done.. | | done].
  set (user := has flags PAL_USER) in *. destruct Hset as (Hl & Hb & Hwfb & Hc & Hbits).
  pose proof (free_spec user st1 i page_cnt Hwf1 Hi Hcnt ltac:(lia)) as Hfree'.
  unfold page in Hfree'. rewrite Hb in Hfree'. unfold page.
  destruct (palloc_free_multiple _ _ _) as [[[] st2]|e].
  - destruct Hfree' as (_ & Hwf2 & _ & _ & Hother' & (_ & _ & _ & _ & Hbits') & _).
    exists st2. split; [done|]. split; [done|]. intros user' j Hj.
    destruct (decide (user' = user)) as [->|].
    + rewrite Hbits', Hbits by done. case_decide; [|done]. by rewrite Hfree by lia.
    + replace user' with (negb user) by (by destruct user, user'). by rewrite Hother', Hother.
  - destruct Hfree' as [_ []]. intros j Hj. rewrite Hbits by lia. by rewrite decide_True by lia.
Qed.

Lemma palloc_get_free_roundtrip_witness :
  ∃ pages st1 st2, palloc_get_multiple 7 0 2 two_pools = Ok (pages, st1)
    ∧ palloc_free_multiple pages 2 st1 = Ok (tt, st2) ∧ wf_palloc st2
    ∧ ∀ user j, 0 ≤ j →
        bit (used_map (get_pool user st2)) j = bit (used_map (get_pool user two_pools)) j.
Proof.
  destruct (palloc_get_multiple 7 0 2 two_pools) as [[pages st1]|] eqn:Hrun; [|done].
  assert (pages ≠ NULL) as Hnn by (vm_compute in Hrun; injection Hrun as <- _; done).
  destruct (palloc_get_free_roundtrip 7 0 2 two_pools pages st1 two_pools_wf eq_refl eq_refl Hrun Hnn)
    as (st2 & H). by exists pages, st1, st2.
Defined.

(** ** Initialisation *)

(** The bitmap of a pool of [n] pages takes [bm] pages of it. *)
Lemma bitmap_pages n :
  1 ≤ n ≤ 2^18 → let bm := u32 (bitmap_buf_size n + PGSIZE - 1) / PGSIZE in
  1 ≤ bm ≤ n ∧ bitmap_buf_size (n - bm) ≤ bm * PGSIZE.
Proof.
  intros Hn. unfold bitmap_buf_size, byte_cnt, elem_cnt, ELEM_BITS. rewrite PGSIZE_eq. simpl.
  assert (∀ k, 0 ≤ k ≤ 2^18 →
    u32 (8 + u32 (4 * (u32 (k + 32 - 1) / 32))) = 8 + 4 * ((k + 31) / 32)) as Hsz.
  { intros k Hk. rewrite (u32_small (k + 32 - 1)) by lia.
    rewrite (u32_small (4 * _)) by div_lia. rewrite u32_small by div_lia. div_lia. }
  rewrite (Hsz n), u32_small by div_lia. rewrite Hsz by div_lia. div_lia.
Qed.

Lemma init_pool_ok ram start n :
  1 ≤ n ≤ 2^18 → PHYS_BASE ≤ start → start mod PGSIZE = 0 → start + PGSIZE * n < 2^32 →
  ∃ p, init_pool ram start n = Ok p ∧ wf_pool p
    ∧ start < base p ∧ page p (bit_cnt (used_map p)) = start + PGSIZE * n
    ∧ ∀ j, 0 ≤ j < bit_cnt (used_map p) → bit (used_map p) j = false.
Proof.
  intros Hn Hb Ha He. destruct (bitmap_pages n Hn) as [Hbm Hsz]. unfold init_pool.
  set (bm := u32 _ / PGSIZE) in *. rewrite (proj2 (Z.ltb_ge n bm)) by lia.
  set (words := map _ _). rewrite PGSIZE_eq in *. unfold PHYS_BASE in *.
  assert (Bitmap.wf (mk_bitmap (n - bm) words)) as Hwf.
  { unfold Bitmap.wf; simpl. split; [lia|]. unfold words. split.
    - rewrite length_map, length_seqZ, Z2Nat.id; [done|].
      unfold elem_cnt, ELEM_BITS. apply Z.div_pos; [apply u32_range | lia].
    - apply Forall_forall. intros w Hw. apply list_elem_of_fmap in Hw as (i & -> & _).
      apply u32_range. }
  unfold bitmap_create_in_buf. rewrite (u32_small (bm * 4096)), (proj2 (Z.leb_le _ _)) by lia.
  destruct (proj1 (wp_Ok _ _ _) (bitmap_set_all_spec _ false Hwf))
    as ([] & b & -> & Hwf' & Hcnt & Hbits).
  eexists. split; [done|]. rewrite u32_small by lia. unfold wf_pool, page, PHYS_BASE. simpl in *.
  rewrite Hcnt, PGSIZE_eq. split_and!; [done | done | lia | by rewrite Z.mod_add by lia | lia | lia | lia |].
  intros j Hj. rewrite Hbits by lia. simpl. by rewrite decide_True by lia.
Qed.

(** on a machine with more than 1 MB and less than 1 GB of RAM,
    [palloc_init] gives two well-formed, disjoint pools between 1 MB and the
    end of RAM, in which every page is free, and no more than
    [user_page_limit] pages go to the user pool. *)
Theorem palloc_init_correct ram init_ram_pages user_page_limit st :
  258 ≤ init_ram_pages < 2^18 → 1 ≤ user_page_limit < 2^32 →
  ∃ st', palloc_init ram init_ram_pages user_page_limit st = Ok (tt, st') ∧ wf_palloc st'
    ∧ PHYS_BASE + 1048576 < base (kernel_pool st')
    ∧ page (user_pool st') (bit_cnt (used_map (user_pool st')))
      = PHYS_BASE + PGSIZE * init_ram_pages
    ∧ bit_cnt (used_map (user_pool st')) < user_page_limit
    ∧ (policy st' = NEXTFIT → nextfitStart st' = 0)
    ∧ ∀ user j, 0 ≤ j < bit_cnt (used_map (get_pool user st')) →
        bit (used_map (get_pool user st')) j = false.
Proof.
  intros Hn Hlim. set (n := init_ram_pages - 256).
  set (user := Z.min user_page_limit (n / 2)).
  assert (1 ≤ user ∧ user ≤ n / 2 ∧ 2 ≤ n < 2^18 ∧ 2 * user ≤ n) as Huser by (unfold user, n; div_lia).
  destruct (init_pool_ok ram (PHYS_BASE + 1048576) (n - user))
    as (kp & Hk & Hkwf & Hkb & Hkend & Hkfree);
    [lia | lia | done | rewrite PGSIZE_eq; unfold PHYS_BASE; lia |].
  destruct (init_pool_ok ram (PHYS_BASE + 1048576 + (n - user) * PGSIZE) user)
    as (up & Hu & Huwf & Hub & Huend & Hufree);
    [lia | rewrite PGSIZE_eq; lia
    | by rewrite Z.mod_add by by rewrite PGSIZE_eq | rewrite PGSIZE_eq; unfold PHYS_BASE; lia |].
  exists (mk_palloc kp up (policy st)
           (match policy st with FIRSTFIT => nextfitStart st | NEXTFIT => 0 end) (pmem st)).
  split.
  - unfold palloc_init, ptov, mbind, M_bind, ASSERT, of_res, mret, M_ret, modify.
    rewrite PGSIZE_eq, (u32_small (init_ram_pages * 4096)), (proj2 (Z.ltb_lt _ _)),
      (proj2 (Z.ltb_lt _ _)) by (unfold PHYS_BASE; lia).
    lazy beta iota zeta.
    assert (u32 (Z.quot (s32 (u32 (init_ram_pages * 4096 + PHYS_BASE)
      - u32 (1024 * 1024 + PHYS_BASE))) 4096) = n) as ->.
    { unfold PHYS_BASE, s32. rewrite !(u32_small (_ + _)), sgn_small by (simpl; lia).
      rewrite Z.quot_div_nonneg, u32_small by div_lia. unfold n. div_lia. }
    replace (if user_page_limit <? n / 2 then user_page_limit else n / 2) with user
      by (unfold user; destruct (Z.ltb_spec user_page_limit (n / 2)); lia).
    rewrite (u32_small (n - user)) by lia. change (1024 * 1024 + PHYS_BASE) with (PHYS_BASE + 1048576).
    rewrite (u32_small (PHYS_BASE + 1048576)), Hk by (unfold PHYS_BASE; lia).
    rewrite PGSIZE_eq in Hu. rewrite (u32_small (PHYS_BASE + _ + _)), Hu by (unfold PHYS_BASE; lia).
    done.
  - unfold wf_palloc, page in *; simpl. rewrite PGSIZE_eq in *.
    split_and!; [done | done | lia | lia | lia | lia | by intros -> | by intros []; simpl].
Qed.

Lemma palloc_init_correct_witness :
  ∃ st', palloc_init (λ a, a) 1024 4096 two_pools_nextfit = Ok (tt, st') ∧ wf_palloc st'
    ∧ PHYS_BASE + 1048576 < base (kernel_pool st')
    ∧ page (user_pool st') (bit_cnt (used_map (user_pool st'))) = PHYS_BASE + PGSIZE * 1024
    ∧ bit_cnt (used_map (user_pool st')) < 4096
    ∧ (policy st' = NEXTFIT → nextfitStart st' = 0)
    ∧ ∀ user j, 0 ≤ j < bit_cnt (used_map (get_pool user st')) →
        bit (used_map (get_pool user st')) j = false.
Proof. apply (palloc_init_correct (λ a, a) 1024 4096 two_pools_nextfit); lia. Defined.

End Palloc.
