(* ===== verification/Dlist.v ===== *)
(** * Doubly linked lists: lib/kernel/list.c

    Lists as the source has them: elements are addresses, a heap maps an
    element to its [prev] and [next] members, and a list at address [l] has
    its head element at [l] and its tail element at [l + 8].  A comparison
    function is a parameter: the code it stands for belongs to the caller,
    and what it reads is not part of the links.  Loops over a list take a
    bound [fuel] that every theorem only asks to exceed the length of the
    list. *)
From stdpp Require Import base gmap list sorting.
From Stdlib Require Import ZArith Lia.
From S2P Require Import Prelude.

Module Dlist.

(** [struct list_elem], for all addresses. *)
Record heap := mk_heap {
  prev_of : gmap Z Z;
  next_of : gmap Z Z
}.

Definition NULL : Z := 0.

Definition get_prev (e : Z) : M heap Z := λ h,
  match prev_of h !! e with Some p => Ok (p, h) | None => Err Fault end.
Definition get_next (e : Z) : M heap Z := λ h,
  match next_of h !! e with Some p => Ok (p, h) | None => Err Fault end.
Definition set_prev (e p : Z) : M heap unit := λ h,
  if e =? NULL then Err Fault else Ok (tt, mk_heap (<[e := p]> (prev_of h)) (next_of h)).
Definition set_next (e p : Z) : M heap unit := λ h,
  if e =? NULL then Err Fault else Ok (tt, mk_heap (prev_of h) (<[e := p]> (next_of h))).

(** [a || b], evaluated from the left. *)
Definition or_else (a b : M heap bool) : M heap bool :=
  x ← a; if x : bool then mret true else b.

(** [&list->head] and [&list->tail]. *)
Definition head (list : Z) : Z := list.
Definition tail (list : Z) : Z := list + 8.
#[global] Arguments head : simpl never.
#[global] Arguments tail : simpl never.

Definition is_head (elem : Z) : M heap bool :=
  if elem =? NULL then mret false
  else p ← get_prev elem;
       if negb (p =? NULL) then mret false
       else n ← get_next elem; mret (negb (n =? NULL)).

Definition is_interior (elem : Z) : M heap bool :=
  if elem =? NULL then mret false
  else p ← get_prev elem;
       if p =? NULL then mret false
       else n ← get_next elem; mret (negb (n =? NULL)).

Definition is_tail (elem : Z) : M heap bool :=
  if elem =? NULL then mret false
  else p ← get_prev elem;
       if p =? NULL then mret false
       else n ← get_next elem; mret (n =? NULL).

Definition list_init (list : Z) : M heap unit :=
  ASSERT (negb (list =? NULL)) ;;
  set_prev (head list) NULL ;;
  set_next (head list) (tail list) ;;
  set_prev (tail list) (head list) ;;
  set_next (tail list) NULL.

Definition list_begin (list : Z) : M heap Z :=
  ASSERT (negb (list =? NULL)) ;; get_next (head list).

Definition list_next (elem : Z) : M heap Z :=
  b ← or_else (is_head elem) (is_interior elem);
  ASSERT b ;; get_next elem.

Definition list_end (list : Z) : M heap Z :=
  ASSERT (negb (list =? NULL)) ;; mret (tail list).

Definition list_rbegin (list : Z) : M heap Z :=
  ASSERT (negb (list =? NULL)) ;; get_prev (tail list).

Definition list_prev (elem : Z) : M heap Z :=
  b ← or_else (is_interior elem) (is_tail elem);
  ASSERT b ;; get_prev elem.

Definition list_rend (list : Z) : M heap Z :=
  ASSERT (negb (list =? NULL)) ;; mret (head list).

Definition list_head (list : Z) : M heap Z :=
  ASSERT (negb (list =? NULL)) ;; mret (head list).

Definition list_tail (list : Z) : M heap Z :=
  ASSERT (negb (list =? NULL)) ;; mret (tail list).

Definition list_insert (before elem : Z) : M heap unit :=
  b ← or_else (is_interior before) (is_tail before);
  ASSERT b ;;
  ASSERT (negb (elem =? NULL)) ;;
  p ← get_prev before;
  set_prev elem p ;;
  set_next elem before ;;
  p ← get_prev before;
  set_next p elem ;;
  set_prev before elem.

Definition list_splice (before first last : Z) : M heap unit :=
  b ← or_else (is_interior before) (is_tail before);
  ASSERT b ;;
  if first =? last then mret tt
  else
    last ← list_prev last;
    b ← is_interior first;
    ASSERT b ;;
    b ← is_interior last;
    ASSERT b ;;
    p ← get_prev first;
    n ← get_next last;
    set_next p n ;;
    n ← get_next last;
    p ← get_prev first;
    set_prev n p ;;
    p ← get_prev before;
    set_prev first p ;;
    set_next last before ;;
    p ← get_prev before;
    set_next p first ;;
    set_prev before last.

Definition list_push_front (list elem : Z) : M heap unit :=
  b ← list_begin list; list_insert b elem.

Definition list_push_back (list elem : Z) : M heap unit :=
  b ← list_end list; list_insert b elem.

Definition list_remove (elem : Z) : M heap Z :=
  b ← is_interior elem;
  ASSERT b ;;
  p ← get_prev elem;
  n ← get_next elem;
  set_next p n ;;
  n ← get_next elem;
  p ← get_prev elem;
  set_prev n p ;;
  get_next elem.

Definition list_empty (list : Z) : M heap bool :=
  b ← list_begin list; e ← list_end list; mret (b =? e).

Definition list_front (list : Z) : M heap Z :=
  b ← list_empty list;
  ASSERT (negb b) ;; get_next (head list).

Definition list_back (list : Z) : M heap Z :=
  b ← list_empty list;
  ASSERT (negb b) ;; get_prev (tail list).

Definition list_pop_front (list : Z) : M heap Z :=
  front ← list_front list;
  list_remove front ;;
  mret front.

Definition list_pop_back (list : Z) : M heap Z :=
  back ← list_back list;
  list_remove back ;;
  mret back.

(** [cnt] is a [size_t]. *)
Definition list_size (fuel : nat) (list : Z) : M heap Z :=
  b ← list_begin list;
  loop fuel (λ '(e, cnt),
    t ← list_end list;
    if e =? t then mret (inr cnt)
    else n ← list_next e; mret (inl (n, u32 (cnt + 1)))) (b, 0).

(** [swap (&e->prev, &e->next)]. *)
Definition swap_links (e : Z) : M heap unit :=
  t ← get_prev e;
  n ← get_next e;
  set_prev e n ;;
  set_next e t.

(** [swap (&a->next, &b->prev)]. *)
Definition swap_next_prev (a b : Z) : M heap unit :=
  t ← get_next a;
  p ← get_prev b;
  set_next a p ;;
  set_prev b t.

(** [swap (&a->prev, &b->next)]. *)
Definition swap_prev_next (a b : Z) : M heap unit :=
  t ← get_prev a;
  n ← get_next b;
  set_prev a n ;;
  set_next b t.

Definition list_reverse (fuel : nat) (list : Z) : M heap unit :=
  b ← list_empty list;
  if negb b then
    b ← list_begin list;
    loop fuel (λ e,
      t ← list_end list;
      if e =? t then mret (inr tt)
      else swap_links e ;; p ← get_prev e; mret (inl p)) b ;;
    swap_next_prev (head list) (tail list) ;;
    a ← get_next (head list);
    b ← get_prev (tail list);
    swap_prev_next a b
  else mret tt.

Section ordered.
Context (less : Z → Z → bool) (fuel : nat).

Definition is_sorted (a b : Z) : M heap bool :=
  if negb (a =? b) then
    loop fuel (λ a,
      a ← list_next a;
      if a =? b then mret (inr true)
      else p ← list_prev a;
           mret (if less a p then inr false else inl a)) a
  else mret true.

Definition find_end_of_run (a b : Z) : M heap Z :=
  ASSERT (negb (a =? NULL)) ;;
  ASSERT (negb (b =? NULL)) ;;
  ASSERT (negb (a =? b)) ;;
  loop fuel (λ a,
    a ← list_next a;
    if a =? b then mret (inr a)
    else p ← list_prev a;
         mret (if negb (less a p) then inl a else inr a)) a.

Definition inplace_merge (a0 a1b0 b1 : Z) : M heap unit :=
  ASSERT (negb (a0 =? NULL)) ;;
  ASSERT (negb (a1b0 =? NULL)) ;;
  ASSERT (negb (b1 =? NULL)) ;;
  s ← is_sorted a0 a1b0;
  ASSERT s ;;
  s ← is_sorted a1b0 b1;
  ASSERT s ;;
  loop fuel (λ '(a0, a1b0),
    if negb (a0 =? a1b0) && negb (a1b0 =? b1) then
      if negb (less a1b0 a0) then
        a0 ← list_next a0; mret (inl (a0, a1b0))
      else
        a1b0 ← list_next a1b0;
        p ← list_prev a1b0;
        list_splice a0 p a1b0 ;;
        mret (inl (a0, a1b0))
    else mret (inr tt)) (a0, a1b0).

(** One pass over the list; the result is [output_run_cnt]. *)
Definition sort_pass (list : Z) : M heap Z :=
  b ← list_begin list;
  loop fuel (λ '(a0, output_run_cnt),
    e ← list_end list;
    if a0 =? e then mret (inr output_run_cnt)
    else
      let output_run_cnt := u32 (output_run_cnt + 1) in
      e ← list_end list;
      a1b0 ← find_end_of_run a0 e;
      e ← list_end list;
      if a1b0 =? e then mret (inr output_run_cnt)
      else
        e ← list_end list;
        b1 ← find_end_of_run a1b0 e;
        inplace_merge a0 a1b0 b1 ;;
        mret (inl (b1, output_run_cnt))) (b, 0).

Definition list_sort (list : Z) : M heap unit :=
  ASSERT (negb (list =? NULL)) ;;
  loop fuel (λ _,
    output_run_cnt ← sort_pass list;
    mret (if 1 <? output_run_cnt then inl tt else inr tt)) tt ;;
  b ← list_begin list;
  e ← list_end list;
  s ← is_sorted b e;
  ASSERT s.

Definition list_insert_ordered (list elem : Z) : M heap unit :=
  ASSERT (negb (list =? NULL)) ;;
  ASSERT (negb (elem =? NULL)) ;;
  b ← list_begin list;
  e ← loop fuel (λ e,
        t ← list_end list;
        if e =? t then mret (inr e)
        else if less elem e then mret (inr e)
        else n ← list_next e; mret (inl n)) b;
  list_insert e elem.

(** [duplicates] may be null. *)
Definition list_unique (list duplicates : Z) : M heap unit :=
  ASSERT (negb (list =? NULL)) ;;
  b ← list_empty list;
  if b : bool then mret tt
  else
    elem ← list_begin list;
    loop fuel (λ elem,
      next ← list_next elem;
      e ← list_end list;
      if next =? e then mret (inr tt)
      else if negb (less elem next) && negb (less next elem) then
        list_remove next ;;
        (if negb (duplicates =? NULL) then list_push_back duplicates next else mret tt) ;;
        mret (inl elem)
      else mret (inl next)) elem.

Definition list_max (list : Z) : M heap Z :=
  max ← list_begin list;
  t ← list_end list;
  if negb (max =? t) then
    e ← list_next max;
    loop fuel (λ '(e, max),
      t ← list_end list;
      if e =? t then mret (inr max)
      else let max := if less max e then e else max in
           n ← list_next e; mret (inl (n, max))) (e, max)
  else mret max.

Definition list_min (list : Z) : M heap Z :=
  min ← list_begin list;
  t ← list_end list;
  if negb (min =? t) then
    e ← list_next min;
    loop fuel (λ '(e, min),
      t ← list_end list;
      if e =? t then mret (inr min)
      else let min := if less e min then e else min in
           n ← list_next e; mret (inl (n, min))) (e, min)
  else mret min.

End ordered.

(** A list at 100 with three elements, sorted by address. *)
Example sort_three :
  match (list_init 100 ;; list_push_back 100 30 ;; list_push_back 100 10 ;;
         list_push_front 100 20 ;; list_sort Z.ltb 10 100 ;;
         a ← list_pop_front 100; b ← list_pop_front 100; c ← list_pop_back 100;
         e ← list_empty 100; mret (a, b, c, e)) (mk_heap ∅ ∅) with
  | Ok (r, _) => r = (10, 20, 30, true)
  | Err _ => False
  end.
Proof. vm_compute. reflexivity. Qed.

(** ** Linked chains *)

(** Consecutive elements of [ns] are linked in both directions. *)
Fixpoint chain (h : heap) (ns : list Z) : Prop :=
  match ns with
  | a :: ((b :: _) as ns') => next_of h !! a = Some b ∧ prev_of h !! b = Some a ∧ chain h ns'
  | _ => True
  end.

Lemma chain_app h xs a b ys :
  chain h (xs ++ a :: b :: ys) ↔
  chain h (xs ++ [a]) ∧ next_of h !! a = Some b ∧ prev_of h !! b = Some a ∧ chain h (b :: ys).
Proof.
  induction xs as [|x xs IH]; simpl; [tauto|].
  destruct xs as [|x' xs]; simpl in *; tauto.
Qed.

(** A chain depends on [next] of all its elements but the last and on [prev]
    of all but the first. *)
Lemma chain_update h h' ns :
  (∀ a, a ∈ removelast ns → next_of h' !! a = next_of h !! a) →
  (∀ a, a ∈ tl ns → prev_of h' !! a = prev_of h !! a) →
  chain h ns → chain h' ns.
Proof.
  induction ns as [|a ns IH]; [done|]. destruct ns as [|b ns]; [done|].
  intros Hn Hp (Hab & Hba & Hc).
  split; [rewrite Hn; [done | simpl; set_solver]|].
  split; [rewrite Hp; [done | simpl; set_solver]|].
  apply IH; [| |done].
  - intros c Hin. apply Hn. simpl in *. set_solver.
  - intros c Hin. apply Hp. simpl in *. set_solver.
Qed.

(** Heaps that differ at most on the addresses in [D]. *)
Definition same_outside (D : list Z) (h h' : heap) : Prop :=
  ∀ a, a ∉ D → prev_of h' !! a = prev_of h !! a ∧ next_of h' !! a = next_of h !! a.

Lemma chain_agree h h' ns :
  (∀ a, a ∈ ns → prev_of h' !! a = prev_of h !! a ∧ next_of h' !! a = next_of h !! a) →
  chain h ns → chain h' ns.
Proof.
  induction ns as [|a ns IH]; [done|]. destruct ns as [|b ns]; [done|].
  intros Hag (Hn & Hp & Hc). split; [by rewrite (proj2 (Hag a (list_elem_of_here _ _)))|].
  split; [by rewrite (proj1 (Hag b ltac:(set_solver)))|].
  apply IH; [|done]. intros c Hin. apply Hag. set_solver.
Qed.

Lemma chain_cons h a b ns :
  chain h (a :: b :: ns) ↔ next_of h !! a = Some b ∧ prev_of h !! b = Some a ∧ chain h (b :: ns).
Proof. done. Qed.

#[global] Arguments chain : simpl never.

Lemma same_outside_refl D h : same_outside D h h.
Proof. done. Qed.

Lemma same_outside_trans D1 D2 h1 h2 h3 :
  same_outside D1 h1 h2 → same_outside D2 h2 h3 → D1 ⊆ D2 → same_outside D2 h1 h3.
Proof.
  intros H1 H2 Hsub a Ha. destruct (H2 a Ha) as [-> ->]. apply H1. set_solver.
Qed.

(** A complete list: head, elements and tail. *)
Record dll (h : heap) (ns : list Z) : Prop := {
  dll_chain : chain h ns;
  dll_nodup : NoDup ns;
  dll_pos : Forall (λ a, 0 < a) ns;
  dll_head : ∀ a ns', ns = a :: ns' → prev_of h !! a = Some NULL;
  dll_tail : ∀ a ns', ns = ns' ++ [a] → next_of h !! a = Some NULL
}.

Definition nodes (l : Z) (xs : list Z) : list Z := head l :: xs ++ [tail l].

(** The list at [l] has the elements [xs], in this order. *)
Definition is_list (h : heap) (l : Z) (xs : list Z) : Prop := dll h (nodes l xs).

Lemma is_list_agree h h' l xs D :
  same_outside D h h' → (∀ a, a ∈ nodes l xs → a ∉ D) → is_list h l xs → is_list h' l xs.
Proof.
  intros Hs Hd [Hc Hn Hp Hh Ht]. split; [|done|done| |].
  - eapply chain_agree; [|done]. intros a Ha. by apply Hs, Hd.
  - intros a ns' Heq. rewrite (proj1 (Hs a ltac:(apply Hd; rewrite Heq; set_solver))). by eapply Hh.
  - intros a ns' Heq. rewrite (proj2 (Hs a ltac:(apply Hd; rewrite Heq; set_solver))). by eapply Ht.
Qed.

(** ** Symbolic execution of link accesses *)

Lemma wp_get_prev e p (Q : Z → heap → Prop) h :
  prev_of h !! e = Some p → Q p h → wp (get_prev e) Q h.
Proof. unfold wp, get_prev. by intros ->. Qed.

Lemma wp_get_next e p (Q : Z → heap → Prop) h :
  next_of h !! e = Some p → Q p h → wp (get_next e) Q h.
Proof. unfold wp, get_next. by intros ->. Qed.

Lemma wp_set_prev e p (Q : unit → heap → Prop) h :
  0 < e → Q tt (mk_heap (<[e := p]> (prev_of h)) (next_of h)) → wp (set_prev e p) Q h.
Proof. intros He. unfold wp, set_prev. by rewrite (proj2 (Z.eqb_neq e NULL)) by (unfold NULL; lia). Qed.

Lemma wp_set_next e p (Q : unit → heap → Prop) h :
  0 < e → Q tt (mk_heap (prev_of h) (<[e := p]> (next_of h))) → wp (set_next e p) Q h.
Proof. intros He. unfold wp, set_next. by rewrite (proj2 (Z.eqb_neq e NULL)) by (unfold NULL; lia). Qed.

(** The three kinds of elements, from the links. *)
Lemma wp_is_interior e p n (Q : bool → heap → Prop) h :
  0 < e → prev_of h !! e = Some p → next_of h !! e = Some n →
  Q (negb (p =? NULL) && negb (n =? NULL)) h → wp (is_interior e) Q h.
Proof.
  intros He Hp Hn HQ. unfold is_interior. rewrite (proj2 (Z.eqb_neq e NULL)) by (unfold NULL; lia).
  wp_bind. eapply wp_get_prev; [done|]. destruct (p =? NULL); [by apply wp_ret|].
  wp_bind. eapply wp_get_next; [done|]. by apply wp_ret.
Qed.

Lemma wp_is_tail e p n (Q : bool → heap → Prop) h :
  0 < e → prev_of h !! e = Some p → next_of h !! e = Some n →
  Q (negb (p =? NULL) && (n =? NULL)) h → wp (is_tail e) Q h.
Proof.
  intros He Hp Hn HQ. unfold is_tail. rewrite (proj2 (Z.eqb_neq e NULL)) by (unfold NULL; lia).
  wp_bind. eapply wp_get_prev; [done|]. destruct (p =? NULL); [by apply wp_ret|].
  wp_bind. eapply wp_get_next; [done|]. by apply wp_ret.
Qed.

Lemma wp_is_head e p n (Q : bool → heap → Prop) h :
  0 < e → prev_of h !! e = Some p → next_of h !! e = Some n →
  Q ((p =? NULL) && negb (n =? NULL)) h → wp (is_head e) Q h.
Proof.
  intros He Hp Hn HQ. unfold is_head. rewrite (proj2 (Z.eqb_neq e NULL)) by (unfold NULL; lia).
  wp_bind. eapply wp_get_prev; [done|]. destruct (p =? NULL); [|by apply wp_ret].
  wp_bind. eapply wp_get_next; [done|]. by apply wp_ret.
Qed.

(** ** Positions in a list *)

Section dll.
Context (h : heap).

Lemma dll_link A a b B :
  dll h (A ++ a :: b :: B) →
  next_of h !! a = Some b ∧ prev_of h !! b = Some a ∧ 0 < a ∧ 0 < b ∧ a ≠ b.
Proof.
  intros [Hc Hn Hp _ _]. apply chain_app in Hc as (_ & Hnext & Hprev & _).
  apply NoDup_app in Hn as (_ & _ & Hn). apply NoDup_cons in Hn as [Hn _].
  apply Forall_app in Hp as [_ Hp]. apply Forall_cons in Hp as [Ha Hp].
  apply Forall_cons in Hp as [Hb _]. split_and!; [done..|]. set_solver.
Qed.

(** The link backwards from a node: null at the head only. *)
Lemma dll_prev A a B :
  dll h (A ++ a :: B) →
  0 < a ∧ (A = [] ∧ prev_of h !! a = Some NULL
           ∨ ∃ A' p, A = A' ++ [p] ∧ prev_of h !! a = Some p ∧ 0 < p).
Proof.
  intros Hd. destruct A as [|p A' _] using rev_ind.
  - split; [|left; split; [done | by eapply (dll_head _ _ Hd)]].
    pose proof (dll_pos _ _ Hd) as Hp. by apply Forall_cons in Hp as [? _].
  - rewrite <- app_assoc in Hd. apply dll_link in Hd as (_ & ? & ? & ? & _). split; [done|].
    right. by exists A', p.
Qed.

Lemma dll_next A a B :
  dll h (A ++ a :: B) →
  0 < a ∧ (B = [] ∧ next_of h !! a = Some NULL
           ∨ ∃ n B', B = n :: B' ∧ next_of h !! a = Some n ∧ 0 < n).
Proof.
  intros Hd. destruct B as [|n B'].
  - split; [|left; split; [done | by eapply (dll_tail _ _ Hd)]].
    pose proof (dll_pos _ _ Hd) as Hp. by apply Forall_app in Hp as [_ [? _]%Forall_cons].
  - apply dll_link in Hd as (? & _ & ? & ? & _). split; [done|]. right. by exists n, B'.
Qed.

Lemma null_eqb a : 0 < a → (a =? NULL) = false.
Proof. intros. apply Z.eqb_neq. unfold NULL. lia. Qed.

Lemma list_next_spec A a b B (Q : Z → heap → Prop) :
  dll h (A ++ a :: b :: B) → Q b h → wp (list_next a) Q h.
Proof.
  intros Hd HQ. destruct (dll_link _ _ _ _ Hd) as (Hn & _ & Ha & Hb & _).
  destruct (dll_prev _ _ _ Hd) as (_ & Hp). unfold list_next, or_else.
  destruct Hp as [[_ Hp]|(_ & p & _ & Hp & Hp0)]; wp_bind; wp_bind;
    (eapply wp_is_head; [done..|]); rewrite (null_eqb b) by done;
    [|rewrite (null_eqb p) by done]; simpl.
  - apply wp_ret. wp_assert; [done|]. by eapply wp_get_next.
  - eapply wp_is_interior; [done..|]. rewrite !null_eqb by done. simpl.
    wp_assert; [done|]. by eapply wp_get_next.
Qed.

(** Any element but the head passes the test of [list_prev] and
    [list_insert]. *)
Lemma not_head_spec A a b B (Q : bool → heap → Prop) :
  dll h (A ++ a :: b :: B) → Q true h → wp (or_else (is_interior b) (is_tail b)) Q h.
Proof.
  intros Hd HQ. destruct (dll_link _ _ _ _ Hd) as (_ & Hp & Ha & Hb & _).
  rewrite (cons_middle a), app_assoc in Hd.
  destruct (dll_next _ _ _ Hd) as [_ [[_ Hn]|(n & _ & _ & Hn & Hn0)]];
    unfold or_else; wp_bind; (eapply wp_is_interior; [done..|]); rewrite (null_eqb a) by done.
  - simpl. eapply wp_is_tail; [done..|]. by rewrite (null_eqb a) by done.
  - rewrite null_eqb by done. by apply wp_ret.
Qed.

Lemma list_prev_spec A a b B (Q : Z → heap → Prop) :
  dll h (A ++ a :: b :: B) → Q a h → wp (list_prev b) Q h.
Proof.
  intros Hd HQ. destruct (dll_link _ _ _ _ Hd) as (_ & Hp & _).
  unfold list_prev. wp_bind. eapply not_head_spec; [done|]. wp_assert; [done|].
  by eapply wp_get_prev.
Qed.

Lemma interior_spec A p a n B (Q : bool → heap → Prop) :
  dll h (A ++ p :: a :: n :: B) → Q true h → wp (is_interior a) Q h.
Proof.
  intros Hd HQ. destruct (dll_link _ _ _ _ Hd) as (_ & Hp & Hp0 & Ha & _).
  rewrite (cons_middle p), app_assoc in Hd. destruct (dll_link _ _ _ _ Hd) as (Hn & _ & _ & Hn0 & _).
  eapply wp_is_interior; [done..|]. by rewrite !null_eqb by done.
Qed.
End dll.

(** ** Changing links *)

Lemma dll_rebuild h h' ns ns' :
  dll h ns → chain h' ns' → NoDup ns' → Forall (λ a, 0 < a) ns' →
  hd_error ns' = hd_error ns → last ns' = last ns →
  (∀ a, hd_error ns = Some a → prev_of h' !! a = prev_of h !! a) →
  (∀ a, last ns = Some a → next_of h' !! a = next_of h !! a) →
  dll h' ns'.
Proof.
  intros Hd Hc Hn Hp Hhd Hlast Hh Ht. split; [done..| |].
  - intros a r ->. rewrite Hh by done. destruct ns as [|b ns]; [done|]. simplify_eq/=.
    by eapply (dll_head _ _ Hd).
  - intros a r ->. rewrite last_snoc in Hlast. rewrite Ht by done.
    apply eq_sym, last_Some in Hlast as [r' ->]. by eapply (dll_tail _ _ Hd).
Qed.

Lemma last_after (A B : list Z) b : last (A ++ b :: B) = last (b :: B).
Proof. apply last_app_cons. Qed.

Lemma last_three (A S T B : list Z) a b : last (A ++ a :: S ++ T ++ b :: B) = last (b :: B).
Proof. by rewrite (app_assoc S T), (app_comm_cons (S ++ T)), app_assoc, last_after. Qed.

Lemma last_elem (A : list Z) a : last A = Some a → a ∈ A.
Proof. intros [A' ->]%last_Some. set_solver. Qed.

Lemma hd_elem (A : list Z) a : hd_error A = Some a → a ∈ A.
Proof. destruct A; intros; simplify_eq/=. set_solver. Qed.

Lemma hd_app (A B : list Z) a : hd_error A = Some a → hd_error (A ++ B) = Some a.
Proof. by destruct A. Qed.

Lemma removelast_snoc (A : list Z) a : removelast (A ++ [a]) = A.
Proof. apply removelast_last. Qed.

Lemma removelast_sub (A : list Z) a : a ∈ removelast A → a ∈ A.
Proof.
  destruct A as [|x A _] using rev_ind; [done|]. rewrite removelast_snoc. set_solver.
Qed.

Lemma tl_sub (A : list Z) a : a ∈ tl A → a ∈ A.
Proof. destruct A; set_solver. Qed.

Lemma dll_insert h A p b B e :
  dll h (A ++ p :: b :: B) → 0 < e → e ∉ A ++ p :: b :: B →
  wp (list_insert b e) (λ _ h', dll h' (A ++ p :: e :: b :: B) ∧ same_outside [e; p; b] h h') h.
Proof.
  intros Hd He Hnew. destruct (dll_link _ _ _ _ _ Hd) as (Hn & Hp & Hp0 & Hb0 & Hpb).
  assert (e ≠ p ∧ e ≠ b) as [Hep Heb] by (split; mem_solve).
  unfold list_insert. wp_bind. eapply not_head_spec; [done|].
  wp_assert; [done|]. wp_assert; [by rewrite null_eqb|].
  wp_bind. eapply wp_get_prev; [done|]. wp_bind. apply wp_set_prev; [done|].
  wp_bind. apply wp_set_next; [done|]. wp_bind. eapply wp_get_prev; [simpl; by rewrite lookup_insert_ne|].
  wp_bind. apply wp_set_next; [done|]. apply wp_set_prev; [done|]. simpl. split.
  2: { intros a Ha. simpl. rewrite !lookup_insert_ne by mem_solve. done. }
  pose proof (dll_nodup _ _ Hd) as HN. pose proof (dll_chain _ _ Hd) as Hc.
  apply chain_app in Hc as (Hc1 & _ & _ & Hc2).
  assert (b ∉ A ∧ b ∉ B ∧ p ∉ A ∧ p ∉ B) as (? & ? & ? & ?) by (split_and!; mem_solve).
  assert (A ++ p :: e :: b :: B ≡ₚ e :: A ++ p :: b :: B) as Hperm by solve_Permutation.
  eapply dll_rebuild; [exact Hd | | | | | | |].
  - apply (chain_app _ A p e). split; [|simpl; split; [by rewrite lookup_insert_eq|split]].
    + eapply chain_update; [| |exact Hc1]; simpl; intros a Ha.
      * rewrite removelast_snoc in Ha. by rewrite !lookup_insert_ne by mem_solve.
      * apply tl_sub in Ha. by rewrite !lookup_insert_ne by mem_solve.
    + by rewrite lookup_insert_ne, lookup_insert_eq.
    + apply chain_cons. simpl.
      split; [by rewrite lookup_insert_ne, lookup_insert_eq|]. split; [by rewrite lookup_insert_eq|].
      eapply chain_update; [| |exact Hc2]; intros a Ha;
        [apply removelast_sub in Ha|]; simpl in *; by rewrite !lookup_insert_ne by mem_solve.
  - rewrite Hperm. by apply NoDup_cons.
  - rewrite Hperm. apply Forall_cons. split; [done | apply Hd].
  - by destruct A.
  - by rewrite !last_after.
  - intros a Ha. simpl. rewrite !lookup_insert_ne; [done| |].
    + intros ->. apply hd_elem in Ha. done.
    + destruct A; simplify_eq/=; mem_solve.
  - intros a Ha. simpl. rewrite !lookup_insert_ne; [done| |].
    + intros ->. apply last_elem in Ha. done.
    + rewrite last_after, last_cons_cons in Ha. apply last_elem in Ha. mem_solve.
Qed.

Lemma dll_remove h A p e n B :
  dll h (A ++ p :: e :: n :: B) →
  wp (list_remove e)
     (λ r h', r = n ∧ dll h' (A ++ p :: n :: B) ∧ same_outside [p; n] h h') h.
Proof.
  intros Hd. destruct (dll_link _ _ _ _ _ Hd) as (_ & Hep & Hp0 & He0 & Hpe).
  pose proof Hd as Hd'. rewrite (cons_middle p), app_assoc in Hd'.
  destruct (dll_link _ _ _ _ _ Hd') as (Hen & _ & _ & Hn0 & Hne).
  pose proof (dll_nodup _ _ Hd) as HN. pose proof (dll_chain _ _ Hd) as Hc.
  apply chain_app in Hc as (Hc1 & _ & _ & Hc2). apply chain_cons in Hc2 as (_ & _ & Hc2).
  assert (p ∉ A ∧ p ∉ B ∧ n ∉ A ∧ n ∉ B ∧ p ≠ n) as (? & ? & ? & ? & ?) by (split_and!; mem_solve).
  unfold list_remove. wp_bind. eapply interior_spec; [done|]. wp_assert; [done|].
  wp_bind. eapply wp_get_prev; [done|]. wp_bind. eapply wp_get_next; [done|].
  wp_bind. apply wp_set_next; [done|].
  wp_bind. eapply wp_get_next; [simpl; by rewrite lookup_insert_ne|].
  wp_bind. eapply wp_get_prev; [done|]. wp_bind. apply wp_set_prev; [done|].
  eapply wp_get_next; [simpl; by rewrite lookup_insert_ne|]. simpl. split; [done|]. split.
  2: { intros a Ha. simpl. rewrite !lookup_insert_ne by mem_solve. done. }
  assert (A ++ p :: e :: n :: B ≡ₚ e :: A ++ p :: n :: B) as Hperm by solve_Permutation.
  eapply dll_rebuild; [exact Hd | | | | | | |].
  - apply chain_app. simpl. rewrite !lookup_insert_eq. split_and!; [|done|done|].
    + eapply chain_update; [| |exact Hc1]; simpl; intros a Ha.
      * rewrite removelast_snoc in Ha. by rewrite !lookup_insert_ne by mem_solve.
      * apply tl_sub in Ha. by rewrite !lookup_insert_ne by mem_solve.
    + eapply chain_update; [| |exact Hc2]; intros a Ha;
        [apply removelast_sub in Ha|]; simpl in *; by rewrite !lookup_insert_ne by mem_solve.
  - rewrite Hperm in HN. by apply NoDup_cons in HN as [_ ?].
  - pose proof (dll_pos _ _ Hd) as HP. rewrite Hperm in HP. by apply Forall_cons in HP as [_ ?].
  - by destruct A.
  - by rewrite !last_after.
  - intros a Ha. simpl. rewrite !lookup_insert_ne; [done|]. destruct A; simplify_eq/=; mem_solve.
  - intros a Ha. simpl. rewrite !lookup_insert_ne; [done|]. rewrite last_after in Ha.
    rewrite !last_cons_cons in Ha. apply last_elem in Ha. mem_solve.
Qed.

(** Chains joined end to end. *)
Lemma chain_join h X Y x y :
  last X = Some x → hd_error Y = Some y →
  chain h (X ++ Y) ↔ chain h X ∧ next_of h !! x = Some y ∧ prev_of h !! y = Some x ∧ chain h Y.
Proof.
  intros [X' ->]%last_Some HY. destruct Y as [|y' Y]; [done|]. simplify_eq/=.
  rewrite <- app_assoc. apply chain_app.
Qed.

(** Links inside a chain, apart from those of its ends to the outside. *)
Lemma chain_inside h h' ns x y :
  NoDup ns → hd_error ns = Some x → last ns = Some y →
  (∀ a, a ∈ ns → a ≠ y → next_of h' !! a = next_of h !! a) →
  (∀ a, a ∈ ns → a ≠ x → prev_of h' !! a = prev_of h !! a) →
  chain h ns → chain h' ns.
Proof.
  intros HN Hx Hy Hn Hp. apply chain_update.
  - apply last_Some in Hy as [ns' ->]. rewrite removelast_snoc. intros a Ha.
    apply Hn; [set_solver|]. mem_solve.
  - destruct ns as [|x' ns]; simplify_eq/=. intros a Ha. apply Hp; [set_solver|]. mem_solve.
Qed.

(** The heap after [list_splice] has moved [f .. z] from between [q] and [r]
    to between [p] and [b]. *)
Definition spliced (h : heap) (p b q f z r : Z) : heap :=
  mk_heap (<[b := z]> (<[f := p]> (<[r := q]> (prev_of h))))
          (<[p := f]> (<[z := b]> (<[q := r]> (next_of h)))).

Lemma run_splice h A p M S r C b q f z (Q : unit → heap → Prop) :
  dll h (A ++ p :: M ++ S ++ r :: C) →
  hd_error M = Some b → last M = Some q → hd_error S = Some f → last S = Some z →
  Q tt (spliced h p b q f z r) → wp (list_splice b f r) Q h.
Proof.
  intros Hd HMb HMq HSf HSz HQ. pose proof (dll_nodup _ _ Hd) as HN.
  assert (b ∈ M ∧ q ∈ M ∧ f ∈ S ∧ z ∈ S) as (? & ? & ? & ?)
    by (split_and!; eauto using hd_elem, last_elem).
  assert (q ≠ z ∧ b ≠ r ∧ f ≠ r ∧ b ≠ f ∧ p ≠ q) as (? & ? & ? & ? & ?)
    by (clear HMb HMq HSf HSz; split_and!; mem_solve).
  destruct M as [|b' M1]; simplify_eq/=. destruct S as [|f' S1]; simplify_eq/=.
  pose proof (dll_link _ A p b _ Hd) as (_ & Hbp & Hp0 & Hb0 & _).
  apply last_Some in HMq as [M2 HM2]. apply last_Some in HSz as [S2 HS2].
  assert (A ++ p :: b :: M1 ++ f :: S1 ++ r :: C = (A ++ p :: M2) ++ q :: f :: (S1 ++ r :: C)) as Eqf.
  { rewrite <- app_assoc. simpl. rewrite (app_comm_cons M1), HM2, <- app_assoc. done. }
  assert (A ++ p :: b :: M1 ++ f :: S1 ++ r :: C = (A ++ p :: b :: M1 ++ S2) ++ z :: r :: C) as Ezr.
  { rewrite <- app_assoc. simpl. rewrite <- app_assoc, (app_comm_cons S1), HS2, <- app_assoc. done. }
  pose proof Hd as Hqf. rewrite Eqf in Hqf. pose proof Hd as Hzr. rewrite Ezr in Hzr.
  pose proof (dll_link _ _ _ _ _ Hqf) as (_ & Hfq & Hq0 & Hf0 & _).
  pose proof (dll_link _ _ _ _ _ Hzr) as (Hzr' & _ & Hz0 & Hr0 & _).
  assert (∃ n, next_of h !! f = Some n ∧ 0 < n) as (n & Hfn & Hn0).
  { rewrite cons_middle, app_assoc in Hqf.
    destruct (dll_next _ _ _ _ Hqf) as (_ & [[? _]|(n & ? & _ & ? & ?)]); [by destruct S1 | eauto]. }
  assert (∃ m, prev_of h !! z = Some m ∧ 0 < m) as (m & Hzm & Hm0).
  { destruct (dll_prev _ _ _ _ Hzr) as (_ & [[? _]|(? & m & _ & ? & ?)]); [by destruct A | eauto]. }
  unfold list_splice. wp_bind. eapply not_head_spec; [exact Hd|]. wp_assert; [done|].
  rewrite (proj2 (Z.eqb_neq f r)) by done.
  wp_bind. eapply list_prev_spec; [exact Hzr|].
  wp_bind. eapply wp_is_interior; [done..|]. wp_assert; [by rewrite !null_eqb|].
  wp_bind. eapply wp_is_interior; [done..|]. wp_assert; [by rewrite !null_eqb|].
  wp_bind. eapply wp_get_prev; [done|]. wp_bind. eapply wp_get_next; [done|].
  wp_bind. apply wp_set_next; [done|]. wp_bind. eapply wp_get_next; [simpl; by rewrite lookup_insert_ne|].
  wp_bind. eapply wp_get_prev; [done|]. wp_bind. apply wp_set_prev; [done|].
  wp_bind. eapply wp_get_prev; [simpl; by rewrite lookup_insert_ne|].
  wp_bind. apply wp_set_prev; [done|]. wp_bind. apply wp_set_next; [done|].
  wp_bind. eapply wp_get_prev; [simpl; by rewrite !lookup_insert_ne|].
  wp_bind. apply wp_set_next; [done|]. by apply wp_set_prev.
Qed.

(** Moving the segment [S] in front of the segment [M] that precedes it. *)
Lemma dll_rotate h A p M S r C b f :
  dll h (A ++ p :: M ++ S ++ r :: C) → hd_error M = Some b → hd_error S = Some f →
  wp (list_splice b f r)
     (λ _ h', dll h' (A ++ p :: S ++ M ++ r :: C) ∧ same_outside (p :: M ++ S ++ [r]) h h') h.
Proof.
  intros Hd HMb HSf.
  assert (∃ q, last M = Some q) as [q HMq]
    by (destruct (last M) eqn:E; [eauto | apply last_None in E as ->; done]).
  assert (∃ z, last S = Some z) as [z HSz]
    by (destruct (last S) eqn:E; [eauto | apply last_None in E as ->; done]).
  eapply run_splice; [done..|]. pose proof (dll_nodup _ _ Hd) as HN.
  assert (b ∈ M ∧ q ∈ M ∧ f ∈ S ∧ z ∈ S) as (? & ? & ? & ?)
    by (split_and!; eauto using hd_elem, last_elem).
  pose proof (dll_chain _ _ Hd) as Hc.
  rewrite (cons_middle p), app_assoc in Hc.
  rewrite (chain_join _ (A ++ [p]) _ p b), (chain_join _ M _ q f), (chain_join _ S _ z r) in Hc
    by (rewrite ?last_snoc; done || by apply hd_app).
  destruct Hc as (HcA & _ & _ & HcM & _ & _ & HcS & _ & _ & HcC).
  assert (NoDup M ∧ NoDup S) as [HNM HNS] by (split; repeat mem_step; done).
  assert (A ++ p :: S ++ M ++ r :: C ≡ₚ A ++ p :: M ++ S ++ r :: C) as Hperm by solve_Permutation.
  split.
  2: { intros a Ha. unfold spliced; simpl. rewrite !lookup_insert_ne by mem_solve. done. }
  eapply dll_rebuild; [exact Hd | | | | | | |].
  - rewrite (cons_middle p), app_assoc.
    rewrite (chain_join _ (A ++ [p]) _ p f), (chain_join _ S _ z b), (chain_join _ M _ q r)
      by (rewrite ?last_snoc; done || by apply hd_app).
    unfold spliced; simpl. split_and!.
    + eapply chain_update; [| |exact HcA]; simpl; intros a Ha.
      * rewrite removelast_snoc in Ha. rewrite !lookup_insert_ne by mem_solve. done.
      * apply tl_sub in Ha. rewrite !lookup_insert_ne by mem_solve. done.
    + by rewrite lookup_insert_eq.
    + rewrite lookup_insert_ne, lookup_insert_eq by mem_solve. done.
    + eapply (chain_inside _ _ S f z); [done..| | |exact HcS]; simpl; intros a Ha Hne;
        rewrite !lookup_insert_ne by mem_solve; done.
    + rewrite lookup_insert_ne, lookup_insert_eq by mem_solve. done.
    + by rewrite lookup_insert_eq.
    + eapply (chain_inside _ _ M b q); [done..| | |exact HcM]; simpl; intros a Ha Hne;
        rewrite !lookup_insert_ne by mem_solve; done.
    + rewrite !lookup_insert_ne, lookup_insert_eq by mem_solve. done.
    + rewrite !lookup_insert_ne, lookup_insert_eq by mem_solve. done.
    + eapply chain_update; [| |exact HcC]; intros a Ha;
        [apply removelast_sub in Ha|]; simpl in *; rewrite !lookup_insert_ne by mem_solve; done.
  - by rewrite Hperm.
  - rewrite Hperm. apply Hd.
  - by destruct A.
  - by rewrite !last_three.
  - intros a Ha. unfold spliced; simpl. rewrite !lookup_insert_ne; [done|..];
      destruct A; simplify_eq/=; mem_solve.
  - intros a Ha. rewrite last_three in Ha. apply last_elem in Ha.
    unfold spliced; simpl. rewrite !lookup_insert_ne by mem_solve. done.
Qed.

(** ** Lists as sequences *)

(** The element at the front of [xs], or the tail of the list. *)
Abbreviation front_of l xs := (hd (tail l) xs).

Section is_list.
Context (h : heap) (l : Z).

Lemma is_list_pos xs : is_list h l xs → 0 < l.
Proof. intros Hl. pose proof (dll_pos _ _ Hl) as Hp. by apply Forall_cons in Hp as [? _]. Qed.

Lemma elem_pos xs x : is_list h l xs → x ∈ xs → 0 < x.
Proof.
  intros Hl Hx. pose proof (dll_pos _ _ Hl) as Hp. eapply Forall_forall; [exact Hp|].
  apply elem_of_cons. right. apply elem_of_app. by left.
Qed.

Lemma elem_not_end xs x : is_list h l xs → x ∈ xs → x ≠ tail l.
Proof. intros Hl Hx. pose proof (dll_nodup _ _ Hl) as Hn. unfold nodes in Hn. revert Hx. mem_solve. Qed.

(** The nodes around the end of a prefix of the elements. *)
Lemma nodes_split xs1 xs2 :
  ∃ A p B, nodes l (xs1 ++ xs2) = A ++ p :: front_of l xs2 :: B
    ∧ head l :: xs1 = A ++ [p] ∧ xs2 ++ [tail l] = front_of l xs2 :: B.
Proof.
  assert (xs2 ++ [tail l] = front_of l xs2 :: tl (xs2 ++ [tail l])) as E by (by destruct xs2).
  destruct (exists_last (l := head l :: xs1)) as (A & p & EA); [done|].
  exists A, p, (tl (xs2 ++ [tail l])). split_and!; [|done|done].
  unfold nodes. by rewrite <- app_assoc, app_comm_cons, EA, E, <- app_assoc.
Qed.

Lemma nodes_at xs1 x xs2 :
  ∃ B, nodes l (xs1 ++ x :: xs2) = (head l :: xs1) ++ x :: front_of l xs2 :: B
    ∧ xs2 ++ [tail l] = front_of l xs2 :: B.
Proof.
  exists (tl (xs2 ++ [tail l])). unfold nodes. rewrite <- app_assoc. simpl. by destruct xs2.
Qed.

Lemma list_begin_spec xs (Q : Z → heap → Prop) :
  is_list h l xs → Q (front_of l xs) h → wp (list_begin l) Q h.
Proof.
  intros Hl HQ. pose proof (is_list_pos _ Hl). unfold list_begin.
  wp_assert; [by rewrite null_eqb|]. eapply wp_get_next; [|exact HQ].
  unfold is_list, nodes in Hl. by destruct xs; apply (dll_link h []) in Hl as (? & _).
Qed.

Lemma list_end_spec xs (Q : Z → heap → Prop) :
  is_list h l xs → Q (tail l) h → wp (list_end l) Q h.
Proof.
  intros Hl HQ. pose proof (is_list_pos _ Hl). unfold list_end.
  wp_assert; [by rewrite null_eqb|]. by apply wp_ret.
Qed.

Lemma front_is_end xs : is_list h l xs → (front_of l xs =? tail l) = bool_decide (xs = []).
Proof.
  intros Hl. destruct xs as [|x xs]; simpl; [by rewrite Z.eqb_refl|].
  apply Z.eqb_neq. eapply elem_not_end; [done|]. left.
Qed.

Lemma list_empty_spec xs (Q : bool → heap → Prop) :
  is_list h l xs → Q (bool_decide (xs = [])) h → wp (list_empty l) Q h.
Proof.
  intros Hl HQ. unfold list_empty. wp_bind. eapply list_begin_spec; [done|].
  wp_bind. eapply list_end_spec; [done|]. apply wp_ret. by rewrite front_is_end.
Qed.

Lemma next_in_list xs1 x xs2 (Q : Z → heap → Prop) :
  is_list h l (xs1 ++ x :: xs2) → Q (front_of l xs2) h → wp (list_next x) Q h.
Proof.
  intros Hl HQ. destruct (nodes_at xs1 x xs2) as (B & E & _). unfold is_list in Hl. rewrite E in Hl.
  by eapply list_next_spec.
Qed.

Lemma insert_in_list xs1 xs2 e :
  is_list h l (xs1 ++ xs2) → 0 < e → e ∉ nodes l (xs1 ++ xs2) →
  wp (list_insert (front_of l xs2) e)
     (λ _ h', is_list h' l (xs1 ++ e :: xs2) ∧ same_outside (e :: nodes l (xs1 ++ xs2)) h h') h.
Proof.
  intros Hl He Hnew. destruct (nodes_split xs1 xs2) as (A & p & B & E & EA & EB).
  unfold is_list in Hl. rewrite E in Hl, Hnew.
  eapply wp_mono; [by apply dll_insert|]. intros [] h' [Hd Hs]. split.
  - unfold is_list, nodes. rewrite <- app_assoc. simpl. rewrite EB, app_comm_cons, EA, <- app_assoc. done.
  - rewrite E. intros a Ha. apply Hs. mem_solve.
Qed.

Lemma remove_in_list xs1 x xs2 :
  is_list h l (xs1 ++ x :: xs2) →
  wp (list_remove x)
     (λ r h', r = front_of l xs2 ∧ is_list h' l (xs1 ++ xs2)
              ∧ same_outside (nodes l (xs1 ++ x :: xs2)) h h') h.
Proof.
  intros Hl. destruct (nodes_at xs1 x xs2) as (B & E & EB).
  destruct (exists_last (l := head l :: xs1)) as (A & p & EA); [done|].
  unfold is_list in Hl. rewrite E, EA, <- app_assoc in Hl. simpl in Hl.
  eapply wp_mono; [by eapply dll_remove|]. intros r h' (-> & Hd & Hs). split; [done|]. split.
  - unfold is_list, nodes. rewrite <- app_assoc, EB, app_comm_cons, EA, <- app_assoc. done.
  - rewrite E, EA, <- app_assoc. simpl. intros a Ha. apply Hs. mem_solve.
Qed.
End is_list.

Lemma list_init_spec h l :
  0 < l → wp (list_init l) (λ _ h', is_list h' l [] ∧ same_outside [head l; tail l] h h') h.
Proof.
  intros Hl. unfold list_init. assert (head l ≠ tail l) by (unfold head, tail; lia).
  wp_assert; [by rewrite null_eqb|]. wp_bind. apply wp_set_prev; [done|].
  wp_bind. apply wp_set_next; [done|]. wp_bind. apply wp_set_prev; [unfold tail; lia|].
  apply wp_set_next; [unfold tail; lia|]. simpl. split.
  - split; simpl.
    + apply chain_cons. simpl. rewrite lookup_insert_ne, !lookup_insert_eq by done. done.
    + apply NoDup_cons. split; [simpl; mem_solve | apply NoDup_singleton].
    + apply Forall_cons. unfold head, tail. split; [lia|]. apply Forall_singleton. lia.
    + intros a ns' [= <- _]. by rewrite lookup_insert_ne, lookup_insert_eq.
    + intros a ns' Heq. apply (f_equal last) in Heq. rewrite last_snoc in Heq.
      injection Heq as <-. by rewrite lookup_insert_eq.
  - intros a Ha. simpl. rewrite !lookup_insert_ne by mem_solve. done.
Qed.

(** ** The list as a double-ended queue

    The operations that a client uses, what they do to the heap, and what
    they are meant to do to the sequence of elements. *)
Inductive op :=
  | PushFront (e : Z)
  | PushBack (e : Z)
  | InsertBefore (b e : Z)
  | Remove (e : Z)
  | PopFront
  | PopBack
  | Front
  | Back
  | Empty.

Inductive ret := RUnit | RElem (e : Z) | RBool (b : bool).

Definition exec_op (l : Z) (o : op) : M heap ret :=
  match o with
  | PushFront e => list_push_front l e ;; mret RUnit
  | PushBack e => list_push_back l e ;; mret RUnit
  | InsertBefore b e => list_insert b e ;; mret RUnit
  | Remove e => r ← list_remove e; mret (RElem r)
  | PopFront => r ← list_pop_front l; mret (RElem r)
  | PopBack => r ← list_pop_back l; mret (RElem r)
  | Front => r ← list_front l; mret (RElem r)
  | Back => r ← list_back l; mret (RElem r)
  | Empty => b ← list_empty l; mret (RBool b)
  end.

(** The elements before and from the first occurrence of [x] on. *)
Fixpoint split_at (x : Z) (xs : list Z) : list Z * list Z :=
  match xs with
  | [] => ([], [])
  | y :: ys => if decide (y = x) then ([], xs) else (y :: (split_at x ys).1, (split_at x ys).2)
  end.

Definition spec_op (l : Z) (xs : list Z) (o : op) : res (ret * list Z) :=
  match o with
  | PushFront e => Ok (RUnit, e :: xs)
  | PushBack e => Ok (RUnit, xs ++ [e])
  | InsertBefore b e => Ok (RUnit, (split_at b xs).1 ++ e :: (split_at b xs).2)
  | Remove e =>
      let rest := tl (split_at e xs).2 in
      Ok (RElem (front_of l rest), (split_at e xs).1 ++ rest)
  | PopFront => match xs with [] => Err Panic | x :: xs => Ok (RElem x, xs) end
  | PopBack => match last xs with None => Err Panic | Some x => Ok (RElem x, removelast xs) end
  | Front => match xs with [] => Err Panic | x :: _ => Ok (RElem x, xs) end
  | Back => match last xs with None => Err Panic | Some x => Ok (RElem x, xs) end
  | Empty => Ok (RBool (bool_decide (xs = [])), xs)
  end.

(** What the caller has to respect: a new element is not in the list yet,
    and elements to remove or to insert before are in it. *)
Definition op_ok (l : Z) (xs : list Z) (o : op) : Prop :=
  match o with
  | PushFront e | PushBack e => 0 < e ∧ e ∉ nodes l xs
  | InsertBefore b e => b ∈ xs ∧ 0 < e ∧ e ∉ nodes l xs
  | Remove e => e ∈ xs
  | _ => True
  end.

Fixpoint exec_ops (l : Z) (os : list op) : M heap (list ret) :=
  match os with
  | [] => mret []
  | o :: os => r ← exec_op l o; rs ← exec_ops l os; mret (r :: rs)
  end.

Fixpoint spec_ops (l : Z) (xs : list Z) (os : list op) : res (list ret * list Z) :=
  match os with
  | [] => Ok ([], xs)
  | o :: os =>
      match spec_op l xs o with
      | Err e => Err e
      | Ok (r, xs) =>
          match spec_ops l xs os with
          | Err e => Err e
          | Ok (rs, xs) => Ok (r :: rs, xs)
          end
      end
  end.

Fixpoint ops_ok (l : Z) (xs : list Z) (os : list op) : Prop :=
  match os with
  | [] => True
  | o :: os =>
      op_ok l xs o ∧ match spec_op l xs o with Ok (_, xs') => ops_ok l xs' os | Err _ => True end
  end.

Lemma split_at_elem x xs : x ∈ xs → xs = (split_at x xs).1 ++ x :: tl (split_at x xs).2
  ∧ (split_at x xs).2 = x :: tl (split_at x xs).2.
Proof.
  induction xs as [|y ys IH]; [by intros ?%elem_of_nil|]. simpl. case_decide as E.
  - subst. done.
  - intros [->|Hx]%elem_of_cons; [done|]. destruct (IH Hx) as [E1 E2]. simpl. split; [|done].
    by rewrite <- E1.
Qed.

Lemma front_spec h l xs :
  is_list h l xs →
  list_front l h = match xs with [] => Err Panic | x :: _ => Ok (x, h) end.
Proof.
  intros Hl. assert (wp (list_empty l) (λ b h', b = bool_decide (xs = []) ∧ h' = h) h)
    as (b & h' & E & -> & ->)%wp_Ok by (by eapply list_empty_spec).
  assert (wp (list_begin l) (λ b h', b = front_of l xs ∧ h' = h) h)
    as (b & h' & E' & -> & ->)%wp_Ok by (by eapply list_begin_spec).
  unfold list_front, mbind, M_bind. rewrite E. unfold list_begin, mbind, M_bind in E'.
  unfold ASSERT in *. rewrite null_eqb in E' by (by eapply is_list_pos). simpl in E'. by destruct xs.
Qed.

Lemma back_spec h l xs :
  is_list h l xs →
  list_back l h = match last xs with None => Err Panic | Some x => Ok (x, h) end.
Proof.
  intros Hl. assert (wp (list_empty l) (λ b h', b = bool_decide (xs = []) ∧ h' = h) h)
    as (b & h' & E & -> & ->)%wp_Ok by (by eapply list_empty_spec).
  unfold list_back, mbind, M_bind. rewrite E. destruct xs as [|x xs _] using rev_ind; [done|].
  rewrite last_snoc, bool_decide_eq_false_2 by (by destruct xs). simpl.
  unfold is_list, nodes in Hl. rewrite <- app_assoc, app_comm_cons in Hl.
  apply dll_link in Hl as (_ & Hp & _). unfold get_prev. by rewrite Hp.
Qed.

Lemma push_front_spec h l xs e :
  is_list h l xs → 0 < e → e ∉ nodes l xs →
  wp (list_push_front l e)
     (λ _ h', is_list h' l (e :: xs) ∧ same_outside (e :: nodes l xs) h h') h.
Proof.
  intros Hl He Hnew. unfold list_push_front. wp_bind. eapply list_begin_spec; [done|].
  by apply (insert_in_list h l [] xs e).
Qed.

Lemma push_back_spec h l xs e :
  is_list h l xs → 0 < e → e ∉ nodes l xs →
  wp (list_push_back l e)
     (λ _ h', is_list h' l (xs ++ [e]) ∧ same_outside (e :: nodes l xs) h h') h.
Proof.
  intros Hl He Hnew. unfold list_push_back. wp_bind. eapply list_end_spec; [done|].
  pose proof (insert_in_list h l xs [] e) as H. rewrite app_nil_r in H. by apply H.
Qed.

Lemma pop_front_spec h l x xs :
  is_list h l (x :: xs) →
  wp (list_pop_front l)
     (λ r h', r = x ∧ is_list h' l xs ∧ same_outside (nodes l (x :: xs)) h h') h.
Proof.
  intros Hl. unfold list_pop_front. wp_bind. eapply wp_eq; [exact (front_spec _ _ _ Hl)|]. wp_bind.
  eapply wp_mono; [by apply (remove_in_list h l [] x xs)|]. intros r h' (_ & Hl' & Hs).
  by apply wp_ret.
Qed.

Lemma pop_back_spec h l x xs :
  is_list h l (xs ++ [x]) →
  wp (list_pop_back l)
     (λ r h', r = x ∧ is_list h' l xs ∧ same_outside (nodes l (xs ++ [x])) h h') h.
Proof.
  intros Hl. unfold list_pop_back. wp_bind. pose proof (back_spec _ _ _ Hl) as E.
  rewrite last_snoc in E. eapply wp_eq; [exact E|]. wp_bind.
  eapply wp_mono; [by apply (remove_in_list h l xs x [])|]. intros r h' (_ & Hl' & Hs).
  rewrite app_nil_r in Hl'. by apply wp_ret.
Qed.

(** Every operation does to the heap what the specification says. *)
Lemma exec_op_refines h l xs o :
  is_list h l xs → op_ok l xs o →
  match spec_op l xs o with
  | Ok (r, xs') => wp (exec_op l o) (λ r' h', r' = r ∧ is_list h' l xs') h
  | Err e => exec_op l o h = Err e
  end.
Proof.
  intros Hl Hok. destruct o as [e|e|b e|e| | | | |]; simpl in *.
  - wp_bind. eapply wp_mono; [by apply push_front_spec; destruct Hok|]. intros [] h' [? _]. by apply wp_ret.
  - wp_bind. eapply wp_mono; [by apply push_back_spec; destruct Hok|]. intros [] h' [? _]. by apply wp_ret.
  - destruct Hok as (Hb & He & Hnew). destruct (split_at_elem b xs Hb) as [E1 E2].
    rewrite E1 in Hl, Hnew. rewrite E2. wp_bind.
    eapply wp_mono; [by apply (insert_in_list h l _ _ e Hl)|]. intros [] h' [? _]. by apply wp_ret.
  - destruct (split_at_elem e xs Hok) as [E1 E2]. rewrite E1 in Hl. wp_bind.
    eapply wp_mono; [by apply (remove_in_list h l _ _ _ Hl)|]. intros r h' (-> & ? & _). by apply wp_ret.
  - destruct xs as [|x xs].
    + unfold list_pop_front, mbind, M_bind. by rewrite (front_spec _ _ _ Hl).
    + wp_bind. eapply wp_mono; [by apply pop_front_spec|]. intros r h' (-> & ? & _). by apply wp_ret.
  - destruct xs as [|x xs _] using rev_ind.
    + unfold list_pop_back, mbind, M_bind. by rewrite (back_spec _ _ _ Hl).
    + rewrite last_snoc, removelast_snoc. wp_bind.
      eapply wp_mono; [by apply pop_back_spec|]. intros r h' (-> & ? & _). by apply wp_ret.
  - pose proof (front_spec _ _ _ Hl) as E. destruct xs as [|x xs].
    + unfold mbind, M_bind. by rewrite E.
    + wp_bind. eapply wp_eq; [done|]. by apply wp_ret.
  - pose proof (back_spec _ _ _ Hl) as E. destruct (last xs) as [x|].
    + wp_bind. eapply wp_eq; [done|]. by apply wp_ret.
    + unfold mbind, M_bind. by rewrite E.
  - wp_bind. eapply list_empty_spec; [done|]. by apply wp_ret.
Qed.

Lemma exec_ops_refines h l xs os :
  is_list h l xs → ops_ok l xs os →
  match spec_ops l xs os with
  | Ok (rs, xs') => ∃ h', exec_ops l os h = Ok (rs, h') ∧ is_list h' l xs'
  | Err e => exec_ops l os h = Err e
  end.
Proof.
  revert h xs. induction os as [|o os IH]; intros h xs Hl Hok; simpl; [by exists h|].
  destruct Hok as [Ho Hrest]. pose proof (exec_op_refines h l xs o Hl Ho) as Hop.
  unfold mbind, M_bind. destruct (spec_op l xs o) as [[r xs1]|e]; [|by rewrite Hop].
  apply wp_Ok in Hop as (r' & h1 & -> & -> & Hl1). specialize (IH h1 xs1 Hl1 Hrest).
  destruct (spec_ops l xs1 os) as [[rs xs2]|e]; [|by rewrite IH].
  destruct IH as (h2 & -> & Hl2). by exists h2.
Qed.

(** C34: the linked list refines a sequence: every sequence of insertions,
    removals and queries that respects the preconditions returns what the
    same sequence of operations on the plain sequence of elements returns,
    ends in a well-linked list of exactly these elements, and panics exactly
    where the sequence is empty. *)
Theorem list_refines_sequence h l xs os :
  is_list h l xs → ops_ok l xs os →
  match spec_ops l xs os with
  | Ok (rs, xs') => ∃ h', exec_ops l os h = Ok (rs, h') ∧ is_list h' l xs'
  | Err e => exec_ops l os h = Err e
  end.
Proof. apply exec_ops_refines. Qed.

Definition empty_list : heap := mk_heap {[100 := 0; 108 := 100]} {[100 := 108; 108 := 0]}.

Lemma empty_list_ok : is_list empty_list 100 [].
Proof.
  destruct (proj1 (wp_Ok _ _ _) (list_init_spec (mk_heap ∅ ∅) 100 ltac:(lia)))
    as ([] & h' & E & Hl & _).
  vm_compute in E. injection E as <-. exact Hl.
Qed.

Lemma list_refines_sequence_witness :
  ∃ h', exec_ops 100 [PushBack 30; PushFront 20; InsertBefore 30 10; Remove 20; PopBack] empty_list
    = Ok ([RUnit; RUnit; RUnit; RElem 10; RElem 30], h') ∧ is_list h' 100 [10].
Proof.
  apply (list_refines_sequence empty_list 100 []
    [PushBack 30; PushFront 20; InsertBefore 30 10; Remove 20; PopBack]); [apply empty_list_ok|].
  simpl. split_and!; try done; apply (bool_decide_unpack _); vm_compute; done.
Defined.

(** A list at 100 with the elements 30, 10 and 20. *)
Definition three_list : heap :=
  match exec_ops 100 [PushBack 30; PushBack 10; PushBack 20] empty_list with
  | Ok (_, h) => h
  | Err _ => empty_list
  end.

Lemma three_list_ok : is_list three_list 100 [30; 10; 20].
Proof.
  destruct (exec_ops_refines empty_list 100 [] [PushBack 30; PushBack 10; PushBack 20])
    as (h' & E & Hl); [apply empty_list_ok| |].
  - simpl. split_and!; try done; apply (bool_decide_unpack _); vm_compute; done.
  - unfold three_list. by rewrite E.
Qed.

End Dlist.
