(* ===== verification/DlistOrder.v ===== *)
(** * Ordered operations of lib/kernel/list.c

    Properties of the functions that compare elements: sorting, ordered
    insertion, removal of duplicates, extrema; and of the traversals that
    count and reverse. *)
From stdpp Require Import base gmap list sorting.
From Stdlib Require Import ZArith Lia.
From S2P Require Import Prelude Dlist.

Module DlistOrder.
Import Dlist.

(** What a caller's comparison function has to be. *)
Class StrictWeak (less : Z → Z → bool) : Prop := {
  less_asym : ∀ a b, less a b = true → less b a = false;
  less_negtrans : ∀ a b c, less a b = false → less b c = false → less a c = false
}.

#[export] Instance ltb_strict_weak : StrictWeak Z.ltb.
Proof. split; intros *; rewrite ?Z.ltb_lt, ?Z.ltb_ge; lia. Qed.

(** [a] may stand before [b]. *)
Definition le (less : Z → Z → bool) (a b : Z) : Prop := less b a = false.

#[export] Instance le_dec less a b : Decision (le less a b).
Proof. unfold le. apply _. Defined.

#[export] Instance le_total less `{!StrictWeak less} : Total (le less).
Proof. intros a b. unfold le. destruct (less b a) eqn:E; [right; by apply less_asym | by left]. Qed.

#[export] Instance le_trans less `{!StrictWeak less} : Transitive (le less).
Proof. intros a b c. unfold le. intros Hab Hbc. by apply (less_negtrans c b a). Qed.

(** The number of places where an element is less than the one before it:
    one less than the number of nondecreasing runs. *)
Fixpoint descents (less : Z → Z → bool) (x : Z) (xs : list Z) : nat :=
  match xs with
  | [] => 0
  | y :: ys => (if less y x then 1 else 0) + descents less y ys
  end.

Lemma last_shift x xs (d : Z) : List.last (x :: xs) d = List.last xs x.
Proof.
  revert x d. induction xs as [|y xs IH]; intros x d; [done|].
  change (List.last (x :: y :: xs) d) with (List.last (y :: xs) d). by rewrite !IH.
Qed.

Section sort.
Context (less : Z → Z → bool) (fuel : nat).

Lemma descents_app x xs y ys :
  descents less x (xs ++ y :: ys)
  = (descents less x xs + (if less y (List.last xs x) then 1 else 0) + descents less y ys)%nat.
Proof.
  revert x. induction xs as [|z xs IH]; intros x; [done|]. simpl. rewrite IH.
  change (match xs with [] => z | _ :: _ => List.last xs x end) with (List.last (z :: xs) x).
  rewrite last_shift. lia.
Qed.

Lemma descents_sorted x xs : descents less x xs = 0%nat ↔ Sorted (le less) (x :: xs).
Proof.
  revert x. induction xs as [|y ys IH]; intros x; simpl.
  - split; [intros _; repeat constructor | done].
  - split.
    + intros Hd. destruct (less y x) eqn:E; [simpl in Hd; lia|]. constructor; [by apply IH|].
      by constructor.
    + intros Hs. inversion Hs as [|? ? Hs' Hhd]; subst. inversion Hhd as [|? ? Hle]; subst.
      unfold le in Hle. rewrite Hle. by apply IH.
Qed.

Lemma is_sorted_spec h A a X b B (Q : bool → heap → Prop) :
  dll h (A ++ a :: X ++ b :: B) → (length X < fuel)%nat →
  Q (bool_decide (descents less a X = 0%nat)) h → wp (is_sorted less fuel a b) Q h.
Proof.
  intros Hd Hf HQ. unfold is_sorted.
  assert (a ≠ b) as Hab by (pose proof (dll_nodup _ _ Hd); mem_solve).
  rewrite (proj2 (Z.eqb_neq a b) Hab). simpl. clear Hab. revert A a fuel Hd Hf HQ.
  induction X as [|x X IH]; intros A a f Hd Hf HQ; (destruct f as [|f]; [simpl in Hf; lia|]);
    simpl; wp_bind; wp_bind; (eapply list_next_spec; [exact Hd|]).
  - rewrite Z.eqb_refl. by apply wp_ret, wp_ret.
  - assert (x ≠ b) as Hxb by (pose proof (dll_nodup _ _ Hd); mem_solve).
    rewrite (proj2 (Z.eqb_neq x b) Hxb). wp_bind. eapply list_prev_spec; [exact Hd|]. apply wp_ret.
    simpl in HQ. destruct (less x a) eqn:E.
    + by apply wp_ret.
    + apply (IH (A ++ [a])); [|simpl in Hf; lia | done]. by rewrite <- app_assoc.
Qed.

(** The longest nondecreasing run that starts with [a], without [a], and the
    rest. *)
Fixpoint run_of (a : Z) (X : list Z) : list Z * list Z :=
  match X with
  | [] => ([], [])
  | x :: X' => if less x a then ([], X) else (x :: (run_of x X').1, (run_of x X').2)
  end.

Lemma run_of_app a X : X = (run_of a X).1 ++ (run_of a X).2.
Proof.
  revert a. induction X as [|x X IH]; intros a; [done|]. simpl.
  destruct (less x a); [done|]. simpl. by rewrite <- IH.
Qed.

Lemma run_of_sorted a X : descents less a (run_of a X).1 = 0%nat.
Proof.
  revert a. induction X as [|x X IH]; intros a; [done|]. simpl.
  destruct (less x a) eqn:E; [done|]. simpl. by rewrite E, IH.
Qed.

Lemma run_of_maximal a X y Y :
  (run_of a X).2 = y :: Y → less y (List.last (run_of a X).1 a) = true.
Proof.
  revert a. induction X as [|x X IH]; intros a; [done|]. simpl.
  destruct (less x a) eqn:E; [by intros [= <- <-]|]. simpl. intros Hr. specialize (IH x Hr).
  change (less y (List.last (x :: (run_of x X).1) a) = true). by rewrite last_shift.
Qed.

Lemma find_end_of_run_spec h A a X b B (Q : Z → heap → Prop) :
  dll h (A ++ a :: X ++ b :: B) → (length X < fuel)%nat →
  Q (hd b (run_of a X).2) h → wp (find_end_of_run less fuel a b) Q h.
Proof.
  intros Hd Hf HQ. unfold find_end_of_run.
  assert (a ≠ b) as Hab by (pose proof (dll_nodup _ _ Hd); mem_solve).
  assert (0 < a ∧ 0 < b) as [Ha Hb].
  { pose proof (dll_pos _ _ Hd) as Hp. apply Forall_app in Hp as [_ Hp].
    apply Forall_cons in Hp as [? Hp]. apply Forall_app in Hp as [_ Hp].
    by apply Forall_cons in Hp as [? _]. }
  wp_assert; [by rewrite null_eqb|]. wp_assert; [by rewrite null_eqb|].
  rewrite (proj2 (Z.eqb_neq a b) Hab). wp_assert; [done|]. clear Hab Ha. revert A a fuel Hd Hf HQ.
  induction X as [|x X IH]; intros A a f Hd Hf HQ; (destruct f as [|f]; [simpl in Hf; lia|]);
    simpl; wp_bind; wp_bind; (eapply list_next_spec; [exact Hd|]).
  - rewrite Z.eqb_refl. by apply wp_ret, wp_ret.
  - assert (x ≠ b) as Hxb by (pose proof (dll_nodup _ _ Hd); mem_solve).
    rewrite (proj2 (Z.eqb_neq x b) Hxb). wp_bind. eapply list_prev_spec; [exact Hd|]. apply wp_ret.
    simpl in HQ. destruct (less x a) eqn:E; simpl.
    + by apply wp_ret.
    + apply (IH (A ++ [a])); [|simpl in Hf; lia | done]. by rewrite <- app_assoc.
Qed.

(** A nonempty list split at its head, with a default that follows it. *)
Lemma cons_hd (Y : list Z) b C : ∃ R, Y ++ b :: C = hd b Y :: R.
Proof. destruct Y; eauto. Qed.

Lemma same_outside_sub D D' h h' : same_outside D h h' → D ⊆ D' → same_outside D' h h'.
Proof. intros Hs Hsub a Ha. apply Hs. intros ?. by apply Ha, Hsub. Qed.

Definition merge_body (b1 : Z) : Z * Z → M heap (Z * Z + unit) := λ '(a0, a1b0),
  if negb (a0 =? a1b0) && negb (a1b0 =? b1) then
    if negb (less a1b0 a0) then
      a0 ← list_next a0; mret (inl (a0, a1b0))
    else
      a1b0 ← list_next a1b0;
      p ← list_prev a1b0;
      list_splice a0 p a1b0 ;;
      mret (inl (a0, a1b0))
  else mret (inr tt).

Lemma merge_loop f h A p X Y b1 C :
  dll h (A ++ p :: X ++ Y ++ b1 :: C) → (length X + length Y < f)%nat →
  wp (loop f (merge_body b1) (hd (hd b1 Y) X, hd b1 Y))
     (λ _ h', dll h' (A ++ p :: list_merge (le less) X Y ++ b1 :: C)
              ∧ same_outside (p :: X ++ Y ++ [b1]) h h') h.
Proof.
  revert h A p X Y. induction f as [|f IH]; intros h A p X Y Hd Hf; [lia|]. simpl. wp_bind.
  destruct X as [|x X].
  { simpl. rewrite Z.eqb_refl. simpl. apply wp_ret, wp_ret. by destruct Y. }
  assert (x ≠ hd b1 Y) as Hx
    by (pose proof (dll_nodup _ _ Hd); destruct (cons_hd Y b1 C) as [R E]; rewrite E in *; mem_solve).
  simpl. rewrite (proj2 (Z.eqb_neq _ _) Hx). destruct Y as [|y Y].
  { simpl. rewrite Z.eqb_refl. simpl. by apply wp_ret, wp_ret. }
  assert (y ≠ b1) as Hy by (pose proof (dll_nodup _ _ Hd); mem_solve).
  simpl. rewrite (proj2 (Z.eqb_neq _ _) Hy). simpl.
  destruct (less y x) eqn:E; simpl; wp_bind.
  - destruct (cons_hd Y b1 C) as [R ER].
    pose proof Hd as Hd1. simpl in Hd1. rewrite ER, !app_comm_cons, app_assoc in Hd1.
    eapply list_next_spec; [exact Hd1|]. wp_bind. eapply list_prev_spec; [exact Hd1|]. wp_bind.
    eapply wp_mono.
    { apply (dll_rotate h A p (x :: X) [y] (hd b1 Y) R x y); [|done|done].
      simpl in Hd |- *. by rewrite <- ER. }
    intros [] h1 [Hd2 Hs1]. apply wp_ret. simpl in Hd2. rewrite <- ER in Hd2.
    eapply wp_mono; [apply (IH h1 (A ++ [p]) y (x :: X) Y)|].
    + by rewrite <- app_assoc.
    + simpl in *. lia.
    + intros [] h2 [Hd3 Hs2]. rewrite <- app_assoc in Hd3. split.
      * simpl. rewrite decide_False by (unfold le; by rewrite E). done.
      * apply (same_outside_trans (p :: (x :: X) ++ [y] ++ [hd b1 Y]) _ _ h1); [done| |].
        -- eapply same_outside_sub; [done|]. set_solver.
        -- destruct Y; set_solver.
  - pose proof Hd as Hd1. destruct (cons_hd X y (Y ++ b1 :: C)) as [R ER].
    simpl in Hd1. rewrite ER, cons_middle, app_assoc in Hd1.
    eapply list_next_spec; [exact Hd1|]. apply wp_ret. rewrite <- ER, <- app_assoc in Hd1. simpl in Hd1.
    eapply wp_mono; [apply (IH h (A ++ [p]) x X (y :: Y))|].
    + by rewrite <- app_assoc.
    + simpl in *. lia.
    + intros [] h2 [Hd3 Hs2]. rewrite <- app_assoc in Hd3. split.
      * simpl. rewrite decide_True by done. done.
      * eapply same_outside_sub; [done|]. set_solver.
Qed.

Lemma inplace_merge_spec h A p x X y Y b1 C :
  dll h (A ++ p :: (x :: X) ++ (y :: Y) ++ b1 :: C) →
  (length (x :: X) + length (y :: Y) < fuel)%nat →
  descents less x X = 0%nat → descents less y Y = 0%nat →
  wp (inplace_merge less fuel x y b1)
     (λ _ h', dll h' (A ++ p :: list_merge (le less) (x :: X) (y :: Y) ++ b1 :: C)
              ∧ same_outside (p :: (x :: X) ++ (y :: Y) ++ [b1]) h h') h.
Proof.
  intros Hd Hf HX HY. unfold inplace_merge. pose proof (dll_pos _ _ Hd) as Hp.
  rewrite Forall_app, Forall_cons, Forall_app, Forall_app, !Forall_cons in Hp.
  do 3 (wp_assert; [rewrite null_eqb; [done | tauto]|]).
  pose proof Hd as Hd1. simpl in Hd1. rewrite cons_middle, app_assoc in Hd1.
  wp_bind. eapply is_sorted_spec; [exact Hd1 | simpl in Hf; lia|]. wp_assert; [by rewrite HX|].
  pose proof Hd as Hd2. simpl in Hd2. rewrite !app_comm_cons, app_assoc in Hd2.
  wp_bind. eapply is_sorted_spec; [exact Hd2 | simpl in Hf; lia|]. wp_assert; [by rewrite HY|].
  by apply (merge_loop fuel h A p (x :: X) (y :: Y) b1 C).
Qed.

(** Runs of the input left and output so far, during a pass.  [xs] is the
    list before the pass, [P0] the part of it that was merged into [P] in
    [k] output runs, and [R] the rest. *)
Definition descents' (xs : list Z) : nat :=
  match xs with [] => 0 | x :: xs => descents less x xs end.

Record pass_inv (xs P R : list Z) (k : nat) : Prop := {
  pi_perm : P ++ R ≡ₚ xs;
  pi_out : (k = 0%nat ∧ P = []) ∨ (descents' P < k)%nat ∧ P ≠ [];
  pi_rest : R ≠ [] → descents' xs = (2 * k + descents' R)%nat;
  pi_end : R = [] → (2 * k ≤ descents' xs + 1)%nat
}.

(** What a pass with [k] output runs has achieved. *)
Definition pass_result (xs ys : list Z) (k : nat) : Prop :=
  ys ≡ₚ xs ∧ ((k ≤ 1)%nat → descents' ys = 0%nat)
  ∧ ((1 < k)%nat → (descents' ys < descents' xs)%nat).

Lemma descents_length xs : (descents' xs ≤ length xs)%nat.
Proof.
  destruct xs as [|x xs]; [done|]. simpl. enough (descents less x xs ≤ length xs)%nat by lia.
  revert x. induction xs as [|y xs IH]; intros x; [done|]. simpl. specialize (IH y).
  destruct (less y x); lia.
Qed.

Lemma descents_join X Y :
  Y ≠ [] → (descents' (X ++ Y) ≤ descents' X + (if decide (X = []) then 0 else 1) + descents' Y)%nat.
Proof.
  intros HY. destruct X as [|x X]; [done|]. destruct Y as [|y Y]; [done|]. simpl.
  rewrite descents_app. destruct (less _ _); lia.
Qed.

Lemma descents_sorted' xs : descents' xs = 0%nat ↔ Sorted (le less) xs.
Proof. destruct xs as [|x xs]; [split; [constructor | done] | apply descents_sorted]. Qed.

Lemma pass_init xs : pass_inv xs [] xs 0.
Proof. split; [done | by left | done | lia]. Qed.

Lemma pass_done xs P k : pass_inv xs P [] k → pass_result xs P k.
Proof.
  intros [Hperm Hout _ Hend]. rewrite app_nil_r in Hperm. specialize (Hend eq_refl).
  split; [done|]. destruct Hout as [[-> ->]|[Hd _]]; split; simpl; lia.
Qed.

Lemma pass_last_run xs P x R k :
  pass_inv xs P (x :: R) k → (run_of x R).2 = [] → pass_result xs (P ++ x :: R) (S k).
Proof.
  intros [Hperm Hout Hrest _] Hr. specialize (Hrest ltac:(done)). split; [done|].
  pose proof (run_of_app x R) as Happ. pose proof (run_of_sorted x R) as H0.
  rewrite Hr, app_nil_r in Happ. rewrite <- Happ in H0. simpl in Hrest.
  pose proof (descents_join P (x :: R) ltac:(done)) as Hj. simpl in Hj.
  destruct Hout as [[-> ->]|[Hd HP]].
  - simpl. split; lia.
  - rewrite decide_False in Hj by done. split; lia.
Qed.

Lemma pass_step `{!StrictWeak less} xs P x R k y Y :
  pass_inv xs P (x :: R) k → (run_of x R).2 = y :: Y →
  pass_inv xs (P ++ list_merge (le less) (x :: (run_of x R).1) (y :: (run_of y Y).1))
    (run_of y Y).2 (S k).
Proof.
  intros [Hperm Hout Hrest _] Hr. specialize (Hrest ltac:(done)).
  pose proof (run_of_app x R) as HappX. pose proof (run_of_sorted x R) as HX.
  pose proof (run_of_maximal x R y Y Hr) as HmX. rewrite Hr in HappX.
  pose proof (run_of_app y Y) as HappY. pose proof (run_of_sorted y Y) as HY.
  set (X1 := (run_of x R).1) in *. set (Y1 := (run_of y Y).1) in *. set (R' := (run_of y Y).2) in *.
  pose proof (merge_Permutation (le less) (x :: X1) (y :: Y1)) as HM.
  set (M := list_merge (le less) (x :: X1) (y :: Y1)) in *.
  assert (M ≠ []) as HMne by (intros E; rewrite E in HM; by apply Permutation_nil_l in HM).
  assert (descents' M = 0%nat) as HM0.
  { apply descents_sorted', Sorted_list_merge; [apply _ | by apply descents_sorted..]. }
  assert (descents less x R = 1 + descents less y Y)%nat as HdR.
  { rewrite HappX, descents_app, HX, HmX. lia. }
  simpl in Hrest. split.
  - rewrite <- Hperm, <- app_assoc. apply Permutation_app_head. rewrite HM, HappX, HappY.
    simpl. by rewrite <- app_assoc.
  - right. pose proof (descents_join P M HMne) as Hj. rewrite HM0 in Hj. split.
    + destruct Hout as [[-> ->]|[Hd HP]]; [simpl in *; lia|]. rewrite decide_False in Hj by done. lia.
    + intros [_ ?]%app_eq_nil. done.
  - intros HR'. destruct R' as [|z R''] eqn:ER; [done|]. rewrite Hrest, HdR, HappY, descents_app, HY.
    pose proof (run_of_maximal y Y z R'' ER) as HmY. fold Y1 in HmY. rewrite HmY. simpl. lia.
  - intros HR'. rewrite HappY, HR', app_nil_r in HdR. rewrite HY in HdR. lia.
Qed.

Lemma pass_bound xs P R k : pass_inv xs P R k → (k ≤ length xs)%nat.
Proof.
  intros [_ _ Hrest Hend]. pose proof (descents_length xs) as Hl.
  destruct R as [|x R]; [specialize (Hend eq_refl) | specialize (Hrest ltac:(done))]; [|lia].
  destruct xs; simpl in *; lia.
Qed.

Definition pass_body (list : Z) : Z * Z → M heap (Z * Z + Z) := λ '(a0, output_run_cnt),
  e ← list_end list;
  if a0 =? e then mret (inr output_run_cnt)
  else
    let output_run_cnt := u32 (output_run_cnt + 1) in
    e ← list_end list;
    a1b0 ← find_end_of_run less fuel a0 e;
    e ← list_end list;
    if a1b0 =? e then mret (inr output_run_cnt)
    else
      e ← list_end list;
      b1 ← find_end_of_run less fuel a1b0 e;
      inplace_merge less fuel a0 a1b0 b1 ;;
      mret (inl (b1, output_run_cnt)).

Context `{!StrictWeak less}.

(** Merging the runs at the front of the rest of a list. *)
Lemma merge_in_list h l P x X y Y R :
  is_list h l (P ++ (x :: X) ++ (y :: Y) ++ R) →
  (length (x :: X) + length (y :: Y) < fuel)%nat →
  descents less x X = 0%nat → descents less y Y = 0%nat →
  wp (inplace_merge less fuel x y (front_of l R))
     (λ _ h', is_list h' l (P ++ list_merge (le less) (x :: X) (y :: Y) ++ R)
              ∧ same_outside (nodes l (P ++ (x :: X) ++ (y :: Y) ++ R)) h h') h.
Proof.
  intros Hl Hf HX HY. destruct (cons_hd R (tail l) []) as [C EC].
  destruct (exists_last (l := head l :: P)) as (A & p & EA); [done|].
  assert (∀ Z', nodes l (P ++ Z' ++ R) = A ++ p :: Z' ++ front_of l R :: C) as EN.
  { intros Z'. unfold nodes. rewrite <- !app_assoc, EC, app_comm_cons, EA, <- app_assoc. done. }
  unfold is_list in *. rewrite (app_assoc (x :: X)), EN, <- app_assoc in Hl.
  eapply wp_mono; [by apply inplace_merge_spec|]. intros [] h' [Hd Hs]. split; [by rewrite EN|].
  eapply same_outside_sub; [exact Hs|]. rewrite (app_assoc (x :: X) (y :: Y) R), EN, <- app_assoc.
  intros a. rewrite !elem_of_app, !elem_of_cons, !elem_of_app, !elem_of_cons, elem_of_nil. tauto.
Qed.

Lemma pass_loop l xs f h P R k :
  is_list h l (P ++ R) → pass_inv xs P R k → (length R < f)%nat → (S (length xs) < fuel)%nat →
  Z.of_nat (length xs) < 2^32 - 1 →
  wp (loop f (pass_body l) (front_of l R, Z.of_nat k))
     (λ c h', ∃ ys k', c = Z.of_nat k' ∧ is_list h' l ys ∧ pass_result xs ys k'
              ∧ same_outside (nodes l xs) h h') h.
Proof.
  intros Hl Hinv Hf Hfuel Hlen. revert h P R k Hl Hinv Hf.
  induction f as [|f IH]; intros h P R k Hl Hinv Hf; [lia|]. simpl. wp_bind. wp_bind.
  eapply list_end_spec; [done|]. destruct R as [|x R].
  { simpl. rewrite Z.eqb_refl. apply wp_ret, wp_ret. exists P, k. rewrite app_nil_r in Hl.
    split; [done|]. split; [done|]. split; [by apply pass_done | done]. }
  simpl. rewrite (proj2 (Z.eqb_neq x (tail l))) by (eapply elem_not_end; [done | set_solver]).
  assert (length (P ++ x :: R) = length xs) as Hlen'
    by (rewrite (pi_perm _ _ _ _ Hinv); done).
  rewrite length_app in Hlen'. simpl in Hlen'.
  pose proof (pass_bound _ _ _ _ Hinv) as Hk. rewrite u32_small by lia.
  replace (Z.of_nat k + 1) with (Z.of_nat (S k)) by lia.
  wp_bind. eapply list_end_spec; [done|]. wp_bind.
  pose proof Hl as Hd. unfold is_list, nodes in Hd. rewrite <- app_assoc, app_comm_cons in Hd.
  eapply find_end_of_run_spec; [exact Hd | lia|]. wp_bind. eapply list_end_spec; [done|].
  pose proof (run_of_app x R) as HX. pose proof (run_of_sorted x R) as HX0.
  destruct (run_of x R).2 as [|y Y] eqn:ER.
  { simpl. rewrite Z.eqb_refl. apply wp_ret, wp_ret. exists (P ++ x :: R), (S k).
    split; [done|]. split; [done|]. split; [by apply pass_last_run | done]. }
  simpl. rewrite (proj2 (Z.eqb_neq y (tail l)))
    by (eapply elem_not_end; [done | rewrite HX; set_solver]).
  wp_bind. eapply list_end_spec; [done|]. wp_bind.
  set (X1 := (run_of x R).1) in *. rewrite HX, app_comm_cons in Hl.
  assert (length R = length X1 + S (length Y))%nat as HlR by (rewrite HX, length_app; done).
  pose proof Hl as Hd2. unfold is_list, nodes in Hd2. rewrite app_assoc, <- (app_assoc _ (y :: Y)) in Hd2.
  rewrite app_comm_cons in Hd2.
  eapply find_end_of_run_spec; [exact Hd2 | lia|]. wp_bind.
  pose proof (run_of_app y Y) as HY. pose proof (run_of_sorted y Y) as HY0.
  pose proof (pass_step xs P x R k y Y Hinv ER) as Hstep. fold X1 in Hstep.
  set (Y1 := (run_of y Y).1) in *. set (R' := (run_of y Y).2) in *.
  assert (length Y = length Y1 + length R')%nat as HlY by (rewrite HY at 1; by rewrite length_app).
  rewrite HY, (app_comm_cons Y1) in Hl.
  eapply wp_mono; [apply (merge_in_list h l P x X1 y Y1 R' Hl); [simpl; lia | done | done]|].
  intros [] h1 [Hl1 Hs1]. apply wp_ret. rewrite app_assoc in Hl1.
  eapply wp_mono; [apply (IH h1 _ _ _ Hl1 Hstep); simpl in Hf; lia|].
  intros c h2 (ys & k' & -> & Hl2 & Hres & Hs2). exists ys, k'. split; [done|]. split; [done|].
  split; [done|]. apply (same_outside_trans (nodes l xs) _ _ h1); [|done|done].
  eapply same_outside_sub; [exact Hs1|].
  assert (P ++ (x :: X1) ++ (y :: Y1) ++ R' ≡ₚ xs) as Hp.
  { rewrite <- (pi_perm _ _ _ _ Hinv), HX, HY. done. }
  intros a. unfold nodes. by rewrite Hp.
Qed.

Lemma sort_pass_spec h l xs :
  is_list h l xs → (S (length xs) < fuel)%nat → Z.of_nat (length xs) < 2^32 - 1 →
  wp (sort_pass less fuel l)
     (λ c h', ∃ ys k, c = Z.of_nat k ∧ is_list h' l ys ∧ pass_result xs ys k
              ∧ same_outside (nodes l xs) h h') h.
Proof.
  intros Hl Hf Hlen. unfold sort_pass. wp_bind. eapply list_begin_spec; [done|].
  apply (pass_loop l xs fuel h [] xs 0 Hl (pass_init xs)); lia.
Qed.

Lemma sort_loop l f h xs :
  is_list h l xs → (descents' xs < f)%nat → (S (length xs) < fuel)%nat →
  Z.of_nat (length xs) < 2^32 - 1 →
  wp (loop f (λ _, output_run_cnt ← sort_pass less fuel l;
                   mret (if 1 <? output_run_cnt then inl tt else inr tt)) tt)
     (λ _ h', ∃ ys, is_list h' l ys ∧ ys ≡ₚ xs ∧ descents' ys = 0%nat
              ∧ same_outside (nodes l xs) h h') h.
Proof.
  revert h xs. induction f as [|f IH]; intros h xs Hl Hf Hfuel Hlen; [lia|].
  simpl. wp_bind. wp_bind. eapply wp_mono; [by apply sort_pass_spec|].
  intros c h1 (ys & k & -> & Hl1 & (Hperm & Hsorted & Hdec) & Hs1). apply wp_ret.
  destruct (Z.ltb_spec 1 (Z.of_nat k)).
  - assert (length ys = length xs) as Hly by (by rewrite Hperm).
    eapply wp_mono; [apply (IH h1 ys Hl1); lia|].
    intros [] h2 (zs & Hl2 & Hperm2 & Hz & Hs2). exists zs. split; [done|].
    split; [by rewrite Hperm2|]. split; [done|].
    apply (same_outside_trans (nodes l xs) _ _ h1); [done| |done].
    eapply same_outside_sub; [exact Hs2|]. intros a. unfold nodes. by rewrite Hperm.
  - apply wp_ret. exists ys. split_and!; [done|done| |done]. apply Hsorted. lia.
Qed.

(** [list_sort] returns, whatever the order of the elements, and leaves a
    well-linked list of the same elements in nondecreasing order; it changes
    no link outside this list.  All its internal assertions hold. *)
Theorem list_sort_sorts h l xs :
  is_list h l xs → (S (length xs) < fuel)%nat → Z.of_nat (length xs) < 2^32 - 1 →
  ∃ h' ys, list_sort less fuel l h = Ok (tt, h') ∧ is_list h' l ys ∧ ys ≡ₚ xs
    ∧ StronglySorted (le less) ys ∧ same_outside (nodes l xs) h h'.
Proof.
  intros Hl Hf Hlen.
  assert (wp (list_sort less fuel l) (λ _ h', ∃ ys, is_list h' l ys ∧ ys ≡ₚ xs
    ∧ descents' ys = 0%nat ∧ same_outside (nodes l xs) h h') h)
    as ([] & h' & Hrun & ys & Hl' & Hperm & H0 & Hs)%wp_Ok.
  - pose proof (is_list_pos _ _ _ Hl) as Hpos. pose proof (descents_length xs) as Hdl.
    unfold list_sort. wp_assert; [by rewrite null_eqb|]. wp_bind.
    eapply wp_mono; [apply (sort_loop l fuel h xs); [done | lia..]|].
    intros [] h' (ys & Hl' & Hperm & H0 & Hs). wp_bind. eapply list_begin_spec; [done|].
    wp_bind. eapply list_end_spec; [done|]. wp_bind. destruct ys as [|y ys].
    + unfold is_sorted. simpl. rewrite Z.eqb_refl. apply wp_ret, wp_ASSERT; [done|]. by exists [].
    + eapply (is_sorted_spec h' [head l] y ys (tail l) []); [done | |].
      { assert (length (y :: ys) = length xs) by (by rewrite Hperm). simpl in *. lia. }
      simpl in H0. rewrite H0. apply wp_ASSERT; [done|]. by exists (y :: ys).
  - exists h', ys. split_and!; [done..| |done].
    apply Sorted_StronglySorted; [apply _ | by apply descents_sorted'].
Qed.

End sort.

Lemma list_sort_sorts_witness :
  ∃ h' ys, list_sort Z.ltb 5 100 three_list = Ok (tt, h') ∧ is_list h' 100 ys ∧ ys ≡ₚ [30; 10; 20]
    ∧ StronglySorted (le Z.ltb) ys ∧ same_outside (nodes 100 [30; 10; 20]) three_list h'.
Proof. apply (list_sort_sorts Z.ltb 5); [apply three_list_ok | simpl; lia | simpl; lia]. Defined.

(** ** Counting and reversing *)

Lemma size_loop l h f xs1 xs2 cnt :
  is_list h l (xs1 ++ xs2) → (length xs2 < f)%nat → 0 ≤ cnt →
  cnt + Z.of_nat (length xs2) < 2^32 →
  wp (loop f (λ '(e, cnt), t ← list_end l;
        if e =? t then mret (inr cnt)
        else n ← list_next e; mret (inl (n, u32 (cnt + 1)))) (front_of l xs2, cnt))
     (λ r h', r = cnt + Z.of_nat (length xs2) ∧ h' = h) h.
Proof.
  revert f xs1 cnt. induction xs2 as [|x xs2 IH]; intros f xs1 cnt Hl Hf H0 Hc;
    (destruct f as [|f]; [simpl in Hf; lia|]); simpl; wp_bind; wp_bind;
    (eapply list_end_spec; [done|]).
  - rewrite Z.eqb_refl. apply wp_ret, wp_ret. split; [lia | done].
  - rewrite (proj2 (Z.eqb_neq x (tail l))) by (eapply elem_not_end; [done | set_solver]).
    wp_bind. eapply next_in_list; [done|]. apply wp_ret. simpl in *. rewrite u32_small by lia.
    eapply wp_mono; [apply (IH f (xs1 ++ [x])); [by rewrite <- app_assoc | lia..]|].
    intros r h' [-> ->]. split; [lia | done].
Qed.

(** Links of the elements in [D] exchanged. *)
Definition swapped (h : heap) (D : list Z) (h' : heap) : Prop :=
  ∀ a, prev_of h' !! a = (if decide (a ∈ D) then next_of h else prev_of h) !! a
     ∧ next_of h' !! a = (if decide (a ∈ D) then prev_of h else next_of h) !! a.

Lemma chain_rev h h' ns :
  (∀ a, a ∈ ns → prev_of h' !! a = next_of h !! a ∧ next_of h' !! a = prev_of h !! a) →
  chain h ns → chain h' (rev ns).
Proof.
  induction ns as [|a ns IH]; [done|]. intros Hsw Hc. simpl.
  destruct ns as [|b ns]; [done|]. apply chain_cons in Hc as (Hn & Hp & Hc). simpl.
  rewrite <- app_assoc. simpl. apply chain_app. split_and!; [| | |done].
  - apply IH; [|done]. intros c Hin. apply Hsw. by right.
  - by rewrite (proj2 (Hsw b ltac:(set_solver))).
  - by rewrite (proj1 (Hsw a ltac:(set_solver))).
Qed.

Lemma reverse_loop l h xs f h1 xs1 xs2 :
  is_list h l xs → xs = xs1 ++ xs2 → swapped h xs1 h1 → (length xs2 < f)%nat →
  wp (loop f (λ e, t ← list_end l;
        if e =? t then mret (inr tt)
        else swap_links e ;; p ← get_prev e; mret (inl p)) (front_of l xs2))
     (λ _ h', swapped h xs h') h1.
Proof.
  intros Hl. revert f h1 xs1. induction xs2 as [|x xs2 IH]; intros f h1 xs1 -> Hsw Hf;
    (destruct f as [|f]; [simpl in Hf; lia|]); pose proof (is_list_pos _ _ _ Hl);
    simpl; wp_bind; wp_bind; unfold list_end at 1; (wp_assert; [by rewrite null_eqb|]); apply wp_ret.
  - rewrite Z.eqb_refl. apply wp_ret, wp_ret. by rewrite app_nil_r.
  - rewrite (proj2 (Z.eqb_neq x (tail l))) by (eapply elem_not_end; [done | set_solver]).
    destruct (nodes_at l xs1 x xs2) as (B & E & _). pose proof Hl as Hd. unfold is_list in Hd.
    rewrite E in Hd. destruct (dll_link _ _ _ _ _ Hd) as (Hn & _ & Hx & _).
    destruct (dll_prev _ _ _ _ Hd) as (_ & [[? _]|(_ & p & _ & Hp & _)]); [done|].
    assert (x ∉ xs1) as Hx1 by (pose proof (dll_nodup _ _ Hd) as HN; simpl in HN; mem_solve).
    destruct (Hsw x) as [Hp1 Hn1]. rewrite decide_False in Hp1, Hn1 by done.
    wp_bind. unfold swap_links. wp_bind. eapply wp_get_prev; [by rewrite Hp1|].
    wp_bind. eapply wp_get_next; [by rewrite Hn1|]. wp_bind. apply wp_set_prev; [done|].
    apply wp_set_next; [done|]. wp_bind. eapply wp_get_prev; [simpl; apply lookup_insert_eq|].
    apply wp_ret. apply (IH f _ (xs1 ++ [x])); [by rewrite <- app_assoc | | simpl in Hf; lia].
    intros a. simpl. destruct (decide (a = x)) as [->|Hne].
    + rewrite !lookup_insert_eq, !decide_True, Hn, Hp by set_solver. done.
    + rewrite !lookup_insert_ne by done. destruct (Hsw a) as [-> ->].
      destruct (decide (a ∈ xs1)); [rewrite !decide_True by set_solver | rewrite !decide_False by set_solver]; done.
Qed.

(** The links between the elements and the ends of a list. *)
Lemma is_list_ends h l xs f z :
  is_list h l xs → hd_error xs = Some f → last xs = Some z →
  next_of h !! head l = Some f ∧ prev_of h !! f = Some (head l)
  ∧ next_of h !! z = Some (tail l) ∧ prev_of h !! tail l = Some z ∧ chain h xs
  ∧ head l ∉ xs ∧ tail l ∉ xs ∧ head l ≠ tail l ∧ NoDup xs ∧ f ∈ xs ∧ z ∈ xs
  ∧ Forall (λ a, 0 < a) (head l :: tail l :: xs).
Proof.
  intros Hl Hf Hz. pose proof (dll_nodup _ _ Hl) as HN. pose proof (dll_pos _ _ Hl) as HP.
  pose proof (dll_chain _ _ Hl) as Hc. unfold nodes in HN, HP, Hc.
  change (head l :: xs ++ [tail l]) with ([head l] ++ xs ++ [tail l]) in Hc.
  rewrite (chain_join _ _ _ (head l) f), (chain_join _ xs _ z (tail l)) in Hc
    by (done || by apply hd_app).
  destruct Hc as (_ & Hhf & Hfh & Hc & Hzt & Htz & _).
  rewrite Forall_cons, Forall_app, Forall_singleton in HP. rewrite !Forall_cons.
  split_and!; try tauto; try mem_solve.
  - repeat mem_step. done.
  - eauto using hd_elem.
  - eauto using last_elem.
Qed.

(** The heap after the last exchanges of [list_reverse]; [f] and [z] are the
    first and the last element. *)
Definition rejoined (h : heap) (l f z : Z) : heap :=
  mk_heap (<[z := head l]> (<[tail l := f]> (prev_of h)))
          (<[f := tail l]> (<[head l := z]> (next_of h))).

Lemma run_rejoin h l xs h1 f z (Q : unit → heap → Prop) :
  is_list h l xs → hd_error xs = Some f → last xs = Some z → swapped h xs h1 →
  Q tt (rejoined h1 l f z) →
  wp (swap_next_prev (head l) (tail l) ;;
      a ← get_next (head l); b ← get_prev (tail l); swap_prev_next a b) Q h1.
Proof.
  intros Hl Hf Hz Hsw HQ.
  destruct (is_list_ends _ _ _ _ _ Hl Hf Hz) as (Hhf & Hfh & Hzt & Htz & Hc & Hh & Ht & Hht & HN & Hfi & Hzi & HP).
  rewrite !Forall_cons, Forall_forall in HP. destruct HP as (Hh0 & Ht0 & HP).
  destruct (Hsw (head l)) as [_ HnH], (Hsw (tail l)) as [HpT _],
    (Hsw z) as [HpZ _], (Hsw f) as [_ HnF].
  rewrite decide_False in HnH by done. rewrite decide_False in HpT by done.
  rewrite decide_True in HpZ by done. rewrite decide_True in HnF by done.
  unfold swap_next_prev, swap_prev_next. wp_bind. wp_bind. eapply wp_get_next; [by rewrite HnH|].
  wp_bind. eapply wp_get_prev; [by rewrite HpT|]. wp_bind. apply wp_set_next; [done|].
  apply wp_set_prev; [done|]. wp_bind. eapply wp_get_next; [simpl; apply lookup_insert_eq|].
  wp_bind. eapply wp_get_prev; [simpl; apply lookup_insert_eq|].
  wp_bind. eapply wp_get_prev; [simpl; rewrite lookup_insert_ne, HpZ by mem_solve; done|].
  wp_bind. eapply wp_get_next; [simpl; rewrite lookup_insert_ne, HnF by mem_solve; done|].
  wp_bind. apply wp_set_prev; [auto|]. apply wp_set_next; [auto|]. exact HQ.
Qed.

Lemma hd_rev (xs : list Z) : hd_error (rev xs) = last xs.
Proof. destruct xs as [|x xs _] using rev_ind; [done|]. by rewrite rev_app_distr, last_snoc. Qed.

Lemma last_rev (xs : list Z) : last (rev xs) = hd_error xs.
Proof. by rewrite <- hd_rev, rev_involutive. Qed.

Lemma rejoined_ok h l xs h1 f z :
  is_list h l xs → hd_error xs = Some f → last xs = Some z → swapped h xs h1 →
  is_list (rejoined h1 l f z) l (rev xs) ∧ same_outside (nodes l xs) h (rejoined h1 l f z).
Proof.
  intros Hl Hf Hz Hsw.
  destruct (is_list_ends _ _ _ _ _ Hl Hf Hz) as (_ & _ & _ & _ & Hc & Hh & Ht & Hht & HN & Hfi & Hzi & _).
  assert (rev xs ≡ₚ xs) as Hperm by (symmetry; apply Permutation_rev).
  assert (nodes l (rev xs) ≡ₚ nodes l xs) as Hperm' by (unfold nodes; by rewrite Hperm).
  split.
  2: { intros a Ha. unfold nodes in Ha. apply not_elem_of_cons in Ha as [Ha1 Ha].
       apply not_elem_of_app in Ha as [Ha2 Ha3]. apply not_elem_of_cons in Ha3 as [Ha3 _].
       unfold rejoined; simpl. rewrite !lookup_insert_ne by mem_solve.
       destruct (Hsw a) as [-> ->]. by rewrite !decide_False. }
  eapply (dll_rebuild h); [exact Hl | | | | done | | |].
  - unfold nodes. change (head l :: rev xs ++ [tail l]) with ([head l] ++ rev xs ++ [tail l]).
    rewrite (chain_join _ _ _ (head l) z), (chain_join _ (rev xs) _ f (tail l))
      by (done || by (try apply hd_app); rewrite ?hd_rev, ?last_rev).
    unfold rejoined; simpl. rewrite !lookup_insert_eq.
    split_and!; [done | | done | | done | | done].
    + rewrite lookup_insert_ne, lookup_insert_eq by mem_solve. done.
    + eapply (chain_inside h1 _ _ z f); [by rewrite Hperm | by rewrite hd_rev | by rewrite last_rev | | |].
      * simpl. intros a Ha Hne. rewrite Hperm in Ha. by rewrite !lookup_insert_ne by mem_solve.
      * simpl. intros a Ha Hne. rewrite Hperm in Ha. by rewrite !lookup_insert_ne by mem_solve.
      * apply (chain_rev h); [|done]. intros a Ha. destruct (Hsw a) as [-> ->]. by rewrite !decide_True.
    + rewrite lookup_insert_ne, lookup_insert_eq by mem_solve. done.
  - rewrite Hperm'. apply Hl.
  - rewrite Hperm'. apply Hl.
  - unfold nodes. by rewrite !app_comm_cons, !last_snoc.
  - intros a [= <-]. unfold rejoined; simpl. rewrite !lookup_insert_ne by mem_solve.
    rewrite (proj1 (Hsw _)). by rewrite decide_False.
  - intros a. unfold nodes. rewrite app_comm_cons, last_snoc. intros [= <-].
    unfold rejoined; simpl. rewrite !lookup_insert_ne by mem_solve.
    rewrite (proj2 (Hsw _)). by rewrite decide_False.
Qed.

(** [list_reverse] returns and leaves a well-linked list of the same
    elements in the opposite order; no link outside the list changes. *)
Theorem list_reverse_reverses h l xs fuel :
  is_list h l xs → (length xs < fuel)%nat →
  ∃ h', list_reverse fuel l h = Ok (tt, h') ∧ is_list h' l (rev xs)
    ∧ same_outside (nodes l xs) h h'.
Proof.
  intros Hl Hf.
  enough (wp (list_reverse fuel l) (λ _ h', is_list h' l (rev xs) ∧ same_outside (nodes l xs) h h') h)
    as ([] & h' & ? & ?)%wp_Ok by (by exists h').
  unfold list_reverse. wp_bind. eapply list_empty_spec; [done|].
  destruct xs as [|f xs]; [by apply wp_ret|]. simpl negb. wp_bind.
  destruct (last (f :: xs)) as [z|] eqn:Hz; [|by apply last_None in Hz].
  eapply list_begin_spec; [done|]. wp_bind.
  eapply wp_mono; [eapply (reverse_loop l h (f :: xs) fuel h []); [done | done | | done]|].
  { intros a. by rewrite !decide_False by apply not_elem_of_nil. }
  intros [] h1 Hsw. eapply run_rejoin; [done..|]. by apply rejoined_ok.
Qed.

Lemma list_reverse_reverses_witness :
  ∃ h', list_reverse 4 100 three_list = Ok (tt, h') ∧ is_list h' 100 [20; 10; 30]
    ∧ same_outside (nodes 100 [30; 10; 20]) three_list h'.
Proof. apply (list_reverse_reverses three_list 100 [30; 10; 20] 4); [apply three_list_ok | simpl; lia]. Defined.

(** ** Ordered insertion, extrema and duplicates *)

Section ordered.
Context (less : Z → Z → bool).

(** The elements before and after the place of [e]. *)
Fixpoint place (e : Z) (xs : list Z) : list Z * list Z :=
  match xs with
  | [] => ([], [])
  | x :: xs' => if less e x then ([], xs) else (x :: (place e xs').1, (place e xs').2)
  end.

Lemma place_app e xs : xs = (place e xs).1 ++ (place e xs).2.
Proof.
  induction xs as [|x xs IH]; [done|]. simpl. destruct (less e x); [done|]. simpl. by rewrite <- IH.
Qed.

Lemma place_before e xs : Forall (λ x, le less x e) (place e xs).1.
Proof.
  induction xs as [|x xs IH]; [constructor|]. simpl. destruct (less e x) eqn:E; constructor; done.
Qed.

Lemma place_after e xs y ys : (place e xs).2 = y :: ys → less e y = true.
Proof.
  induction xs as [|x xs IH]; [done|]. simpl. destruct (less e x) eqn:E; [by intros [= <- _] | done].
Qed.

Lemma place_loop l h f e xs1 xs2 (Q : Z → heap → Prop) :
  is_list h l (xs1 ++ xs2) → (length xs2 < f)%nat → Q (front_of l (place e xs2).2) h →
  wp (loop f (λ x, t ← list_end l;
        if x =? t then mret (inr x)
        else if less e x then mret (inr x)
        else n ← list_next x; mret (inl n)) (front_of l xs2)) Q h.
Proof.
  revert f xs1. induction xs2 as [|x xs2 IH]; intros f xs1 Hl Hf HQ;
    (destruct f as [|f]; [simpl in Hf; lia|]); simpl; wp_bind; wp_bind;
    (eapply list_end_spec; [done|]).
  - rewrite Z.eqb_refl. by apply wp_ret, wp_ret.
  - rewrite (proj2 (Z.eqb_neq x (tail l))) by (eapply elem_not_end; [done | set_solver]).
    simpl in HQ. destruct (less e x) eqn:E; [by apply wp_ret, wp_ret|].
    wp_bind. eapply next_in_list; [done|]. apply wp_ret.
    apply (IH f (xs1 ++ [x])); [by rewrite <- app_assoc | simpl in Hf; lia | done].
Qed.

Context `{!StrictWeak less}.

Lemma insert_sorted e xs :
  StronglySorted (le less) xs → StronglySorted (le less) ((place e xs).1 ++ e :: (place e xs).2).
Proof.
  intros Hs. induction Hs as [|x xs Hs IH Hall]; simpl; [by repeat constructor|].
  destruct (less e x) eqn:E; simpl.
  - assert (le less e x) by (unfold le; by apply less_asym).
    constructor; [by constructor|]. constructor; [done|].
    eapply Forall_impl; [exact Hall|]. intros y Hy. by transitivity x.
  - constructor; [done|]. rewrite (place_app e xs), Forall_app in Hall.
    rewrite Forall_app, Forall_cons. split; [apply Hall|]. split; [done | apply Hall].
Qed.

(** [list_insert_ordered] into a sorted list gives a sorted, well-linked
    list with the new element after all elements that are not greater. *)
Theorem list_insert_ordered_sorted h l xs e fuel :
  is_list h l xs → 0 < e → e ∉ nodes l xs → (length xs < fuel)%nat →
  StronglySorted (le less) xs →
  ∃ h' xs1 xs2, list_insert_ordered less fuel l e h = Ok (tt, h')
    ∧ xs = xs1 ++ xs2 ∧ is_list h' l (xs1 ++ e :: xs2)
    ∧ StronglySorted (le less) (xs1 ++ e :: xs2) ∧ Forall (λ x, le less x e) xs1
    ∧ Forall (λ x, less e x = true) (take 1 xs2)
    ∧ same_outside (e :: nodes l xs) h h'.
Proof.
  intros Hl He Hnew Hf Hs. pose proof (is_list_pos _ _ _ Hl). pose proof (place_app e xs) as Happ.
  assert (wp (list_insert_ordered less fuel l e)
    (λ _ h', is_list h' l ((place e xs).1 ++ e :: (place e xs).2)
             ∧ same_outside (e :: nodes l xs) h h') h) as ([] & h' & Hrun & Hl' & Hso)%wp_Ok.
  { unfold list_insert_ordered. wp_assert; [by rewrite null_eqb|]. wp_assert; [by rewrite null_eqb|].
    wp_bind. eapply list_begin_spec; [done|]. wp_bind. eapply (place_loop l h fuel e []); [done..|].
    pose proof (insert_in_list h l (place e xs).1 (place e xs).2 e) as Hins.
    rewrite <- Happ in Hins. by apply Hins. }
  exists h', (place e xs).1, (place e xs).2. split_and!; [done | done | done | | | |].
  - by apply insert_sorted.
  - apply place_before.
  - destruct (place e xs).2 eqn:E; simpl; [constructor|]. apply Forall_singleton.
    by eapply place_after.
  - done.
Qed.

End ordered.

(** A list at 100 with the elements 10 and 30. *)
Definition two_list : heap :=
  match exec_ops 100 [PushBack 10; PushBack 30] empty_list with
  | Ok (_, h) => h
  | Err _ => empty_list
  end.

Lemma two_list_ok : is_list two_list 100 [10; 30].
Proof.
  destruct (exec_ops_refines empty_list 100 [] [PushBack 10; PushBack 30])
    as (h' & E & Hl); [apply empty_list_ok| |].
  - simpl. split_and!; try done; apply (bool_decide_unpack _); vm_compute; done.
  - unfold two_list. by rewrite E.
Qed.

Lemma list_insert_ordered_sorted_witness :
  ∃ h' xs1 xs2, list_insert_ordered Z.ltb 5 100 20 two_list = Ok (tt, h')
    ∧ [10; 30] = xs1 ++ xs2 ∧ is_list h' 100 (xs1 ++ 20 :: xs2)
    ∧ StronglySorted (le Z.ltb) (xs1 ++ 20 :: xs2) ∧ Forall (λ x, le Z.ltb x 20) xs1
    ∧ Forall (λ x, (20 <? x) = true) (take 1 xs2)
    ∧ same_outside (20 :: nodes 100 [10; 30]) two_list h'.
Proof.
  apply (list_insert_ordered_sorted Z.ltb two_list 100 [10; 30] 20 5);
    [apply two_list_ok | lia | apply (bool_decide_unpack _); vm_compute; done | simpl; lia
    | repeat constructor].
Defined.

(** The element that a scan for an extremum keeps. *)
Fixpoint pick (better : Z → Z → bool) (m : Z) (xs : list Z) : Z :=
  match xs with
  | [] => m
  | e :: xs => pick better (if better m e then e else m) xs
  end.

(** It is the first of the best ones. *)
Lemma pick_spec better `{!StrictWeak better} m xs :
  ∃ xs1 xs2, m :: xs = xs1 ++ pick better m xs :: xs2
    ∧ Forall (λ x, better x (pick better m xs) = true) xs1
    ∧ Forall (λ x, better (pick better m xs) x = false) xs2.
Proof.
  enough (∀ pre done_, Forall (λ x, better x m = true) pre → Forall (λ x, better m x = false) done_ →
    ∃ xs1 xs2, pre ++ m :: done_ ++ xs = xs1 ++ pick better m xs :: xs2
      ∧ Forall (λ x, better x (pick better m xs) = true) xs1
      ∧ Forall (λ x, better (pick better m xs) x = false) xs2) as H by (by apply (H [] [])).
  revert m. induction xs as [|e xs IH]; intros m pre dn Hpre Hdn; simpl.
  { exists pre, dn. by rewrite app_nil_r. }
  assert (∀ x, better x e = false → better m e = true → better m x = true) as Hneg.
  { intros x Hxe Hme. destruct (better m x) eqn:Hmx; [done|].
    by rewrite (less_negtrans m x e) in Hme. }
  destruct (better m e) eqn:E.
  - destruct (IH e (pre ++ m :: dn) []) as (xs1 & xs2 & Heq & H1 & H2); [|constructor|].
    + rewrite Forall_app, Forall_cons, !Forall_forall in *. split_and!; [|done|].
      * intros x Hx. destruct (better x e) eqn:Hxe; [done|]. specialize (Hneg x Hxe eq_refl).
        specialize (Hpre x Hx). simpl in Hpre. by rewrite (less_asym _ _ Hneg) in Hpre.
      * intros x Hx. destruct (better x e) eqn:Hxe; [done|]. specialize (Hneg x Hxe eq_refl).
        specialize (Hdn x Hx). simpl in Hdn. congruence.
    + exists xs1, xs2. split_and!; [|done|done]. rewrite <- Heq, <- app_assoc. done.
  - destruct (IH m pre (dn ++ [e])) as (xs1 & xs2 & Heq & H1 & H2); [done| |].
    + by rewrite Forall_app, Forall_singleton.
    + exists xs1, xs2. split_and!; [|done|done]. rewrite <- Heq, <- app_assoc. done.
Qed.

(** The loop of [list_max] and [list_min]. *)
Lemma pick_loop (better : Z → Z → bool) l h f xs1 xs2 m :
  is_list h l (xs1 ++ xs2) → (length xs2 < f)%nat →
  wp (loop f (λ '(e, m), t ← list_end l;
        if e =? t then mret (inr m)
        else let m := if better m e then e else m in
             n ← list_next e; mret (inl (n, m))) (front_of l xs2, m))
     (λ r h', r = pick better m xs2 ∧ h' = h) h.
Proof.
  revert f xs1 m. induction xs2 as [|x xs2 IH]; intros f xs1 m Hl Hf;
    (destruct f as [|f]; [simpl in Hf; lia|]); simpl; wp_bind; wp_bind;
    (eapply list_end_spec; [done|]).
  - rewrite Z.eqb_refl. by apply wp_ret, wp_ret.
  - rewrite (proj2 (Z.eqb_neq x (tail l))) by (eapply elem_not_end; [done | set_solver]).
    wp_bind. eapply next_in_list; [done|]. apply wp_ret.
    apply (IH f (xs1 ++ [x])); [by rewrite <- app_assoc | simpl in Hf; lia].
Qed.

Lemma extremum_spec (better : Z → Z → bool) fuel l h x xs
    (ext := λ l, m ← list_begin l; t ← list_end l;
      if negb (m =? t) then
        e ← list_next m;
        loop fuel (λ '(e, m), t ← list_end l;
          if e =? t then mret (inr m)
          else let m := if better m e then e else m in
               n ← list_next e; mret (inl (n, m))) (e, m)
      else mret m) :
  is_list h l (x :: xs) → (length xs < fuel)%nat → ext l h = Ok (pick better x xs, h).
Proof.
  intros Hl Hf. enough (wp (ext l) (λ r h', r = pick better x xs ∧ h' = h) h)
    as (r & h' & -> & -> & ->)%wp_Ok by done.
  unfold ext. wp_bind. eapply list_begin_spec; [done|]. wp_bind. eapply list_end_spec; [done|].
  simpl. rewrite (proj2 (Z.eqb_neq x (tail l))) by (eapply elem_not_end; [done | set_solver]).
  simpl. wp_bind. eapply (next_in_list h l []); [done|]. by apply (pick_loop better l h fuel [x]).
Qed.

(** [list_max] of a nonempty list returns the first of its largest
    elements and changes nothing. *)
Theorem list_max_first_largest less `{!StrictWeak less} h l x xs fuel :
  is_list h l (x :: xs) → (length xs < fuel)%nat →
  ∃ m xs1 xs2, list_max less fuel l h = Ok (m, h) ∧ x :: xs = xs1 ++ m :: xs2
    ∧ Forall (λ y, less y m = true) xs1 ∧ Forall (λ y, less m y = false) xs2.
Proof.
  intros Hl Hf. destruct (pick_spec less x xs) as (xs1 & xs2 & Heq & H1 & H2).
  exists (pick less x xs), xs1, xs2. split_and!; [|done..].
  by apply (extremum_spec less fuel l h x xs).
Qed.

Lemma list_max_first_largest_witness :
  ∃ m xs1 xs2, list_max Z.ltb 3 100 three_list = Ok (m, three_list) ∧ [30; 10; 20] = xs1 ++ m :: xs2
    ∧ Forall (λ y, (y <? m) = true) xs1 ∧ Forall (λ y, (m <? y) = false) xs2.
Proof. apply (list_max_first_largest Z.ltb three_list 100 30 [10; 20] 3); [apply three_list_ok | simpl; lia]. Defined.

#[export] Instance flip_strict_weak less `{!StrictWeak less} : StrictWeak (λ a b, less b a).
Proof.
  split.
  - intros a b. apply less_asym.
  - intros a b c Hab Hbc. by apply (less_negtrans c b a).
Qed.

Lemma list_min_first_smallest less `{!StrictWeak less} h l x xs fuel :
  is_list h l (x :: xs) → (length xs < fuel)%nat →
  ∃ m xs1 xs2, list_min less fuel l h = Ok (m, h) ∧ x :: xs = xs1 ++ m :: xs2
    ∧ Forall (λ y, less m y = true) xs1 ∧ Forall (λ y, less y m = false) xs2.
Proof.
  intros Hl Hf. destruct (pick_spec (λ a b, less b a) x xs) as (xs1 & xs2 & Heq & H1 & H2).
  exists (pick (λ a b, less b a) x xs), xs1, xs2. split_and!; [|done..].
  by apply (extremum_spec (λ a b, less b a) fuel l h x xs).
Qed.

Lemma list_size_length h l xs fuel :
  is_list h l xs → (length xs < fuel)%nat → Z.of_nat (length xs) < 2^32 →
  list_size fuel l h = Ok (Z.of_nat (length xs), h).
Proof.
  intros Hl Hf Hlen. enough (wp (list_size fuel l) (λ r h', r = Z.of_nat (length xs) ∧ h' = h) h)
    as (r & h' & -> & -> & ->)%wp_Ok by done.
  unfold list_size. wp_bind. eapply list_begin_spec; [done|].
  by apply (size_loop l h fuel [] xs 0).
Qed.

Section unique.
Context (less : Z → Z → bool).

Definition equiv (a b : Z) : bool := negb (less a b) && negb (less b a).

(** The elements kept from [x :: xs] and those removed. *)
Fixpoint uniq (x : Z) (xs : list Z) : list Z * list Z :=
  match xs with
  | [] => ([x], [])
  | y :: ys => if equiv x y then ((uniq x ys).1, y :: (uniq x ys).2)
               else (x :: (uniq y ys).1, (uniq y ys).2)
  end.

Lemma uniq_perm x xs : (uniq x xs).1 ++ (uniq x xs).2 ≡ₚ x :: xs.
Proof.
  revert x. induction xs as [|y ys IH]; intros x; [done|]. simpl. destruct (equiv x y); simpl.
  - rewrite <- Permutation_middle, IH. apply Permutation_swap.
  - by rewrite IH.
Qed.

Lemma uniq_distinct x xs : Sorted (λ a b, equiv a b = false) (uniq x xs).1 ∧ hd_error (uniq x xs).1 = Some x.
Proof.
  revert x. induction xs as [|y ys IH]; intros x; [split; [by repeat constructor | done]|].
  simpl. destruct (equiv x y) eqn:E; [apply IH|]. simpl. split; [|done].
  destruct (IH y) as [Hs Hhd]. constructor; [done|].
  destruct (uniq y ys).1 as [|z zs]; simplify_eq/=. by constructor.
Qed.

(** The list of duplicates: absent, or a list that shares no node with
    [ns]. *)
Definition dup_list (h : heap) (d : Z) (ds ns : list Z) : Prop :=
  d = NULL ∨ is_list h d ds ∧ ∀ a, a ∈ ns → a ∉ nodes d ds.

(** Removing [y] and appending it to the duplicates. *)
Lemma move_duplicate l d h P y R ds :
  is_list h l (P ++ y :: R) → dup_list h d ds (nodes l (P ++ y :: R)) →
  wp (list_remove y ;; (if negb (d =? NULL) then list_push_back d y else mret tt))
     (λ _ h', is_list h' l (P ++ R) ∧ dup_list h' d (ds ++ [y]) (nodes l (P ++ R))) h.
Proof.
  intros Hl Hdup. assert (0 < y) as Hy by (eapply elem_pos; [done | set_solver]).
  assert (nodes l (P ++ y :: R) ≡ₚ y :: nodes l (P ++ R)) as Hperm
    by (unfold nodes; solve_Permutation).
  assert (∀ a, a ∈ nodes l (P ++ R) → a ∈ nodes l (P ++ y :: R)) as Hsub
    by (intros a Ha; rewrite Hperm; by right).
  assert (y ∈ nodes l (P ++ y :: R)) as Hyin by (rewrite Hperm; by left).
  pose proof (dll_nodup _ _ Hl) as Hyl. rewrite Hperm in Hyl. apply NoDup_cons in Hyl as [Hyl _].
  wp_bind. eapply wp_mono; [by apply remove_in_list|]. intros r h1 (_ & Hl1 & Hs1).
  destruct Hdup as [->|[Hld Hdisj]]; [apply wp_ret; split; [done | by left]|].
  rewrite null_eqb by (by eapply is_list_pos). simpl.
  assert (is_list h1 d ds) as Hld1
    by (eapply is_list_agree; [exact Hs1 | | done]; intros a Ha Hb; by apply (Hdisj a Hb)).
  assert (y ∉ nodes d ds) as Hyd by (by apply Hdisj).
  eapply wp_mono; [by apply push_back_spec|]. intros [] h2 [Hld2 Hs2]. split.
  - eapply is_list_agree; [exact Hs2 | | done]. intros a Ha.
    apply not_elem_of_cons. split; [by intros ->|]. by apply Hdisj, Hsub.
  - right. split; [done|]. intros a Ha. unfold nodes.
    pose proof (Hdisj a (Hsub a Ha)) as Had. unfold nodes in Had. assert (a ≠ y) by (by intros ->).
    rewrite not_elem_of_cons, !not_elem_of_app in *. rewrite !not_elem_of_cons in *. tauto.
Qed.

Lemma unique_loop l d f h P x R ds :
  is_list h l (P ++ x :: R) → dup_list h d ds (nodes l (P ++ x :: R)) → (length R < f)%nat →
  wp (loop f (λ elem, next ← list_next elem; e ← list_end l;
        if next =? e then mret (inr tt)
        else if negb (less elem next) && negb (less next elem) then
          list_remove next ;;
          (if negb (d =? NULL) then list_push_back d next else mret tt) ;;
          mret (inl elem)
        else mret (inl next)) x)
     (λ _ h', is_list h' l (P ++ (uniq x R).1)
              ∧ dup_list h' d (ds ++ (uniq x R).2) (nodes l (P ++ (uniq x R).1))) h.
Proof.
  revert h P x R ds. induction f as [|f IH]; intros h P x R ds Hl Hdup Hf; [lia|].
  simpl. wp_bind. wp_bind. eapply next_in_list; [done|]. wp_bind. eapply list_end_spec; [done|].
  destruct R as [|y R]; simpl.
  { rewrite Z.eqb_refl. apply wp_ret, wp_ret. by rewrite app_nil_r. }
  assert (y ≠ tail l) as Hyt by (eapply elem_not_end; [done | set_solver]).
  rewrite (proj2 (Z.eqb_neq y (tail l)) Hyt).
  fold (equiv x y). destruct (equiv x y) eqn:E; simpl.
  2: { apply wp_ret. rewrite cons_middle, app_assoc in Hl, Hdup.
       eapply wp_mono; [apply (IH h (P ++ [x]) y R ds Hl Hdup); simpl in Hf; lia|].
       intros [] h'. by rewrite <- app_assoc. }
  rewrite cons_middle, app_assoc in Hl, Hdup.
  pose proof (move_duplicate l d h (P ++ [x]) y R ds Hl Hdup) as Hmove%wp_bind_inv.
  wp_bind. eapply wp_mono; [exact Hmove|]. intros r h1 H1. wp_bind.
  eapply wp_mono; [exact H1|]. intros [] h2 [Hl2 Hd2]. apply wp_ret.
  rewrite <- app_assoc in Hl2, Hd2.
  eapply wp_mono; [apply (IH h2 P x R (ds ++ [y]) Hl2 Hd2); simpl in Hf; lia|].
  intros [] h3. by rewrite <- app_assoc.
Qed.

(** [list_unique] keeps the first element of every group of adjacent
    equal elements, so that no two neighbours are equal any more, and appends
    the others, in order, to the list of duplicates if there is one; both
    lists stay well linked and no element is lost. *)
Theorem list_unique_keeps_first h l d x xs ds fuel :
  is_list h l (x :: xs) → dup_list h d ds (nodes l (x :: xs)) → (length xs < fuel)%nat →
  ∃ h' kept removed, list_unique less fuel l d h = Ok (tt, h')
    ∧ is_list h' l kept ∧ dup_list h' d (ds ++ removed) (nodes l kept)
    ∧ kept ++ removed ≡ₚ x :: xs ∧ Sorted (λ a b, equiv a b = false) kept.
Proof.
  intros Hl Hdup Hf. pose proof (is_list_pos _ _ _ Hl).
  assert (wp (list_unique less fuel l d) (λ _ h', is_list h' l (uniq x xs).1
    ∧ dup_list h' d (ds ++ (uniq x xs).2) (nodes l (uniq x xs).1)) h)
    as ([] & h' & Hrun & Hl' & Hd')%wp_Ok.
  - unfold list_unique. wp_assert; [by rewrite null_eqb|]. wp_bind.
    eapply list_empty_spec; [done|]. simpl. wp_bind. eapply list_begin_spec; [done|].
    by apply (unique_loop l d fuel h []).
  - exists h', (uniq x xs).1, (uniq x xs).2.
    split_and!; [done..| apply uniq_perm | apply uniq_distinct].
Qed.

End unique.

Lemma list_unique_keeps_first_witness :
  ∃ h' kept removed, list_unique (λ a b, a / 25 <? b / 25) 5 100 NULL three_list = Ok (tt, h')
    ∧ is_list h' 100 kept ∧ dup_list h' NULL ([] ++ removed) (nodes 100 kept)
    ∧ kept ++ removed ≡ₚ [30; 10; 20]
    ∧ Sorted (λ a b, equiv (λ a b, a / 25 <? b / 25) a b = false) kept.
Proof.
  apply (list_unique_keeps_first (λ a b, a / 25 <? b / 25) three_list 100 NULL 30 [10; 20] [] 5);
    [apply three_list_ok | by left | simpl; lia].
Defined.

End DlistOrder.
