(* ===== verification/Thread.v ===== *)
(** * Threads and interrupts: threads/thread.c, threads/interrupt.c

    The state of the scheduler and every function of thread.c that changes
    it, with the parts of interrupt.c and devices/timer.c that drive it.
    Intrusive lists of threads are sequences of thread addresses: the file
    Dlist shows that lib/kernel/list.c implements sequences.  The elements are
    in the pages of the threads: when a page is freed whose element is still
    in a list, the address becomes [NULL] there, and following the link is a
    [Fault], even where the machine would read or write the freed page and go
    on.

    A thread is suspended at one of a few points of the kernel: inside
    [sema_down], in [thread_yield], at the start of [kernel_thread], or in
    the loop of [idle].  The point, with the interrupt level saved on the
    stack there, is the [frame] of the thread; it stands for the stack that
    [switch_threads] leaves behind.  What the thread does when interrupts are
    on is a list of operations of synch.h and thread.h ([ops]) and the rest of
    the operation under way ([pc]); the file Synch says how they run. *)
From stdpp Require Import base gmap list.
From Stdlib Require Import ZArith Lia.
From S2P Require Import Prelude Vaddr.

(** ** The interface of the page allocator

    What thread.c relies on when it allocates and frees pages; the file
    KernelPages shows that threads/palloc.c provides it. *)
Class PageAllocator (St : Type) := {
  pa_inv : St → Prop;
  pa_managed : St → Z → Prop;
  pa_used : St → Z → Prop;
  pa_get : Z → St → res (Z * St);
  pa_free : Z → St → res (unit * St);
  pa_get_ok s cnt :
    pa_inv s → 0 < cnt →
    ∃ p s', pa_get cnt s = Ok (p, s') ∧ pa_inv s'
      ∧ (∀ q, pa_managed s' q ↔ pa_managed s q)
      ∧ ((p = 0 ∧ ∀ q, pa_used s' q ↔ pa_used s q)
         ∨ (0 < p ∧ p mod Vaddr.PGSIZE = 0
            ∧ (∀ i, 0 ≤ i < cnt → ¬ pa_used s (p + Vaddr.PGSIZE * i) ∧ pa_managed s (p + Vaddr.PGSIZE * i))
            ∧ ∀ q, pa_used s' q ↔ pa_used s q ∨ ∃ i, 0 ≤ i < cnt ∧ q = p + Vaddr.PGSIZE * i));
  pa_free_ok s p :
    pa_inv s → pa_used s p →
    ∃ s', pa_free p s = Ok (tt, s') ∧ pa_inv s'
      ∧ (∀ q, pa_managed s' q ↔ pa_managed s q)
      ∧ ∀ q, pa_used s' q ↔ pa_used s q ∧ q ≠ p
}.

Module Thread.

(** ** Data *)

Inductive intr_level := INTR_OFF | INTR_ON.
Inductive thread_status := THREAD_RUNNING | THREAD_READY | THREAD_BLOCKED | THREAD_DYING.

#[export] Instance intr_level_eq_dec : EqDecision intr_level.
Proof. solve_decision. Defined.
#[export] Instance thread_status_eq_dec : EqDecision thread_status.
Proof. solve_decision. Defined.

(** The semaphores of the system, by where they are: free-standing, in a
    lock, on the stack of a thread in [cond_wait], and the three of a
    [struct thread]. *)
Inductive sem :=
  | Sem (a : Z)
  | LockSem (l : Z)
  | WaiterSem (t : Z)
  | WaitSema (t : Z)
  | DestroySema (t : Z)
  | LoadSema (t : Z).

#[export] Instance sem_eq_dec : EqDecision sem.
Proof. solve_decision. Defined.
#[export] Instance sem_countable : Countable sem.
Proof.
  refine (inj_countable'
    (λ s, match s with
          | Sem a => (0, a) | LockSem l => (1, l) | WaiterSem t => (2, t)
          | WaitSema t => (3, t) | DestroySema t => (4, t) | LoadSema t => (5, t)
          end)
    (λ '(n, a), match n with
                | 0 => Sem a | 1 => LockSem a | 2 => WaiterSem a
                | 3 => WaitSema a | 4 => DestroySema a | _ => LoadSema a
                end) _).
  by intros [].
Defined.

Record semaphore := mk_semaphore {
  value : Z;
  waiters : list Z
}.

(** Calls that the code of a thread makes. *)
Inductive op :=
  | OSemaDown (a : Z)
  | OSemaUp (a : Z)
  | OSemaTryDown (a : Z) (yes no : list op)
  | OLockAcquire (l : Z)
  | OLockTryAcquire (l : Z) (yes no : list op)
  | OLockRelease (l : Z)
  | OCondWait (c l : Z)
  | OCondSignal (c l : Z)
  | OCondBroadcast (c l : Z)
  | OYield
  | OSleep (n : Z)
  | OCreate (name : list Z) (priority : Z) (code : list op)
  | OProcessWait (child_tid : Z)
  | OSetPriority (p : Z)
  | OExit.

(** The steps of these calls between which another thread may run. *)
Inductive instr :=
  | SemaDown (s : sem)
  | SemaUp (s : sem)
  | SemaTryDown (s : sem) (then_pc : list instr) (yes no : list op)
  | AssertNotIntr
  | AssertNotHeld (l : Z)
  | SetHolder (l : Z)
  | AssertHeld (l : Z)
  | ClearHolder (l : Z)
  | CondPush (c : Z)
  | CondPop (c : Z)
  | CondLoop (c l : Z)
  | Yield
  | SleepStart (n : Z)
  | SleepCheck (start n : Z)
  | Create (name : list Z) (priority : Z) (code : list op)
  | GetChild (child_tid : Z)
  | ChildReap (child : Z)
  | SetPriority (p : Z)
  | Exit
  | IdleStart
  | IdleLoop.

(** Where a thread that is not running will continue. *)
Inductive resume :=
  | in_sema_down (s : sem) (old_level : intr_level)
  | in_thread_yield (old_level : intr_level)
  | in_intr_handler
  | in_kernel_thread
  | in_idle.

Record thread := mk_thread {
  tid : Z;
  status : thread_status;
  name : list Z;
  stack : Z;
  priority : Z;
  exit_status : Z;
  child_list : list Z;
  pagedir : Z;
  magic : Z;
  frame : resume;
  pc : list instr;
  ops : list op
}.

Definition with_tid (v : Z) (k : thread) : thread :=
  mk_thread v (status k) (name k) (stack k) (priority k) (exit_status k) (child_list k)
    (pagedir k) (magic k) (frame k) (pc k) (ops k).
Definition with_status (v : thread_status) (k : thread) : thread :=
  mk_thread (tid k) v (name k) (stack k) (priority k) (exit_status k) (child_list k) (pagedir k)
    (magic k) (frame k) (pc k) (ops k).
Definition with_stack (v : Z) (k : thread) : thread :=
  mk_thread (tid k) (status k) (name k) v (priority k) (exit_status k) (child_list k)
    (pagedir k) (magic k) (frame k) (pc k) (ops k).
Definition with_priority (v : Z) (k : thread) : thread :=
  mk_thread (tid k) (status k) (name k) (stack k) v (exit_status k) (child_list k) (pagedir k)
    (magic k) (frame k) (pc k) (ops k).
Definition with_child_list (v : list Z) (k : thread) : thread :=
  mk_thread (tid k) (status k) (name k) (stack k) (priority k) (exit_status k) v (pagedir k)
    (magic k) (frame k) (pc k) (ops k).
Definition with_pagedir (v : Z) (k : thread) : thread :=
  mk_thread (tid k) (status k) (name k) (stack k) (priority k) (exit_status k) (child_list k) v
    (magic k) (frame k) (pc k) (ops k).
Definition with_frame (v : resume) (k : thread) : thread :=
  mk_thread (tid k) (status k) (name k) (stack k) (priority k) (exit_status k) (child_list k)
    (pagedir k) (magic k) v (pc k) (ops k).
Definition with_pc (v : list instr) (k : thread) : thread :=
  mk_thread (tid k) (status k) (name k) (stack k) (priority k) (exit_status k) (child_list k)
    (pagedir k) (magic k) (frame k) v (ops k).
Definition with_ops (v : list op) (k : thread) : thread :=
  mk_thread (tid k) (status k) (name k) (stack k) (priority k) (exit_status k) (child_list k)
    (pagedir k) (magic k) (frame k) (pc k) v.

Definition THREAD_MAGIC : Z := 3446325067.
Definition TIME_SLICE : Z := 4.
Definition PRI_MIN : Z := 0.
Definition PRI_DEFAULT : Z := 31.
Definition PRI_MAX : Z := 63.
Definition TID_ERROR : Z := -1.
Definition NULL : Z := 0.

Section kernel.
Context {St : Type} `{PageAllocator St}.

Record kernel := mk_kernel {
  threads : gmap Z thread;
  ready_list : list Z;
  all_list : list Z;
  idle_thread : Z;
  initial_thread : Z;
  next_tid : Z;
  tid_lock : option Z;
  running : Z;
  intr : intr_level;
  in_external_intr : bool;
  yield_on_return : bool;
  thread_ticks : Z;
  idle_ticks : Z;
  kernel_ticks : Z;
  user_ticks : Z;
  ticks : Z;
  semas : gmap sem semaphore;
  holders : gmap Z Z;
  conds : gmap Z (list sem);
  pages : St
}.

Definition set_threads (v : gmap Z thread) (k : kernel) : kernel :=
  mk_kernel v (ready_list k) (all_list k) (idle_thread k) (initial_thread k) (next_tid k)
    (tid_lock k) (running k) (intr k) (in_external_intr k) (yield_on_return k) (thread_ticks k)
    (idle_ticks k) (kernel_ticks k) (user_ticks k) (ticks k) (semas k) (holders k) (conds k)
    (pages k).
Definition set_ready_list (v : list Z) (k : kernel) : kernel :=
  mk_kernel (threads k) v (all_list k) (idle_thread k) (initial_thread k) (next_tid k)
    (tid_lock k) (running k) (intr k) (in_external_intr k) (yield_on_return k) (thread_ticks k)
    (idle_ticks k) (kernel_ticks k) (user_ticks k) (ticks k) (semas k) (holders k) (conds k)
    (pages k).
Definition set_all_list (v : list Z) (k : kernel) : kernel :=
  mk_kernel (threads k) (ready_list k) v (idle_thread k) (initial_thread k) (next_tid k)
    (tid_lock k) (running k) (intr k) (in_external_intr k) (yield_on_return k) (thread_ticks k)
    (idle_ticks k) (kernel_ticks k) (user_ticks k) (ticks k) (semas k) (holders k) (conds k)
    (pages k).
Definition set_idle_thread (v : Z) (k : kernel) : kernel :=
  mk_kernel (threads k) (ready_list k) (all_list k) v (initial_thread k) (next_tid k)
    (tid_lock k) (running k) (intr k) (in_external_intr k) (yield_on_return k) (thread_ticks k)
    (idle_ticks k) (kernel_ticks k) (user_ticks k) (ticks k) (semas k) (holders k) (conds k)
    (pages k).
Definition set_initial_thread (v : Z) (k : kernel) : kernel :=
  mk_kernel (threads k) (ready_list k) (all_list k) (idle_thread k) v (next_tid k)
    (tid_lock k) (running k) (intr k) (in_external_intr k) (yield_on_return k) (thread_ticks k)
    (idle_ticks k) (kernel_ticks k) (user_ticks k) (ticks k) (semas k) (holders k) (conds k)
    (pages k).
Definition set_next_tid (v : Z) (k : kernel) : kernel :=
  mk_kernel (threads k) (ready_list k) (all_list k) (idle_thread k) (initial_thread k) v
    (tid_lock k) (running k) (intr k) (in_external_intr k) (yield_on_return k) (thread_ticks k)
    (idle_ticks k) (kernel_ticks k) (user_ticks k) (ticks k) (semas k) (holders k) (conds k)
    (pages k).
Definition set_tid_lock (v : option Z) (k : kernel) : kernel :=
  mk_kernel (threads k) (ready_list k) (all_list k) (idle_thread k) (initial_thread k)
    (next_tid k) v (running k) (intr k) (in_external_intr k) (yield_on_return k)
    (thread_ticks k) (idle_ticks k) (kernel_ticks k) (user_ticks k) (ticks k) (semas k)
    (holders k) (conds k) (pages k).
Definition set_running (v : Z) (k : kernel) : kernel :=
  mk_kernel (threads k) (ready_list k) (all_list k) (idle_thread k) (initial_thread k)
    (next_tid k) (tid_lock k) v (intr k) (in_external_intr k) (yield_on_return k)
    (thread_ticks k) (idle_ticks k) (kernel_ticks k) (user_ticks k) (ticks k) (semas k)
    (holders k) (conds k) (pages k).
Definition set_intr (v : intr_level) (k : kernel) : kernel :=
  mk_kernel (threads k) (ready_list k) (all_list k) (idle_thread k) (initial_thread k)
    (next_tid k) (tid_lock k) (running k) v (in_external_intr k) (yield_on_return k)
    (thread_ticks k) (idle_ticks k) (kernel_ticks k) (user_ticks k) (ticks k) (semas k)
    (holders k) (conds k) (pages k).
Definition set_in_external_intr (v : bool) (k : kernel) : kernel :=
  mk_kernel (threads k) (ready_list k) (all_list k) (idle_thread k) (initial_thread k)
    (next_tid k) (tid_lock k) (running k) (intr k) v (yield_on_return k) (thread_ticks k)
    (idle_ticks k) (kernel_ticks k) (user_ticks k) (ticks k) (semas k) (holders k) (conds k)
    (pages k).
Definition set_yield_on_return (v : bool) (k : kernel) : kernel :=
  mk_kernel (threads k) (ready_list k) (all_list k) (idle_thread k) (initial_thread k)
    (next_tid k) (tid_lock k) (running k) (intr k) (in_external_intr k) v (thread_ticks k)
    (idle_ticks k) (kernel_ticks k) (user_ticks k) (ticks k) (semas k) (holders k) (conds k)
    (pages k).
Definition set_thread_ticks (v : Z) (k : kernel) : kernel :=
  mk_kernel (threads k) (ready_list k) (all_list k) (idle_thread k) (initial_thread k)
    (next_tid k) (tid_lock k) (running k) (intr k) (in_external_intr k) (yield_on_return k) v
    (idle_ticks k) (kernel_ticks k) (user_ticks k) (ticks k) (semas k) (holders k) (conds k)
    (pages k).
Definition set_idle_ticks (v : Z) (k : kernel) : kernel :=
  mk_kernel (threads k) (ready_list k) (all_list k) (idle_thread k) (initial_thread k)
    (next_tid k) (tid_lock k) (running k) (intr k) (in_external_intr k) (yield_on_return k)
    (thread_ticks k) v (kernel_ticks k) (user_ticks k) (ticks k) (semas k) (holders k) (conds k)
    (pages k).
Definition set_kernel_ticks (v : Z) (k : kernel) : kernel :=
  mk_kernel (threads k) (ready_list k) (all_list k) (idle_thread k) (initial_thread k)
    (next_tid k) (tid_lock k) (running k) (intr k) (in_external_intr k) (yield_on_return k)
    (thread_ticks k) (idle_ticks k) v (user_ticks k) (ticks k) (semas k) (holders k) (conds k)
    (pages k).
Definition set_user_ticks (v : Z) (k : kernel) : kernel :=
  mk_kernel (threads k) (ready_list k) (all_list k) (idle_thread k) (initial_thread k)
    (next_tid k) (tid_lock k) (running k) (intr k) (in_external_intr k) (yield_on_return k)
    (thread_ticks k) (idle_ticks k) (kernel_ticks k) v (ticks k) (semas k) (holders k) (conds k)
    (pages k).
Definition set_ticks (v : Z) (k : kernel) : kernel :=
  mk_kernel (threads k) (ready_list k) (all_list k) (idle_thread k) (initial_thread k)
    (next_tid k) (tid_lock k) (running k) (intr k) (in_external_intr k) (yield_on_return k)
    (thread_ticks k) (idle_ticks k) (kernel_ticks k) (user_ticks k) v (semas k) (holders k)
    (conds k) (pages k).
Definition set_semas (v : gmap sem semaphore) (k : kernel) : kernel :=
  mk_kernel (threads k) (ready_list k) (all_list k) (idle_thread k) (initial_thread k)
    (next_tid k) (tid_lock k) (running k) (intr k) (in_external_intr k) (yield_on_return k)
    (thread_ticks k) (idle_ticks k) (kernel_ticks k) (user_ticks k) (ticks k) v (holders k)
    (conds k) (pages k).
Definition set_holders (v : gmap Z Z) (k : kernel) : kernel :=
  mk_kernel (threads k) (ready_list k) (all_list k) (idle_thread k) (initial_thread k)
    (next_tid k) (tid_lock k) (running k) (intr k) (in_external_intr k) (yield_on_return k)
    (thread_ticks k) (idle_ticks k) (kernel_ticks k) (user_ticks k) (ticks k) (semas k) v
    (conds k) (pages k).
Definition set_conds (v : gmap Z (list sem)) (k : kernel) : kernel :=
  mk_kernel (threads k) (ready_list k) (all_list k) (idle_thread k) (initial_thread k)
    (next_tid k) (tid_lock k) (running k) (intr k) (in_external_intr k) (yield_on_return k)
    (thread_ticks k) (idle_ticks k) (kernel_ticks k) (user_ticks k) (ticks k) (semas k)
    (holders k) v (pages k).
Definition set_pages (v : St) (k : kernel) : kernel :=
  mk_kernel (threads k) (ready_list k) (all_list k) (idle_thread k) (initial_thread k)
    (next_tid k) (tid_lock k) (running k) (intr k) (in_external_intr k) (yield_on_return k)
    (thread_ticks k) (idle_ticks k) (kernel_ticks k) (user_ticks k) (ticks k) (semas k)
    (holders k) (conds k) v.

(** The data of a thread; memory that is not a live [struct thread] cannot be
    read as one. *)
Definition get_thread (t : Z) : M kernel thread := λ k,
  match threads k !! t with Some th => Ok (th, k) | None => Err Fault end.
Definition set_thread (t : Z) (f : thread → thread) : M kernel unit := λ k,
  match threads k !! t with
  | Some th => Ok (tt, set_threads (<[t := f th]> (threads k)) k)
  | None => Err Fault
  end.

(** ** Lists of threads *)

(** The page of [t] has been freed while its element is in the list [l]. *)
Definition forget (t : Z) (l : list Z) : list Z := (λ u, if u =? t then NULL else u) <$> l.
Definition forget_child (t : Z) (th : thread) : thread := with_child_list (forget t (child_list th)) th.

(** The element of a thread is accessed, or the head or tail of the list, which
    is always there. *)
Definition touch (e : option Z) : M kernel unit :=
  match e with Some t => get_thread t ;; mret tt | None => mret tt end.
(** [list_push_back] writes to the element that was the last one, and
    [list_remove] to both neighbours. *)
Definition thread_list_push_back (l : list Z) (t : Z) : M kernel (list Z) := touch (last l) ;; mret (l ++ [t]).
Definition thread_list_remove (l : list Z) (t : Z) : M kernel (list Z) :=
  match list_find (t =.) l with
  | Some (i, _) => touch (match i with O => None | S j => l !! j end) ;; touch (l !! S i) ;; mret (delete i l)
  | None => fail Fault
  end.

(** ** threads/interrupt.c *)

Definition intr_get_level : M kernel intr_level := gets intr.
Definition intr_context : M kernel bool := gets in_external_intr.

Definition intr_enable : M kernel intr_level :=
  old_level ← intr_get_level;
  c ← intr_context;
  ASSERT (negb c) ;;
  modify (set_intr INTR_ON) ;;
  mret old_level.

Definition intr_disable : M kernel intr_level :=
  old_level ← intr_get_level;
  modify (set_intr INTR_OFF) ;;
  mret old_level.

Definition intr_set_level (level : intr_level) : M kernel intr_level :=
  match level with INTR_ON => intr_enable | INTR_OFF => intr_disable end.

Definition intr_yield_on_return : M kernel unit :=
  c ← intr_context;
  ASSERT c ;;
  modify (set_yield_on_return true).

(** ** threads/thread.c *)

(** The stack pointer of the processor is in the page of [running]. *)
Definition running_thread : M kernel Z := gets running.

Definition is_thread (t : Z) : M kernel bool := λ k,
  if t =? NULL then Ok (false, k)
  else match threads k !! t with
       | Some th => Ok (magic th =? THREAD_MAGIC, k)
       | None => Ok (false, k)
       end.

Definition thread_current : M kernel Z :=
  t ← running_thread;
  b ← is_thread t;
  ASSERT b ;;
  th ← get_thread t;
  ASSERT (bool_decide (status th = THREAD_RUNNING)) ;;
  mret t.

Definition sema_init (s : sem) (v : Z) : M kernel unit :=
  modify (λ k, set_semas (<[s := mk_semaphore v []]> (semas k)) k).

(** [memset] clears the structure; [strlcpy] keeps 15 characters. *)
Definition init_thread (t : Z) (nm : list Z) (prio : Z) (code : list op) : M kernel unit :=
  ASSERT (negb (t =? NULL)) ;;
  ASSERT ((PRI_MIN <=? prio) && (prio <=? PRI_MAX)) ;;
  modify (λ k, set_threads (<[t := mk_thread 0 THREAD_BLOCKED (take 15 nm) (u32 (t + Vaddr.PGSIZE)) prio
                                   0 [] NULL THREAD_MAGIC in_kernel_thread [] code]> (threads k)) k) ;;
  sema_init (WaitSema t) 0 ;;
  sema_init (DestroySema t) 0 ;;
  sema_init (LoadSema t) 0 ;;
  old_level ← intr_disable;
  l ← gets all_list;
  l ← thread_list_push_back l t;
  modify (set_all_list l) ;;
  intr_set_level old_level ;;
  mret tt.

Definition allocate_tid : M kernel Z :=
  cur ← running_thread;
  zoom tid_lock set_tid_lock (lock_acquire cur) ;;
  t ← gets next_tid;
  modify (λ k, set_next_tid (s32 (next_tid k + 1)) k) ;;
  zoom tid_lock set_tid_lock (lock_release cur) ;;
  mret t.

Definition alloc_frame (t size : Z) : M kernel Z :=
  b ← is_thread t;
  ASSERT b ;;
  ASSERT (size mod 4 =? 0) ;;
  set_thread t (λ th, with_stack (u32 (stack th - size)) th) ;;
  th ← get_thread t;
  mret (stack th).

Definition thread_unblock (t : Z) : M kernel unit :=
  b ← is_thread t;
  ASSERT b ;;
  old_level ← intr_disable;
  th ← get_thread t;
  ASSERT (bool_decide (status th = THREAD_BLOCKED)) ;;
  modify (λ k, set_ready_list (ready_list k ++ [t]) k) ;;
  set_thread t (with_status THREAD_READY) ;;
  intr_set_level old_level ;;
  mret tt.

Definition next_thread_to_run : M kernel Z :=
  k ← get;
  match ready_list k with
  | [] => mret (idle_thread k)
  | t :: ts => modify (set_ready_list ts) ;; mret t
  end.

(** The page of a dead thread takes its semaphores and its elements with it. *)
Definition palloc_free_page (t : Z) : M kernel unit := λ k,
  match pa_free t (pages k) with
  | Err e => Err e
  | Ok (_, s) =>
      Ok (tt, set_pages s (set_threads (forget_child t <$> delete t (threads k))
                (set_all_list (forget t (all_list k))
                  (set_semas (delete (WaitSema t) (delete (DestroySema t) (delete (LoadSema t)
                     (semas k)))) k))))
  end.

Definition thread_schedule_tail (prev : Z) : M kernel unit :=
  cur ← running_thread;
  l ← intr_get_level;
  ASSERT (bool_decide (l = INTR_OFF)) ;;
  set_thread cur (with_status THREAD_RUNNING) ;;
  modify (set_thread_ticks 0) ;;
  thread_current ;;
  if prev =? NULL then mret tt
  else
    p ← get_thread prev;
    initial ← gets initial_thread;
    if bool_decide (status p = THREAD_DYING) && negb (prev =? initial) then
      ASSERT (negb (prev =? cur)) ;; palloc_free_page prev
    else mret tt.

Definition schedule : M kernel unit :=
  cur ← running_thread;
  next ← next_thread_to_run;
  l ← intr_get_level;
  ASSERT (bool_decide (l = INTR_OFF)) ;;
  c ← get_thread cur;
  ASSERT (negb (bool_decide (status c = THREAD_RUNNING))) ;;
  b ← is_thread next;
  ASSERT b ;;
  if negb (cur =? next) then modify (set_running next) ;; thread_schedule_tail cur
  else thread_schedule_tail NULL.

(** [fr] is where the thread continues when it is unblocked. *)
Definition thread_block (fr : resume) : M kernel unit :=
  c ← intr_context;
  ASSERT (negb c) ;;
  l ← intr_get_level;
  ASSERT (bool_decide (l = INTR_OFF)) ;;
  t ← thread_current;
  set_thread t (λ th, with_frame fr (with_status THREAD_BLOCKED th)) ;;
  schedule.

Definition thread_yield (fr : intr_level → resume) : M kernel unit :=
  cur ← thread_current;
  c ← intr_context;
  ASSERT (negb c) ;;
  old_level ← intr_disable;
  idle ← gets idle_thread;
  (if negb (cur =? idle) then modify (λ k, set_ready_list (ready_list k ++ [cur]) k)
   else mret tt) ;;
  set_thread cur (λ th, with_frame (fr old_level) (with_status THREAD_READY th)) ;;
  schedule.

(** [process_exit] clears [pagedir]; the page directory itself belongs to
    userprog/pagedir.c. *)
Definition process_exit : M kernel unit :=
  cur ← thread_current;
  set_thread cur (with_pagedir NULL).

Definition thread_exit : M kernel unit :=
  c ← intr_context;
  ASSERT (negb c) ;;
  process_exit ;;
  intr_disable ;;
  t ← thread_current;
  l ← gets all_list;
  l ← thread_list_remove l t;
  modify (set_all_list l) ;;
  set_thread t (with_status THREAD_DYING) ;;
  schedule.

Definition thread_create (nm : list Z) (prio : Z) (code : list op) : M kernel Z :=
  t ← zoom pages set_pages (pa_get 1);
  if t =? NULL then mret TID_ERROR
  else
    init_thread t nm prio code ;;
    id ← allocate_tid;
    set_thread t (with_tid id) ;;
    fd_table ← zoom pages set_pages (pa_get 2);
    if fd_table =? NULL then palloc_free_page t ;; mret TID_ERROR
    else
      cur ← thread_current;
      c ← get_thread cur;
      l ← thread_list_push_back (child_list c) t;
      set_thread cur (with_child_list l) ;;
      alloc_frame t 12 ;;
      alloc_frame t 4 ;;
      alloc_frame t 28 ;;
      thread_unblock t ;;
      mret id.

(** [None] if there is no such child.  A child that has died is not taken out of
    the list: the loop comes to its element. *)
Definition thread_get_child (child_tid : Z) : M kernel (option Z) :=
  cur ← thread_current;
  c ← get_thread cur;
  (fix find (cs : list Z) : M kernel (option Z) :=
     match cs with
     | [] => mret None
     | t :: cs => th ← get_thread t; if tid th =? child_tid then mret (Some t) else find cs
     end) (child_list c).

Definition thread_set_priority (new_priority : Z) : M kernel unit :=
  t ← thread_current; set_thread t (with_priority new_priority).

Definition thread_tick : M kernel unit :=
  t ← thread_current;
  th ← get_thread t;
  idle ← gets idle_thread;
  (if t =? idle then modify (λ k, set_idle_ticks (s64 (idle_ticks k + 1)) k)
   else if negb (pagedir th =? NULL) then modify (λ k, set_user_ticks (s64 (user_ticks k + 1)) k)
   else modify (λ k, set_kernel_ticks (s64 (kernel_ticks k + 1)) k)) ;;
  modify (λ k, set_thread_ticks (u32 (thread_ticks k + 1)) k) ;;
  n ← gets thread_ticks;
  if TIME_SLICE <=? n then intr_yield_on_return else mret tt.

Definition thread_name : M kernel (list Z) :=
  t ← thread_current; th ← get_thread t; mret (name th).
Definition thread_tid : M kernel Z :=
  t ← thread_current; th ← get_thread t; mret (tid th).
Definition thread_get_priority : M kernel Z :=
  t ← thread_current; th ← get_thread t; mret (priority th).

(** Not yet implemented, says the source. *)
Definition thread_set_nice (nice : Z) : M kernel unit := mret tt.
Definition thread_get_nice : M kernel Z := mret 0.
Definition thread_get_load_avg : M kernel Z := mret 0.
Definition thread_get_recent_cpu : M kernel Z := mret 0.

Fixpoint foreach (ts : list Z) (func : Z → M kernel unit) : M kernel unit :=
  match ts with [] => mret tt | t :: ts => func t ;; touch (Some t) ;; foreach ts func end.
Definition thread_foreach (func : Z → M kernel unit) : M kernel unit :=
  l ← intr_get_level;
  ASSERT (bool_decide (l = INTR_OFF)) ;;
  ts ← gets all_list;
  foreach ts func.

(** The code that is running becomes the thread "main". *)
Definition thread_init (code : list op) : M kernel unit :=
  l ← intr_get_level;
  ASSERT (bool_decide (l = INTR_OFF)) ;;
  modify (set_tid_lock None) ;;
  modify (set_ready_list []) ;;
  modify (set_all_list []) ;;
  t ← running_thread;
  modify (set_initial_thread t) ;;
  init_thread t [109; 97; 105; 110] PRI_DEFAULT code ;;
  set_thread t (with_status THREAD_RUNNING) ;;
  id ← allocate_tid;
  set_thread t (with_tid id).

(** ** devices/timer.c *)

Definition timer_interrupt : M kernel unit :=
  modify (λ k, set_ticks (s64 (ticks k + 1)) k) ;;
  thread_tick.

(** [intr_handler] for vector 0x20.  Entering the gate turns interrupts off
    and the return from the interrupt turns them on again: the processor
    takes an interrupt only when they are on. *)
Definition intr_handler_timer : M kernel unit :=
  modify (set_intr INTR_OFF) ;;
  l ← intr_get_level;
  ASSERT (bool_decide (l = INTR_OFF)) ;;
  c ← intr_context;
  ASSERT (negb c) ;;
  modify (set_in_external_intr true) ;;
  modify (set_yield_on_return false) ;;
  timer_interrupt ;;
  l ← intr_get_level;
  ASSERT (bool_decide (l = INTR_OFF)) ;;
  c ← intr_context;
  ASSERT c ;;
  modify (set_in_external_intr false) ;;
  y ← gets yield_on_return;
  if y : bool then thread_yield (λ _, in_intr_handler) else modify (set_intr INTR_ON).

End kernel.
End Thread.
