(* ===== verification/Synch.v ===== *)
(** * Synchronisation: threads/synch.c

    Semaphores, locks and condition variables on top of the scheduler, and
    the machine that runs threads which use them: one step of the running
    thread, the continuation of a thread that has just been switched to, or a
    timer interrupt.  Code that runs with interrupts off is one step; between
    any two steps of [lock_acquire], [lock_release], [cond_wait] and the like
    another thread may run.

    [thread_create] is one step as well, although it runs with interrupts on.
    No other thread sees a part of it: until its last call, [thread_unblock],
    the new thread is blocked and in no queue; the pages and the thread
    identifiers are behind locks of their own; the list of children is the
    running thread's; and only [thread_foreach], which no
    step of the machine calls, reads [all_list].  A thread that dies meanwhile
    takes its own element out of [all_list] with interrupts off. *)
From stdpp Require Import base gmap list.
From Stdlib Require Import ZArith Lia.
From S2P Require Import Prelude Vaddr Thread.

Module Synch.
Import Thread.

Section synch.
Context {St : Type} `{PageAllocator St}.
Local Abbreviation kernel := (@Thread.kernel St).

(** ** Semaphores *)

Definition get_sem (s : sem) : M kernel semaphore := λ k,
  match semas k !! s with Some sm => Ok (sm, k) | None => Err Fault end.
Definition set_sem (s : sem) (sm : semaphore) : M kernel unit :=
  modify (λ k, set_semas (<[s := sm]> (semas k)) k).

(** The loop of [sema_down], from its test on; the result tells whether the
    call has finished, as opposed to the thread having gone to sleep. *)
Definition sema_loop (s : sem) (old_level : intr_level) : M kernel bool :=
  sm ← get_sem s;
  if value sm =? 0 then
    t ← thread_current;
    set_sem s (mk_semaphore (value sm) (waiters sm ++ [t])) ;;
    thread_block (in_sema_down s old_level) ;;
    mret false
  else
    set_sem s (mk_semaphore (value sm - 1) (waiters sm)) ;;
    intr_set_level old_level ;;
    mret true.

Definition sema_down (s : sem) : M kernel bool :=
  c ← intr_context;
  ASSERT (negb c) ;;
  old_level ← intr_disable;
  sema_loop s old_level.

Definition sema_try_down (s : sem) : M kernel bool :=
  old_level ← intr_disable;
  sm ← get_sem s;
  if 0 <? value sm then
    set_sem s (mk_semaphore (value sm - 1) (waiters sm)) ;;
    intr_set_level old_level ;;
    mret true
  else intr_set_level old_level ;; mret false.

Definition sema_up (s : sem) : M kernel unit :=
  old_level ← intr_disable;
  sm ← get_sem s;
  match waiters sm with
  | [] => mret tt
  | t :: ts => set_sem s (mk_semaphore (value sm) ts) ;; thread_unblock t
  end ;;
  sm ← get_sem s;
  set_sem s (mk_semaphore (u32 (value sm + 1)) (waiters sm)) ;;
  intr_set_level old_level ;;
  mret tt.

(** ** Locks and condition variables *)

Definition lock_init (l : Z) : M kernel unit :=
  modify (λ k, set_holders (<[l := NULL]> (holders k)) k) ;;
  sema_init (LockSem l) 1.

Definition lock_held_by_current_thread (l : Z) : M kernel bool := λ k,
  match holders k !! l with
  | None => Err Fault
  | Some h => (t ← thread_current; mret (h =? t)) k
  end.

Definition cond_init (c : Z) : M kernel unit :=
  modify (λ k, set_conds (<[c := []]> (conds k)) k).

Definition lock_acquire (l : Z) : list instr :=
  [AssertNotIntr; AssertNotHeld l; SemaDown (LockSem l); SetHolder l].
Definition lock_release (l : Z) : list instr := [AssertHeld l; ClearHolder l; SemaUp (LockSem l)].
Definition lock_try_acquire (l : Z) (yes no : list op) : list instr :=
  [AssertNotHeld l; SemaTryDown (LockSem l) [SetHolder l] yes no].
Definition cond_wait (t c l : Z) : list instr :=
  [AssertNotIntr; AssertHeld l; CondPush c] ++ lock_release l ++ [SemaDown (WaiterSem t)] ++ lock_acquire l.
Definition cond_signal (c l : Z) : list instr := [AssertNotIntr; AssertHeld l; CondPop c].
Definition cond_broadcast (c l : Z) : list instr := [CondLoop c l].

(** The steps after the child has been found, or not, are in [exec_instr]:
    [GetChild] looks the child up and goes on with [sema_down], [ChildReap]
    and [sema_up] if there is one. *)
Definition process_wait (child_tid : Z) : list instr := [GetChild child_tid].

(** The steps of a call made by thread [t]. *)
Definition compile (t : Z) (o : op) : list instr :=
  match o with
  | OSemaDown a => [SemaDown (Sem a)]
  | OSemaUp a => [SemaUp (Sem a)]
  | OSemaTryDown a yes no => [SemaTryDown (Sem a) [] yes no]
  | OLockAcquire l => lock_acquire l
  | OLockTryAcquire l yes no => lock_try_acquire l yes no
  | OLockRelease l => lock_release l
  | OCondWait c l => cond_wait t c l
  | OCondSignal c l => cond_signal c l
  | OCondBroadcast c l => cond_broadcast c l
  | OYield => [Yield]
  | OSleep n => [SleepStart n]
  | OCreate nm p code => [Create nm p code]
  | OProcessWait id => process_wait id
  | OSetPriority p => [SetPriority p]
  | OExit => [Exit]
  end.

(** ** The machine *)

(** The step of [t] at the head of its [pc] is done; it continues with
    [js]. *)
Definition advance (t : Z) (js : list instr) : M kernel unit :=
  set_thread t (λ th, with_pc (js ++ tl (pc th)) th).

Definition exec_instr (i : instr) : M kernel unit :=
  t ← running_thread;
  match i with
  | SemaDown s => d ← sema_down s; if d : bool then advance t [] else mret tt
  | SemaUp s => sema_up s ;; advance t []
  | SemaTryDown s then_pc yes no =>
      b ← sema_try_down s;
      advance t (if b : bool then then_pc else []) ;;
      set_thread t (λ th, with_ops ((if b : bool then yes else no) ++ ops th) th)
  | AssertNotIntr =>
      c ← intr_context;
      ASSERT (negb c) ;;
      advance t []
  | AssertNotHeld l =>
      b ← lock_held_by_current_thread l;
      ASSERT (negb b) ;;
      advance t []
  | SetHolder l =>
      cur ← thread_current;
      modify (λ k, set_holders (<[l := cur]> (holders k)) k) ;;
      advance t []
  | AssertHeld l =>
      b ← lock_held_by_current_thread l;
      ASSERT b ;;
      advance t []
  | ClearHolder l =>
      modify (λ k, set_holders (<[l := NULL]> (holders k)) k) ;;
      advance t []
  | CondPush c =>
      cs ← gets conds;
      ws ← of_option Fault (cs !! c);
      sema_init (WaiterSem t) 0 ;;
      modify (λ k, set_conds (<[c := ws ++ [WaiterSem t]]> (conds k)) k) ;;
      advance t []
  | CondPop c =>
      cs ← gets conds;
      match cs !! c with
      | Some (w :: ws) =>
          modify (λ k, set_conds (<[c := ws]> (conds k)) k) ;;
          advance t [SemaUp w]
      | Some [] => advance t []
      | None => fail Fault
      end
  | CondLoop c l =>
      cs ← gets conds;
      match cs !! c with
      | Some (w :: ws) => advance t (cond_signal c l ++ [CondLoop c l])
      | Some [] => advance t []
      | None => fail Fault
      end
  | Yield => advance t [] ;; thread_yield in_thread_yield
  | SleepStart n =>
      start ← gets ticks;
      l ← intr_get_level;
      ASSERT (bool_decide (l = INTR_ON)) ;;
      advance t [SleepCheck start n]
  | SleepCheck start n =>
      now ← gets ticks;
      if s64 (now - start) <? n then thread_yield in_thread_yield else advance t []
  | Create nm p code => thread_create nm p code ;; advance t []
  | GetChild id =>
      c ← thread_get_child id;
      match c with
      | None => advance t []
      | Some c => advance t [SemaDown (WaitSema c); ChildReap c]
      end
  | ChildReap c =>
      get_thread c ;;
      cur ← get_thread t;
      l ← thread_list_remove (child_list cur) c;
      set_thread t (with_child_list l) ;;
      advance t [SemaUp (DestroySema c)]
  | SetPriority p => thread_set_priority p ;; advance t []
  | Exit => thread_exit
  | IdleStart =>
      cur ← thread_current;
      modify (set_idle_thread cur) ;;
      advance t []
  | IdleLoop => intr_disable ;; thread_block in_idle
  end.

(** The running thread, with interrupts on.  A thread whose function has
    returned exits, as [kernel_thread] says. *)
Definition run_thread : M kernel unit :=
  t ← running_thread;
  th ← get_thread t;
  match pc th with
  | i :: _ => exec_instr i
  | [] =>
      match ops th with
      | o :: os => set_thread t (λ th, with_pc (compile t o) (with_ops os th))
      | [] => thread_exit
      end
  end.

(** The thread that [schedule] has switched to continues where it was,
    with interrupts off. *)
Definition resume_thread : M kernel unit :=
  t ← running_thread;
  th ← get_thread t;
  match frame th with
  | in_sema_down s old_level => d ← sema_loop s old_level; if d : bool then advance t [] else mret tt
  | in_thread_yield old_level => intr_set_level old_level ;; mret tt
  | in_intr_handler => intr_set_level INTR_OFF ;; modify (set_intr INTR_ON)
  | in_kernel_thread => intr_enable ;; mret tt
  | in_idle => modify (set_intr INTR_ON)
  end.

Inductive kstep (k k' : kernel) : Prop :=
  | kstep_run : intr k = INTR_ON → run_thread k = Ok (tt, k') → kstep k k'
  | kstep_resume : intr k = INTR_OFF → resume_thread k = Ok (tt, k') → kstep k k'
  | kstep_timer : intr k = INTR_ON → intr_handler_timer k = Ok (tt, k') → kstep k k'.

End synch.
End Synch.
