(* ===== verification/Scheduler.v ===== *)
(** * The scheduler and synchronisation: invariants

    The invariant of threads/thread.c and threads/synch.c under every
    interleaving of threads and timer interrupts, and what follows from it:
    locks exclude, the scheduler's assertions hold, no thread is lost. *)
From stdpp Require Import base gmap list.
From Stdlib Require Import ZArith Lia.
From S2P Require Import Prelude Vaddr Thread Synch.

Module Scheduler.
Import Thread Synch.

Section invariant.
Context {St : Type} `{PageAllocator St}.
Local Abbreviation kernel := (@Thread.kernel St).
Implicit Types k : kernel.
#[local] Arguments intr_set_level : simpl never.

(** ** What a thread may be about to do *)

(** Steps that are not the second half of something. *)
Definition plain (i : instr) : Prop :=
  match i with
  | SetHolder _ | SemaUp (LockSem _) | ClearHolder _ | IdleStart | IdleLoop => False
  | _ => True
  end.

(** [j] may come right after [i]. *)
Definition follows (i j : instr) : Prop :=
  match i with
  | SemaDown (LockSem l) => j = SetHolder l
  | ClearHolder l => j = SemaUp (LockSem l)
  | AssertHeld l => j = ClearHolder l ∨ plain j
  | _ => plain j
  end.

(** The semaphores of a [struct thread] go away with the thread, the others
    stay. *)
Definition durable (s : sem) : Prop :=
  match s with Sem _ | LockSem _ | WaiterSem _ => True | _ => False end.

Definition instr_ok (i : instr) : Prop :=
  match i with
  | SemaDown s => durable s ∨ ∃ t, s = WaitSema t
  | SemaUp s => durable s ∨ ∃ t, s = DestroySema t
  | SemaTryDown (LockSem l) then_pc _ _ => then_pc = [SetHolder l]
  | SemaTryDown _ then_pc _ _ => then_pc = []
  | IdleStart | IdleLoop => False
  | _ => True
  end.

Definition may_end (i : instr) : Prop :=
  match i with SemaDown (LockSem _) | ClearHolder _ => False | _ => True end.

Fixpoint pc_ok (p : list instr) : Prop :=
  match p with
  | [] => True
  | i :: p' => instr_ok i ∧ match p' with [] => may_end i | j :: _ => follows i j end ∧ pc_ok p'
  end.

(** The idle thread only has its loop left, after reporting that it has
    started. *)
Definition pc_idle (p : list instr) : Prop :=
  p = [IdleLoop] ∨ ∃ a, p = [SemaUp (Sem a); IdleLoop].

(** The thread has taken the semaphore of [l] but has not become its holder
    yet, or it is the holder no more but has not given the semaphore back. *)
Definition owns (l : Z) (p : list instr) : bool :=
  match p with
  | SetHolder l' :: _ | SemaUp (LockSem l') :: _ => l =? l'
  | _ => false
  end.
Definition own k (l t : Z) : Prop := ∃ th, threads k !! t = Some th ∧ owns l (pc th) = true.

(** ** The invariant *)

(** A suspended thread will run with interrupts on. *)
Definition level_ok (f : resume) : Prop :=
  match f with in_sema_down _ old | in_thread_yield old => old = INTR_ON | _ => True end.

(** What holds whenever interrupts could be on, and also inside the
    scheduler. *)
Record base k : Prop := {
  b_thread t th : threads k !! t = Some th → 0 < t ∧ magic th = THREAD_MAGIC;
  b_ready_nodup : NoDup (ready_list k);
  b_ready t : t ∈ ready_list k → ∃ th, threads k !! t = Some th ∧ status th = THREAD_READY;
  b_ready_all t th : threads k !! t = Some th → status th = THREAD_READY → t ≠ idle_thread k →
    t ∈ ready_list k;
  b_sem s sm : semas k !! s = Some sm → 0 ≤ value sm < 2^32 ∧ NoDup (waiters sm);
  b_waiter s sm t : semas k !! s = Some sm → t ∈ waiters sm →
    ∃ th old, threads k !! t = Some th ∧ status th = THREAD_BLOCKED ∧ frame th = in_sema_down s old;
  b_frame t th s old : threads k !! t = Some th →
    status th = THREAD_BLOCKED ∨ status th = THREAD_READY →
    frame th = in_sema_down s old → hd_error (pc th) = Some (SemaDown s);
  b_woken t th s old : threads k !! t = Some th → status th = THREAD_READY →
    frame th = in_sema_down s old → durable s ∧ is_Some (semas k !! s);
  b_level t th : threads k !! t = Some th → level_ok (frame th);
  b_idle : ∃ th, threads k !! idle_thread k = Some th ∧ status th ≠ THREAD_DYING ∧ pc_idle (pc th);
  b_code t th : threads k !! t = Some th → t ≠ idle_thread k → pc_ok (pc th);
  b_cond c ws w : conds k !! c = Some ws → w ∈ ws → ∃ t, w = WaiterSem t;
  b_pages : pa_inv (pages k) ∧ ¬ pa_managed (pages k) (initial_thread k);
  b_used t th : threads k !! t = Some th → t ≠ initial_thread k → pa_used (pages k) t;
  b_all t th : threads k !! t = Some th → status th ≠ THREAD_DYING → t ∈ all_list k;
  b_context : in_external_intr k = false;
  b_tid_lock : tid_lock k = None;
  b_child t th c : threads k !! t = Some th → c ∈ child_list th → c = NULL ∨ is_Some (threads k !! c);
  b_listed c : c ∈ all_list k → c = NULL ∨ is_Some (threads k !! c)
}.

(** Between two steps: exactly one thread runs, and only the initial thread
    and [d] may be dead. *)
Record inv_at (d : Z) k : Prop := {
  i_base : base k;
  i_cur : ∃ th, threads k !! running k = Some th ∧ status th = THREAD_RUNNING;
  i_unique t th : threads k !! t = Some th → status th = THREAD_RUNNING → t = running k;
  i_dying t th : threads k !! t = Some th → status th = THREAD_DYING → t = initial_thread k ∨ t = d;
  i_frame th s old : intr k = INTR_OFF → threads k !! running k = Some th →
    frame th = in_sema_down s old →
    hd_error (pc th) = Some (SemaDown s) ∧ durable s ∧ is_Some (semas k !! s)
}.
Definition inv k : Prop := inv_at (initial_thread k) k.

(** When [schedule] is called: the running thread has given up its state. *)
Record pre_schedule k : Prop := {
  p_base : base k;
  p_cur : is_Some (threads k !! running k);
  p_none t th : threads k !! t = Some th → status th ≠ THREAD_RUNNING;
  p_dying t th : threads k !! t = Some th → status th = THREAD_DYING →
    t = initial_thread k ∨ t = running k;
  p_off : intr k = INTR_OFF
}.

(** The state of a lock with holder [h] whose semaphore has the value [v]: the
    semaphore is free, or the lock has a holder, or exactly one thread is
    between the two. *)
Definition lock_state k (l h v : Z) : Prop :=
  (v = 1 ∧ h = NULL ∧ ∀ t, ¬ own k l t)
  ∨ (v = 0 ∧ h ≠ NULL ∧ ∀ t, ¬ own k l t)
  ∨ (v = 0 ∧ h = NULL ∧ ∃ t, own k l t ∧ ∀ t', own k l t' → t' = t).

Record lock_inv k : Prop := {
  l_state l h : holders k !! l = Some h →
    ∃ sm, semas k !! LockSem l = Some sm ∧ lock_state k l h (value sm);
  l_sem l : is_Some (semas k !! LockSem l) → is_Some (holders k !! l);
  l_own l t : own k l t → is_Some (holders k !! l);
  l_clear l t th p : threads k !! t = Some th → pc th = ClearHolder l :: p → holders k !! l = Some t
}.

(** ** The scheduler *)

Definition cur_ok k : Prop :=
  ∃ th, threads k !! running k = Some th ∧ 0 < running k ∧ magic th = THREAD_MAGIC
    ∧ status th = THREAD_RUNNING.

Lemma inv_cur_ok d k : inv_at d k → cur_ok k.
Proof.
  intros Hi. destruct (i_cur _ _ Hi) as (th & Hth & Hst).
  destruct (b_thread _ (i_base _ _ Hi) _ _ Hth). by exists th.
Qed.

Lemma is_thread_run k t th :
  threads k !! t = Some th → 0 < t → magic th = THREAD_MAGIC → is_thread t k = Ok (true, k).
Proof.
  intros Hth Ht Hm. unfold is_thread. rewrite (proj2 (Z.eqb_neq t NULL)) by (unfold NULL; lia).
  by rewrite Hth, Hm.
Qed.

Lemma thread_current_run k : cur_ok k → thread_current k = Ok (running k, k).
Proof.
  intros (th & Hth & Hpos & Hm & Hst).
  unfold thread_current, mbind, M_bind, running_thread, gets, get_thread.
  rewrite (is_thread_run k _ th) by done. simpl. rewrite Hth. unfold ASSERT.
  by rewrite bool_decide_eq_true_2.
Qed.

(** The thread that [next_thread_to_run] chooses. *)
Definition next k : Z := hd (idle_thread k) (ready_list k).

Lemma next_run k : next_thread_to_run k = Ok (next k, set_ready_list (tl (ready_list k)) k).
Proof.
  unfold next_thread_to_run, next, mbind, M_bind, get, modify, mret, M_ret. destruct k as [? rl]; simpl.
  by destruct rl.
Qed.

Lemma next_live k :
  pre_schedule k →
  ∃ th, threads k !! next k = Some th ∧ 0 < next k ∧ magic th = THREAD_MAGIC
    ∧ status th ≠ THREAD_DYING
    ∧ (status th = THREAD_READY ∨ next k = idle_thread k ∧ pc_idle (pc th)).
Proof.
  intros [Hb _ _ _ _]. unfold next. destruct (ready_list k) as [|t ts] eqn:E; simpl.
  - destruct (b_idle _ Hb) as (th & Hth & Hst & Hpc). destruct (b_thread _ Hb _ _ Hth).
    exists th. split_and!; [done..|]. by right.
  - destruct (b_ready _ Hb t) as (th & Hth & Hst); [rewrite E; by left|].
    destruct (b_thread _ Hb _ _ Hth). exists th. split_and!; [done..| |by left]. by rewrite Hst.
Qed.

(** The state after [switch_threads] to [t], whose data are [th], with
    [t] marked as running. *)
Definition switched k (t : Z) (th : thread) : kernel :=
  set_thread_ticks 0 (set_threads (<[t := with_status THREAD_RUNNING th]> (threads k))
    (set_running t (set_ready_list (tl (ready_list k)) k))).

(** The state after the page of [t] has been freed. *)
Definition freed (s : St) (t : Z) k : kernel :=
  set_pages s (set_threads (forget_child t <$> delete t (threads k)) (set_all_list (forget t (all_list k))
    (set_semas (delete (WaitSema t) (delete (DestroySema t) (delete (LoadSema t) (semas k)))) k))).
Lemma freed_lookup_ne s d k t : t ≠ d → threads (freed s d k) !! t = forget_child d <$> threads k !! t.
Proof. intros Hne. unfold freed; simpl. by rewrite lookup_fmap, lookup_delete_ne. Qed.
Lemma freed_lookup s d k t th :
  threads (freed s d k) !! t = Some th → ∃ th0, threads k !! t = Some th0 ∧ t ≠ d ∧ th = forget_child d th0.
Proof.
  unfold freed; simpl. rewrite lookup_fmap. intros (th0 & [Hne Ht]%lookup_delete_Some & ->)%fmap_Some. eauto.
Qed.
Lemma elem_of_forget t l u : u ∈ forget t l ↔ u = NULL ∧ t ∈ l ∨ u ≠ t ∧ u ∈ l.
Proof.
  unfold forget. rewrite list_elem_of_fmap. split.
  - intros (v & -> & Hin). destruct (Z.eqb_spec v t) as [->|]; [by left | by right].
  - intros [[-> Hin]|[Hne Hin]]; [exists t; by rewrite Z.eqb_refl|]. exists u. by rewrite (proj2 (Z.eqb_neq u t)).
Qed.
Lemma forget_not_in t l : t ∉ l → forget t l = l.
Proof.
  unfold forget. induction l as [|u l IH]; [done|]. intros [Hne Hin]%not_elem_of_cons. rewrite fmap_cons, IH by done.
  by rewrite (proj2 (Z.eqb_neq u t)).
Qed.

Lemma schedule_tail_run k t th c cur :
  threads k !! t = Some th → 0 < t → magic th = THREAD_MAGIC → intr k = INTR_OFF → running k = t →
  (cur = NULL ∨ 0 < cur ∧ cur ≠ t ∧ threads k !! cur = Some c) →
  let k1 := set_thread_ticks 0 (set_threads (<[t := with_status THREAD_RUNNING th]> (threads k)) k) in
  thread_schedule_tail cur k =
    if decide (cur ≠ NULL ∧ status c = THREAD_DYING ∧ cur ≠ initial_thread k)
    then palloc_free_page cur k1 else Ok (tt, k1).
Proof.
  intros Hth Ht Hm Hoff Hrun Hcur k1.
  unfold thread_schedule_tail, running_thread, intr_get_level, gets, ASSERT, set_thread, modify, mbind, M_bind.
  rewrite Hoff, Hrun. simpl. rewrite Hth. fold k1.
  rewrite thread_current_run.
  2: { exists (with_status THREAD_RUNNING th). simpl. rewrite Hrun. by rewrite lookup_insert_eq. }
  destruct Hcur as [->|(Hpos & Hne & Hc)].
  { rewrite decide_False by tauto. done. }
  rewrite (proj2 (Z.eqb_neq cur NULL)) by (unfold NULL; lia).
  unfold get_thread. simpl. rewrite lookup_insert_ne, Hc by done.
  change (initial_thread k1) with (initial_thread k).
  destruct (decide (cur ≠ NULL ∧ _)) as [(_ & Hd & Hi)|Hno].
  - rewrite bool_decide_eq_true_2, (proj2 (Z.eqb_neq cur (initial_thread k))) by done. simpl.
    by rewrite (proj2 (Z.eqb_neq cur t)).
  - destruct (bool_decide_reflect (status c = THREAD_DYING)); [|done].
    destruct (Z.eqb_spec cur (initial_thread k)); [done|]. exfalso. apply Hno.
    split_and!; [unfold NULL; lia | done | done].
Qed.

Lemma set_running_same k : set_running (running k) k = k.
Proof. by destruct k. Qed.

Lemma schedule_run k th c :
  pre_schedule k → threads k !! next k = Some th → threads k !! running k = Some c →
  schedule k =
    if decide (running k ≠ next k ∧ status c = THREAD_DYING ∧ running k ≠ initial_thread k)
    then palloc_free_page (running k) (switched k (next k) th)
    else Ok (tt, switched k (next k) th).
Proof.
  intros Hp Hth Hc. destruct (next_live k Hp) as (th' & Hth' & Hpos & Hm & _). simplify_eq.
  pose proof (b_thread _ (p_base _ Hp) _ _ Hc) as [Hcpos _].
  assert (status c ≠ THREAD_RUNNING) as Hcs by (by eapply p_none).
  unfold schedule, mbind, M_bind, running_thread, gets, intr_get_level, get_thread, ASSERT.
  simpl. rewrite next_run. simpl. rewrite (p_off _ Hp). simpl. rewrite Hc.
  rewrite bool_decide_eq_false_2 by done. simpl.
  rewrite (is_thread_run _ _ th) by done. destruct (Z.eqb_spec (running k) (next k)) as [E|Hne]; simpl.
  - rewrite (schedule_tail_run _ (next k) th c NULL) by (simpl; auto using p_off).
    rewrite !decide_False by tauto. unfold switched. do 2 f_equal.
    rewrite <- E. by rewrite (set_running_same (set_ready_list _ k)).
  - unfold modify. simpl.
    rewrite (schedule_tail_run _ (next k) th c (running k)) by (simpl; auto 6 using p_off).
    simpl. unfold switched.
    destruct (decide (running k ≠ next k ∧ _)) as [(_ & ? & ?)|Hno].
    + rewrite decide_True; [done|]. split_and!; [unfold NULL; lia | done | done].
    + rewrite decide_False by tauto. done.
Qed.

Lemma live_insert (m : gmap Z thread) t th c :
  c = NULL ∨ is_Some (m !! c) → c = NULL ∨ is_Some (<[t := th]> m !! c).
Proof. rewrite lookup_insert_is_Some'. tauto. Qed.

(** A thread in a wait queue is not the idle thread. *)
Lemma waiter_not_idle k s sm t :
  base k → semas k !! s = Some sm → t ∈ waiters sm → t ≠ idle_thread k.
Proof.
  intros Hb Hs Ht ->. destruct (b_waiter _ Hb _ _ _ Hs Ht) as (th & old & Hth & Hst & Hf).
  destruct (b_idle _ Hb) as (th' & Hth' & _ & Hpc). simplify_eq.
  pose proof (b_frame _ Hb _ _ _ _ Hth (or_introl Hst) Hf) as Hhd.
  destruct Hpc as [E|[a E]]; by rewrite E in Hhd.
Qed.

Lemma switched_base k th :
  pre_schedule k → threads k !! next k = Some th → base (switched k (next k) th).
Proof.
  intros Hp Hth. pose proof (p_base _ Hp) as Hb.
  destruct (next_live k Hp) as (th' & Hth' & Hpos & Hm & Hdy & Hst). simplify_eq.
  assert (∀ t, t ∈ tl (ready_list k) → t ∈ ready_list k ∧ t ≠ next k) as Htl.
  { pose proof (b_ready_nodup _ Hb) as HN. unfold next. destruct (ready_list k) as [|u us]; simpl;
      [by intros t ?%elem_of_nil|]. apply NoDup_cons in HN as [HN _].
    intros t Ht. split; [by right|]. by intros ->. }
  assert (∀ s sm, semas k !! s = Some sm → next k ∉ waiters sm) as Hnw.
  { intros s sm Hs Hin. destruct Hst as [Hst|[E _]].
    - destruct (b_waiter _ Hb _ _ _ Hs Hin) as (? & ? & ? & ? & _). congruence.
    - by apply (waiter_not_idle k s sm (next k)) in E. }
  destruct Hb. split; unfold switched; simpl; try done.
  - intros t th1 Ht. lookups; [done | eauto].
  - destruct (ready_list k); [done|]. by apply NoDup_cons in b_ready_nodup0 as [_ ?].
  - intros t Ht. destruct (Htl t Ht) as [Hr Hne]. rewrite lookup_insert_ne by done. eauto.
  - intros t th1 Ht Hs Hi. lookups; [done|]. specialize (b_ready_all0 _ _ Ht Hs Hi).
    unfold next in *. destruct (ready_list k); [done|]. simpl in *.
    apply elem_of_cons in b_ready_all0 as [->|?]; done.
  - intros s sm t Hs Ht. rewrite lookup_insert_ne; [eauto|]. intros <-. by eapply Hnw.
  - intros t th1 s old Ht Hs Hf. lookups; [by destruct Hs | eauto].
  - intros t th1 s old Ht Hs Hf. lookups; [done | eauto].
  - intros t th1 Ht. lookups; simpl; eauto.
  - destruct b_idle0 as (thi & Hi & Hd & Hpc). destruct (decide (next k = idle_thread k)) as [E|Hne].
    + rewrite <- E, lookup_insert_eq. rewrite E in Hth. simplify_eq. eauto.
    + rewrite lookup_insert_ne by done. eauto.
  - intros t th1 Ht Hi. lookups; simpl; eauto.
  - intros t th1 Ht Hi. lookups; eauto.
  - intros t th1 Ht Hi. lookups; eauto.
  - intros t th1 c Ht Hin. apply live_insert. lookups; simpl in *; eauto.
  - intros c Hin. apply live_insert. eauto.
Qed.

Lemma switched_inv k th :
  pre_schedule k → threads k !! next k = Some th →
  inv_at (running k) (switched k (next k) th).
Proof.
  intros Hp Hth. pose proof (switched_base k th Hp Hth) as Hb. pose proof (p_base _ Hp) as Hb0.
  destruct (next_live k Hp) as (th' & Hth' & Hpos & Hm & Hdy & Hst). simplify_eq.
  split; [done|..]; unfold switched; simpl.
  - exists (with_status THREAD_RUNNING th). by rewrite lookup_insert_eq.
  - intros t th1 Ht Hs. lookups; [done|]. by eapply p_none in Hs.
  - intros t th1 Ht Hs. lookups; [done|]. by eapply p_dying.
  - intros th1 s old Hoff Ht Hf. rewrite lookup_insert_eq in Ht. simplify_eq. simpl in *.
    destruct Hst as [Hst|[E Hpc]].
    { split; [by eapply (b_frame _ Hb0); [done | right | done] | by eapply (b_woken _ Hb0)]. }
    assert (status th = THREAD_BLOCKED ∨ status th = THREAD_READY) as Hbr.
    { destruct (status th) eqn:Es; [by eapply p_none in Es | by right | by left | done]. }
    pose proof (b_frame _ Hb0 _ _ _ _ Hth Hbr Hf) as Hhd.
    destruct Hpc as [Ep|[a Ep]]; by rewrite Ep in Hhd.
Qed.

(** Freeing the page of a thread that is dead. *)
Lemma freed_inv k s d c :
  inv_at d k → threads k !! d = Some c → status c = THREAD_DYING → d ≠ initial_thread k →
  pa_inv s → (∀ q, pa_managed s q ↔ pa_managed (pages k) q) →
  (∀ q, pa_used s q ↔ pa_used (pages k) q ∧ q ≠ d) → inv (freed s d k).
Proof.
  intros [Hb Hcur Huniq Hdying Hframe] Hc Hdy Hne Hinv Hman Hused.
  assert (d ≠ idle_thread k) as Hdi.
  { intros ->. destruct (b_idle _ Hb) as (? & ? & ? & _). congruence. }
  assert (d ≠ running k) as Hdr by (intros ->; destruct Hcur as (? & ? & ?); congruence).
  assert (∀ s0 sm, semas (freed s d k) !! s0 = Some sm → semas k !! s0 = Some sm) as Hsub.
  { intros s0 sm. unfold freed; simpl. intros ?. by lookups. }
  assert (∀ s0, durable s0 → semas (freed s d k) !! s0 = semas k !! s0) as Hdur.
  { intros s0 Hs0. unfold freed; simpl. by rewrite !lookup_delete_ne by (by destruct s0). }
  assert (∀ t th, threads k !! t = Some th → t ≠ d → threads (freed s d k) !! t = Some (forget_child d th)) as Hold.
  { intros t th E Hn. by rewrite freed_lookup_ne, E. }
  assert (∀ u, u = NULL ∨ is_Some (threads k !! u) → u ≠ d → u = NULL ∨ is_Some (threads (freed s d k) !! u)) as Hlive.
  { intros u [?|[th E]] Hn; [by left|]. right. rewrite (Hold u th) by done. by eexists. }
  split; [destruct Hb; split; try done|..].
  - intros t th (th0 & E & ? & ->)%freed_lookup. simpl. eauto.
  - intros t Ht. destruct (b_ready0 t Ht) as (th & Hth & Hst). exists (forget_child d th). split; [|done].
    apply Hold; [done|]. intros ->. congruence.
  - intros t th (th0 & E & ? & ->)%freed_lookup. simpl. eauto.
  - intros s0 sm Hs. apply Hsub in Hs. eauto.
  - intros s0 sm t Hs Ht. apply Hsub in Hs. destruct (b_waiter0 _ _ _ Hs Ht) as (th & old & Hth & Hst & Hf).
    exists (forget_child d th), old. rewrite (Hold t th); [done | done|]. intros ->. congruence.
  - intros t th s0 old (th0 & E & ? & ->)%freed_lookup. simpl. eauto.
  - intros t th s0 old (th0 & E & ? & ->)%freed_lookup Hs Hf. simpl in *. destruct (b_woken0 _ _ _ _ E Hs Hf) as [Hd Hsm].
    split; [done|]. by rewrite (Hdur s0 Hd).
  - intros t th (th0 & E & ? & ->)%freed_lookup. simpl. eauto.
  - destruct b_idle0 as (thi & Hi & ? & ?). exists (forget_child d thi). by rewrite (Hold _ thi).
  - intros t th (th0 & E & ? & ->)%freed_lookup. simpl. eauto.
  - split; [done|]. simpl. rewrite Hman. by destruct b_pages0.
  - intros t th (th0 & E & ? & ->)%freed_lookup Hi. simpl in *. apply Hused. eauto.
  - intros t th (th0 & E & ? & ->)%freed_lookup Hs. simpl in *. apply elem_of_forget. right. eauto.
  - intros t th u (th0 & E & ? & ->)%freed_lookup. simpl. intros [[-> _]|[? Hin]]%elem_of_forget; [by left|].
    apply Hlive; [by eapply b_child0 | done].
  - intros u. simpl. intros [[-> _]|[? Hin]]%elem_of_forget; [by left|]. apply Hlive; [by apply b_listed0 | done].
  - destruct Hcur as (th & Hth & ?). exists (forget_child d th). change (running (freed s d k)) with (running k).
    by rewrite (Hold _ th).
  - intros t th (th0 & E & ? & ->)%freed_lookup. simpl. eauto.
  - intros t th (th0 & E & ? & ->)%freed_lookup Hs. simpl in *. destruct (Hdying t th0 E Hs) as [-> | ->]; [by left | done].
  - intros th s0 old Hoff (th0 & E & ? & ->)%freed_lookup Hf. simpl in *. destruct (Hframe _ _ _ Hoff E Hf) as (? & Hd & Hsm).
    split_and!; [done..|]. by rewrite (Hdur s0 Hd).
Qed.

Lemma lock_state_same k' k l h v :
  (∀ t, own k' l t ↔ own k l t) → lock_state k l h v → lock_state k' l h v.
Proof.
  intros Hown [(? & ? & Hno)|[(? & ? & Hno)|(? & ? & t & Ht & Hu)]].
  - left. split_and!; [done..|]. intros t. rewrite Hown. apply Hno.
  - right; left. split_and!; [done..|]. intros t. rewrite Hown. apply Hno.
  - right; right. split_and!; [done..|]. exists t. rewrite Hown. split; [done|].
    intros t'. rewrite Hown. apply Hu.
Qed.

(** A change that concerns the lock [l] only. *)
Lemma lock_change k k' l :
  lock_inv k →
  (∀ l', l' ≠ l → holders k' !! l' = holders k !! l'
     ∧ value <$> semas k' !! LockSem l' = value <$> semas k !! LockSem l'
     ∧ ∀ t, own k' l' t ↔ own k l' t) →
  (∃ h sm, holders k' !! l = Some h ∧ semas k' !! LockSem l = Some sm ∧ lock_state k' l h (value sm)) →
  (∀ l' t th p, threads k' !! t = Some th → pc th = ClearHolder l' :: p → holders k' !! l' = Some t) →
  lock_inv k'.
Proof.
  intros [Hst Hsem Hlown _] Hother (h & sm & Hh & Hsm & Hls) Hcl. split; [| | |done].
  - intros l' h' E. destruct (decide (l' = l)) as [->|Hne]; [simplify_eq; by exists sm|].
    destruct (Hother l' Hne) as (Eh & Es & Hown). rewrite Eh in E.
    destruct (Hst l' h' E) as (sm0 & Hsm0 & Hc). rewrite Hsm0 in Es.
    apply fmap_Some in Es as (sm1 & ? & Hv). exists sm1. split; [done|]. rewrite <- Hv.
    exact (lock_state_same _ _ _ _ _ Hown Hc).
  - intros l' [sm1 Hsm1]. destruct (decide (l' = l)) as [->|Hne]; [by exists h|].
    destruct (Hother l' Hne) as (-> & Es & _). apply Hsem. rewrite Hsm1 in Es. symmetry in Es.
    apply fmap_Some in Es as (sm0 & ? & _). by eexists.
  - intros l' t Ho. destruct (decide (l' = l)) as [->|Hne]; [by exists h|].
    destruct (Hother l' Hne) as (-> & _ & Hown). rewrite Hown in Ho. by eapply Hlown.
Qed.

(** A change that concerns no lock. *)
Lemma lock_inv_own k k' :
  holders k' = holders k →
  (∀ l, value <$> semas k' !! LockSem l = value <$> semas k !! LockSem l) →
  (∀ l t, own k' l t ↔ own k l t) →
  (∀ l t th p, threads k' !! t = Some th → pc th = ClearHolder l :: p → holders k !! l = Some t) →
  lock_inv k → lock_inv k'.
Proof.
  intros Hh Hs Hown Hcl Hl. destruct Hl as [Hst Hsem Hlown _]. split.
  - intros l h. rewrite Hh. intros E. destruct (Hst l h E) as (sm0 & Hsm & Hc).
    specialize (Hs l). rewrite Hsm in Hs. apply fmap_Some in Hs as (sm & Hsm' & Hv). exists sm.
    split; [done|]. rewrite <- Hv.
    exact (lock_state_same _ _ _ _ _ (Hown l) Hc).
  - intros l [sm Hsm]. rewrite Hh. apply Hsem. specialize (Hs l). rewrite Hsm in Hs.
    symmetry in Hs. apply fmap_Some in Hs as (sm0 & ? & _). by eexists.
  - intros l t. rewrite Hown, Hh. apply Hlown.
  - intros l t th p Ht E. rewrite Hh. by eapply Hcl.
Qed.

(** Locks depend only on the code of the threads. *)
Lemma lock_inv_same k k' :
  holders k' = holders k →
  (∀ l, value <$> semas k' !! LockSem l = value <$> semas k !! LockSem l) →
  (∀ t th', threads k' !! t = Some th' →
     pc th' = [] ∨ ∃ th, threads k !! t = Some th ∧ pc th' = pc th) →
  (∀ l t th, threads k !! t = Some th → owns l (pc th) = true →
     ∃ th', threads k' !! t = Some th' ∧ pc th' = pc th) →
  lock_inv k → lock_inv k'.
Proof.
  intros Hh Hs Hback Hforth Hl. apply (lock_inv_own k k'); [done | done | | |done].
  - intros l t. split; intros (th & Ht & Ho).
    + destruct (Hback _ _ Ht) as [E|(th0 & Ht0 & E)]; [by rewrite E in Ho|]. exists th0.
      by rewrite <- E.
    + destruct (Hforth _ _ _ Ht Ho) as (th' & Ht' & E). exists th'. by rewrite E.
  - intros l t th p Ht E. destruct (Hback _ _ Ht) as [E'|(th0 & Ht0 & E')]; [congruence|].
    eapply (l_clear _ Hl); [done|]. by rewrite <- E'.
Qed.

(** The invariant without what concerns a pending continuation; interrupts
    may be on or off. *)
Record core k : Prop := {
  c_base : base k;
  c_cur : ∃ th, threads k !! running k = Some th ∧ status th = THREAD_RUNNING;
  c_unique t th : threads k !! t = Some th → status th = THREAD_RUNNING → t = running k;
  c_dying t th : threads k !! t = Some th → status th = THREAD_DYING → t = initial_thread k
}.

Lemma inv_core k : inv k → core k.
Proof. intros [Hb Hc Hu Hd _]. split; [done..|]. intros t th Ht Hs. by destruct (Hd t th Ht Hs). Qed.

Lemma core_inv k : core k → intr k = INTR_ON → inv k.
Proof.
  intros [Hb Hc Hu Hd] Hon. split; [done..| |].
  - intros t th Ht Hs. left. by eapply Hd.
  - intros th s old Hoff. by rewrite Hoff in Hon.
Qed.

Lemma core_cur_ok k : core k → cur_ok k.
Proof.
  intros [Hb (th & Hth & Hst) _ _]. destruct (b_thread _ Hb _ _ Hth). by exists th.
Qed.

Lemma base_set_intr l k : base k → base (set_intr l k).
Proof. intros []. split; done. Qed.

Lemma core_set_intr l k : core k → core (set_intr l k).
Proof. intros []. split; [by apply base_set_intr | done..]. Qed.

Lemma lock_set_intr l k : lock_inv k → lock_inv (set_intr l k).
Proof. intros []. split; done. Qed.

(** [k'] is [k] after a switch to the next thread. *)
Definition switches k k' : Prop :=
  running k' = next k ∧ ready_list k' = tl (ready_list k) ∧ thread_ticks k' = 0
  ∧ idle_thread k' = idle_thread k.

(** What every way to leave the processor ends with. *)
Lemma schedule_spec k c :
  pre_schedule k → lock_inv k → threads k !! running k = Some c →
  (status c = THREAD_DYING → ∀ l, owns l (pc c) = false) →
  ∃ k', schedule k = Ok (tt, k') ∧ inv k' ∧ lock_inv k' ∧ intr k' = INTR_OFF ∧ switches k k'.
Proof.
  intros Hp Hl Hc Hown. destruct (next_live k Hp) as (th & Hth & Hpos & Hm & Hdy & Hst).
  pose proof (switched_inv k th Hp Hth) as Hinv.
  assert (lock_inv (switched k (next k) th)) as Hl'.
  { eapply lock_inv_same; [| | | |exact Hl]; [done | done | |]; unfold switched; simpl.
    - intros t th' Ht. right. lookups; [by exists th | by exists th'].
    - intros l t th' Ht _. destruct (decide (t = next k)) as [->|].
      + simplify_eq. rewrite lookup_insert_eq. by eexists.
      + rewrite lookup_insert_ne by done. by eexists. }
  rewrite (schedule_run k th c Hp Hth Hc).
  destruct (decide _) as [(Hne & Hd & Hi)|Hno].
  - assert (threads (switched k (next k) th) !! running k = Some c) as Hc'
      by (unfold switched; simpl; by rewrite lookup_insert_ne).
    destruct (b_pages _ (i_base _ _ Hinv)) as [Hpa _].
    pose proof (b_used _ (i_base _ _ Hinv) _ _ Hc' Hi) as Hu.
    destruct (pa_free_ok _ _ Hpa Hu) as (s' & Hf & Hpa' & Hman & Hused).
    exists (freed s' (running k) (switched k (next k) th)). split; [|split; [|split; [|split; [apply Hp | done]]]].
    + unfold palloc_free_page. by rewrite Hf.
    + by eapply freed_inv.
    + eapply lock_inv_same; [| | | |exact Hl']; [done | | |].
      * intros l. unfold freed; simpl. by rewrite !lookup_delete_ne.
      * intros t th' (th0 & E & _ & ->)%freed_lookup. right. by exists th0.
      * intros l t th' Ht Ho. exists (forget_child (running k) th').
        change (threads (freed s' (running k) (switched k (next k) th)) !! t = Some (forget_child (running k) th') ∧ pc th' = pc th').
        rewrite freed_lookup_ne; [by rewrite Ht|]. intros ->.
        rewrite Hc' in Ht. simplify_eq. by rewrite Hown in Ho.
  - exists (switched k (next k) th). split; [done|]. split; [|split; [done | split; [apply Hp | done]]].
    destruct Hinv as [? ? ? Hd' ?]. split; [done..| |done].
    intros t th' Ht Hs. left. destruct (Hd' t th' Ht Hs) as [?| ->]; [done|].
    destruct (decide (running k = initial_thread k)) as [|Hi]; [done|]. exfalso. apply Hno.
    unfold switched in Ht; simpl in Ht. lookups; [done|]. simplify_eq. done.
Qed.

(** ** Leaving the processor *)

(** [k'] is [k] with the running thread in a new state [th'] and queued
    accordingly. *)
Record leaves k k' (th th' : thread) : Prop := {
  lv_threads : threads k' = <[running k := th']> (threads k);
  lv_same : running k' = running k ∧ idle_thread k' = idle_thread k
    ∧ initial_thread k' = initial_thread k ∧ conds k' = conds k ∧ pages k' = pages k
    ∧ in_external_intr k' = in_external_intr k ∧ tid_lock k' = tid_lock k
    ∧ intr k' = INTR_OFF;
  lv_thread : pc th' = pc th ∧ magic th' = magic th ∧ status th' ≠ THREAD_RUNNING ∧ child_list th' = child_list th;
  lv_level : level_ok (frame th');
  lv_dying : status th' = THREAD_DYING → running k ≠ idle_thread k;
  lv_frame s old : frame th' = in_sema_down s old →
    status th' = THREAD_BLOCKED ∨ status th' = THREAD_READY → hd_error (pc th) = Some (SemaDown s);
  lv_woken s old : status th' = THREAD_READY → frame th' ≠ in_sema_down s old;
  lv_sems s : is_Some (semas k !! s) → is_Some (semas k' !! s);
  lv_ready : ready_list k' = ready_list k
      ++ (if decide (status th' = THREAD_READY ∧ running k ≠ idle_thread k) then [running k] else []);
  lv_sem s sm' : semas k' !! s = Some sm' → ∃ sm, semas k !! s = Some sm ∧ value sm' = value sm
    ∧ (waiters sm' = waiters sm
       ∨ waiters sm' = waiters sm ++ [running k] ∧ status th' = THREAD_BLOCKED
         ∧ ∃ old, frame th' = in_sema_down s old);
  lv_all t : t ∈ all_list k → t ≠ running k ∨ status th' ≠ THREAD_DYING → t ∈ all_list k';
  lv_listed t : t ∈ all_list k' → t ∈ all_list k
}.

Lemma running_not_ready k th :
  core k → threads k !! running k = Some th → running k ∉ ready_list k.
Proof.
  intros Hc Hth Hin. destruct (c_cur _ Hc) as (? & ? & ?).
  destruct (b_ready _ (c_base _ Hc) _ Hin) as (? & ? & ?). congruence.
Qed.

Lemma running_not_waiting k s sm :
  core k → semas k !! s = Some sm → running k ∉ waiters sm.
Proof.
  intros Hc Hs Hin. destruct (c_cur _ Hc) as (? & ? & ?).
  destruct (b_waiter _ (c_base _ Hc) _ _ _ Hs Hin) as (? & ? & ? & ? & _). congruence.
Qed.

Lemma left_base k k' th th' :
  core k → threads k !! running k = Some th → leaves k k' th th' → base k'.
Proof.
  intros Hc Hth Hlv. pose proof (running_not_ready k th Hc Hth) as Hnr.
  pose proof (λ s sm, running_not_waiting k s sm Hc) as Hnw.
  assert (status th = THREAD_RUNNING) as Hst0 by (destruct (c_cur _ Hc) as (? & ? & ?); congruence).
  destruct Hlv as [Ht (Hrun & Hid & Hini & Hco & Hpg & Hctx & Htl & Hoff) (Hpc & Hm & Hst & Hch) Hlev Hdy Hfr Hwk Hss Hrd Hse Hall Hlist].
  destruct Hc as [Hb _ _ _]. destruct Hb.
  split; rewrite ?Ht, ?Hid, ?Hini, ?Hco, ?Hpg, ?Hctx, ?Htl; try done.
  - intros t th1 E. lookups; [rewrite Hm; eauto | eauto].
  - rewrite Hrd. case_decide; [|by rewrite app_nil_r]. apply NoDup_app.
    split_and!; [done | | apply NoDup_singleton]. intros t Hin ->%list_elem_of_singleton. done.
  - intros t. rewrite Hrd. intros [Hin|Hin]%elem_of_app.
    + rewrite lookup_insert_ne by (intros <-; done). eauto.
    + case_decide as Hd; [|by apply elem_of_nil in Hin]. apply list_elem_of_singleton in Hin as ->.
      rewrite lookup_insert_eq. exists th'. tauto.
  - intros t th1 E Hs Hne. rewrite Hrd. apply elem_of_app. lookups; [|left; eauto].
    right. rewrite decide_True by done. by left.
  - intros s sm' E. destruct (Hse s sm' E) as (sm & Esm & Hv & Hw). rewrite Hv.
    destruct (b_sem0 _ _ Esm) as [? HN]. split; [done|].
    destruct Hw as [->|(-> & _)]; [done|]. apply NoDup_app.
    split_and!; [done | | apply NoDup_singleton]. intros t Hin ->%list_elem_of_singleton. by eapply Hnw.
  - intros s sm' t E Hin. destruct (Hse s sm' E) as (sm & Esm & Hv & Hw).
    assert (t ∈ waiters sm ∨ t = running k ∧ status th' = THREAD_BLOCKED
      ∧ ∃ old, frame th' = in_sema_down s old) as [Hin'|(-> & Hbl & old & Hf)].
    { destruct Hw as [Ew|(Ew & ? & ?)]; rewrite Ew in Hin; [by left|].
      apply elem_of_app in Hin as [?|?%list_elem_of_singleton]; [by left | by right]. }
    + rewrite lookup_insert_ne; [eauto|]. intros <-. by eapply Hnw.
    + rewrite lookup_insert_eq. eauto.
  - intros t th1 s old E Hs Hf. lookups; [rewrite Hpc; eauto | eauto].
  - intros t th1 s old E Hs Hf. lookups; [by apply Hwk in Hf|].
    destruct (b_woken0 _ _ _ _ E Hs Hf). auto.
  - intros t th1 E. lookups; eauto.
  - destruct b_idle0 as (thi & Hi & Hd & Hpi). destruct (decide (running k = idle_thread k)) as [Eri|Hne].
    + rewrite <- Eri, lookup_insert_eq. exists th'. rewrite <- Eri in Hi. simplify_eq.
      split_and!; [done | by intros ?%Hdy | by rewrite Hpc].
    + rewrite lookup_insert_ne by done. eauto.
  - intros t th1 E Hne. lookups; [rewrite Hpc; eauto | eauto].
  - intros t th1 E Hne. lookups; eauto.
  - intros t th1 E Hne. lookups; [|apply Hall; eauto].
    apply Hall; [|by right]. eapply b_all0; [done|]. congruence.
  - intros t th1 c E Hin. apply live_insert. lookups; [rewrite Hch in Hin|]; eauto.
  - intros c Hin%Hlist. apply live_insert. eauto.
Qed.

Lemma left_pre k k' th th' :
  core k → threads k !! running k = Some th → leaves k k' th th' → pre_schedule k'.
Proof.
  intros Hc Hth Hlv. pose proof (left_base _ _ _ _ Hc Hth Hlv) as Hb.
  destruct Hlv as [Ht (Hrun & Hid & Hini & _ & _ & _ & _ & Hoff) (_ & _ & Hst & _) _ _ _ _ _ _ _ _ _].
  split; [done|..]; rewrite ?Ht, ?Hrun, ?Hini; [|..|done].
  - rewrite lookup_insert_eq. by eexists.
  - intros t th1 E. lookups; [done|]. intros Hs. by apply (c_unique _ Hc _ _ E) in Hs as ->.
  - intros t th1 E Hs. lookups; [by right|]. left. by eapply (c_dying _ Hc).
Qed.

Lemma left_lock k k' th th' :
  lock_inv k → threads k !! running k = Some th → leaves k k' th th' → holders k' = holders k →
  (∀ l, value <$> semas k' !! LockSem l = value <$> semas k !! LockSem l) →
  lock_inv k'.
Proof.
  intros Hl Hth [Ht _ (Hpc & _) _ _ _ _ _ _ _ _ _] Hh Hs.
  eapply lock_inv_same; [done | done | | |exact Hl]; rewrite Ht.
  - intros t th1 E. right. lookups; [by exists th | by exists th1].
  - intros l t th1 E _. destruct (decide (t = running k)) as [->|].
    + simplify_eq. rewrite lookup_insert_eq. eauto.
    + rewrite lookup_insert_ne by done. eauto.
Qed.

(** [schedule] after the running thread has left. *)
Lemma left_schedule k k' th th' :
  core k → lock_inv k → threads k !! running k = Some th → leaves k k' th th' →
  holders k' = holders k →
  (∀ l, value <$> semas k' !! LockSem l = value <$> semas k !! LockSem l) →
  (status th' = THREAD_DYING → ∀ l, owns l (pc th) = false) →
  ∃ k'', schedule k' = Ok (tt, k'') ∧ inv k'' ∧ lock_inv k'' ∧ intr k'' = INTR_OFF ∧ switches k' k''.
Proof.
  intros Hc Hl Hth Hlv Hh Hs Hd.
  apply (schedule_spec k' th'); [by eapply left_pre | by eapply left_lock | |].
  - destruct Hlv as [-> (-> & _) _ _ _ _ _ _ _ _ _ _]. by rewrite lookup_insert_eq.
  - destruct Hlv as [_ _ (-> & _) _ _ _ _ _ _ _ _ _]. done.
Qed.

Lemma block_run k fr th :
  cur_ok k → in_external_intr k = false → intr k = INTR_OFF → threads k !! running k = Some th →
  thread_block fr k
  = schedule (set_threads (<[running k := with_frame fr (with_status THREAD_BLOCKED th)]> (threads k)) k).
Proof.
  intros Hc Hctx Hoff Hth. unfold thread_block, mbind, M_bind, intr_context, intr_get_level, gets, ASSERT.
  rewrite Hctx. simpl. rewrite Hoff. simpl.
  rewrite thread_current_run by done. unfold set_thread. by rewrite Hth.
Qed.

(** Going to sleep in [sema_down]. *)
Lemma sema_sleep k s sm th old :
  core k → lock_inv k → intr k = INTR_OFF → old = INTR_ON → threads k !! running k = Some th →
  hd_error (pc th) = Some (SemaDown s) → semas k !! s = Some sm → value sm = 0 →
  ∃ k', sema_loop s old k = Ok (false, k') ∧ inv k' ∧ lock_inv k' ∧ intr k' = INTR_OFF ∧ switches k k'.
Proof.
  intros Hc Hl Hoff Hold Hth Hpc Hs Hv.
  unfold sema_loop, mbind, M_bind, get_sem, set_sem, modify. rewrite Hs, Hv. simpl.
  rewrite thread_current_run by by apply core_cur_ok. set (k1 := set_semas _ k).
  rewrite (block_run k1 _ th) by (done || apply (core_cur_ok _ Hc) || apply Hc).
  set (th' := with_frame _ _). set (k2 := set_threads _ k1).
  destruct (left_schedule k k2 th th' Hc Hl Hth) as (k' & -> & ?); [|done| |done|by exists k'].
  - split; try done; simpl.
    + intros s' old' E _. unfold th' in E; simpl in E. by simplify_eq.
    + intros s' [sm' E]. destruct (decide (s' = s)) as [->|]; [by rewrite lookup_insert_eq|].
      rewrite lookup_insert_ne by done. by eexists.
    + by rewrite app_nil_r.
    + intros s' sm' E. lookups; [|eauto]. exists sm. rewrite Hv. split_and!; [done | done |]. right. split_and!; [done | done | by exists old].
  - intros l. unfold k2, k1; simpl. destruct (decide (LockSem l = s)) as [<-|Hne].
    + rewrite lookup_insert_eq, Hs. simpl. by rewrite Hv.
    + by rewrite lookup_insert_ne.
Qed.

(** The step of the running thread at the head of its code is done. *)
Definition stepped k (th : thread) (js : list instr) : kernel :=
  set_threads (<[running k := with_pc (js ++ tl (pc th)) th]> (threads k)) k.

Lemma advance_run k th js :
  threads k !! running k = Some th → advance (running k) js k = Ok (tt, stepped k th js).
Proof. intros Hth. unfold advance, set_thread. by rewrite Hth. Qed.

(** The running thread may change its own data and go on to code that may
    come next. *)
Definition touched k (th' : thread) : kernel :=
  set_threads (<[running k := th']> (threads k)) k.

Lemma touched_core k th th' :
  core k → threads k !! running k = Some th →
  status th' = status th → magic th' = magic th → level_ok (frame th') →
  (running k ≠ idle_thread k → pc_ok (pc th')) →
  (running k = idle_thread k → pc_idle (pc th')) →
  (∀ c, c ∈ child_list th' → c = NULL ∨ is_Some (threads k !! c)) →
  core (touched k th').
Proof.
  intros Hc Hth Est Em Elev Hok Hid Hch. destruct (c_cur _ Hc) as (th0 & E0 & Hst). simplify_eq.
  pose proof (running_not_ready k th Hc Hth) as Hnr.
  pose proof (λ s sm, running_not_waiting k s sm Hc) as Hnw.
  destruct Hc as [Hb _ Hu Hd]. destruct Hb.
  split; [split|..]; unfold touched; simpl; try done.
  - intros t th1 E. lookups; [rewrite Em|]; eauto.
  - intros t Hin. rewrite lookup_insert_ne by (by intros <-). eauto.
  - intros t th1 E Hs. lookups; [congruence | eauto].
  - intros s sm t Hs Hin. rewrite lookup_insert_ne; [eauto|]. intros <-. by eapply Hnw.
  - intros t th1 s old E Hs. lookups; [destruct Hs; congruence | eauto].
  - intros t th1 s old E Hs. lookups; [congruence | eauto].
  - intros t th1 E. lookups; eauto.
  - destruct b_idle0 as (thi & Hi & Hdy & Hpc). destruct (decide (running k = idle_thread k)) as [E|Hne].
    + rewrite <- E, lookup_insert_eq. eexists. split; [done|]. split; [congruence | auto].
    + rewrite lookup_insert_ne by done. eauto.
  - intros t th1 E Hne. lookups; [auto | eauto].
  - intros t th1 E Hne. lookups; eauto.
  - intros t th1 E Hne. lookups; [|eauto]. eapply b_all0; [done|]. congruence.
  - intros t th1 c E Hin. apply live_insert. lookups; eauto.
  - intros c Hin. apply live_insert. eauto.
  - eexists. rewrite lookup_insert_eq. split; [done | congruence].
  - intros t th1 E Hs. lookups; eauto.
  - intros t th1 E Hs. lookups; [congruence | eauto].
Qed.

Lemma stepped_core k th js :
  core k → threads k !! running k = Some th →
  (running k ≠ idle_thread k → pc_ok (js ++ tl (pc th))) →
  (running k = idle_thread k → pc_idle (js ++ tl (pc th))) →
  core (stepped k th js).
Proof.
  intros Hc Hth Hok Hid. apply (touched_core k th); try done; [exact (b_level _ (c_base _ Hc) _ _ Hth)|].
  intros c. exact (b_child _ (c_base _ Hc) _ _ c Hth).
Qed.

(** ** Semaphores *)

Lemma intr_set_level_run k l :
  in_external_intr k = false → intr_set_level l k = Ok (intr k, set_intr l k).
Proof.
  intros Hc. destruct l; unfold intr_set_level, intr_enable, intr_disable, intr_get_level, intr_context,
    mbind, M_bind, gets, modify, mret, M_ret, ASSERT; [done|]. by rewrite Hc.
Qed.

Lemma core_set_sem k s sm v ws :
  core k → semas k !! s = Some sm → 0 ≤ v < 2^32 → NoDup ws →
  (∀ t, t ∈ ws → t ∈ waiters sm) →
  core (set_semas (<[s := mk_semaphore v ws]> (semas k)) k).
Proof.
  intros [Hb ? ? ?] Hs Hv HN Hsub. split; [|done..]. destruct Hb. split; simpl; try done.
  - intros s' sm' E. lookups; simpl; eauto.
  - intros s' sm' t E Hin. lookups; simpl in *; eauto.
  - intros t th s' old E Hst Hf. destruct (b_woken0 _ _ _ _ E Hst Hf). split; [done|].
    destruct (decide (s' = s)) as [->|]; [by rewrite lookup_insert_eq | by rewrite lookup_insert_ne].
Qed.

(** The next step does not belong to a lock already taken. *)
Definition plain_head (p : list instr) : Prop :=
  match p with [] => True | j :: _ => plain j end.

Lemma plain_head_owns p l : plain_head p → owns l p = false.
Proof. destruct p as [|[] p]; try done. by destruct s. Qed.

Lemma plain_head_clear p l p' : plain_head p → p ≠ ClearHolder l :: p'.
Proof. destruct p as [|[] p]; simpl; [done..|]; try done. Qed.

(** [k'] is [k] after a step of the running thread, whose data are now
    [th']; the code of the others is the same. *)
Definition runs k k' (th' : thread) : Prop :=
  threads k' !! running k = Some th'
  ∧ ∀ t, t ≠ running k → pc <$> threads k' !! t = pc <$> threads k !! t.

Lemma runs_own k k' th' l t : runs k k' th' → t ≠ running k → own k' l t ↔ own k l t.
Proof.
  intros [_ Hpc] Hne. specialize (Hpc t Hne). unfold own.
  destruct (threads k' !! t), (threads k !! t); simplify_eq/=; [|naive_solver..].
  split; intros (? & [= <-] & ?); eexists; (split; [done|]); congruence.
Qed.

Lemma runs_own_me k k' th' l : runs k k' th' → own k' l (running k) ↔ owns l (pc th') = true.
Proof.
  intros [Ht _]. unfold own. rewrite Ht. split; [by intros (? & [= <-] & ?) | by eexists].
Qed.

Lemma runs_code k k' th' t th1 :
  runs k k' th' → threads k' !! t = Some th1 → t ≠ running k →
  ∃ th0, threads k !! t = Some th0 ∧ pc th1 = pc th0.
Proof.
  intros [_ Hpc] Ht Hne. specialize (Hpc t Hne). rewrite Ht in Hpc. symmetry in Hpc.
  apply fmap_Some in Hpc as (th0 & ? & ?). eauto.
Qed.

Lemma runs_insert k k' th' : threads k' = <[running k := th']> (threads k) → runs k k' th'.
Proof.
  intros Ht. split; rewrite Ht; [by rewrite lookup_insert_eq|]. intros t Hne.
  by rewrite lookup_insert_ne.
Qed.

(** The running thread goes on to code that does not concern a lock taken. *)
Lemma lock_noown_step k k' th th' :
  lock_inv k → threads k !! running k = Some th → runs k k' th' → holders k' = holders k →
  (∀ l, value <$> semas k' !! LockSem l = value <$> semas k !! LockSem l) →
  (∀ l, owns l (pc th) = false) → (∀ l, owns l (pc th') = false) →
  (∀ l p, pc th' = ClearHolder l :: p → holders k !! l = Some (running k)) → lock_inv k'.
Proof.
  intros Hl Hth Hr Hh Hs Hno Hno' Hcl. apply (lock_inv_own k); [done | done | | |done].
  - intros l t. destruct (decide (t = running k)) as [->|Hne]; [|by eapply runs_own].
    rewrite (runs_own_me _ _ _ _ Hr), Hno'. split; [done|]. intros (th1 & E & Ho). simplify_eq.
    by rewrite Hno in Ho.
  - intros l t th1 p E Hp. destruct (decide (t = running k)) as [->|Hne].
    + destruct Hr as [Et _]. simplify_eq. by eapply Hcl.
    + destruct (runs_code _ _ _ _ _ Hr E Hne) as (th0 & E0 & Ep). rewrite Hp in Ep.
      by eapply (l_clear _ Hl).
Qed.

Lemma lock_plain_step k k' th th' :
  lock_inv k → threads k !! running k = Some th → runs k k' th' → holders k' = holders k →
  (∀ l, value <$> semas k' !! LockSem l = value <$> semas k !! LockSem l) →
  (∀ l, owns l (pc th) = false) → plain_head (pc th') → lock_inv k'.
Proof.
  intros Hl Hth Hr Hh Hs Hno Hpl. eapply (lock_noown_step k k' th th'); try done.
  - intros l. by apply plain_head_owns.
  - intros l p Hp. by eapply plain_head_clear in Hp.
Qed.

(** The running thread moves between the states of the lock [l]; no thread
    owned it before, or the running one did. *)
Lemma lock_own_step k k' th th' l h sm :
  lock_inv k → threads k !! running k = Some th → runs k k' th' →
  (∀ l', l' ≠ l → holders k' !! l' = holders k !! l'
     ∧ value <$> semas k' !! LockSem l' = value <$> semas k !! LockSem l'
     ∧ owns l' (pc th') = owns l' (pc th)) →
  holders k' !! l = Some h → semas k' !! LockSem l = Some sm →
  (∀ t, own k l t → t = running k) →
  (if owns l (pc th') then value sm = 0 ∧ h = NULL
   else value sm = 1 ∧ h = NULL ∨ value sm = 0 ∧ h ≠ NULL) →
  (∀ l' p, pc th' ≠ ClearHolder l' :: p) →
  (∀ t th1 p, threads k !! t = Some th1 → t ≠ running k → pc th1 ≠ ClearHolder l :: p) →
  lock_inv k'.
Proof.
  intros Hl Hth Hr Hother Hh Hsm Hme Hst Hncl Hcl.
  assert (∀ t, own k' l t → t = running k) as Hme'.
  { intros t Ho. destruct (decide (t = running k)) as [|Hne]; [done|].
    apply (runs_own _ _ _ _ _ Hr Hne) in Ho. auto. }
  apply (lock_change k k' l); [done| | |].
  - intros l' Hne. destruct (Hother l' Hne) as (Eh & Es & Eo). split_and!; [done..|]. intros t.
    destruct (decide (t = running k)) as [->|]; [|by eapply runs_own].
    rewrite (runs_own_me _ _ _ _ Hr), Eo. unfold own. rewrite Hth. split; [by eexists|].
    by intros (? & [= <-] & ?).
  - exists h, sm. split_and!; [done..|]. unfold lock_state. pose proof (runs_own_me _ _ _ l Hr) as Hm.
    destruct (owns l (pc th')) eqn:Eo.
    + right; right. destruct Hst as [-> ->]. split_and!; [done..|]. exists (running k).
      split; [by apply Hm | auto].
    + assert (∀ t, ¬ own k' l t) as Hno.
      { intros t Ho. pose proof (Hme' t Ho) as ->. by apply Hm in Ho. }
      destruct Hst as [[-> ->]|[-> ?]]; [by left | by right; left].
  - intros l' t th1 p E Hp. destruct (decide (t = running k)) as [->|Hne].
    + destruct Hr as [Et _]. simplify_eq. by apply Hncl in Hp.
    + destruct (runs_code _ _ _ _ _ Hr E Hne) as (th0 & E0 & Ep). rewrite Hp in Ep. symmetry in Ep.
      destruct (decide (l' = l)) as [->|Hnl]; [by eapply Hcl in Ep|].
      destruct (Hother l' Hnl) as (-> & _). by eapply (l_clear _ Hl).
Qed.

Lemma clear_holder_pos k l t th p h :
  base k → lock_inv k → threads k !! t = Some th → pc th = ClearHolder l :: p →
  holders k !! l = Some h → h = t ∧ h ≠ NULL.
Proof.
  intros Hb Hl Ht Hp Hh. pose proof (l_clear _ Hl _ _ _ _ Ht Hp) as E.
  destruct (b_thread _ Hb _ _ Ht) as [Hpos _]. simplify_eq. unfold NULL. split; [done | lia].
Qed.

(** The running thread, about to do [i], is not the idle thread unless [i]
    belongs to the idle loop. *)
Lemma not_idle k th i p :
  base k → threads k !! running k = Some th → pc th = i :: p →
  match i with IdleLoop => False | SemaUp (Sem _) => False | _ => True end →
  running k ≠ idle_thread k.
Proof.
  intros Hb Hth Hp Hi E. destruct (b_idle _ Hb) as (th' & Hth' & _ & Hpc).
  rewrite <- E in Hth'. simplify_eq. destruct Hpc as [Hpc|[x Hpc]]; rewrite Hp in Hpc; by simplify_eq.
Qed.

(** The locks after the semaphore [s] has been taken by the running thread,
    which continues with [p]. *)
Lemma lock_take k k' th th' s sm sm' :
  base k → lock_inv k → threads k !! running k = Some th → semas k !! s = Some sm →
  runs k k' th' → holders k' = holders k →
  semas k' = <[s := sm']> (semas k) → value sm ≠ 0 → value sm' = value sm - 1 →
  (∀ l, owns l (pc th) = false) →
  match s with LockSem l => ∃ p, pc th' = SetHolder l :: p | _ => plain_head (pc th') end →
  lock_inv k'.
Proof.
  intros Hb Hl Hth Hs Ht Hh Hs' Hv Hv' Hno Hpc.
  assert ((∃ l, s = LockSem l) ∨ ∀ l, s ≠ LockSem l) as [[l ->]|Hnl]
    by (destruct s; naive_solver).
  - destruct Hpc as [p Hp].
    assert (is_Some (holders k !! l)) as [h Eh] by (eapply (l_sem _ Hl); by eexists).
    destruct (l_state _ Hl l h Eh) as (sm0 & E0 & Hst). rewrite Hs in E0. injection E0 as <-.
    destruct Hst as [(Hv1 & Hh0 & Hno')|[(? & _)|(? & _)]]; [|lia..].
    eapply (lock_own_step k k' th th' l h sm'); try done.
    + intros l' Hne. rewrite Hh, Hs'. split_and!; [done| |].
      * by rewrite lookup_insert_ne by congruence.
      * rewrite Hno, Hp. simpl. by apply Z.eqb_neq.
    + by rewrite Hh.
    + by rewrite Hs', lookup_insert_eq.
    + intros t Ho. by apply Hno' in Ho.
    + rewrite Hp. simpl. rewrite Z.eqb_refl. split; [lia | done].
    + intros l' q E. by rewrite Hp in E.
    + intros t th1 q Et _ Hq. by destruct (clear_holder_pos k l t th1 q h Hb Hl Et Hq Eh).
  - eapply (lock_plain_step k k' th th'); try done.
    + intros l. by rewrite Hs', lookup_insert_ne.
    + destruct s; try done. by destruct (Hnl l).
Qed.

Lemma pc_ok_tail i p : pc_ok (i :: p) → pc_ok p.
Proof. by intros (_ & _ & ?). Qed.

(** From [k], where a thread has just been switched to, the machine goes on
    to [k']: that thread runs, or it gives way to the next one. *)
Definition goes_on k k' : Prop :=
  (intr k' = INTR_ON ∧ running k' = running k ∧ ready_list k' = ready_list k
     ∧ thread_ticks k' = thread_ticks k ∧ idle_thread k' = idle_thread k)
  ∨ (intr k' = INTR_OFF ∧ switches k k').

(** A thread in [sema_down] either takes the semaphore and goes on or goes to
    sleep. *)
Lemma sema_loop_step k s sm th :
  core k → lock_inv k → intr k = INTR_OFF → threads k !! running k = Some th →
  hd_error (pc th) = Some (SemaDown s) → semas k !! s = Some sm →
  ∃ k', (d ← sema_loop s INTR_ON; if d : bool then advance (running k) [] else mret tt) k = Ok (tt, k')
    ∧ inv k' ∧ lock_inv k' ∧ goes_on k k'.
Proof.
  intros Hc Hl Hoff Hth Hpc Hs. pose proof (c_base _ Hc) as Hb. unfold mbind, M_bind.
  destruct (decide (value sm = 0)) as [Hv|Hv].
  { destruct (sema_sleep k s sm th INTR_ON) as (k' & -> & ? & ? & ? & ?); try done.
    exists k'. split_and!; try done. by right. }
  destruct (pc th) as [|i p] eqn:Ep; [done|]. simpl in Hpc. injection Hpc as ->.
  destruct (b_sem _ Hb _ _ Hs) as [Hv' HN].
  assert (running k ≠ idle_thread k) as Hni by (by eapply not_idle).
  pose proof (b_code _ Hb _ _ Hth Hni) as Hok. rewrite Ep in Hok.
  unfold sema_loop, mbind, M_bind, get_sem, set_sem, modify. rewrite Hs.
  rewrite (proj2 (Z.eqb_neq _ _) Hv). set (k1 := set_semas _ k).
  assert (core k1) as Hc1 by (apply (core_set_sem k s sm); [done..|lia|done|done]).
  rewrite intr_set_level_run by apply Hc1. set (k2 := set_intr INTR_ON k1).
  assert (core k2) as Hc2 by (by apply core_set_intr). unfold mret, M_ret.
  change (running k) with (running k2). rewrite (advance_run k2 th) by done.
  eexists. split; [done|].
  assert (core (stepped k2 th [])) as Hc3.
  { apply stepped_core; [done | done | | done]. intros _. simpl. rewrite Ep. by eapply pc_ok_tail. }
  split; [by apply core_inv|]. split; [|by left].
  eapply (lock_take k _ th _ s sm); try done; [by apply runs_insert | |].
  - intros l. by rewrite Ep.
  - simpl. rewrite Ep. simpl. destruct Hok as (_ & Hf & _).
    destruct s; destruct p; simpl in Hf; try done. subst. eauto.
Qed.

Lemma thread_unblock_run k t th :
  in_external_intr k = false → threads k !! t = Some th → 0 < t → magic th = THREAD_MAGIC →
  status th = THREAD_BLOCKED →
  thread_unblock t k
  = Ok (tt, set_intr (intr k) (set_threads (<[t := with_status THREAD_READY th]> (threads k))
              (set_ready_list (ready_list k ++ [t]) (set_intr INTR_OFF k)))).
Proof.
  intros Hctx Ht Hpos Hm Hst. unfold thread_unblock, mbind, M_bind.
  rewrite (is_thread_run k t th) by done. unfold ASSERT, intr_disable, mbind, M_bind, intr_get_level,
    gets, modify, mret, M_ret, get_thread, set_thread. simpl. rewrite Ht. simpl.
  rewrite bool_decide_eq_true_2 by done. simpl. rewrite Ht. simpl. by rewrite intr_set_level_run.
Qed.

(** The state after the first waiter [t] of [s] has been woken up. *)
Definition woken k (s : sem) (v : Z) (t : Z) (ts : list Z) (th : thread) : kernel :=
  set_semas (<[s := mk_semaphore v ts]> (semas k))
    (set_threads (<[t := with_status THREAD_READY th]> (threads k))
      (set_ready_list (ready_list k ++ [t]) k)).

Lemma woken_core k s sm v t ts th :
  core k → semas k !! s = Some sm → waiters sm = t :: ts → threads k !! t = Some th →
  0 ≤ v < 2^32 → (∀ c, s ≠ WaitSema c) → core (woken k s v t ts th).
Proof.
  intros Hc Hs Hw Hth Hv Hnw. pose proof (c_base _ Hc) as Hb.
  assert (t ∈ waiters sm) as Hin by (rewrite Hw; by left).
  pose proof (waiter_not_idle k s sm t Hb Hs Hin) as Hni.
  destruct (b_waiter _ Hb _ _ _ Hs Hin) as (th0 & old & E & Hst & Hf). simplify_eq.
  destruct (b_sem _ Hb _ _ Hs) as [_ HN]. rewrite Hw in HN. apply NoDup_cons in HN as [Hnt HN].
  assert (t ≠ running k) as Hnr by (intros ->; by eapply running_not_waiting).
  assert (durable s) as Hdur.
  { pose proof (b_code _ Hb _ _ Hth Hni) as Hok.
    pose proof (b_frame _ Hb _ _ _ _ Hth (or_introl Hst) Hf) as Hhd.
    destruct (pc th) as [|j q]; [done|]. simpl in Hhd. injection Hhd as ->.
    destruct Hok as ([?|[c ->]] & _); [done|]. by destruct (Hnw c). }
  destruct Hc as [_ Hcur Hu Hd]. destruct Hb. split; [split|..]; unfold woken; simpl; try done.
  - intros t' th1 E. lookups; simpl; eauto.
  - apply NoDup_app. split_and!; [done| |apply NoDup_singleton].
    intros t' Hr ->%list_elem_of_singleton. destruct (b_ready0 _ Hr) as (? & ? & ?). congruence.
  - intros t' [Hr|Hr]%elem_of_app.
    + destruct (decide (t' = t)) as [->|]; [rewrite lookup_insert_eq; by eexists|].
      rewrite lookup_insert_ne by done. eauto.
    + apply list_elem_of_singleton in Hr as ->. rewrite lookup_insert_eq. by eexists.
  - intros t' th1 E Hs' Hi. apply elem_of_app. lookups; [right; by left | left; eauto].
  - intros s' sm' E. lookups; simpl; eauto.
  - intros s' sm' t' E Hin'. destruct (decide (t' = t)) as [->|Hne].
    + exfalso. lookups; [done|]. destruct (b_waiter0 _ _ _ E Hin') as (? & ? & ? & ? & ?). congruence.
    + rewrite lookup_insert_ne by done. lookups; simpl in *; [|eauto].
      eapply b_waiter0; [done|]. rewrite Hw. by right.
  - intros t' th1 s' old' E Hs' Hf'. lookups; simpl in *; [|eauto]. eapply b_frame0; eauto.
  - intros t' th1 s' old' E Hs' Hf'. destruct (decide (s' = s)) as [->|Hne].
    { split; [done|]. by rewrite lookup_insert_eq. }
    rewrite lookup_insert_ne by done. lookups; simpl in *; [congruence | eauto].
  - intros t' th1 E. lookups; simpl; eauto.
  - destruct b_idle0 as (thi & ? & ?). exists thi. by rewrite lookup_insert_ne.
  - intros t' th1 E Hi. lookups; simpl; eauto.
  - intros t' th1 E Hi. lookups; simpl; eauto.
  - intros t' th1 E Hi. lookups; simpl in *; [|eauto]. eapply b_all0; [done|]. congruence.
  - intros t' th1 c E Hin'. apply live_insert. lookups; simpl in *; eauto.
  - intros c Hin'. apply live_insert. eauto.
  - destruct Hcur as (thc & ? & ?). exists thc. by rewrite lookup_insert_ne.
  - intros t' th1 E Hs'. lookups; simpl in *; [done | eauto].
  - intros t' th1 E Hs'. lookups; simpl in *; [done | eauto].
Qed.

(** What [sema_up] leaves behind, with interrupts on before and after. *)
Definition upped k (s : sem) (sm : semaphore) : kernel :=
  match waiters sm with
  | [] => set_semas (<[s := mk_semaphore (u32 (value sm + 1)) []]> (semas k)) k
  | t :: ts =>
      match threads k !! t with
      | Some th => woken k s (u32 (value sm + 1)) t ts th
      | None => k
      end
  end.

Lemma sema_up_run k s sm :
  core k → intr k = INTR_ON → semas k !! s = Some sm →
  ∃ k', sema_up s k = Ok (tt, k') ∧ k' = upped k s sm.
Proof.
  intros Hc Hon Hs. pose proof (c_base _ Hc) as Hb. eexists. split; [|reflexivity].
  unfold sema_up, intr_disable, intr_get_level, mbind, M_bind, gets, modify, mret, M_ret, get_sem, set_sem,
    upped, modify. simpl. rewrite Hs. destruct (waiters sm) as [|t ts] eqn:Ew.
  - simpl. rewrite Hs, Ew. rewrite intr_set_level_run by apply Hb. simpl. rewrite Hon. do 2 f_equal.
    destruct k; simpl in *; by subst.
  - assert (t ∈ waiters sm) as Hin by (rewrite Ew; by left).
    destruct (b_waiter _ Hb _ _ _ Hs Hin) as (th & old & E & Hst & Hf).
    destruct (b_thread _ Hb _ _ E) as [Hpos Hm].
    rewrite (thread_unblock_run _ t th) by (simpl; try done; apply Hb). simpl.
    rewrite lookup_insert_eq, E. simpl. rewrite intr_set_level_run by apply Hb. simpl. do 2 f_equal.
    unfold woken. rewrite insert_insert_eq. destruct k; simpl in *; by subst.
Qed.

Lemma upped_core k s sm : core k → semas k !! s = Some sm → (∀ c, s ≠ WaitSema c) → core (upped k s sm).
Proof.
  intros Hc Hs Hnw. pose proof (c_base _ Hc) as Hb. unfold upped.
  destruct (waiters sm) as [|t ts] eqn:Ew.
  - apply (core_set_sem k s sm); [done | done | apply u32_range | constructor | by intros t ?%elem_of_nil].
  - destruct (b_waiter _ Hb _ _ t Hs) as (th & old & E & _); [rewrite Ew; by left|]. rewrite E.
    by eapply woken_core; try done; apply u32_range.
Qed.

Lemma upped_facts k s sm :
  core k → semas k !! s = Some sm →
  running (upped k s sm) = running k ∧ idle_thread (upped k s sm) = idle_thread k
  ∧ intr (upped k s sm) = intr k ∧ holders (upped k s sm) = holders k
  ∧ (∀ s', s' ≠ s → semas (upped k s sm) !! s' = semas k !! s')
  ∧ (∃ sm1, semas (upped k s sm) !! s = Some sm1 ∧ value sm1 = u32 (value sm + 1))
  ∧ threads (upped k s sm) !! running k = threads k !! running k
  ∧ ∀ t, pc <$> threads (upped k s sm) !! t = pc <$> threads k !! t.
Proof.
  intros Hc Hs. pose proof (c_base _ Hc) as Hb. unfold upped.
  destruct (waiters sm) as [|t ts] eqn:Ew.
  - simpl. rewrite lookup_insert_eq. split_and!; try done; [|by eexists].
    intros s' Hne. by rewrite lookup_insert_ne.
  - assert (t ∈ waiters sm) as Hin by (rewrite Ew; by left).
    destruct (b_waiter _ Hb _ _ t Hs Hin) as (th & old & E & _). rewrite E. simpl.
    rewrite lookup_insert_eq. split_and!; try done.
    + intros s' Hne. by rewrite lookup_insert_ne.
    + by eexists.
    + rewrite lookup_insert_ne; [done|]. intros ->. by eapply running_not_waiting.
    + intros t'. destruct (decide (t' = t)) as [->|]; [by rewrite lookup_insert_eq, E|].
      by rewrite lookup_insert_ne.
Qed.

End invariant.
End Scheduler.
