(* ===== verification/SchedulerSteps.v ===== *)
(** * The scheduler and synchronisation: steps

    Every step of the machine of the file Synch preserves the invariant of the
    file Scheduler; what follows from it about locks, the scheduler's
    assertions and threads that wait. *)
From stdpp Require Import base gmap list.
From Stdlib Require Import ZArith Lia.
From S2P Require Import Prelude Vaddr Thread Synch Scheduler.

Module Steps.
Import Thread Synch Scheduler.

Section steps.
Context {St : Type} `{PageAllocator St}.
Local Abbreviation kernel := (@Thread.kernel St).
Implicit Types k : kernel.
#[local] Arguments intr_set_level : simpl never.

(** ** Steps of the running thread *)

Lemma sema_down_run k s :
  in_external_intr k = false → sema_down s k = sema_loop s (intr k) (set_intr INTR_OFF k).
Proof.
  intros Hctx. unfold sema_down, intr_disable, intr_context, intr_get_level, mbind, M_bind, gets, modify,
    mret, M_ret, ASSERT. by rewrite Hctx.
Qed.

(** Giving up the processor but staying ready. *)
Lemma yield_spec k fr :
  core k → lock_inv k → level_ok (fr (intr k)) → (∀ s old, fr (intr k) ≠ in_sema_down s old) →
  ∃ k', thread_yield fr k = Ok (tt, k') ∧ inv k' ∧ lock_inv k' ∧ intr k' = INTR_OFF
    ∧ switches (set_ready_list (ready_list k
                  ++ (if decide (running k ≠ idle_thread k) then [running k] else [])) k) k'.
Proof.
  intros Hc Hl Hlev Hfr. destruct (c_cur _ Hc) as (th & Hth & Hst).
  unfold thread_yield, intr_context, intr_disable, intr_get_level, set_thread. run.
  rewrite thread_current_run by by apply core_cur_ok. rewrite (b_context _ (c_base _ Hc)). simpl.
  set (th' := with_frame (fr (intr k)) (with_status THREAD_READY th)).
  set (rl := if decide (running k ≠ idle_thread k) then [running k] else []).
  set (k2 := set_threads (<[running k := th']> (threads k)) (set_ready_list (ready_list k ++ rl) (set_intr INTR_OFF k))).
  destruct (left_schedule k k2 th th' Hc Hl Hth) as (k' & Hk' & ?); [|done|done|done|].
  - split; try done; simpl.
    + intros s old E _. by apply Hfr in E.
    + unfold rl. f_equal. destruct (decide (running k ≠ idle_thread k)).
      * by rewrite decide_True.
      * rewrite decide_False by tauto. done.
    + intros s sm' E. exists sm'. auto.
  - exists k'. split; [|done]. rewrite <- Hk'. unfold k2, rl.
    destruct (Z.eqb_spec (running k) (idle_thread k)) as [E|Hne]; simpl; rewrite Hth.
    + rewrite decide_False by tauto. rewrite app_nil_r. by destruct k.
    + by rewrite decide_True.
Qed.

(** ** Lists of threads *)

(** Every element is the element of a live thread, or it has been freed. *)
Definition linked k (l : list Z) : Prop := ∀ c, c ∈ l → c = NULL ∨ is_Some (threads k !! c).

Lemma touch_run k e : (∀ c, e = Some c → is_Some (threads k !! c)) → touch e k = Ok (tt, k).
Proof. intros He. destruct e as [c|]; [|done]. destruct (He c eq_refl) as [th E]. unfold touch, get_thread. run. by rewrite E. Qed.
Lemma touch_fault k : threads k !! NULL = None → touch (Some NULL) k = Err Fault.
Proof. intros E. unfold touch, get_thread. run. by rewrite E. Qed.
Lemma push_run k l t : linked k l → last l ≠ Some NULL → thread_list_push_back l t k = Ok (l ++ [t], k).
Proof.
  intros Hl Hn. unfold thread_list_push_back. erewrite bind_ok; [done|]. apply touch_run. intros c E.
  destruct (Hl c) as [->|?]; [by apply last_Some_elem_of | done | done].
Qed.
Lemma push_fault k l t : threads k !! NULL = None → last l = Some NULL → thread_list_push_back l t k = Err Fault.
Proof. intros Hn E. unfold thread_list_push_back. rewrite E. apply bind_err. by apply touch_fault. Qed.
Lemma touch_cases k l e :
  linked k l → threads k !! NULL = None → (∀ c, e = Some c → c ∈ l) → touch e k = Ok (tt, k) ∨ touch e k = Err Fault ∧ NULL ∈ l.
Proof.
  intros Hl Hn He. destruct e as [c|]; [|by left]. destruct (Hl c (He c eq_refl)) as [->|Hc].
  - right. split; [by apply touch_fault | by apply He].
  - left. apply touch_run. by intros ? [= <-].
Qed.
(** Taking an element out of a list can only fail at a neighbour that has been
    freed. *)
Lemma remove_cases k l t :
  linked k l → threads k !! NULL = None → t ∈ l →
  (∃ l', thread_list_remove l t k = Ok (l', k) ∧ (∀ u, u ∈ l' → u ∈ l) ∧ ∀ u, u ∈ l → u ≠ t → u ∈ l')
  ∨ thread_list_remove l t k = Err Fault ∧ NULL ∈ l.
Proof.
  intros Hl Hn Ht. unfold thread_list_remove. destruct (list_find_elem_of (t =.) l t Ht eq_refl) as [[i x] Ei]. rewrite Ei.
  apply list_find_Some in Ei as (Ei & <- & _).
  destruct (touch_cases k l (match i with O => None | Datatypes.S j => l !! j end) Hl Hn) as [E1|[E1 ?]].
  { intros c Hc. destruct i; [done|]. by eapply list_elem_of_lookup_2. }
  2: { right. by erewrite bind_err. }
  erewrite (bind_ok _ _ _ _ _ E1).
  destruct (touch_cases k l (l !! Datatypes.S i) Hl Hn) as [E2|[E2 ?]]; [intros c Hc; by eapply list_elem_of_lookup_2| |right; by erewrite bind_err].
  left. exists (delete i l). split; [by erewrite bind_ok|]. rewrite delete_take_drop.
  assert (l = take i l ++ t :: drop (Datatypes.S i) l) as Hsplit by (by rewrite take_drop_middle).
  split; intros u Hu; [rewrite Hsplit; set_solver|]. rewrite Hsplit in Hu. set_solver.
Qed.
Lemma not_null k : base k → threads k !! NULL = None.
Proof. intros Hb. destruct (threads k !! NULL) eqn:E; [|done]. by destruct (b_thread _ Hb _ _ E). Qed.

(** The end of a thread. *)
Lemma exit_cases k th :
  core k → lock_inv k → threads k !! running k = Some th → running k ≠ idle_thread k →
  (∀ l, owns l (pc th) = false) →
  (∃ k', thread_exit k = Ok (tt, k') ∧ inv k' ∧ lock_inv k') ∨ thread_exit k = Err Fault ∧ NULL ∈ all_list k.
Proof.
  intros Hc Hl Hth Hni Hown. destruct (core_cur_ok _ Hc) as (th0 & E0 & Hpos & Hm & Hst). rewrite Hth in E0. injection E0 as <-.
  unfold thread_exit, process_exit, intr_context, intr_disable, intr_get_level, set_thread. run.
  rewrite (b_context _ (c_base _ Hc)). simpl. rewrite thread_current_run by by apply core_cur_ok.
  rewrite Hth. simpl. set (th1 := with_pagedir NULL th). set (k1 := set_intr _ _).
  rewrite thread_current_run by (exists th1; simpl; by rewrite lookup_insert_eq).
  destruct (remove_cases k1 (all_list k) (running k)) as [(l & E & Hsub & Hsup)|[E ?]].
  { intros c Hin. simpl. apply live_insert. by apply (b_listed _ (c_base _ Hc)). }
  { simpl. rewrite lookup_insert_ne by (unfold NULL; lia). by apply not_null, c_base. }
  { apply (b_all _ (c_base _ Hc) _ _ Hth). by rewrite Hst. }
  2: { right. split; [|done]. unfold k1 in E |- *. simpl in *. by rewrite E. }
  left. unfold k1 in E |- *. simpl in *. rewrite E. simpl. rewrite lookup_insert_eq. set (k2 := set_threads _ _).
  destruct (left_schedule k k2 th (with_status THREAD_DYING th1) Hc Hl Hth) as (k' & Hk' & ? & ? & _);
    [|done|done|done|by exists k'].
  split; try done; simpl.
  - by rewrite insert_insert_eq.
  - exact (b_level _ (c_base _ Hc) _ _ Hth).
  - intros s old _ [?|?]; done.
  - by rewrite app_nil_r.
  - intros s sm' E'. exists sm'. auto.
  - intros t Ht [Hne|?]; [auto | done].
Qed.

(** A step that concerns no lock: other data have changed from [k] to [k1],
    and the running thread goes on as [th']. *)
Lemma plain_touch k k1 th th' :
  core k1 → lock_inv k → intr k1 = INTR_ON → running k1 = running k → idle_thread k1 = idle_thread k →
  threads k1 = threads k → holders k1 = holders k →
  (∀ l, value <$> semas k1 !! LockSem l = value <$> semas k !! LockSem l) →
  threads k !! running k = Some th →
  status th' = status th → magic th' = magic th → frame th' = frame th →
  (∀ c, c ∈ child_list th' → c ∈ child_list th) →
  (∀ l, owns l (pc th) = false) → plain_head (pc th') → running k ≠ idle_thread k → pc_ok (pc th') →
  inv (touched k1 th') ∧ lock_inv (touched k1 th').
Proof.
  intros Hc Hl Hon Hr Hi Ht Hh Hs Hth Est Em Ef Hch Hno Hpl Hni Hok. split.
  - apply core_inv; [|done]. apply (touched_core k1 th); rewrite ?Hr, ?Hi, ?Ht; try done.
    + rewrite Ef. apply (b_level _ (c_base _ Hc) (running k)). by rewrite Ht.
    + intros c Hin. rewrite <- Ht. apply (b_child _ (c_base _ Hc) (running k) th); [by rewrite Ht | auto].
  - apply (lock_plain_step k _ th th'); try done. apply runs_insert. simpl. by rewrite Hr, Ht.
Qed.

Lemma thread_get_child_run k id o k' :
  core k → thread_get_child id k = Ok (o, k') → k' = k.
Proof.
  intros Hc. unfold thread_get_child. run. rewrite thread_current_run by by apply core_cur_ok.
  unfold get_thread. destruct (threads k !! running k) as [th|]; [|done].
  induction (child_list th) as [|c cs IH]; [by intros [= _ <-]|].
  destruct (threads k !! c) as [thc|]; [|done].
  destruct (tid thc =? id); [by intros [= _ <-] | exact IH].
Qed.

(** ** Creating threads *)

(** The semaphores of a new thread [t]. *)
Definition thread_semas (t : Z) (m : gmap sem semaphore) : gmap sem semaphore :=
  <[LoadSema t := mk_semaphore 0 []]> (<[DestroySema t := mk_semaphore 0 []]>
    (<[WaitSema t := mk_semaphore 0 []]> m)).

(** [k'] is [k] after [thread_create] made the thread [nt] at the page [t]. *)
Record created k k' (t : Z) (nt : thread) : Prop := {
  cr_threads : ∃ th, threads k !! running k = Some th
    ∧ threads k' = <[t := nt]> (<[running k := with_child_list (child_list th ++ [t]) th]> (threads k));
  cr_new : 0 < t ∧ t mod Vaddr.PGSIZE = 0 ∧ threads k !! t = None ∧ pa_used (pages k') t;
  cr_thread : status nt = THREAD_READY ∧ magic nt = THREAD_MAGIC ∧ frame nt = in_kernel_thread
    ∧ pc nt = [] ∧ child_list nt = [] ∧ tid nt = next_tid k;
  cr_ready : ready_list k' = ready_list k ++ [t];
  cr_all : all_list k' = all_list k ++ [t];
  cr_semas : semas k' = thread_semas t (semas k);
  cr_same : running k' = running k ∧ idle_thread k' = idle_thread k ∧ initial_thread k' = initial_thread k
    ∧ conds k' = conds k ∧ holders k' = holders k ∧ intr k' = intr k
    ∧ in_external_intr k' = in_external_intr k ∧ tid_lock k' = None ∧ next_tid k' = s32 (next_tid k + 1);
  cr_pages : pa_inv (pages k') ∧ (∀ q, pa_managed (pages k') q ↔ pa_managed (pages k) q)
    ∧ ∀ q, pa_used (pages k) q → pa_used (pages k') q
}.

(** [k'] is [k] after [thread_create] failed; if it did so after the page had
    been initialised, the element of the freed page stays in [all_list]. *)
Record not_created k k' (l : list Z) : Prop := {
  nc_threads : threads k' = threads k;
  nc_ready : ready_list k' = ready_list k;
  nc_all : all_list k' = all_list k ++ l;
  nc_semas s : durable s → semas k' !! s = semas k !! s;
  nc_gone s : semas k' !! s = semas k !! s ∨ semas k' !! s = None;
  nc_same : running k' = running k ∧ idle_thread k' = idle_thread k ∧ initial_thread k' = initial_thread k
    ∧ conds k' = conds k ∧ holders k' = holders k ∧ intr k' = intr k
    ∧ in_external_intr k' = in_external_intr k ∧ tid_lock k' = None;
  nc_pages : pa_inv (pages k') ∧ (∀ q, pa_managed (pages k') q ↔ pa_managed (pages k) q)
    ∧ ∀ q, pa_used (pages k') q ↔ pa_used (pages k) q
}.

Lemma thread_semas_lookup t m s :
  thread_semas t m !! s = m !! s
  ∨ ¬ durable s ∧ thread_semas t m !! s = Some (mk_semaphore 0 []).
Proof.
  unfold thread_semas.
  destruct (decide (s = LoadSema t)) as [->|]; [right; split; [by intros [] | by rewrite lookup_insert_eq]|].
  rewrite lookup_insert_ne by done.
  destruct (decide (s = DestroySema t)) as [->|]; [right; split; [by intros [] | by rewrite lookup_insert_eq]|].
  rewrite lookup_insert_ne by done.
  destruct (decide (s = WaitSema t)) as [->|]; [right; split; [by intros [] | by rewrite lookup_insert_eq]|].
  rewrite lookup_insert_ne by done. by left.
Qed.

(** A new thread among the others. *)
Lemma added_core k k' t nt :
  core k → threads k !! t = None → threads k' = <[t := nt]> (threads k) →
  0 < t → magic nt = THREAD_MAGIC → status nt = THREAD_READY → frame nt = in_kernel_thread → pc nt = [] → child_list nt = [] →
  ready_list k' = ready_list k ++ [t] → all_list k' = all_list k ++ [t] →
  semas k' = thread_semas t (semas k) →
  running k' = running k → idle_thread k' = idle_thread k → initial_thread k' = initial_thread k →
  conds k' = conds k → in_external_intr k' = in_external_intr k → tid_lock k' = None →
  pa_inv (pages k') → (∀ q, pa_managed (pages k') q ↔ pa_managed (pages k) q) →
  (∀ q, pa_used (pages k) q → pa_used (pages k') q) → pa_used (pages k') t →
  core k'.
Proof.
  intros Hc Hnew Ht Hpos Hm Hst Hf Hp Hch Hrd Hal Hse Hr Hid Hini Hco Hx Htl Hpi Hman Hus Hu.
  assert (∀ s sm, semas k' !! s = Some sm → semas k !! s = Some sm ∨ sm = mk_semaphore 0 []) as Hsm.
  { intros s sm. rewrite Hse. destruct (thread_semas_lookup t (semas k) s) as [->|[_ ->]]; [by left|].
    intros [= <-]. by right. }
  destruct Hc as [Hb (thc & Hthc & Hstc) Hun Hdy]. destruct Hb.
  assert (∀ t' th, threads k !! t' = Some th → threads k' !! t' = Some th) as Hold.
  { intros t' th E. rewrite Ht, lookup_insert_ne by congruence. done. }
  split; [split|..]; rewrite ?Ht, ?Hr, ?Hid, ?Hini, ?Hco, ?Hx; try done.
  - intros t' th E. lookups; eauto.
  - rewrite Hrd. apply NoDup_app. split_and!; [done| |apply NoDup_singleton].
    intros t' Hin ->%list_elem_of_singleton. destruct (b_ready0 _ Hin) as (? & ? & ?). congruence.
  - intros t'. rewrite Hrd, <- Ht. intros [Hin|Hin]%elem_of_app.
    + destruct (b_ready0 _ Hin) as (th & ? & ?). exists th. auto.
    + apply list_elem_of_singleton in Hin as ->. rewrite Ht, lookup_insert_eq. eauto.
  - intros t' th E Hs Hi. rewrite Hrd. apply elem_of_app. lookups; [right; by left | left; eauto].
  - intros s sm E. destruct (Hsm s sm E) as [?| ->]; [eauto|]. split; [done | constructor].
  - intros s sm t' E Hin. destruct (Hsm s sm E) as [E'| ->]; [|by apply elem_of_nil in Hin].
    destruct (b_waiter0 _ _ _ E' Hin) as (th & old & ? & ?). exists th, old. rewrite <- Ht. auto.
  - intros t' th s old E Hs Hfr. lookups; [congruence | eauto].
  - intros t' th s old E Hs Hfr. lookups; [congruence|]. destruct (b_woken0 _ _ _ _ E Hs Hfr).
    split; [done|]. rewrite Hse. by destruct (thread_semas_lookup t (semas k) s) as [->|[? _]].
  - intros t' th E. lookups; [by rewrite Hf | eauto].
  - destruct b_idle0 as (thi & ? & ?). exists thi. rewrite <- Ht. auto.
  - intros t' th E Hi. lookups; [by rewrite Hp | eauto].
  - split; [done|]. rewrite Hman. by destruct b_pages0.
  - intros t' th E Hi. lookups; eauto.
  - intros t' th E Hi. rewrite Hal. apply elem_of_app. lookups; [right; by left | left; eauto].
  - intros t' th c E Hin. apply live_insert. lookups; [rewrite Hch in Hin; by apply elem_of_nil in Hin | eauto].
  - intros c. rewrite Hal. intros [Hin| ->%list_elem_of_singleton]%elem_of_app; [apply live_insert; eauto|].
    right. by rewrite lookup_insert_eq.
  - exists thc. rewrite <- Ht. auto.
  - intros t' th E Hs. lookups; [congruence | eauto].
  - intros t' th E Hs. lookups; [congruence | eauto].
Qed.

Lemma created_core k k' t nt : core k → created k k' t nt → core k'.
Proof.
  intros Hc [(th & Hth & Ht) (Hpos & _ & Hnew & Hu) (Hst & Hm & Hf & Hp & Hch & _) Hrd Hal Hse
    (Hr & Hid & Hini & Hco & Hh & Hi & Hx & Htl & _) (Hpi & Hman & Hus)].
  set (k1 := set_threads (<[t := nt]> (threads k)) k'). assert (core k1) as Hc1 by (by apply (added_core k k1 t nt)).
  set (th' := with_child_list (child_list th ++ [t]) th). assert (t ≠ running k) as Hne by congruence.
  assert (k' = touched k1 th') as Ek.
  { unfold touched, k1. simpl. rewrite Hr, <- insert_insert_ne by done. fold th' in Ht. rewrite <- Ht. by destruct k'. }
  rewrite Ek. clear Ek.
  assert (threads k1 !! running k1 = Some th) as Hth1 by (simpl; by rewrite Hr, lookup_insert_ne).
  apply (touched_core k1 th); try done.
  - exact (b_level _ (c_base _ Hc1) _ _ Hth1).
  - exact (b_code _ (c_base _ Hc1) _ _ Hth1).
  - intros E. rewrite E in Hth1. destruct (b_idle _ (c_base _ Hc1)) as (? & ? & _ & ?). by simplify_eq.
  - intros c [Hin| ->%list_elem_of_singleton]%elem_of_app; [by apply (b_child _ (c_base _ Hc1) _ _ c Hth1)|].
    right. simpl. by rewrite lookup_insert_eq.
Qed.

Lemma created_lock k k' t nt : lock_inv k → created k k' t nt → lock_inv k'.
Proof.
  intros Hl [(th & Hth & Ht) (Hpos & _ & Hnew & Hu) (Hst & Hm & Hf & Hp & _) Hrd Hal Hse
    (Hr & Hid & Hini & Hco & Hh & Hi & Hx & Htl & _) _].
  eapply lock_inv_same; [done | | | |exact Hl]; rewrite ?Ht.
  - intros l. rewrite Hse. by destruct (thread_semas_lookup t (semas k) (LockSem l)) as [->|[[] _]].
  - intros t' th' E. lookups; [by left | right; by exists th | right; by exists th'].
  - intros l t' th' E _. rewrite lookup_insert_ne by congruence.
    destruct (decide (t' = running k)) as [->|]; [|rewrite lookup_insert_ne by done; by eexists].
    rewrite lookup_insert_eq. simplify_eq. by eexists.
Qed.

Lemma not_created_inv k k' l :
  core k → lock_inv k → not_created k k' l → (∀ c, c ∈ l → c = NULL) → core k' ∧ lock_inv k'.
Proof.
  intros Hc Hl Hn Hnull. destruct Hn as [Ht Hrd Hal Hdur Hgone (Hr & Hid & Hini & Hco & Hh & Hi & Hx & Htl) (Hpi & Hman & Hus)].
  assert (∀ s sm, semas k' !! s = Some sm → semas k !! s = Some sm) as Hsm.
  { intros s sm E. destruct (Hgone s); congruence. }
  split.
  - destruct Hc as [Hb Hcur Hun Hdy]. destruct Hb.
    split; [split|..]; rewrite ?Ht, ?Hr, ?Hid, ?Hini, ?Hco, ?Hx, ?Hrd; try done.
    + intros s sm E. eauto.
    + intros s sm t' E. eauto.
    + intros t' th s old E Hs Hfr. destruct (b_woken0 _ _ _ _ E Hs Hfr). split; [done|]. by rewrite Hdur.
    + split; [done|]. rewrite Hman. by destruct b_pages0.
    + intros t' th E Hne. apply Hus. eauto.
    + intros t' th E Hs. rewrite Hal. apply elem_of_app. left. eauto.
    + intros c. rewrite Hal. intros [Hin|Hin]%elem_of_app; eauto.
  - eapply lock_inv_same; [done | | | |exact Hl]; rewrite ?Ht; [|eauto..].
    intros l'. by rewrite Hdur.
Qed.

Lemma init_thread_run k t nm prio code :
  in_external_intr k = false → t ≠ NULL → PRI_MIN ≤ prio ≤ PRI_MAX →
  linked k (all_list k) → last (all_list k) ≠ Some NULL →
  init_thread t nm prio code k
  = Ok (tt, set_all_list (all_list k ++ [t]) (set_semas (thread_semas t (semas k))
      (set_threads (<[t := mk_thread 0 THREAD_BLOCKED (take 15 nm) (u32 (t + Vaddr.PGSIZE)) prio
                             0 [] NULL THREAD_MAGIC in_kernel_thread [] code]> (threads k)) k))).
Proof.
  intros Hx Hnull Hp Hl Hlast. unfold init_thread, sema_init, intr_disable, intr_get_level. run.
  rewrite (proj2 (Z.eqb_neq _ _) Hnull). simpl.
  rewrite (proj2 (Z.leb_le _ _) (proj1 Hp)), (proj2 (Z.leb_le _ _) (proj2 Hp)). simpl.
  rewrite push_run; [|intros c Hin; simpl; by apply live_insert, Hl | done].
  rewrite intr_set_level_run by done. by destruct k.
Qed.
Lemma init_thread_fault k t nm prio code :
  t ≠ NULL → PRI_MIN ≤ prio ≤ PRI_MAX → threads k !! NULL = None → last (all_list k) = Some NULL →
  init_thread t nm prio code k = Err Fault.
Proof.
  intros Hnull Hp Hn Hlast. unfold init_thread, sema_init, intr_disable, intr_get_level. run.
  rewrite (proj2 (Z.eqb_neq _ _) Hnull). simpl.
  rewrite (proj2 (Z.leb_le _ _) (proj1 Hp)), (proj2 (Z.leb_le _ _) (proj2 Hp)). simpl.
  by rewrite push_fault by (simpl; rewrite ?lookup_insert_ne; done).
Qed.

Lemma allocate_tid_run k :
  tid_lock k = None → allocate_tid k = Ok (next_tid k, set_next_tid (s32 (next_tid k + 1)) k).
Proof.
  intros Hn. unfold allocate_tid, running_thread, zoom, lock_acquire, lock_release. run. rewrite Hn. simpl.
  rewrite Z.eqb_refl. unfold set_tid_lock, set_next_tid; simpl. by rewrite Hn.
Qed.

Lemma alloc_frame_run k t th size :
  threads k !! t = Some th → 0 < t → magic th = THREAD_MAGIC → size mod 4 = 0 →
  alloc_frame t size k
  = Ok (u32 (stack th - size),
        set_threads (<[t := with_stack (u32 (stack th - size)) th]> (threads k)) k).
Proof.
  intros Ht Hpos Hm Hs. unfold alloc_frame, set_thread, get_thread. run.
  rewrite (is_thread_run k t th) by done. simpl. rewrite Hs. simpl. rewrite Ht. simpl.
  by rewrite lookup_insert_eq.
Qed.

(** A page that is not in use holds no thread. *)
Lemma fresh_page k t :
  base k → ¬ pa_used (pages k) t → pa_managed (pages k) t → threads k !! t = None.
Proof.
  intros Hb Hu Hm. destruct (threads k !! t) as [th|] eqn:E; [|done].
  destruct (decide (t = initial_thread k)) as [->|Hne]; [by destruct (b_pages _ Hb)|].
  by apply (b_used _ Hb) in E.
Qed.

(** The page [t] has been taken from the allocator, which now has the state
    [s]. *)
Definition page_taken k (t : Z) (s : St) : Prop :=
  0 < t ∧ t mod Vaddr.PGSIZE = 0 ∧ threads k !! t = None ∧ pa_inv s ∧ ¬ pa_used (pages k) t
  ∧ (∀ q, pa_managed s q ↔ pa_managed (pages k) q) ∧ (∀ q, pa_used s q ↔ pa_used (pages k) q ∨ q = t).

Lemma get_thread_page k :
  core k →
  ∃ t s, pa_get 1 (pages k) = Ok (t, s)
    ∧ (t = NULL ∧ not_created k (set_pages s k) [] ∨ page_taken k t s).
Proof.
  intros Hc. destruct (b_pages _ (c_base _ Hc)) as [Hpi Hini].
  destruct (pa_get_ok (pages k) 1 Hpi) as (t & s & E & Hpi' & Hman & Hcase); [lia|].
  exists t, s. split; [done|]. destruct Hcase as [(-> & Hus)|(Hpos & Hal & Hfree & Hus)].
  - left. split; [done|]. split; simpl; try done; [by rewrite app_nil_r | by left |].
    split_and!; try done. apply Hc.
  - right. destruct (Hfree 0) as [Hnu Hm]; [lia|]. rewrite Z.mul_0_r, Z.add_0_r in Hnu, Hm.
    split_and!; try done.
    + by apply fresh_page; [apply Hc|..].
    + intros q. rewrite Hus. split.
      * intros [?|(i & ? & ->)]; [by left|]. right. assert (i = 0) as -> by lia. lia.
      * intros [?| ->]; [by left|]. right. exists 0. lia.
Qed.

Lemma create_fails k t s nm prio code s1 s2 :
  core k → page_taken k t s → PRI_MIN ≤ prio ≤ PRI_MAX → last (all_list k) ≠ Some NULL → pa_get 1 (pages k) = Ok (t, s) →
  pa_get 2 s = Ok (NULL, s1) → (∀ q, pa_used s1 q ↔ pa_used s q) → (∀ q, pa_managed s1 q ↔ pa_managed s q) →
  pa_free t s1 = Ok (tt, s2) → pa_inv s2 →
  (∀ q, pa_managed s2 q ↔ pa_managed s1 q) → (∀ q, pa_used s2 q ↔ pa_used s1 q ∧ q ≠ t) →
  ∃ k', thread_create nm prio code k = Ok (TID_ERROR, k') ∧ not_created k k' [NULL].
Proof.
  intros Hc (Hpos & Hal & Hnew & Hpi & Hnu & Hman & Hus) Hpr Hlast Hg Hg2 Hus1 Hman1 Hf Hpi2 Hman2 Hus2.
  unfold thread_create, zoom, set_thread, palloc_free_page. run. rewrite Hg.
  rewrite (proj2 (Z.eqb_neq t NULL)) by (unfold NULL; lia).
  rewrite init_thread_run by (simpl; first [exact (b_listed _ (c_base _ Hc)) | apply Hc | unfold NULL; lia | done]).
  rewrite allocate_tid_run by apply Hc. simpl. rewrite lookup_insert_eq. simpl. rewrite Hg2. simpl. rewrite Hf.
  assert (∀ l, linked k l → t ∉ l) as Hfresh.
  { intros l Hl Hin. destruct (Hl t Hin) as [->|[th E]]; [by unfold NULL in Hpos | congruence]. }
  eexists. split; [done|]. split; simpl; try done.
  - rewrite insert_insert_eq, delete_insert_id by done. apply map_eq. intros u. rewrite lookup_fmap.
    destruct (threads k !! u) as [th|] eqn:E; [|done]. simpl. unfold forget_child. rewrite forget_not_in.
    + by destruct th.
    + apply Hfresh. intros c. by apply (b_child _ (c_base _ Hc) u).
  - unfold forget. rewrite fmap_app. fold (forget t (all_list k)). rewrite forget_not_in; [by cbn; rewrite Z.eqb_refl|].
    apply Hfresh. exact (b_listed _ (c_base _ Hc)).
  - intros s0 Hd. rewrite !lookup_delete_ne by (by destruct s0).
    by destruct (thread_semas_lookup t (semas k) s0) as [->|[? _]].
  - intros s0. unfold thread_semas.
    destruct (decide (s0 = WaitSema t)) as [->|]; [right; by rewrite lookup_delete_eq|].
    rewrite lookup_delete_ne by done.
    destruct (decide (s0 = DestroySema t)) as [->|]; [right; by rewrite lookup_delete_eq|].
    rewrite lookup_delete_ne by done.
    destruct (decide (s0 = LoadSema t)) as [->|]; [right; by rewrite lookup_delete_eq|].
    left. by rewrite lookup_delete_ne, !lookup_insert_ne by done.
  - split_and!; try done. apply Hc.
  - split_and!; [done|..]; intros q.
    + by rewrite Hman2, Hman1, Hman.
    + rewrite Hus2, Hus1, Hus. split; [intros [[?|?] ?]; done|]. intros Hq. split; [by left|]. by intros ->.
Qed.

(** The new thread is linked behind the last child of the running thread, and
    made ready. *)
Lemma create_succeeds k t s nm prio code fd s1 th :
  core k → page_taken k t s → PRI_MIN ≤ prio ≤ PRI_MAX → last (all_list k) ≠ Some NULL → pa_get 1 (pages k) = Ok (t, s) →
  pa_get 2 s = Ok (fd, s1) → fd ≠ NULL → pa_inv s1 →
  (∀ q, pa_used s q → pa_used s1 q) → (∀ q, pa_managed s1 q ↔ pa_managed s q) →
  threads k !! running k = Some th →
  (thread_create nm prio code k = Err Fault ∧ last (child_list th) = Some NULL)
  ∨ ∃ k' nt, thread_create nm prio code k = Ok (next_tid k, k') ∧ created k k' t nt
    ∧ name nt = take 15 nm ∧ priority nt = prio ∧ ops nt = code ∧ child_list nt = [].
Proof.
  intros Hc (Hpos & Hal & Hnew & Hpi & Hnu & Hman & Hus) Hpr Hlast Hg Hg2 Hfd Hpi1 Hus1 Hman1 Hth.
  destruct (core_cur_ok _ Hc) as (th0 & E0 & Hrp & Hm & Hst). rewrite Hth in E0. injection E0 as <-.
  assert (t ≠ running k) as Hnr by congruence.
  unfold thread_create, zoom, set_thread. run. rewrite Hg.
  rewrite (proj2 (Z.eqb_neq t NULL)) by (unfold NULL; lia).
  rewrite init_thread_run by (simpl; first [exact (b_listed _ (c_base _ Hc)) | apply Hc | unfold NULL; lia | done]).
  rewrite allocate_tid_run by apply Hc. simpl. rewrite lookup_insert_eq. simpl. rewrite Hg2. simpl.
  rewrite (proj2 (Z.eqb_neq fd NULL)) by done. rewrite insert_insert_eq.
  rewrite thread_current_run by (exists th; simpl; by rewrite lookup_insert_ne). simpl.
  unfold get_thread. simpl. rewrite lookup_insert_ne, Hth by done.
  destruct (decide (last (child_list th) = Some NULL)) as [Hd|Hd].
  { left. split; [|done]. rewrite push_fault; [done | simpl | done].
    rewrite lookup_insert_ne by (unfold NULL; lia). by apply not_null, c_base. }
  right. rewrite push_run; [|intros c Hin; simpl; by apply live_insert, (b_child _ (c_base _ Hc) (running k) th) | done].
  simpl. rewrite lookup_insert_ne, Hth by done. set (k1 := set_threads _ _). set (nt := with_tid _ _) in k1.
  assert (threads k1 !! t = Some nt) as E1 by (simpl; by rewrite lookup_insert_ne, lookup_insert_eq by done).
  rewrite (alloc_frame_run k1 t nt) by done.
  rewrite (alloc_frame_run _ t (with_stack (u32 (stack nt - 12)) nt)) by (simpl; by rewrite ?lookup_insert_eq).
  simpl. set (nt2 := with_stack (u32 (_ - 4)) _).
  rewrite (alloc_frame_run _ t nt2) by (simpl; by rewrite ?lookup_insert_eq).
  set (nt3 := with_stack (u32 (stack nt2 - 28)) nt2).
  rewrite (thread_unblock_run _ t nt3) by (simpl; rewrite ?lookup_insert_eq; first [done | apply Hc]).
  eexists _, (with_status THREAD_READY nt3). split; [done|]. split; [|done]. split; simpl; try done.
  - exists th. split; [done|]. rewrite !insert_insert_eq.
    by rewrite (insert_insert_ne _ (running k) t), insert_insert_eq.
  - split_and!; try done. apply Hus1, Hus. by right.
  - split_and!; try done. apply Hc.
  - split_and!; [done|..]; intros q; [by rewrite Hman1, Hman|]. intros Hq. apply Hus1, Hus. by left.
Qed.

(** An element that was freed is at the end of [all_list], or of the list of
    children of the running thread. *)
Definition dangling k : Prop :=
  last (all_list k) = Some NULL ∨ ∃ th, threads k !! running k = Some th ∧ last (child_list th) = Some NULL.

Lemma create_spec k nm prio code :
  core k → PRI_MIN ≤ prio ≤ PRI_MAX →
  (thread_create nm prio code k = Err Fault ∧ dangling k)
  ∨ ∃ r k', thread_create nm prio code k = Ok (r, k')
    ∧ (r = TID_ERROR ∧ (∃ l, not_created k k' l ∧ (l = [] ∨ l = [NULL]))
       ∨ r = next_tid k ∧ ∃ t nt, created k k' t nt
           ∧ name nt = take 15 nm ∧ priority nt = prio ∧ ops nt = code ∧ child_list nt = []).
Proof.
  intros Hc Hp. destruct (get_thread_page k Hc) as (t & s & Hg & [[-> Hn]|Hpt]).
  - right. exists TID_ERROR, (set_pages s k). split; [unfold thread_create, zoom; run; by rewrite Hg|].
    left. split; [done|]. exists []. auto.
  - pose proof Hpt as (Hpos & Hal & Hnew & Hpi & Hnu & Hman & Hus).
    destruct (decide (last (all_list k) = Some NULL)) as [Hlast|Hlast].
    { left. split; [|by left]. unfold thread_create, zoom. run. rewrite Hg. rewrite (proj2 (Z.eqb_neq t NULL)) by (unfold NULL; lia).
      rewrite init_thread_fault; try done; [unfold NULL; lia | exact (not_null k (c_base _ Hc))]. }
    destruct (pa_get_ok s 2 Hpi) as (fd & s1 & Hg2 & Hpi1 & Hman1 & Hcase); [lia|].
    destruct Hcase as [(-> & Hus1)|(Hfd & _ & _ & Hus1)].
    + destruct (pa_free_ok s1 t Hpi1) as (s2 & Hf & Hpi2 & Hman2 & Hus2); [apply Hus1, Hus; by right|].
      destruct (create_fails k t s nm prio code s1 s2) as (k' & E & Hn); try done.
      right. exists TID_ERROR, k'. split; [done|]. left. split; [done|]. exists [NULL]. eauto.
    + destruct (c_cur _ Hc) as (th & Hth & _).
      destruct (create_succeeds k t s nm prio code fd s1 th) as [[E Hd]|(k' & nt & E & Hcr & ?)]; try done.
      * unfold NULL; lia.
      * intros q Hq. apply Hus1. by left.
      * left. split; [done|]. right. eauto.
      * right. exists (next_tid k), k'. split; [done|]. right. split; [done|]. exists t, nt. done.
Qed.

(** A priority that does not exist. *)
Lemma create_priority k nm prio code :
  core k → ¬ (PRI_MIN ≤ prio ≤ PRI_MAX) →
  thread_create nm prio code k = Err Panic ∨ ∃ k', thread_create nm prio code k = Ok (TID_ERROR, k') ∧ not_created k k' [].
Proof.
  intros Hc Hp. destruct (get_thread_page k Hc) as (t & s & Hg & [[-> Hn]|Hpt]).
  - right. eexists. split; [|exact Hn]. unfold thread_create, zoom. run. by rewrite Hg.
  - left. destruct Hpt as (Hpos & _). unfold thread_create, zoom, init_thread. run.
    rewrite Hg, (proj2 (Z.eqb_neq t NULL)) by (unfold NULL; lia). simpl.
    destruct (Z.leb_spec PRI_MIN prio), (Z.leb_spec prio PRI_MAX); simpl; done || lia.
Qed.

Lemma create_inv k nm prio code r k' :
  core k → lock_inv k → thread_create nm prio code k = Ok (r, k') →
  core k' ∧ lock_inv k' ∧ intr k' = intr k ∧ running k' = running k
  ∧ idle_thread k' = idle_thread k
  ∧ ∀ th, threads k !! running k = Some th →
      ∃ cs, threads k' !! running k = Some (with_child_list cs th).
Proof.
  intros Hc Hl Hrun.
  assert ((∃ l, not_created k k' l ∧ ∀ c, c ∈ l → c = NULL) ∨ ∃ t nt, created k k' t nt) as [(l & Hn & Hnull)|(t & nt & Hcr)].
  { destruct (decide (PRI_MIN ≤ prio ≤ PRI_MAX)) as [Hp|Hp].
    - destruct (create_spec k nm prio code Hc Hp) as [[E _]|(r' & k1 & E & Hcase)]; rewrite E in Hrun; [done|].
      injection Hrun as _ <-. destruct Hcase as [(_ & l & Hn & Hor)|(_ & t & nt & Hcr & _)]; [left | right; eauto].
      exists l. split; [done|]. destruct Hor as [-> | ->]; set_solver.
    - left. destruct (create_priority k nm prio code Hc Hp) as [E|(k1 & E & Hn)]; rewrite E in Hrun; [done|].
      injection Hrun as _ <-. exists []. split; [done | set_solver]. }
  - destruct (not_created_inv k k' l Hc Hl Hn Hnull) as [? ?].
    destruct Hn as [Ht _ _ _ _ (Hr & Hid & _ & _ & _ & Hi & _) _]. split_and!; try done.
    intros th Hth. exists (child_list th). rewrite Ht, Hth. by destruct th.
  - split; [by eapply created_core|]. split; [by eapply created_lock|].
    destruct Hcr as [(th & Hth & Ht) (_ & _ & Hnew & _) _ _ _ _ (Hr & Hid & _ & _ & _ & Hi & _) _].
    split_and!; try done. intros th' E. simplify_eq. eexists.
    rewrite Ht, lookup_insert_ne, lookup_insert_eq by congruence. done.
Qed.

Section step.
Context (k : kernel) (th : thread) (i : instr) (p : list instr).
Context (Hinv : inv k) (Hl : lock_inv k) (Hon : intr k = INTR_ON).
Context (Hth : threads k !! running k = Some th) (Hpc : pc th = i :: p).

Let Hc : core k := inv_core k Hinv.

Lemma step_code : running k ≠ idle_thread k → pc_ok (i :: p).
Proof. intros Hni. rewrite <- Hpc. exact (b_code _ (c_base _ Hc) _ _ Hth Hni). Qed.

(** A step that is not part of a lock and only changes the code. *)
Lemma plain_step js :
  (∀ l, owns l (i :: p) = false) →
  (running k ≠ idle_thread k → pc_ok (js ++ p)) →
  (running k = idle_thread k → pc_idle (js ++ p)) →
  (∀ l, owns l (js ++ p) = false) →
  (∀ l q, js ++ p = ClearHolder l :: q → holders k !! l = Some (running k)) →
  inv (stepped k th js) ∧ lock_inv (stepped k th js).
Proof.
  intros Hno Hok Hid Hno' Hcl. split.
  - apply core_inv; [|done]. apply stepped_core; rewrite ?Hpc; done.
  - eapply (lock_noown_step k _ th); try done; [by apply runs_insert|..];
      simpl; rewrite Hpc; simpl; done.
Qed.

Lemma step_sema_down k' s :
  i = SemaDown s → exec_instr i k = Ok (tt, k') → inv k' ∧ lock_inv k'.
Proof.
  intros -> Hrun. unfold exec_instr, running_thread, mbind, M_bind, gets, mret, M_ret in Hrun.
  rewrite sema_down_run, Hon in Hrun by apply Hc.
  destruct (semas k !! s) as [sm|] eqn:Hs.
  - destruct (sema_loop_step (set_intr INTR_OFF k) s sm th) as (k1 & Hk1 & ? & ? & _);
      [by apply core_set_intr | by apply lock_set_intr | done | done | by rewrite Hpc | done |].
    unfold mbind, M_bind, mret, M_ret in Hk1. simpl in Hk1. rewrite Hk1 in Hrun.
    by injection Hrun as <-.
  - unfold sema_loop, mbind, M_bind, get_sem in Hrun. simpl in Hrun. by rewrite Hs in Hrun.
Qed.

Lemma step_sema_up k' s :
  i = SemaUp s → exec_instr i k = Ok (tt, k') → inv k' ∧ lock_inv k'.
Proof.
  pose proof step_code as Hcode. intros -> Hrun. unfold exec_instr, running_thread, mbind, M_bind, gets in Hrun.
  destruct (semas k !! s) as [sm|] eqn:Hs.
  2: { unfold sema_up, intr_disable, get_sem, mbind, M_bind, intr_get_level, gets, modify, mret, M_ret in Hrun.
       simpl in Hrun. by rewrite Hs in Hrun. }
  destruct (sema_up_run k s sm Hc Hon Hs) as (k1 & E1 & Ek1). rewrite E1 in Hrun. clear E1.
  assert (∀ c, s ≠ WaitSema c) as Hnw.
  { intros c ->. destruct (decide (running k = idle_thread k)) as [E|Hni].
    - destruct (b_idle _ (c_base _ Hc)) as (th' & Hth' & _ & Hpi). rewrite <- E in Hth'. simplify_eq.
      rewrite Hpc in Hpi. by destruct Hpi as [?|[a ?]].
    - destruct (Hcode Hni) as ([?|[t ?]] & _); done. }
  pose proof (upped_core k s sm Hc Hs Hnw) as Hc1.
  destruct (upped_facts k s sm Hc Hs) as (Hr & Hi & Hin & Hh & Hso & (sm1 & Hs1 & Hv1) & Hme & Hpcs).
  rewrite <- Ek1 in Hc1, Hr, Hi, Hin, Hh, Hso, Hs1, Hme, Hpcs. clear Ek1. rewrite Hth in Hme. rewrite <- Hr in Hrun.
  rewrite (advance_run k1 th) in Hrun by (by rewrite Hr). injection Hrun as <-.
  assert (runs k (stepped k1 th []) (with_pc p th)) as Hruns.
  { split; simpl; rewrite Hr, Hpc; [by rewrite lookup_insert_eq|]. intros t Hne.
    by rewrite lookup_insert_ne. }
  split.
  { apply core_inv; [|simpl; congruence]. apply stepped_core; [done | by rewrite Hr | |]; simpl;
      rewrite Hr, Hi, Hpc; simpl.
    - intros Hni. eapply pc_ok_tail. by apply Hcode.
    - intros E. destruct (b_idle _ (c_base _ Hc)) as (th' & Hth' & _ & Hpi). rewrite <- E in Hth'.
      simplify_eq. rewrite Hpc in Hpi. destruct Hpi as [?|[a ?]]; simplify_eq. by left. }
  destruct (decide (running k = idle_thread k)) as [Eid|Hni].
  { destruct (b_idle _ (c_base _ Hc)) as (th' & Hth' & _ & Hpi). rewrite <- Eid in Hth'.
    simplify_eq. rewrite Hpc in Hpi. destruct Hpi as [?|[a ?]]; simplify_eq.
    eapply (lock_noown_step k _ th); try done.
    - intros l. simpl. by rewrite Hso.
    - intros l. by rewrite Hpc. }
  pose proof (Hcode Hni) as (_ & Hf & _).
  assert (plain_head p) as Hpl by (by destruct p, s).
  assert ((∃ l, s = LockSem l) ∨ ∀ l, s ≠ LockSem l) as [[l ->]|Hnl] by (destruct s; naive_solver).
  - assert (own k l (running k)) as Hown.
    { exists th. rewrite Hpc. simpl. by rewrite Z.eqb_refl. }
    destruct (l_own _ Hl _ _ Hown) as [h Eh].
    destruct (l_state _ Hl l h Eh) as (sm0 & E0 & Hst). simplify_eq.
    destruct Hst as [(_ & _ & Hno)|[(_ & _ & Hno)|(Hv & Hh0 & t & Ht & Hu)]]; [by apply Hno in Hown..|].
    eapply (lock_own_step k _ th _ l h sm1); try done.
    + intros l' Hne. simpl. rewrite Hh, Hso by congruence. split_and!; [done..|].
      rewrite plain_head_owns, Hpc by done. simpl. symmetry. by apply Z.eqb_neq.
    + simpl. by rewrite Hh.
    + intros t' Ht'. by rewrite (Hu _ Ht'), (Hu _ Hown).
    + simpl. rewrite plain_head_owns by done. left. by rewrite Hv1, Hv.
    + intros l' q E. by eapply plain_head_clear in E.
    + intros t' th1 q Et _ Hq. by destruct (clear_holder_pos k l t' th1 q h (c_base _ Hc) Hl Et Hq Eh).
  - eapply (lock_plain_step k _ th); try done.
    + intros l. simpl. by rewrite Hso.
    + intros l. rewrite Hpc. simpl. destruct s; try done. by destruct (Hnl l0).
Qed.

(** A step that belongs to no lock, after which the thread goes on with the
    rest of its code. *)
Lemma next_step :
  (∀ j, follows i j → plain j) →
  match i with SetHolder _ | SemaUp _ | IdleLoop => False | _ => True end →
  inv (stepped k th []) ∧ lock_inv (stepped k th []).
Proof.
  intros Hf Hi.
  assert (running k ≠ idle_thread k) as Hni.
  { eapply not_idle; [apply Hc | done | done |]. by destruct i. }
  pose proof (step_code Hni) as (_ & Hj & Hok).
  assert (plain_head p) as Hpl by (destruct p; simpl; auto).
  apply plain_step; simpl; [|done|done| |].
  - intros l. by destruct i.
  - intros l. by apply plain_head_owns.
  - intros l q E. by eapply plain_head_clear in E.
Qed.

Lemma step_assert_not_intr k' :
  i = AssertNotIntr → exec_instr i k = Ok (tt, k') → inv k' ∧ lock_inv k'.
Proof.
  pose proof next_step as Hnext. intros -> Hrun.
  unfold exec_instr, running_thread, intr_context in Hrun. run_in Hrun.
  destruct (negb (in_external_intr k)); [|done].
  rewrite (advance_run k th) in Hrun by done. injection Hrun as <-. by apply Hnext.
Qed.

Lemma step_assert_not_held k' l :
  i = AssertNotHeld l → exec_instr i k = Ok (tt, k') → inv k' ∧ lock_inv k'.
Proof.
  pose proof next_step as Hnext. intros -> Hrun.
  unfold exec_instr, running_thread, lock_held_by_current_thread in Hrun. run_in Hrun.
  destruct (holders k !! l); [|done].
  rewrite thread_current_run in Hrun by by apply core_cur_ok.
  destruct (negb _); [|done]. rewrite (advance_run k th) in Hrun by done. injection Hrun as <-.
  by apply Hnext.
Qed.

Lemma step_assert_held k' l :
  i = AssertHeld l → exec_instr i k = Ok (tt, k') → inv k' ∧ lock_inv k'.
Proof.
  pose proof step_code as Hcode. pose proof plain_step as Hplain. intros -> Hrun.
  unfold exec_instr, running_thread, lock_held_by_current_thread in Hrun. run_in Hrun.
  destruct (holders k !! l) as [h|] eqn:Eh; [|done].
  rewrite thread_current_run in Hrun by by apply core_cur_ok.
  destruct (Z.eqb_spec h (running k)) as [->|]; [|done].
  rewrite (advance_run k th) in Hrun by done. injection Hrun as <-.
  assert (running k ≠ idle_thread k) as Hni by (by eapply not_idle; [apply Hc|..]).
  destruct (Hcode Hni) as (_ & Hj & Hok). apply Hplain; simpl; [done..| |].
  - intros l'. destruct p as [|j q]; [done|]. destruct Hj as [->|Hj]; [done|]. by apply plain_head_owns.
  - intros l' q ->. destruct Hj as [Hj|Hj]; [by injection Hj as -> | done].
Qed.

Lemma step_set_holder k' l :
  i = SetHolder l → exec_instr i k = Ok (tt, k') → inv k' ∧ lock_inv k'.
Proof.
  pose proof step_code as Hcode. intros -> Hrun.
  unfold exec_instr, running_thread in Hrun. run_in Hrun.
  rewrite thread_current_run in Hrun by by apply core_cur_ok.
  set (k1 := set_holders _ k) in Hrun. change (running k) with (running k1) in Hrun.
  rewrite (advance_run k1 th) in Hrun by done. injection Hrun as <-.
  assert (running k ≠ idle_thread k) as Hni by (by eapply not_idle; [apply Hc|..]).
  destruct (Hcode Hni) as (_ & Hj & Hok).
  assert (plain_head p) as Hpl by (by destruct p).
  assert (core k1) as Hc1 by (destruct Hc as [[] ? ? ?]; split; [split|..]; done).
  split.
  { apply core_inv; [|done]. apply stepped_core; rewrite ?Hpc; done. }
  assert (own k l (running k)) as Hown.
  { exists th. rewrite Hpc. simpl. by rewrite Z.eqb_refl. }
  destruct (l_own _ Hl _ _ Hown) as [h Eh]. destruct (l_state _ Hl l h Eh) as (sm0 & E0 & Hst).
  destruct Hst as [(_ & _ & Hno)|[(_ & _ & Hno)|(Hv & Hh0 & t & Ht & Hu)]]; [by apply Hno in Hown..|].
  destruct (b_thread _ (c_base _ Hc) _ _ Hth) as [Hpos _].
  assert (runs k (stepped k1 th []) (with_pc p th)) as Hruns.
  { apply runs_insert. simpl. by rewrite Hpc. }
  eapply (lock_own_step k _ th _ l (running k) sm0); try done.
  - intros l' Hne. simpl. rewrite lookup_insert_ne by done. split_and!; [done..|].
    rewrite plain_head_owns, Hpc by done. simpl. symmetry. by apply Z.eqb_neq.
  - simpl. by rewrite lookup_insert_eq.
  - intros t' Ht'. by rewrite (Hu _ Ht'), (Hu _ Hown).
  - simpl. rewrite plain_head_owns by done. right. unfold NULL. split; [done | lia].
  - intros l' q E. by eapply plain_head_clear in E.
  - intros t' th1 q Et _ Hq. by destruct (clear_holder_pos k l t' th1 q h (c_base _ Hc) Hl Et Hq Eh).
Qed.

Lemma step_clear_holder k' l :
  i = ClearHolder l → exec_instr i k = Ok (tt, k') → inv k' ∧ lock_inv k'.
Proof.
  pose proof step_code as Hcode. intros -> Hrun.
  unfold exec_instr, running_thread in Hrun. run_in Hrun.
  set (k1 := set_holders _ k) in Hrun. change (running k) with (running k1) in Hrun.
  rewrite (advance_run k1 th) in Hrun by done. injection Hrun as <-.
  assert (running k ≠ idle_thread k) as Hni by (by eapply not_idle; [apply Hc|..]).
  destruct (Hcode Hni) as (_ & Hj & Hok). destruct p as [|j q]; [done|]. simpl in Hj. subst j.
  assert (core k1) as Hc1 by (destruct Hc as [[] ? ? ?]; split; [split|..]; done).
  split.
  { apply core_inv; [|done]. apply stepped_core; rewrite ?Hpc; done. }
  pose proof (l_clear _ Hl _ _ _ _ Hth Hpc) as Eh.
  destruct (clear_holder_pos k l _ _ _ _ (c_base _ Hc) Hl Hth Hpc Eh) as [_ Hnn].
  destruct (l_state _ Hl l _ Eh) as (sm0 & E0 & Hst).
  destruct Hst as [(_ & ? & _)|[(Hv & _ & Hno)|(_ & ? & _)]]; [done| |done].
  assert (runs k (stepped k1 th []) (with_pc (SemaUp (LockSem l) :: q) th)) as Hruns.
  { apply runs_insert. simpl. by rewrite Hpc. }
  eapply (lock_own_step k _ th _ l NULL sm0); try done.
  - intros l' Hne. simpl. rewrite lookup_insert_ne by done. split_and!; [done..|].
    rewrite Hpc. simpl. by apply Z.eqb_neq.
  - simpl. by rewrite lookup_insert_eq.
  - intros t' Ht'. by apply Hno in Ht'.
  - simpl. by rewrite Z.eqb_refl.
  - intros t' th1 q' Et Hne Hq. destruct (clear_holder_pos k l t' th1 q' _ (c_base _ Hc) Hl Et Hq Eh). done.
Qed.

(** What the code of the running thread looks like after a step that is not
    the first half of something. *)
Lemma plain_next :
  (∀ j, follows i j → plain j) → running k ≠ idle_thread k → plain_head p ∧ pc_ok p.
Proof.
  intros Hf Hni. destruct (step_code Hni) as (_ & Hj & Hok). split; [|done]. destruct p; simpl; auto.
Qed.

Lemma step_sema_try_down k' s then_pc yes no :
  i = SemaTryDown s then_pc yes no → exec_instr i k = Ok (tt, k') → inv k' ∧ lock_inv k'.
Proof.
  pose proof step_code as Hcode. pose proof plain_next as Hnext. intros -> Hrun.
  assert (running k ≠ idle_thread k) as Hni by (by eapply not_idle; [apply Hc|..]).
  destruct (Hnext (λ j Hj, Hj) Hni) as [Hpl Hokp]. destruct (Hcode Hni) as (Hth1 & _ & _).
  unfold exec_instr, running_thread, sema_try_down, intr_disable, intr_get_level, get_sem, set_sem in Hrun.
  run_in Hrun. simpl in Hrun. destruct (semas k !! s) as [sm|] eqn:Hs; [|done]. simpl in Hrun.
  destruct (b_sem _ (c_base _ Hc) _ _ Hs) as [Hv HN].
  destruct (Z.ltb_spec 0 (value sm)) as [Hlt|Hge].
  - rewrite intr_set_level_run in Hrun by apply Hc. rewrite Hon in Hrun.
    set (k1 := set_intr INTR_ON _) in Hrun. change (running k) with (running k1) in Hrun.
    rewrite (advance_run k1 th) in Hrun by done. unfold set_thread, stepped in Hrun. simpl in Hrun.
    rewrite lookup_insert_eq, insert_insert_eq in Hrun. injection Hrun as <-.
    set (th' := with_ops _ _).
    assert (pc th' = then_pc ++ p) as Ep by (unfold th'; simpl; by rewrite Hpc).
    enough (inv (touched k1 th') ∧ lock_inv (touched k1 th')) by done.
    assert (core k1) as Hc1.
    { apply core_set_intr, (core_set_sem (set_intr INTR_OFF k) s sm); [by apply core_set_intr|done|lia|done|done]. }
    split.
    + apply core_inv; [|done]. apply (touched_core k1 th); try done.
      * exact (b_level _ (c_base _ Hc) _ _ Hth).
      * intros _. rewrite Ep. destruct s; simpl in Hth1; subst then_pc; try done.
      * intros c. exact (b_child _ (c_base _ Hc) _ _ c Hth).
    + eapply (lock_take k _ th th' s sm); try done; [apply Hc | by apply runs_insert | lia | by rewrite Hpc |].
      rewrite Ep. destruct s; simpl in Hth1; subst then_pc; try done. by eexists.
  - rewrite intr_set_level_run in Hrun by apply Hc. rewrite Hon in Hrun.
    set (k1 := set_intr INTR_ON _) in Hrun. change (running k) with (running k1) in Hrun.
    rewrite (advance_run k1 th) in Hrun by done. unfold set_thread, stepped in Hrun. simpl in Hrun.
    rewrite lookup_insert_eq, insert_insert_eq in Hrun. injection Hrun as <-.
    apply (plain_touch k k1 th); try done; simpl; rewrite ?Hpc; try done.
    by apply core_set_intr, core_set_intr.
Qed.

Lemma core_set_cond c ws :
  (∀ w, w ∈ ws → ∃ t, w = WaiterSem t) → core (set_conds (<[c := ws]> (conds k)) k).
Proof.
  intros Hws. destruct Hc as [[] ? ? ?]. split; [split|..]; try done; simpl.
  intros c' ws' w E Hin. lookups; eauto.
Qed.

Lemma step_cond_push k' c : i = CondPush c → exec_instr i k = Ok (tt, k') → inv k' ∧ lock_inv k'.
Proof.
  pose proof plain_next as Hnext. intros -> Hrun.
  assert (running k ≠ idle_thread k) as Hni by (by eapply not_idle; [apply Hc|..]).
  destruct (Hnext (λ j Hj, Hj) Hni) as [Hpl Hokp].
  unfold exec_instr, running_thread, sema_init in Hrun. run_in Hrun.
  destruct (conds k !! c) as [ws|] eqn:Ec; [|done]. simpl in Hrun. set (k1 := set_conds _ _) in Hrun.
  change (running k) with (running k1) in Hrun. rewrite (advance_run k1 th) in Hrun by done.
  injection Hrun as <-. apply (plain_touch k k1 th); try done; simpl; rewrite ?Hpc; try done.
  - pose proof (λ w, b_cond _ (c_base _ Hc) _ _ w Ec) as Hws.
    destruct Hc as [[] ? ? ?]. split; [split|..]; try done; unfold k1; simpl.
    + intros s sm E. lookups; [|eauto]. split; [done | constructor].
    + intros s sm t E Hin. lookups; [by apply elem_of_nil in Hin | eauto].
    + intros t th1 s old E Hst Hf. destruct (b_woken0 _ _ _ _ E Hst Hf). split; [done|].
      destruct (decide (s = WaiterSem (running k))) as [->|]; [by rewrite lookup_insert_eq|].
      by rewrite lookup_insert_ne.
    + intros c' ws' w E Hin. lookups; [|eauto].
      apply elem_of_app in Hin as [?|?%list_elem_of_singleton]; eauto.
  - intros l. by rewrite lookup_insert_ne.
Qed.

Lemma step_cond_pop k' c : i = CondPop c → exec_instr i k = Ok (tt, k') → inv k' ∧ lock_inv k'.
Proof.
  pose proof plain_next as Hnext. pose proof core_set_cond as Hset. intros -> Hrun.
  assert (running k ≠ idle_thread k) as Hni by (by eapply not_idle; [apply Hc|..]).
  destruct (Hnext (λ j Hj, Hj) Hni) as [Hpl Hokp].
  unfold exec_instr, running_thread in Hrun. run_in Hrun.
  destruct (conds k !! c) as [[|w ws]|] eqn:Ec; [| |done].
  - rewrite (advance_run k th) in Hrun by done. injection Hrun as <-.
    apply (plain_touch k k th); try done; simpl; rewrite ?Hpc; done.
  - set (k1 := set_conds _ _) in Hrun.
    change (running k) with (running k1) in Hrun. rewrite (advance_run k1 th) in Hrun by done.
    injection Hrun as <-.
    pose proof (λ w, b_cond _ (c_base _ Hc) _ _ w Ec) as Hws.
    destruct (Hws w) as [t ->]; [by left|].
    apply (plain_touch k k1 th); try done; simpl; rewrite ?Hpc; try done.
    + apply Hset. intros w Hw. apply Hws. by right.
    + simpl. destruct p; simpl in *; tauto.
Qed.

Lemma step_cond_loop k' c l : i = CondLoop c l → exec_instr i k = Ok (tt, k') → inv k' ∧ lock_inv k'.
Proof.
  pose proof plain_next as Hnext. intros -> Hrun.
  assert (running k ≠ idle_thread k) as Hni by (by eapply not_idle; [apply Hc|..]).
  destruct (Hnext (λ j Hj, Hj) Hni) as [Hpl Hokp].
  unfold exec_instr, running_thread in Hrun. run_in Hrun.
  destruct (conds k !! c) as [[|w ws]|] eqn:Ec; [| |done];
    rewrite (advance_run k th) in Hrun by done; injection Hrun as <-;
    apply (plain_touch k k th); try done; simpl; rewrite ?Hpc; try done.
  simpl. destruct p; simpl in *; tauto.
Qed.

Lemma step_yield k' : i = Yield → exec_instr i k = Ok (tt, k') → inv k' ∧ lock_inv k'.
Proof.
  pose proof next_step as Hnext. intros -> Hrun. destruct Hnext as [Hi1 Hl1]; [done..|].
  unfold exec_instr, running_thread in Hrun. run_in Hrun. rewrite (advance_run k th) in Hrun by done.
  destruct (yield_spec (stepped k th []) in_thread_yield) as (k1 & E & ? & ? & _);
    [by apply inv_core | done | done | done |]. rewrite E in Hrun. by injection Hrun as <-.
Qed.

Lemma step_sleep_start k' n : i = SleepStart n → exec_instr i k = Ok (tt, k') → inv k' ∧ lock_inv k'.
Proof.
  pose proof plain_next as Hnext. intros -> Hrun.
  assert (running k ≠ idle_thread k) as Hni by (by eapply not_idle; [apply Hc|..]).
  destruct (Hnext (λ j Hj, Hj) Hni) as [Hpl Hokp].
  unfold exec_instr, running_thread, intr_get_level in Hrun. run_in Hrun. rewrite Hon in Hrun.
  simpl in Hrun. rewrite (advance_run k th) in Hrun by done. injection Hrun as <-.
  apply (plain_touch k k th); try done; simpl; rewrite ?Hpc; done.
Qed.

Lemma step_sleep_check k' start n :
  i = SleepCheck start n → exec_instr i k = Ok (tt, k') → inv k' ∧ lock_inv k'.
Proof.
  pose proof next_step as Hnext. intros -> Hrun. unfold exec_instr, running_thread in Hrun. run_in Hrun.
  destruct (s64 (ticks k - start) <? n).
  - destruct (yield_spec k in_thread_yield) as (k1 & E & ? & ? & _); [done..|].
    rewrite E in Hrun. by injection Hrun as <-.
  - rewrite (advance_run k th) in Hrun by done. injection Hrun as <-. by apply Hnext.
Qed.

Lemma step_set_priority k' n : i = SetPriority n → exec_instr i k = Ok (tt, k') → inv k' ∧ lock_inv k'.
Proof.
  pose proof plain_next as Hnext. intros -> Hrun.
  assert (running k ≠ idle_thread k) as Hni by (by eapply not_idle; [apply Hc|..]).
  destruct (Hnext (λ j Hj, Hj) Hni) as [Hpl Hokp].
  unfold exec_instr, running_thread, thread_set_priority in Hrun. run_in Hrun.
  rewrite thread_current_run in Hrun by by apply core_cur_ok. unfold set_thread in Hrun. rewrite Hth in Hrun.
  set (k1 := set_threads _ k) in Hrun. change (running k) with (running k1) in Hrun.
  rewrite (advance_run k1 (with_priority n th)) in Hrun by (simpl; by rewrite lookup_insert_eq).
  injection Hrun as <-. unfold stepped, k1; simpl. rewrite insert_insert_eq.
  apply (plain_touch k k th); try done; simpl; rewrite ?Hpc; done.
Qed.

Lemma step_exit k' : i = Exit → exec_instr i k = Ok (tt, k') → inv k' ∧ lock_inv k'.
Proof.
  intros -> Hrun. unfold exec_instr, running_thread in Hrun. run_in Hrun.
  destruct (exit_cases k th) as [(k1 & E & ? & ?)|[E _]]; [done | done | done | | | |by rewrite E in Hrun].
  - by eapply not_idle; [apply Hc|..].
  - intros l. by rewrite Hpc.
  - rewrite E in Hrun. by injection Hrun as <-.
Qed.

Lemma step_idle_loop k' : i = IdleLoop → exec_instr i k = Ok (tt, k') → inv k' ∧ lock_inv k'.
Proof.
  intros -> Hrun. unfold exec_instr, running_thread, intr_disable, intr_get_level in Hrun. run_in Hrun.
  rewrite (block_run _ _ th) in Hrun by (done || apply (core_cur_ok _ Hc) || apply Hc).
  set (th' := with_frame _ _) in Hrun. set (k2 := set_threads _ _) in Hrun.
  destruct (left_schedule k k2 th th' Hc Hl Hth) as (k1 & E & ? & ? & _); [|done|done|done|].
  - split; try done; simpl; [by rewrite app_nil_r|]. intros s sm' E. exists sm'. auto.
  - rewrite E in Hrun. by injection Hrun as <-.
Qed.

Lemma step_get_child k' id : i = GetChild id → exec_instr i k = Ok (tt, k') → inv k' ∧ lock_inv k'.
Proof.
  pose proof plain_next as Hnext. intros -> Hrun.
  assert (running k ≠ idle_thread k) as Hni by (by eapply not_idle; [apply Hc|..]).
  destruct (Hnext (λ j Hj, Hj) Hni) as [Hpl Hokp].
  unfold exec_instr, running_thread in Hrun. run_in Hrun.
  destruct (thread_get_child id k) as [[o k1]|] eqn:E; [|done].
  apply (thread_get_child_run k) in E as ->; [|done].
  destruct o as [c|]; rewrite (advance_run k th) in Hrun by done; injection Hrun as <-;
    apply (plain_touch k k th); try done; simpl; rewrite ?Hpc; try done.
  simpl. destruct p; simpl in *; naive_solver.
Qed.

Lemma thread_list_remove_sub l t l' k' : thread_list_remove l t k = Ok (l', k') → k' = k ∧ ∀ u, u ∈ l' → u ∈ l.
Proof.
  assert (∀ e k1, touch e k = Ok (tt, k1) → k1 = k) as Htouch.
  { intros [c|] k1; unfold touch, get_thread; [|by intros [= <-]]. run. destruct (threads k !! c); [by intros [= <-] | done]. }
  unfold thread_list_remove. destruct (list_find (t =.) l) as [[j x]|] eqn:Ej; [|done].
  intros ([] & k1 & ->%Htouch & ([] & k2 & ->%Htouch & [= <- <-])%bind_Ok)%bind_Ok. split; [done|].
  intros u. rewrite delete_take_drop. apply list_find_Some in Ej as (Ej & _).
  rewrite <- (take_drop_middle _ _ _ Ej) at 3. set_solver.
Qed.
Lemma step_child_reap k' c : i = ChildReap c → exec_instr i k = Ok (tt, k') → inv k' ∧ lock_inv k'.
Proof.
  pose proof plain_next as Hnext. pose proof thread_list_remove_sub as Hrem. intros -> Hrun.
  assert (running k ≠ idle_thread k) as Hni by (by eapply not_idle; [apply Hc|..]).
  destruct (Hnext (λ j Hj, Hj) Hni) as [Hpl Hokp].
  unfold exec_instr, running_thread, set_thread, get_thread in Hrun. run_in Hrun.
  destruct (threads k !! c); [|done]. rewrite Hth in Hrun.
  destruct (thread_list_remove (child_list th) c k) as [[l k0]|] eqn:El; [|done]. apply Hrem in El as [-> Hsub].
  rewrite Hth in Hrun. set (th1 := with_child_list l th) in Hrun. set (k1 := set_threads _ k) in Hrun.
  change (running k) with (running k1) in Hrun.
  rewrite (advance_run k1 th1) in Hrun by (simpl; by rewrite lookup_insert_eq).
  injection Hrun as <-. unfold stepped, k1; simpl. rewrite insert_insert_eq.
  apply (plain_touch k k th); try done; simpl; rewrite ?Hpc; try done.
  simpl. destruct p; simpl in *; naive_solver.
Qed.

Lemma step_create k' nm prio code :
  i = Create nm prio code → exec_instr i k = Ok (tt, k') → inv k' ∧ lock_inv k'.
Proof.
  pose proof plain_next as Hnext. intros -> Hrun.
  assert (running k ≠ idle_thread k) as Hni by (by eapply not_idle; [apply Hc|..]).
  destruct (Hnext (λ j Hj, Hj) Hni) as [Hpl Hokp].
  unfold exec_instr, running_thread in Hrun. run_in Hrun.
  destruct (thread_create nm prio code k) as [[r k1]|] eqn:E; [|done].
  destruct (create_inv k nm prio code r k1 Hc Hl E) as (Hc1 & Hl1 & Hi1 & Hr1 & Hid1 & Hcs).
  destruct (Hcs th Hth) as [cs Hth1]. rewrite <- Hr1 in Hrun, Hth1.
  rewrite (advance_run k1 (with_child_list cs th)) in Hrun by done. injection Hrun as <-.
  apply (plain_touch k1 k1 (with_child_list cs th)); try done; simpl; rewrite ?Hpc; try done; congruence.
Qed.

(** *** Steps that fail

    What the code of a thread has done wrong when its step fails: it uses a
    semaphore, a lock or a condition variable that is not there (any more),
    takes a lock that it holds or releases one that it does not hold, creates
    a thread with a priority that does not exist, or follows a link to the
    page of a thread that has been freed.  [None] is the end of the thread's
    function. *)
Definition misuse (o : option instr) (e : failure) : Prop :=
  match o with
  | Some (SemaDown s) | Some (SemaUp s) | Some (SemaTryDown s _ _ _) => e = Fault ∧ semas k !! s = None
  | Some (AssertNotHeld l) => e = Fault ∧ holders k !! l = None ∨ e = Panic ∧ holders k !! l = Some (running k)
  | Some (AssertHeld l) => e = Fault ∧ holders k !! l = None ∨ e = Panic ∧ ∃ h, holders k !! l = Some h ∧ h ≠ running k
  | Some (CondPush c) | Some (CondPop c) | Some (CondLoop c _) => e = Fault ∧ conds k !! c = None
  | Some (Create _ p _) => e = Panic ∧ ¬ (PRI_MIN ≤ p ≤ PRI_MAX) ∨ e = Fault ∧ dangling k
  | Some (GetChild _) => e = Fault ∧ NULL ∈ child_list th
  | Some (ChildReap c) => e = Fault ∧ (threads k !! c = None ∨ c ∉ child_list th ∨ NULL ∈ child_list th)
  | Some Exit | None => e = Fault ∧ NULL ∈ all_list k
  | _ => False
  end.
Definition succeeds_or_misuse (m : M kernel unit) (o : option instr) : Prop :=
  (∃ k', m k = Ok (tt, k')) ∨ ∃ e, m k = Err e ∧ misuse o e.

Lemma total_sema_down s : i = SemaDown s → succeeds_or_misuse (exec_instr i) (Some i).
Proof.
  intros Ei. unfold succeeds_or_misuse. rewrite Ei. unfold exec_instr, running_thread, mbind, M_bind, gets.
  rewrite sema_down_run, Hon by apply Hc. destruct (semas k !! s) as [sm|] eqn:Hs.
  - destruct (sema_loop_step (set_intr INTR_OFF k) s sm th) as (k1 & Hk1 & _);
      [by apply core_set_intr | by apply lock_set_intr | done | done | by rewrite Hpc, Ei | done |].
    left. exists k1. exact Hk1.
  - right. exists Fault. split; [|done]. unfold sema_loop, mbind, M_bind, get_sem. simpl. by rewrite Hs.
Qed.
Lemma total_sema_up s : i = SemaUp s → succeeds_or_misuse (exec_instr i) (Some i).
Proof.
  intros ->. unfold succeeds_or_misuse, exec_instr, running_thread, mbind, M_bind, gets. destruct (semas k !! s) as [sm|] eqn:Hs.
  - left. destruct (sema_up_run k s sm Hc Hon Hs) as (k1 & -> & ->).
    destruct (upped_facts k s sm Hc Hs) as (Hr & _ & _ & _ & _ & _ & Hme & _). rewrite Hth, <- Hr in Hme. rewrite <- Hr.
    eexists. by apply advance_run.
  - right. exists Fault. split; [|done]. unfold sema_up, intr_disable, get_sem, mbind, M_bind, intr_get_level, gets, modify, mret, M_ret.
    simpl. by rewrite Hs.
Qed.
Lemma total_sema_try_down s then_pc yes no :
  i = SemaTryDown s then_pc yes no → succeeds_or_misuse (exec_instr i) (Some i).
Proof.
  intros ->. unfold succeeds_or_misuse, exec_instr, running_thread, sema_try_down, intr_disable, intr_get_level, get_sem, set_sem.
  run. simpl. destruct (semas k !! s) as [sm|] eqn:Hs; [left | right; by exists Fault].
  simpl. destruct (0 <? value sm); rewrite intr_set_level_run by apply Hc; set (k1 := set_intr (intr k) _);
    change (running k) with (running k1); rewrite (advance_run k1 th) by done; unfold set_thread, stepped; simpl;
    rewrite lookup_insert_eq; by eexists.
Qed.
Lemma total_held l : i = AssertNotHeld l ∨ i = AssertHeld l → succeeds_or_misuse (exec_instr i) (Some i).
Proof.
  intros [-> | ->]; unfold succeeds_or_misuse, exec_instr, running_thread, lock_held_by_current_thread; run;
    (destruct (holders k !! l) as [h|] eqn:Eh; [|right; exists Fault; simpl; auto]);
    rewrite thread_current_run by (by apply core_cur_ok); destruct (Z.eqb_spec h (running k)) as [->|Hne]; simpl.
  - right. exists Panic. auto.
  - left. rewrite (advance_run k th) by done. by eexists.
  - left. rewrite (advance_run k th) by done. by eexists.
  - right. exists Panic. split; [done|]. right. eauto.
Qed.
Lemma total_cond c l : i = CondPush c ∨ i = CondPop c ∨ i = CondLoop c l → succeeds_or_misuse (exec_instr i) (Some i).
Proof.
  intros [->|[-> | ->]]; unfold succeeds_or_misuse, exec_instr, running_thread, sema_init; run;
    (destruct (conds k !! c) as [ws|] eqn:Ec; [left; simpl | right; by exists Fault]).
  - set (k1 := set_conds _ _). change (running k) with (running k1). rewrite (advance_run k1 th) by done. by eexists.
  - destruct ws as [|w ws]; [rewrite (advance_run k th) by done; by eexists|].
    set (k1 := set_conds _ _). change (running k) with (running k1). rewrite (advance_run k1 th) by done. by eexists.
  - destruct ws as [|w ws]; rewrite (advance_run k th) by done; by eexists.
Qed.
Lemma total_create nm prio code : i = Create nm prio code → succeeds_or_misuse (exec_instr i) (Some i).
Proof.
  intros ->. unfold succeeds_or_misuse, exec_instr, running_thread, mbind, M_bind, gets.
  assert ((∃ r k1, thread_create nm prio code k = Ok (r, k1))
    ∨ ∃ e, thread_create nm prio code k = Err e ∧ misuse (Some (Create nm prio code)) e) as [(r & k1 & E)|(e & E & Hm)].
  { destruct (decide (PRI_MIN ≤ prio ≤ PRI_MAX)) as [Hp|Hp].
    - destruct (create_spec k nm prio code Hc Hp) as [[E Hd]|(r & k1 & E & _)]; [right | left; eauto]. exists Fault. simpl. auto.
    - destruct (create_priority k nm prio code Hc Hp) as [E|(k1 & E & _)]; [right | left; eauto]. exists Panic. simpl. auto. }
  - left. rewrite E. destruct (create_inv k nm prio code r k1 Hc Hl E) as (_ & _ & _ & Hr1 & _ & Hcs).
    destruct (Hcs th Hth) as [cs Hth1]. rewrite <- Hr1 in Hth1 |- *. eexists. by apply advance_run.
  - right. exists e. by rewrite E.
Qed.
Lemma total_get_child id : i = GetChild id → succeeds_or_misuse (exec_instr i) (Some i).
Proof.
  intros ->. unfold succeeds_or_misuse, exec_instr, running_thread, mbind, M_bind, gets.
  assert ((∃ o, thread_get_child id k = Ok (o, k)) ∨ thread_get_child id k = Err Fault ∧ NULL ∈ child_list th) as [[o E]|[E Hn]].
  { unfold thread_get_child, get_thread. run. rewrite thread_current_run by by apply core_cur_ok. rewrite Hth.
    assert (linked k (child_list th)) as Hlk by (intros c; exact (b_child _ (c_base _ Hc) _ _ c Hth)). revert Hlk.
    induction (child_list th) as [|c cs IH]; intros Hlk; [by left; eexists|].
    destruct (Hlk c) as [->|[thc Ec]]; [by left| |].
    - right. split; [|by left]. by rewrite (not_null k (c_base _ Hc)).
    - rewrite Ec. destruct (tid thc =? id); [by left; eexists|]. destruct IH as [?|[? ?]]; [|by left|].
      + intros c' Hc'. apply Hlk. by right.
      + right. split; [done | by right]. }
  - left. rewrite E. destruct o; eexists; by apply advance_run.
  - right. exists Fault. by rewrite E.
Qed.
Lemma total_child_reap c : i = ChildReap c → succeeds_or_misuse (exec_instr i) (Some i).
Proof.
  intros ->. unfold succeeds_or_misuse, exec_instr, running_thread, set_thread, get_thread. run.
  destruct (threads k !! c) as [thc|] eqn:Ec; [|right; exists Fault; simpl; auto]. rewrite Hth.
  destruct (decide (c ∈ child_list th)) as [Hin|Hin].
  - destruct (remove_cases k (child_list th) c) as [(l & E & _)|[E Hn]];
      [intros c'; exact (b_child _ (c_base _ Hc) _ _ c' Hth) | by apply not_null, Hc | done | |].
    + left. rewrite E, Hth. set (k1 := set_threads _ k). change (running k) with (running k1).
      rewrite (advance_run k1 (with_child_list l th)) by (simpl; by rewrite lookup_insert_eq). by eexists.
    + right. exists Fault. rewrite E. simpl. auto.
  - right. exists Fault. split; [|simpl; auto]. unfold thread_list_remove. destruct (list_find (c =.) (child_list th)) as [[j x]|] eqn:Ej; [|done].
    apply list_find_Some in Ej as (Ej & <- & _). destruct Hin. by eapply list_elem_of_lookup_2.
Qed.
Lemma total_leave :
  match i with Yield | SleepCheck _ _ | Exit | IdleLoop => True | _ => False end → succeeds_or_misuse (exec_instr i) (Some i).
Proof.
  pose proof next_step as Hnext. intros Hi. unfold succeeds_or_misuse, exec_instr, running_thread, intr_disable, intr_get_level.
  destruct i; try done; run.
  - left. rewrite (advance_run k th) by done. destruct Hnext as [Hi1 Hl1]; [done..|].
    destruct (yield_spec (stepped k th []) in_thread_yield) as (k1 & E & _); [by apply inv_core | done | done | done |]. by exists k1.
  - left. destruct (_ <? n).
    + destruct (yield_spec k in_thread_yield) as (k1 & E & _); [done..|]. by exists k1.
    + eexists. by apply advance_run.
  - destruct (exit_cases k th) as [(k1 & E & _)|[E ?]]; [done | done | done | by eapply not_idle; [apply Hc|..] | by rewrite Hpc | |].
    + left. by exists k1.
    + right. by exists Fault.
  - left. rewrite (block_run _ _ th) by (done || apply (core_cur_ok _ Hc) || apply Hc).
    set (th' := with_frame _ _). set (k2 := set_threads _ _).
    destruct (left_schedule k k2 th th' Hc Hl Hth) as (k1 & E & _); [|done|done|done|by exists k1].
    split; try done; simpl; [by rewrite app_nil_r|]. intros s sm' E. exists sm'. auto.
Qed.

Lemma not_idle_start : i ≠ IdleStart.
Proof.
  intros Ei. destruct (decide (running k = idle_thread k)) as [E|Hni].
  - destruct (b_idle _ (c_base _ Hc)) as (th' & Hth' & _ & Hpi). rewrite <- E in Hth'. simplify_eq.
    rewrite Hpc in Hpi. by destruct Hpi as [?|[a ?]].
  - pose proof (step_code Hni) as [Hok _]. by rewrite Ei in Hok.
Qed.

End step.

(** A step of the running thread succeeds, or its code has done something
    wrong. *)
Lemma total_instr k th i p :
  inv k → lock_inv k → intr k = INTR_ON → threads k !! running k = Some th → pc th = i :: p →
  succeeds_or_misuse k th (exec_instr i) (Some i).
Proof.
  intros Hi Hl Hon Hth Hpc. pose proof (inv_core k Hi) as Hc.
  assert (∀ (k1 : kernel) th1 js, running k1 = running k → threads k1 !! running k = Some th1 → ∃ k', advance (running k) js k1 = Ok (tt, k')) as Hadv.
  { intros k1 th1 js <- E. eexists. by apply advance_run. }
  pose proof (not_idle_start k th i p Hi Hth Hpc) as Hns.
  destruct i; try done;
    try solve [by eapply (total_leave k th) | eapply (total_held k th); eauto | eapply (total_cond k th _ _) with (l := 0); eauto
               | eapply (total_cond k th _ _) with (l := l); eauto].
  - by eapply (total_sema_down k th).
  - by eapply (total_sema_up k th).
  - by eapply (total_sema_try_down k th).
  - left. unfold exec_instr, running_thread, intr_context. run. rewrite (b_context _ (c_base _ Hc)). simpl. by eapply Hadv.
  - left. unfold exec_instr, running_thread. run. rewrite thread_current_run by by apply core_cur_ok. by eapply Hadv.
  - left. unfold exec_instr, running_thread. run. by eapply Hadv.
  - left. unfold exec_instr, running_thread, intr_get_level. run. rewrite Hon. simpl. by eapply Hadv.
  - by eapply (total_create k th).
  - by eapply (total_get_child k th).
  - by eapply (total_child_reap k th).
  - left. unfold exec_instr, running_thread, thread_set_priority. run. rewrite thread_current_run by by apply core_cur_ok.
    unfold set_thread. rewrite Hth. eapply Hadv; [done|]. simpl. by rewrite lookup_insert_eq.
Qed.

(** Every step of the running thread keeps the invariant. *)
Lemma step_instr k th i p k' :
  inv k → lock_inv k → intr k = INTR_ON → threads k !! running k = Some th → pc th = i :: p →
  exec_instr i k = Ok (tt, k') → inv k' ∧ lock_inv k'.
Proof.
  intros Hi Hl Hon Hth Hpc Hrun. destruct i.
  - by eapply (step_sema_down k th).
  - by eapply (step_sema_up k th).
  - by eapply (step_sema_try_down k th).
  - by eapply (step_assert_not_intr k th).
  - by eapply (step_assert_not_held k th).
  - by eapply (step_set_holder k th).
  - by eapply (step_assert_held k th).
  - by eapply (step_clear_holder k th).
  - by eapply (step_cond_push k th).
  - by eapply (step_cond_pop k th).
  - by eapply (step_cond_loop k th).
  - by eapply (step_yield k th).
  - by eapply (step_sleep_start k th).
  - by eapply (step_sleep_check k th).
  - by eapply (step_create k th).
  - by eapply (step_get_child k th).
  - by eapply (step_child_reap k th).
  - by eapply (step_set_priority k th).
  - by eapply (step_exit k th).
  - by apply (not_idle_start k th IdleStart p) in Hi.
  - by eapply (step_idle_loop k th).
Qed.

(** The steps of a call are in order. *)
Lemma compile_ok t o : pc_ok (compile t o) ∧ plain_head (compile t o).
Proof. destruct o; simpl; naive_solver. Qed.

Lemma run_thread_inv k k' :
  inv k → lock_inv k → intr k = INTR_ON → run_thread k = Ok (tt, k') → inv k' ∧ lock_inv k'.
Proof.
  intros Hi Hl Hon Hrun. pose proof (inv_core k Hi) as Hc. destruct (c_cur _ Hc) as (th & Hth & Hst).
  unfold run_thread, running_thread, get_thread in Hrun. run_in Hrun. rewrite Hth in Hrun.
  destruct (pc th) as [|i p] eqn:Hpc; [|by eapply step_instr].
  assert (running k ≠ idle_thread k) as Hni.
  { intros E. destruct (b_idle _ (c_base _ Hc)) as (th' & Hth' & _ & Hpi). rewrite <- E in Hth'. simplify_eq.
    rewrite Hpc in Hpi. by destruct Hpi as [?|[a ?]]. }
  destruct (ops th) as [|o os].
  - destruct (exit_cases k th Hc Hl Hth Hni) as [(k1 & E & ?)|[E _]]; [by rewrite Hpc| |by rewrite E in Hrun].
    rewrite E in Hrun. by injection Hrun as <-.
  - unfold set_thread in Hrun. rewrite Hth in Hrun. injection Hrun as <-.
    destruct (compile_ok (running k) o). apply (plain_touch k k th); try done. by rewrite Hpc.
Qed.

Lemma run_thread_total k th :
  inv k → lock_inv k → intr k = INTR_ON → threads k !! running k = Some th →
  (∃ k', run_thread k = Ok (tt, k'))
  ∨ ∃ e, run_thread k = Err e ∧ (pc th = [] → ops th = []) ∧ misuse k th (hd_error (pc th)) e.
Proof.
  intros Hi Hl Hon Hth. pose proof (inv_core k Hi) as Hc. unfold run_thread, running_thread, get_thread. run. rewrite Hth.
  destruct (pc th) as [|i p] eqn:Hpc.
  - destruct (ops th) as [|o os]; [|left; unfold set_thread; rewrite Hth; by eexists].
    destruct (exit_cases k th Hc Hl Hth) as [(k1 & E & _)|[E ?]]; [|by rewrite Hpc|left; by exists k1|right; by exists Fault].
    intros E. destruct (b_idle _ (c_base _ Hc)) as (th' & Hth' & _ & Hpi). rewrite <- E in Hth'. simplify_eq.
    rewrite Hpc in Hpi. by destruct Hpi as [?|[a ?]].
  - destruct (total_instr k th i p Hi Hl Hon Hth Hpc) as [?|(e & ? & ?)]; [by left|]. right. by exists e.
Qed.

(** The thread that has been switched to always goes on. *)
Lemma resume_spec k :
  inv k → lock_inv k → intr k = INTR_OFF →
  ∃ k', resume_thread k = Ok (tt, k') ∧ inv k' ∧ lock_inv k' ∧ goes_on k k'.
Proof.
  intros Hi Hl Hoff. pose proof (inv_core k Hi) as Hc. destruct (c_cur _ Hc) as (th & Hth & Hst).
  pose proof (b_level _ (c_base _ Hc) _ _ Hth) as Hlev. pose proof (b_context _ (c_base _ Hc)) as Hx.
  assert (∃ k', Ok (tt, set_intr INTR_ON k) = Ok (tt, k') ∧ inv k' ∧ lock_inv k' ∧ goes_on k k') as Hdone.
  { eexists. split; [done|]. split; [|split; [by apply lock_set_intr | by left]]. by apply core_inv; [apply core_set_intr|]. }
  unfold resume_thread, running_thread, get_thread, intr_enable, intr_get_level, intr_context.
  run. rewrite Hth. destruct (frame th) as [s old|old| | |] eqn:Ef; simpl in Hlev; subst.
  - destruct (i_frame _ _ Hi _ _ _ Hoff Hth Ef) as (Hhd & Hd & [sm Hs]).
    exact (sema_loop_step k s sm th Hc Hl Hoff Hth Hhd Hs).
  - rewrite intr_set_level_run by done. exact Hdone.
  - rewrite intr_set_level_run by done. exact Hdone.
  - rewrite Hx. exact Hdone.
  - exact Hdone.
Qed.


(** ** The timer *)

(** The state after the handler of the timer has counted a tick. *)
Definition ticked k (th : thread) : kernel :=
  set_yield_on_return (TIME_SLICE <=? u32 (thread_ticks k + 1))
    (set_thread_ticks (u32 (thread_ticks k + 1)) (set_ticks (s64 (ticks k + 1))
      (if running k =? idle_thread k then set_idle_ticks (s64 (idle_ticks k + 1)) k
       else if negb (pagedir th =? NULL) then set_user_ticks (s64 (user_ticks k + 1)) k
       else set_kernel_ticks (s64 (kernel_ticks k + 1)) k))).

Lemma timer_run k th :
  core k → intr k = INTR_ON → threads k !! running k = Some th →
  intr_handler_timer k
  = if TIME_SLICE <=? u32 (thread_ticks k + 1)
    then thread_yield (λ _, in_intr_handler) (set_intr INTR_OFF (ticked k th))
    else Ok (tt, ticked k th).
Proof.
  intros Hc Hon Hth. pose proof (b_context _ (c_base _ Hc)) as Hx.
  unfold intr_handler_timer, timer_interrupt, thread_tick, get_thread, intr_get_level, intr_context,
    intr_yield_on_return, intr_context, ticked.
  run. simpl. rewrite Hx. simpl. rewrite thread_current_run by (apply (core_cur_ok _ Hc)). simpl. rewrite Hth.
  destruct k; simpl in *; subst.
  destruct (running0 =? idle_thread0); [|destruct (negb (pagedir th =? NULL))]; simpl;
    by destruct (TIME_SLICE <=? u32 (thread_ticks0 + 1)).
Qed.

Lemma ticked_core k th : core k → core (ticked k th).
Proof.
  intros [[] ? ? ?]. unfold ticked.
  destruct (running k =? idle_thread k); [|destruct (negb (pagedir th =? NULL))];
    (split; [split|..]; done).
Qed.

Lemma ticked_lock k th : lock_inv k → lock_inv (ticked k th).
Proof.
  intros []. unfold ticked.
  destruct (running k =? idle_thread k); [|destruct (negb (pagedir th =? NULL))]; (split; done).
Qed.

Lemma ticked_same k th :
  intr (ticked k th) = intr k ∧ running (ticked k th) = running k ∧ ready_list (ticked k th) = ready_list k
  ∧ idle_thread (ticked k th) = idle_thread k ∧ thread_ticks (ticked k th) = u32 (thread_ticks k + 1).
Proof.
  unfold ticked. destruct (running k =? idle_thread k); [|destruct (negb (pagedir th =? NULL))]; done.
Qed.

(** The handler of the timer always returns; at the end of a time slice it
    switches to the next thread, and the running thread goes to the end of
    the queue. *)
Lemma timer_spec k :
  inv k → lock_inv k → intr k = INTR_ON →
  ∃ k', intr_handler_timer k = Ok (tt, k') ∧ inv k' ∧ lock_inv k'
    ∧ if TIME_SLICE <=? u32 (thread_ticks k + 1)
      then intr k' = INTR_OFF
        ∧ switches (set_ready_list (ready_list k
                      ++ (if decide (running k ≠ idle_thread k) then [running k] else [])) k) k'
      else intr k' = INTR_ON ∧ running k' = running k ∧ ready_list k' = ready_list k
        ∧ thread_ticks k' = u32 (thread_ticks k + 1) ∧ idle_thread k' = idle_thread k.
Proof.
  intros Hi Hl Hon. pose proof (inv_core k Hi) as Hc. destruct (c_cur _ Hc) as (th & Hth & Hst).
  rewrite (timer_run k th Hc Hon Hth). destruct (ticked_same k th) as (Ei & Er & El & Eid & Et).
  destruct (TIME_SLICE <=? u32 (thread_ticks k + 1)).
  - destruct (yield_spec (set_intr INTR_OFF (ticked k th)) (λ _, in_intr_handler))
      as (k' & E & Hi' & Hl' & Ho & Hs); [by apply core_set_intr, ticked_core
      | by apply lock_set_intr, ticked_lock | done | done |].
    exists k'. split_and!; try done. set (q := ticked k th) in *. clearbody q.
    unfold switches, next in *. simpl in *. by rewrite Er, El, Eid in Hs.
  - exists (ticked k th). split; [done|]. split_and!; try done; try congruence.
    + apply core_inv; [by apply ticked_core | congruence].
    + by apply ticked_lock.
Qed.

(** Every step keeps the invariant. *)
Lemma kstep_inv k k' : inv k ∧ lock_inv k → kstep k k' → inv k' ∧ lock_inv k'.
Proof.
  intros [Hi Hl] [Hon Hrun|Hoff Hrun|Hon Hrun].
  - by eapply run_thread_inv.
  - destruct (resume_spec k Hi Hl Hoff) as (k1 & E & ? & ? & _). rewrite E in Hrun. by injection Hrun as <-.
  - destruct (timer_spec k Hi Hl Hon) as (k1 & E & ? & ? & _). rewrite E in Hrun. by injection Hrun as <-.
Qed.

Lemma ksteps_inv k k' : rtc kstep k k' → inv k ∧ lock_inv k → inv k' ∧ lock_inv k'.
Proof. induction 1 as [|k1 k2 k3 Hs _ IH]; [done|]. intros Hi. apply IH. by eapply kstep_inv. Qed.

End steps.
End Steps.
