(* ===== verification/KernelPages.v ===== *)
(** * The kernel's pages

    The page allocator of threads/palloc.c, under its first-fit policy, is
    the page allocator that threads/thread.c relies on.  The source fixes the
    next-fit policy (line 40), with which it is not. *)
From stdpp Require Import base gmap list.
From Stdlib Require Import ZArith Lia.
From S2P Require Import Prelude Vaddr Bitmap Palloc Thread.

Module KernelPages.
Import Vaddr Bitmap Palloc.

(** [p] is a page of the kernel pool. *)
Definition kernel_page (st : palloc) (p i : Z) : Prop :=
  0 ≤ i < bit_cnt (used_map (kernel_pool st)) ∧ p = page (kernel_pool st) i.
Definition managed (st : palloc) (p : Z) : Prop := ∃ i, kernel_page st p i.
Definition used (st : palloc) (p : Z) : Prop :=
  ∃ i, kernel_page st p i ∧ bit (used_map (kernel_pool st)) i = true.
(** The allocator works under this policy only. *)
Definition ready (st : palloc) : Prop := wf_palloc st ∧ policy st = FIRSTFIT.

(** The lock of a pool is free whenever a thread is about to take it here:
    the name of the taker does not matter. *)
Definition get_pages (cnt : Z) : M palloc Z := palloc_get_multiple 1 PAL_ZERO cnt.
Definition free_page (p : Z) : M palloc unit := palloc_free_page p.

Lemma kernel_page_set st st' p i j cnt v :
  pages_set (kernel_pool st) (kernel_pool st') j cnt v → kernel_page st' p i ↔ kernel_page st p i.
Proof. intros (_ & Hb & _ & Hc & _). unfold kernel_page, page. by rewrite Hb, Hc. Qed.

Lemma managed_set st st' j cnt v :
  pages_set (kernel_pool st) (kernel_pool st') j cnt v → ∀ q, managed st' q ↔ managed st q.
Proof.
  intros Hs q. unfold managed. split; intros [i Hi]; exists i; by apply (kernel_page_set _ _ _ _ _ _ _ Hs).
Qed.

Lemma page_inj p i j : page p i = page p j → i = j.
Proof. unfold page. rewrite PGSIZE_eq. lia. Qed.

Lemma used_set st st' j cnt v :
  pages_set (kernel_pool st) (kernel_pool st') j cnt v → 0 ≤ j →
  j + cnt ≤ bit_cnt (used_map (kernel_pool st)) →
  ∀ q, used st' q ↔ if v then used st q ∨ ∃ i, 0 ≤ i < cnt ∧ q = page (kernel_pool st) j + PGSIZE * i
                    else used st q ∧ ¬ ∃ i, 0 ≤ i < cnt ∧ q = page (kernel_pool st) j + PGSIZE * i.
Proof.
  intros Hs Hj Hend q. pose proof Hs as (_ & Hb & _ & Hc & Hbits).
  assert (∀ i, q = page (kernel_pool st) i →
    (∃ i0, 0 ≤ i0 < cnt ∧ q = page (kernel_pool st) j + PGSIZE * i0) ↔ j ≤ i < j + cnt) as Hin.
  { intros i ->. unfold page. rewrite PGSIZE_eq. split; [intros (i0 & ? & ?); lia|].
    intros ?. exists (i - j). lia. }
  assert (used st' q ↔ ∃ i, kernel_page st q i
     ∧ (if decide (j ≤ i < j + cnt) then v else bit (used_map (kernel_pool st)) i) = true) as ->.
  { unfold used. split; intros (i & Hi & Hbit); exists i.
    - apply (kernel_page_set _ _ _ _ _ _ _ Hs) in Hi. split; [done|]. rewrite Hbits in Hbit by apply Hi.
      by case_decide.
    - split; [by apply (kernel_page_set _ _ _ _ _ _ _ Hs)|]. rewrite Hbits by apply Hi. by case_decide. }
  destruct v.
  - split.
    + intros (i & [Hi Hq] & Hbit). case_decide as Hd; [right; by apply (Hin i)|].
      left. exists i. done.
    + intros [(i & [Hi Hq] & Hbit)|Hex].
      * exists i. split; [done|]. by case_decide.
      * pose proof Hex as (i0 & Hi0 & Hq). exists (j + i0).
        split; [split; [lia | subst; unfold page; lia]|]. by rewrite decide_True by lia.
  - split.
    + intros (i & [Hi Hq] & Hbit). case_decide as Hd; [done|]. split; [by exists i|].
      by rewrite (Hin i).
    + intros [(i & [Hi Hq] & Hbit) Hno]. exists i. split; [done|].
      rewrite (Hin i) in Hno by done. by rewrite decide_False.
Qed.

Lemma kernel_page_aligned st p i : wf_palloc st → kernel_page st p i → 0 < p ∧ p mod PGSIZE = 0.
Proof.
  intros (Hk & _) [Hi ->]. destruct Hk as (_ & _ & Hb & Ha & _). unfold page. rewrite PGSIZE_eq in *.
  unfold PHYS_BASE in *. split; [lia|]. rewrite Z.mul_comm, Z_mod_plus_full. done.
Qed.

Lemma get_multiple_ok flags s cnt :
  has flags PAL_USER = false → has flags PAL_ASSERT = false → ready s → 0 < cnt →
  ∃ p s', palloc_get_multiple 1 flags cnt s = Ok (p, s') ∧ ready s'
    ∧ (∀ q, managed s' q ↔ managed s q)
    ∧ ((p = 0 ∧ ∀ q, used s' q ↔ used s q)
       ∨ (0 < p ∧ p mod PGSIZE = 0
          ∧ (∀ i, 0 ≤ i < cnt → ¬ used s (p + PGSIZE * i) ∧ managed s (p + PGSIZE * i))
          ∧ ∀ q, used s' q ↔ used s q ∨ ∃ i, 0 ≤ i < cnt ∧ q = p + PGSIZE * i)).
Proof.
  intros Huser Hassert [Hwf Hpol] Hcnt. pose proof (get_multiple_firstfit 1 flags cnt s Hwf Hpol Hcnt) as Hal.
  unfold allocates in Hal. rewrite Huser in Hal. cbn [get_pool] in Hal.
  destruct (palloc_get_multiple 1 flags cnt s) as [[p s']|e]; [|destruct Hal as (_ & ? & _); congruence].
  destruct Hal as (Hwf' & Hpol' & _ & Hcase). exists p, s'. split; [done|].
  split; [split; [done | congruence]|].
  destruct Hcase as [(i & -> & Hnn & Hi & [Hend Hfree] & Hset & _)|(-> & _ & Hset & _)].
  - split; [by eapply managed_set|]. right.
    assert (kernel_page s (page (kernel_pool s) i) i) as Hpi by (split; [lia | done]).
    destruct (kernel_page_aligned s _ i Hwf Hpi). split_and!; [done..| |].
    + intros i0 Hi0. split.
      * intros (i' & [Hi' Hq] & Hbit).
        replace (page (kernel_pool s) i + PGSIZE * i0) with (page (kernel_pool s) (i + i0)) in Hq
          by (unfold page; lia).
        apply page_inj in Hq. subst. rewrite Hfree in Hbit by lia. done.
      * exists (i + i0). split; [lia | unfold page; lia].
    + exact (used_set s s' i cnt true Hset Hi Hend).
  - split; [by eapply managed_set|]. left. split; [done|]. intros q.
    destruct Hwf as ((_ & Hb & _) & _).
    rewrite (used_set s s' 0 0 true Hset); [|lia|].
    + split; [|by left]. intros [?|(i & ? & _)]; [done | lia].
    + destruct Hb. lia.
Qed.

Lemma get_pages_ok s cnt :
  ready s → 0 < cnt →
  ∃ p s', get_pages cnt s = Ok (p, s') ∧ ready s'
    ∧ (∀ q, managed s' q ↔ managed s q)
    ∧ ((p = 0 ∧ ∀ q, used s' q ↔ used s q)
       ∨ (0 < p ∧ p mod PGSIZE = 0
          ∧ (∀ i, 0 ≤ i < cnt → ¬ used s (p + PGSIZE * i) ∧ managed s (p + PGSIZE * i))
          ∧ ∀ q, used s' q ↔ used s q ∨ ∃ i, 0 ≤ i < cnt ∧ q = p + PGSIZE * i)).
Proof. by apply get_multiple_ok. Qed.

Lemma free_multiple_ok s p cnt :
  ready s → 0 < cnt → (∀ i, 0 ≤ i < cnt → used s (p + PGSIZE * i)) →
  ∃ s', palloc_free_multiple p cnt s = Ok (tt, s') ∧ ready s'
    ∧ (∀ q, managed s' q ↔ managed s q)
    ∧ ∀ q, used s' q ↔ used s q ∧ ¬ ∃ i, 0 ≤ i < cnt ∧ q = p + PGSIZE * i.
Proof.
  intros [Hwf Hpol] Hcnt Hu. destruct (Hu 0 ltac:(lia)) as (i & [Hi Hp] & _). rewrite Z.mul_0_r, Z.add_0_r in Hp. subst p.
  assert (∀ j, 0 ≤ j < cnt → i + j < bit_cnt (used_map (kernel_pool s)) ∧ bit (used_map (kernel_pool s)) (i + j) = true) as Hbits.
  { intros j Hj. destruct (Hu j Hj) as (i' & [Hi' Hq] & Hbit).
    replace (page (kernel_pool s) i + PGSIZE * j) with (page (kernel_pool s) (i + j)) in Hq by (unfold page; lia).
    apply page_inj in Hq. subst i'. split; [lia | done]. }
  destruct (Hbits (cnt - 1)) as [Hend _]; [lia|].
  pose proof (free_spec false s i cnt Hwf ltac:(lia) ltac:(lia) ltac:(simpl; lia)) as Hf.
  change (get_pool false s) with (kernel_pool s) in Hf.
  destruct (palloc_free_multiple _ cnt s) as [[[] s']|].
  - destruct Hf as (_ & Hwf' & Hpol' & _ & _ & Hset & _). exists s'.
    split; [done|]. split; [split; [done | congruence]|]. split; [by eapply managed_set|].
    intros q. by rewrite (used_set s s' i cnt false Hset) by lia.
  - exfalso. destruct Hf as [_ Hno]. apply Hno. intros j Hj. replace j with (i + (j - i)) by lia. apply Hbits. lia.
Qed.

Lemma free_page_ok s p :
  ready s → used s p →
  ∃ s', free_page p s = Ok (tt, s') ∧ ready s'
    ∧ (∀ q, managed s' q ↔ managed s q) ∧ ∀ q, used s' q ↔ used s q ∧ q ≠ p.
Proof.
  intros Hr Hp. destruct (free_multiple_ok s p 1 Hr) as (s' & Hrun & Hr' & Hm & Hu); [lia| |].
  { intros i Hi. assert (i = 0) as -> by lia. by rewrite Z.mul_0_r, Z.add_0_r. }
  exists s'. split_and!; try done. intros q. rewrite Hu. split; intros [? Hne]; (split; [done|]).
  - intros ->. apply Hne. exists 0. lia.
  - intros (i0 & ? & ->). apply Hne. assert (i0 = 0) as -> by lia. lia.
Qed.

#[export] Instance palloc_pages : PageAllocator palloc := {|
  pa_inv := ready; pa_managed := managed; pa_used := used; pa_get := get_pages; pa_free := free_page;
  pa_get_ok := get_pages_ok; pa_free_ok := free_page_ok
|}.

End KernelPages.
