(* ===== verification/SchedulerProps.v ===== *)
(** * The scheduler and synchronisation: properties

    What holds in every state that the kernel reaches by running threads,
    switching between them and taking timer interrupts. *)
From stdpp Require Import base gmap list relations.
From Stdlib Require Import ZArith Lia.
From S2P Require Import Prelude Vaddr Palloc Thread Synch Scheduler SchedulerSteps KernelPages.

Module SchedulerProps.
Import Thread Synch Scheduler Steps.

(** ** Code that leaves a part of the state alone *)

Section keeps.
Context {S B : Type} (f : S → B).

Definition keeps {A} (m : M S A) : Prop := ∀ k a k', m k = Ok (a, k') → f k' = f k.

Lemma keeps_ret {A} (a : A) : keeps (mret a).
Proof. by intros k a' k' [= _ <-]. Qed.
Lemma keeps_bind {A C} (m : M S A) (g : A → M S C) : keeps m → (∀ a, keeps (g a)) → keeps (m ≫= g).
Proof.
  intros Hm Hg k a k'. unfold mbind, M_bind. destruct (m k) as [[b k1]|] eqn:E; [|done].
  intros Hk. rewrite (Hg _ _ _ _ Hk). by eapply Hm.
Qed.
Lemma keeps_gets {A} (g : S → A) : keeps (gets g).
Proof. by intros k a k' [= _ <-]. Qed.
Lemma keeps_get : keeps get.
Proof. by intros k a k' [= _ <-]. Qed.
Lemma keeps_modify (g : S → S) : (∀ k, f (g k) = f k) → keeps (modify g).
Proof. intros Hg k a k' [= _ <-]. apply Hg. Qed.
Lemma keeps_ASSERT b : keeps (ASSERT b).
Proof. intros k a k'. unfold ASSERT. by destruct b; intros [= _ <-]. Qed.
Lemma keeps_fail {A} e : keeps (fail e : M S A).
Proof. done. Qed.
Lemma keeps_of_option {A} e (o : option A) : keeps (of_option e o).
Proof. intros k a k'. unfold of_option. by destruct o; intros [= _ <-]. Qed.
Lemma keeps_zoom {T A} (g : S → T) (p : T → S → S) (m : M T A) :
  (∀ t k, f (p t k) = f k) → keeps (zoom g p m).
Proof. intros Hp k a k'. unfold zoom. destruct (m (g k)) as [[]|]; [|done]. intros [= _ <-]. apply Hp. Qed.
End keeps.

Create HintDb keeps.
#[export] Hint Resolve keeps_ret keeps_bind keeps_gets keeps_get keeps_modify keeps_ASSERT keeps_fail
  keeps_of_option keeps_zoom : keeps.

Section holders.
Context {St : Type} `{PageAllocator St}.
Local Abbreviation kernel := (@Thread.kernel St).
Implicit Types k : kernel.

Ltac keep :=
  repeat match goal with
  | |- keeps _ (if ?b then _ else _) => destruct b
  | |- keeps _ (match ?o with _ => _ end) => destruct o
  | |- keeps _ (_ ≫= _) => apply keeps_bind; [|intros ?]
  | |- _ => solve [eauto with keeps]
  end.

Lemma keeps_get_thread t : keeps (@holders St) (get_thread t).
Proof. intros k a k'. unfold get_thread. by destruct (threads k !! t); intros [= _ <-]. Qed.
Lemma keeps_set_thread t g : keeps (@holders St) (set_thread t g).
Proof. intros k a k'. unfold set_thread. by destruct (threads k !! t); intros [= _ <-]. Qed.
Lemma keeps_is_thread t : keeps (@holders St) (is_thread t).
Proof.
  intros k a k'. unfold is_thread. destruct (t =? NULL); [by intros [= _ <-]|].
  by destruct (threads k !! t); intros [= _ <-].
Qed.
Lemma keeps_get_sem s : keeps (@holders St) (get_sem s).
Proof. intros k a k'. unfold get_sem. by destruct (semas k !! s); intros [= _ <-]. Qed.
Lemma keeps_free t : keeps (@holders St) (palloc_free_page t).
Proof. intros k a k'. unfold palloc_free_page. by destruct (pa_free t (pages k)) as [[]|]; intros [= _ <-]. Qed.
#[local] Hint Resolve keeps_get_thread keeps_set_thread keeps_is_thread keeps_get_sem keeps_free : keeps.
Lemma keeps_touch e : keeps (@holders St) (touch e).
Proof. unfold touch. keep. Qed.
#[local] Hint Resolve keeps_touch : keeps.
Lemma keeps_push l t : keeps (@holders St) (thread_list_push_back l t).
Proof. unfold thread_list_push_back. keep. Qed.
Lemma keeps_remove l t : keeps (@holders St) (thread_list_remove l t).
Proof. unfold thread_list_remove. keep. Qed.
#[local] Hint Resolve keeps_push keeps_remove : keeps.

Lemma keeps_current : keeps (@holders St) thread_current.
Proof. unfold thread_current, running_thread. keep. Qed.
Lemma keeps_level l : keeps (@holders St) (intr_set_level l).
Proof. unfold intr_set_level, intr_enable, intr_disable, intr_get_level, intr_context. keep. Qed.
Lemma keeps_disable : keeps (@holders St) intr_disable.
Proof. unfold intr_disable, intr_get_level. keep. Qed.
#[local] Hint Resolve keeps_current keeps_level keeps_disable : keeps.

Lemma keeps_schedule : keeps (@holders St) schedule.
Proof.
  unfold schedule, running_thread, next_thread_to_run, intr_get_level, thread_schedule_tail,
    running_thread, intr_get_level. keep.
Qed.
#[local] Hint Resolve keeps_schedule : keeps.
Lemma keeps_block fr : keeps (@holders St) (thread_block fr).
Proof. unfold thread_block, intr_context, intr_get_level. keep. Qed.
Lemma keeps_yield fr : keeps (@holders St) (thread_yield fr).
Proof. unfold thread_yield, intr_context. keep. Qed.
Lemma keeps_exit : keeps (@holders St) thread_exit.
Proof. unfold thread_exit, process_exit, intr_context. keep. Qed.
Lemma keeps_unblock t : keeps (@holders St) (thread_unblock t).
Proof. unfold thread_unblock. keep. Qed.
#[local] Hint Resolve keeps_block keeps_yield keeps_exit keeps_unblock : keeps.

Lemma keeps_sema_loop s old : keeps (@holders St) (sema_loop s old).
Proof. unfold sema_loop, set_sem. keep. Qed.
#[local] Hint Resolve keeps_sema_loop : keeps.
Lemma keeps_create nm p code : keeps (@holders St) (thread_create nm p code).
Proof.
  unfold thread_create, init_thread, sema_init, allocate_tid, running_thread, alloc_frame. keep.
Qed.
Lemma keeps_get_child id : keeps (@holders St) (thread_get_child id).
Proof.
  unfold thread_get_child. keep. induction (child_list a0) as [|c cs IH]; keep.
Qed.
#[local] Hint Resolve keeps_create keeps_get_child : keeps.

Lemma keeps_advance t js : keeps (@holders St) (advance t js).
Proof. unfold advance. keep. Qed.
Lemma keeps_held l : keeps (@holders St) (lock_held_by_current_thread l).
Proof.
  intros k a k'. unfold lock_held_by_current_thread. destruct (holders k !! l); [|done].
  revert k a k'. enough (keeps (@holders St) (t ← thread_current; mret (z =? t))) by done. keep.
Qed.
#[local] Hint Resolve keeps_advance keeps_held : keeps.

(** Only two steps change the holder of a lock. *)
Lemma keeps_instr i :
  match i with SetHolder _ | ClearHolder _ => False | _ => True end →
  keeps (@holders St) (exec_instr i).
Proof.
  intros Hi. unfold exec_instr. apply keeps_bind; [unfold running_thread; keep|]. intros t.
  destruct i; try done; unfold sema_down, sema_up, sema_try_down, set_sem, sema_init, intr_context,
    intr_get_level, thread_set_priority; keep.
Qed.

Lemma keeps_timer : keeps (@holders St) intr_handler_timer.
Proof.
  unfold intr_handler_timer, timer_interrupt, thread_tick, intr_yield_on_return, intr_get_level, intr_context.
  keep.
Qed.
Lemma keeps_resume : keeps (@holders St) resume_thread.
Proof. unfold resume_thread, running_thread, intr_enable, intr_get_level, intr_context. keep. Qed.

(** The holder of a lock stays the holder until it lets go of the lock
    itself. *)
Lemma holder_stable k k' l t :
  inv k → lock_inv k → kstep k k' → holders k !! l = Some t → t ≠ NULL →
  holders k' !! l = Some t
  ∨ running k = t ∧ ∃ th p, threads k !! t = Some th ∧ pc th = ClearHolder l :: p.
Proof.
  intros Hi Hl Hstep Hh Hn. pose proof (inv_core k Hi) as Hc. destruct (c_cur _ Hc) as (th & Hth & Hst).
  destruct Hstep as [Hon Hrun|Hoff Hrun|Hon Hrun]; [|left; by rewrite (keeps_resume _ _ _ Hrun)
    |left; by rewrite (keeps_timer _ _ _ Hrun)].
  unfold run_thread, running_thread, get_thread in Hrun. run_in Hrun. rewrite Hth in Hrun.
  destruct (pc th) as [|i p] eqn:Hpc.
  { left. destruct (ops th) as [|o os].
    - by rewrite (keeps_exit _ _ _ Hrun).
    - by rewrite (keeps_set_thread _ _ _ _ _ Hrun). }
  destruct i; try (left; erewrite keeps_instr; [exact Hh | | exact Hrun]; exact I).
  - left. assert (own k l0 (running k)) as Hown.
    { exists th. rewrite Hpc. simpl. by rewrite Z.eqb_refl. }
    destruct (l_own _ Hl _ _ Hown) as [h Eh]. destruct (l_state _ Hl _ h Eh) as (sm & _ & Hls).
    destruct Hls as [(_ & _ & Hno)|[(_ & _ & Hno)|(_ & Hh0 & _)]]; [by apply Hno in Hown..|].
    unfold exec_instr, running_thread in Hrun. run_in Hrun.
    rewrite thread_current_run in Hrun by by apply core_cur_ok. set (k1 := set_holders _ k) in Hrun.
    rewrite (keeps_advance _ _ k1 _ _ Hrun). simpl. rewrite lookup_insert_ne; [done|]. congruence.
  - destruct (decide (l = l0)) as [<-|Hne].
    + right. pose proof (l_clear _ Hl _ _ _ _ Hth Hpc) as E. rewrite Hh in E. injection E as ->. eauto.
    + left. unfold exec_instr, running_thread in Hrun. run_in Hrun. set (k1 := set_holders _ k) in Hrun.
      rewrite (keeps_advance _ _ k1 _ _ Hrun). simpl. by rewrite lookup_insert_ne.
Qed.

(** [t] is inside the lock [l]: it is the holder, or it has taken the
    semaphore of [l] and is about to become the holder, or it has stopped being
    the holder and is about to give the semaphore back. *)
Definition inside k (l t : Z) : Prop := holders k !! l = Some t ∧ t ≠ NULL ∨ own k l t.

Lemma inside_unique k l t t' : lock_inv k → inside k l t → inside k l t' → t = t'.
Proof.
  intros Hl. unfold inside.
  assert (∀ t, own k l t → ∀ h, holders k !! l = Some h → h = NULL ∧ ∀ t', own k l t' → t' = t) as Hown.
  { intros u Hu h Hh. destruct (l_state _ Hl l h Hh) as (sm & _ & Hls).
    destruct Hls as [(_ & _ & Hno)|[(_ & _ & Hno)|(_ & ? & v & Hv & Huniq)]]; [by apply Hno in Hu..|].
    split; [done|]. intros t1 H1. by rewrite (Huniq _ H1), (Huniq _ Hu). }
  intros [[Hh Hn]|Ho] [[Hh' Hn']|Ho'].
  - congruence.
  - by destruct (Hown t' Ho' t Hh).
  - by destruct (Hown t Ho t' Hh').
  - destruct (l_own _ Hl l t Ho) as [h Hh]. destruct (Hown t Ho h Hh) as [_ Hu]. symmetry. auto.
Qed.

End holders.

(** ** The queue of ready threads *)

Section fair.
Context {St : Type} `{PageAllocator St}.
Local Abbreviation kernel := (@Thread.kernel St).
Implicit Types k : kernel.

(** The running thread stays and threads may join the end of the queue. *)
Definition extends {A} (m : M kernel A) : Prop := ∀ k a k', m k = Ok (a, k') →
  running k' = running k ∧ ∃ ext, ready_list k' = ready_list k ++ ext.

(** The same, or then the first thread of the queue is switched to. *)
Definition moves {A} (m : M kernel A) : Prop := ∀ k a k', m k = Ok (a, k') →
  ∃ ext, running k' = running k ∧ ready_list k' = ready_list k ++ ext
    ∨ running k' = hd (idle_thread k') (ready_list k ++ ext) ∧ ready_list k' = tl (ready_list k ++ ext).

(** The scheduler's data do not change. *)
Local Abbreviation still m := (keeps (λ k : kernel, (running k, ready_list k, idle_thread k)) m).

Lemma still_extends {A} (m : M kernel A) : still m → extends m.
Proof.
  intros Hm k a k' E. specialize (Hm _ _ _ E). simplify_eq/=. split; [done|]. exists [].
  rewrite app_nil_r. congruence.
Qed.
Lemma extends_bind {A B} (m : M kernel A) (g : A → M kernel B) :
  extends m → (∀ a, extends (g a)) → extends (m ≫= g).
Proof.
  intros Hm Hg k a k'. unfold mbind, M_bind. destruct (m k) as [[b k1]|] eqn:E; [|done].
  intros Hk. destruct (Hm _ _ _ E) as (Hr & e1 & E1). destruct (Hg _ _ _ _ Hk) as (Hr2 & e2 & E2).
  split; [congruence|]. exists (e1 ++ e2). rewrite E2, E1. by rewrite app_assoc.
Qed.
Lemma moves_bind {A B} (m : M kernel A) (g : A → M kernel B) :
  extends m → (∀ a, moves (g a)) → moves (m ≫= g).
Proof.
  intros Hm Hg k a k'. unfold mbind, M_bind. destruct (m k) as [[b k1]|] eqn:E; [|done].
  intros Hk. destruct (Hm _ _ _ E) as (Hr & e1 & E1).
  destruct (Hg _ _ _ _ Hk) as (e2 & Hcase). exists (e1 ++ e2). rewrite E1, Hr in Hcase.
  by rewrite app_assoc.
Qed.
Lemma moves_then {A B} (m : M kernel A) (g : A → M kernel B) :
  moves m → (∀ a, still (g a)) → moves (m ≫= g).
Proof.
  intros Hm Hg k a k'. unfold mbind, M_bind. destruct (m k) as [[b k1]|] eqn:E; [|done].
  intros Hk. destruct (Hm _ _ _ E) as (ext & Hcase). specialize (Hg _ _ _ _ Hk). simplify_eq/=.
  exists ext. destruct Hcase as [[? ?]|[? ?]]; [left | right]; split; congruence.
Qed.
Lemma extends_moves {A} (m : M kernel A) : extends m → moves m.
Proof. intros Hm k a k' E. destruct (Hm _ _ _ E) as (? & ext & ?). exists ext. by left. Qed.

Lemma still_get_thread t : still (get_thread t).
Proof. intros k a k'. unfold get_thread. by destruct (threads k !! t); intros [= _ <-]. Qed.
Lemma still_set_thread t g : still (set_thread t g).
Proof. intros k a k'. unfold set_thread. by destruct (threads k !! t); intros [= _ <-]. Qed.
Lemma still_is_thread t : still (is_thread t).
Proof.
  intros k a k'. unfold is_thread. destruct (t =? NULL); [by intros [= _ <-]|].
  by destruct (threads k !! t); intros [= _ <-].
Qed.
Lemma still_get_sem s : still (get_sem s).
Proof. intros k a k'. unfold get_sem. by destruct (semas k !! s); intros [= _ <-]. Qed.
Lemma still_free t : still (palloc_free_page t).
Proof. intros k a k'. unfold palloc_free_page. by destruct (pa_free t (pages k)) as [[]|]; intros [= _ <-]. Qed.
#[local] Hint Resolve still_get_thread still_set_thread still_is_thread still_get_sem still_free : keeps.

Ltac stay :=
  repeat match goal with
  | |- keeps _ (if ?b then _ else _) => destruct b
  | |- keeps _ (match ?o with _ => _ end) => destruct o
  | |- keeps _ (_ ≫= _) => apply keeps_bind; [|intros ?]
  | |- _ => solve [eauto with keeps]
  end.
Lemma still_touch e : still (touch e).
Proof. unfold touch. stay. Qed.
#[local] Hint Resolve still_touch : keeps.
Lemma still_push l t : still (thread_list_push_back l t).
Proof. unfold thread_list_push_back. stay. Qed.
Lemma still_remove l t : still (thread_list_remove l t).
Proof. unfold thread_list_remove. stay. Qed.
#[local] Hint Resolve still_push still_remove : keeps.
Lemma still_current : still thread_current.
Proof. unfold thread_current, running_thread. stay. Qed.
Lemma still_level l : still (intr_set_level l).
Proof. unfold intr_set_level, intr_enable, intr_disable, intr_get_level, intr_context. stay. Qed.
Lemma still_disable : still intr_disable.
Proof. unfold intr_disable, intr_get_level. stay. Qed.
#[local] Hint Resolve still_current still_level still_disable : keeps.

Lemma extends_push t : extends (modify (λ k, set_ready_list (ready_list k ++ [t]) k)).
Proof. intros k a k' [= _ <-]. split; [done|]. by exists [t]. Qed.

Lemma moves_schedule : moves schedule.
Proof.
  intros k a k'. unfold schedule, running_thread. run. rewrite next_run. unfold intr_get_level. run.
  set (k1 := set_ready_list _ k). destruct (bool_decide _); [|done].
  intros Hk. exists []. rewrite app_nil_r. right.
  enough (running k' = next k ∧ ready_list k' = ready_list k1 ∧ idle_thread k' = idle_thread k)
    as (-> & -> & ->) by done.
  unfold get_thread in Hk. destruct (threads k1 !! running k); [|done]. destruct (negb _); [|done].
  destruct (is_thread (next k) k1) as [[b k2]|] eqn:E; [|done].
  pose proof (still_is_thread _ _ _ _ E) as E2. simplify_eq/=. destruct b; [|done].
  assert (∀ p, still (thread_schedule_tail p)) as Htail.
  { intros p. unfold thread_schedule_tail, running_thread, intr_get_level. stay. }
  destruct (negb (running k =? next k)) eqn:En.
  - specialize (Htail _ _ _ _ Hk). simplify_eq/=. split_and!; congruence.
  - specialize (Htail _ _ _ _ Hk). simplify_eq/=. apply negb_false_iff, Z.eqb_eq in En. split_and!; congruence.
Qed.

Ltac extend :=
  repeat match goal with
  | |- extends (if ?b then _ else _) => destruct b
  | |- extends (match ?o with _ => _ end) => destruct o
  | |- extends (_ ≫= _) => apply extends_bind; [|intros ?]
  | |- extends _ => solve [eauto using extends_push with keeps]
  | |- extends _ => apply still_extends; solve [stay]
  end.
Ltac moving :=
  repeat match goal with
  | |- moves (if ?b then _ else _) => destruct b
  | |- moves (match ?o with _ => _ end) => destruct o
  | |- moves _ => solve [eauto using moves_schedule with keeps]
  | |- moves (_ ≫= _) => apply moves_bind; [solve [extend]|intros ?]
  | |- moves (_ ≫= _) => apply moves_then; [|intros ?; solve [stay]]
  | |- moves _ => apply extends_moves; solve [extend]
  end.

Lemma moves_block fr : moves (thread_block fr).
Proof. unfold thread_block, intr_context, intr_get_level. moving. Qed.
Lemma moves_yield fr : moves (thread_yield fr).
Proof. unfold thread_yield, intr_context. moving. Qed.
Lemma moves_exit : moves thread_exit.
Proof. unfold thread_exit, process_exit, intr_context. moving. Qed.
Lemma extends_unblock t : extends (thread_unblock t).
Proof. unfold thread_unblock. extend. Qed.
#[local] Hint Resolve moves_block moves_yield moves_exit extends_unblock : keeps.

Lemma moves_sema_loop s old : moves (sema_loop s old).
Proof. unfold sema_loop, set_sem. moving. Qed.
Lemma extends_create nm p code : extends (thread_create nm p code).
Proof.
  unfold thread_create, init_thread, sema_init, allocate_tid, running_thread, alloc_frame. extend.
Qed.
Lemma still_get_child id : still (thread_get_child id).
Proof. unfold thread_get_child. stay. induction (child_list a0) as [|c cs IH]; stay. Qed.
Lemma still_advance t js : still (advance t js).
Proof. unfold advance. stay. Qed.
Lemma still_held l : still (lock_held_by_current_thread l).
Proof.
  intros k a k'. unfold lock_held_by_current_thread. destruct (holders k !! l); [|done].
  revert k a k'. enough (still (t ← thread_current; mret (z =? t))) by done. stay.
Qed.
#[local] Hint Resolve moves_sema_loop extends_create still_get_child still_advance still_held : keeps.

Lemma moves_instr i : i ≠ IdleStart → moves (exec_instr i).
Proof.
  intros Hi. unfold exec_instr. apply moves_bind; [unfold running_thread; extend|]. intros t.
  destruct i; try done; unfold sema_down, sema_up, sema_try_down, set_sem, sema_init, intr_context,
    intr_get_level, thread_set_priority; moving.
Qed.
Lemma moves_timer : moves intr_handler_timer.
Proof.
  unfold intr_handler_timer, timer_interrupt, thread_tick, intr_yield_on_return, intr_get_level, intr_context.
  moving.
Qed.
Lemma moves_resume : moves resume_thread.
Proof. unfold resume_thread, running_thread, intr_enable, intr_get_level, intr_context. moving. Qed.

Lemma kstep_moves k k' :
  inv k → lock_inv k → kstep k k' →
  ∃ ext, running k' = running k ∧ ready_list k' = ready_list k ++ ext
    ∨ running k' = hd (idle_thread k') (ready_list k ++ ext) ∧ ready_list k' = tl (ready_list k ++ ext).
Proof.
  intros Hi Hl [Hon Hrun|Hoff Hrun|Hon Hrun]; [|by eapply moves_resume | by eapply moves_timer].
  destruct (c_cur _ (inv_core k Hi)) as (th & Hth & _).
  unfold run_thread, running_thread, get_thread in Hrun. run_in Hrun. rewrite Hth in Hrun.
  destruct (pc th) as [|i p] eqn:Hpc.
  - destruct (ops th); [by eapply moves_exit|]. revert Hrun. apply extends_moves. extend.
  - pose proof (not_idle_start k th i p Hi Hth Hpc). by eapply moves_instr.
Qed.

(** The timer ticks, and threads that are switched to go on; nobody gives up
    the processor. *)
Definition drive : M kernel unit :=
  l ← intr_get_level;
  match l with INTR_ON => intr_handler_timer | INTR_OFF => resume_thread end.
Fixpoint drive_n (n : nat) : M kernel unit :=
  match n with O => mret tt | Datatypes.S n => drive ;; drive_n n end.

(** How long a thread with [n] others before it may still have to wait. *)
Definition patience k (n : nat) : Z :=
  let d := u32 (thread_ticks k + 1) in
  6 * Z.of_nat n + match intr k with INTR_OFF => 6 | INTR_ON => if TIME_SLICE <=? d then 1 else 5 - d end.

Lemma patience_bounds k n : 6 * Z.of_nat n < patience k n ≤ 6 * (Z.of_nat n + 1).
Proof.
  unfold patience, TIME_SLICE. pose proof (u32_range (thread_ticks k + 1)).
  destruct (intr k); [lia|]. destruct (Z.leb_spec 4 (u32 (thread_ticks k + 1))); lia.
Qed.

Lemma switch_position k k' l1 t l2 ext :
  ready_list k = l1 ++ t :: l2 → running k' = hd (idle_thread k') (ready_list k ++ ext) →
  ready_list k' = tl (ready_list k ++ ext) →
  running k' = t ∨ ∃ x l1' l2', l1 = x :: l1' ∧ ready_list k' = l1' ++ t :: l2'.
Proof.
  intros E Hr Hl. rewrite E in Hr, Hl. destruct l1 as [|x l1]; simpl in *; [by left|].
  right. exists x, l1, (l2 ++ ext). rewrite Hl, <- app_assoc. done.
Qed.

Lemma drive_step k l1 t l2 :
  inv k → lock_inv k → ready_list k = l1 ++ t :: l2 →
  ∃ k', drive k = Ok (tt, k') ∧ inv k' ∧ lock_inv k'
    ∧ (running k' = t
       ∨ ∃ l1' l2', ready_list k' = l1' ++ t :: l2' ∧ patience k' (length l1') < patience k (length l1)).
Proof.
  intros Hi Hl E. unfold drive, intr_get_level. run.
  assert (∀ k0 k' ext, ready_list k0 = ready_list k ++ ext → switches k0 k' → running k' = t
    ∨ ∃ l1' l2', ready_list k' = l1' ++ t :: l2' ∧ patience k' (length l1') < patience k (length l1)) as Hsw.
  { intros k0 k' ext E0 (Hr & Hrl & _ & Hid). unfold next in Hr. rewrite E0 in Hr, Hrl. rewrite <- Hid in Hr.
    destruct (switch_position k k' l1 t l2 ext E Hr Hrl) as [?|(x & l1' & l2' & -> & E')]; [by left|].
    right. exists l1', l2'. split; [done|]. pose proof (patience_bounds k' (length l1')).
    pose proof (patience_bounds k (length (x :: l1'))). simpl length in *. lia. }
  destruct (intr k) eqn:Ei.
  - destruct (resume_spec k Hi Hl Ei) as (k' & -> & ? & ? & Hgo). exists k'. split_and!; try done.
    destruct Hgo as [(Hon & Hr & Hrl & Ht & _)|[Hoff Hs]].
    + right. exists l1, l2. rewrite Hrl, E. split; [done|]. unfold patience. rewrite Hon, Ei.
      pose proof (u32_range (thread_ticks k' + 1)). destruct (TIME_SLICE <=? _); lia.
    + apply (Hsw k k' []); [by rewrite app_nil_r | done].
  - destruct (timer_spec k Hi Hl Ei) as (k' & -> & ? & ? & Hgo). exists k'. split_and!; try done.
    destruct (TIME_SLICE <=? u32 (thread_ticks k + 1)) eqn:Et.
    + destruct Hgo as [_ Hs]. eapply Hsw; [|exact Hs]. reflexivity.
    + destruct Hgo as (Hon & Hr & Hrl & Ht & _). right. exists l1, l2. rewrite Hrl, E. split; [done|].
      unfold patience. rewrite Hon, Ei, Ht, Et. unfold TIME_SLICE in *. apply Z.leb_gt in Et.
      pose proof (u32_range (thread_ticks k + 1)). set (d := u32 (thread_ticks k + 1)) in *.
      rewrite (u32_small (d + 1)) by lia. destruct (Z.leb_spec 4 (d + 1)); lia.
Qed.

Lemma drive_runs (n : nat) k l1 t l2 :
  inv k → lock_inv k → ready_list k = l1 ++ t :: l2 → patience k (length l1) ≤ Z.of_nat n →
  ∃ m k', (m ≤ n)%nat ∧ drive_n m k = Ok (tt, k') ∧ running k' = t.
Proof.
  revert k l1 l2. induction n as [|n IH]; intros k l1 l2 Hi Hl E Hp.
  { pose proof (patience_bounds k (length l1)). lia. }
  destruct (drive_step k l1 t l2 Hi Hl E) as (k1 & Ed & Hi1 & Hl1 & [Hr|(l1' & l2' & E' & Hlt)]).
  - exists 1%nat, k1. split; [lia|]. split; [|done]. simpl. run. by rewrite Ed.
  - destruct (IH k1 l1' l2' Hi1 Hl1 E') as (m & k' & ? & Em & ?); [lia|]. exists (Datatypes.S m), k'.
    split; [lia|]. split; [|done]. simpl. unfold mbind, M_bind. by rewrite Ed.
Qed.

End fair.

(** ** A kernel *)

#[local] Existing Instance KernelPages.palloc_pages.

(** The initial thread, the idle thread, a thread that waits for its turn
    and one that waits for a semaphore, on pages of [Palloc.two_pools]. *)
Definition main_thread : Z := 3221282816.
Definition idle_page : Z := 3222274048.
Definition worker : Z := 3222278144.
Definition sleeper : Z := 3222282240.

Definition boot_thread (id : Z) (st : thread_status) (fr : resume) (p : list instr) (os : list op) : thread :=
  mk_thread id st [] 0 PRI_DEFAULT 0 [] NULL THREAD_MAGIC fr p os.

Definition critical : list op := [OLockAcquire 1; OYield; OLockRelease 1].

Definition boot : @kernel Palloc.palloc :=
  mk_kernel
    (<[main_thread := boot_thread 1 THREAD_RUNNING in_kernel_thread []
         (critical ++ [OSemaUp 7; OCreate [109] 31 critical])]>
     (<[idle_page := boot_thread 2 THREAD_BLOCKED in_idle [IdleLoop] []]>
      (<[worker := boot_thread 3 THREAD_READY in_kernel_thread [] critical]>
       (<[sleeper := boot_thread 4 THREAD_BLOCKED (in_sema_down (Sem 7) INTR_ON) [SemaDown (Sem 7)] critical]> ∅))))
    [worker] [main_thread; idle_page; worker; sleeper] idle_page main_thread 5 None
    main_thread INTR_ON false false 0 0 0 0 0
    (<[Sem 7 := mk_semaphore 0 [sleeper]]> (<[LockSem 1 := mk_semaphore 1 []]> ∅))
    (<[1 := NULL]> ∅) ∅ Palloc.two_pools.

Ltac boot_cases :=
  repeat match goal with
  | E : ∅ !! _ = Some _ |- _ => by rewrite lookup_empty in E
  | E : <[_ := _]> _ !! _ = Some _ |- _ => apply lookup_insert_Some in E as [[<- <-]|[? E]]
  | E : _ ∈ _ :: _ |- _ => apply elem_of_cons in E as [->|E]
  | E : _ ∈ [] |- _ => by apply elem_of_nil in E
  end.

Lemma boot_inv : inv boot.
Proof.
  apply core_inv; [|done]. split; [split|..]; simpl.
  - intros t th E. boot_cases; done.
  - apply NoDup_singleton.
  - intros t E. boot_cases. eexists. split; reflexivity.
  - intros t th E Hs Hi. boot_cases; try done. by left.
  - intros s sm E. boot_cases; (split; [done|]); [apply NoDup_singleton | constructor].
  - intros s sm t E Hin. boot_cases; simpl in Hin; boot_cases. do 2 eexists. split_and!; reflexivity.
  - intros t th s old E Hs Hf. boot_cases; simpl in *; by simplify_eq.
  - intros t th s old E Hs Hf. boot_cases; done.
  - intros t th E. boot_cases; done.
  - eexists. split; [reflexivity|]. split; [done | by left].
  - intros t th E Hi. boot_cases; try done. simpl. naive_solver.
  - intros c ws w E. boot_cases.
  - split.
    + split; [apply Palloc.two_pools_wf | done].
    + intros (i & Hi & E). unfold Palloc.page, main_thread in E. rewrite Vaddr.PGSIZE_eq in E.
      cbn in E, Hi. lia.
  - intros t th E Hi. boot_cases; try done.
    + exists 0. split; [split; [done|]|]; by vm_compute.
    + exists 1. split; [split; [done|]|]; by vm_compute.
    + exists 2. split; [split; [done|]|]; by vm_compute.
  - intros t th E Hs. boot_cases; set_solver.
  - done.
  - done.
  - intros t th c E Hin. boot_cases; simpl in Hin; boot_cases.
  - intros c Hin. right. boot_cases; by eexists.
  - eexists. split; reflexivity.
  - intros t th E Hs. boot_cases; done.
  - intros t th E Hs. boot_cases; done.
Qed.

Lemma boot_locks : lock_inv boot.
Proof.
  assert (∀ l t, ¬ own boot l t) as Hno.
  { intros l t (th & E & Ho). simpl in E. boot_cases; done. }
  split; simpl.
  - intros l h E. boot_cases. exists (mk_semaphore 1 []). split; [by vm_compute|]. left. auto.
  - intros l [sm E]. apply lookup_insert_Some in E as [[? _]|[_ E]]; [done|]. apply lookup_insert_Some in E as [[[= <-] _]|[_ E]]; [by eexists | by rewrite lookup_empty in E].
  - intros l t Ho. by apply Hno in Ho.
  - intros l t th p E Hp. boot_cases; done.
Qed.

(** The state after [n] steps of running threads. *)
Definition after (n : nat) (k : @kernel Palloc.palloc) : @kernel Palloc.palloc :=
  Nat.iter n (λ k, match run_thread k with Ok (_, k') => k' | Err _ => k end) k.

Lemma boot_locked : rtc kstep boot (after 5 boot).
Proof.
  apply (rtc_l _ _ (after 1 boot)); [by apply kstep_run; vm_compute|].
  apply (rtc_l _ _ (after 2 boot)); [by apply kstep_run; vm_compute|].
  apply (rtc_l _ _ (after 3 boot)); [by apply kstep_run; vm_compute|].
  apply (rtc_l _ _ (after 4 boot)); [by apply kstep_run; vm_compute|].
  apply (rtc_l _ _ (after 5 boot)); [by apply kstep_run; vm_compute|]. constructor.
Qed.

(** ** Properties *)

Section claims.
Context {St : Type} `{PageAllocator St}.
Local Abbreviation kernel := (@Thread.kernel St).
Implicit Types k : kernel.

(** C1: locks exclude.  In every state that the kernel reaches from a good
    one, whatever the interleaving of threads and timer interrupts, at most
    one thread is inside a lock: at most one is its holder, or is between the
    [sema_down] and the assignment to [holder] of [lock_acquire], or between
    the assignment and the [sema_up] of [lock_release].  And the holder of a
    lock stays its holder until it executes [lock_release] itself. *)
Theorem lock_mutual_exclusion k0 k :
  inv k0 → lock_inv k0 → rtc kstep k0 k →
  (∀ l t t', inside k l t → inside k l t' → t = t')
  ∧ ∀ k' l t, kstep k k' → holders k !! l = Some t → t ≠ NULL →
      holders k' !! l = Some t
      ∨ running k = t ∧ ∃ th p, threads k !! t = Some th ∧ pc th = ClearHolder l :: p.
Proof.
  intros Hi Hl Hrtc. destruct (ksteps_inv _ _ Hrtc (conj Hi Hl)) as [Hi' Hl']. split.
  - intros l t t'. by apply inside_unique.
  - intros k' l t. by apply holder_stable.
Qed.

(** C2: the invariant of the scheduler, in every reachable state: exactly
    one thread has the status [THREAD_RUNNING], and the processor executes it;
    [ready_list] has no duplicates and contains exactly the threads whose status
    is [THREAD_READY] (the idle thread apart, which is not queued); the threads
    that wait for a semaphore are blocked in its [sema_down], once each; and the
    semaphore of a lock is 0 or 1. *)
Theorem scheduler_invariant k0 k :
  inv k0 → lock_inv k0 → rtc kstep k0 k →
  (∀ t, (∃ th, threads k !! t = Some th ∧ status th = THREAD_RUNNING) ↔ t = running k)
  ∧ NoDup (ready_list k)
  ∧ (∀ t, t ≠ idle_thread k →
       t ∈ ready_list k ↔ ∃ th, threads k !! t = Some th ∧ status th = THREAD_READY)
  ∧ (∀ s sm, semas k !! s = Some sm → NoDup (waiters sm) ∧ ∀ t, t ∈ waiters sm →
       ∃ th old, threads k !! t = Some th ∧ status th = THREAD_BLOCKED ∧ frame th = in_sema_down s old)
  ∧ (∀ l sm, semas k !! LockSem l = Some sm → value sm = 0 ∨ value sm = 1).
Proof.
  intros Hi Hl Hrtc. destruct (ksteps_inv _ _ Hrtc (conj Hi Hl)) as [Hi' Hl'].
  destruct (inv_core k Hi') as [Hb Hcur Hu _]. split_and!.
  - intros t. split; [intros (th & ? & ?); by eapply Hu | by intros ->].
  - apply Hb.
  - intros t Hne. split; [apply Hb|]. intros (th & ? & ?). by eapply (b_ready_all _ Hb).
  - intros s sm Hs. split; [by eapply (b_sem _ Hb)|]. intros t. by eapply (b_waiter _ Hb).
  - intros l sm Hs. destruct (l_sem _ Hl' l) as [h Hh]; [by eexists|].
    destruct (l_state _ Hl' l h Hh) as (sm' & E & Hst). simplify_eq.
    destruct Hst as [(? & _)|[(? & _)|(? & _)]]; auto.
Qed.

(** C3: in no reachable state does an assertion of the scheduler fail.  A
    thread that has been switched to continues, wherever it was suspended; the
    handler of the timer interrupt returns; and the next step of the running
    thread succeeds, whatever its operation is, unless the code of the thread
    has misused it: the semaphore, lock or condition variable does not exist,
    the lock that it acquires is its own or the one that it releases is not,
    the priority of a new thread does not exist, or a link of [all_list] or of
    its list of children leads to a page that has been freed. *)
Theorem scheduler_never_panics k0 k :
  inv k0 → lock_inv k0 → rtc kstep k0 k →
  (intr k = INTR_OFF → ∃ k', resume_thread k = Ok (tt, k'))
  ∧ (intr k = INTR_ON → ∃ k', intr_handler_timer k = Ok (tt, k'))
  ∧ ∃ th, threads k !! running k = Some th
    ∧ (intr k = INTR_ON →
       (∃ k', run_thread k = Ok (tt, k'))
       ∨ ∃ e, run_thread k = Err e ∧ (pc th = [] → ops th = []) ∧ misuse k th (hd_error (pc th)) e).
Proof.
  intros Hi Hl Hrtc. destruct (ksteps_inv _ _ Hrtc (conj Hi Hl)) as [Hi' Hl']. split_and!.
  - intros Hx. destruct (resume_spec k Hi' Hl' Hx) as (k' & ? & _). eauto.
  - intros Hx. destruct (timer_spec k Hi' Hl' Hx) as (k' & ? & _). eauto.
  - destruct (c_cur _ (inv_core k Hi')) as (th & Hth & _). exists th. split; [done|]. intros Hx. by apply run_thread_total.
Qed.

(** the ready queue is first-in, first-out.  When a thread [t] waits in
    the queue, every step of the kernel either starts to run [t], or leaves [t] in
    the queue with no more threads before it than there were, and with fewer
    if the step has switched to another thread. *)
Theorem ready_list_fifo k k' l1 t l2 :
  inv k → lock_inv k → kstep k k' → ready_list k = l1 ++ t :: l2 →
  running k' = t
  ∨ ∃ l1' l2', ready_list k' = l1' ++ t :: l2' ∧ (length l1' ≤ length l1)%nat
      ∧ (running k' ≠ running k → (length l1' < length l1)%nat).
Proof.
  intros Hi Hl Hs E. destruct (kstep_moves k k' Hi Hl Hs) as (ext & [[Hr Hrl]|[Hr Hrl]]).
  - right. exists l1, (l2 ++ ext). rewrite Hrl, E, <- app_assoc. done.
  - destruct (switch_position k k' l1 t l2 ext E Hr Hrl) as [?|(x & l1' & l2' & -> & E')]; [by left|].
    right. exists l1', l2'. simpl. split; [done|]. lia.
Qed.

(** C4: a ready thread gets to run.  Even if no thread ever gives up the
    processor, a thread with [n] others before it in the queue runs after at
    most [6 * (n + 1)] timer interrupts and context switches, each of which
    succeeds. *)
Theorem ready_thread_runs k l1 t l2 :
  inv k → lock_inv k → ready_list k = l1 ++ t :: l2 →
  ∃ m k', (m ≤ 6 * (length l1 + 1))%nat ∧ drive_n m k = Ok (tt, k') ∧ running k' = t.
Proof.
  intros Hi Hl E. apply (drive_runs _ k l1 t l2); [done..|].
  pose proof (patience_bounds k (length l1)). lia.
Qed.

(** [sema_up] wakes the thread that has waited longest.  It adds one to
    the value; if threads wait, the first of them, which is blocked, is taken
    from the wait queue and becomes the last ready thread, and nothing else
    changes. *)
Theorem sema_up_wakes_first k s sm :
  inv k → intr k = INTR_ON → semas k !! s = Some sm →
  match waiters sm with
  | [] => sema_up s k = Ok (tt, set_semas (<[s := mk_semaphore (u32 (value sm + 1)) []]> (semas k)) k)
  | t :: ts => ∃ th, threads k !! t = Some th ∧ status th = THREAD_BLOCKED
      ∧ sema_up s k
        = Ok (tt, set_semas (<[s := mk_semaphore (u32 (value sm + 1)) ts]> (semas k))
                    (set_threads (<[t := with_status THREAD_READY th]> (threads k))
                      (set_ready_list (ready_list k ++ [t]) k)))
  end.
Proof.
  intros Hi Hon Hs. pose proof (inv_core k Hi) as Hc.
  destruct (sema_up_run k s sm Hc Hon Hs) as (k' & -> & ->). unfold upped.
  destruct (waiters sm) as [|t ts] eqn:Ew; [done|].
  destruct (b_waiter _ (c_base _ Hc) _ _ t Hs) as (th & old & E & ? & _); [rewrite Ew; by left|].
  exists th. by rewrite E.
Qed.

(** C5: [thread_create] with a priority from [PRI_MIN] to [PRI_MAX].  It makes a
    ready thread on a fresh page, queued last, with the next thread
    identifier, the given name, priority and code, linked behind the children
    of the running thread and the threads of [all_list]; or it reports
    [TID_ERROR], and the threads, the queue and the pages in use are as before,
    except that an element of a freed page remains in [all_list] when it was
    the file descriptor table that could not be allocated.  It does not return
    only when the element that it has to link the new one behind has been
    freed: that of a child which has died and was not waited for, or one which
    such a failure has left in [all_list]. *)
Theorem thread_create_correct k nm prio code :
  inv k → PRI_MIN ≤ prio ≤ PRI_MAX →
  (thread_create nm prio code k = Err Fault ∧ dangling k)
  ∨ ∃ r k', thread_create nm prio code k = Ok (r, k')
    ∧ (r = TID_ERROR ∧ (∃ l, not_created k k' l ∧ (l = [] ∨ l = [NULL]))
       ∨ r = next_tid k ∧ ∃ t nt, created k k' t nt
           ∧ name nt = take 15 nm ∧ priority nt = prio ∧ ops nt = code ∧ child_list nt = []).
Proof. intros Hi Hp. apply create_spec; [by apply inv_core | done]. Qed.

End claims.

Lemma lock_mutual_exclusion_witness :
  holders (after 5 boot) !! 1 = Some main_thread
  ∧ ∀ t, inside (after 5 boot) 1 t → t = main_thread.
Proof.
  assert (holders (after 5 boot) !! 1 = Some main_thread) as Hh by (by vm_compute).
  split; [exact Hh|]. intros t Ht.
  apply (proj1 (lock_mutual_exclusion boot (after 5 boot) boot_inv boot_locks boot_locked) 1); [exact Ht|].
  left. split; [exact Hh | discriminate].
Defined.

Lemma scheduler_invariant_witness : NoDup (ready_list (after 5 boot)).
Proof. exact (proj1 (proj2 (scheduler_invariant boot (after 5 boot) boot_inv boot_locks boot_locked))). Defined.

(** The holder of the lock goes on, and the timer may interrupt it. *)
Lemma scheduler_never_panics_witness :
  (∃ k', intr_handler_timer (after 5 boot) = Ok (tt, k')) ∧ ∃ k', run_thread (after 5 boot) = Ok (tt, k').
Proof.
  destruct (scheduler_never_panics boot (after 5 boot) boot_inv boot_locks boot_locked) as (_ & Ht & th & Hth & Hr).
  split; [apply Ht; by vm_compute|]. destruct Hr as [Hr|(e & E & _)]; [by vm_compute | exact Hr|].
  exfalso. assert (match run_thread (after 5 boot) with Ok _ => True | Err _ => False end) as Hok by (vm_compute; exact I).
  by rewrite E in Hok.
Defined.

Lemma ready_list_fifo_witness :
  running (after 1 boot) = worker
  ∨ ∃ l1' l2', ready_list (after 1 boot) = l1' ++ worker :: l2' ∧ (length l1' ≤ 0)%nat
      ∧ (running (after 1 boot) ≠ running boot → (length l1' < 0)%nat).
Proof.
  apply (ready_list_fifo boot (after 1 boot) [] worker []);
    [apply boot_inv | apply boot_locks | by apply kstep_run; vm_compute | done].
Defined.

Lemma ready_thread_runs_witness :
  ∃ m k', (m ≤ 6)%nat ∧ drive_n m boot = Ok (tt, k') ∧ running k' = worker.
Proof. exact (ready_thread_runs boot [] worker [] boot_inv boot_locks eq_refl). Defined.

Lemma sema_up_wakes_first_witness :
  ∃ th, threads boot !! sleeper = Some th ∧ status th = THREAD_BLOCKED
    ∧ sema_up (Sem 7) boot
      = Ok (tt, set_semas (<[Sem 7 := mk_semaphore 1 []]> (semas boot))
                  (set_threads (<[sleeper := with_status THREAD_READY th]> (threads boot))
                    (set_ready_list [worker; sleeper] boot))).
Proof.
  exact (sema_up_wakes_first boot (Sem 7) (mk_semaphore 0 [sleeper]) boot_inv eq_refl eq_refl).
Defined.

Lemma thread_create_correct_witness :
  ∃ r k', thread_create [109] 31 critical boot = Ok (r, k') ∧ (r = -1 ∨ r = 5).
Proof.
  destruct (thread_create_correct boot [109] 31 critical boot_inv) as [[_ Hd]|(r & k' & E & Hr)].
  - unfold PRI_MIN, PRI_MAX. lia.
  - exfalso. destruct Hd as [Hd|(th & Hth & Hd)]; [discriminate|]. injection Hth as <-. discriminate.
  - exists r, k'. split; [exact E|]. destruct Hr as [[-> _]|[-> _]]; [by left | by right].
Defined.

End SchedulerProps.
