(* ===== verification/Memory.v ===== *)
(** * Byte memories

    The memory that the kernel sees at its virtual addresses, as a function
    from addresses to bytes, with the block operations of lib/string.c on
    blocks that do not overlap and 32-bit accesses, least byte first. *)
From stdpp Require Import base tactics numbers.
From Stdlib Require Import ZArith Lia.
From S2P Require Import Prelude.

Module Memory.

Definition fill (p v n : Z) (m : Z → Z) : Z → Z := λ a, if (p <=? a) && (a <? p + n) then v else m a.
Definition copy (dst src n : Z) (m : Z → Z) : Z → Z :=
  λ a, if (dst <=? a) && (a <? dst + n) then m (src + (a - dst)) else m a.
Definition load32 (m : Z → Z) (a : Z) : Z :=
  m a + 2^8 * m (a + 1) + 2^16 * m (a + 2) + 2^24 * m (a + 3).
Definition store8 (a v : Z) (m : Z → Z) : Z → Z := λ x, if x =? a then u8 v else m x.
Definition store32 (a v : Z) (m : Z → Z) : Z → Z :=
  λ x, if (a <=? x) && (x <? a + 4) then u8 (Z.shiftr v (8 * (x - a))) else m x.

(** Every cell holds a byte. *)
Definition is_bytes (m : Z → Z) : Prop := ∀ a, 0 ≤ m a < 2^8.

Lemma in_range_spec p a n : BoolSpec (p ≤ a < p + n) (¬ (p ≤ a < p + n)) ((p <=? a) && (a <? p + n)).
Proof. destruct (Z.leb_spec p a), (Z.ltb_spec a (p + n)); constructor; lia. Qed.

Lemma copy_in r p n m k : 0 ≤ k < n → copy r p n m (r + k) = m (p + k).
Proof. intros Hk. unfold copy. destruct (in_range_spec r (r + k) n); [f_equal|]; lia. Qed.
Lemma copy_out r p n m q : ¬ (r ≤ q < r + n) → copy r p n m q = m q.
Proof. intros Hq. unfold copy. by destruct (in_range_spec r q n). Qed.
Lemma fill_in p v n m k : 0 ≤ k < n → fill p v n m (p + k) = v.
Proof. intros Hk. unfold fill. destruct (in_range_spec p (p + k) n); [done | lia]. Qed.
Lemma fill_out p v n m q : ¬ (p ≤ q < p + n) → fill p v n m q = m q.
Proof. intros Hq. unfold fill. by destruct (in_range_spec p q n). Qed.
Lemma store32_out a v m q : ¬ (a ≤ q < a + 4) → store32 a v m q = m q.
Proof. intros Hq. unfold store32. by destruct (in_range_spec a q 4). Qed.

Lemma fill_bytes p v n m : 0 ≤ v < 2^8 → is_bytes m → is_bytes (fill p v n m).
Proof. intros Hv Hm a. unfold fill. by destruct (in_range_spec p a n). Qed.
Lemma copy_bytes r p n m : is_bytes m → is_bytes (copy r p n m).
Proof. intros Hm a. unfold copy. by destruct (in_range_spec r a n). Qed.
Lemma store8_bytes a v m : is_bytes m → is_bytes (store8 a v m).
Proof. intros Hm x. unfold store8. destruct (x =? a); [apply u8_range | done]. Qed.
Lemma store32_bytes a v m : is_bytes m → is_bytes (store32 a v m).
Proof. intros Hm x. unfold store32. destruct (in_range_spec a x 4); [apply u8_range | done]. Qed.

Lemma load32_range m a : is_bytes m → 0 ≤ load32 m a < 2^32.
Proof.
  intros Hm. pose proof (Hm a). pose proof (Hm (a + 1)). pose proof (Hm (a + 2)). pose proof (Hm (a + 3)).
  unfold load32. lia.
Qed.

Lemma load32_ext m m' a : (∀ k, 0 ≤ k < 4 → m' (a + k) = m (a + k)) → load32 m' a = load32 m a.
Proof.
  intros Hk. unfold load32. pose proof (Hk 0 ltac:(lia)) as H0. rewrite Z.add_0_r in H0.
  by rewrite H0, !Hk by lia.
Qed.

Lemma load32_store32 m a v : 0 ≤ v < 2^32 → load32 (store32 a v m) a = v.
Proof.
  intros Hv. unfold load32, store32.
  destruct (in_range_spec a a 4); [|lia]. destruct (in_range_spec a (a + 1) 4); [|lia].
  destruct (in_range_spec a (a + 2) 4); [|lia]. destruct (in_range_spec a (a + 3) 4); [|lia].
  replace (a - a) with 0 by lia. replace (a + 1 - a) with 1 by lia.
  replace (a + 2 - a) with 2 by lia. replace (a + 3 - a) with 3 by lia.
  rewrite !Z.shiftr_div_pow2 by lia. unfold u8. simpl (8 * _). div_lia.
Qed.
Lemma load32_store32_ne m a b v : b + 4 ≤ a ∨ a + 4 ≤ b → load32 (store32 a v m) b = load32 m b.
Proof. intros Hd. apply load32_ext. intros k Hk. apply store32_out. lia. Qed.
Lemma load32_zero m a n b : a ≤ b → b + 4 ≤ a + n → load32 (fill a 0 n m) b = 0.
Proof.
  intros H1 H2. unfold load32, fill. destruct (in_range_spec a b n); [|lia]. destruct (in_range_spec a (b + 1) n); [|lia].
  destruct (in_range_spec a (b + 2) n); [|lia]. destruct (in_range_spec a (b + 3) n); [|lia]. done.
Qed.
End Memory.
