(* ===== verification/Malloc.v ===== *)
(** * The kernel heap: threads/malloc.c

    Descriptors for blocks of a power of two bytes, arenas of one page that
    are cut into blocks, and big blocks of whole pages.  The header of an
    arena is a record; free lists are sequences (the file Dlist shows that
    lib/kernel/list.c implements them); the contents of memory are a function
    from addresses to bytes.  The page allocator is an interface. *)
From stdpp Require Import base gmap list list_numbers.
From Stdlib Require Import ZArith Lia.
From S2P Require Import Prelude Vaddr Memory.

(** ** The interface of the page allocator

    What malloc.c relies on: runs of pages that were not in use, or a null
    pointer, and the release of runs that are in use. *)
Class PageRuns (St : Type) := {
  pr_inv : St → Prop;
  pr_used : St → Z → Prop;
  pr_get : Z → M St Z;
  pr_free : Z → Z → M St unit;
  pr_used_page s p : pr_inv s → pr_used s p → 0 < p ∧ p mod 4096 = 0 ∧ p + 4096 ≤ 2^32;
  pr_get_ok s cnt :
    pr_inv s → 0 ≤ cnt →
    wp (pr_get cnt) (λ p s', pr_inv s'
      ∧ ((p = 0 ∧ ∀ q, pr_used s' q ↔ pr_used s q)
         ∨ (0 < cnt ∧ 0 < p ∧ (∀ i, 0 ≤ i < cnt → ¬ pr_used s (p + 4096 * i))
            ∧ ∀ q, pr_used s' q ↔ pr_used s q ∨ ∃ i, 0 ≤ i < cnt ∧ q = p + 4096 * i))) s;
  pr_free_ok s p cnt :
    pr_inv s → 0 < cnt → (∀ i, 0 ≤ i < cnt → pr_used s (p + 4096 * i)) →
    wp (pr_free p cnt) (λ _ s', pr_inv s'
      ∧ ∀ q, pr_used s' q ↔ pr_used s q ∧ ¬ ∃ i, 0 ≤ i < cnt ∧ q = p + 4096 * i) s
}.

Module Malloc.
Import Vaddr Memory.

(** ** Data *)

Definition NULL : Z := 0.
Definition ARENA_MAGIC : Z := 2589232877.
Definition ARENA_SIZE : Z := 12.

Record desc := mk_desc {
  block_size : Z;
  blocks_per_arena : Z;
  free_list : list Z;
  lock : option Z
}.

(** [a_desc] is the number of the owning descriptor, none for a big block. *)
Record arena := mk_arena {
  magic : Z;
  a_desc : option nat;
  free_cnt : Z
}.

Record heap (St : Type) := mk_heap {
  descs : list desc;
  arenas : gmap Z arena;
  pages : St;
  bytes : Z → Z
}.
Arguments mk_heap {St}. Arguments descs {St}. Arguments arenas {St}. Arguments pages {St}. Arguments bytes {St}.

Section malloc.
Context {St : Type} `{PageRuns St}.
(** The running thread. *)
Context (cur : Z).

Definition set_descs (x : list desc) (h : heap St) : heap St := mk_heap x (arenas h) (pages h) (bytes h).
Definition set_arenas (x : gmap Z arena) (h : heap St) : heap St := mk_heap (descs h) x (pages h) (bytes h).
Definition set_pages (x : St) (h : heap St) : heap St := mk_heap (descs h) (arenas h) x (bytes h).
Definition set_bytes (x : Z → Z) (h : heap St) : heap St := mk_heap (descs h) (arenas h) (pages h) x.

Definition set_free_list (l : list Z) (d : desc) : desc := mk_desc (block_size d) (blocks_per_arena d) l (lock d).
Definition set_lock (l : option Z) (d : desc) : desc := mk_desc (block_size d) (blocks_per_arena d) (free_list d) l.
Definition set_free_cnt (n : Z) (a : arena) : arena := mk_arena (magic a) (a_desc a) n.

Definition get_desc (i : nat) : M (heap St) desc := λ h,
  match descs h !! i with Some d => Ok (d, h) | None => Err Fault end.
Definition put_desc (i : nat) (d : desc) : M (heap St) unit := modify (λ h, set_descs (<[i := d]> (descs h)) h).
Definition get_arena (a : Z) : M (heap St) arena := λ h,
  match arenas h !! a with Some x => Ok (x, h) | None => Err Fault end.
Definition put_arena (a : Z) (x : arena) : M (heap St) unit := modify (λ h, set_arenas (<[a := x]> (arenas h)) h).

(** A page given back can no longer be read. *)
Definition drop_arena (a : Z) : M (heap St) unit := modify (λ h, set_arenas (delete a (arenas h)) h).

Definition lock_desc (i : nat) : M (heap St) unit :=
  d ← get_desc i;
  match lock d with
  | None => put_desc i (set_lock (Some cur) d)
  | Some t => if t =? cur then fail Panic else fail Sleep
  end.
Definition unlock_desc (i : nat) : M (heap St) unit :=
  d ← get_desc i;
  match lock d with
  | Some t => if t =? cur then put_desc i (set_lock None d) else fail Panic
  | None => fail Panic
  end.

Definition palloc_get (cnt : Z) : M (heap St) Z := zoom pages set_pages (pr_get cnt).
Definition palloc_free (p cnt : Z) : M (heap St) unit := zoom pages set_pages (pr_free p cnt).

(** ** Initialisation *)

Fixpoint init_descs (fuel : nat) (size : Z) : M (heap St) unit :=
  match fuel with
  | O => fail OutOfFuel
  | Datatypes.S fuel =>
      if size <? PGSIZE / 2 then
        modify (λ h, set_descs (descs h ++ [mk_desc size ((PGSIZE - ARENA_SIZE) / size) [] None]) h) ;;
        n ← gets (λ h, length (descs h));
        ASSERT (n <=? 10)%nat ;;
        init_descs fuel (u32 (size * 2))
      else mret tt
  end.
Definition malloc_init : M (heap St) unit := init_descs 11 16.

(** ** Blocks and arenas *)

Definition block_to_arena (b : Z) : M (heap St) Z :=
  let a := pg_round_down b in
  ASSERT (negb (a =? NULL)) ;;
  x ← get_arena a;
  ASSERT (magic x =? ARENA_MAGIC) ;;
  match a_desc x with
  | Some i => d ← get_desc i; ASSERT (u32 (pg_ofs b - ARENA_SIZE) mod block_size d =? 0)
  | None => ASSERT (pg_ofs b =? ARENA_SIZE)
  end ;;
  mret a.

Definition arena_to_block (a idx : Z) : M (heap St) Z :=
  ASSERT (negb (a =? NULL)) ;;
  x ← get_arena a;
  ASSERT (magic x =? ARENA_MAGIC) ;;
  match a_desc x with
  | Some i => d ← get_desc i; ASSERT (idx <? blocks_per_arena d) ;; mret (u32 (a + ARENA_SIZE + idx * block_size d))
  | None => fail Fault
  end.

(** ** Allocation *)

(** The first descriptor whose blocks are large enough. *)
Fixpoint find_desc (size : Z) (ds : list desc) (i : nat) : option nat :=
  match ds with
  | [] => None
  | d :: ds => if size <=? block_size d then Some i else find_desc size ds (Datatypes.S i)
  end.

(** A new arena for descriptor [i]; false if there is no page. *)
Definition new_arena (i : nat) : M (heap St) bool :=
  a ← palloc_get 1;
  if a =? NULL then mret false else
  d ← get_desc i;
  put_arena a (mk_arena ARENA_MAGIC (Some i) (blocks_per_arena d)) ;;
  for_loop (Z.to_nat (blocks_per_arena d)) 0 (λ k,
    b ← arena_to_block a k;
    d ← get_desc i;
    put_desc i (set_free_list (free_list d ++ [b]) d)) ;;
  mret true.

Definition malloc (size : Z) : M (heap St) Z :=
  if size =? 0 then mret NULL else
  ds ← gets descs;
  match find_desc size ds 0 with
  | None =>
      let page_cnt := u32 (u32 (size + ARENA_SIZE) + PGSIZE - 1) / PGSIZE in
      a ← palloc_get page_cnt;
      if a =? NULL then mret NULL else
      put_arena a (mk_arena ARENA_MAGIC None page_cnt) ;;
      mret (u32 (a + ARENA_SIZE))
  | Some i =>
      lock_desc i ;;
      d ← get_desc i;
      ok ← (if bool_decide (free_list d = []) then new_arena i else mret true);
      if negb ok then unlock_desc i ;; mret NULL else
      d ← get_desc i;
      match free_list d with
      | [] => fail Panic
      | b :: l =>
          put_desc i (set_free_list l d) ;;
          a ← block_to_arena b;
          x ← get_arena a;
          put_arena a (set_free_cnt (u32 (free_cnt x - 1)) x) ;;
          unlock_desc i ;;
          mret b
      end
  end.

Definition calloc (a b : Z) : M (heap St) Z :=
  let size := u32 (a * b) in
  if (size <? a) || (size <? b) then mret NULL else
  p ← malloc size;
  (if p =? NULL then mret tt else modify (λ h, set_bytes (fill p 0 size (bytes h)) h)) ;;
  mret p.

(** ** Release *)

Definition free (p : Z) : M (heap St) unit :=
  if p =? NULL then mret tt else
  a ← block_to_arena p;
  x ← get_arena a;
  match a_desc x with
  | Some i =>
      d ← get_desc i;
      modify (λ h, set_bytes (fill p 204 (block_size d) (bytes h)) h) ;;
      lock_desc i ;;
      d ← get_desc i;
      put_desc i (set_free_list (p :: free_list d) d) ;;
      put_arena a (set_free_cnt (u32 (free_cnt x + 1)) x) ;;
      (if blocks_per_arena d <=? u32 (free_cnt x + 1) then
         ASSERT (u32 (free_cnt x + 1) =? blocks_per_arena d) ;;
         for_loop (Z.to_nat (blocks_per_arena d)) 0 (λ k,
           b ← arena_to_block a k;
           d ← get_desc i;
           put_desc i (set_free_list (filter (λ e, e ≠ b) (free_list d)) d)) ;;
         palloc_free a 1 ;;
         drop_arena a
       else mret tt) ;;
      unlock_desc i
  | None =>
      palloc_free a (free_cnt x) ;;
      drop_arena a
  end.

(** [block_size] of a block. *)
Definition size_of_block (b : Z) : M (heap St) Z :=
  a ← block_to_arena b;
  x ← get_arena a;
  match a_desc x with
  | Some i => d ← get_desc i; mret (block_size d)
  | None => mret (u32 (PGSIZE * free_cnt x - pg_ofs b))
  end.

Definition realloc (old_block new_size : Z) : M (heap St) Z :=
  if new_size =? 0 then free old_block ;; mret NULL else
  new_block ← malloc new_size;
  (if negb (old_block =? NULL) && negb (new_block =? NULL) then
     old_size ← size_of_block old_block;
     let min_size := if new_size <? old_size then new_size else old_size in
     modify (λ h, set_bytes (copy new_block old_block min_size (bytes h)) h) ;;
     free old_block
   else mret tt) ;;
  mret new_block.
End malloc.

(** ** Blocks *)

Definition bs (i : nat) : Z := 2 ^ (Z.of_nat i + 4).
Definition bpa (i : nat) : Z := (4096 - 12) / bs i.

Lemma bs_facts i : (i < 7)%nat → 16 ≤ bs i ≤ 1024 ∧ 1 ≤ bpa i ≤ 255 ∧ 12 + bpa i * bs i ≤ 4096.
Proof. intros Hi. do 7 (destruct i as [|i]; [by vm_compute|]). lia. Qed.

(** The blocks of the arena at [a]. *)
Definition blk (a : Z) (i : nat) (k : Z) : Z := a + 12 + k * bs i.
Definition is_block (a : Z) (i : nat) (b : Z) : Prop := ∃ k, 0 ≤ k < bpa i ∧ b = blk a i k.
Definition blocks (a : Z) (i : nat) : list Z := blk a i <$> seqZ 0 (bpa i).
Definition page_of (b : Z) : Z := b - b mod 4096.
Definition is_page (a : Z) : Prop := 0 < a ∧ a mod 4096 = 0 ∧ a + 4096 ≤ 2^32.

Lemma block_range a i b :
  (i < 7)%nat → is_page a → is_block a i b → a + 12 ≤ b ∧ b + bs i ≤ a + 4096 ∧ page_of b = a ∧ 0 < b < 2^32.
Proof.
  intros Hi (Ha & Hm & Hend) (k & Hk & ->). destruct (bs_facts i Hi) as (Hb & Hn & Hle). unfold blk, page_of.
  assert (0 ≤ k * bs i) by (apply Z.mul_nonneg_nonneg; lia).
  assert (k * bs i + bs i ≤ bpa i * bs i).
  { replace (k * bs i + bs i) with ((k + 1) * bs i) by lia. apply Z.mul_le_mono_nonneg_r; lia. }
  split_and!; [lia | lia | div_lia | lia | lia].
Qed.

Lemma block_addr a i b :
  (i < 7)%nat → is_page a → is_block a i b →
  pg_round_down b = a ∧ u32 (pg_ofs b - ARENA_SIZE) mod bs i = 0.
Proof.
  intros Hi Ha Hb. destruct (block_range a i b Hi Ha Hb) as (H1 & H2 & H3 & H4). unfold page_of in H3.
  rewrite pg_round_down_eq, pg_ofs_eq, PGSIZE_eq by lia. split; [done|]. unfold ARENA_SIZE.
  destruct Hb as (k & Hk & ->). destruct (bs_facts i Hi) as (? & _ & _).
  replace (blk a i k mod 4096 - 12) with (k * bs i) by (unfold blk in *; lia).
  rewrite u32_small by (unfold blk in *; lia). apply Z_mod_mult.
Qed.

Lemma big_addr a : is_page a → pg_round_down (a + 12) = a ∧ pg_ofs (a + 12) = 12 ∧ u32 (a + ARENA_SIZE) = a + 12.
Proof.
  intros (Ha & Hm & Hend). unfold ARENA_SIZE. rewrite pg_round_down_eq, pg_ofs_eq, PGSIZE_eq by lia.
  rewrite u32_small by lia. split_and!; [div_lia | div_lia | done].
Qed.

Lemma blk_inj a a' i b :
  (i < 7)%nat → is_page a → is_page a' → is_block a i b → is_block a' i b → a = a'.
Proof.
  intros Hi Ha Ha' Hb Hb'. destruct (block_range _ _ _ Hi Ha Hb) as (_ & _ & <- & _).
  by destruct (block_range _ _ _ Hi Ha' Hb') as (_ & _ & <- & _).
Qed.

Lemma blocks_elem a i b : b ∈ blocks a i ↔ is_block a i b.
Proof.
  unfold blocks, is_block. rewrite list_elem_of_fmap. split.
  - intros (k & -> & Hk%elem_of_seqZ). exists k. split; [lia | done].
  - intros (k & Hk & ->). exists k. split; [done|]. apply elem_of_seqZ. lia.
Qed.
#[export] Instance is_block_dec a i b : Decision (is_block a i b).
Proof. refine (cast_if (decide (b ∈ blocks a i))); by rewrite <- blocks_elem. Defined.
Lemma blocks_NoDup a i : (i < 7)%nat → NoDup (blocks a i).
Proof.
  intros Hi. destruct (bs_facts i Hi) as (? & _ & _). unfold blocks.
  apply NoDup_fmap_2; [|apply NoDup_seqZ]. intros k k'. unfold blk. intros Heq. nia.
Qed.
Lemma blocks_length a i : length (blocks a i) = Z.to_nat (bpa i).
Proof. unfold blocks. by rewrite length_fmap, length_seqZ. Qed.

(** Two blocks of the same size do not overlap. *)
Lemma blocks_disjoint a i b b' :
  (i < 7)%nat → is_block a i b → is_block a i b' → b ≠ b' → b + bs i ≤ b' ∨ b' + bs i ≤ b.
Proof.
  intros Hi (k & Hk & ->) (k' & Hk' & ->) Hne. destruct (bs_facts i Hi) as (? & _ & _). unfold blk in *.
  destruct (decide (k < k')); [left | right].
  - assert ((k + 1) * bs i ≤ k' * bs i) by (apply Z.mul_le_mono_nonneg_r; lia). lia.
  - assert ((k' + 1) * bs i ≤ k * bs i); [|lia]. apply Z.mul_le_mono_nonneg_r; [lia|].
    destruct (decide (k = k')) as [->|]; [done | lia].
Qed.

(** ** The invariant *)

Section inv.
Context {St : Type} `{PageRuns St}.
Implicit Types h : heap St.

Definition npages (x : arena) : Z := match a_desc x with Some _ => 1 | None => free_cnt x end.

Definition in_arena (a : Z) (l : list Z) : list Z := filter (λ b, page_of b = a) l.

Definition arena_ok h (a : Z) (x : arena) : Prop :=
  magic x = ARENA_MAGIC ∧ 0 < npages x ∧ (∀ k, 0 ≤ k < npages x → pr_used (pages h) (a + 4096 * k))
  ∧ match a_desc x with
    | Some i => (i < 7)%nat ∧ ∃ d, descs h !! i = Some d ∧ free_cnt x = Z.of_nat (length (in_arena a (free_list d)))
    | None => True
    end.

Definition desc_ok h (i : nat) (d : desc) : Prop :=
  block_size d = bs i ∧ blocks_per_arena d = bpa i ∧ NoDup (free_list d)
  ∧ ∀ b, b ∈ free_list d → ∃ a x, arenas h !! a = Some x ∧ a_desc x = Some i ∧ is_block a i b.

(** [p] is a block of [sz] bytes of the arena [x] at [a]. *)
Definition within (a : Z) (x : arena) (p sz : Z) : Prop :=
  match a_desc x with
  | Some i => is_block a i p ∧ sz = bs i
  | None => p = a + 12 ∧ sz = 4096 * free_cnt x - 12
  end.
(** It is in the free list of the arena's descriptor. *)
Definition is_free (ds : list desc) (x : arena) (p : Z) : Prop :=
  ∃ i d, a_desc x = Some i ∧ ds !! i = Some d ∧ p ∈ free_list d.
Definition live h (p sz : Z) : Prop :=
  ∃ a x, arenas h !! a = Some x ∧ within a x p sz ∧ ¬ is_free (descs h) x p.

(** The heap with the blocks [A] in use; locks aside. *)
Definition heap_ok h (A : gmap Z Z) : Prop :=
  pr_inv (pages h) ∧ length (descs h) = 7%nat
  ∧ (∀ i d, descs h !! i = Some d → desc_ok h i d)
  ∧ (∀ a x, arenas h !! a = Some x → arena_ok h a x)
  ∧ (∀ a x a' x' k k', arenas h !! a = Some x → arenas h !! a' = Some x' → 0 ≤ k < npages x → 0 ≤ k' < npages x' →
       a + 4096 * k = a' + 4096 * k' → a = a')
  ∧ ∀ p sz, A !! p = Some sz ↔ live h p sz.

Definition unlocked h : Prop := ∀ i d, descs h !! i = Some d → lock d = None.

Lemma arena_page h A a x : heap_ok h A → arenas h !! a = Some x → is_page a.
Proof.
  intros (Hp & _ & _ & Ha & _) E. destruct (Ha _ _ E) as (_ & Hn & Hu & _).
  specialize (Hu 0 ltac:(lia)). rewrite Z.mul_0_r, Z.add_0_r in Hu. by apply (pr_used_page (pages h)).
Qed.

(** The bytes of a block are in the pages of its arena. *)
Lemma within_range h A a x p sz : heap_ok h A → arenas h !! a = Some x → within a x p sz →
  a + 12 ≤ p ∧ p + sz ≤ a + 4096 * npages x ∧ 0 < p < 2^32 ∧ 0 < sz.
Proof.
  intros Hh E Hl. pose proof Hh as (_ & _ & _ & Ha & _).
  pose proof (arena_page h A a x Hh E) as Hpg. destruct (Ha _ _ E) as (_ & Hn & _ & Hd).
  unfold npages, within in *. pose proof Hpg as (? & ? & ?). destruct (a_desc x) as [i|].
  - destruct Hd as [Hi _]. destruct Hl as (Hb & ->). destruct (block_range a i p Hi Hpg Hb) as (? & ? & _ & ?).
    destruct (bs_facts i Hi) as (? & _). lia.
  - destruct Hl as (-> & ->). lia.
Qed.

(** An address is in the pages of one arena only. *)
Lemma arena_of h A a x a' x' p :
  heap_ok h A → arenas h !! a = Some x → arenas h !! a' = Some x' →
  a ≤ p < a + 4096 * npages x → a' ≤ p < a' + 4096 * npages x' → a = a' ∧ x = x'.
Proof.
  intros Hh E E' Hp Hp'. pose proof Hh as (_ & _ & _ & _ & Hdis & _).
  destruct (arena_page h A a x Hh E) as (_ & Hm & _). destruct (arena_page h A a' x' Hh E') as (_ & Hm' & _).
  assert (a = a') as <-; [|split; congruence].
  apply (Hdis a x a' x' ((p - a) / 4096) ((p - a') / 4096)); try done; div_lia.
Qed.
Lemma within_unique h A a x a' x' p sz sz' :
  heap_ok h A → arenas h !! a = Some x → arenas h !! a' = Some x' →
  within a x p sz → within a' x' p sz' → a = a' ∧ x = x' ∧ sz = sz'.
Proof.
  intros Hh E E' Hl Hl'. destruct (within_range h A a x p sz Hh E Hl) as (? & ? & ? & ?).
  destruct (within_range h A a' x' p sz' Hh E' Hl') as (? & ? & ? & ?).
  destruct (arena_of h A a x a' x' p) as [<- <-]; try done; try lia. split_and!; try done.
  unfold within in *. destruct (a_desc x); [|lia]. destruct Hl as [_ ->]. by destruct Hl' as [_ ->].
Qed.

(** Blocks in use do not overlap. *)
Lemma live_disjoint h A p sz p' sz' :
  heap_ok h A → A !! p = Some sz → A !! p' = Some sz' → p ≠ p' → p + sz ≤ p' ∨ p' + sz' ≤ p.
Proof.
  intros Hh Hp Hp' Hne. pose proof Hh as (_ & _ & Hd & Ha & Hdis & HA).
  apply HA in Hp as (a & x & E & Hl & _). apply HA in Hp' as (a' & x' & E' & Hl' & _).
  destruct (decide (a = a')) as [<-|Hna].
  - rewrite E in E'. injection E' as <-. unfold within in *. destruct (a_desc x) as [i|] eqn:Hx.
    + destruct Hl as (Hb & ->). destruct Hl' as (Hb' & ->).
      destruct (Ha _ _ E) as (_ & _ & _ & Hi). rewrite Hx in Hi. destruct Hi as [Hi _]. by apply (blocks_disjoint a i).
    + destruct Hl as [-> _]. by destruct Hl' as [-> _].
  - destruct (within_range h A a x p sz Hh E Hl) as (? & ? & ? & ?).
    destruct (within_range h A a' x' p' sz' Hh E' Hl') as (? & ? & ? & ?).
    destruct (decide (p + sz ≤ p' ∨ p' + sz' ≤ p)) as [|Hno]; [done|]. exfalso. apply Hna.
    destruct (decide (p ≤ p')).
    + apply (arena_of h A a x a' x' p'); try done; lia.
    + apply (arena_of h A a x a' x' p); try done; lia.
Qed.

(** ** Changes that keep the lists *)

Definition lists (d : desc) : Z * Z * list Z := (block_size d, blocks_per_arena d, free_list d).
Definition same h h' : Prop :=
  pages h' = pages h ∧ arenas h' = arenas h ∧ ∀ i, lists <$> descs h' !! i = lists <$> descs h !! i.

Lemma same_desc h h' i d' : same h h' → descs h' !! i = Some d' → ∃ d, descs h !! i = Some d ∧ lists d' = lists d.
Proof.
  intros (_ & _ & Hd) E. specialize (Hd i). rewrite E in Hd. simpl in Hd.
  destruct (descs h !! i) as [d|]; [|done]. apply (inj Some) in Hd. eauto.
Qed.
Lemma same_sym h h' : same h h' → same h' h.
Proof. intros (Hp & Ha & Hd). split_and!; [done..|]. intros i. by rewrite Hd. Qed.
Lemma lists_eq d d' : lists d' = lists d →
  block_size d' = block_size d ∧ blocks_per_arena d' = blocks_per_arena d ∧ free_list d' = free_list d.
Proof. unfold lists. by intros [= -> -> ->]. Qed.

Lemma same_is_free h h' x p : same h h' → is_free (descs h) x p → is_free (descs h') x p.
Proof.
  intros Hs (i & d & Hx & E & Hp).
  destruct (same_desc _ _ _ _ (same_sym _ _ Hs) E) as (d' & E' & (_ & _ & Hl)%lists_eq).
  exists i, d'. by rewrite <- Hl.
Qed.

Lemma heap_ok_same h h' A : same h h' → heap_ok h A → heap_ok h' A.
Proof.
  intros Hs (Hp & Hlen & Hd & Ha & Hdis & HA). pose proof Hs as (Hpg & Har & Hl). split_and!.
  - by rewrite Hpg.
  - rewrite <- Hlen. apply Nat.le_antisymm; apply Nat.nlt_ge; intros Hlt.
    + destruct (lookup_lt_is_Some_2 _ _ Hlt) as [d Hd']. specialize (Hl (length (descs h))).
      rewrite Hd', lookup_ge_None_2 in Hl by done. done.
    + destruct (lookup_lt_is_Some_2 _ _ Hlt) as [d Hd']. specialize (Hl (length (descs h'))).
      rewrite Hd', lookup_ge_None_2 in Hl by done. done.
  - intros i d' E'. destruct (same_desc _ _ _ _ Hs E') as (d & E & (H1 & H2 & H3)%lists_eq).
    unfold desc_ok. rewrite Har, H1, H2, H3. by apply Hd.
  - intros a x. rewrite Har. intros E. destruct (Ha _ _ E) as (? & ? & ? & Hx).
    unfold arena_ok. rewrite Hpg. split_and!; [done..|]. destruct (a_desc x) as [i|]; [|done].
    destruct Hx as (? & d & Ed & ?).
    destruct (same_desc _ _ _ _ (same_sym _ _ Hs) Ed) as (d' & Ed' & (_ & _ & Hf)%lists_eq).
    split; [done|]. exists d'. by rewrite <- Hf.
  - rewrite Har. done.
  - intros p sz. rewrite HA. unfold live. rewrite Har.
    split; intros (a & x & E & Hb & Hf); exists a, x; (split_and!; [done..|]); contradict Hf.
    + by eapply same_is_free; [apply same_sym|].
    + by eapply same_is_free.
Qed.

Lemma same_put h i d d' : descs h !! i = Some d → lists d' = lists d → same h (set_descs (<[i := d']> (descs h)) h).
Proof.
  intros E Hl. split_and!; [done..|]. intros j. simpl. destruct (decide (j = i)) as [->|].
  - rewrite list_lookup_insert_eq by (by eapply lookup_lt_Some). rewrite E. simpl. by rewrite Hl.
  - by rewrite list_lookup_insert_ne.
Qed.

(** ** Taking a block from a free list *)

Lemma heap_desc h A i : heap_ok h A → (i < 7)%nat → ∃ d, descs h !! i = Some d ∧ desc_ok h i d.
Proof.
  intros (_ & Hl & Hd & _) Hi. destruct (lookup_lt_is_Some_2 (descs h) i) as [d E]; [lia|]. eauto.
Qed.

Lemma in_arena_cons a b l : in_arena a (b :: l) = if decide (page_of b = a) then b :: in_arena a l else in_arena a l.
Proof. unfold in_arena. by rewrite filter_cons. Qed.

(** The state after a block has moved into or out of a free list. *)
Definition moved h (i : nat) (d : desc) (l : list Z) (a : Z) (x : arena) (n : Z) : heap St :=
  set_arenas (<[a := set_free_cnt n x]> (arenas h)) (set_descs (<[i := set_free_list l d]> (descs h)) h).

Lemma is_free_at ds x i d p : a_desc x = Some i → ds !! i = Some d → is_free ds x p ↔ p ∈ free_list d.
Proof.
  intros Hx E. unfold is_free. split.
  - intros (j & d' & Hj & E' & Hp). rewrite Hx in Hj. injection Hj as <-. rewrite E in E'. by injection E' as <-.
  - eauto.
Qed.
Lemma is_free_put ds i d l x p :
  ds !! i = Some d → (a_desc x = Some i → p ∈ l ↔ p ∈ free_list d) →
  is_free (<[i := set_free_list l d]> ds) x p ↔ is_free ds x p.
Proof.
  intros E Hl. destruct (decide (a_desc x = Some i)) as [Hx|Hx].
  - rewrite (is_free_at _ x i (set_free_list l d)), (is_free_at ds x i d); try done; [by apply Hl|].
    by rewrite list_lookup_insert_eq by (by eapply lookup_lt_Some).
  - unfold is_free. split; intros (j & d' & Hj & E' & Hp); exists j, d'; (split_and!; [done| |done]);
      rewrite list_lookup_insert_ne in * by congruence; done.
Qed.

Lemma moved_desc h i d l a x n j d' :
  descs h !! i = Some d → descs (moved h i d l a x n) !! j = Some d' →
  (j = i ∧ d' = set_free_list l d) ∨ (j ≠ i ∧ descs h !! j = Some d').
Proof.
  intros E. simpl. rewrite list_lookup_insert_Some. intros [(<- & <- & _)|[? ?]]; [by left | right; done].
Qed.
Lemma moved_arena h i d l a x n a0 x0 :
  arenas (moved h i d l a x n) !! a0 = Some x0 →
  (a0 = a ∧ x0 = set_free_cnt n x) ∨ (a0 ≠ a ∧ arenas h !! a0 = Some x0).
Proof. simpl. rewrite lookup_insert_Some. intros [[<- <-]|[? ?]]; [by left | right; done]. Qed.

Lemma moved_fwd h i d l a x n a0 x0 :
  arenas h !! a = Some x → a_desc x = Some i → arenas h !! a0 = Some x0 →
  ∃ x1, arenas (moved h i d l a x n) !! a0 = Some x1
    ∧ a_desc x1 = a_desc x0 ∧ npages x1 = npages x0 ∧ (a_desc x0 = None → x1 = x0).
Proof.
  intros Ea Hx E0. destruct (decide (a0 = a)) as [->|Hne].
  - exists (set_free_cnt n x). simpl. rewrite lookup_insert_eq. rewrite Ea in E0. injection E0 as <-.
    unfold npages. simpl. rewrite Hx. done.
  - exists x0. simpl. by rewrite lookup_insert_ne.
Qed.
Lemma moved_bwd h i d l a x n a0 x1 :
  arenas h !! a = Some x → a_desc x = Some i → arenas (moved h i d l a x n) !! a0 = Some x1 →
  ∃ x0, arenas h !! a0 = Some x0
    ∧ a_desc x1 = a_desc x0 ∧ npages x1 = npages x0 ∧ (a_desc x0 = None → x1 = x0).
Proof.
  intros Ea Hx [[-> ->]|[Hne E0]]%moved_arena.
  - exists x. unfold npages. simpl. rewrite Hx. done.
  - exists x1. done.
Qed.

Lemma heap_ok_moved h A A' i d l a x n :
  heap_ok h A → descs h !! i = Some d → arenas h !! a = Some x → a_desc x = Some i → NoDup l →
  (∀ b, b ∈ l → ∃ a' x', arenas h !! a' = Some x' ∧ a_desc x' = Some i ∧ is_block a' i b) →
  (∀ a', a' ≠ a → length (in_arena a' l) = length (in_arena a' (free_list d))) →
  n = Z.of_nat (length (in_arena a l)) →
  (∀ p sz, A' !! p = Some sz ↔ ∃ a0 x0, arenas h !! a0 = Some x0 ∧ within a0 x0 p sz
     ∧ ¬ is_free (<[i := set_free_list l d]> (descs h)) x0 p) →
  heap_ok (moved h i d l a x n) A'.
Proof.
  intros (Hp & Hlen & Hd & Ha & Hdis & HA) E Ea Hx Hnd Hin Hcnt Hn HA'.
  pose proof (λ a0 x0, moved_fwd h i d l a x n a0 x0 Ea Hx) as Hfwd.
  pose proof (λ a0 x1, moved_bwd h i d l a x n a0 x1 Ea Hx) as Hbwd.
  split_and!; [done | by simpl; rewrite length_insert | | | |].
  - intros j d' [[-> ->]|[Hne Ej]]%(moved_desc h i d l a x n j d' E).
    + destruct (Hd _ _ E) as (H1 & H2 & _). split_and!; [done..|]. intros b (a' & x' & E' & Hx' & Hb)%Hin.
      destruct (Hfwd _ _ E') as (x1 & E1 & Hd1 & _). exists a', x1. rewrite Hd1. done.
    + destruct (Hd _ _ Ej) as (H1 & H2 & H3 & H4). split_and!; [done..|]. intros b (a' & x' & E' & Hx' & Hb)%H4.
      destruct (Hfwd _ _ E') as (x1 & E1 & Hd1 & _). exists a', x1. rewrite Hd1. done.
  - intros a0 x1 Hx1. pose proof Hx1 as Hcase. apply moved_arena in Hcase as [[-> ->]|[Hne E0]].
    + destruct (Ha _ _ Ea) as (Hm & Hnp & Hu & Hi). unfold arena_ok, npages in *. simpl in *. rewrite Hx in *.
      destruct Hi as [Hi _]. split_and!; [done..|]. exists (set_free_list l d).
      rewrite list_lookup_insert_eq by (by eapply lookup_lt_Some). done.
    + destruct (Ha _ _ E0) as (Hm & Hnp & Hu & Hi). split_and!; [done..|]. destruct (a_desc x1) as [j|]; [|done].
      destruct Hi as (Hj & d0 & Ed0 & Hc). split; [done|]. simpl. destruct (decide (j = i)) as [->|].
      * exists (set_free_list l d). rewrite list_lookup_insert_eq by (by eapply lookup_lt_Some). simpl.
        rewrite E in Ed0. injection Ed0 as <-. by rewrite Hcnt.
      * exists d0. by rewrite list_lookup_insert_ne.
  - intros a1 x1 a2 x2 k k' (y1 & E1 & _ & Hn1 & _)%Hbwd (y2 & E2 & _ & Hn2 & _)%Hbwd. rewrite Hn1, Hn2. by apply Hdis.
  - intros p sz. rewrite HA'. unfold live, within, is_free. split.
    + intros (a0 & x0 & E0 & Hb). destruct (Hfwd _ _ E0) as (x1 & E1 & Hd1 & _ & Hbig). exists a0, x1.
      rewrite Hd1. destruct (a_desc x0); [done|]. by rewrite (Hbig eq_refl) in *.
    + intros (a0 & x1 & E1 & Hb). destruct (Hbwd _ _ E1) as (x0 & E0 & Hd1 & _ & Hbig). exists a0, x0.
      rewrite Hd1 in Hb. destruct (a_desc x0); [done|]. by rewrite (Hbig eq_refl) in *.
Qed.

Lemma in_arena_elem a l b : b ∈ in_arena a l ↔ b ∈ l ∧ page_of b = a.
Proof. unfold in_arena. rewrite list_elem_of_filter. tauto. Qed.

(** The free blocks of an arena are some of its blocks. *)
Lemma free_blocks h A a x i d :
  heap_ok h A → arenas h !! a = Some x → a_desc x = Some i → descs h !! i = Some d →
  NoDup (in_arena a (free_list d)) ∧ in_arena a (free_list d) ⊆ blocks a i.
Proof.
  intros Hh E Hx Ed. pose proof Hh as (_ & _ & Hd & Ha & _). destruct (Hd _ _ Ed) as (_ & _ & Hnd & Hin).
  split; [by apply NoDup_filter|]. intros b [Hb Hpg]%in_arena_elem. apply blocks_elem.
  destruct (Hin _ Hb) as (a' & x' & E' & Hx' & Hblk). destruct (Ha _ _ E') as (_ & _ & _ & Hi). rewrite Hx' in Hi.
  destruct (block_range a' i b (proj1 Hi) (arena_page h A a' x' Hh E') Hblk) as (_ & _ & Heq & _). congruence.
Qed.

Lemma free_cnt_le h A a x i d :
  heap_ok h A → arenas h !! a = Some x → a_desc x = Some i → descs h !! i = Some d →
  0 ≤ free_cnt x ≤ bpa i ∧ (free_cnt x = bpa i → ∀ b, is_block a i b → b ∈ free_list d).
Proof.
  intros Hh E Hx Ed. destruct (free_blocks h A a x i d Hh E Hx Ed) as [Hnd Hsub]. pose proof Hh as (_ & _ & _ & Ha & _).
  destruct (Ha _ _ E) as (_ & _ & _ & Hi). rewrite Hx in Hi. destruct Hi as (Hi & d' & Ed' & Hc).
  rewrite Ed in Ed'. injection Ed' as <-. pose proof (NoDup_submseteq _ _ Hnd Hsub) as Hss.
  pose proof (submseteq_length _ _ Hss) as Hle. rewrite blocks_length in Hle. destruct (bs_facts i Hi) as (_ & ? & _).
  split; [lia|]. intros Hfull b Hb%blocks_elem.
  assert (in_arena a (free_list d) ≡ₚ blocks a i) as Hp.
  { apply submseteq_length_Permutation; [done|]. rewrite blocks_length. lia. }
  rewrite <- Hp in Hb. by apply in_arena_elem in Hb as [? _].
Qed.

(** ** A block leaves a free list, or comes back to it *)

Lemma heap_ok_pop h A i d b l :
  heap_ok h A → descs h !! i = Some d → free_list d = b :: l →
  ∃ a x, arenas h !! a = Some x ∧ a_desc x = Some i ∧ is_block a i b ∧ 0 < free_cnt x ≤ bpa i ∧ A !! b = None
    ∧ heap_ok (moved h i d l a x (free_cnt x - 1)) (<[b := bs i]> A).
Proof.
  intros Hh Ed Hfl. pose proof Hh as (_ & _ & Hd & Ha & _ & HA). destruct (Hd _ _ Ed) as (_ & _ & Hnd & Hin).
  destruct (Hin b) as (a & x & E & Hx & Hb); [rewrite Hfl; by left|]. exists a, x.
  destruct (Ha _ _ E) as (_ & _ & _ & Hi). rewrite Hx in Hi. destruct Hi as (Hi & d' & Ed' & Hc).
  rewrite Ed in Ed'. injection Ed' as <-. rewrite Hfl in Hnd. apply NoDup_cons in Hnd as [Hnb Hnd].
  destruct (block_range a i b Hi (arena_page h A a x Hh E) Hb) as (_ & _ & Hpg & _).
  rewrite Hfl, in_arena_cons, decide_True in Hc by done. simpl in Hc.
  assert (within a x b (bs i)) as Hw by (unfold within; by rewrite Hx).
  pose proof (free_cnt_le h A a x i d Hh E Hx Ed) as [Hle _]. split_and!; try done; try lia.
  - apply eq_None_not_Some. intros [sz (a' & x' & E' & Hl & Hf)%HA]. apply Hf.
    destruct (within_unique h A a x a' x' b (bs i) sz) as (<- & <- & _); try done.
    apply (is_free_at _ x i d); try done. rewrite Hfl. by left.
  - apply (heap_ok_moved h A); try done.
    + intros b' Hb'. apply Hin. rewrite Hfl. by right.
    + intros a' Hne. rewrite Hfl, in_arena_cons, decide_False by congruence. done.
    + lia.
    + intros p sz. destruct (decide (b = p)) as [<-|Hne].
      * rewrite lookup_insert_eq. split.
        { intros [= <-]. exists a, x. split_and!; try done. rewrite (is_free_at _ x i (set_free_list l d)); try done.
          by rewrite list_lookup_insert_eq by (by eapply lookup_lt_Some). }
        intros (a' & x' & E' & Hl & _). f_equal. by apply (within_unique h A a x a' x' b (bs i) sz).
      * rewrite lookup_insert_ne, HA by done. unfold live.
        split; intros (a' & x' & E' & Hl & Hf); exists a', x'; (split_and!; [done..|]); contradict Hf;
          (eapply is_free_put; [done | | exact Hf]); intros _; rewrite Hfl, elem_of_cons; naive_solver.
Qed.

Lemma heap_ok_push h A i d a x p :
  heap_ok h A → descs h !! i = Some d → arenas h !! a = Some x → a_desc x = Some i → is_block a i p →
  p ∉ free_list d →
  free_cnt x < bpa i ∧ heap_ok (moved h i d (p :: free_list d) a x (free_cnt x + 1)) (delete p A).
Proof.
  intros Hh Ed E Hx Hb Hni. pose proof Hh as (_ & _ & Hd & Ha & _ & HA). destruct (Hd _ _ Ed) as (_ & _ & Hnd & Hin).
  destruct (Ha _ _ E) as (_ & _ & _ & Hi). rewrite Hx in Hi. destruct Hi as (Hi & d' & Ed' & Hc).
  rewrite Ed in Ed'. injection Ed' as <-.
  destruct (block_range a i p Hi (arena_page h A a x Hh E) Hb) as (_ & _ & Hpg & _).
  pose proof (free_cnt_le h A a x i d Hh E Hx Ed) as [Hle Hfull].
  assert (within a x p (bs i)) as Hw by (unfold within; by rewrite Hx). split.
  { destruct (decide (free_cnt x = bpa i)) as [Heq|]; [|lia]. by destruct (Hni (Hfull Heq p Hb)). }
  apply (heap_ok_moved h A); try done.
  - by apply NoDup_cons.
  - intros b [->|Hb']%elem_of_cons; [by exists a, x | by apply Hin].
  - intros a' Hne. rewrite in_arena_cons, decide_False by congruence. done.
  - rewrite in_arena_cons, decide_True by done. simpl. lia.
  - intros q sz. destruct (decide (p = q)) as [<-|Hne].
    + rewrite lookup_delete_eq. split; [done|]. intros (a' & x' & E' & Hl & Hf). destruct Hf.
      destruct (within_unique h A a x a' x' p (bs i) sz) as (<- & <- & _); try done.
      apply (is_free_at _ x i (set_free_list (p :: free_list d) d)); [done| |by left].
      by rewrite list_lookup_insert_eq by (by eapply lookup_lt_Some).
    + rewrite lookup_delete_ne, HA by done. unfold live.
      split; intros (a' & x' & E' & Hl & Hf); exists a', x'; (split_and!; [done..|]); contradict Hf;
        (eapply is_free_put; [done | | exact Hf]); intros _; rewrite elem_of_cons; naive_solver.
Qed.

(** ** Arenas come and go *)

(** The lists of [ds'] are those of [ds], but for the blocks of [a]. *)
Definition lists_but (a : Z) (ds ds' : list desc) : Prop :=
  length ds' = length ds
  ∧ ∀ j d d', ds !! j = Some d → ds' !! j = Some d' →
      block_size d' = block_size d ∧ blocks_per_arena d' = blocks_per_arena d ∧ NoDup (free_list d')
      ∧ (∀ b, ¬ is_block a j b → b ∈ free_list d' ↔ b ∈ free_list d)
      ∧ ∀ a', a' ≠ a → length (in_arena a' (free_list d')) = length (in_arena a' (free_list d)).

Lemma lists_but_fwd a ds ds' j d : lists_but a ds ds' → ds !! j = Some d → ∃ d', ds' !! j = Some d'.
Proof. intros [Hlen _] E%lookup_lt_Some. apply lookup_lt_is_Some_2. lia. Qed.
Lemma lists_but_sym_ex a ds ds' j d' : lists_but a ds ds' → ds' !! j = Some d' → ∃ d, ds !! j = Some d.
Proof. intros [Hlen _] E%lookup_lt_Some. apply lookup_lt_is_Some_2. lia. Qed.

Lemma lists_but_is_free a ds ds' a' x p sz :
  lists_but a ds ds' → (∀ i, a_desc x = Some i → (i < 7)%nat) → is_page a → is_page a' → a' ≠ a → within a' x p sz →
  is_free ds' x p ↔ is_free ds x p.
Proof.
  intros Hl Hi Ha Ha' Hne Hw. unfold within in Hw. destruct (a_desc x) as [i|] eqn:Hx.
  2: { unfold is_free. rewrite Hx. split; intros (? & ? & ? & _); done. }
  destruct Hw as [Hb ->].
  assert (¬ is_block a i p) as Hnb by (intros Hb'; apply Hne; apply (blk_inj a' a i p); auto).
  split; intros (j & d & Hj & E & Hp); rewrite Hx in Hj; injection Hj as <-.
  - destruct (lists_but_sym_ex _ _ _ _ _ Hl E) as [d0 E0]. exists i, d0. split_and!; try done.
    by apply (proj2 Hl i d0 d E0 E).
  - destruct (lists_but_fwd _ _ _ _ _ Hl E) as [d' E']. exists i, d'. split_and!; try done.
    by apply (proj2 Hl i d d' E E').
Qed.

Lemma arena_used h A a x k : heap_ok h A → arenas h !! a = Some x → 0 ≤ k < npages x → pr_used (pages h) (a + 4096 * k).
Proof. intros (_ & _ & _ & Ha & _) E Hk. destruct (Ha _ _ E) as (_ & _ & Hu & _). by apply Hu. Qed.
Lemma arena_used_0 h A a x : heap_ok h A → arenas h !! a = Some x → pr_used (pages h) a.
Proof.
  intros Hh E. pose proof Hh as (_ & _ & _ & Ha & _). destruct (Ha _ _ E) as (_ & ? & _ & _).
  replace a with (a + 4096 * 0) by lia. apply (arena_used h A a x 0 Hh E). lia.
Qed.

Lemma arena_desc_lt h A a x i : heap_ok h A → arenas h !! a = Some x → a_desc x = Some i → (i < 7)%nat.
Proof.
  intros (_ & _ & _ & Ha & _) E Hx. destruct (Ha _ _ E) as (_ & _ & _ & Hi). rewrite Hx in Hi. by destruct Hi.
Qed.

(** No free block is in a page that is not in use. *)
Lemma fresh_no_block h A a j d b :
  heap_ok h A → is_page a → ¬ pr_used (pages h) a → descs h !! j = Some d → b ∈ free_list d → ¬ is_block a j b.
Proof.
  intros Hh Ha Hnu Ed Hb Hblk. pose proof Hh as (_ & _ & Hd & _). destruct (Hd _ _ Ed) as (_ & _ & _ & Hin).
  destruct (Hin _ Hb) as (a' & x' & E' & Hx' & Hblk'). apply Hnu.
  assert (a' = a) as <-; [|by apply (arena_used_0 h A a' x')].
  apply (blk_inj a' a j b); try done; [by apply (arena_desc_lt h A a' x') | by apply (arena_page h A a' x')].
Qed.

Definition run_of (a : Z) (x : arena) (q : Z) : Prop := ∃ k, 0 ≤ k < npages x ∧ q = a + 4096 * k.

Lemma arena_ok_but h A a s' ds' ars m a' x' :
  heap_ok h A → lists_but a (descs h) ds' → arenas h !! a' = Some x' → a' ≠ a →
  (∀ k, 0 ≤ k < npages x' → pr_used s' (a' + 4096 * k)) → arena_ok (mk_heap ds' ars s' m) a' x'.
Proof.
  intros (_ & _ & _ & Ha & _) Hl E' Hne Hu. destruct (Ha _ _ E') as (Hm & Hn & _ & Hi).
  split_and!; try done. simpl. destruct (a_desc x') as [i|]; [|done]. destruct Hi as (Hi & d & Ed & Hc).
  split; [done|]. destruct (lists_but_fwd _ _ _ _ _ Hl Ed) as [d' Ed']. exists d'. split; [done|].
  destruct (proj2 Hl i d d' Ed Ed') as (_ & _ & _ & _ & Hlen). by rewrite Hlen.
Qed.

Lemma desc_ok_but h A a s' ds' ars m j d' :
  heap_ok h A → lists_but a (descs h) ds' → ds' !! j = Some d' →
  (∀ b, b ∈ free_list d' → is_block a j b → ∃ x, ars !! a = Some x ∧ a_desc x = Some j) →
  (∀ a' x', a' ≠ a → arenas h !! a' = Some x' → ars !! a' = Some x') →
  desc_ok (mk_heap ds' ars s' m) j d'.
Proof.
  intros Hh Hl Ed' Hnew Hold. pose proof Hh as (_ & _ & Hd & _). destruct (lists_but_sym_ex _ _ _ _ _ Hl Ed') as [d Ed].
  destruct (Hd _ _ Ed) as (H1 & H2 & H3 & H4). destruct (proj2 Hl j d d' Ed Ed') as (Hb1 & Hb2 & Hnd & Hin & _).
  split_and!; [congruence | congruence | done |]. simpl. intros b Hb.
  destruct (decide (is_block a j b)) as [Hblk|Hblk].
  - destruct (Hnew b Hb Hblk) as (x & E & Hx). by exists a, x.
  - destruct (H4 b) as (a' & x' & E' & Hx' & Hblk'); [by apply Hin|]. exists a', x'. split; [|done].
    apply Hold; [by intros -> | done].
Qed.

Lemma is_free_but h A a ds' a' x p sz :
  heap_ok h A → lists_but a (descs h) ds' → is_page a → arenas h !! a' = Some x → a' ≠ a → within a' x p sz →
  is_free ds' x p ↔ is_free (descs h) x p.
Proof.
  intros Hh Hl Ha E Hne Hw. apply (lists_but_is_free a _ _ a' x p sz); try done.
  - intros i Hx. by apply (arena_desc_lt h A a' x).
  - by apply (arena_page h A a' x).
Qed.

Lemma live_add h A a x s' ds' m p sz :
  heap_ok h A → lists_but a (descs h) ds' → is_page a → (∀ a' x', arenas h !! a' = Some x' → a' ≠ a) →
  live (mk_heap ds' (<[a := x]> (arenas h)) s' m) p sz ↔ live h p sz ∨ within a x p sz ∧ ¬ is_free ds' x p.
Proof.
  intros Hh Hl Hpage Hne. unfold live. simpl. split.
  - intros (a' & x' & [[<- <-]|[Hna E']]%lookup_insert_Some & Hw & Hf); [by right|]. left. exists a', x'.
    by rewrite (is_free_but h A a ds' a' x' p sz Hh Hl Hpage E' (Hne _ _ E') Hw) in Hf.
  - intros [(a' & x' & E' & Hw & Hf)|[Hw Hf]].
    + exists a', x'. rewrite lookup_insert_ne by (intros ->; by eapply Hne). split_and!; try done.
      by rewrite (is_free_but h A a ds' a' x' p sz Hh Hl Hpage E' (Hne _ _ E') Hw).
    + exists a, x. by rewrite lookup_insert_eq.
Qed.

Lemma heap_ok_add h A A' a x s' ds' m :
  heap_ok h A → pr_inv s' → lists_but a (descs h) ds' → magic x = ARENA_MAGIC → 0 < npages x →
  (∀ q, run_of a x q → ¬ pr_used (pages h) q) → (∀ q, pr_used s' q ↔ pr_used (pages h) q ∨ run_of a x q) →
  (∀ j d' b, ds' !! j = Some d' → b ∈ free_list d' → is_block a j b → a_desc x = Some j) →
  match a_desc x with
  | Some i => (i < 7)%nat ∧ A' = A ∧ ∃ d', ds' !! i = Some d' ∧ (∀ b, is_block a i b → b ∈ free_list d')
                ∧ free_cnt x = Z.of_nat (length (in_arena a (free_list d')))
  | None => A' = <[a + 12 := 4096 * free_cnt x - 12]> A
  end → heap_ok (mk_heap ds' (<[a := x]> (arenas h)) s' m) A'.
Proof.
  intros Hh Hs' Hl Hmag Hn Hfresh Hused Hnew Hx. pose proof Hh as (Hp & Hlen & Hd & Ha & Hdis & HA).
  assert (∀ a' x', arenas h !! a' = Some x' → a' ≠ a) as Hne.
  { intros a' x' E' ->. apply (Hfresh a); [exists 0; lia | by apply (arena_used_0 h A a x')]. }
  assert (is_page a) as Hpage by (apply (pr_used_page s'); [done|]; apply Hused; right; exists 0; lia).
  assert (∀ a' x' k, arenas h !! a' = Some x' → 0 ≤ k < npages x' → ¬ run_of a x (a' + 4096 * k)) as Hrun.
  { intros a' x' k E' Hk Hr. apply (Hfresh _ Hr). by apply (arena_used h A a' x'). }
  split_and!; simpl.
  - done.
  - destruct Hl as [-> _]. done.
  - intros j d' Ed'. apply (desc_ok_but h A a); try done.
    + intros b Hb Hblk. exists x. rewrite lookup_insert_eq. eauto.
    + intros a' x' Hna. by rewrite lookup_insert_ne.
  - intros a' x' [[<- <-]|[Hna E']]%lookup_insert_Some.
    + split_and!; try done.
      * intros k Hk. apply Hused. right. by exists k.
      * simpl. destruct (a_desc x) as [i|]; [|done]. destruct Hx as (Hi & _ & d' & Ed' & _ & Hc). eauto.
    + apply (arena_ok_but h A a); try done. intros k Hk. apply Hused. left. by apply (arena_used h A a' x').
  - intros a1 x1 a2 x2 k k' [[<- <-]|[Hn1 E1]]%lookup_insert_Some [[<- <-]|[Hn2 E2]]%lookup_insert_Some Hk Hk' Heq.
    + done.
    + destruct (Hrun a2 x2 k' E2 Hk'). exists k. done.
    + destruct (Hrun a1 x1 k E1 Hk). exists k'. done.
    + by apply (Hdis a1 x1 a2 x2 k k').
  - intros p sz. transitivity (live h p sz ∨ within a x p sz ∧ ¬ is_free ds' x p).
    + destruct (a_desc x) as [i|] eqn:Ex.
      * destruct Hx as (_ & -> & d' & Ed' & Hall & _). rewrite HA. split; [by left|].
        intros [?|[Hw Hf]]; [done|]. destruct Hf. apply (is_free_at ds' x i d'); try done. apply Hall.
        unfold within in Hw. rewrite Ex in Hw. apply Hw.
      * subst A'. unfold within, is_free. rewrite Ex, lookup_insert_Some, HA. split.
        { intros [[<- <-]|[? ?]]; [right | by left]. split; [done|]. by intros (? & ? & ? & _). }
        intros [Hlv|[[-> ->] _]]; [|by left]. right. split; [|done]. intros <-.
        destruct Hlv as (a' & x' & E' & Hw & _). destruct (within_range h A a' x' _ _ Hh E' Hw) as (? & ? & _ & ?).
        destruct (arena_page h A a' x' Hh E') as (_ & ? & _). destruct Hpage as (_ & ? & _).
        apply (Hrun a' x' ((a - a') / 4096) E'); [div_lia|]. exists 0. div_lia.
    + symmetry. by apply (live_add h A).
Qed.

Lemma live_remove h A a x s' ds' m p sz :
  heap_ok h A → arenas h !! a = Some x → lists_but a (descs h) ds' →
  live (mk_heap ds' (delete a (arenas h)) s' m) p sz ↔ live h p sz ∧ ¬ within a x p sz.
Proof.
  intros Hh E Hl. pose proof (arena_page h A a x Hh E) as Hpage. unfold live. simpl. split.
  - intros (a' & x' & [Hne E']%lookup_delete_Some & Hw & Hf). split.
    + exists a', x'. split_and!; try done.
      by rewrite (is_free_but h A a ds' a' x' p sz Hh Hl Hpage E' (not_eq_sym Hne) Hw) in Hf.
    + intros Hw'. apply Hne. by destruct (within_unique h A a' x' a x p sz sz Hh E' E Hw Hw') as (-> & _).
  - intros [(a' & x' & E' & Hw & Hf) Hno]. exists a', x'.
    assert (a' ≠ a) as Hne by (intros ->; congruence). rewrite lookup_delete_ne by done. split_and!; try done.
    by rewrite (is_free_but h A a ds' a' x' p sz Hh Hl Hpage E' Hne Hw).
Qed.

Lemma heap_ok_remove h A A' a x s' ds' m :
  heap_ok h A → arenas h !! a = Some x → pr_inv s' → lists_but a (descs h) ds' →
  (∀ q, pr_used s' q ↔ pr_used (pages h) q ∧ ¬ run_of a x q) →
  (∀ j d' b, ds' !! j = Some d' → b ∈ free_list d' → ¬ is_block a j b) →
  match a_desc x with
  | Some i => A' = A ∧ free_cnt x = bpa i
  | None => A' = delete (a + 12) A
  end → heap_ok (mk_heap ds' (delete a (arenas h)) s' m) A'.
Proof.
  intros Hh E Hs' Hl Hused Hgone Hx. pose proof Hh as (Hp & Hlen & Hd & Ha & Hdis & HA).
  pose proof (arena_page h A a x Hh E) as Hpage. split_and!; simpl.
  - done.
  - destruct Hl as [-> _]. done.
  - intros j d' Ed'. apply (desc_ok_but h A a); try done.
    + intros b Hb Hblk. by destruct (Hgone j d' b Ed' Hb).
    + intros a' x' Hna. by rewrite lookup_delete_ne.
  - intros a' x' [Hna E']%lookup_delete_Some. apply (arena_ok_but h A a); try done. intros k Hk. apply Hused.
    split; [by apply (arena_used h A a' x')|]. intros (k' & Hk' & Heq). apply Hna. symmetry.
    by apply (Hdis a' x' a x k k').
  - intros a1 x1 a2 x2 k k' [_ E1]%lookup_delete_Some [_ E2]%lookup_delete_Some. by apply Hdis.
  - intros p sz. transitivity (live h p sz ∧ ¬ within a x p sz).
    + destruct (a_desc x) as [i|] eqn:Ex.
      { destruct Hx as [-> Hfull]. rewrite HA. split; [|by intros [? _]]. intros Hlv. split; [done|]. intros Hw.
        destruct Hlv as (a' & x' & E' & Hw' & Hf). apply Hf.
        destruct (within_unique h A a' x' a x p sz sz) as (-> & -> & _); try done.
        unfold within in Hw. rewrite Ex in Hw. destruct (Ha _ _ E) as (_ & _ & _ & Hi). rewrite Ex in Hi.
        destruct Hi as (Hi & d & Ed & _). apply (is_free_at _ x i d); try done.
        apply (proj2 (free_cnt_le h A a x i d Hh E Ex Ed) Hfull). apply Hw. }
      subst A'. unfold within at 1. rewrite Ex, lookup_delete_Some, HA. split.
      { intros [Hne Hlv]. split; [done|]. by intros [-> _]. }
      intros [Hlv Hno]. split; [|done]. intros <-. apply Hno. split; [done|].
      assert (within a x (a + 12) (4096 * free_cnt x - 12)) as Hw by (unfold within; by rewrite Ex).
      destruct Hlv as (a' & x' & E' & Hw' & _). by apply (within_unique h A a' x' a x (a + 12)).
    + symmetry. by apply (live_remove h A).
Qed.
End inv.
End Malloc.
