(* ===== verification/MallocOps.v ===== *)
(** * The operations of the kernel heap

    Every operation of threads/malloc.c keeps the invariant of the file
    Malloc and does what it says. *)
From stdpp Require Import base gmap list list_numbers.
From Stdlib Require Import ZArith Lia.
From S2P Require Import Prelude Vaddr Memory Malloc.

Module MallocOps.
Import Vaddr Memory Malloc.

Section ops.
Context {St : Type} `{PageRuns St} (cur : Z).
Implicit Types h : heap St.

(** ** Steps *)

Lemma wp_get_desc i d (Q : desc → heap St → Prop) h : descs h !! i = Some d → Q d h → wp (get_desc i) Q h.
Proof. intros E. unfold wp, get_desc. by rewrite E. Qed.
Lemma wp_get_arena a x (Q : arena → heap St → Prop) h : arenas h !! a = Some x → Q x h → wp (get_arena a) Q h.
Proof. intros E. unfold wp, get_arena. by rewrite E. Qed.
Lemma wp_lock_desc i d (Q : unit → heap St → Prop) h :
  descs h !! i = Some d → lock d = None → Q tt (set_descs (<[i := set_lock (Some cur) d]> (descs h)) h) →
  wp (lock_desc cur i) Q h.
Proof. intros E Hl HQ. unfold lock_desc. apply wp_bind, (wp_get_desc i d); [done|]. by rewrite Hl. Qed.
Lemma wp_unlock_desc i d (Q : unit → heap St → Prop) h :
  descs h !! i = Some d → lock d = Some cur → Q tt (set_descs (<[i := set_lock None d]> (descs h)) h) →
  wp (unlock_desc cur i) Q h.
Proof.
  intros E Hl HQ. unfold unlock_desc. apply wp_bind, (wp_get_desc i d); [done|]. rewrite Hl, Z.eqb_refl. done.
Qed.

(** Descriptor [i] has the lock [v], the others are free. *)
Definition locks h (i : nat) (v : option Z) : Prop :=
  ∀ j d, descs h !! j = Some d → lock d = if decide (j = i) then v else None.

Lemma locks_unlocked h i : locks h i None ↔ unlocked h.
Proof.
  unfold locks, unlocked. split; intros Hl j d E; specialize (Hl j d E); [by case_decide|]. by case_decide.
Qed.
Lemma locks_put h i v w d' ars s m :
  locks h i v → lock d' = w → locks (mk_heap (<[i := d']> (descs h)) ars s m) i w.
Proof.
  intros Hl Hd j d. simpl. rewrite list_lookup_insert_Some. intros [(<- & <- & _)|[Hne E]].
  - by rewrite decide_True.
  - rewrite (Hl j d E), !decide_False by done. done.
Qed.

Lemma list_put_twice (l : list desc) i d d' : <[i := d']> (<[i := d]> l) = <[i := d']> l.
Proof. apply list_insert_insert_eq. Qed.

(** ** New arenas *)

Lemma arena_to_block_ok h a x i d k (Q : Z → heap St → Prop) :
  arenas h !! a = Some x → magic x = ARENA_MAGIC → a_desc x = Some i → descs h !! i = Some d →
  block_size d = bs i → blocks_per_arena d = bpa i → (i < 7)%nat → is_page a → 0 ≤ k < bpa i →
  Q (blk a i k) h → wp (arena_to_block a k) Q h.
Proof.
  intros E Hm Hx Ed Hbs Hbpa Hi Ha Hk HQ. unfold arena_to_block.
  apply wp_bind, wp_ASSERT; [apply negb_true_iff, Z.eqb_neq; destruct Ha; unfold NULL; lia|].
  apply wp_bind, (wp_get_arena a x); [done|]. apply wp_bind, wp_ASSERT; [by apply Z.eqb_eq|]. rewrite Hx.
  apply wp_bind, (wp_get_desc i d); [done|]. apply wp_bind, wp_ASSERT; [apply Z.ltb_lt; lia|]. apply wp_ret.
  rewrite Hbs, u32_small; [done|].
  destruct (block_range a i (blk a i k) Hi Ha) as (? & ? & _ & ?); [by exists k|]. unfold blk, ARENA_SIZE in *. lia.
Qed.

Definition first_blocks (a : Z) (i : nat) (k : Z) : list Z := blk a i <$> seqZ 0 k.
Lemma first_blocks_S a i k : 0 ≤ k → first_blocks a i (k + 1) = first_blocks a i k ++ [blk a i k].
Proof. intros Hk. unfold first_blocks. rewrite seqZ_app, fmap_app by lia. done. Qed.

Lemma put_lists_but h A i d l a :
  heap_ok h A → descs h !! i = Some d → NoDup l → (∀ b, ¬ is_block a i b → b ∈ l ↔ b ∈ free_list d) →
  (∀ a', a' ≠ a → length (in_arena a' l) = length (in_arena a' (free_list d))) →
  lists_but a (descs h) (<[i := set_free_list l d]> (descs h)).
Proof.
  intros (_ & _ & Hd & _) E Hnd Hin Hlen. split; [by rewrite length_insert|]. intros j d0 d' E0.
  rewrite list_lookup_insert_Some. intros [(<- & <- & _)|[Hne E']].
  - rewrite E in E0. by injection E0 as <-.
  - rewrite E0 in E'. injection E' as <-. destruct (Hd _ _ E0) as (_ & _ & ? & _). done.
Qed.

Lemma in_arena_blocks a i a' : (i < 7)%nat → is_page a → in_arena a' (blocks a i) = if decide (a' = a) then blocks a i else [].
Proof.
  intros Hi Ha. assert (∀ b, b ∈ blocks a i → page_of b = a) as Hpg.
  { intros b Hb%blocks_elem. by destruct (block_range a i b Hi Ha Hb) as (_ & _ & ? & _). }
  unfold in_arena. revert Hpg. generalize (blocks a i). intros l. induction l as [|b l IH]; intros Hpg; [by case_decide|].
  rewrite filter_cons, IH by (intros; apply Hpg; by right). rewrite Hpg by (by left).
  case_decide as E1; [subst; by rewrite !decide_True | by rewrite !decide_False by congruence].
Qed.

Definition refused h : Prop := ∃ cnt s, pr_get cnt (pages h) = Ok (0, s).

Lemma palloc_get_ok h cnt (Q : Z → heap St → Prop) :
  pr_inv (pages h) → 0 ≤ cnt →
  (∀ s, refused h → pr_inv s → (∀ q, pr_used s q ↔ pr_used (pages h) q) → Q 0 (set_pages s h)) →
  (∀ p s, 0 < cnt → 0 < p → pr_inv s → (∀ i, 0 ≤ i < cnt → ¬ pr_used (pages h) (p + 4096 * i)) →
     (∀ q, pr_used s q ↔ pr_used (pages h) q ∨ ∃ i, 0 ≤ i < cnt ∧ q = p + 4096 * i) → Q p (set_pages s h)) →
  wp (palloc_get cnt) Q h.
Proof.
  intros Hp Hc HQ0 HQ. apply wp_zoom. pose proof (pr_get_ok (pages h) cnt Hp Hc) as Hw.
  apply wp_Ok in Hw as (p & s & E & Hs & Hcase). apply (wp_eq _ _ _ p s E).
  destruct Hcase as [[-> Hu]|(? & ? & ? & ?)]; [apply HQ0; try done; by exists cnt, s | by apply HQ].
Qed.

Lemma heap_ok_pages h A s :
  heap_ok h A → pr_inv s → (∀ q, pr_used s q ↔ pr_used (pages h) q) → heap_ok (set_pages s h) A.
Proof.
  intros (Hp & Hlen & Hd & Ha & Hdis & HA) Hs Hu. split_and!; try done. intros a x E.
  destruct (Ha _ _ E) as (? & ? & Hk & ?). split_and!; try done. intros k Hk'. apply Hu. by apply Hk.
Qed.

Lemma set_free_list_id d l : free_list d = l → set_free_list l d = d.
Proof. intros <-. by destruct d. Qed.

(** The loop that puts the blocks of a new arena in the free list. *)
Lemma cut_arena_ok h a x i d s m (Q : unit → heap St → Prop) :
  is_page a → magic x = ARENA_MAGIC → a_desc x = Some i → descs h !! i = Some d → free_list d = [] →
  block_size d = bs i → blocks_per_arena d = bpa i → (i < 7)%nat →
  Q tt (mk_heap (<[i := set_free_list (blocks a i) d]> (descs h)) (<[a := x]> (arenas h)) s m) →
  wp (for_loop (Z.to_nat (bpa i)) 0 (λ k,
    b ← arena_to_block a k;
    d ← get_desc i;
    put_desc i (set_free_list (free_list d ++ [b]) d))) Q (mk_heap (descs h) (<[a := x]> (arenas h)) s m).
Proof.
  intros Ha Hm Hx Ed Hfl Hbs Hbpa Hi HQ. destruct (bs_facts i Hi) as (_ & Hn & _).
  pose proof (lookup_lt_Some _ _ _ Ed) as Hlt.
  apply (wp_for_loop (λ k h', h' = mk_heap (<[i := set_free_list (first_blocks a i k) d]> (descs h)) (<[a := x]> (arenas h)) s m)).
  - unfold first_blocks. change (seqZ 0 0) with (@nil Z). cbn [fmap list_fmap].
    rewrite set_free_list_id, list_insert_id by done. done.
  - intros k h' Hk ->. apply wp_bind.
    apply (arena_to_block_ok _ a x i (set_free_list (first_blocks a i k) d)); try done; try lia; simpl.
    + by rewrite lookup_insert_eq.
    + by rewrite list_lookup_insert_eq.
    + apply wp_bind, (wp_get_desc i (set_free_list (first_blocks a i k) d)); simpl; [by rewrite list_lookup_insert_eq|].
      unfold put_desc. apply wp_modify. unfold set_descs. simpl. rewrite list_put_twice, first_blocks_S by lia. done.
  - intros h'. rewrite Z2Nat.id by lia. intros ->. exact HQ.
Qed.

Lemma new_arena_ok h A i d :
  heap_ok h A → descs h !! i = Some d → free_list d = [] → (i < 7)%nat → locks h i (Some cur) →
  wp (new_arena i) (λ ok h', bytes h' = bytes h ∧ heap_ok h' A ∧ locks h' i (Some cur)
    ∧ if ok then ∃ d', descs h' !! i = Some d' ∧ free_list d' ≠ [] else refused h) h.
Proof.
  intros Hh Ed Hfl Hi Hlk. pose proof Hh as (Hp & Hlen & Hd & _). destruct (Hd _ _ Ed) as (Hbs & Hbpa & _).
  destruct (bs_facts i Hi) as (_ & Hn & _). pose proof (lookup_lt_Some _ _ _ Ed) as Hlt.
  unfold new_arena. apply wp_bind, palloc_get_ok; [done | lia | |].
  { intros s Href Hs Hu. apply wp_ret. split_and!; try done. by apply heap_ok_pages. }
  intros a s _ Ha0 Hs Hfresh Hu. rewrite (proj2 (Z.eqb_neq a NULL)) by (unfold NULL; lia).
  assert (is_page a) as Ha by (apply (pr_used_page s); [done|]; apply Hu; right; exists 0; lia).
  apply wp_bind, (wp_get_desc i d); [done|]. rewrite Hbpa. apply wp_bind, wp_modify, wp_bind.
  set (x := mk_arena ARENA_MAGIC (Some i) (bpa i)).
  apply (cut_arena_ok h a x i d); try done. apply wp_ret. split_and!; simpl.
  - done.
  - apply (heap_ok_add h A); try done.
    + apply (put_lists_but h A); [done|done|by apply blocks_NoDup| |].
      * intros b Hb. rewrite blocks_elem, Hfl. split; [done | by intros ?%not_elem_of_nil].
      * intros a' Hne. rewrite in_arena_blocks, decide_False, Hfl by done. done.
    + intros q (k & Hk & ->). by apply Hfresh.
    + intros j d' b. rewrite list_lookup_insert_Some. intros [(<- & <- & _)|[Hne E']] Hb Hblk; [done|].
      exfalso. apply (fresh_no_block h A a j d' b); try done. replace a with (a + 4096 * 0) by lia. apply Hfresh. lia.
    + simpl. split_and!; try done. exists (set_free_list (blocks a i) d). rewrite list_lookup_insert_eq by done.
      split_and!; [done | intros b; apply blocks_elem|]. simpl. rewrite in_arena_blocks, decide_True, blocks_length by done. lia.
  - by apply (locks_put h i (Some cur)); [|apply (Hlk i d) in Ed; rewrite decide_True in Ed].
  - exists (set_free_list (blocks a i) d). rewrite list_lookup_insert_eq by done. split; [done|]. simpl.
    intros Hnil. apply (f_equal length) in Hnil. rewrite blocks_length in Hnil. simpl in Hnil. lia.
Qed.

(** ** Allocation *)

(** The descriptor for a request, and the size of the block it gives. *)
Definition class_of (size : Z) : option nat := find (λ i, size <=? bs i) (seq 0 7).
Definition page_cnt (size : Z) : Z := u32 (u32 (size + ARENA_SIZE) + PGSIZE - 1) / PGSIZE.
Definition granted (size : Z) : Z :=
  match class_of size with Some i => bs i | None => 4096 * page_cnt size - 12 end.

Lemma find_desc_eq size ds k :
  (∀ i d, ds !! i = Some d → block_size d = bs (k + i)) →
  find_desc size ds k = find (λ i, size <=? bs i) (seq k (length ds)).
Proof.
  revert k. induction ds as [|d ds IH]; intros k Hds; [done|]. simpl.
  rewrite (Hds 0%nat d) by done. rewrite Nat.add_0_r. destruct (size <=? bs k); [done|]. apply IH.
  intros i d' E. rewrite (Hds (Datatypes.S i) d') by done. f_equal. lia.
Qed.
Lemma find_desc_class h A size : heap_ok h A → find_desc size (descs h) 0 = class_of size.
Proof.
  intros (_ & Hlen & Hd & _). rewrite find_desc_eq, Hlen; [done|]. intros i d E. by destruct (Hd _ _ E) as (-> & _).
Qed.

Lemma class_of_Some size i : class_of size = Some i → (i < 7)%nat ∧ size ≤ bs i.
Proof. intros [Hin Hle]%find_some. apply in_seq in Hin. apply Z.leb_le in Hle. lia. Qed.
Lemma class_of_None size : class_of size = None → 1024 < size.
Proof. intros Hn. pose proof (find_none _ _ Hn 6%nat) as Hle. apply Z.leb_gt. apply Hle. apply in_seq. lia. Qed.

Lemma page_cnt_range size : 0 ≤ page_cnt size.
Proof. unfold page_cnt. rewrite PGSIZE_eq. pose proof (u32_range (u32 (size + ARENA_SIZE) + 4096 - 1)). div_lia. Qed.

(** The block is large enough, unless the number of pages overflows. *)
Lemma granted_enough size : 0 ≤ size ≤ 2^32 - 4108 → size ≤ granted size.
Proof.
  intros Hs. unfold granted. destruct (class_of size) as [i|] eqn:E; [by apply class_of_Some in E as [_ ?]|].
  unfold page_cnt, ARENA_SIZE. rewrite PGSIZE_eq, !u32_small; [div_lia | lia | rewrite u32_small; lia].
Qed.

Lemma block_to_arena_at h a x p sz (Q : Z → heap St → Prop) :
  arenas h !! a = Some x → magic x = ARENA_MAGIC → is_page a → within a x p sz →
  (∀ i, a_desc x = Some i → (i < 7)%nat ∧ ∃ d, descs h !! i = Some d ∧ block_size d = bs i) →
  Q a h → wp (block_to_arena p) Q h.
Proof.
  intros E Hm Hpg Hw Hi HQ. unfold block_to_arena, within in *.
  assert (pg_round_down p = a) as ->.
  { destruct (a_desc x) as [i|].
    - by destruct (block_addr a i p (proj1 (Hi i eq_refl)) Hpg (proj1 Hw)).
    - destruct Hw as [-> _]. by destruct (big_addr a Hpg). }
  apply wp_bind, wp_ASSERT; [apply negb_true_iff, Z.eqb_neq; destruct Hpg; unfold NULL; lia|].
  apply wp_bind, (wp_get_arena a x); [done|]. apply wp_bind, wp_ASSERT; [by apply Z.eqb_eq|].
  apply wp_bind. destruct (a_desc x) as [i|].
  - destruct (Hi i eq_refl) as (Hlt & d & Ed & Hbs). apply wp_bind, (wp_get_desc i d); [done|].
    apply wp_ASSERT; [|by apply wp_ret]. rewrite Hbs. apply Z.eqb_eq. by destruct (block_addr a i p Hlt Hpg (proj1 Hw)).
  - destruct Hw as [-> _]. destruct (big_addr a Hpg) as (_ & -> & _). apply wp_ASSERT; [done | by apply wp_ret].
Qed.
Lemma block_to_arena_ok h A a x p sz (Q : Z → heap St → Prop) :
  heap_ok h A → arenas h !! a = Some x → within a x p sz → Q a h → wp (block_to_arena p) Q h.
Proof.
  intros Hh E Hw HQ. pose proof Hh as (_ & _ & Hd & Ha & _). destruct (Ha _ _ E) as (Hm & _ & _ & Hi).
  apply (block_to_arena_at h a x p sz); try done; [by apply (arena_page h A a x)|].
  intros i Hx. rewrite Hx in Hi. destruct Hi as (Hi & d & Ed & _). destruct (Hd _ _ Ed) as (? & _). eauto.
Qed.

Definition good h (A : gmap Z Z) : Prop := heap_ok h A ∧ unlocked h.

(** An operation that returns the block [p] of [size] bytes or more, or none. *)
Definition allocated h (A : gmap Z Z) (size p : Z) h' : Prop :=
  bytes h' = bytes h
  ∧ ((p = NULL ∧ (size = 0 ∨ refused h) ∧ good h' A)
     ∨ (0 < p < 2^32 ∧ 0 < size ∧ A !! p = None ∧ good h' (<[p := granted size]> A))).

Lemma malloc_big_ok h A size :
  good h A → 0 < size < 2^32 → class_of size = None → wp (malloc cur size) (allocated h A size) h.
Proof.
  intros [Hh Hul] Hs Hc. pose proof Hh as (Hp & _). unfold malloc. rewrite (proj2 (Z.eqb_neq size 0)) by lia.
  apply wp_bind, wp_gets. rewrite (find_desc_class h A), Hc by done. fold (page_cnt size).
  apply wp_bind, palloc_get_ok; [done | apply page_cnt_range | |].
  { intros s Href Hs' Hu. apply wp_ret. split; [done|]. left. split_and!; [done | by right |].
    split; [by apply heap_ok_pages | done]. }
  intros a s Hcnt Ha0 Hs' Hfresh Hu. rewrite (proj2 (Z.eqb_neq a NULL)) by (unfold NULL; lia).
  assert (is_page a) as Ha by (apply (pr_used_page s); [done|]; apply Hu; right; exists 0; lia).
  apply wp_bind, wp_modify, wp_ret. destruct (big_addr a Ha) as (_ & _ & ->). split; [done|]. right.
  assert (¬ pr_used (pages h) a) as Hna by (replace a with (a + 4096 * 0) by lia; apply Hfresh; lia).
  destruct Ha as (? & Hmod & ?). split_and!; try lia.
  - apply eq_None_not_Some. intros [sz Hlv]. pose proof Hh as (_ & _ & _ & _ & _ & HA).
    apply HA in Hlv as (a' & x' & E' & Hw & _). destruct (within_range h A a' x' _ _ Hh E' Hw) as (? & ? & _ & ?).
    destruct (arena_page h A a' x' Hh E') as (_ & ? & _). apply Hna.
    replace a with (a' + 4096 * ((a - a') / 4096)) by div_lia. apply (arena_used h A a' x' _ Hh E'). div_lia.
  - unfold granted. rewrite Hc. split; [|done].
    apply (heap_ok_add h A _ a (mk_arena ARENA_MAGIC None (page_cnt size))); try done.
    + destruct Hh as (_ & _ & Hd & _). split; [done|]. intros j d d' E E'. simpl in E'. rewrite E in E'. injection E' as <-.
      by destruct (Hd _ _ E) as (_ & _ & ? & _).
    + intros q (k & Hk & ->). by apply Hfresh.
    + intros j d' b Ed' Hb Hblk. exfalso. by apply (fresh_no_block h A a j d' b).
Qed.

(** Taking the first block of the free list, and giving up the lock. *)
Lemma take_block_ok h A i d b l :
  heap_ok h A → locks h i (Some cur) → descs h !! i = Some d → free_list d = b :: l → (i < 7)%nat →
  wp (put_desc i (set_free_list l d) ;;
      a ← block_to_arena b;
      x ← get_arena a;
      put_arena a (set_free_cnt (u32 (free_cnt x - 1)) x) ;;
      unlock_desc cur i ;;
      mret b)
    (λ p h', p = b ∧ bytes h' = bytes h ∧ 0 < b < 2^32 ∧ A !! b = None ∧ good h' (<[b := bs i]> A)) h.
Proof.
  intros Hh Hlk Ed Hfl Hi. pose proof Hh as (_ & _ & Hd & Ha & _). destruct (Hd _ _ Ed) as (Hbs & _).
  destruct (heap_ok_pop h A i d b l Hh Ed Hfl) as (a & x & E & Hx & Hb & Hc & Hn & Hh').
  pose proof (lookup_lt_Some _ _ _ Ed) as Hlt. pose proof (arena_page h A a x Hh E) as Hpg.
  destruct (bs_facts i Hi) as (_ & ? & _). destruct (Ha _ _ E) as (Hm & _).
  apply wp_bind, wp_modify, wp_bind. apply (block_to_arena_at _ a x b (bs i)); try done.
  { unfold within. by rewrite Hx. }
  { intros j Hj. rewrite Hx in Hj. injection Hj as <-. split; [done|]. exists (set_free_list l d). simpl.
    by rewrite list_lookup_insert_eq. }
  apply wp_bind, (wp_get_arena a x); [done|]. rewrite u32_small by lia. apply wp_bind, wp_modify, wp_bind.
  change (set_arenas _ _) with (moved h i d l a x (free_cnt x - 1)).
  assert (descs (moved h i d l a x (free_cnt x - 1)) !! i = Some (set_free_list l d)) as Ed'.
  { simpl. by rewrite list_lookup_insert_eq. }
  apply (wp_unlock_desc i (set_free_list l d)); [done | cbn; by rewrite (Hlk i d Ed), decide_True|].
  apply wp_ret. destruct (block_range a i b Hi Hpg Hb) as (_ & _ & _ & ?). split_and!; try done; try lia. split.
  - eapply heap_ok_same; [|exact Hh']. by eapply same_put.
  - apply (locks_unlocked _ i). eapply (locks_put (moved h i d l a x (free_cnt x - 1)) i (Some cur)); [|done].
    eapply (locks_put h i (Some cur)); [done|]. cbn. by rewrite (Hlk i d Ed), decide_True.
Qed.

Lemma malloc_small_ok h A size i :
  good h A → 0 < size < 2^32 → class_of size = Some i → wp (malloc cur size) (allocated h A size) h.
Proof.
  intros [Hh Hul] Hs Hc. destruct (class_of_Some _ _ Hc) as [Hi Hle].
  destruct (heap_desc h A i Hh Hi) as (d & Ed & _). pose proof (lookup_lt_Some _ _ _ Ed) as Hlt.
  unfold malloc. rewrite (proj2 (Z.eqb_neq size 0)) by lia.
  apply wp_bind, wp_gets. rewrite (find_desc_class h A), Hc by done.
  apply wp_bind, (wp_lock_desc i d); [done | by apply (Hul i d)|].
  set (h1 := set_descs (<[i := set_lock (Some cur) d]> (descs h)) h).
  assert (heap_ok h1 A) as Hh1 by (by eapply heap_ok_same; [by eapply same_put|]).
  assert (locks h1 i (Some cur)) as Hlk1 by (apply (locks_put h i None); [by apply locks_unlocked | done]).
  assert (descs h1 !! i = Some (set_lock (Some cur) d)) as Ed1 by (simpl; by rewrite list_lookup_insert_eq).
  apply wp_bind, (wp_get_desc i (set_lock (Some cur) d)); [done|]. apply wp_bind.
  apply (wp_mono _ (λ ok h', bytes h' = bytes h ∧ heap_ok h' A ∧ locks h' i (Some cur)
    ∧ if (ok : bool) then ∃ d', descs h' !! i = Some d' ∧ free_list d' ≠ [] else refused h)).
  { case_bool_decide as Hfl; [|apply wp_ret; split_and!; try done; eauto].
    eapply wp_mono; [by apply (new_arena_ok h1 A i (set_lock (Some cur) d))|]. done. }
  intros [] h2 (Hby & Hh2 & Hlk2 & Hd2); cbn [negb].
  - destruct Hd2 as (d2 & Ed2 & Hfl2). apply wp_bind, (wp_get_desc i d2); [done|].
    destruct (free_list d2) as [|b l] eqn:Hfl; [done|]. eapply wp_mono; [by apply (take_block_ok h2 A i d2 b l)|].
    intros p h3 (-> & Hby3 & Hr & Hn & Hg). split; [congruence|]. right. unfold granted. rewrite Hc. split_and!; try done; lia.
  - destruct (heap_desc h2 A i Hh2 Hi) as (d2 & Ed2 & _). apply wp_bind, (wp_unlock_desc i d2); [done| |].
    { by rewrite (Hlk2 i d2 Ed2), decide_True. }
    apply wp_ret. split; [done|]. left. split_and!; [done | by right|]. split.
    + eapply heap_ok_same; [by eapply same_put | done].
    + apply (locks_unlocked _ i). by apply (locks_put h2 i (Some cur)).
Qed.

Lemma malloc_ok h A size : good h A → 0 ≤ size < 2^32 → wp (malloc cur size) (allocated h A size) h.
Proof.
  intros Hg Hs. destruct (decide (size = 0)) as [->|].
  { apply wp_ret. split; [done|]. left. by split_and!; [|left|]. }
  destruct (class_of size) as [i|] eqn:Hc; [apply (malloc_small_ok h A size i) | apply malloc_big_ok]; try done; lia.
Qed.

(** ** Release *)

Lemma filter_all (P : Z → Prop) `{∀ e, Decision (P e)} (l : list Z) : (∀ e, e ∈ l → P e) → filter P l = l.
Proof.
  induction l as [|b l IH]; intros HP; [done|]. rewrite filter_cons, decide_True by (apply HP; by left).
  f_equal. apply IH. intros e He. apply HP. by right.
Qed.

(** The loop that takes the blocks of an empty arena out of the free list. *)
Lemma empty_arena_ok h a x i d (Q : unit → heap St → Prop) :
  is_page a → arenas h !! a = Some x → magic x = ARENA_MAGIC → a_desc x = Some i → descs h !! i = Some d →
  block_size d = bs i → blocks_per_arena d = bpa i → (i < 7)%nat →
  Q tt (set_descs (<[i := set_free_list (filter (λ e, e ∉ blocks a i) (free_list d)) d]> (descs h)) h) →
  wp (for_loop (Z.to_nat (bpa i)) 0 (λ k,
    b ← arena_to_block a k;
    d ← get_desc i;
    put_desc i (set_free_list (filter (λ e, e ≠ b) (free_list d)) d))) Q h.
Proof.
  intros Ha E Hm Hx Ed Hbs Hbpa Hi HQ. destruct (bs_facts i Hi) as (_ & Hn & _).
  pose proof (lookup_lt_Some _ _ _ Ed) as Hlt.
  set (rest := λ k, filter (λ e, e ∉ first_blocks a i k) (free_list d)).
  apply (wp_for_loop (λ k h', h' = set_descs (<[i := set_free_list (rest k) d]> (descs h)) h)).
  - assert (rest 0 = free_list d) as ->.
    { apply filter_all. intros b _. apply not_elem_of_nil. }
    rewrite set_free_list_id, list_insert_id by done. by destruct h.
  - intros k h' Hk ->. apply wp_bind.
    apply (arena_to_block_ok _ a x i (set_free_list (rest k) d)); try done; try lia; simpl.
    + by rewrite list_lookup_insert_eq.
    + apply wp_bind, (wp_get_desc i (set_free_list (rest k) d)); simpl; [by rewrite list_lookup_insert_eq|].
      unfold put_desc. apply wp_modify. unfold set_descs. simpl. rewrite list_put_twice.
      change (set_free_list ?l (set_free_list _ d)) with (set_free_list l d). do 3 f_equal.
      unfold rest. rewrite list_filter_filter. apply list_filter_iff. intros e. rewrite first_blocks_S by lia.
      rewrite elem_of_app, list_elem_of_singleton. tauto.
  - intros h'. rewrite Z2Nat.id by lia. intros ->. exact HQ.
Qed.

Lemma palloc_free_ok h a x (Q : unit → heap St → Prop) :
  pr_inv (pages h) → 0 < npages x → (∀ k, 0 ≤ k < npages x → pr_used (pages h) (a + 4096 * k)) →
  (∀ s, pr_inv s → (∀ q, pr_used s q ↔ pr_used (pages h) q ∧ ¬ run_of a x q) → Q tt (set_pages s h)) →
  wp (palloc_free a (npages x)) Q h.
Proof.
  intros Hp Hn Hu HQ. apply wp_zoom. eapply wp_mono; [by apply pr_free_ok|]. intros [] s [Hs Hq]. by apply HQ.
Qed.

Lemma in_arena_filter a' (l : list Z) (P : Z → Prop) `{∀ e, Decision (P e)} :
  (∀ b, b ∈ l → page_of b = a' → P b) → in_arena a' (filter P l) = in_arena a' l.
Proof.
  intros HP. unfold in_arena. rewrite list_filter_filter.
  rewrite <- (filter_all P (filter (λ b, page_of b = a') l)).
  - rewrite list_filter_filter. apply list_filter_iff. tauto.
  - intros e [? ?]%list_elem_of_filter. auto.
Qed.

(** What becomes of the bytes: only those of the block may change. *)
Definition frame_bytes (p sz : Z) h h' : Prop := ∀ q, ¬ (p ≤ q < p + sz) → bytes h' q = bytes h q.

Lemma live_arena h A p sz :
  heap_ok h A → A !! p = Some sz →
  ∃ a x, arenas h !! a = Some x ∧ within a x p sz ∧ ∀ i d, a_desc x = Some i → descs h !! i = Some d → p ∉ free_list d.
Proof.
  intros (_ & _ & _ & _ & _ & HA) (a & x & E & Hw & Hf)%HA. exists a, x. split_and!; try done.
  intros i d Hx Ed Hp. apply Hf. by exists i, d.
Qed.

Lemma free_big_ok h A a x p sz :
  good h A → arenas h !! a = Some x → within a x p sz → a_desc x = None →
  wp (free cur p) (λ _ h', good h' (delete p A) ∧ frame_bytes p sz h h') h.
Proof.
  intros [Hh Hul] E Hw Hx. pose proof Hh as (Hp & _ & Hd & Ha & _).
  destruct (within_range h A a x p sz Hh E Hw) as (_ & _ & Hr & _). destruct (Ha _ _ E) as (_ & Hn & Hu & _).
  unfold free. rewrite (proj2 (Z.eqb_neq p NULL)) by (unfold NULL; lia). apply wp_bind, (block_to_arena_ok h A a x p sz); try done.
  apply wp_bind, (wp_get_arena a x); [done|]. rewrite Hx. apply wp_bind.
  assert (free_cnt x = npages x) as -> by (unfold npages; by rewrite Hx).
  apply palloc_free_ok; try done. intros s Hs Hq. apply wp_modify. split; [split|]; [|done|done].
  apply (heap_ok_remove h A _ a x); try done.
  - split; [done|]. intros j d d' Ed Ed'. simpl in Ed'. rewrite Ed in Ed'. injection Ed' as <-.
    by destruct (Hd _ _ Ed) as (_ & _ & ? & _).
  - intros j d b Ed Hb Hblk. destruct (Hd _ _ Ed) as (_ & _ & _ & Hin). destruct (Hin b Hb) as (a' & x' & E' & Hx' & Hb').
    assert (a' = a) as ->; [|congruence].
    apply (blk_inj a' a j b); try done; [by apply (arena_desc_lt h A a' x') | by apply (arena_page h A a' x') | by apply (arena_page h A a x)].
  - rewrite Hx. unfold within in Hw. rewrite Hx in Hw. by destruct Hw as [-> _].
Qed.

(** An arena all of whose blocks are free is given back. *)
Lemma release_arena_ok h A a x i d :
  heap_ok h A → locks h i (Some cur) → arenas h !! a = Some x → a_desc x = Some i → descs h !! i = Some d →
  free_cnt x = bpa i →
  wp (for_loop (Z.to_nat (bpa i)) 0 (λ k,
        b ← arena_to_block a k;
        d ← get_desc i;
        put_desc i (set_free_list (filter (λ e, e ≠ b) (free_list d)) d)) ;;
      palloc_free a 1 ;;
      drop_arena a)
    (λ _ h', bytes h' = bytes h ∧ heap_ok h' A ∧ locks h' i (Some cur)) h.
Proof.
  intros Hh Hlk E Hx Ed Hfull. pose proof Hh as (Hp & _ & Hd & Ha & _). pose proof (arena_page h A a x Hh E) as Hpg.
  destruct (Hd _ _ Ed) as (Hbs & Hbpa & Hnd & Hin). destruct (Ha _ _ E) as (Hm & Hn & Hu & _).
  pose proof (arena_desc_lt h A a x i Hh E Hx) as Hi.
  apply wp_bind, (empty_arena_ok h a x i d); try done. apply wp_bind.
  assert (npages x = 1) as <- by (unfold npages; by rewrite Hx).
  apply palloc_free_ok; try done. intros s Hs Hq. apply wp_modify. split_and!; [done| |].
  - apply (heap_ok_remove h A _ a x); try done; [| |by rewrite Hx].
    + apply (put_lists_but h A); try done; [by apply NoDup_filter| |].
      * intros b Hb. rewrite list_elem_of_filter, blocks_elem. tauto.
      * intros a' Hne. f_equal. apply in_arena_filter. intros b _ Hpb Hb%blocks_elem.
        destruct (block_range a i b Hi Hpg Hb) as (_ & _ & ? & _). congruence.
    + intros j d' b Ed' Hb Hblk. simpl in Ed'. apply list_lookup_insert_Some in Ed' as [(<- & <- & _)|[Hne Ed']].
      * apply list_elem_of_filter in Hb as [Hb _]. apply Hb. by apply blocks_elem.
      * destruct (Hd _ _ Ed') as (_ & _ & _ & Hin'). destruct (Hin' b Hb) as (a' & x' & E' & Hx' & Hb').
        assert (a' = a) as ->; [|congruence].
        apply (blk_inj a' a j b); try done; [by apply (arena_desc_lt h A a' x') | by apply (arena_page h A a' x')].
  - apply (locks_put h i (Some cur)); [done|]. cbn. by rewrite (Hlk i d Ed), decide_True.
Qed.

Lemma free_small_ok h A a x p sz i :
  good h A → arenas h !! a = Some x → within a x p sz → a_desc x = Some i →
  (∀ d, descs h !! i = Some d → p ∉ free_list d) →
  wp (free cur p) (λ _ h', good h' (delete p A) ∧ frame_bytes p sz h h') h.
Proof.
  intros [Hh Hul] E Hw Hx Hnf. destruct (within_range h A a x p sz Hh E Hw) as (_ & _ & Hr & _).
  pose proof (arena_desc_lt h A a x i Hh E Hx) as Hi. destruct (heap_desc h A i Hh Hi) as (d & Ed & Hbs & Hbpa & _).
  pose proof (lookup_lt_Some _ _ _ Ed) as Hlt. pose proof Hw as Hw'. unfold within in Hw'. rewrite Hx in Hw'.
  destruct Hw' as [Hb ->]. destruct (bs_facts i Hi) as (_ & ? & _).
  unfold free. rewrite (proj2 (Z.eqb_neq p NULL)) by (unfold NULL; lia).
  apply wp_bind, (block_to_arena_ok h A a x p (bs i)); try done. apply wp_bind, (wp_get_arena a x); [done|]. rewrite Hx.
  apply wp_bind, (wp_get_desc i d); [done|]. rewrite Hbs. apply wp_bind, wp_modify.
  set (h0 := set_bytes (fill p 204 (bs i) (bytes h)) h).
  apply wp_bind, (wp_lock_desc i d); [done | by apply (Hul i d)|].
  set (d1 := set_lock (Some cur) d). set (h1 := set_descs (<[i := d1]> (descs h0)) h0).
  assert (descs h1 !! i = Some d1) as Ed1 by (simpl; by rewrite list_lookup_insert_eq).
  assert (heap_ok h1 A) as Hh1 by (by eapply heap_ok_same; [by eapply (same_put h0)|]).
  destruct (heap_ok_push h1 A i d1 a x p Hh1 Ed1 E Hx Hb (Hnf d Ed)) as [Hc Hh2].
  destruct (free_cnt_le h1 A a x i d1 Hh1 E Hx Ed1) as [Hc0 _].
  apply wp_bind, (wp_get_desc i d1); [done|]. apply wp_bind, wp_modify, wp_bind, wp_modify. rewrite u32_small by lia.
  change (set_arenas _ _) with (moved h1 i d1 (p :: free_list d1) a x (free_cnt x + 1)).
  set (h2 := moved h1 i d1 (p :: free_list d1) a x (free_cnt x + 1)) in *.
  assert (locks h2 i (Some cur)) as Hlk2.
  { apply (locks_put h1 i (Some cur)); [|done]. apply (locks_put h0 i None); [|done]. by apply (locks_unlocked h). }
  assert (frame_bytes p (bs i) h h2) as Hfr.
  { intros q Hq. by apply fill_out. }
  apply wp_bind, (wp_mono _ (λ _ h', bytes h' = bytes h2 ∧ heap_ok h' (delete p A) ∧ locks h' i (Some cur))).
  - change (blocks_per_arena d1) with (blocks_per_arena d). rewrite Hbpa.
    destruct (Z.leb_spec (bpa i) (free_cnt x + 1)) as [Hle|]; [|by apply wp_ret].
    apply wp_bind, wp_ASSERT; [apply Z.eqb_eq; lia|].
    apply (release_arena_ok h2 (delete p A) a (set_free_cnt (free_cnt x + 1) x) i (set_free_list (p :: free_list d1) d1));
      try done; simpl; [by rewrite lookup_insert_eq | by rewrite list_lookup_insert_eq by (by rewrite length_insert) | lia].
  - intros [] h3 (Hby & Hh3 & Hlk3). destruct (heap_desc h3 _ i Hh3 Hi) as (d3 & Ed3 & _).
    apply (wp_unlock_desc i d3); [done | by rewrite (Hlk3 i d3 Ed3), decide_True|]. split; [split|].
    + eapply heap_ok_same; [by eapply same_put | done].
    + apply (locks_unlocked _ i). by apply (locks_put h3 i (Some cur)).
    + intros q Hq. simpl. rewrite Hby. by apply Hfr.
Qed.

Lemma free_ok h A p sz :
  good h A → A !! p = Some sz → wp (free cur p) (λ _ h', good h' (delete p A) ∧ frame_bytes p sz h h') h.
Proof.
  intros Hg Hp. destruct (live_arena h A p sz (proj1 Hg) Hp) as (a & x & E & Hw & Hf).
  destruct (a_desc x) as [i|] eqn:Hx.
  - apply (free_small_ok h A a x p sz i); try done. intros d. by apply Hf.
  - by apply (free_big_ok h A a x p sz).
Qed.

(** ** Sizes, zeroed blocks and reallocation *)

Lemma big_size h A a x : heap_ok h A → arenas h !! a = Some x → a + 4096 * npages x ≤ 2^32.
Proof.
  intros Hh E. pose proof Hh as (Hp & _ & _ & Ha & _). destruct (Ha _ _ E) as (_ & Hn & Hu & _).
  destruct (pr_used_page (pages h) (a + 4096 * (npages x - 1)) Hp) as (_ & _ & ?); [apply Hu; lia | lia].
Qed.

Lemma live_range h A p sz : heap_ok h A → A !! p = Some sz → 0 < p ∧ 0 < sz ∧ p + sz ≤ 2^32.
Proof.
  intros Hh Hp. destruct (live_arena h A p sz Hh Hp) as (a & x & E & Hw & _).
  destruct (within_range h A a x p sz Hh E Hw) as (? & ? & ? & ?). pose proof (big_size h A a x Hh E). lia.
Qed.

Lemma size_of_block_ok h A p sz (Q : Z → heap St → Prop) :
  heap_ok h A → A !! p = Some sz → Q sz h → wp (size_of_block p) Q h.
Proof.
  intros Hh Hp HQ. destruct (live_arena h A p sz Hh Hp) as (a & x & E & Hw & _).
  destruct (within_range h A a x p sz Hh E Hw) as (_ & _ & _ & Hsz). unfold size_of_block.
  apply wp_bind, (block_to_arena_ok h A a x p sz); try done. apply wp_bind, (wp_get_arena a x); [done|].
  pose proof (big_size h A a x Hh E) as Hbig. pose proof (arena_page h A a x Hh E) as Hpg.
  unfold within, npages in *. destruct (a_desc x) as [i|] eqn:Hx.
  - destruct Hw as [_ ->]. pose proof (arena_desc_lt h A a x i Hh E Hx) as Hi.
    destruct (heap_desc h A i Hh Hi) as (d & Ed & Hbs & _). apply wp_bind, (wp_get_desc i d); [done|].
    rewrite Hbs. by apply wp_ret.
  - destruct Hw as [-> ->]. destruct (big_addr a Hpg) as (_ & -> & _). destruct Hpg as (? & _ & _).
    apply wp_ret. rewrite PGSIZE_eq, u32_small by lia. done.
Qed.

Lemma good_bytes h A m : good h A → good (set_bytes m h) A.
Proof. intros [Hh Hul]. split; [|done]. by apply (heap_ok_same h). Qed.

Lemma calloc_ok h A a b :
  good h A → 0 ≤ a → 0 ≤ b → a * b < 2^32 →
  wp (calloc cur a b) (λ p h',
    (p = NULL ∧ (a * b = 0 ∨ refused h) ∧ good h' A ∧ bytes h' = bytes h)
    ∨ (0 < p < 2^32 ∧ 0 < a * b ∧ A !! p = None ∧ good h' (<[p := granted (a * b)]> A) ∧ bytes h' = fill p 0 (a * b) (bytes h))) h.
Proof.
  intros Hg Ha Hb Hab. assert (0 ≤ a * b) by (apply Z.mul_nonneg_nonneg; lia).
  unfold calloc. rewrite u32_small by lia. destruct (decide (a * b < a ∨ a * b < b)) as [Hz|Hz].
  { assert (a * b = 0).
    { destruct (decide (a = 0)) as [->|]; [lia|]. destruct (decide (b = 0)) as [->|]; [lia|]. nia. }
    replace (_ || _) with true.
    - apply wp_ret. left. by split_and!; [|left| |].
    - symmetry. apply orb_true_iff. rewrite !Z.ltb_lt. done. }
  rewrite (proj2 (Z.ltb_ge (a * b) a)), (proj2 (Z.ltb_ge (a * b) b)) by lia. cbn [orb].
  apply wp_bind. eapply wp_mono; [by apply (malloc_ok h A)|].
  intros p h' (Hby & [(-> & Hn & Hg')|(Hr & Hpos & Hn & Hg')]).
  - change (NULL =? NULL) with true. apply wp_bind, wp_ret, wp_ret. left. done.
  - rewrite (proj2 (Z.eqb_neq p NULL)) by (unfold NULL; lia). apply wp_bind, wp_modify, wp_ret. right.
    split_and!; try lia; [done | by apply good_bytes | simpl; by rewrite Hby].
Qed.

Lemma free_null h : free cur NULL h = Ok (tt, h).
Proof. done. Qed.

(** The result of resizing [p], a block in use or a null pointer. *)
Lemma realloc_ok h A p size :
  good h A → (p = NULL ∨ is_Some (A !! p)) → 0 < size ≤ 2^32 - 4108 →
  wp (realloc cur p size) (λ r h',
    (r = NULL ∧ refused h ∧ good h' A ∧ bytes h' = bytes h)
    ∨ (0 < r < 2^32 ∧ A !! r = None ∧ (∃ h1, good h1 (<[r := granted size]> A))
       ∧ good h' (delete p (<[r := granted size]> A)) ∧ (p = NULL → bytes h' = bytes h)
       ∧ ∀ sz q, A !! p = Some sz → ¬ (p ≤ q < p + sz) →
           bytes h' q = copy r p (Z.min size sz) (bytes h) q)) h.
Proof.
  intros Hg Hp Hs. unfold realloc. rewrite (proj2 (Z.eqb_neq size 0)) by lia.
  apply wp_bind. eapply wp_mono; [apply (malloc_ok h A size Hg); lia|].
  intros r h1 (Hby & [(-> & [?|Hn] & Hg')|(Hr & _ & Hn & Hg')]); [lia| |].
  { rewrite andb_false_r. apply wp_bind, wp_ret, wp_ret. by left. }
  rewrite (proj2 (Z.eqb_neq r NULL)), andb_true_r by (unfold NULL; lia). destruct (decide (p = NULL)) as [->|Hpn].
  - change (negb (NULL =? NULL)) with false. apply wp_bind, wp_ret, wp_ret. right.
    assert (A !! NULL = None) as HN.
    { apply eq_None_not_Some. intros [sz Hsz]. destruct (live_range h A _ _ (proj1 Hg) Hsz). unfold NULL in *. lia. }
    split_and!; try done; try lia; [by exists h1| |by rewrite HN].
    rewrite delete_insert_ne, (delete_id A) by (done || unfold NULL; lia). done.
  - destruct Hp as [|[sz Hsz]]; [done|]. rewrite (proj2 (Z.eqb_neq p NULL)) by done. cbn [negb].
    assert (r ≠ p) by congruence. assert (<[r := granted size]> A !! p = Some sz) as Hsz' by (by rewrite lookup_insert_ne).
    apply wp_bind, wp_bind, (size_of_block_ok h1 _ p sz _ (proj1 Hg') Hsz'), wp_bind, wp_modify.
    eapply wp_mono; [apply free_ok; [by apply good_bytes | done]|].
    intros [] h2 [Hg2 Hfr]. apply wp_ret. right. split_and!; try done; try lia; [by exists h1|].
    intros sz' q Hsz2 Hq. rewrite Hsz in Hsz2. injection Hsz2 as <-. rewrite Hfr by done. simpl. rewrite Hby.
    f_equal. destruct (Z.ltb_spec size sz); lia.
Qed.

(** ** Initialisation *)

Definition init_desc (i : nat) : desc := mk_desc (bs i) (bpa i) [] None.

Lemma malloc_init_eq h : descs h = [] → malloc_init h = Ok (tt, set_descs (init_desc <$> seq 0 7) h).
Proof. destruct h as [ds ars s m]. simpl. by intros ->. Qed.

Lemma malloc_init_ok h :
  descs h = [] → arenas h = ∅ → pr_inv (pages h) → wp malloc_init (λ _ h', good h' ∅ ∧ bytes h' = bytes h) h.
Proof.
  intros Hd Ha Hp. apply (wp_eq _ _ _ tt (set_descs (init_desc <$> seq 0 7) h)); [by apply malloc_init_eq|].
  assert (∀ i d, (init_desc <$> seq 0 7) !! i = Some d → d = init_desc i) as Hi.
  { intros i d. rewrite list_lookup_fmap_Some. intros (k & -> & [-> _]%lookup_seq). done. }
  split; [split|]; [|intros i d E; by rewrite (Hi i d E) | done]. split_and!; simpl; try done.
  - intros i d E. rewrite (Hi i d E). split_and!; [done | done | by apply NoDup_nil |]. by intros b ?%not_elem_of_nil.
  - intros a x. rewrite Ha. by rewrite lookup_empty.
  - intros a x a' x' k k'. rewrite Ha. by rewrite lookup_empty.
  - intros p sz. rewrite lookup_empty. split; [done|]. intros (a & x & E & _). simpl in E. by rewrite Ha, lookup_empty in E.
Qed.
End ops.
End MallocOps.
