(* ===== verification/MallocProps.v ===== *)
(** * What the kernel heap promises

    threads/malloc.c on top of threads/palloc.c: the heap as its clients see
    it, a map from the addresses of the blocks in use to their sizes, and the
    arithmetic of very large requests. *)
From stdpp Require Import base gmap list list_numbers.
From Stdlib Require Import ZArith Lia.
From S2P Require Import Prelude Vaddr Memory Bitmap Palloc Thread KernelPages Malloc MallocOps.

Module MallocProps.
Import Vaddr Memory Malloc MallocOps.

(** ** The page allocator of the kernel *)

Lemma used_page st p : KernelPages.ready st → KernelPages.used st p → 0 < p ∧ p mod 4096 = 0 ∧ p + 4096 ≤ 2^32.
Proof.
  intros [Hwf _] (i & Hp & _). destruct (KernelPages.kernel_page_aligned st p i Hwf Hp) as [? Hm].
  rewrite PGSIZE_eq in Hm. split_and!; try done. destruct Hp as [Hi ->].
  destruct Hwf as ((_ & _ & _ & _ & Hend) & _). unfold Palloc.page. rewrite PGSIZE_eq in *. lia.
Qed.

Definition get_run (cnt : Z) : M Palloc.palloc Z := Palloc.palloc_get_multiple 1 0 cnt.

Lemma get_run_ok s cnt :
  KernelPages.ready s → 0 ≤ cnt →
  wp (get_run cnt) (λ p s', KernelPages.ready s'
    ∧ ((p = 0 ∧ ∀ q, KernelPages.used s' q ↔ KernelPages.used s q)
       ∨ (0 < cnt ∧ 0 < p ∧ (∀ i, 0 ≤ i < cnt → ¬ KernelPages.used s (p + 4096 * i))
          ∧ ∀ q, KernelPages.used s' q ↔ KernelPages.used s q ∨ ∃ i, 0 ≤ i < cnt ∧ q = p + 4096 * i))) s.
Proof.
  intros Hr Hc. destruct (decide (cnt = 0)) as [->|].
  { apply wp_ret. split; [done|]. by left. }
  destruct (KernelPages.get_multiple_ok 0 s cnt) as (p & s' & E & Hr' & _ & Hcase); try done; [lia|].
  apply (wp_eq _ _ _ p s' E). split; [done|]. rewrite PGSIZE_eq in Hcase.
  destruct Hcase as [?|(? & _ & Hf & ?)]; [by left | right]. split_and!; try done; [lia|]. intros i Hi. by apply Hf.
Qed.

Lemma free_run_ok s p cnt :
  KernelPages.ready s → 0 < cnt → (∀ i, 0 ≤ i < cnt → KernelPages.used s (p + 4096 * i)) →
  wp (Palloc.palloc_free_multiple p cnt) (λ _ s', KernelPages.ready s'
    ∧ ∀ q, KernelPages.used s' q ↔ KernelPages.used s q ∧ ¬ ∃ i, 0 ≤ i < cnt ∧ q = p + 4096 * i) s.
Proof.
  intros Hr Hc Hu. destruct (KernelPages.free_multiple_ok s p cnt Hr Hc) as (s' & E & Hr' & _ & Hq); [by rewrite PGSIZE_eq|].
  rewrite PGSIZE_eq in Hq. by apply (wp_eq _ _ _ tt s' E).
Qed.

#[export] Instance kernel_runs : PageRuns Palloc.palloc := {|
  pr_inv := KernelPages.ready; pr_used := KernelPages.used;
  pr_get := get_run; pr_free := Palloc.palloc_free_multiple;
  pr_used_page := used_page; pr_get_ok := get_run_ok; pr_free_ok := free_run_ok
|}.

(** ** Requests *)

Inductive op :=
  | OMalloc (size : Z)
  | OCalloc (a b : Z)
  | ORealloc (old_block new_size : Z)
  | OFree (p : Z).

Definition request (o : op) : Z :=
  match o with OMalloc n | ORealloc _ n => n | OCalloc a b => a * b | OFree _ => 0 end.
Definition released (o : op) : Z :=
  match o with ORealloc p _ | OFree p => p | _ => NULL end.

(** The largest request whose number of pages does not overflow. *)
Definition LIMIT : Z := 2^32 - 4108.

(** What a client may ask for when the blocks [A] are in use. *)
Definition allowed (A : gmap Z Z) (o : op) : Prop :=
  0 ≤ request o ≤ LIMIT ∧ (released o = NULL ∨ is_Some (A !! released o))
  ∧ match o with OCalloc a b => 0 ≤ a < 2^32 ∧ 0 ≤ b < 2^32 | _ => True end.

(** The blocks in use after [o] returned [r]. *)
Definition after (o : op) (r : Z) (A : gmap Z Z) : gmap Z Z :=
  match o with
  | OFree p => delete p A
  | ORealloc p n => if n =? 0 then delete p A else if r =? NULL then A else delete p (<[r := granted n]> A)
  | _ => if r =? NULL then A else <[r := granted (request o)]> A
  end.

(** The addresses [[p, p + n)] belong to no block of [A]. *)
Definition fresh_block (A : gmap Z Z) (p n : Z) : Prop :=
  0 < p ∧ p + n ≤ 2^32 ∧ ∀ q sz, A !! q = Some sz → q + sz ≤ p ∨ p + n ≤ q.

(** What the client gets: a null pointer or a fresh block that is large
    enough; the other blocks keep their contents; [calloc] gives zeroes and
    [realloc] moves the contents. *)
Definition serves (o : op) (A : gmap Z Z) (m : Z → Z) (r : Z) (m' : Z → Z) : Prop :=
  (r = NULL ∨ (fresh_block A r (granted (request o)) ∧ 0 < request o ≤ granted (request o)))
  ∧ (∀ b sz q, A !! b = Some sz → b ≠ released o → b ≤ q < b + sz → m' q = m q)
  ∧ match o with
    | OMalloc _ => True
    | OCalloc a b => r ≠ NULL → ∀ k, 0 ≤ k < a * b → m' (r + k) = 0
    | ORealloc p n =>
        (r = NULL → n ≠ 0 → m' = m)
        ∧ (r ≠ NULL → ∀ sz k, A !! p = Some sz → 0 ≤ k < Z.min n sz → m' (r + k) = m (p + k))
    | OFree _ => r = NULL
    end.

Section heap.
Context {St : Type} `{PageRuns St}.
Implicit Types h : heap St.

Definition run_op (cur : Z) (o : op) : M (heap St) Z :=
  match o with
  | OMalloc n => malloc cur n
  | OCalloc a b => calloc cur a b
  | ORealloc p n => realloc cur p n
  | OFree p => free cur p ;; mret NULL
  end.

(** The heap and the blocks in use, after any sequence of requests of any
    threads, and writes to blocks in use. *)
Inductive reachable : heap St → gmap Z Z → Prop :=
  | reach_init h h' :
      descs h = [] → arenas h = ∅ → pr_inv (pages h) → malloc_init h = Ok (tt, h') → reachable h' ∅
  | reach_op h A cur o r h' :
      reachable h A → allowed A o → run_op cur o h = Ok (r, h') → reachable h' (after o r A)
  | reach_write h A p sz q v :
      reachable h A → A !! p = Some sz → p ≤ q < p + sz →
      reachable (set_bytes (λ a, if a =? q then v else bytes h a) h) A.

Lemma good_fresh h h' A p n : heap_ok h' (<[p := n]> A) → A !! p = None → fresh_block A p n.
Proof.
  intros Hh Hn. destruct (live_range h' _ p n Hh (lookup_insert_eq A p n)) as (? & _ & ?). split_and!; try done.
  intros q sz Hq. assert (q ≠ p) by congruence.
  apply (live_disjoint h' (<[p := n]> A)); try done; [by rewrite lookup_insert_ne | by rewrite lookup_insert_eq].
Qed.

Lemma fresh_outside A p n b sz q : fresh_block A p n → A !! b = Some sz → b ≤ q < b + sz → ¬ (p ≤ q < p + n).
Proof. intros (_ & _ & Hd) Hb Hq. specialize (Hd b sz Hb). lia. Qed.

(** The three parts of the result of a request. *)
Definition answers h (A : gmap Z Z) (o : op) (r : Z) h' : Prop :=
  good h' (after o r A) ∧ serves o A (bytes h) r (bytes h') ∧ (r = NULL → request o = 0 ∨ refused h).

Lemma malloc_answers h A cur n : good h A → allowed A (OMalloc n) → wp (malloc cur n) (answers h A (OMalloc n)) h.
Proof.
  intros Hg (Hn & _). cbn [request] in Hn. unfold LIMIT in Hn.
  eapply wp_mono; [apply (malloc_ok cur h A n Hg); lia|].
  intros r h' (Hby & [(-> & Hz & Hg')|(Hr & Hpos & Hnone & Hg')]); unfold answers, serves; rewrite Hby.
  - split_and!; [done | by left | done..].
  - assert (r ≠ NULL) by (unfold NULL; lia). unfold after. rewrite (proj2 (Z.eqb_neq r NULL)) by done.
    pose proof (granted_enough n ltac:(lia)). split_and!; try done. right.
    split; [by apply (good_fresh h h'); [apply Hg'|] | simpl; lia].
Qed.

Lemma calloc_answers h A cur a b : good h A → allowed A (OCalloc a b) → wp (calloc cur a b) (answers h A (OCalloc a b)) h.
Proof.
  intros Hg (Hn & _ & Ha & Hb). cbn [request] in Hn. unfold LIMIT in Hn.
  eapply wp_mono; [apply (calloc_ok cur h A a b Hg); lia|].
  intros r h' [(-> & Hz & Hg' & Hby)|(Hr & Hpos & Hnone & Hg' & Hby)]; unfold answers, serves; rewrite Hby.
  - split_and!; [done | by left | done..].
  - assert (r ≠ NULL) by (unfold NULL; lia). unfold after. rewrite (proj2 (Z.eqb_neq r NULL)) by done.
    assert (fresh_block A r (granted (a * b))) as Hf by (by apply (good_fresh h h'); [apply Hg'|]).
    pose proof (granted_enough (a * b) ltac:(lia)) as Hge. split_and!; try done.
    + right. split; [done | simpl; lia].
    + intros b0 sz q Hb0 _ Hq. pose proof (fresh_outside A r _ b0 sz q Hf Hb0 Hq). apply fill_out. lia.
    + intros _ k Hk. by apply fill_in.
Qed.

Lemma realloc_answers h A cur p n :
  good h A → allowed A (ORealloc p n) → n ≠ 0 → wp (realloc cur p n) (answers h A (ORealloc p n)) h.
Proof.
  intros Hg (Hn & Hp & _) Hn0. cbn [request released] in *. unfold LIMIT in Hn.
  eapply wp_mono; [apply (realloc_ok cur h A p n Hg Hp); lia|].
  intros r h' [(-> & Hz & Hg' & Hby)|(Hr & Hnone & [h1 Hg1] & Hg' & Hby0 & Hby)]; unfold answers, serves, after;
    rewrite (proj2 (Z.eqb_neq n 0)) by done.
  - rewrite Hby. split_and!; [done | by left | done.. | by right].
  - assert (r ≠ NULL) by (unfold NULL; lia). rewrite (proj2 (Z.eqb_neq r NULL)) by done.
    assert (fresh_block A r (granted n)) as Hf by (by apply (good_fresh h h1); [apply Hg1|]).
    pose proof (granted_enough n ltac:(lia)) as Hge. split_and!; try done.
    + right. split; [done | simpl; lia].
    + intros b sz q Hb Hne Hq. cbn [released] in Hne. destruct Hp as [->|[sz' Hsz']]; [by rewrite Hby0|].
      pose proof (fresh_outside A r _ b sz q Hf Hb Hq).
      rewrite (Hby sz' q Hsz'), copy_out; [done | lia |].
      destruct (live_disjoint h A p sz' b sz (proj1 Hg) Hsz' Hb (not_eq_sym Hne)); lia.
    + intros _ sz k Hsz Hk. rewrite (Hby sz (r + k) Hsz), copy_in; [done | done |].
      pose proof (fresh_outside A r _ p sz (r + k) Hf Hsz). lia.
Qed.

Lemma free_answers h A cur p : good h A → (p = NULL ∨ is_Some (A !! p)) →
  wp (free cur p) (λ _ h', good h' (delete p A)
    ∧ ∀ b sz q, A !! b = Some sz → b ≠ p → b ≤ q < b + sz → bytes h' q = bytes h q) h.
Proof.
  intros Hg [->|[sz Hsz]].
  - apply wp_ret. split; [|done]. rewrite delete_id; [done|]. apply eq_None_not_Some. intros [sz Hsz].
    destruct (live_range h A _ _ (proj1 Hg) Hsz). unfold NULL in *. lia.
  - eapply wp_mono; [by apply (free_ok cur h A p sz)|]. intros [] h' [Hg' Hfr]. split; [done|].
    intros b sz' q Hb Hne Hq. apply Hfr.
    destruct (live_disjoint h A p sz b sz' (proj1 Hg) Hsz Hb (not_eq_sym Hne)); lia.
Qed.

Lemma run_op_answers h A cur o : good h A → allowed A o → wp (run_op cur o) (answers h A o) h.
Proof.
  intros Hg Ho. destruct o as [n|a b|p n|p]; simpl.
  - by apply malloc_answers.
  - by apply calloc_answers.
  - destruct (decide (n = 0)) as [->|]; [|by apply realloc_answers].
    apply wp_bind. eapply wp_mono; [apply (free_answers h A cur p Hg), Ho|]. intros [] h' [Hg' Hfr].
    apply wp_ret. unfold answers, serves. split_and!; [done | by left | done.. | by left].
  - apply wp_bind. eapply wp_mono; [apply (free_answers h A cur p Hg), Ho|]. intros [] h' [Hg' Hfr].
    apply wp_ret. unfold answers, serves. split_and!; [done | by left | done.. | by left].
Qed.

Lemma reachable_good h A : reachable h A → good h A.
Proof.
  induction 1 as [h h' Hd Ha Hp E|h A cur o r h' _ IH Ho E|h A p sz q v _ IH Hp Hq].
  - pose proof (malloc_init_ok h Hd Ha Hp) as Hw. apply wp_Ok in Hw as ([] & h1 & E1 & Hg & _). congruence.
  - pose proof (run_op_answers h A cur o IH Ho) as Hw. apply wp_Ok in Hw as (r1 & h1 & E1 & Hg & _).
    rewrite E in E1. by injection E1 as -> ->.
  - by apply good_bytes.
Qed.
End heap.

(** ** A heap on top of the page allocator *)

Definition boot_heap : heap Palloc.palloc := mk_heap [] ∅ Palloc.two_pools (λ _, 0).
Definition kernel_heap : heap Palloc.palloc := set_descs (init_desc <$> seq 0 7) boot_heap.

Lemma kernel_heap_reachable : reachable kernel_heap ∅.
Proof.
  apply (reach_init boot_heap); try done. split; [apply Palloc.two_pools_wf | done].
Qed.

(** A heap with one block of 128 bytes in use. *)
Definition one_block : Z * heap Palloc.palloc :=
  match malloc 1 100 kernel_heap with Ok r => r | Err _ => (NULL, kernel_heap) end.

Example malloc_100 : malloc 1 100 kernel_heap = Ok one_block ∧ one_block.1 = 3222286348 ∧ granted 100 = 128.
Proof.
  assert (one_block.1 = 3222286348) as Hp by (vm_compute; reflexivity). split; [|split; [exact Hp | done]].
  revert Hp. unfold one_block. destruct (malloc 1 100 kernel_heap) as [r|]; [reflexivity|].
  cbn [fst]. unfold NULL. lia.
Qed.

Lemma one_block_reachable : reachable one_block.2 {[one_block.1 := 128]}.
Proof.
  destruct malloc_100 as (E & Hp & Hg). destruct one_block as [p h]. cbn [fst snd] in *.
  pose proof (reach_op kernel_heap ∅ 1 (OMalloc 100) p h kernel_heap_reachable) as Hr.
  unfold after, request in Hr. rewrite Hg, Hp in Hr. rewrite Hp. apply Hr; [|by rewrite <- Hp].
  split_and!; [simpl; lia | unfold LIMIT; simpl; lia | by left | done].
Qed.

(** ** Claims *)

(** C33: The kernel heap serves any sequence of requests.  After any calls of
    [malloc], [calloc], [realloc] and [free], with requests below the limit and
    pointers that are null or in use, the blocks in use do not overlap, and the
    next request returns: a null pointer only if nothing was asked for or the
    page allocator has no run of pages, otherwise a block that is large enough
    and overlaps no block in use; other blocks keep their contents; [calloc]
    gives zeroes; [realloc] keeps the contents up to the smaller size. *)
Theorem heap_serves_requests {St} `{PageRuns St} (h : heap St) A :
  reachable h A →
  (∀ p sz p' sz', A !! p = Some sz → A !! p' = Some sz' → p ≠ p' → p + sz ≤ p' ∨ p' + sz' ≤ p)
  ∧ ∀ cur o, allowed A o → ∃ r h', run_op cur o h = Ok (r, h') ∧ serves o A (bytes h) r (bytes h')
      ∧ (r = NULL → request o = 0 ∨ refused h) ∧ reachable h' (after o r A).
Proof.
  intros Hr. pose proof (reachable_good h A Hr) as Hg. split; [intros ????; by apply (live_disjoint h A), Hg|].
  intros cur o Ho. pose proof (run_op_answers h A cur o Hg Ho) as Hw. apply wp_Ok in Hw as (r & h' & E & _ & Hs & Hn).
  exists r, h'. split_and!; try done. by eapply reach_op.
Qed.

Lemma heap_serves_requests_witness :
  ∃ r h', realloc 1 one_block.1 5000 one_block.2 = Ok (r, h')
    ∧ serves (ORealloc one_block.1 5000) {[one_block.1 := 128]} (bytes one_block.2) r (bytes h').
Proof.
  destruct (heap_serves_requests one_block.2 {[one_block.1 := 128]} one_block_reachable) as [_ Hop].
  destruct (Hop 1 (ORealloc one_block.1 5000)) as (r & h' & E & Hs & _).
  - split_and!; [simpl; lia | unfold LIMIT; simpl; lia | right; simpl; by rewrite lookup_singleton_eq | done].
  - exists r, h'. split; [exact E | exact Hs].
Defined.

(** C36: Very large requests wrap around.  The number of pages of a request
    of more than 2^32 - 12 bytes overflows, and [malloc] gives the block of a
    request for 4084 bytes; [calloc] gives the block of the product modulo
    2^32 whenever that is not smaller than a factor. *)
Theorem large_requests_wrap {St} `{PageRuns St} (h : heap St) A cur size a b :
  good h A → 2^32 - 12 < size < 2^32 → 0 < a ≤ u32 (a * b) → b ≤ u32 (a * b) →
  malloc cur size h = malloc cur 4084 h ∧ calloc cur a b h = calloc cur (u32 (a * b)) 1 h.
Proof.
  intros [Hh _] Hs Ha Hb. split.
  - unfold malloc. rewrite (proj2 (Z.eqb_neq size 0)) by lia. change (4084 =? 0) with false.
    unfold mbind, M_bind, gets. cbn beta iota. rewrite !(find_desc_class h A) by done.
    assert (class_of size = None) as ->.
    { destruct (class_of size) as [i|] eqn:E; [|done]. destruct (class_of_Some _ _ E) as [Hi ?].
      destruct (bs_facts i Hi) as (? & _). lia. }
    change (class_of 4084) with (@None nat). cbn iota.
    assert (page_cnt size = page_cnt 4084) as Heq; [|unfold page_cnt in Heq; by rewrite Heq].
    change (page_cnt 4084) with 1. unfold page_cnt, ARENA_SIZE. rewrite PGSIZE_eq.
    assert (u32 (size + 12) = size + 12 - 2^32) as -> by (unfold u32; div_lia). rewrite u32_small by lia. div_lia.
  - unfold calloc. rewrite Z.mul_1_r. rewrite (u32_small (u32 _)) by apply u32_range.
    rewrite (proj2 (Z.ltb_ge (u32 (a * b)) a)), (proj2 (Z.ltb_ge (u32 (a * b)) b)) by lia.
    rewrite (proj2 (Z.ltb_ge (u32 (a * b)) (u32 (a * b)))), (proj2 (Z.ltb_ge (u32 (a * b)) 1)) by lia. done.
Qed.

Lemma large_requests_wrap_witness :
  malloc 1 4294967295 kernel_heap = malloc 1 4084 kernel_heap
  ∧ calloc 1 65537 65537 kernel_heap = calloc 1 131073 1 kernel_heap.
Proof.
  apply (large_requests_wrap kernel_heap ∅ 1 4294967295 65537 65537).
  - apply reachable_good, kernel_heap_reachable.
  - lia.
  - by vm_compute.
  - by vm_compute.
Defined.
End MallocProps.
