(* ===== verification/Pagedir.v ===== *)
(** * Page tables: threads/pte.h, userprog/pagedir.c and paging_init of threads/init.c

    Page directories and page tables are pages of kernel memory.  The page
    allocator is an interface.  The state has the register CR3 and the
    translation lookaside buffer, which a write to CR3 clears. *)
From stdpp Require Import base gmap list list_numbers.
From Stdlib Require Import ZArith Lia.
From S2P Require Import Prelude Vaddr Bitmap Palloc Memory.

(** ** The interface of the page allocator

    Both pools, a page at a time: a page that was not in use, or a null
    pointer.  Pages in use are pages of RAM. *)
Class PagePools (St : Type) := {
  pp_ram : Z;
  pp_inv : St → Prop;
  pp_used : St → Z → Prop;
  pp_get : bool → M St Z;
  pp_free : Z → M St unit;
  pp_ram_range : 0 ≤ pp_ram ≤ 2^18;
  pp_used_page s p :
    pp_inv s → pp_used s p → Vaddr.PHYS_BASE < p ∧ p mod 4096 = 0 ∧ p + 4096 ≤ Vaddr.PHYS_BASE + 4096 * pp_ram;
  pp_get_ok s user :
    pp_inv s →
    wp (pp_get user) (λ p s', pp_inv s'
      ∧ ((p = 0 ∧ ∀ q, pp_used s' q ↔ pp_used s q)
         ∨ (¬ pp_used s p ∧ ∀ q, pp_used s' q ↔ pp_used s q ∨ q = p))) s;
  pp_free_ok s p :
    pp_inv s → pp_used s p →
    wp (pp_free p) (λ _ s', pp_inv s' ∧ ∀ q, pp_used s' q ↔ pp_used s q ∧ q ≠ p) s
}.

Module Pagedir.
Import Vaddr Memory.

Definition NULL : Z := 0.

(** ** threads/pte.h *)

Definition PTSHIFT : Z := PGBITS.
Definition PTBITS : Z := 10.
Definition PTMASK : Z := BITMASK PTSHIFT PTBITS.
Definition PDSHIFT : Z := PTSHIFT + PTBITS.
Definition PTE_ADDR : Z := 4294963200.
Definition PTE_P : Z := 1.
Definition PTE_W : Z := 2.
Definition PTE_U : Z := 4.
Definition PTE_A : Z := 32.
Definition PTE_D : Z := 64.

Definition pt_no (va : Z) : Z := Z.shiftr (Z.land va PTMASK) PTSHIFT.
Definition pd_no (va : Z) : Z := Z.shiftr va PDSHIFT.

Definition pde_create {S} (pt : Z) : M S Z :=
  ASSERT (pg_ofs pt =? 0) ;;
  p ← vtop pt;
  mret (Z.lor (Z.lor (Z.lor p PTE_U) PTE_P) PTE_W).
Definition pde_get_pt {S} (pde : Z) : M S Z :=
  ASSERT (negb (Z.land pde PTE_P =? 0)) ;; ptov (Z.land pde PTE_ADDR).
Definition pte_create_kernel {S} (page : Z) (writable : bool) : M S Z :=
  ASSERT (pg_ofs page =? 0) ;;
  p ← vtop page;
  mret (Z.lor (Z.lor p PTE_P) (if writable then PTE_W else 0)).
Definition pte_create_user {S} (page : Z) (writable : bool) : M S Z :=
  e ← pte_create_kernel page writable; mret (Z.lor e PTE_U).
Definition pte_get_page {S} (pte : Z) : M S Z := ptov (Z.land pte PTE_ADDR).

(** ** State *)

Record vm (St : Type) := mk_vm {
  pages : St;
  mem : Z → Z;
  init_page_dir : Z;
  cr3 : Z;
  (** Cached page table entries, by page number. *)
  tlb : gmap Z Z
}.
Arguments mk_vm {St}. Arguments pages {St}. Arguments mem {St}. Arguments init_page_dir {St}.
Arguments cr3 {St}. Arguments tlb {St}.

Section pagedir.
Context {St : Type} `{PagePools St}.

Definition set_pages (s : St) (v : vm St) : vm St := mk_vm s (mem v) (init_page_dir v) (cr3 v) (tlb v).
Definition set_mem (m : Z → Z) (v : vm St) : vm St := mk_vm (pages v) m (init_page_dir v) (cr3 v) (tlb v).
Definition set_init_page_dir (p : Z) (v : vm St) : vm St := mk_vm (pages v) (mem v) p (cr3 v) (tlb v).
Definition load_cr3 (p : Z) (v : vm St) : vm St := mk_vm (pages v) (mem v) (init_page_dir v) p ∅.

Definition load (a : Z) : M (vm St) Z := gets (λ v, load32 (mem v) a).
Definition store (a x : Z) : M (vm St) unit := modify (λ v, set_mem (store32 a x (mem v)) v).

(** ** Pages

    [palloc_get_page] and [palloc_free_page], with their effects on memory. *)
Definition palloc_get_page (flags : Z) : M (vm St) Z :=
  p ← zoom pages set_pages (pp_get (Palloc.has flags Palloc.PAL_USER));
  (if p =? NULL then
     if Palloc.has flags Palloc.PAL_ASSERT then fail Panic else mret tt
   else if Palloc.has flags Palloc.PAL_ZERO then modify (λ v, set_mem (fill p 0 PGSIZE (mem v)) v)
   else mret tt) ;;
  mret p.
Definition palloc_free_page (p : Z) : M (vm St) unit :=
  ASSERT (pg_ofs p =? 0) ;;
  if p =? NULL then mret tt else
  modify (λ v, set_mem (fill p 204 PGSIZE (mem v)) v) ;;
  zoom pages set_pages (pp_free p).

(** ** userprog/pagedir.c *)

Definition pagedir_create : M (vm St) Z :=
  pd ← palloc_get_page 0;
  (if pd =? NULL then mret tt
   else modify (λ v, set_mem (copy pd (init_page_dir v) PGSIZE (mem v)) v)) ;;
  mret pd.

Definition pagedir_destroy (pd : Z) : M (vm St) unit :=
  if pd =? NULL then mret tt else
  init ← gets init_page_dir;
  ASSERT (negb (pd =? init)) ;;
  for_loop (Z.to_nat (pd_no PHYS_BASE)) 0 (λ i,
    pde ← load (pd + 4 * i);
    if Z.land pde PTE_P =? 0 then mret tt else
    pt ← pde_get_pt pde;
    for_loop (Z.to_nat (PGSIZE / 4)) 0 (λ j,
      pte ← load (pt + 4 * j);
      if Z.land pte PTE_P =? 0 then mret tt else
      p ← pte_get_page pte;
      palloc_free_page p) ;;
    palloc_free_page pt) ;;
  palloc_free_page pd.

Definition lookup_page (pd vaddr : Z) (create : bool) : M (vm St) Z :=
  ASSERT (negb (pd =? NULL)) ;;
  ASSERT (negb create || is_user_vaddr vaddr) ;;
  let pde := pd + 4 * pd_no vaddr in
  e ← load pde;
  ok ← (if e =? 0 then
          if create then
            pt ← palloc_get_page Palloc.PAL_ZERO;
            if pt =? NULL then mret false else
            x ← pde_create pt;
            store pde x ;; mret true
          else mret false
        else mret true);
  if negb ok then mret NULL else
  e ← load pde;
  pt ← pde_get_pt e;
  mret (pt + 4 * pt_no vaddr).

Definition pagedir_activate (pd : Z) : M (vm St) unit :=
  init ← gets init_page_dir;
  p ← vtop (if pd =? NULL then init else pd);
  modify (load_cr3 p).
Definition active_pd : M (vm St) Z := p ← gets cr3; ptov p.
Definition invalidate_pagedir (pd : Z) : M (vm St) unit :=
  a ← active_pd; if a =? pd then pagedir_activate pd else mret tt.

Definition pagedir_set_page (pd upage kpage : Z) (writable : bool) : M (vm St) bool :=
  ASSERT (pg_ofs upage =? 0) ;;
  ASSERT (pg_ofs kpage =? 0) ;;
  ASSERT (is_user_vaddr upage) ;;
  p ← vtop kpage;
  ASSERT (Z.shiftr p PTSHIFT <? pp_ram) ;;
  init ← gets init_page_dir;
  ASSERT (negb (pd =? init)) ;;
  pte ← lookup_page pd upage true;
  if pte =? NULL then mret false else
  e ← load pte;
  ASSERT (Z.land e PTE_P =? 0) ;;
  x ← pte_create_user kpage writable;
  store pte x ;; mret true.

Definition pagedir_get_page (pd uaddr : Z) : M (vm St) Z :=
  ASSERT (is_user_vaddr uaddr) ;;
  pte ← lookup_page pd uaddr false;
  if pte =? NULL then mret NULL else
  e ← load pte;
  if Z.land e PTE_P =? 0 then mret NULL else
  p ← pte_get_page e;
  mret (p + pg_ofs uaddr).

Definition pagedir_clear_page (pd upage : Z) : M (vm St) unit :=
  ASSERT (pg_ofs upage =? 0) ;;
  ASSERT (is_user_vaddr upage) ;;
  pte ← lookup_page pd upage false;
  if pte =? NULL then mret tt else
  e ← load pte;
  if Z.land e PTE_P =? 0 then mret tt else
  store pte (Z.land e (u32 (Z.lnot PTE_P))) ;;
  invalidate_pagedir pd.

(** The tests and the changes of the dirty and the accessed bit. *)
Definition is_bit (bit pd vpage : Z) : M (vm St) bool :=
  pte ← lookup_page pd vpage false;
  if pte =? NULL then mret false else
  e ← load pte; mret (negb (Z.land e bit =? 0)).
Definition set_bit (bit pd vpage : Z) (value : bool) : M (vm St) unit :=
  pte ← lookup_page pd vpage false;
  if pte =? NULL then mret tt else
  e ← load pte;
  if value then store pte (Z.lor e bit)
  else store pte (Z.land e (u32 (Z.lnot bit))) ;; invalidate_pagedir pd.
Definition pagedir_is_dirty : Z → Z → M (vm St) bool := is_bit PTE_D.
Definition pagedir_set_dirty : Z → Z → bool → M (vm St) unit := set_bit PTE_D.
Definition pagedir_is_accessed : Z → Z → M (vm St) bool := is_bit PTE_A.
Definition pagedir_set_accessed : Z → Z → bool → M (vm St) unit := set_bit PTE_A.

(** ** paging_init

    [start] and [end_text] are the addresses [&_start] and [&_end_kernel_text];
    the loop has the table [pt] of the last page as its state. *)
Definition map_page (start end_text pd : Z) : Z * Z → M (vm St) (Z * Z + unit) := λ '(page, pt),
  if page <? pp_ram then
    vaddr ← ptov (page * PGSIZE);
    let in_kernel_text := (start <=? vaddr) && (vaddr <? end_text) in
    e ← load (pd + 4 * pd_no vaddr);
    pt ← (if e =? 0 then
            pt ← palloc_get_page (Z.lor Palloc.PAL_ASSERT Palloc.PAL_ZERO);
            x ← pde_create pt;
            store (pd + 4 * pd_no vaddr) x ;; mret pt
          else mret pt);
    x ← pte_create_kernel vaddr (negb in_kernel_text);
    store (pt + 4 * pt_no vaddr) x ;;
    mret (inl (page + 1, pt))
  else mret (inr tt).
Definition paging_init (start end_text : Z) : M (vm St) unit :=
  pd ← palloc_get_page (Z.lor Palloc.PAL_ASSERT Palloc.PAL_ZERO);
  modify (set_init_page_dir pd) ;;
  loop (Datatypes.S (Z.to_nat pp_ram)) (map_page start end_text pd) (0, NULL) ;;
  p ← vtop pd;
  modify (load_cr3 p).
End pagedir.
End Pagedir.
