(* ===== verification/PagedirInv.v ===== *)
(** * Address spaces

    What a page directory means: the page table entry of every user page, and
    the invariant of the system of all page directories. *)
From stdpp Require Import base gmap list list_numbers.
From Stdlib Require Import ZArith Lia.
From S2P Require Import Prelude Vaddr Bitmap Palloc Memory Pagedir.

Module PagedirInv.
Import Vaddr Memory Pagedir.

(** ** Entries *)

Lemma pd_no_eq va : pd_no va = va / 4194304.
Proof. unfold pd_no. change PDSHIFT with 22. by rewrite Z.shiftr_div_pow2. Qed.
Lemma pt_no_eq va : 0 ≤ va < 2^32 → pt_no va = va / 4096 mod 1024.
Proof.
  intros Hva. unfold pt_no. change PTSHIFT with 12. change PTMASK with (Z.shiftl (Z.ones 10) 12).
  rewrite Z.shiftr_land, Z.shiftr_shiftl_l by lia. change (12 - 12) with 0. rewrite Z.shiftl_0_r.
  rewrite Z.land_ones, Z.shiftr_div_pow2 by lia. done.
Qed.

(** The kernel address of the page that an entry points to. *)
Definition frame (e : Z) : Z := PHYS_BASE + (e - e mod 4096).
Definition present (e : Z) : Prop := e mod 2 = 1.

Lemma land_addr e : 0 ≤ e < 2^32 → Z.land e PTE_ADDR = e - e mod 4096.
Proof. intros He. change PTE_ADDR with (u32 (Z.lnot PGMASK)). rewrite land_page_mask by done. div_lia. Qed.
Lemma land_P e : Z.land e PTE_P = e mod 2.
Proof. change PTE_P with (Z.ones 1). by rewrite Z.land_ones. Qed.

(** Flags are added to a page address without a carry. *)
Lemma lor_flags a fl : 0 ≤ a → a mod 4096 = 0 → 0 ≤ fl < 4096 → Z.lor a fl = a + fl.
Proof.
  intros Ha Hm Hf. assert (Z.land a fl = 0) as Hl.
  { apply Z.bits_inj'. intros k Hk. rewrite Z.land_spec, Z.testbit_0_l. destruct (decide (k < 12)).
    - assert (a = a / 2^12 * 2^12) as -> by (change (2^12) with 4096; div_lia).
      rewrite Z.mul_pow2_bits_low by lia. done.
    - destruct (decide (fl = 0)) as [->|]; [by rewrite Z.testbit_0_l, andb_false_r|].
      rewrite (Z.bits_above_log2 fl), andb_false_r; [done | lia|].
      assert (Z.log2 fl < 12); [|lia]. apply Z.log2_lt_pow2; lia. }
  rewrite Z.add_nocarry_lxor by done. symmetry. by apply Z.lxor_lor.
Qed.

Lemma wp_vtop {S} p (Q : Z → S → Prop) s : PHYS_BASE ≤ p < 2^32 → Q (p - PHYS_BASE) s → wp (vtop p) Q s.
Proof.
  intros Hp HQ. unfold vtop. apply wp_bind, wp_ASSERT; [apply Z.leb_le; lia|]. apply wp_ret.
  unfold PHYS_BASE in *. by rewrite u32_small by lia.
Qed.
Lemma wp_ptov {S} p (Q : Z → S → Prop) s : 0 ≤ p < 2^30 → Q (PHYS_BASE + p) s → wp (ptov p) Q s.
Proof.
  intros Hp HQ. unfold ptov. apply wp_bind, wp_ASSERT; [apply Z.ltb_lt; unfold PHYS_BASE; lia|]. apply wp_ret.
  unfold PHYS_BASE in *. rewrite u32_small by lia. by rewrite Z.add_comm.
Qed.

(** A page of RAM. *)
Definition ram_page (p : Z) : Prop := PHYS_BASE < p ∧ p mod 4096 = 0 ∧ p + 4096 ≤ 2^32.

Lemma pg_ofs_page p : ram_page p → pg_ofs p =? 0 = true.
Proof. intros (_ & Hm & _). rewrite pg_ofs_eq, PGSIZE_eq, Hm. done. Qed.

Lemma wp_pde_create {S} pt (Q : Z → S → Prop) s :
  ram_page pt → Q (pt - PHYS_BASE + 7) s → wp (pde_create pt) Q s.
Proof.
  intros Hp HQ. pose proof Hp as (H1 & H2 & H3). unfold pde_create.
  apply wp_bind, wp_ASSERT; [by apply pg_ofs_page|]. apply wp_bind, wp_vtop; [lia|]. apply wp_ret.
  rewrite <- !Z.lor_assoc. change (Z.lor PTE_U (Z.lor PTE_P PTE_W)) with 7.
  rewrite lor_flags; [done | unfold PHYS_BASE in *; lia | unfold PHYS_BASE in *; div_lia | lia].
Qed.

Lemma frame_entry pt fl : pt mod 4096 = 0 → 0 ≤ fl < 4096 → frame (pt - PHYS_BASE + fl) = pt.
Proof. intros Hm Hf. unfold frame, PHYS_BASE in *. div_lia. Qed.
Lemma present_entry pt fl : pt mod 4096 = 0 → present (pt - PHYS_BASE + fl) ↔ fl mod 2 = 1.
Proof. intros Hm. unfold present, PHYS_BASE in *. div_lia. Qed.

Lemma wp_pde_get_pt {S} e (Q : Z → S → Prop) s :
  0 ≤ e < 2^30 → present e → Q (frame e) s → wp (pde_get_pt e) Q s.
Proof.
  intros He Hp HQ. unfold pde_get_pt. apply wp_bind, wp_ASSERT.
  { rewrite land_P, Hp. done. }
  rewrite land_addr by lia. apply wp_ptov; [div_lia | done].
Qed.
Lemma wp_pte_get_page {S} e (Q : Z → S → Prop) s : 0 ≤ e < 2^30 → Q (frame e) s → wp (pte_get_page e) Q s.
Proof. intros He HQ. unfold pte_get_page. rewrite land_addr by lia. apply wp_ptov; [div_lia | done]. Qed.

(** Clearing and setting flags. *)
Lemma land_not e b : 0 ≤ e < 2^32 → 0 ≤ b → Z.land e (u32 (Z.lnot b)) = Z.ldiff e b.
Proof.
  intros He Hb. apply Z.bits_inj'. intros k Hk. rewrite Z.land_spec, Z.ldiff_spec. destruct (decide (k < 32)).
  - unfold u32. rewrite Z.mod_pow2_bits_low, Z.lnot_spec by lia. done.
  - rewrite (Z.bits_above_log2 e); [done | lia|]. destruct (decide (e = 0)) as [->|]; [simpl; lia|].
    assert (Z.log2 e < 32); [|lia]. apply Z.log2_lt_pow2; lia.
Qed.
Lemma frame_shift e : frame e = PHYS_BASE + 4096 * Z.shiftr e 12.
Proof. unfold frame. rewrite Z.shiftr_div_pow2 by lia. change (2^12) with 4096. div_lia. Qed.
Lemma present_bit e : present e ↔ Z.testbit e 0 = true.
Proof. unfold present. rewrite Z.bit0_odd, Zmod_odd. destruct (Z.odd e); done. Qed.

Lemma shiftr_flags b : 0 ≤ b < 4096 → Z.shiftr b 12 = 0.
Proof. intros Hb. rewrite Z.shiftr_div_pow2 by lia. change (2^12) with 4096. div_lia. Qed.
Lemma frame_ldiff e b : 0 ≤ b < 4096 → frame (Z.ldiff e b) = frame e.
Proof. intros Hb. rewrite !frame_shift, Z.shiftr_ldiff, (shiftr_flags b), Z.ldiff_0_r by done. done. Qed.
Lemma frame_lor e b : 0 ≤ b < 4096 → frame (Z.lor e b) = frame e.
Proof. intros Hb. rewrite !frame_shift, Z.shiftr_lor, (shiftr_flags b), Z.lor_0_r by done. done. Qed.
Lemma frame_range e x : 0 ≤ e < 2^30 → frame x = frame e → 0 ≤ x < 2^30.
Proof. unfold frame. intros He Hx. div_lia. Qed.

(** The entry that maps the frame [kpage] for a user process. *)
Definition user_pte (kpage : Z) (writable : bool) : Z := kpage - PHYS_BASE + (if writable then 7 else 5).

Lemma wp_pte_create_user {S} kpage w (Q : Z → S → Prop) s :
  ram_page kpage → Q (user_pte kpage w) s → wp (pte_create_user kpage w) Q s.
Proof.
  intros Hp HQ. pose proof Hp as (H1 & H2 & H3). unfold pte_create_user, pte_create_kernel.
  apply wp_bind, wp_bind, wp_ASSERT; [by apply pg_ofs_page|]. apply wp_bind, wp_vtop; [lia|]. apply wp_ret, wp_ret.
  rewrite <- !Z.lor_assoc. replace (Z.lor PTE_P (Z.lor (if w then PTE_W else 0) PTE_U)) with (if w then 7 else 5) by (by destruct w).
  rewrite lor_flags; [done | unfold PHYS_BASE in *; lia | unfold PHYS_BASE in *; div_lia | destruct w; lia].
Qed.

(** ** Address spaces *)

Definition pde (m : Z → Z) (pd i : Z) : Z := load32 m (pd + 4 * i).
Definition pte (m : Z → Z) (pd n : Z) : Z :=
  let e := pde m pd (n / 1024) in
  if e =? 0 then 0 else load32 m (frame e + 4 * (n mod 1024)).

(** The number of user pages, and of page directory entries for them. *)
Definition USER_PAGES : Z := 786432.
Definition USER_PDES : Z := 768.

(** The pages of a page directory: itself and its page tables. *)
Definition footprint (m : Z → Z) (pd q : Z) : Prop :=
  q = pd ∨ ∃ i, 0 ≤ i < USER_PDES ∧ pde m pd i ≠ 0 ∧ q = frame (pde m pd i).

(** Two memories agree on a page. *)
Definition same_on (q : Z) (m m' : Z → Z) : Prop := ∀ k, 0 ≤ k < 4096 → m' (q + k) = m (q + k).

Lemma pde_same m m' pd i : same_on pd m m' → 0 ≤ i < 1024 → pde m' pd i = pde m pd i.
Proof.
  intros Hs Hi. apply load32_ext. intros k Hk. replace (pd + 4 * i + k) with (pd + (4 * i + k)) by lia. apply Hs. lia.
Qed.
Lemma pte_same m m' pd n :
  same_on pd m m' → 0 ≤ n < USER_PAGES →
  (pde m pd (n / 1024) ≠ 0 → same_on (frame (pde m pd (n / 1024))) m m') → pte m' pd n = pte m pd n.
Proof.
  intros Hs Hn Ht. unfold pte, USER_PAGES in *. rewrite (pde_same m m') by (done || div_lia).
  destruct (Z.eqb_spec (pde m pd (n / 1024)) 0) as [|Hne]; [done|]. apply load32_ext. intros k Hk.
  rewrite <- Z.add_assoc. apply Ht; [done|]. div_lia.
Qed.

Section space.
Context {St : Type} `{PagePools St}.
Implicit Types (s : St) (m : Z → Z) (f : Z → Z).

(** In memory [m] the page directory [pd] has the entries [f]. *)
Definition space s m (pd : Z) f : Prop :=
  pp_used s pd
  ∧ (∀ i, 0 ≤ i < USER_PDES → pde m pd i = 0
       ∨ (pde m pd i mod 8 = 7 ∧ pde m pd i < 2^30 ∧ pp_used s (frame (pde m pd i)) ∧ frame (pde m pd i) ≠ pd))
  ∧ (∀ i j, 0 ≤ i < USER_PDES → 0 ≤ j < USER_PDES → pde m pd i ≠ 0 → pde m pd j ≠ 0 →
       frame (pde m pd i) = frame (pde m pd j) → i = j)
  ∧ ∀ n, 0 ≤ n < USER_PAGES → f n = pte m pd n.

Lemma used_ram s p : pp_inv s → pp_used s p → ram_page p.
Proof.
  intros Hi Hu. destruct (pp_used_page s p Hi Hu) as (? & ? & ?). pose proof pp_ram_range.
  split_and!; try done. unfold PHYS_BASE in *. lia.
Qed.

Lemma footprint_used s m pd f q : space s m pd f → footprint m pd q → pp_used s q.
Proof.
  intros (Hpd & Hp & _) [->|(i & Hi & Hne & ->)]; [done|]. by destruct (Hp i Hi) as [?|(_ & _ & ? & _)].
Qed.

Lemma footprint_same m m' pd q :
  same_on pd m m' → footprint m' pd q ↔ footprint m pd q.
Proof.
  intros Hs. unfold footprint, USER_PDES. split; (intros [?|(i & Hi & Hne & Hq)]; [by left | right; exists i]);
    rewrite (pde_same m m' pd i) in * by (done || lia); done.
Qed.

Lemma space_frame s s' m m' pd f :
  space s m pd f → (∀ q, footprint m pd q → same_on q m m') → (∀ q, footprint m pd q → pp_used s' q) →
  space s' m' pd f.
Proof.
  intros Hsp Hm Hu. pose proof Hsp as (Hpd & Hp & Hinj & Hf).
  assert (same_on pd m m') as Hs by (apply Hm; by left).
  assert (∀ i, 0 ≤ i < USER_PDES → pde m' pd i = pde m pd i) as He.
  { intros i Hi. apply pde_same; [done | unfold USER_PDES in Hi; lia]. }
  split_and!.
  - apply Hu. by left.
  - intros i Hi. rewrite He by done. destruct (Hp i Hi) as [?|(H1 & H2 & _ & H4)]; [by left | right].
    split_and!; try done. apply Hu. right. exists i. split; [done|]. split; [|done]. intros E. by rewrite E in H1.
  - intros i j Hi Hj. rewrite !He by done. by apply Hinj.
  - intros n Hn. rewrite Hf by done. symmetry. apply pte_same; try done. intros Hne. apply Hm. right.
    exists (n / 1024). split; [unfold USER_PAGES, USER_PDES in *; div_lia | done].
Qed.

(** Pages are apart. *)
Lemma page_apart q q' a : q mod 4096 = 0 → q' mod 4096 = 0 → q ≠ q' → q ≤ a < q + 4096 → ¬ (q' ≤ a < q' + 4096).
Proof. intros H1 H2 Hne Ha Ha'. apply Hne. div_lia. Qed.
Lemma same_on_store q q' m a x :
  q mod 4096 = 0 → q' mod 4096 = 0 → q ≠ q' → q' ≤ a → a + 4 ≤ q' + 4096 → same_on q m (store32 a x m).
Proof.
  intros H1 H2 Hne Ha Hb k Hk. apply store32_out. intros Hin.
  apply (page_apart q q' (q + k) H1 H2 Hne); lia.
Qed.
Lemma same_on_fill q q' m v : q mod 4096 = 0 → q' mod 4096 = 0 → q ≠ q' → same_on q m (fill q' v 4096 m).
Proof. intros H1 H2 Hne k Hk. apply fill_out. apply (page_apart q q'); try done. lia. Qed.
Lemma same_on_copy q q' m src : q mod 4096 = 0 → q' mod 4096 = 0 → q ≠ q' → same_on q m (copy q' src 4096 m).
Proof. intros H1 H2 Hne k Hk. apply copy_out. apply (page_apart q q'); try done. lia. Qed.
Lemma same_on_trans q m m' m'' : same_on q m m' → same_on q m' m'' → same_on q m m''.
Proof. intros H1 H2 k Hk. by rewrite H2, H1. Qed.

(** ** The system of all address spaces *)

Definition upd f (n x : Z) : Z → Z := λ k, if k =? n then x else f k.

(** The page directories in use and their entries; the kernel part of all of
    them is that of [init_page_dir]. *)
Definition tables_ok (v : vm St) (S : gmap Z (Z → Z)) : Prop :=
  pp_inv (pages v) ∧ is_bytes (mem v)
  ∧ (∀ pd f, S !! pd = Some f → space (pages v) (mem v) pd f)
  ∧ (∀ pd f pd' f' q, S !! pd = Some f → S !! pd' = Some f' →
       footprint (mem v) pd q → footprint (mem v) pd' q → pd = pd')
  ∧ (is_Some (S !! init_page_dir v) ∧ ∀ i, 0 ≤ i < USER_PDES → pde (mem v) (init_page_dir v) i = 0)
  ∧ ∀ pd f i, S !! pd = Some f → USER_PDES ≤ i < 1024 → pde (mem v) pd i = pde (mem v) (init_page_dir v) i.

(** [q] is a page in use that no page directory refers to. *)
Definition unmapped (v : vm St) (S : gmap Z (Z → Z)) (q : Z) : Prop :=
  pp_used (pages v) q
  ∧ (∀ pd f, S !! pd = Some f → ¬ footprint (mem v) pd q)
  ∧ ∀ pd f n, S !! pd = Some f → 0 ≤ n < USER_PAGES → present (f n) → frame (f n) ≠ q.

(** The mapped pages are in use, each is mapped once, and none is part of
    the page tables. *)
Definition data_ok (v : vm St) (S : gmap Z (Z → Z)) : Prop :=
  (∀ pd f n, S !! pd = Some f → 0 ≤ n < USER_PAGES → present (f n) →
     0 ≤ f n < 2^30 ∧ pp_used (pages v) (frame (f n))
     ∧ ∀ pd' f', S !! pd' = Some f' → ¬ footprint (mem v) pd' (frame (f n)))
  ∧ ∀ pd f n pd' f' n', S !! pd = Some f → S !! pd' = Some f' → 0 ≤ n < USER_PAGES → 0 ≤ n' < USER_PAGES →
      present (f n) → present (f' n') → frame (f n) = frame (f' n') → pd = pd' ∧ n = n'.

(** A cached entry agrees with the entry [c] in memory, whose accessed and
    dirty bits may have been set since. *)
Definition cached (e c : Z) : Prop :=
  present c ∧ ∀ k, 0 ≤ k < 32 → if decide (k = 5 ∨ k = 6) then Z.testbit e k = true → Z.testbit c k = true
                              else Z.testbit e k = Z.testbit c k.
Definition tlb_ok (v : vm St) (S : gmap Z (Z → Z)) : Prop :=
  0 ≤ cr3 v < 2^30 ∧ ∃ f, S !! (PHYS_BASE + cr3 v) = Some f
    ∧ ∀ n e, 0 ≤ n < USER_PAGES → tlb v !! n = Some e → cached e (f n).

Definition vm_ok (v : vm St) (S : gmap Z (Z → Z)) : Prop := tables_ok v S ∧ data_ok v S ∧ tlb_ok v S.

(** A step that changes the tables of [pd] only, and takes unused pages for them. *)
Lemma tables_step v S pd f f' s' m' c t :
  tables_ok v S → S !! pd = Some f → pp_inv s' → is_bytes m' → space s' m' pd f' →
  (∀ q, footprint m' pd q → footprint (mem v) pd q ∨ ¬ pp_used (pages v) q) →
  (∀ q, pp_used (pages v) q → ¬ footprint (mem v) pd q → same_on q (mem v) m') →
  (∀ q, pp_used (pages v) q → pp_used s' q) →
  (∀ i, USER_PDES ≤ i < 1024 → pde m' pd i = pde (mem v) pd i) →
  (pd = init_page_dir v → ∀ i, 0 ≤ i < USER_PDES → pde m' pd i = pde (mem v) pd i) →
  tables_ok (mk_vm s' m' (init_page_dir v) c t) (<[pd := f']> S).
Proof.
  intros (Hp & Hby & Hsp & Hdis & [Hi Hi0] & Hk) E Hp' Hby' Hsp' Hfp Hm Hu Hkpd Hinit.
  assert (∀ pd2 f2 q, S !! pd2 = Some f2 → pd2 ≠ pd → footprint (mem v) pd2 q → same_on q (mem v) m') as Hm2.
  { intros pd2 f2 q E2 Hne Hq. apply Hm; [by apply (footprint_used (pages v) (mem v) pd2 f2); [apply Hsp|]|].
    intros Hq'. apply Hne. by apply (Hdis pd2 f2 pd f q). }
  assert (∀ pd2 f2 q, S !! pd2 = Some f2 → footprint m' pd2 q → footprint (mem v) pd2 q ∨ ¬ pp_used (pages v) q) as Hfp2.
  { intros pd2 f2 q E2 Hq. destruct (decide (pd2 = pd)) as [->|Hne]; [by apply Hfp|]. left.
    apply (footprint_same (mem v) m' pd2 q); [|done]. apply (Hm2 pd2 f2); try done. by left. }
  assert (∀ pd2 f2, <[pd := f']> S !! pd2 = Some f2 → is_Some (S !! pd2)) as Hin.
  { intros pd2 f2 [[<- _]|[_ ?]]%lookup_insert_Some; eauto. }
  assert (∀ i pd2, is_Some (S !! pd2) → 0 ≤ i < 1024 → USER_PDES ≤ i ∨ pd2 = init_page_dir v →
    pde m' pd2 i = pde (mem v) pd2 i) as Hpde.
  { intros i pd2 [f2 E2] Hi2 Hor. destruct (decide (pd2 = pd)) as [->|Hne].
    - destruct (decide (USER_PDES ≤ i)); [apply Hkpd; lia | apply Hinit; [by destruct Hor|]; lia].
    - apply pde_same; [|done]. apply (Hm2 pd2 f2); try done. by left. }
  split_and!; simpl; try done.
  - intros pd2 f2 [[<- <-]|[Hne E2]]%lookup_insert_Some; [done|]. apply (space_frame (pages v) s' (mem v) m').
    + by apply Hsp.
    + intros q Hq. by apply (Hm2 pd2 f2).
    + intros q Hq. apply Hu. by apply (footprint_used (pages v) (mem v) pd2 f2); [apply Hsp|].
  - intros pd1 f1 pd2 f2 q [g1 E1]%Hin [g2 E2]%Hin Hq1 Hq2. destruct (decide (pd1 = pd2)) as [|Hne]; [done|].
    destruct (decide (pd1 = pd)) as [->|Hn1].
    + pose proof Hq2 as Hq2'. apply (footprint_same (mem v) m' pd2) in Hq2; [|apply (Hm2 pd2 g2); try done; by left].
      destruct (Hfp q Hq1) as [Hq|Hq]; [by apply (Hdis pd f pd2 g2 q)|].
      destruct Hq. by apply (footprint_used (pages v) (mem v) pd2 g2); [apply Hsp|].
    + apply (footprint_same (mem v) m' pd1) in Hq1; [|apply (Hm2 pd1 g1); try done; by left].
      destruct (Hfp2 pd2 g2 q E2 Hq2) as [Hq|Hq]; [by apply (Hdis pd1 g1 pd2 g2 q)|].
      destruct Hq. by apply (footprint_used (pages v) (mem v) pd1 g1); [apply Hsp|].
  - destruct (decide (pd = init_page_dir v)) as [<-|]; [rewrite lookup_insert_eq; eauto | by rewrite lookup_insert_ne].
  - intros i Hi'. rewrite Hpde; [by apply Hi0 | done | unfold USER_PDES in *; lia | by right].
  - intros pd2 f2 i Hin2 Hi2. destruct (Hin _ _ Hin2) as [g E2].
    rewrite (Hpde i pd2), (Hpde i (init_page_dir v)); try (unfold USER_PDES in *; lia); eauto.
Qed.

Lemma data_frame v v' S :
  data_ok v S → (∀ q, pp_used (pages v) q → pp_used (pages v') q) →
  (∀ pd f q, S !! pd = Some f → footprint (mem v') pd q → footprint (mem v) pd q ∨ ¬ pp_used (pages v) q) →
  data_ok v' S.
Proof.
  intros [Hd Hinj] Hu Hfp. split; [|done]. intros pd f n E Hn Hp. destruct (Hd pd f n E Hn Hp) as (Hr & Hus & Hno).
  split_and!; try apply Hr; [by apply Hu|]. intros pd' f' E' Hq. destruct (Hfp pd' f' _ E' Hq) as [Hq'|Hq'].
  - by apply (Hno pd' f').
  - done.
Qed.

Lemma data_upd v S pd f n x :
  data_ok v S → S !! pd = Some f → 0 ≤ n < USER_PAGES →
  (present x → 0 ≤ x < 2^30 ∧ ((present (f n) ∧ frame x = frame (f n)) ∨ unmapped v S (frame x))) →
  data_ok v (<[pd := upd f n x]> S).
Proof.
  intros [Hd Hinj] E Hn Hx.
  (* the entry of a page in the new spaces is [x] or an old one *)
  assert (∀ pd1 f1 n1, <[pd := upd f n x]> S !! pd1 = Some f1 → present (f1 n1) →
    (pd1 = pd ∧ n1 = n ∧ f1 n1 = x) ∨ ∃ g, S !! pd1 = Some g ∧ f1 n1 = g n1 ∧ (pd1 ≠ pd ∨ n1 ≠ n)) as Hold.
  { intros pd1 f1 n1 [[<- <-]|[Hne E1]]%lookup_insert_Some Hp; [|right; by exists f1; eauto].
    unfold upd. destruct (Z.eqb_spec n1 n) as [Heq|Hn1]; [by left | right; exists f; eauto]. }
  assert (∀ pd1 f1, <[pd := upd f n x]> S !! pd1 = Some f1 → is_Some (S !! pd1)) as Hin.
  { intros pd1 f1 [[<- _]|[_ ?]]%lookup_insert_Some; eauto. }
  split.
  - intros pd1 f1 n1 E1 Hn1 Hp. destruct (Hold pd1 f1 n1 E1 Hp) as [(-> & -> & Hx1)|(g & Eg & Hg & _)].
    + rewrite Hx1 in *. destruct (Hx Hp) as [Hr [[Hpf Hfr]|(Hu & Hno & _)]].
      * rewrite Hfr. destruct (Hd pd f n E Hn Hpf) as (_ & ? & Hno). split_and!; try apply Hr; [done|].
        intros pd' f' [g' E']%Hin. by apply (Hno pd' g').
      * split_and!; try apply Hr; [done|]. intros pd' f' [g' E']%Hin. by apply (Hno pd' g').
    + rewrite Hg in *. destruct (Hd pd1 g n1 Eg Hn1 Hp) as (Hr & Hu & Hno). split_and!; try apply Hr; [done|].
      intros pd' f' [g' E']%Hin. by apply (Hno pd' g').
  - intros pd1 f1 n1 pd2 f2 n2 E1 E2 Hn1 Hn2 Hp1 Hp2 Hfr.
    destruct (Hold pd1 f1 n1 E1 Hp1) as [(-> & -> & Hx1)|(g1 & Eg1 & Hg1 & Hne1)],
      (Hold pd2 f2 n2 E2 Hp2) as [(-> & -> & Hx2)|(g2 & Eg2 & Hg2 & Hne2)]; [done|..].
    + rewrite Hx1, Hg2 in *. exfalso. destruct (Hx Hp1) as [_ [[Hpf Hf]|(_ & _ & Hno)]]; [|by eapply (Hno pd2 g2 n2)].
      destruct (Hinj pd f n pd2 g2 n2) as [<- <-]; try done; [congruence|]. by destruct Hne2.
    + rewrite Hx2, Hg1 in *. exfalso. destruct (Hx Hp2) as [_ [[Hpf Hf]|(_ & _ & Hno)]]; [|by eapply (Hno pd1 g1 n1)].
      destruct (Hinj pd f n pd1 g1 n1) as [<- <-]; try done; [congruence|]. by destruct Hne1.
    + rewrite Hg1, Hg2 in *. by apply (Hinj pd1 g1 n1 pd2 g2 n2).
Qed.

(** ** A store to a page table entry *)

Lemma table_facts v S pd f i :
  tables_ok v S → S !! pd = Some f → 0 ≤ i < USER_PDES → pde (mem v) pd i ≠ 0 →
  let e := pde (mem v) pd i in
  0 ≤ e < 2^30 ∧ e mod 8 = 7 ∧ present e ∧ pp_used (pages v) (frame e) ∧ ram_page (frame e) ∧ frame e ≠ pd ∧ footprint (mem v) pd (frame e).
Proof.
  intros (Hp & Hby & Hsp & _) E Hi Hne e. destruct (Hsp pd f E) as (_ & Hpd & _).
  destruct (Hpd i Hi) as [?|(H1 & H2 & H3 & H4)]; [done|]. pose proof (load32_range (mem v) (pd + 4 * i) Hby).
  split_and!; try done; [apply H0 | unfold present; div_lia | by apply (used_ram (pages v)).. | right; by exists i].
Qed.

Lemma pd_page v S pd f : tables_ok v S → S !! pd = Some f → ram_page pd.
Proof. intros (Hp & _ & Hsp & _) E. destruct (Hsp pd f E) as (? & _). by apply (used_ram (pages v)). Qed.

Lemma space_store s m pd f n x :
  pp_inv s → space s m pd f → 0 ≤ n < USER_PAGES → pde m pd (n / 1024) ≠ 0 → 0 ≤ x < 2^32 →
  space s (store32 (frame (pde m pd (n / 1024)) + 4 * (n mod 1024)) x m) pd (upd f n x).
Proof.
  intros Hinv (Hpd & Hp & Hinj & Hf) Hn Hne Hx.
  assert (0 ≤ n / 1024 < USER_PDES) as Hi by (unfold USER_PAGES, USER_PDES in *; div_lia).
  set (e := pde m pd (n / 1024)) in *. set (a := frame e + 4 * (n mod 1024)).
  destruct (Hp (n / 1024) Hi) as [?|(_ & _ & Hu & Hnpd)]; [done|]. fold e in Hu, Hnpd.
  destruct (used_ram s _ Hinv Hu) as (_ & Hm & _). destruct (used_ram s _ Hinv Hpd) as (_ & Hmpd & _).
  assert (same_on pd m (store32 a x m)) as Hs.
  { apply (same_on_store pd (frame e)); try done; unfold a; div_lia. }
  assert (∀ i, 0 ≤ i < USER_PDES → pde (store32 a x m) pd i = pde m pd i) as He.
  { intros i Hi'. apply pde_same; [done | unfold USER_PDES in Hi'; lia]. }
  split_and!; [done | intros i Hi'; rewrite He by done; by apply Hp |..].
  - intros i j Hi' Hj'. rewrite !He by done. by apply Hinj.
  - intros k Hk. assert (0 ≤ k / 1024 < USER_PDES) as Hki by (unfold USER_PAGES, USER_PDES in *; div_lia).
    unfold upd. destruct (Z.eqb_spec k n) as [->|Hkn].
    + unfold pte. rewrite He by done. fold e. rewrite (proj2 (Z.eqb_neq e 0)) by done. fold a. by rewrite load32_store32.
    + rewrite Hf by done. unfold pte. rewrite He by done. destruct (Z.eqb_spec (pde m pd (k / 1024)) 0) as [|Hke]; [done|].
      symmetry. apply load32_store32_ne. destruct (decide (k / 1024 = n / 1024)) as [Heq|Hneq].
      * rewrite Heq. fold e. unfold a. div_lia.
      * assert (frame (pde m pd (k / 1024)) ≠ frame e) as Hfr by (intros Hfr; apply Hneq; by apply Hinj).
        destruct (Hp (k / 1024) Hki) as [?|(_ & _ & Hku & _)]; [done|].
        destruct (used_ram s _ Hinv Hku) as (_ & Hkm & _). unfold a. div_lia.
Qed.

Lemma store_pte_ok v S pd f n x :
  tables_ok v S → S !! pd = Some f → 0 ≤ n < USER_PAGES → pde (mem v) pd (n / 1024) ≠ 0 → 0 ≤ x < 2^32 →
  let a := frame (pde (mem v) pd (n / 1024)) + 4 * (n mod 1024) in
  tables_ok (set_mem (store32 a x (mem v)) v) (<[pd := upd f n x]> S)
  ∧ ∀ pd' f' q, S !! pd' = Some f' → footprint (store32 a x (mem v)) pd' q ↔ footprint (mem v) pd' q.
Proof.
  intros Ht E Hn Hne Hx a. assert (0 ≤ n / 1024 < USER_PDES) as Hi by (unfold USER_PAGES, USER_PDES in *; div_lia).
  pose proof Ht as (Hp & Hby & Hsp & Hdis & [_ Hi0] & _).
  destruct (table_facts v S pd f (n / 1024) Ht E Hi Hne) as (He & _ & Hpr & Hu & Hram & Hnpd & Hfp).
  set (e := pde (mem v) pd (n / 1024)) in *. pose proof Hram as (_ & Hmod & _).
  assert (∀ q, q mod 4096 = 0 → q ≠ frame e → same_on q (mem v) (store32 a x (mem v))) as Hsame.
  { intros q Hq Hqn. apply (same_on_store q (frame e)); try done; unfold a; div_lia. }
  assert (∀ pd' f', S !! pd' = Some f' → same_on pd' (mem v) (store32 a x (mem v))) as Hsame'.
  { intros pd' f' E'. destruct (pd_page v S pd' f' Ht E') as (_ & ? & _). apply Hsame; [done|]. intros ->.
    apply Hnpd. symmetry. apply (Hdis pd f (frame e) f' (frame e)); try done. by left. }
  split.
  - apply (tables_step v S pd f); try done.
    + by apply store32_bytes.
    + apply space_store; try done. by apply Hsp.
    + intros q. rewrite (footprint_same (mem v)) by (by apply (Hsame' pd f)). by left.
    + intros q Hq Hnf. apply Hsame; [by destruct (used_ram _ q Hp Hq) as (_ & ? & _)|]. intros ->. done.
    + intros i Hi'. apply pde_same; [by apply (Hsame' pd f) | unfold USER_PDES in *; lia].
    + intros ->. by destruct Hne; apply Hi0.
  - intros pd' f' q E'. apply footprint_same. by apply (Hsame' pd' f').
Qed.

(** ** A new page table *)

(** The memory after [pt] was cleared and entered at [i]. *)
Definition with_table m (pd i pt : Z) : Z → Z := store32 (pd + 4 * i) (pt - PHYS_BASE + 7) (fill pt 0 4096 m).

Lemma with_table_same m pd i pt q :
  pd mod 4096 = 0 → pt mod 4096 = 0 → q mod 4096 = 0 → 0 ≤ i < 1024 → q ≠ pd → q ≠ pt →
  same_on q m (with_table m pd i pt).
Proof.
  intros Hpd Hpt Hq Hi H1 H2. apply (same_on_trans q m (fill pt 0 4096 m)); [by apply same_on_fill|].
  apply (same_on_store q pd); try done; lia.
Qed.
Lemma with_table_pde m pd i pt j :
  ram_page pd → ram_page pt → pt ≠ pd → 0 ≤ i < 1024 → 0 ≤ j < 1024 →
  pde (with_table m pd i pt) pd j = if decide (j = i) then pt - PHYS_BASE + 7 else pde m pd j.
Proof.
  intros (? & Hpd & ?) (? & Hpt & ?) Hne Hi Hj. unfold with_table, pde, PHYS_BASE in *. case_decide as Hji.
  - subst j. rewrite load32_store32; [done | lia].
  - rewrite load32_store32_ne by lia. apply load32_ext. intros k Hk.
    replace (pd + 4 * j + k) with (pd + (4 * j + k)) by lia. apply (same_on_fill pd pt); try done. lia.
Qed.
Lemma with_table_pte m pd i pt k :
  ram_page pd → ram_page pt → pt ≠ pd → 0 ≤ i < 1024 → 0 ≤ k < 1024 →
  load32 (with_table m pd i pt) (pt + 4 * k) = 0.
Proof.
  intros (? & Hpd & ?) (? & Hpt & ?) Hne Hi Hk. unfold with_table.
  rewrite (load32_ext (fill pt 0 4096 m)); [apply load32_zero; lia|]. intros j Hj.
  replace (pt + 4 * k + j) with (pt + (4 * k + j)) by lia.
  apply (same_on_store pt pd); try done; lia.
Qed.

Lemma space_with_table s s' m pd f i pt :
  pp_inv s → pp_inv s' → space s m pd f → 0 ≤ i < USER_PDES → pde m pd i = 0 → ¬ pp_used s pt →
  (∀ q, pp_used s' q ↔ pp_used s q ∨ q = pt) → space s' (with_table m pd i pt) pd f.
Proof.
  intros Hinv Hinv' (Hpd & Hp & Hinj & Hf) Hi H0 Hfresh Hu.
  assert (pt ≠ pd) as Hne by (by intros ->).
  assert (ram_page pd) as Hrpd by (by apply (used_ram s)).
  assert (ram_page pt) as Hrpt by (apply (used_ram s'); [done|]; apply Hu; by right).
  assert (∀ j, 0 ≤ j < USER_PDES → pde (with_table m pd i pt) pd j = if decide (j = i) then pt - PHYS_BASE + 7 else pde m pd j) as He.
  { intros j Hj. unfold USER_PDES in *. apply with_table_pde; try done; lia. }
  pose proof Hrpt as (H1 & Hpt & H2). pose proof (frame_entry pt 7 Hpt ltac:(lia)) as Hfr.
  assert (∀ j, 0 ≤ j < USER_PDES → pde m pd j ≠ 0 → frame (pde m pd j) ≠ pt) as Hold.
  { intros j Hj Hne' E. destruct (Hp j Hj) as [?|(_ & _ & Hused & _)]; [done|]. by rewrite E in Hused. }
  split_and!.
  - apply Hu. by left.
  - intros j Hj. rewrite He by done. case_decide; [right|].
    + rewrite Hfr. split_and!; try done; [unfold PHYS_BASE in *; div_lia.. | apply Hu; by right].
    + destruct (Hp j Hj) as [?|(? & ? & ? & ?)]; [by left | right]. split_and!; try done. apply Hu. by left.
  - intros j k Hj Hk. rewrite !He by done. repeat case_decide; subst; try done.
    + intros _ Hk0. rewrite Hfr. intros E. by destruct (Hold k Hk Hk0).
    + intros Hj0 _. rewrite Hfr. intros E. by destruct (Hold j Hj Hj0).
    + by apply Hinj.
  - intros n Hn. assert (0 ≤ n / 1024 < USER_PDES) as Hni by (unfold USER_PAGES, USER_PDES in *; div_lia).
    rewrite Hf by done. unfold pte. rewrite He by done. case_decide as Hd.
    + rewrite Hd, H0. change (0 =? 0) with true. rewrite (proj2 (Z.eqb_neq (pt - PHYS_BASE + 7) 0)) by lia.
      rewrite Hfr. symmetry. apply with_table_pte; try done; [unfold USER_PDES in *; lia | div_lia].
    + destruct (Z.eqb_spec (pde m pd (n / 1024)) 0) as [|Hn0]; [done|].
      destruct (Hp (n / 1024) Hni) as [?|(_ & _ & Hused & Hnpd)]; [done|]. destruct (used_ram s _ Hinv Hused) as (_ & Hm & _).
      symmetry. apply load32_ext. intros k Hk. rewrite <- Z.add_assoc.
      apply with_table_same; try done; [apply Hrpd | unfold USER_PDES in *; lia | by apply Hold | div_lia].
Qed.

Lemma new_table_ok v S pd f i pt s' :
  tables_ok v S → S !! pd = Some f → pd ≠ init_page_dir v → 0 ≤ i < USER_PDES → pde (mem v) pd i = 0 →
  ¬ pp_used (pages v) pt → pp_inv s' → (∀ q, pp_used s' q ↔ pp_used (pages v) q ∨ q = pt) →
  let m' := with_table (mem v) pd i pt in
  tables_ok (mk_vm s' m' (init_page_dir v) (cr3 v) (tlb v)) S
  ∧ pde m' pd i = pt - PHYS_BASE + 7
  ∧ ∀ pd' f' q, S !! pd' = Some f' → footprint m' pd' q → footprint (mem v) pd' q ∨ ¬ pp_used (pages v) q.
Proof.
  intros Ht E Hninit Hi H0 Hfresh Hp' Hu m'. pose proof Ht as (Hp & Hby & Hsp & Hdis & _).
  pose proof (Hsp pd f E) as Hpd. pose proof (pd_page v S pd f Ht E) as Hrpd.
  assert (ram_page pt) as Hrpt by (apply (used_ram s'); [done|]; apply Hu; by right).
  assert (pt ≠ pd) as Hne by (intros ->; by destruct Hpd).
  assert (∀ j, 0 ≤ j < 1024 → pde m' pd j = if decide (j = i) then pt - PHYS_BASE + 7 else pde (mem v) pd j) as He.
  { intros j Hj. apply with_table_pde; try done. unfold USER_PDES in *; lia. }
  assert (∀ q, footprint m' pd q → footprint (mem v) pd q ∨ ¬ pp_used (pages v) q) as Hfp.
  { intros q [->|(j & Hj & Hj0 & ->)]; [left; by left|]. rewrite He in * by (unfold USER_PDES in *; lia).
    case_decide; [right; rewrite frame_entry; [done | apply Hrpt | lia] | left; right; by exists j]. }
  assert (∀ q, pp_used (pages v) q → ¬ footprint (mem v) pd q → same_on q (mem v) m') as Hsame.
  { intros q Hq Hnf. destruct (used_ram _ q Hp Hq) as (_ & Hqm & _).
    apply with_table_same; try done; [apply Hrpd | apply Hrpt | unfold USER_PDES in *; lia | intros ->; apply Hnf; by left | by intros ->]. }
  split_and!.
  - rewrite <- (insert_id S pd f E). apply (tables_step v S pd f); try done.
    + apply store32_bytes, fill_bytes; [lia | done].
    + by apply (space_with_table (pages v)).
    + intros q Hq. apply Hu. by left.
    + intros j Hj. rewrite He by (unfold USER_PDES in *; lia). rewrite decide_False; [done|]. unfold USER_PDES in *; lia.
  - rewrite He, decide_True; [done | done | unfold USER_PDES in *; lia].
  - intros pd' f' q E' Hq. destruct (decide (pd' = pd)) as [->|Hn']; [by apply Hfp|]. left.
    apply (footprint_same (mem v) m' pd' q); [|done]. apply Hsame; [by destruct (Hsp pd' f' E')|].
    intros Hq'. apply Hn'. apply (Hdis pd' f' pd f pd'); try done. by left.
Qed.
End space.
End PagedirInv.
