(* ===== verification/PagedirOps.v ===== *)
(** * The operations on page directories

    Every operation of userprog/pagedir.c keeps the invariant of the file
    PagedirInv and changes the entries as it says. *)
From stdpp Require Import base gmap list list_numbers.
From Stdlib Require Import ZArith Lia.
From S2P Require Import Prelude Vaddr Bitmap Palloc Memory Pagedir PagedirInv.

Module PagedirOps.
Import Vaddr Memory Pagedir PagedirInv.

Section ops.
Context {St : Type} `{PagePools St}.
Implicit Types (v : vm St) (S : gmap Z (Z → Z)) (f : Z → Z).

(** What stays the same when the tables of [pd] change. *)
Definition extends (pd : Z) v v' : Prop :=
  init_page_dir v' = init_page_dir v ∧ cr3 v' = cr3 v
  ∧ (∀ q, pp_used (pages v) q → pp_used (pages v') q)
  ∧ ∀ q, pp_used (pages v) q → ¬ footprint (mem v) pd q → same_on q (mem v) (mem v').

Lemma extends_refl pd v : extends pd v v.
Proof. by split_and!. Qed.

Lemma get_page_ok v flags (Q : Z → vm St → Prop) :
  pp_inv (pages v) → Palloc.has flags Palloc.PAL_ASSERT = false →
  (∀ s, pp_inv s → (∀ q, pp_used s q ↔ pp_used (pages v) q) → Q NULL (set_pages s v)) →
  (∀ p s, pp_inv s → ¬ pp_used (pages v) p → (∀ q, pp_used s q ↔ pp_used (pages v) q ∨ q = p) →
     Q p (set_mem (if Palloc.has flags Palloc.PAL_ZERO then fill p 0 4096 (mem v) else mem v) (set_pages s v))) →
  wp (palloc_get_page flags) Q v.
Proof.
  intros Hp Hfl HQ0 HQ. unfold palloc_get_page. apply wp_bind, wp_zoom.
  eapply wp_mono; [by apply pp_get_ok|]. intros p s [Hs [[-> Hu]|[Hnu Hu]]].
  - change (0 =? NULL) with true. rewrite Hfl. apply wp_bind, wp_ret, wp_ret. by apply HQ0.
  - destruct (used_ram s p Hs) as (? & _); [apply Hu; by right|].
    rewrite (proj2 (Z.eqb_neq p NULL)) by (unfold NULL, PHYS_BASE in *; lia).
    specialize (HQ p s Hs Hnu Hu). destruct (Palloc.has flags Palloc.PAL_ZERO).
    + apply wp_bind, wp_modify, wp_ret. exact HQ.
    + apply wp_bind, wp_ret, wp_ret. by destruct v.
Qed.

(** The page number of a user address. *)
Lemma user_page va : 0 ≤ va < PHYS_BASE →
  0 ≤ va / 4096 < USER_PAGES ∧ pd_no va = va / 4096 / 1024 ∧ pt_no va = va / 4096 mod 1024.
Proof.
  intros Hva. unfold USER_PAGES, PHYS_BASE in *. rewrite pd_no_eq, pt_no_eq by lia. split_and!; [div_lia.. | done].
Qed.

Definition pte_addr v (pd n : Z) : Z := frame (pde (mem v) pd (n / 1024)) + 4 * (n mod 1024).

Lemma load_pte v S pd f n :
  tables_ok v S → S !! pd = Some f → 0 ≤ n < USER_PAGES → pde (mem v) pd (n / 1024) ≠ 0 →
  load32 (mem v) (pte_addr v pd n) = f n ∧ 0 < pte_addr v pd n.
Proof.
  intros Ht E Hn Hne. pose proof Ht as (_ & _ & Hsp & _). destruct (Hsp pd f E) as (_ & _ & _ & Hf).
  assert (0 ≤ n / 1024 < USER_PDES) as Hi by (unfold USER_PAGES, USER_PDES in *; div_lia).
  destruct (table_facts v S pd f _ Ht E Hi Hne) as (_ & _ & _ & _ & (? & _) & _).
  rewrite Hf by done. unfold pte_addr, pte. rewrite (proj2 (Z.eqb_neq _ 0)) by done. split; [done|].
  unfold PHYS_BASE in *. div_lia.
Qed.
Lemma no_pte v S pd f n :
  tables_ok v S → S !! pd = Some f → 0 ≤ n < USER_PAGES → pde (mem v) pd (n / 1024) = 0 → f n = 0.
Proof.
  intros (_ & _ & Hsp & _) E Hn H0. destruct (Hsp pd f E) as (_ & _ & _ & Hf).
  rewrite Hf by done. unfold pte. by rewrite H0.
Qed.

Lemma find_pte_ok v S pd f va (Q : Z → vm St → Prop) :
  tables_ok v S → S !! pd = Some f → 0 ≤ va < PHYS_BASE →
  (pde (mem v) pd (va / 4096 / 1024) = 0 → f (va / 4096) = 0 → Q NULL v) →
  (pde (mem v) pd (va / 4096 / 1024) ≠ 0 → Q (pte_addr v pd (va / 4096)) v) →
  wp (lookup_page pd va false) Q v.
Proof.
  intros Ht E Hva H0 H1. destruct (user_page va Hva) as (Hn & Hpd & Hpt).
  destruct (pd_page v S pd f Ht E) as (Hp & _). unfold lookup_page.
  apply wp_bind, wp_ASSERT; [apply negb_true_iff, Z.eqb_neq; unfold NULL, PHYS_BASE in *; lia|].
  apply wp_bind, wp_ASSERT; [done|]. rewrite Hpd, Hpt. fold (pde (mem v) pd (va / 4096 / 1024)).
  apply wp_bind, wp_gets. change (load32 (mem v) (pd + 4 * (va / 4096 / 1024))) with (pde (mem v) pd (va / 4096 / 1024)).
  destruct (Z.eqb_spec (pde (mem v) pd (va / 4096 / 1024)) 0) as [Hz|Hz].
  - apply wp_bind, wp_ret, wp_ret. apply H0; [done|]. by apply (no_pte v S pd).
  - apply wp_bind, wp_ret, wp_bind, wp_gets.
    change (load32 (mem v) (pd + 4 * (va / 4096 / 1024))) with (pde (mem v) pd (va / 4096 / 1024)).
    assert (0 ≤ va / 4096 / 1024 < USER_PDES) as Hi by (unfold USER_PAGES, USER_PDES in *; div_lia).
    destruct (table_facts v S pd f _ Ht E Hi Hz) as (He & _ & Hpr & _).
    apply wp_bind, wp_pde_get_pt; try done. apply wp_ret. by apply H1.
Qed.

(** Page tables grow by pages that were not in use. *)
Definition grows S v v' : Prop :=
  ∀ pd f q, S !! pd = Some f → footprint (mem v') pd q → footprint (mem v) pd q ∨ ¬ pp_used (pages v) q.

Lemma unmapped_grows S pd v v' q : extends pd v v' → grows S v v' → unmapped v S q → unmapped v' S q.
Proof.
  intros (_ & _ & Hu & _) Hg (Hq & Hno & Hnm). split_and!; [by apply Hu| |done].
  intros pd' f' E' Hq'. destruct (Hg pd' f' q E' Hq') as [?|?]; [by apply (Hno pd' f') | done].
Qed.

Lemma tables_pages v S s :
  tables_ok v S → pp_inv s → (∀ q, pp_used s q ↔ pp_used (pages v) q) → tables_ok (set_pages s v) S.
Proof.
  intros (Hp & Hby & Hsp & Hdis & Hi & Hk) Hs Hu. split_and!; simpl; try done; try apply Hi.
  intros pd f E. apply (space_frame (pages v) s (mem v)); [by apply Hsp | done |].
  intros q Hq. apply Hu. by apply (footprint_used (pages v) (mem v) pd f q); [apply Hsp|].
Qed.

Lemma make_pte_ok v S pd f va :
  vm_ok v S → S !! pd = Some f → pd ≠ init_page_dir v → 0 ≤ va < PHYS_BASE →
  wp (lookup_page pd va true) (λ a v', vm_ok v' S ∧ extends pd v v' ∧ grows S v v' ∧ tlb v' = tlb v
    ∧ ((a = NULL ∧ f (va / 4096) = 0 ∧ ∀ q, pp_used (pages v') q ↔ pp_used (pages v) q)
       ∨ (a = pte_addr v' pd (va / 4096) ∧ pde (mem v') pd (va / 4096 / 1024) ≠ 0))) v.
Proof.
  intros (Ht & Hd & Htlb) E Hninit Hva. destruct (user_page va Hva) as (Hn & Hpd & Hpt).
  destruct (pd_page v S pd f Ht E) as (Hp & _). set (n := va / 4096) in *.
  assert (0 ≤ n / 1024 < USER_PDES) as Hi by (unfold USER_PAGES, USER_PDES in *; div_lia). unfold lookup_page.
  apply wp_bind, wp_ASSERT; [apply negb_true_iff, Z.eqb_neq; unfold NULL, PHYS_BASE in *; lia|].
  apply wp_bind, wp_ASSERT; [apply Z.ltb_lt; lia|]. rewrite Hpd, Hpt. apply wp_bind, wp_gets.
  change (load32 (mem v) (pd + 4 * (n / 1024))) with (pde (mem v) pd (n / 1024)).
  destruct (Z.eqb_spec (pde (mem v) pd (n / 1024)) 0) as [Hz|Hz].
  - apply wp_bind, wp_bind, get_page_ok; [by destruct Ht | done |..].
    + intros s Hs Hu. apply wp_ret, wp_ret. split_and!; try done.
      * split_and!; [by apply tables_pages | | done]. apply (data_frame v); try done; [intros q; apply Hu | by left].
      * split_and!; try done. intros q. apply Hu.
      * by left.
      * left. split_and!; try done. by apply (no_pte v S pd).
    + intros pt s Hs Hnu Hu. destruct (used_ram s pt Hs) as (Hpt1 & Hpt2 & Hpt3); [apply Hu; by right|].
      rewrite (proj2 (Z.eqb_neq pt NULL)) by (unfold NULL, PHYS_BASE in *; lia).
      apply wp_bind, wp_pde_create; [done|]. apply wp_bind, wp_modify, wp_ret. cbn [negb].
      change (Palloc.has Palloc.PAL_ZERO Palloc.PAL_ZERO) with true. cbv iota.
      destruct (new_table_ok v S pd f (n / 1024) pt s) as (Ht' & He & Hg); try done.
      fold (with_table (mem v) pd (n / 1024) pt). set (v' := mk_vm s (with_table (mem v) pd (n / 1024) pt) (init_page_dir v) (cr3 v) (tlb v)).
      change (set_mem _ _) with v'. apply wp_bind, wp_gets.
      change (load32 (mem v') (pd + 4 * (n / 1024))) with (pde (mem v') pd (n / 1024)).
      change (mem v') with (with_table (mem v) pd (n / 1024) pt). rewrite He.
      apply wp_bind, wp_pde_get_pt; [unfold PHYS_BASE in *; lia | by rewrite (present_entry pt 7)|]. apply wp_ret.
      assert (∀ q, pp_used (pages v) q → pp_used s q) as Hmono by (intros q ?; apply Hu; by left).
      split_and!; try done.
      * split_and!; try done. by apply (data_frame v).
      * split_and!; try done. intros q Hq Hnf. destruct (used_ram _ q (proj1 Ht) Hq) as (_ & Hqm & _).
        destruct (pd_page v S pd f Ht E) as (_ & ? & _).
        apply with_table_same; try done; [unfold USER_PDES in *; lia | intros ->; apply Hnf; by left | by intros ->].
      * right. unfold pte_addr. simpl. rewrite He. split; [done | unfold PHYS_BASE in *; lia].
  - apply wp_bind, wp_ret, wp_bind, wp_gets.
    change (load32 (mem v) (pd + 4 * (n / 1024))) with (pde (mem v) pd (n / 1024)).
    destruct (table_facts v S pd f _ Ht E Hi Hz) as (He & _ & Hpr & _).
    apply wp_bind, wp_pde_get_pt; try done. apply wp_ret.
    split_and!; [split_and!; done | apply extends_refl | by left | done | by right].
Qed.

(** ** Stores to page table entries *)

Lemma tlb_upd v S pd f n x m :
  tlb_ok v S → S !! pd = Some f →
  (∀ e, tlb v !! n = Some e → PHYS_BASE + cr3 v = pd → cached e (f n) → cached e x) →
  tlb_ok (set_mem m v) (<[pd := upd f n x]> S).
Proof.
  intros (Hc & g & Eg & Htlb) E Hx. split; [done|]. simpl. destruct (decide (pd = PHYS_BASE + cr3 v)) as [->|Hne].
  - exists (upd f n x). rewrite lookup_insert_eq. split; [done|]. intros k e Hk He. rewrite E in Eg. injection Eg as <-.
    unfold upd. destruct (Z.eqb_spec k n) as [->|]; [|by apply Htlb]. apply Hx; try done. by apply Htlb.
  - exists g. by rewrite lookup_insert_ne.
Qed.

(** A store that the TLB need not notice. *)
Lemma put_pte_ok v S pd f n x :
  vm_ok v S → S !! pd = Some f → 0 ≤ n < USER_PAGES → pde (mem v) pd (n / 1024) ≠ 0 → 0 ≤ x < 2^32 →
  (present x → x < 2^30 ∧ ((present (f n) ∧ frame x = frame (f n)) ∨ unmapped v S (frame x))) →
  let v' := set_mem (store32 (pte_addr v pd n) x (mem v)) v in
  tables_ok v' (<[pd := upd f n x]> S) ∧ data_ok v' (<[pd := upd f n x]> S) ∧ extends pd v v' ∧ grows S v v'.
Proof.
  intros (Ht & Hd & Htlb) E Hn Hne Hx Hown v'. destruct (store_pte_ok v S pd f n x Ht E Hn Hne Hx) as [Ht' Hfp].
  assert (grows S v v') as Hg by (intros pd' f' q E' Hq; left; by apply (Hfp pd' f')).
  assert (0 ≤ n / 1024 < USER_PDES) as Hi by (unfold USER_PAGES, USER_PDES in *; div_lia).
  split_and!; try done.
  - apply (data_frame (set_mem (mem v) v) v'); [|done|].
    + destruct v. apply data_upd; try done. intros Hp. destruct (Hown Hp). by split; [lia|].
    + intros pd' f' q [[<- _]|[_ E']]%lookup_insert_Some Hq; [by apply (Hg pd f) | by apply (Hg pd' f')].
  - split_and!; try done. intros q Hq Hnf. destruct (table_facts v S pd f _ Ht E Hi Hne) as (_ & _ & _ & _ & (_ & ? & _) & _ & Hf).
    destruct (used_ram _ q (proj1 Ht) Hq) as (_ & Hqm & _).
    apply (same_on_store q (frame (pde (mem v) pd (n / 1024)))); try done; [by intros ->|..]; unfold pte_addr; div_lia.
Qed.

Lemma extends_trans S pd f v v1 v2 :
  S !! pd = Some f → extends pd v v1 → grows S v v1 → extends pd v1 v2 → grows S v1 v2 → extends pd v v2 ∧ grows S v v2.
Proof.
  intros E (Hi & Hc & Hu & Hm) Hg (Hi' & Hc' & Hu' & Hm') Hg'. split.
  - split_and!; [congruence | congruence | auto|]. intros q Hq Hnf. apply (same_on_trans q (mem v) (mem v1)); [by apply Hm|].
    apply Hm'; [by apply Hu|]. intros Hq1. by destruct (Hg pd f q E Hq1).
  - intros pd' f' q E' Hq. destruct (Hg' pd' f' q E' Hq) as [Hq1|Hq1]; [by apply (Hg pd' f')|]. right. auto.
Qed.

Lemma not_present e : ¬ present e → Z.land e PTE_P =? 0 = true.
Proof. intros Hn. rewrite land_P. apply Z.eqb_eq. unfold present in Hn. pose proof (Z.mod_pos_bound e 2). lia. Qed.
Lemma is_present e : present e → Z.land e PTE_P =? 0 = false.
Proof. intros Hp. rewrite land_P, Hp. done. Qed.
#[global] Instance present_dec e : Decision (present e).
Proof. unfold present. apply _. Defined.

Lemma pte_addr_null v S pd f n :
  tables_ok v S → S !! pd = Some f → 0 ≤ n < USER_PAGES → pde (mem v) pd (n / 1024) ≠ 0 → pte_addr v pd n =? NULL = false.
Proof. intros Ht E Hn Hne. destruct (load_pte v S pd f n Ht E Hn Hne). apply Z.eqb_neq. unfold NULL. lia. Qed.

Lemma pagedir_set_page_ok v S pd f upage kpage w :
  vm_ok v S → S !! pd = Some f → pd ≠ init_page_dir v → 0 ≤ upage < PHYS_BASE → upage mod 4096 = 0 →
  unmapped v S kpage → ¬ present (f (upage / 4096)) →
  wp (pagedir_set_page pd upage kpage w) (λ ok v', extends pd v v' ∧ grows S v v'
    ∧ if ok then vm_ok v' (<[pd := upd f (upage / 4096) (user_pte kpage w)]> S)
      else vm_ok v' S ∧ f (upage / 4096) = 0) v.
Proof.
  intros Hv E Hninit Hup Hum Hk Hnp. pose proof Hv as ((Hp & _) & _). pose proof Hk as (Hku & _).
  pose proof (used_ram _ kpage Hp Hku) as Hkr. pose proof Hkr as (Hk1 & Hk2 & Hk3).
  destruct (pp_used_page _ kpage Hp Hku) as (_ & _ & Hram). destruct (user_page upage Hup) as (Hn & _).
  unfold pagedir_set_page. apply wp_bind, wp_ASSERT; [rewrite pg_ofs_eq, PGSIZE_eq, Hum; done|].
  apply wp_bind, wp_ASSERT; [by apply pg_ofs_page|]. apply wp_bind, wp_ASSERT; [apply Z.ltb_lt; lia|].
  apply wp_bind, wp_vtop; [lia|]. apply wp_bind, wp_ASSERT.
  { change PTSHIFT with 12. rewrite Z.shiftr_div_pow2 by lia. apply Z.ltb_lt. change (2^12) with 4096. div_lia. }
  apply wp_bind, wp_gets, wp_bind, wp_ASSERT; [by apply negb_true_iff, Z.eqb_neq|].
  apply wp_bind. eapply wp_mono; [by apply (make_pte_ok v S pd f upage)|].
  intros a v1 (Hv1 & Hext & Hg & Htlb & [(-> & Hz & _)|[-> Hne]]); [by apply wp_ret|].
  destruct (load_pte v1 S pd f (upage / 4096) (proj1 Hv1) E Hn Hne) as [Hl Ha].
  rewrite (proj2 (Z.eqb_neq _ NULL)) by (unfold NULL; lia). apply wp_bind, wp_gets. rewrite Hl.
  apply wp_bind, wp_ASSERT; [by apply not_present|].
  apply wp_bind, wp_pte_create_user; [done|]. apply wp_bind, wp_modify, wp_ret.
  assert (0 ≤ user_pte kpage w < 2^30) as Hr by (unfold user_pte, PHYS_BASE in *; destruct w; div_lia).
  destruct (put_pte_ok v1 S pd f (upage / 4096) (user_pte kpage w) Hv1 E Hn Hne) as (Ht & Hd & Hext' & Hg'); [lia| |].
  { intros _. split; [lia|]. right. unfold user_pte. rewrite frame_entry by (done || destruct w; lia).
    by eapply unmapped_grows. }
  destruct (extends_trans S pd f v v1 _ E Hext Hg Hext' Hg') as [? ?].
  split_and!; [done | done|]. split_and!; [done | done|]. apply (tlb_upd v1 S pd f); [by destruct Hv1 as (_ & _ & ?) | done|]. intros e _ _ [Hc _]. done.
Qed.

(** New pages are tables of [pd], which keeps those that it has. *)
Definition accounts (pd : Z) v v' : Prop :=
  (∀ q, footprint (mem v) pd q → footprint (mem v') pd q)
  ∧ ∀ q, pp_used (pages v') q → pp_used (pages v) q ∨ footprint (mem v') pd q.

Lemma make_pte_accounts v S pd f va :
  vm_ok v S → S !! pd = Some f → 0 ≤ va < PHYS_BASE →
  wp (lookup_page pd va true) (λ _ v', accounts pd v v') v.
Proof.
  intros (Ht & _) E Hva. destruct (user_page va Hva) as (Hn & Hpd & Hpt).
  pose proof (pd_page v S pd f Ht E) as Hpr. pose proof Hpr as (Hp & _). set (n := va / 4096) in *.
  assert (0 ≤ n / 1024 < USER_PDES) as Hi by (unfold USER_PAGES, USER_PDES in *; div_lia). unfold lookup_page.
  apply wp_bind, wp_ASSERT; [apply negb_true_iff, Z.eqb_neq; unfold NULL, PHYS_BASE in *; lia|].
  apply wp_bind, wp_ASSERT; [apply Z.ltb_lt; lia|]. rewrite Hpd, Hpt. apply wp_bind, wp_gets.
  change (load32 (mem v) (pd + 4 * (n / 1024))) with (pde (mem v) pd (n / 1024)).
  destruct (Z.eqb_spec (pde (mem v) pd (n / 1024)) 0) as [Hz|Hz].
  - apply wp_bind, wp_bind, get_page_ok; [by destruct Ht | done |..].
    + intros s Hs Hu. apply wp_ret, wp_ret. split; [done|]. intros q Hq. left. by apply Hu.
    + intros pt s Hs Hnu Hu. pose proof (used_ram s pt Hs ltac:(apply Hu; by right)) as Hptr. pose proof Hptr as (Hpt1 & Hpt2 & Hpt3).
      rewrite (proj2 (Z.eqb_neq pt NULL)) by (unfold NULL, PHYS_BASE in *; lia).
      apply wp_bind, wp_pde_create; [done|]. apply wp_bind, wp_modify, wp_ret. cbn [negb].
      change (Palloc.has Palloc.PAL_ZERO Palloc.PAL_ZERO) with true. cbv iota.
      fold (with_table (mem v) pd (n / 1024) pt). set (v' := mk_vm s (with_table (mem v) pd (n / 1024) pt) (init_page_dir v) (cr3 v) (tlb v)).
      change (set_mem _ _) with v'. assert (pt ≠ pd) as Hne.
      { intros ->. apply Hnu. destruct Ht as (_ & _ & Hsp & _). by destruct (Hsp pd f E). }
      assert (∀ j, 0 ≤ j < 1024 → pde (mem v') pd j = if decide (j = n / 1024) then pt - PHYS_BASE + 7 else pde (mem v) pd j) as Hpde.
      { intros j Hj. apply with_table_pde; try done. unfold USER_PDES in *. lia. }
      apply wp_bind, wp_gets. change (load32 (mem v') (pd + 4 * (n / 1024))) with (pde (mem v') pd (n / 1024)).
      rewrite Hpde, decide_True by (done || unfold USER_PDES in *; lia).
      apply wp_bind, wp_pde_get_pt; [unfold PHYS_BASE in *; lia | by rewrite (present_entry pt 7)|]. apply wp_ret. split.
      * intros q [->|(j & Hj & Hjn & ->)]; [by left|]. right. exists j. rewrite Hpde by (unfold USER_PDES in *; lia).
        rewrite decide_False by (by intros ->). done.
      * intros q [Hq| ->]%Hu; [by left|]. right. right. exists (n / 1024). rewrite Hpde, decide_True by (done || unfold USER_PDES in *; lia).
        rewrite frame_entry by (done || lia). split_and!; (done || unfold PHYS_BASE in *; lia).
  - apply wp_bind, wp_ret, wp_bind, wp_gets.
    change (load32 (mem v) (pd + 4 * (n / 1024))) with (pde (mem v) pd (n / 1024)).
    destruct (table_facts v S pd f _ Ht E Hi Hz) as (He & _ & Hpr' & _).
    apply wp_bind, wp_pde_get_pt; try done. apply wp_ret. split; [done|]. by left.
Qed.

Lemma set_page_accounts v S pd f upage kpage w :
  vm_ok v S → S !! pd = Some f → pd ≠ init_page_dir v → 0 ≤ upage < PHYS_BASE → upage mod 4096 = 0 →
  unmapped v S kpage → ¬ present (f (upage / 4096)) →
  wp (pagedir_set_page pd upage kpage w) (λ _ v', accounts pd v v') v.
Proof.
  intros Hv E Hninit Hup Hum (Hku & _) Hnp. pose proof Hv as ((Hp & _) & _).
  pose proof (used_ram _ kpage Hp Hku) as Hkr. pose proof Hkr as (Hk1 & Hk2 & Hk3).
  destruct (pp_used_page _ kpage Hp Hku) as (_ & _ & Hram). destruct (user_page upage Hup) as (Hn & _).
  unfold pagedir_set_page. apply wp_bind, wp_ASSERT; [rewrite pg_ofs_eq, PGSIZE_eq, Hum; done|].
  apply wp_bind, wp_ASSERT; [by apply pg_ofs_page|]. apply wp_bind, wp_ASSERT; [apply Z.ltb_lt; lia|].
  apply wp_bind, wp_vtop; [lia|]. apply wp_bind, wp_ASSERT.
  { change PTSHIFT with 12. rewrite Z.shiftr_div_pow2 by lia. apply Z.ltb_lt. change (2^12) with 4096. div_lia. }
  apply wp_bind, wp_gets, wp_bind, wp_ASSERT; [by apply negb_true_iff, Z.eqb_neq|].
  apply wp_bind. eapply wp_mono.
  { exact (wp_conj _ _ _ _ (make_pte_ok v S pd f upage Hv E Hninit Hup) (make_pte_accounts v S pd f upage Hv E Hup)). }
  intros a v1 [(Hv1 & _ & _ & _ & [(-> & _)|[-> Hne]]) Hac]; [by apply wp_ret|].
  destruct (load_pte v1 S pd f (upage / 4096) (proj1 Hv1) E Hn Hne) as [Hl Ha].
  rewrite (proj2 (Z.eqb_neq _ NULL)) by (unfold NULL; lia). apply wp_bind, wp_gets. rewrite Hl.
  apply wp_bind, wp_ASSERT; [by apply not_present|].
  apply wp_bind, wp_pte_create_user; [done|]. apply wp_bind, wp_modify, wp_ret.
  assert (0 ≤ user_pte kpage w < 2^32) as Hr by (unfold user_pte, PHYS_BASE in *; destruct w; div_lia).
  destruct (store_pte_ok v1 S pd f (upage / 4096) (user_pte kpage w) (proj1 Hv1) E Hn Hne Hr) as [_ Hfp].
  destruct Hac as [Ha1 Ha2]. split; simpl.
  - intros q Hq. apply (Hfp pd f q E). by apply Ha1.
  - intros q Hq. destruct (Ha2 q Hq) as [?|?]; [by left|]. right. by apply (Hfp pd f q E).
Qed.

(** The address that a user address is mapped to. *)
Definition resolve f (va : Z) : Z :=
  let e := f (va / 4096) in if bool_decide (present e) then frame e + va mod 4096 else NULL.

Lemma pagedir_get_page_ok v S pd f va (Q : Z → vm St → Prop) :
  vm_ok v S → S !! pd = Some f → 0 ≤ va < PHYS_BASE → Q (resolve f va) v → wp (pagedir_get_page pd va) Q v.
Proof.
  intros (Ht & Hd & _) E Hva HQ. destruct (user_page va Hva) as (Hn & _). unfold pagedir_get_page.
  apply wp_bind, wp_ASSERT; [apply Z.ltb_lt; lia|]. apply wp_bind, (find_pte_ok v S pd f); try done; unfold resolve in HQ.
  - intros _ Hz. rewrite Hz in HQ. apply wp_ret. exact HQ.
  - intros Hne. destruct (load_pte v S pd f (va / 4096) Ht E Hn Hne) as [Hl _].
    rewrite (pte_addr_null v S pd f) by done. apply wp_bind, wp_gets. rewrite Hl. case_bool_decide as Hp.
    + rewrite is_present by done. destruct Hd as [Hd _]. destruct (Hd pd f (va / 4096) E Hn Hp) as (Hr & _).
      apply wp_bind, wp_pte_get_page; [done|]. apply wp_ret. by rewrite pg_ofs_eq, PGSIZE_eq.
    + rewrite not_present by done. by apply wp_ret.
Qed.

(** A store to an entry of [pd], followed by a flush if [pd] is active. *)
Lemma invalidate_ok v S pd f n x g :
  tlb_ok v S → S !! pd = Some g → PHYS_BASE < pd < 2^32 → tables_ok v (<[pd := upd f n x]> S) →
  data_ok v (<[pd := upd f n x]> S) →
  wp (invalidate_pagedir pd) (λ _ v', vm_ok v' (<[pd := upd f n x]> S) ∧ mem v' = mem v ∧ pages v' = pages v
    ∧ init_page_dir v' = init_page_dir v ∧ cr3 v' = cr3 v) v.
Proof.
  intros (Hc & g' & Eg & Htlb) E Hpd Ht Hd. unfold invalidate_pagedir, active_pd.
  apply wp_bind, wp_bind, wp_gets, wp_ptov; [done|]. destruct (Z.eqb_spec (PHYS_BASE + cr3 v) pd) as [Heq|Hne].
  - unfold pagedir_activate. apply wp_bind, wp_gets.
    rewrite (proj2 (Z.eqb_neq pd NULL)) by (unfold NULL, PHYS_BASE in *; lia).
    apply wp_bind, wp_vtop; [lia|]. apply wp_modify. simpl. split_and!; try done; [|lia].
    split_and!; [done|done|]. split; [unfold PHYS_BASE in *; simpl; lia|]. simpl. exists (upd f n x).
    replace (PHYS_BASE + (pd - PHYS_BASE)) with pd by lia. rewrite lookup_insert_eq. split; [done|].
    intros k e _ Hl. by rewrite lookup_empty in Hl.
  - apply wp_ret. split_and!; [|done..]. split_and!; [done | done|]. split; [done|]. exists g'. by rewrite lookup_insert_ne.
Qed.

Lemma pd_range v S pd f : tables_ok v S → S !! pd = Some f → PHYS_BASE < pd < 2^32.
Proof. intros Ht E. destruct (pd_page v S pd f Ht E) as (? & _ & ?). lia. Qed.

(** A change of a flag of a page table entry that must flush the TLB. *)
Lemma clear_flag_ok v S pd f n b :
  vm_ok v S → S !! pd = Some f → 0 ≤ n < USER_PAGES → pde (mem v) pd (n / 1024) ≠ 0 → 0 ≤ b < 4096 →
  wp (store (pte_addr v pd n) (Z.land (f n) (u32 (Z.lnot b))) ;; invalidate_pagedir pd)
    (λ _ v', vm_ok v' (<[pd := upd f n (Z.ldiff (f n) b)]> S) ∧ extends pd v v') v.
Proof.
  intros Hv E Hn Hne Hb. pose proof Hv as (Ht & Hd & Htlb).
  destruct (load_pte v S pd f n Ht E Hn Hne) as [Hl _].
  assert (0 ≤ f n < 2^32) as Hr by (rewrite <- Hl; apply load32_range; by destruct Ht as (_ & ? & _)).
  rewrite land_not by lia. assert (0 ≤ Z.ldiff (f n) b < 2^32) as Hr'.
  { pose proof (frame_ldiff (f n) b Hb) as Hfr. unfold frame in Hfr. div_lia. }
  destruct (put_pte_ok v S pd f n (Z.ldiff (f n) b) Hv E Hn Hne Hr') as (Ht' & Hd' & Hext & Hg).
  { intros Hp. assert (present (f n)) as Hpf.
    { apply present_bit. apply present_bit in Hp. rewrite Z.ldiff_spec in Hp. by apply andb_true_iff in Hp as [? _]. }
    destruct Hd as [Hd _]. destruct (Hd pd f n E Hn Hpf) as (Hr30 & _). rewrite frame_ldiff by done.
    split; [|by left]. by apply (frame_range (f n)), frame_ldiff. }
  apply wp_bind, wp_modify. eapply wp_mono.
  - apply (invalidate_ok _ S pd f n (Z.ldiff (f n) b) f); try done. by apply (pd_range v S pd f).
  - intros [] v' (Hv' & Hm & Hp & Hi & Hc). split; [done|]. destruct Hext as (H1 & H2 & H3 & H4).
    unfold extends. rewrite Hm, Hp, Hi, Hc. done.
Qed.

Lemma set_flag_ok v S pd f n b :
  vm_ok v S → S !! pd = Some f → 0 ≤ n < USER_PAGES → pde (mem v) pd (n / 1024) ≠ 0 → b = PTE_A ∨ b = PTE_D →
  wp (store (pte_addr v pd n) (Z.lor (f n) b)) (λ _ v', vm_ok v' (<[pd := upd f n (Z.lor (f n) b)]> S) ∧ extends pd v v') v.
Proof.
  intros Hv E Hn Hne Hb. pose proof Hv as (Ht & Hd & Htlb). destruct (load_pte v S pd f n Ht E Hn Hne) as [Hl _].
  assert (0 ≤ f n < 2^32) as Hr by (rewrite <- Hl; apply load32_range; by destruct Ht as (_ & ? & _)).
  assert (0 ≤ b < 4096 ∧ Z.testbit b 0 = false) as [Hb' Hb0] by (destruct Hb as [-> | ->]; done).
  pose proof (frame_lor (f n) b Hb') as Hfr.
  assert (0 ≤ Z.lor (f n) b < 2^32) as Hr' by (unfold frame in Hfr; div_lia).
  assert (present (Z.lor (f n) b) ↔ present (f n)) as Hpr by (by rewrite !present_bit, Z.lor_spec, Hb0, orb_false_r).
  destruct (put_pte_ok v S pd f n (Z.lor (f n) b) Hv E Hn Hne Hr') as (Ht' & Hd' & Hext & Hg).
  { intros Hp%Hpr. destruct Hd as [Hd _]. destruct (Hd pd f n E Hn Hp) as (Hr30 & _). split; [|by left].
    by apply (frame_range (f n)). }
  apply wp_modify. split; [|done]. split_and!; [done | done|]. apply (tlb_upd v S pd f); try done.
  intros e _ _ [Hp Hk]. split; [by apply Hpr|]. intros k Hk'. specialize (Hk k Hk'). rewrite Z.lor_spec.
  case_decide as Hd56; [intros He; by rewrite Hk|]. rewrite Hk.
  assert (Z.testbit b k = false) as ->; [|by rewrite orb_false_r].
  destruct Hb as [-> | ->]; [change PTE_A with (2^5) | change PTE_D with (2^6)]; apply Z.pow2_bits_false; lia.
Qed.

Lemma pagedir_clear_page_ok v S pd f upage :
  vm_ok v S → S !! pd = Some f → 0 ≤ upage < PHYS_BASE → upage mod 4096 = 0 →
  wp (pagedir_clear_page pd upage) (λ _ v', extends pd v v'
    ∧ if bool_decide (present (f (upage / 4096)))
      then vm_ok v' (<[pd := upd f (upage / 4096) (Z.ldiff (f (upage / 4096)) PTE_P)]> S) else v' = v) v.
Proof.
  intros Hv E Hup Hum. pose proof Hv as (Ht & Hd & Htlb). destruct (user_page upage Hup) as (Hn & _).
  unfold pagedir_clear_page. apply wp_bind, wp_ASSERT; [rewrite pg_ofs_eq, PGSIZE_eq, Hum; done|].
  apply wp_bind, wp_ASSERT; [apply Z.ltb_lt; lia|]. apply wp_bind, (find_pte_ok v S pd f); try done.
  - intros _ Hz. rewrite Hz. apply wp_ret. split; [apply extends_refl | done].
  - intros Hne. destruct (load_pte v S pd f (upage / 4096) Ht E Hn Hne) as [Hl _].
    rewrite (pte_addr_null v S pd f) by done. apply wp_bind, wp_gets. rewrite Hl. case_bool_decide as Hp.
    + rewrite is_present by done. eapply wp_mono; [apply (clear_flag_ok v S pd f); try done|]. by intros [] v' [? ?].
    + rewrite not_present by done. apply wp_ret. split; [apply extends_refl | done].
Qed.

Lemma is_bit_ok v S pd f va b (Q : bool → vm St → Prop) :
  vm_ok v S → S !! pd = Some f → 0 ≤ va < PHYS_BASE →
  Q (negb (Z.land (f (va / 4096)) b =? 0)) v → wp (is_bit b pd va) Q v.
Proof.
  intros (Ht & _) E Hva HQ. destruct (user_page va Hva) as (Hn & _). unfold is_bit.
  apply wp_bind, (find_pte_ok v S pd f); try done.
  - intros _ Hz. rewrite Hz in HQ. apply wp_ret. exact HQ.
  - intros Hne. destruct (load_pte v S pd f (va / 4096) Ht E Hn Hne) as [Hl _].
    rewrite (pte_addr_null v S pd f) by done. apply wp_bind, wp_gets, wp_ret. by rewrite Hl.
Qed.

Lemma set_bit_ok v S pd f va b value :
  vm_ok v S → S !! pd = Some f → 0 ≤ va < PHYS_BASE → b = PTE_A ∨ b = PTE_D →
  wp (set_bit b pd va value) (λ _ v', extends pd v v'
    ∧ (vm_ok v' (<[pd := upd f (va / 4096) (if value then Z.lor (f (va / 4096)) b else Z.ldiff (f (va / 4096)) b)]> S)
       ∨ v' = v ∧ f (va / 4096) = 0)) v.
Proof.
  intros Hv E Hva Hb. pose proof Hv as (Ht & _). destruct (user_page va Hva) as (Hn & _). unfold set_bit.
  apply wp_bind, (find_pte_ok v S pd f); try done.
  - intros _ Hz. apply wp_ret. split; [apply extends_refl | by right].
  - intros Hne. destruct (load_pte v S pd f (va / 4096) Ht E Hn Hne) as [Hl _].
    rewrite (pte_addr_null v S pd f) by done. apply wp_bind, wp_gets. rewrite Hl. destruct value.
    + eapply wp_mono; [by apply (set_flag_ok v S pd f)|]. intros [] v' [? ?]. split; [done | by left].
    + eapply wp_mono; [apply (clear_flag_ok v S pd f); try done; destruct Hb as [-> | ->]; done|].
      intros [] v' [? ?]. split; [done | by left].
Qed.

(** ** Creation and activation *)

(** The memory of a new page directory. *)
Lemma new_dir_pde m pd ipd i : 0 ≤ i < 1024 → pde (copy pd ipd 4096 m) pd i = pde m ipd i.
Proof. intros Hi. unfold pde, load32. rewrite <- !Z.add_assoc. rewrite !copy_in by lia. done. Qed.

Lemma new_dir_ok v S pd s :
  tables_ok v S → pp_inv s → ¬ pp_used (pages v) pd → (∀ q, pp_used s q ↔ pp_used (pages v) q ∨ q = pd) →
  let m' := copy pd (init_page_dir v) 4096 (mem v) in
  (∀ q, pp_used (pages v) q → same_on q (mem v) m')
  ∧ tables_ok (mk_vm s m' (init_page_dir v) (cr3 v) (tlb v)) (<[pd := λ _, 0]> S).
Proof.
  intros Ht Hs Hnu Hu m'. pose proof Ht as (Hp & Hby & Hsp & Hdis & [[fi Ei] Hi0] & Hk).
  destruct (used_ram s pd Hs) as (H1 & H2 & H3); [apply Hu; by right|].
  assert (∀ q, pp_used (pages v) q → same_on q (mem v) m') as Hsame.
  { intros q Hq. destruct (used_ram _ q Hp Hq) as (_ & ? & _). apply same_on_copy; try done. by intros ->. }
  assert (∀ i, 0 ≤ i < USER_PDES → pde m' pd i = 0) as Hpd0.
  { intros i Hi. unfold m'. rewrite new_dir_pde by (unfold USER_PDES in *; lia). by apply Hi0. }
  assert (∀ q, footprint m' pd q ↔ q = pd) as Hfpd.
  { intros q. split; [|by left]. intros [?|(i & Hi & Hne & _)]; [done|]. by destruct Hne; apply Hpd0. }
  assert (∀ pd' f', S !! pd' = Some f' → same_on pd' (mem v) m') as Hsame'.
  { intros pd' f' E'. apply Hsame. by destruct (Hsp pd' f' E'). }
  assert (∀ pd' f' q, S !! pd' = Some f' → footprint m' pd' q → footprint (mem v) pd' q ∧ pp_used (pages v) q) as Hfp.
  { intros pd' f' q E' Hq. rewrite (footprint_same (mem v)) in Hq by (by apply (Hsame' pd' f')).
    split; [done|]. by apply (footprint_used (pages v) (mem v) pd' f'); [apply Hsp|]. }
  split; [done|]. split_and!; simpl; try done.
  - by apply copy_bytes.
  - intros pd' f' [[<- <-]|[Hne E']]%lookup_insert_Some.
    + split_and!; [apply Hu; by right | intros i Hi; left; by apply Hpd0 | intros i j Hi _ Hne; by destruct Hne; apply Hpd0 |].
      intros n Hn. unfold pte. by rewrite Hpd0 by (unfold USER_PAGES, USER_PDES in *; div_lia).
    + apply (space_frame (pages v) s (mem v)); [by apply Hsp |..]; intros q Hq;
        (assert (pp_used (pages v) q) by (by apply (footprint_used (pages v) (mem v) pd' f'); [apply Hsp|]));
        [by apply Hsame | apply Hu; by left].
  - intros pd1 f1 pd2 f2 q [[<- <-]|[Hn1 E1]]%lookup_insert_Some [[<- <-]|[Hn2 E2]]%lookup_insert_Some Hq1 Hq2; [done|..].
    + apply Hfpd in Hq1 as ->. by destruct (Hfp pd2 f2 pd E2 Hq2).
    + apply Hfpd in Hq2 as ->. by destruct (Hfp pd1 f1 pd E1 Hq1).
    + apply (Hdis pd1 f1 pd2 f2 q); try done; [by apply (Hfp pd1 f1) | by apply (Hfp pd2 f2)].
  - rewrite lookup_insert_ne by (intros ->; by destruct (Hsp _ _ Ei)). eauto.
  - intros i Hi. rewrite (pde_same (mem v)); [by apply Hi0 | by apply (Hsame' _ fi) | unfold USER_PDES in *; lia].
  - intros pd' f' i Hin Hi. assert (0 ≤ i < 1024) as Hi' by (unfold USER_PDES in *; lia).
    rewrite (pde_same (mem v) m' (init_page_dir v)) by (done || by apply (Hsame' _ fi)).
    apply lookup_insert_Some in Hin as [[<- _]|[_ E']]; [by apply new_dir_pde|].
    rewrite (pde_same (mem v)) by (done || by apply (Hsame' _ f')). by apply (Hk pd' f').
Qed.

Lemma pagedir_create_ok v S :
  vm_ok v S →
  wp pagedir_create (λ pd v', init_page_dir v' = init_page_dir v ∧ cr3 v' = cr3 v
    ∧ (∀ q, pp_used (pages v) q → pp_used (pages v') q ∧ same_on q (mem v) (mem v'))
    ∧ ((pd = NULL ∧ vm_ok v' S) ∨ (ram_page pd ∧ ¬ pp_used (pages v) pd ∧ vm_ok v' (<[pd := λ _, 0]> S)))) v.
Proof.
  intros (Ht & Hd & Htlb). unfold pagedir_create. apply wp_bind, get_page_ok; [by destruct Ht | done |..].
  { intros s Hs Hu. apply wp_bind, wp_ret, wp_ret. split_and!; try done.
    - intros q Hq. split; [by apply Hu | done].
    - left. split; [done|]. split_and!; [by apply tables_pages | | done].
      apply (data_frame v); try done; [intros q; apply Hu | by left]. }
  intros pd s Hs Hnu Hu. change (Palloc.has 0 Palloc.PAL_ZERO) with false. cbv iota.
  pose proof (used_ram s pd Hs ltac:(apply Hu; by right)) as Hr. pose proof Hr as (H1 & H2 & H3).
  rewrite (proj2 (Z.eqb_neq pd NULL)) by (unfold NULL, PHYS_BASE in *; lia).
  apply wp_bind, wp_modify, wp_ret. simpl. rewrite PGSIZE_eq.
  destruct (new_dir_ok v S pd s Ht Hs Hnu Hu) as [Hsame Ht'].
  assert (∀ pd' f', S !! pd' = Some f' → pd' ≠ pd) as Hnew.
  { intros pd' f' E' ->. apply Hnu. destruct Ht as (_ & _ & Hsp & _). by destruct (Hsp pd f' E'). }
  split_and!; try done.
  { intros q Hq. split; [apply Hu; by left | by apply Hsame]. }
  right. split_and!; try done. split_and!; [done | |].
  - destruct Hd as [Hd Hinj]. assert (¬ present 0) as Hn0 by done. split.
    + intros pd1 f1 n [[<- <-]|[Hne E1]]%lookup_insert_Some Hn Hpr; [done|]. destruct (Hd pd1 f1 n E1 Hn Hpr) as (Hr1 & Hu1 & Hno).
      split_and!; try apply Hr1; [apply Hu; by left|]. simpl. intros pd2 f2 Hin Hq.
      apply lookup_insert_Some in Hin as [[<- <-]|[Hne2 E2]].
      * destruct Hq as [Hq|(i & Hi & Hz & _)]; [by rewrite Hq in Hu1|]. destruct Hz. rewrite new_dir_pde by (unfold USER_PDES in *; lia).
        destruct Ht as (_ & _ & _ & _ & [_ Hi0] & _). by apply Hi0.
      * apply (Hno pd2 f2 E2). apply (footprint_same (mem v) _ pd2) in Hq; [done|]. apply Hsame.
        destruct Ht as (_ & _ & Hsp & _). by destruct (Hsp pd2 f2 E2).
    + intros pd1 f1 n1 pd2 f2 n2 [[<- <-]|[_ E1]]%lookup_insert_Some [[<- <-]|[_ E2]]%lookup_insert_Some; try done. by apply Hinj.
  - destruct Htlb as (Hc & g & Eg & Hl). split; [done|]. exists g. by rewrite lookup_insert_ne by (by apply not_eq_sym, (Hnew _ g)).
Qed.
End ops.
End PagedirOps.
