(* ===== verification/PagedirDestroy.v ===== *)
(** * Destroying a page directory

    [pagedir_destroy] gives back exactly the pages of the page directory: the
    mapped pages, the page tables and the directory itself. *)
From stdpp Require Import base gmap list list_numbers.
From Stdlib Require Import ZArith Lia.
From S2P Require Import Prelude Vaddr Bitmap Palloc Memory Pagedir PagedirInv PagedirOps.

Module PagedirDestroy.
Import Vaddr Memory Pagedir PagedirInv PagedirOps.

Section destroy.
Context {St : Type} `{PagePools St}.
Implicit Types (v : vm St) (S : gmap Z (Z → Z)) (f : Z → Z).

Lemma free_frame_ok v p (Q : unit → vm St → Prop) :
  pp_inv (pages v) → pp_used (pages v) p →
  (∀ s, pp_inv s → (∀ q, pp_used s q ↔ pp_used (pages v) q ∧ q ≠ p) → Q tt (set_pages s (set_mem (fill p 204 4096 (mem v)) v))) →
  wp (palloc_free_page p) Q v.
Proof.
  intros Hp Hu HQ. pose proof (used_ram _ p Hp Hu) as Hr. pose proof Hr as (H1 & H2 & H3).
  unfold palloc_free_page. apply wp_bind, wp_ASSERT; [by apply pg_ofs_page|].
  rewrite (proj2 (Z.eqb_neq p NULL)) by (unfold NULL, PHYS_BASE in *; lia).
  apply wp_bind, wp_modify, wp_zoom. eapply wp_mono; [by apply pp_free_ok|]. intros [] s [Hs Hq]. by apply HQ.
Qed.

(** The state [v0] when the first [i] page tables and the pages mapped by
    the first [k] entries are given back. *)
Section loops.
Context (v0 : vm St) (S : gmap Z (Z → Z)) (pd : Z) (f : Z → Z).
Hypothesis Hv : vm_ok v0 S.
Hypothesis E : S !! pd = Some f.

Definition freed (i k q : Z) : Prop :=
  (∃ t, 0 ≤ t < i ∧ pde (mem v0) pd t ≠ 0 ∧ q = frame (pde (mem v0) pd t))
  ∨ ∃ n, 0 ≤ n < k ∧ present (f n) ∧ q = frame (f n).

Definition partial (i k : Z) v : Prop :=
  pp_inv (pages v) ∧ is_bytes (mem v)
  ∧ (init_page_dir v = init_page_dir v0 ∧ cr3 v = cr3 v0 ∧ tlb v = tlb v0)
  ∧ (∀ q, pp_used (pages v) q ↔ pp_used (pages v0) q ∧ ¬ freed i k q)
  ∧ ∀ q, pp_used (pages v0) q → ¬ freed i k q → same_on q (mem v0) (mem v).

Lemma partial_ext i k i' k' v : (∀ q, freed i' k' q ↔ freed i k q) → partial i k v → partial i' k' v.
Proof.
  intros Hf (H1 & H2 & H3 & H4 & H5). split_and!; try done; try apply H3.
  - intros q. by rewrite H4, Hf.
  - intros q. rewrite Hf. apply H5.
Qed.

Lemma partial_free i k i' k' q0 v :
  partial i k v → pp_used (pages v0) q0 → ¬ freed i k q0 → (∀ q, freed i' k' q ↔ freed i k q ∨ q = q0) →
  wp (palloc_free_page q0) (λ _ v', partial i' k' v') v.
Proof.
  intros (Hp & Hby & H3 & Hu & Hm) Hq0 Hnf Hf. apply free_frame_ok; [done | by apply Hu|]. intros s Hs Hus.
  split_and!; simpl; try done; try apply H3.
  - by apply fill_bytes.
  - intros q. rewrite Hus, Hu, Hf. tauto.
  - intros q Hq Hn. rewrite Hf in Hn. apply (same_on_trans q (mem v0) (mem v)); [apply Hm; tauto|].
    pose proof Hv as ((Hp0 & _) & _). destruct (used_ram _ q Hp0 Hq) as (_ & ? & _). destruct (used_ram _ q0 Hp0 Hq0) as (_ & ? & _).
    apply same_on_fill; try done. intros ->. tauto.
Qed.

Lemma pd_not_freed i k : i ≤ USER_PDES → k ≤ USER_PAGES → ¬ freed i k pd.
Proof.
  pose proof Hv as (Ht & [Hd _] & _). intros Hi Hk [(t & Htt & Hne & Heq)|(n & Hn & Hp & Heq)].
  - destruct (table_facts v0 S pd f t Ht E) as (_ & _ & _ & _ & _ & ? & _); try done. lia.
  - destruct (Hd pd f n E) as (_ & _ & Hno); [lia | done|]. apply (Hno pd f E). rewrite <- Heq. by left.
Qed.

Lemma table_not_freed i k : 0 ≤ i < USER_PDES → k ≤ USER_PAGES → pde (mem v0) pd i ≠ 0 → ¬ freed i k (frame (pde (mem v0) pd i)).
Proof.
  pose proof Hv as (Ht & [Hd _] & _). intros Hi Hk Hne [(t & Htt & Hnet & Heq)|(n & Hn & Hp & Heq)].
  - pose proof Ht as (_ & _ & Hsp & _). destruct (Hsp pd f E) as (_ & _ & Hinj & _).
    assert (i = t); [|lia]. apply Hinj; try done. lia.
  - destruct (Hd pd f n E) as (_ & _ & Hno); [lia | done|]. apply (Hno pd f E). rewrite <- Heq. right. by exists i.
Qed.

Lemma data_not_freed i n : 0 ≤ i ≤ USER_PDES → 0 ≤ n < USER_PAGES → present (f n) → ¬ freed i n (frame (f n)).
Proof.
  pose proof Hv as (Ht & [Hd Hinj] & _). intros Hi Hn Hp [(t & Htt & Hnet & Heq)|(n' & Hn' & Hp' & Heq)].
  - destruct (Hd pd f n E Hn Hp) as (_ & _ & Hno). apply (Hno pd f E). rewrite Heq. right. exists t. split; [lia | done].
  - destruct (Hinj pd f n pd f n') as [_ ?]; try done; lia.
Qed.

Lemma freed_pte i n q : 0 ≤ n → freed i (n + 1) q ↔ freed i n q ∨ (present (f n) ∧ q = frame (f n)).
Proof.
  intros Hn. unfold freed. split.
  - intros [?|(k & Hk & Hp & ->)]; [by left; left|]. destruct (decide (k = n)) as [->|]; [by right|].
    left. right. exists k. split; [lia | done].
  - intros [[?|(k & Hk & Hp & ->)]|[Hp ->]]; [by left | right; exists k | right; exists n]; (split; [lia | done]).
Qed.
Lemma freed_table i k q :
  0 ≤ i → freed (i + 1) k q ↔ freed i k q ∨ (pde (mem v0) pd i ≠ 0 ∧ q = frame (pde (mem v0) pd i)).
Proof.
  intros Hi. unfold freed. split.
  - intros [(t & Ht & Hp & ->)|?]; [|by left; right]. destruct (decide (t = i)) as [->|]; [by right|].
    left. left. exists t. split; [lia | done].
  - intros [[(t & Ht & Hp & ->)|?]|[Hp ->]]; [left; exists t | by right | left; exists i]; (split; [lia | done]).
Qed.

Lemma inner_loop i v :
  0 ≤ i < USER_PDES → pde (mem v0) pd i ≠ 0 → partial i (1024 * i) v →
  wp (for_loop (Z.to_nat (PGSIZE / 4)) 0 (λ j,
        pte ← load (frame (pde (mem v0) pd i) + 4 * j);
        if Z.land pte PTE_P =? 0 then mret tt else
        p ← pte_get_page pte;
        palloc_free_page p)) (λ _ v', partial i (1024 * i + 1024) v') v.
Proof.
  intros Hi Hne Hv0. pose proof Hv as (Ht & [Hd _] & _). pose proof Ht as (_ & _ & Hsp & _).
  destruct (Hsp pd f E) as (_ & _ & _ & Hf). destruct (table_facts v0 S pd f i Ht E Hi Hne) as (_ & _ & _ & Hu & _).
  apply (wp_for_loop (λ j v', partial i (1024 * i + j) v')); [by rewrite Z.add_0_r| |done].
  intros j v' Hj Hpart. rewrite PGSIZE_eq in Hj. change (Z.of_nat (Z.to_nat (4096 / 4))) with 1024 in Hj.
  set (n := 1024 * i + j). assert (0 ≤ n < USER_PAGES) as Hn by (unfold n, USER_PAGES, USER_PDES in *; lia).
  assert (load32 (mem v') (frame (pde (mem v0) pd i) + 4 * j) = f n) as Hl.
  { rewrite Hf by done. unfold pte. replace (n / 1024) with i by (unfold n; div_lia). replace (n mod 1024) with j by (unfold n; div_lia).
    rewrite (proj2 (Z.eqb_neq (pde (mem v0) pd i) 0)) by done. apply load32_ext. intros k Hk. rewrite <- !Z.add_assoc.
    destruct Hpart as (_ & _ & _ & _ & Hm). apply Hm; [done | | lia].
    apply table_not_freed; try done. fold n. lia. }
  apply wp_bind, wp_gets. rewrite Hl. replace (1024 * i + (j + 1)) with (n + 1) by (unfold n; lia).
  destruct (decide (present (f n))) as [Hp|Hp].
  - rewrite is_present by done. destruct (Hd pd f n E Hn Hp) as (Hr & Hus & _). apply wp_bind, wp_pte_get_page; [done|].
    apply (partial_free i n); try done.
    + apply data_not_freed; try done. lia.
    + intros q. rewrite freed_pte by lia. naive_solver.
  - rewrite not_present by done. apply wp_ret. apply (partial_ext i n); [|done]. intros q. rewrite freed_pte by lia. naive_solver.
Qed.

Lemma outer_loop v :
  partial 0 0 v →
  wp (for_loop (Z.to_nat (pd_no PHYS_BASE)) 0 (λ i,
        pde ← load (pd + 4 * i);
        if Z.land pde PTE_P =? 0 then mret tt else
        pt ← pde_get_pt pde;
        for_loop (Z.to_nat (PGSIZE / 4)) 0 (λ j,
          pte ← load (pt + 4 * j);
          if Z.land pte PTE_P =? 0 then mret tt else
          p ← pte_get_page pte;
          palloc_free_page p) ;;
        palloc_free_page pt)) (λ _ v', partial USER_PDES USER_PAGES v') v.
Proof.
  intros Hv0. pose proof Hv as (Ht & _). pose proof Ht as (_ & _ & Hsp & _). destruct (Hsp pd f E) as (Hupd & _ & _ & Hf).
  change (Z.to_nat (pd_no PHYS_BASE)) with 768%nat.
  apply (wp_for_loop (λ i v', partial i (1024 * i) v')); [done | |done].
  intros i v' Hi Hpart. change (Z.of_nat 768) with 768 in Hi. assert (0 ≤ i < USER_PDES) as Hi' by (unfold USER_PDES; lia).
  apply wp_bind, wp_gets. assert (load32 (mem v') (pd + 4 * i) = pde (mem v0) pd i) as ->.
  { apply (pde_same (mem v0) (mem v') pd i); [|lia]. destruct Hpart as (_ & _ & _ & _ & Hm). apply Hm; [done|].
    apply pd_not_freed; unfold USER_PDES, USER_PAGES in *; lia. }
  replace (1024 * (i + 1)) with (1024 * i + 1024) by lia.
  destruct (decide (pde (mem v0) pd i = 0)) as [Hz|Hne].
  - rewrite Hz. apply wp_ret. apply (partial_ext i (1024 * i)); [|done]. intros q. rewrite freed_table by lia.
    assert (∀ n, 1024 * i ≤ n < 1024 * i + 1024 → f n = 0) as Hf0.
    { intros n Hn. rewrite Hf by (unfold USER_PAGES; lia). unfold pte. replace (n / 1024) with i by div_lia. by rewrite Hz. }
    split.
    + intros [[?|(n & Hn & Hp & ->)]|[? _]]; [by left | | done]. right. exists n. split; [|done].
      destruct (decide (n < 1024 * i)); [lia|]. rewrite Hf0 in Hp by lia. done.
    + intros [?|(n & Hn & Hp)]; left; [by left | right]. exists n. split; [lia | done].
  - destruct (table_facts v0 S pd f i Ht E Hi' Hne) as (Hr & _ & Hp & Hu & _).
    rewrite is_present by done. apply wp_bind, wp_pde_get_pt; try done. apply wp_bind.
    eapply wp_mono; [by apply inner_loop|]. intros [] v'' Hpart'.
    apply (partial_free i (1024 * i + 1024)); try done.
    + apply table_not_freed; try done. unfold USER_PAGES. lia.
    + intros q. rewrite freed_table by lia. naive_solver.
Qed.

(** The pages that go with [pd]. *)
Definition belongs (q : Z) : Prop :=
  footprint (mem v0) pd q ∨ ∃ n, 0 ≤ n < USER_PAGES ∧ present (f n) ∧ q = frame (f n).

Lemma pagedir_destroy_pages :
  pd ≠ init_page_dir v0 →
  wp (pagedir_destroy pd) (λ _ v', pp_inv (pages v') ∧ is_bytes (mem v')
    ∧ (init_page_dir v' = init_page_dir v0 ∧ cr3 v' = cr3 v0 ∧ tlb v' = tlb v0)
    ∧ (∀ q, pp_used (pages v') q ↔ pp_used (pages v0) q ∧ ¬ belongs q)
    ∧ ∀ q, pp_used (pages v0) q → ¬ belongs q → same_on q (mem v0) (mem v')) v0.
Proof.
  intros Hninit. pose proof Hv as (Ht & _). pose proof Ht as (Hp & Hby & Hsp & _). destruct (Hsp pd f E) as (Hupd & _).
  destruct (used_ram _ pd Hp Hupd) as (? & Hmod & _). unfold pagedir_destroy.
  rewrite (proj2 (Z.eqb_neq pd NULL)) by (unfold NULL, PHYS_BASE in *; lia).
  apply wp_bind, wp_gets, wp_bind, wp_ASSERT; [by apply negb_true_iff, Z.eqb_neq|].
  assert (∀ q, belongs q ↔ freed USER_PDES USER_PAGES q ∨ q = pd) as Hb.
  { intros q. unfold belongs, footprint, freed. tauto. }
  apply wp_bind. eapply wp_mono; [apply outer_loop|].
  { split_and!; try done. intros q. split; [|by intros [? _]]. intros Hq. split; [done|].
    intros [(? & ? & _)|(? & ? & _)]; lia. }
  intros [] v1 (Hp1 & Hby1 & H1 & Hu1 & Hm1). apply free_frame_ok; [done| |].
  { apply Hu1. split; [done|]. by apply pd_not_freed. }
  intros s Hs Hus. split_and!; simpl; try done; try apply H1.
  - by apply fill_bytes.
  - intros q. rewrite Hus, Hu1, Hb. tauto.
  - intros q Hq Hn. rewrite Hb in Hn. apply (same_on_trans q (mem v0) (mem v1)); [apply Hm1; tauto|].
    destruct (used_ram _ q Hp Hq) as (_ & ? & _). apply same_on_fill; try done. intros ->. tauto.
Qed.
End loops.

Lemma pagedir_destroy_ok v S pd f :
  vm_ok v S → S !! pd = Some f → pd ≠ init_page_dir v → PHYS_BASE + cr3 v ≠ pd →
  wp (pagedir_destroy pd) (λ _ v', vm_ok v' (delete pd S)
    ∧ (∀ q, pp_used (pages v') q ↔ pp_used (pages v) q ∧ ¬ belongs v pd f q)
    ∧ ∀ q, pp_used (pages v) q → ¬ belongs v pd f q → same_on q (mem v) (mem v')) v.
Proof.
  intros Hv E Hninit Hact. pose proof Hv as (Ht & Hd & Htlb). pose proof Ht as (Hp & Hby & Hsp & Hdis & [[fi Ei] Hi0] & Hk).
  eapply wp_mono; [by apply (pagedir_destroy_pages v S pd f)|]. intros [] v' (Hp' & Hby' & (Hi & Hc & Htl) & Hu & Hm).
  assert (∀ pd' f' q, S !! pd' = Some f' → pd' ≠ pd → footprint (mem v) pd' q → ¬ belongs v pd f q ∧ pp_used (pages v) q) as Hother.
  { intros pd' f' q E' Hne Hq. split; [|by apply (footprint_used (pages v) (mem v) pd' f'); [apply Hsp|]].
    intros [Hq'|(n & Hn & Hpr & ->)]; [apply Hne; by apply (Hdis pd' f' pd f q)|].
    destruct Hd as [Hd _]. destruct (Hd pd f n E Hn Hpr) as (_ & _ & Hno). by apply (Hno pd' f'). }
  assert (∀ pd' f', S !! pd' = Some f' → pd' ≠ pd → same_on pd' (mem v) (mem v')) as Hsame.
  { intros pd' f' E' Hne. destruct (Hother pd' f' pd' E' Hne) as [? ?]; [by left | by apply Hm]. }
  assert (∀ pd' f' q, S !! pd' = Some f' → pd' ≠ pd → footprint (mem v') pd' q ↔ footprint (mem v) pd' q) as Hfp.
  { intros pd' f' q E' Hne. apply footprint_same. by apply (Hsame pd' f'). }
  assert (∀ pd' f', delete pd S !! pd' = Some f' → S !! pd' = Some f' ∧ pd' ≠ pd) as Hdel.
  { intros pd' f' [? ?]%lookup_delete_Some. done. }
  split; [|done]. split_and!.
  - split_and!; try done.
    + intros pd' f' [E' Hne]%Hdel. apply (space_frame (pages v) _ (mem v)); [by apply Hsp |..]; intros q Hq;
        destruct (Hother pd' f' q E' Hne Hq); [by apply Hm | by apply Hu].
    + intros pd1 f1 pd2 f2 q [E1 Hn1]%Hdel [E2 Hn2]%Hdel. rewrite (Hfp pd1 f1), (Hfp pd2 f2) by done. by apply (Hdis pd1 f1 pd2 f2).
    + rewrite Hi, lookup_delete_ne by done. eauto.
    + intros i Hi'. rewrite Hi, (pde_same (mem v)); [by apply Hi0 | by apply (Hsame _ fi) | unfold USER_PDES in *; lia].
    + intros pd' f' i [E' Hne]%Hdel Hi'. assert (0 ≤ i < 1024) by (unfold USER_PDES in *; lia).
      rewrite Hi, (pde_same (mem v) (mem v') pd'); [|by apply (Hsame _ f') | done].
      rewrite (pde_same (mem v) (mem v')); [by apply (Hk pd' f') | by apply (Hsame _ fi) | done].
  - destruct Hd as [Hd Hinj]. split.
    + intros pd' f' n [E' Hne]%Hdel Hn Hpr. destruct (Hd pd' f' n E' Hn Hpr) as (Hr & Hus & Hno). split_and!; try apply Hr.
      * apply Hu. split; [done|]. intros [Hq|(n' & Hn' & Hpr' & Heq)]; [by apply (Hno pd f)|].
        apply Hne. by destruct (Hinj pd' f' n pd f n').
      * intros pd2 f2 [E2 Hne2]%Hdel. rewrite (Hfp pd2 f2) by done. by apply (Hno pd2 f2).
    + intros pd1 f1 n1 pd2 f2 n2 [E1 _]%Hdel [E2 _]%Hdel. by apply (Hinj pd1 f1 n1 pd2 f2 n2).
  - destruct Htlb as (Hc0 & g & Eg & Hl). split; [by rewrite Hc|]. exists g. rewrite Hc, Htl, lookup_delete_ne by done. done.
Qed.
End destroy.
End PagedirDestroy.
