(* ===== verification/PagingInit.v ===== *)
(** * The page directory of the kernel

    [paging_init] of threads/init.c maps all of RAM at its kernel addresses,
    the code of the kernel read-only, and makes a system with one address
    space that has no user pages. *)
From stdpp Require Import base gmap list list_numbers.
From Stdlib Require Import ZArith Lia.
From S2P Require Import Prelude Vaddr Bitmap Palloc Memory Pagedir PagedirInv PagedirOps.

Module PagingInit.
Import Vaddr Memory Pagedir PagedirInv PagedirOps.

(** ** Results that may be a panic *)

Definition wpp {S A} (m : M S A) (Q : A → S → Prop) (s : S) : Prop :=
  match m s with Ok (a, s') => Q a s' | Err e => e = Panic end.

Lemma wpp_bind {S A B} (m : M S A) (k : A → M S B) (Q : B → S → Prop) s :
  wpp m (λ a, wpp (k a) Q) s → wpp (m ≫= k) Q s.
Proof. unfold wpp, mbind, M_bind. by destruct (m s) as [[a s']|]. Qed.
Lemma wpp_wp {S A} (m : M S A) (Q : A → S → Prop) s : wp m Q s → wpp m Q s.
Proof. unfold wpp, wp. by destruct (m s) as [[a s']|]. Qed.
Lemma wpp_mono {S A} (m : M S A) (P Q : A → S → Prop) s : wpp m P s → (∀ a s', P a s' → Q a s') → wpp m Q s.
Proof. unfold wpp. destruct (m s) as [[a s']|]; auto. Qed.

Section init.
Context {St : Type} `{PagePools St} (start end_text : Z).
Implicit Types v : vm St.

(** The entry of the page [k] of RAM. *)
Definition kernel_pte (k : Z) : Z :=
  4096 * k + (if (start <=? PHYS_BASE + 4096 * k) && (PHYS_BASE + 4096 * k <? end_text) then 1 else 3).

Lemma wp_kernel_pte {S} k (Q : Z → S → Prop) s :
  0 ≤ k < 2^18 → Q (kernel_pte k) s →
  wp (pte_create_kernel (PHYS_BASE + 4096 * k) (negb ((start <=? PHYS_BASE + 4096 * k) && (PHYS_BASE + 4096 * k <? end_text)))) Q s.
Proof.
  intros Hk HQ. unfold pte_create_kernel, kernel_pte in *. apply wp_bind, wp_ASSERT.
  { rewrite pg_ofs_eq, PGSIZE_eq. apply Z.eqb_eq. unfold PHYS_BASE. div_lia. }
  apply wp_bind, wp_vtop; [unfold PHYS_BASE; lia|]. apply wp_ret. replace (PHYS_BASE + 4096 * k - PHYS_BASE) with (4096 * k) by lia.
  rewrite <- Z.lor_assoc. destruct ((start <=? _) && _); cbn [negb];
    [change (Z.lor PTE_P 0) with 1 | change (Z.lor PTE_P PTE_W) with 3]; rewrite lor_flags by (lia || div_lia); exact HQ.
Qed.

Lemma get_page_panic v (Q : Z → vm St → Prop) :
  pp_inv (pages v) →
  (∀ p s, pp_inv s → ¬ pp_used (pages v) p → (∀ q, pp_used s q ↔ pp_used (pages v) q ∨ q = p) →
     Q p (set_mem (fill p 0 4096 (mem v)) (set_pages s v))) →
  wpp (palloc_get_page (Z.lor Palloc.PAL_ASSERT Palloc.PAL_ZERO)) Q v.
Proof.
  intros Hp HQ. unfold palloc_get_page. apply wpp_bind, wpp_wp, wp_zoom.
  eapply wp_mono; [by apply pp_get_ok|]. intros p s [Hs [[-> Hu]|[Hnu Hu]]].
  - done.
  - destruct (used_ram s p Hs) as (? & _); [apply Hu; by right|].
    rewrite (proj2 (Z.eqb_neq p NULL)) by (unfold NULL, PHYS_BASE in *; lia).
    apply wpp_wp, wp_bind, wp_modify, wp_ret. by apply HQ.
Qed.

(** The kernel part of the page directory with tables for [t] pages, of
    which [n] are mapped. *)
Definition mapped (pd t n : Z) v : Prop :=
  pp_inv (pages v) ∧ is_bytes (mem v) ∧ init_page_dir v = pd ∧ pp_used (pages v) pd
  ∧ (∀ i, 0 ≤ i < 1024 →
       if decide (768 ≤ i ∧ 1024 * (i - 768) < t)
       then pde (mem v) pd i mod 8 = 7 ∧ 0 ≤ pde (mem v) pd i < 2^30 ∧ pp_used (pages v) (frame (pde (mem v) pd i))
            ∧ frame (pde (mem v) pd i) ≠ pd
       else pde (mem v) pd i = 0)
  ∧ (∀ i j, 768 ≤ i < 1024 → 768 ≤ j < 1024 → 1024 * (i - 768) < t → 1024 * (j - 768) < t →
       frame (pde (mem v) pd i) = frame (pde (mem v) pd j) → i = j)
  ∧ ∀ k, 0 ≤ k < n → load32 (mem v) (frame (pde (mem v) pd (768 + k / 1024)) + 4 * (k mod 1024)) = kernel_pte k.

Lemma mapped_table pd t n v k :
  mapped pd t n v → 0 ≤ k < 2^18 → 1024 * (k / 1024) < t →
  let e := pde (mem v) pd (768 + k / 1024) in
  e mod 8 = 7 ∧ 0 ≤ e < 2^30 ∧ pp_used (pages v) (frame e) ∧ ram_page (frame e) ∧ frame e ≠ pd.
Proof.
  intros (Hp & _ & _ & _ & Hpde & _) Hk Ht e. specialize (Hpde (768 + k / 1024) ltac:(div_lia)).
  rewrite decide_True in Hpde by div_lia. destruct Hpde as (? & Hr & ? & ?).
  split_and!; try done; try apply Hr; by apply (used_ram (pages v)).
Qed.

(** The page [n] has a table already. *)
Lemma mapped_old_table pd n v : mapped pd n n v → n mod 1024 ≠ 0 → 0 ≤ n → mapped pd (n + 1) n v.
Proof.
  intros (Hp & Hby & Hi & Hpd & Hpde & Hinj & Hk) Hn Hn0.
  assert (∀ i, 1024 * (i - 768) < n + 1 ↔ 1024 * (i - 768) < n) as Hlt by (intros i; div_lia).
  split_and!; try done.
  - intros i Hir. specialize (Hpde i Hir). destruct (decide (768 ≤ i ∧ 1024 * (i - 768) < n + 1)) as [Hd|Hd].
    + rewrite decide_True in Hpde; [done|]. split; [lia | by apply Hlt, Hd].
    + rewrite decide_False in Hpde; [done|]. intros [? ?%Hlt]. by apply Hd.
  - intros i j Hir Hjr ?%Hlt ?%Hlt. by apply Hinj.
Qed.

(** A new table for the page [n]. *)
Lemma mapped_new_table pd n v pt s :
  mapped pd n n v → n mod 1024 = 0 → 0 ≤ n < 2^18 → pp_inv s → ¬ pp_used (pages v) pt →
  (∀ q, pp_used s q ↔ pp_used (pages v) q ∨ q = pt) →
  let m' := with_table (mem v) pd (768 + n / 1024) pt in
  frame (pde m' pd (768 + n / 1024)) = pt ∧ mapped pd (n + 1) n (mk_vm s m' (init_page_dir v) (cr3 v) (tlb v)).
Proof.
  intros Hmap Hn Hr Hs Hnu Hu m'. pose proof Hmap as (Hp & Hby & Hi & Hpd & Hpde & Hinj & Hk).
  assert (ram_page pt) as Hrpt by (apply (used_ram s); [done|]; apply Hu; by right). pose proof Hrpt as (Hpt1 & Hpt2 & Hpt3).
  assert (ram_page pd) as Hrpd by (by apply (used_ram (pages v))). assert (pt ≠ pd) as Hne by (by intros ->).
  assert (∀ j, 0 ≤ j < 1024 → pde m' pd j = if decide (j = 768 + n / 1024) then pt - PHYS_BASE + 7 else pde (mem v) pd j) as He.
  { intros j Hj. apply with_table_pde; try done. div_lia. }
  pose proof (frame_entry pt 7 Hpt2 ltac:(lia)) as Hfr.
  assert (∀ j, 768 ≤ j < 1024 → j ≠ 768 + n / 1024 → 1024 * (j - 768) < n + 1 →
    pde (mem v) pd j mod 8 = 7 ∧ 0 ≤ pde (mem v) pd j < 2^30 ∧ pp_used (pages v) (frame (pde (mem v) pd j)) ∧ frame (pde (mem v) pd j) ≠ pd) as Hold.
  { intros j Hj Hjn Hlt. specialize (Hpde j ltac:(lia)). by rewrite decide_True in Hpde by div_lia. }
  split; [by rewrite He, decide_True by (done || div_lia)|]. split_and!; simpl; try done.
  - apply store32_bytes, fill_bytes; [lia | done].
  - apply Hu. by left.
  - intros i Hir. rewrite He by done. destruct (decide (i = 768 + n / 1024)) as [->|Hin].
    + rewrite decide_True by div_lia. rewrite Hfr.
      split_and!; try done; [unfold PHYS_BASE in *; div_lia.. | apply Hu; by right].
    + case_decide as Hd; [|specialize (Hpde i Hir); rewrite decide_False in Hpde; [done | div_lia]].
      destruct (Hold i ltac:(lia) Hin (proj2 Hd)) as (? & Hir2 & ? & ?). split_and!; try done; try apply Hir2. apply Hu. by left.
  - intros i j Hir Hjr Hilt Hjlt. rewrite !He by lia.
    destruct (decide (i = 768 + n / 1024)) as [->|Hin], (decide (j = 768 + n / 1024)) as [->|Hjn]; [done|..].
    + rewrite Hfr. intros Heq. destruct (Hold j Hjr Hjn Hjlt) as (_ & _ & Hus & _). by rewrite <- Heq in Hus.
    + rewrite Hfr. intros Heq. destruct (Hold i Hir Hin Hilt) as (_ & _ & Hus & _). by rewrite Heq in Hus.
    + apply Hinj; div_lia.
  - intros k Hk'. rewrite He, decide_False by div_lia. rewrite <- (Hk k Hk'). apply load32_ext. intros j Hj.
    destruct (mapped_table pd n n v k Hmap) as (_ & _ & Hus & (_ & ? & _) & Hnpd); [lia | div_lia|]. rewrite <- !Z.add_assoc.
    apply with_table_same; try done; [apply Hrpd | div_lia | by intros Heq; rewrite Heq in Hus | div_lia].
Qed.

(** The entry of the page [n]. *)
Lemma mapped_store pd n v :
  mapped pd (n + 1) n v → 0 ≤ n < 2^18 →
  mapped pd (n + 1) (n + 1)
    (set_mem (store32 (frame (pde (mem v) pd (768 + n / 1024)) + 4 * (n mod 1024)) (kernel_pte n) (mem v)) v).
Proof.
  intros Hmap Hr. pose proof Hmap as (Hp & Hby & Hi & Hpd & Hpde & Hinj & Hk).
  destruct (mapped_table pd (n + 1) n v n Hmap Hr) as (_ & _ & Hus & (_ & Hm & _) & Hnpd); [div_lia|].
  destruct (used_ram _ pd Hp Hpd) as (_ & Hmpd & _).
  set (pt := frame (pde (mem v) pd (768 + n / 1024))) in *. set (m' := store32 _ _ _).
  assert (∀ i, 0 ≤ i < 1024 → pde m' pd i = pde (mem v) pd i) as He.
  { intros i Hir. apply pde_same; [|done]. apply (same_on_store pd pt); try done; div_lia. }
  split_and!; simpl; try done.
  - by apply store32_bytes.
  - intros i Hir. rewrite He by done. by apply Hpde.
  - intros i j Hir Hjr. rewrite !He by lia. by apply Hinj.
  - intros k Hk'. rewrite He by div_lia. destruct (decide (k = n)) as [->|Hkn].
    + fold pt. unfold m'. rewrite load32_store32; [done|]. unfold kernel_pte. destruct (_ && _); lia.
    + rewrite <- (Hk k) by lia. destruct (mapped_table pd (n + 1) n v k Hmap) as (_ & _ & _ & (_ & Hkm & _) & _); [lia | div_lia|].
      apply load32_store32_ne. destruct (decide (k / 1024 = n / 1024)) as [Heq|Hneq]; [rewrite Heq; fold pt; div_lia|].
      assert (frame (pde (mem v) pd (768 + k / 1024)) ≠ pt) as Hfr.
      { intros Heq. apply Hneq. apply Hinj in Heq; div_lia. }
      div_lia.
Qed.

Definition table_ptr (pd n : Z) v : Z := frame (pde (mem v) pd (768 + n / 1024)).

Lemma map_page_ok pd n pt v :
  mapped pd n n v → 0 ≤ n < pp_ram → (0 < n → pt = table_ptr pd (n - 1) v) →
  wpp (map_page start end_text pd (n, pt)) (λ r v', ∃ pt', r = inl (n + 1, pt') ∧ mapped pd (n + 1) (n + 1) v' ∧ pt' = table_ptr pd n v') v.
Proof.
  intros Hmap Hn Hpt. pose proof pp_ram_range as Hram. assert (0 ≤ n < 2^18) as Hr by lia.
  pose proof Hmap as (Hp & Hby & Hi & Hpd & Hpde & _). unfold map_page. rewrite (proj2 (Z.ltb_lt n pp_ram)) by lia.
  apply wpp_bind, wpp_wp, wp_ptov; [rewrite PGSIZE_eq; lia|]. rewrite PGSIZE_eq.
  replace (PHYS_BASE + n * 4096) with (PHYS_BASE + 4096 * n) by lia.
  assert (pd_no (PHYS_BASE + 4096 * n) = 768 + n / 1024) as -> by (rewrite pd_no_eq; unfold PHYS_BASE; div_lia).
  assert (pt_no (PHYS_BASE + 4096 * n) = n mod 1024) as -> by (rewrite pt_no_eq; unfold PHYS_BASE; div_lia).
  apply wpp_bind, wpp_wp, wp_gets. change (load32 (mem v) (pd + 4 * (768 + n / 1024))) with (pde (mem v) pd (768 + n / 1024)).
  apply wpp_bind. apply (wpp_mono _ (λ pt' v', mapped pd (n + 1) n v' ∧ pt' = table_ptr pd n v')).
  - specialize (Hpde (768 + n / 1024) ltac:(div_lia)). destruct (decide (n mod 1024 = 0)) as [Hz|Hz].
    + rewrite decide_False in Hpde by div_lia. rewrite Hpde. change (0 =? 0) with true.
      apply wpp_bind, get_page_panic; [done|]. intros p s Hs Hnu Hu.
      apply wpp_wp, wp_bind, wp_pde_create; [apply (used_ram s); [done|]; apply Hu; by right|].
      apply wp_bind, wp_modify, wp_ret. 
      destruct (mapped_new_table pd n v p s) as [Hfr Hmap']; done.
    + rewrite decide_True in Hpde by div_lia. destruct Hpde as (Hpr & _).
      destruct (Z.eqb_spec (pde (mem v) pd (768 + n / 1024)) 0) as [Heq|_]; [by rewrite Heq in Hpr|].
      apply wpp_wp, wp_ret. split; [by apply mapped_old_table; try lia|]. rewrite Hpt by div_lia. unfold table_ptr.
      by replace ((n - 1) / 1024) with (n / 1024) by div_lia.
  - intros pt' v' [Hmap' ->]. apply wpp_wp, wp_bind, wp_kernel_pte; [done|]. apply wp_bind, wp_modify, wp_ret.
    exists (table_ptr pd n v'). split; [done|]. split; [by apply mapped_store|].
    unfold table_ptr. simpl. f_equal. symmetry. pose proof Hmap' as (Hp' & _ & _ & Hpd' & _).
    destruct (mapped_table pd (n + 1) n v' n Hmap' Hr) as (_ & _ & _ & (_ & ? & _) & ?); [div_lia|].
    destruct (used_ram _ pd Hp' Hpd') as (_ & ? & _).
    apply pde_same; [|div_lia]. eapply same_on_store; [done | | by apply not_eq_sym | |]; [done | div_lia..].
Qed.

Lemma map_pages_ok pd fuel n pt v :
  mapped pd n n v → 0 ≤ n ≤ pp_ram → (0 < n → pt = table_ptr pd (n - 1) v) → (Z.to_nat (pp_ram - n) < fuel)%nat →
  wpp (loop fuel (map_page start end_text pd) (n, pt)) (λ _ v', mapped pd pp_ram pp_ram v') v.
Proof.
  revert n pt v. induction fuel as [|fuel IH]; intros n pt v Hmap Hn Hpt Hf; [lia|]. simpl. apply wpp_bind.
  destruct (decide (n = pp_ram)) as [->|].
  - unfold map_page. rewrite Z.ltb_irrefl. apply wpp_wp, wp_ret. by apply wpp_wp, wp_ret.
  - eapply wpp_mono; [apply map_page_ok; try done; lia|]. intros r v' (pt' & -> & Hmap' & ->).
    apply IH; try done; [lia | intros _; f_equal; lia | lia].
Qed.

(** The address space of the kernel: all of RAM, and no user pages. *)
Lemma mapped_vm_ok pd v :
  mapped pd pp_ram pp_ram v → cr3 v = pd - PHYS_BASE → tlb v = ∅ → vm_ok v {[pd := λ _, 0]}.
Proof.
  intros (Hp & Hby & Hi & Hpd & Hpde & _) Hc Ht. destruct (used_ram _ pd Hp Hpd) as (H1 & H2 & H3).
  assert (∀ i, 0 ≤ i < USER_PDES → pde (mem v) pd i = 0) as H0.
  { intros i Hir. unfold USER_PDES in Hir. specialize (Hpde i ltac:(lia)). by rewrite decide_False in Hpde by lia. }
  assert (¬ present 0) as Hn0 by done.
  split_and!; [split_and! | split |]; try done.
  - intros pd' f' [<- <-]%lookup_singleton_Some. split_and!; try done.
    + intros i Hir. left. by apply H0.
    + intros i j Hir _ Hne. by destruct Hne; apply H0.
    + intros n Hn. unfold pte. by rewrite H0 by (unfold USER_PAGES, USER_PDES in *; div_lia).
  - intros pd1 f1 pd2 f2 q [<- _]%lookup_singleton_Some [<- _]%lookup_singleton_Some. done.
  - rewrite Hi, lookup_singleton_eq. eauto.
  - by rewrite Hi.
  - intros pd' f' i [<- _]%lookup_singleton_Some. by rewrite Hi.
  - intros pd' f' n [<- <-]%lookup_singleton_Some. done.
  - intros pd1 f1 n1 pd2 f2 n2 [<- <-]%lookup_singleton_Some [<- <-]%lookup_singleton_Some. done.
  - split; [rewrite Hc; unfold PHYS_BASE in *; lia|]. exists (λ _, 0). rewrite Hc. replace (PHYS_BASE + (pd - PHYS_BASE)) with pd by lia.
    rewrite lookup_singleton_eq. split; [done|]. intros n e _. by rewrite Ht, lookup_empty.
Qed.

Lemma paging_init_ok v :
  pp_inv (pages v) → is_bytes (mem v) →
  wpp (paging_init start end_text) (λ _ v', vm_ok v' {[init_page_dir v' := λ _, 0]}
    ∧ mapped (init_page_dir v') pp_ram pp_ram v') v.
Proof.
  intros Hp Hby. unfold paging_init. apply wpp_bind, get_page_panic; [done|]. intros pd s Hs Hnu Hu.
  assert (pp_used s pd) as Hus by (apply Hu; by right). destruct (used_ram s pd Hs Hus) as (H1 & H2 & H3).
  apply wpp_bind, wpp_wp, wp_modify. pose proof pp_ram_range as Hr.
  apply wpp_bind. eapply wpp_mono; [apply map_pages_ok|].
  - split_and!; simpl; try done.
    + by apply fill_bytes.
    + intros i Hi. rewrite decide_False by lia. apply load32_zero; lia.
    + intros i j Hi Hj Hlt. lia.
    + intros k Hk. lia.
  - lia.
  - lia.
  - lia.
  - intros [] v' Hmap. apply wpp_wp, wp_bind, wp_vtop; [lia|]. apply wp_modify.
    pose proof Hmap as (_ & _ & Hi & _). simpl. rewrite Hi. split; [|exact Hmap].
    apply mapped_vm_ok; [exact Hmap | done | done].
Qed.
End init.
End PagingInit.
