(* ===== verification/UserPages.v ===== *)
(** * The page pools of the kernel

    The page allocator of threads/palloc.c, under its first-fit policy and
    with its pools inside RAM, is the allocator that the page tables rely on.
    The source fixes the next-fit policy (line 40), with which it is not. *)
From stdpp Require Import base gmap list.
From Stdlib Require Import ZArith Lia.
From S2P Require Import Prelude Vaddr Bitmap Palloc KernelPages Pagedir.

Module UserPages.
Import Vaddr Bitmap Palloc.

Section pools.
(** The number of pages of RAM. *)
Context (ram : Z) (Hram : 0 ≤ ram ≤ 2^18).
Implicit Types st : palloc.

(** [p] is the page [i] of a pool. *)
Definition page_in (user : bool) st (p i : Z) : Prop :=
  0 ≤ i < bit_cnt (used_map (get_pool user st)) ∧ p = page (get_pool user st) i.
Definition used st (p : Z) : Prop := ∃ user i, page_in user st p i ∧ bit (used_map (get_pool user st)) i = true.
Definition ready st : Prop :=
  wf_palloc st ∧ policy st = FIRSTFIT ∧ PHYS_BASE < base (kernel_pool st)
  ∧ page (user_pool st) (bit_cnt (used_map (user_pool st))) ≤ PHYS_BASE + PGSIZE * ram.

Definition get_page (user : bool) : M palloc Z := palloc_get_multiple 1 (if user then PAL_USER else 0) 1.
Definition free_page (p : Z) : M palloc unit := palloc_free_multiple p 1.

(** A page is in one pool only. *)
Lemma page_in_inj st user i user' i' p :
  wf_palloc st → page_in user st p i → page_in user' st p i' → user = user' ∧ i = i'.
Proof.
  intros (Hk & Hu & Hord) [Hi Hp] [Hi' Hp']. unfold page in *. rewrite PGSIZE_eq in *.
  destruct user, user'; simpl in *; split; try done; lia.
Qed.

Lemma pool_used_page st p : ready st → used st p → PHYS_BASE < p ∧ p mod 4096 = 0 ∧ p + 4096 ≤ PHYS_BASE + 4096 * ram.
Proof.
  intros ((Hk & Hu & Hord) & _ & Hb & Hend) (user & i & [Hi ->] & _). unfold page in *. rewrite PGSIZE_eq in *.
  destruct Hk as (_ & [Hkc _] & _ & Hka & _), Hu as (_ & [Huc _] & _ & Hua & _). rewrite PGSIZE_eq in *.
  destruct user; simpl in *; (split_and!; [lia | rewrite Z.mul_comm, Z_mod_plus_full; done | lia]).
Qed.

(** Marking one page, or none. *)
Lemma used_mark st st' user i v cnt :
  wf_palloc st → pages_set (get_pool user st) (get_pool user st') i cnt v →
  get_pool (negb user) st' = get_pool (negb user) st → 0 ≤ cnt ≤ 1 →
  (cnt = 1 → page_in user st (page (get_pool user st) i) i) →
  ∀ q, used st' q ↔ if decide (cnt = 1 ∧ q = page (get_pool user st) i) then v = true else used st q.
Proof.
  intros Hwf (_ & Hb & _ & Hc & Hbits) Ho Hcnt Hi q.
  assert (∀ u p j, page_in u st' p j ↔ page_in u st p j) as Hpg.
  { intros u p j. unfold page_in, page. destruct (decide (u = user)) as [->|Hne]; [by rewrite Hb, Hc|].
    replace u with (negb user) by (by destruct u, user). by rewrite Ho. }
  assert (∀ u p j, page_in u st p j → bit (used_map (get_pool u st')) j
    = if decide (cnt = 1 ∧ p = page (get_pool user st) i) then v else bit (used_map (get_pool u st)) j) as Hbit.
  { intros u p j Hp. destruct (decide (u = user)) as [->|Hne].
    - rewrite Hbits by apply Hp. destruct (decide (cnt = 1 ∧ p = page (get_pool user st) i)) as [[-> ->]|Hn].
      + destruct (page_in_inj st user j user i _ Hwf Hp (Hi eq_refl)) as [_ ->]. by rewrite decide_True by lia.
      + rewrite decide_False; [done|]. intros Hj. apply Hn. split; [lia|]. destruct Hp as [_ ->]. by replace j with i by lia.
    - rewrite decide_False; [by replace u with (negb user) by (by destruct u, user); rewrite Ho|].
      intros [-> ->]. by destruct (page_in_inj st u j user i _ Hwf Hp (Hi eq_refl)). }
  unfold used. split.
  - intros (u & j & Hp%Hpg & Ht). rewrite (Hbit u q j Hp) in Ht.
    destruct (decide (cnt = 1 ∧ q = page (get_pool user st) i)); [done | by exists u, j].
  - destruct (decide (cnt = 1 ∧ q = page (get_pool user st) i)) as [Hd|Hd].
    + intros ->. destruct Hd as [-> ->]. exists user, i. rewrite Hpg. split; [by apply Hi|].
      rewrite (Hbit user _ i (Hi eq_refl)). by rewrite decide_True.
    + intros (u & j & Hp & Ht). exists u, j. rewrite Hpg. split; [done|]. by rewrite (Hbit u q j Hp), decide_False.
Qed.

Lemma ready_mark st st' user i v cnt :
  ready st → wf_palloc st' → policy st' = policy st → pages_set (get_pool user st) (get_pool user st') i cnt v →
  get_pool (negb user) st' = get_pool (negb user) st → ready st'.
Proof.
  intros (_ & Hpol & Hb & Hend) Hwf' Hpol' (_ & Hb' & _ & Hc & _) Ho. split_and!; [done | congruence |..];
    destruct user; simpl in *; unfold page in *; congruence.
Qed.

Lemma pool_get_ok st user :
  ready st →
  wp (get_page user) (λ p st', ready st'
    ∧ ((p = 0 ∧ ∀ q, used st' q ↔ used st q)
       ∨ (¬ used st p ∧ ∀ q, used st' q ↔ used st q ∨ q = p))) st.
Proof.
  intros Hr. pose proof Hr as (Hwf & Hpol & _).
  pose proof (get_multiple_firstfit 1 (if user then PAL_USER else 0) 1 st Hwf Hpol ltac:(lia)) as Hal.
  unfold allocates in Hal. replace (has (if user then PAL_USER else 0) PAL_USER) with user in Hal by (by destruct user).
  unfold wp, get_page. destruct (palloc_get_multiple 1 (if user then PAL_USER else 0) 1 st) as [[p st']|e].
  2: { destruct Hal as (_ & Hal & _). by destruct user. }
  destruct Hal as (Hwf' & Hpol' & Ho & Hcase).
  destruct Hcase as [(i & -> & _ & Hi & [Hend Hfree] & Hset & _)|(-> & _ & Hset & _)].
  - split; [by eapply (ready_mark st st' user i)|]. right.
    assert (page_in user st (page (get_pool user st) i) i) as Hp by (split; [lia | done]). split.
    + intros (u & j & Hp' & Hb). destruct (page_in_inj st u j user i _ Hwf Hp' Hp) as [-> ->].
      rewrite Hfree in Hb by lia. done.
    + intros q. rewrite (used_mark st st' user i true 1) by (done || lia).
      destruct (decide (1 = 1 ∧ q = page (get_pool user st) i)) as [Hd|Hd]; [naive_solver|].
      split; [by left|]. intros [?| ->]; [done|]. by destruct Hd.
  - split; [by eapply (ready_mark st st' user 0)|]. left. split; [done|]. intros q.
    rewrite (used_mark st st' user 0 true 0) by (done || lia). by rewrite decide_False by lia.
Qed.

Lemma pool_free_ok st p :
  ready st → used st p → wp (free_page p) (λ _ st', ready st' ∧ ∀ q, used st' q ↔ used st q ∧ q ≠ p) st.
Proof.
  intros Hr (user & i & Hp & Hb). pose proof Hr as (Hwf & Hpol & _). pose proof Hp as [Hi ->].
  pose proof (free_spec user st i 1 Hwf ltac:(lia) ltac:(lia) ltac:(lia)) as Hf. unfold wp, free_page.
  destruct (palloc_free_multiple _ 1 st) as [[[] st']|e].
  - destruct Hf as (_ & Hwf' & Hpol' & _ & Ho & Hset & _). split; [by eapply (ready_mark st st' user i)|].
    intros q. rewrite (used_mark st st' user i false 1) by (done || lia).
    destruct (decide (1 = 1 ∧ q = page (get_pool user st) i)) as [Hd|Hd].
    + destruct Hd as [_ ->]. split; [done | by intros [_ ?]].
    + split; [|by intros [? _]]. intros Hq. split; [done|]. intros ->. by destruct Hd.
  - exfalso. destruct Hf as [_ Hno]. apply Hno. intros j Hj. by replace j with i by lia.
Qed.

Definition pools : PagePools palloc := {|
  pp_ram := ram; pp_inv := ready; pp_used := used; pp_get := get_page; pp_free := free_page;
  pp_ram_range := Hram; pp_used_page := pool_used_page; pp_get_ok := pool_get_ok; pp_free_ok := pool_free_ok
|}.
End pools.
End UserPages.
