(* ===== verification/PagedirProps.v ===== *)
(** * What page tables promise

    Address spaces as the processor sees them: the translation of user
    addresses, the isolation of processes from each other and from the page
    tables, and the effect of every operation of userprog/pagedir.c. *)
From stdpp Require Import base gmap list list_numbers.
From Stdlib Require Import ZArith Lia.
From S2P Require Import Prelude Vaddr Bitmap Palloc Memory Pagedir PagedirInv PagedirOps PagedirDestroy PagingInit UserPages.

Module PagedirProps.
Import Vaddr Memory Pagedir PagedirInv PagedirOps PagedirDestroy PagingInit.

(** ** The processor

    The translation of an address by a walk of the page tables: the address,
    and whether the page may be written and used by user code. *)
Definition translate (m : Z → Z) (pd va : Z) : option (Z * bool * bool) :=
  let e := pde m pd (va / 4194304) in
  if bool_decide (present e) then
    let x := load32 m (frame e + 4 * (va / 4096 mod 1024)) in
    if bool_decide (present x) then
      Some (frame x + va mod 4096, Z.testbit e 1 && Z.testbit x 1, Z.testbit e 2 && Z.testbit x 2)
    else None
  else None.

(** The same, from the entries of an address space. *)
Definition translation (f : Z → Z) (va : Z) : option (Z * bool * bool) :=
  let x := f (va / 4096) in
  if bool_decide (present x) then Some (frame x + va mod 4096, Z.testbit x 1, Z.testbit x 2) else None.

Section props.
Context {St : Type} `{PagePools St}.
Implicit Types (v : vm St) (S : gmap Z (Z → Z)) (f : Z → Z).

Definition active v : Z := PHYS_BASE + cr3 v.

(** Steps of the kernel and of the processor on a system of address spaces. *)
Inductive step v S : vm St → gmap Z (Z → Z) → Prop :=
  | step_create pd v' :
      pagedir_create v = Ok (pd, v') → step v S v' (if pd =? NULL then S else <[pd := λ _, 0]> S)
  | step_set pd f upage kpage w ok v' :
      S !! pd = Some f → pd ≠ init_page_dir v → 0 ≤ upage < PHYS_BASE → upage mod 4096 = 0 →
      unmapped v S kpage → ¬ present (f (upage / 4096)) →
      pagedir_set_page pd upage kpage w v = Ok (ok, v') →
      step v S v' (if (ok : bool) then <[pd := upd f (upage / 4096) (user_pte kpage w)]> S else S)
  | step_clear pd f upage v' :
      S !! pd = Some f → 0 ≤ upage < PHYS_BASE → upage mod 4096 = 0 → present (f (upage / 4096)) →
      pagedir_clear_page pd upage v = Ok (tt, v') →
      step v S v' (<[pd := upd f (upage / 4096) (Z.ldiff (f (upage / 4096)) PTE_P)]> S)
  | step_bit pd f va b value v' :
      S !! pd = Some f → 0 ≤ va < PHYS_BASE → b = PTE_A ∨ b = PTE_D → f (va / 4096) ≠ 0 →
      set_bit b pd va value v = Ok (tt, v') →
      step v S v' (<[pd := upd f (va / 4096) (if value then Z.lor (f (va / 4096)) b else Z.ldiff (f (va / 4096)) b)]> S)
  | step_activate pd v' :
      pd = NULL ∨ is_Some (S !! pd) → pagedir_activate pd v = Ok (tt, v') → step v S v' S
  | step_destroy pd f v' :
      S !! pd = Some f → pd ≠ init_page_dir v → pd ≠ active v → pagedir_destroy pd v = Ok (tt, v') →
      step v S v' (delete pd S)
  | step_get flags p v' :
      Palloc.has flags Palloc.PAL_ASSERT = false → palloc_get_page flags v = Ok (p, v') → step v S v' S
  | step_free p v' : unmapped v S p → palloc_free_page p v = Ok (tt, v') → step v S v' S
  | step_write q k x :
      pp_used (pages v) q → (∀ pd f, S !! pd = Some f → ¬ footprint (mem v) pd q) → 0 ≤ k < 4096 →
      step v S (set_mem (store8 (q + k) x (mem v)) v) S
  | step_touch f n b :
      S !! active v = Some f → 0 ≤ n < USER_PAGES → present (f n) → b = PTE_A ∨ b = PTE_D →
      step v S (set_mem (store32 (pte_addr v (active v) n) (Z.lor (f n) b) (mem v)) v)
        (<[active v := upd f n (Z.lor (f n) b)]> S)
  | step_fill f n :
      S !! active v = Some f → present (f n) →
      step v S (mk_vm (pages v) (mem v) (init_page_dir v) (cr3 v) (<[n := f n]> (tlb v))) S.

(** The systems that can arise after [paging_init]. *)
Inductive reach : vm St → gmap Z (Z → Z) → Prop :=
  | reach_init start end_text v v' :
      pp_inv (pages v) → is_bytes (mem v) → paging_init start end_text v = Ok (tt, v') →
      reach v' {[init_page_dir v' := λ _, 0]}
  | reach_step v S v' S' : reach v S → step v S v' S' → reach v' S'.

(** Changes outside of the page tables. *)
Lemma vm_ok_frame v v' S :
  vm_ok v S → pp_inv (pages v') → is_bytes (mem v') → init_page_dir v' = init_page_dir v → cr3 v' = cr3 v → tlb v' = tlb v →
  (∀ pd f q, S !! pd = Some f → footprint (mem v) pd q → same_on q (mem v) (mem v') ∧ pp_used (pages v') q) →
  (∀ pd f n, S !! pd = Some f → 0 ≤ n < USER_PAGES → present (f n) → pp_used (pages v') (frame (f n))) →
  vm_ok v' S.
Proof.
  intros (Ht & [Hd Hinj] & Htlb) Hp' Hby' Hi Hc Hl Hfr Hdu. pose proof Ht as (Hp & Hby & Hsp & Hdis & [Hin Hi0] & Hk).
  assert (∀ pd f, S !! pd = Some f → same_on pd (mem v) (mem v')) as Hsame.
  { intros pd f E. apply (Hfr pd f pd E). by left. }
  assert (∀ pd f q, S !! pd = Some f → footprint (mem v') pd q ↔ footprint (mem v) pd q) as Hfp.
  { intros pd f q E. apply footprint_same. by apply (Hsame pd f). }
  assert (∀ pd f i, S !! pd = Some f → 0 ≤ i < 1024 → pde (mem v') pd i = pde (mem v) pd i) as Hpde.
  { intros pd f i E Hi'. apply pde_same; [by apply (Hsame pd f) | done]. }
  destruct Hin as [fi Ei]. split_and!.
  - split_and!; try done.
    + intros pd f E. apply (space_frame (pages v) _ (mem v)); [by apply Hsp |..]; intros q Hq; by apply (Hfr pd f).
    + intros pd1 f1 pd2 f2 q E1 E2. rewrite (Hfp pd1 f1), (Hfp pd2 f2) by done. by apply (Hdis pd1 f1 pd2 f2).
    + rewrite Hi. eauto.
    + intros i Hi'. rewrite Hi, (Hpde _ fi) by (done || unfold USER_PDES in *; lia). by apply Hi0.
    + intros pd f i E Hi'. rewrite Hi, (Hpde _ f), (Hpde _ fi) by (done || unfold USER_PDES in *; lia). by apply (Hk pd f).
  - split; [|done]. intros pd f n E Hn Hpr. destruct (Hd pd f n E Hn Hpr) as (Hr & _ & Hno). split_and!; try apply Hr.
    + by apply (Hdu pd f).
    + intros pd' f' E'. rewrite (Hfp pd' f') by done. by apply (Hno pd' f').
  - unfold tlb_ok. by rewrite Hc, Hl.
Qed.

Lemma wp_run {A} (m : M (vm St) A) (Q : A → vm St → Prop) v a v' : wp m Q v → m v = Ok (a, v') → Q a v'.
Proof. unfold wp. intros Hw Hm. by rewrite Hm in Hw. Qed.

Lemma pagedir_activate_ok v S pd :
  vm_ok v S → (pd = NULL ∨ is_Some (S !! pd)) →
  wp (pagedir_activate pd) (λ _ v', vm_ok v' S ∧ tlb v' = ∅ ∧ mem v' = mem v ∧ pages v' = pages v
    ∧ active v' = if pd =? NULL then init_page_dir v else pd) v.
Proof.
  intros (Ht & Hd & _) Hpd. pose proof Ht as (_ & _ & _ & _ & [Hin _] & _). unfold pagedir_activate.
  apply wp_bind, wp_gets. set (p := if pd =? NULL then init_page_dir v else pd).
  assert (is_Some (S !! p)) as [f E].
  { unfold p. destruct (Z.eqb_spec pd NULL); [done | by destruct Hpd]. }
  pose proof (pd_range v S p f Ht E) as Hr. apply wp_bind, wp_vtop; [lia|]. apply wp_modify.
  assert (PHYS_BASE + (p - PHYS_BASE) = p) as Hp by lia.
  split_and!; try done. split_and!; [done | done|]. split; [unfold PHYS_BASE in *; simpl; lia|]. exists f. simpl. rewrite Hp.
  split; [done|]. intros n e _ Hl. by rewrite lookup_empty in Hl.
Qed.

Lemma touched_pde v S pd f n : vm_ok v S → S !! pd = Some f → 0 ≤ n < USER_PAGES → f n ≠ 0 → pde (mem v) pd (n / 1024) ≠ 0.
Proof. intros (Ht & _) E Hn Hf Hz. apply Hf. by apply (no_pte v S pd). Qed.

Lemma step_get_ok v S flags p v' :
  vm_ok v S → Palloc.has flags Palloc.PAL_ASSERT = false → palloc_get_page flags v = Ok (p, v') →
  vm_ok v' S ∧ (p ≠ NULL → unmapped v' S p).
Proof.
  intros Hv Hfl Hrun. pose proof Hv as (Ht & [Hd Hinj] & _). pose proof Ht as (Hp & Hby & Hsp & _). revert Hrun.
  apply (wp_run (palloc_get_page flags) (λ p v', vm_ok v' S ∧ (p ≠ NULL → unmapped v' S p))). apply get_page_ok; try done.
  - intros s Hs Hu. split; [|done]. apply (vm_ok_frame v); try done.
    + intros pd f q E Hq. split; [done|]. apply Hu. by apply (footprint_used (pages v) (mem v) pd f q); [apply Hsp|].
    + intros pd f n E Hn Hpr. apply Hu. by destruct (Hd pd f n E Hn Hpr) as (_ & ? & _).
  - intros q s Hs Hnu Hu. destruct (used_ram s q Hs) as (_ & Hqm & _); [apply Hu; by right|].
    set (m' := if Palloc.has flags Palloc.PAL_ZERO then fill q 0 4096 (mem v) else mem v).
    assert (∀ pd f q', S !! pd = Some f → footprint (mem v) pd q' → same_on q' (mem v) m' ∧ pp_used (pages v) q') as Hfp.
    { intros pd f q' E Hq'. assert (pp_used (pages v) q') as Hu' by (by apply (footprint_used (pages v) (mem v) pd f q'); [apply Hsp|]).
      split; [|done]. unfold m'. destruct (Palloc.has flags Palloc.PAL_ZERO); [|done].
      destruct (used_ram _ q' Hp Hu') as (_ & ? & _). apply same_on_fill; try done. by intros ->. }
    assert (vm_ok (set_mem m' (set_pages s v)) S) as Hv'.
    { apply (vm_ok_frame v); try done.
      - unfold m'. simpl. destruct (Palloc.has flags Palloc.PAL_ZERO); [by apply fill_bytes | done].
      - intros pd f q' E Hq'. destruct (Hfp pd f q' E Hq'). split; [done|]. apply Hu. by left.
      - intros pd f n E Hn Hpr. apply Hu. left. by destruct (Hd pd f n E Hn Hpr) as (_ & ? & _). }
    split; [done|]. intros _. split_and!.
    + apply Hu. by right.
    + intros pd f E Hq. apply Hnu. assert (footprint (mem v) pd q) as Hq0.
      { apply (footprint_same (mem v) m' pd q); [|done]. apply (Hfp pd f pd E). by left. }
      by apply (Hfp pd f q E).
    + intros pd f n E Hn Hpr <-. apply Hnu. by destruct (Hd pd f n E Hn Hpr) as (_ & ? & _).
Qed.

Lemma step_free_ok v S p : vm_ok v S → unmapped v S p → wp (palloc_free_page p) (λ _ v', vm_ok v' S) v.
Proof.
  intros Hv (Hu & Hno & Hnm). pose proof Hv as (Ht & [Hd _] & _). pose proof Ht as (Hp & Hby & Hsp & _).
  destruct (used_ram _ p Hp Hu) as (_ & Hpm & _). apply free_frame_ok; [done | done|]. intros s Hs Hus.
  apply (vm_ok_frame v); try done.
  - by apply fill_bytes.
  - intros pd f q E Hq. assert (pp_used (pages v) q) as Huq by (by apply (footprint_used (pages v) (mem v) pd f q); [apply Hsp|]).
    assert (q ≠ p) as Hne by (intros ->; by apply (Hno pd f)). destruct (used_ram _ q Hp Huq) as (_ & ? & _).
    split; [by apply same_on_fill | by apply Hus].
  - intros pd f n E Hn Hpr. apply Hus. split; [by destruct (Hd pd f n E Hn Hpr) as (_ & ? & _) | by apply (Hnm pd f n)].
Qed.

Lemma step_write_ok v S q k x :
  vm_ok v S → pp_used (pages v) q → (∀ pd f, S !! pd = Some f → ¬ footprint (mem v) pd q) → 0 ≤ k < 4096 →
  vm_ok (set_mem (store8 (q + k) x (mem v)) v) S.
Proof.
  intros Hv Hu Hno Hk. pose proof Hv as (Ht & [Hd _] & _). pose proof Ht as (Hp & Hby & Hsp & _).
  destruct (used_ram _ q Hp Hu) as (_ & Hqm & _). apply (vm_ok_frame v); try done.
  - by apply store8_bytes.
  - intros pd f q' E Hq'. assert (pp_used (pages v) q') as Huq by (by apply (footprint_used (pages v) (mem v) pd f q'); [apply Hsp|]).
    split; [|done]. destruct (used_ram _ q' Hp Huq) as (_ & ? & _). intros j Hj. simpl. unfold store8.
    destruct (Z.eqb_spec (q' + j) (q + k)) as [Heq|]; [|done]. exfalso. apply (Hno pd f E).
    replace q with q'; [done|]. div_lia.
  - intros pd f n E Hn Hpr. by destruct (Hd pd f n E Hn Hpr) as (_ & ? & _).
Qed.

Lemma cached_refl e : present e → cached e e.
Proof. intros He. split; [done|]. intros k _. by case_decide. Qed.

Lemma step_ok v S v' S' : vm_ok v S → step v S v' S' → vm_ok v' S'.
Proof.
  intros Hv Hs. destruct Hs as [pd v' Hrun|pd f upage kpage w ok v' E Hni Hup Hum Hk Hnp Hrun|pd f upage v' E Hup Hum Hp Hrun
    |pd f va b value v' E Hva Hb Hf Hrun|pd v' Hpd Hrun|pd f v' E Hni Hna Hrun|flags p v' Hfl Hrun|p v' Hp Hrun|q k x Hu Hno Hk
    |f n b E Hn Hp Hb|f n E Hp].
  - pose proof (wp_run _ _ _ _ _ (pagedir_create_ok v S Hv) Hrun) as (_ & _ & _ & [[-> ?]|[(? & _) [_ ?]]]); [done|].
    by rewrite (proj2 (Z.eqb_neq pd NULL)) by (unfold NULL, PHYS_BASE in *; lia).
  - pose proof (wp_run _ _ _ _ _ (pagedir_set_page_ok v S pd f upage kpage w Hv E Hni Hup Hum Hk Hnp) Hrun) as (_ & _ & Hv').
    destruct ok; [done | apply Hv'].
  - pose proof (wp_run _ _ _ _ _ (pagedir_clear_page_ok v S pd f upage Hv E Hup Hum) Hrun) as [_ Hv'].
    by rewrite bool_decide_true in Hv'.
  - by destruct (wp_run _ _ _ _ _ (set_bit_ok v S pd f va b value Hv E Hva Hb) Hrun) as [_ [?|[_ ?]]].
  - by destruct (wp_run _ _ _ _ _ (pagedir_activate_ok v S pd Hv Hpd) Hrun).
  - by destruct (wp_run _ _ _ _ _ (pagedir_destroy_ok v S pd f Hv E Hni (not_eq_sym Hna)) Hrun).
  - by destruct (step_get_ok v S flags p v' Hv Hfl Hrun).
  - exact (wp_run _ _ _ _ _ (step_free_ok v S p Hv Hp) Hrun).
  - by apply step_write_ok.
  - assert (f n ≠ 0) as Hnz by (intros Hz; by rewrite Hz in Hp).
    pose proof (set_flag_ok v S (active v) f n b Hv E Hn (touched_pde v S _ f n Hv E Hn Hnz) Hb) as Hw.
    by destruct (wp_run _ _ _ _ _ Hw eq_refl).
  - destruct Hv as (Ht & Hd & Hc & g & Eg & Hl). split_and!; [done | done|]. split; [done|]. exists g. split; [done|].
    simpl. intros k e Hk. unfold active in E. rewrite E in Eg. injection Eg as <-.
    rewrite lookup_insert_Some. intros [[-> <-]|[_ He]]; [by apply cached_refl | by apply Hl].
Qed.

Lemma reach_vm_ok v S : reach v S → vm_ok v S.
Proof.
  induction 1 as [start end_text v v' Hp Hby Hrun|v S v' S' _ IH Hs].
  - pose proof (paging_init_ok start end_text v Hp Hby) as Hw. unfold wpp in Hw. rewrite Hrun in Hw. by destruct Hw.
  - by eapply step_ok.
Qed.

(** The walk of the page tables finds the entries of the address space. *)
Lemma translate_space v S pd f va :
  vm_ok v S → S !! pd = Some f → 0 ≤ va < PHYS_BASE → translate (mem v) pd va = translation f va.
Proof.
  intros (Ht & _) E Hva. destruct (user_page va Hva) as (Hn & _). unfold translate, translation.
  replace (va / 4194304) with (va / 4096 / 1024) by (rewrite Z.div_div by lia; done).
  assert (0 ≤ va / 4096 / 1024 < USER_PDES) as Hi by (unfold USER_PAGES, USER_PDES in *; div_lia).
  destruct (decide (pde (mem v) pd (va / 4096 / 1024) = 0)) as [Hz|Hz].
  - rewrite Hz, (no_pte v S pd f _ Ht E Hn Hz). done.
  - destruct (table_facts v S pd f _ Ht E Hi Hz) as (He & H7 & Hp & _). rewrite bool_decide_true by done.
    destruct (load_pte v S pd f (va / 4096) Ht E Hn Hz) as [Hl _]. unfold pte_addr in Hl. rewrite Hl.
    assert (∀ k, 0 ≤ k < 3 → Z.testbit (pde (mem v) pd (va / 4096 / 1024)) k = true) as Hbit.
    { intros k Hk. rewrite <- (Z.mod_pow2_bits_low _ 3) by lia. change (2^3) with 8. rewrite H7.
      assert (k = 0 ∨ k = 1 ∨ k = 2) as [-> | [-> | ->]] by lia; done. }
    by rewrite !Hbit by lia.
Qed.

Lemma translation_Some f va a w u :
  translation f va = Some (a, w, u) → present (f (va / 4096)) ∧ a = frame (f (va / 4096)) + va mod 4096.
Proof. unfold translation. case_bool_decide; [|done]. by intros [= <- _ _]. Qed.

Lemma frame_aligned v S pd f n :
  vm_ok v S → S !! pd = Some f → 0 ≤ n < USER_PAGES → present (f n) → frame (f n) mod 4096 = 0.
Proof.
  intros (Ht & [Hd _] & _) E Hn Hp. destruct (Hd pd f n E Hn Hp) as (_ & Hu & _).
  by destruct (used_ram _ _ (proj1 Ht) Hu) as (_ & ? & _).
Qed.

Lemma translation_frame v S pd f va a w u :
  vm_ok v S → S !! pd = Some f → 0 ≤ va < PHYS_BASE → translation f va = Some (a, w, u) →
  present (f (va / 4096)) ∧ frame (f (va / 4096)) = a - a mod 4096.
Proof.
  intros Hv E Hva [Hp ->]%translation_Some. destruct (user_page va Hva) as (Hn & _).
  pose proof (frame_aligned v S pd f _ Hv E Hn Hp). split; [done|]. div_lia.
Qed.

Lemma bind_Err {A B} (m : M (vm St) A) (k : A → M (vm St) B) v a v' e : m v = Ok (a, v') → k a v' = Err e → (m ≫= k) v = Err e.
Proof. unfold mbind, M_bind. by intros ->. Qed.
Lemma bind_wp_Err {A B} (m : M (vm St) A) (k : A → M (vm St) B) v e : wp m (λ a v', k a v' = Err e) v → (m ≫= k) v = Err e.
Proof. intros (a & v' & Hm & Hk)%wp_Ok. by eapply bind_Err. Qed.

Lemma dirty_bit e (value : bool) :
  negb (Z.land (if value then Z.lor e PTE_D else Z.ldiff e PTE_D) PTE_D =? 0) = value.
Proof.
  destruct value.
  - apply negb_true_iff, Z.eqb_neq. intros Hz. apply (f_equal (λ x, Z.testbit x 6)) in Hz.
    rewrite Z.land_spec, Z.lor_spec, Z.testbit_0_l in Hz. change (Z.testbit PTE_D 6) with true in Hz.
    by rewrite orb_true_r in Hz.
  - apply negb_false_iff, Z.eqb_eq, Z.bits_inj'. intros k Hk. rewrite Z.land_spec, Z.ldiff_spec, Z.testbit_0_l.
    by destruct (Z.testbit e k), (Z.testbit PTE_D k).
Qed.

(** Mapping a page that is mapped fails an assertion. *)
Lemma set_page_mapped v S pd f upage kpage w :
  vm_ok v S → S !! pd = Some f → pd ≠ init_page_dir v → 0 ≤ upage < PHYS_BASE → upage mod 4096 = 0 →
  unmapped v S kpage → present (f (upage / 4096)) → pagedir_set_page pd upage kpage w v = Err Panic.
Proof.
  intros Hv E Hninit Hup Hum (Hku & _) Hpr. pose proof Hv as ((Hp & _) & _).
  pose proof (used_ram _ kpage Hp Hku) as Hkr. pose proof Hkr as (Hk1 & Hk2 & Hk3).
  destruct (pp_used_page _ kpage Hp Hku) as (_ & _ & Hram). destruct (user_page upage Hup) as (Hn & _).
  unfold pagedir_set_page. apply bind_wp_Err, wp_ASSERT; [rewrite pg_ofs_eq, PGSIZE_eq, Hum; done|].
  apply bind_wp_Err, wp_ASSERT; [by apply pg_ofs_page|]. apply bind_wp_Err, wp_ASSERT; [apply Z.ltb_lt; lia|].
  apply bind_wp_Err, wp_vtop; [lia|]. apply bind_wp_Err, wp_ASSERT.
  { change PTSHIFT with 12. rewrite Z.shiftr_div_pow2 by lia. apply Z.ltb_lt. change (2^12) with 4096. div_lia. }
  apply bind_wp_Err, wp_gets, bind_wp_Err, wp_ASSERT; [by apply negb_true_iff, Z.eqb_neq|].
  apply bind_wp_Err. eapply wp_mono; [by apply (make_pte_ok v S pd f upage)|].
  intros a v1 (Hv1 & _ & _ & _ & [(-> & Hz & _)|[-> Hne]]); [by rewrite Hz in Hpr|].
  destruct (load_pte v1 S pd f (upage / 4096) (proj1 Hv1) E Hn Hne) as [Hl Ha].
  rewrite (proj2 (Z.eqb_neq _ NULL)) by (unfold NULL; lia). apply bind_wp_Err, wp_gets. rewrite Hl.
  rewrite is_present by done. done.
Qed.
End props.

(** The kernel part of the translation after [paging_init]. *)
Lemma mapped_translate {St} `{PagePools St} start end_text pd (v : vm St) k ofs :
  mapped start end_text pd pp_ram pp_ram v → 0 ≤ k < pp_ram → 0 ≤ ofs < 4096 →
  translate (mem v) pd (PHYS_BASE + 4096 * k + ofs)
  = Some (PHYS_BASE + 4096 * k + ofs,
          negb ((start <=? PHYS_BASE + 4096 * k) && (PHYS_BASE + 4096 * k <? end_text)), false).
Proof.
  intros Hmap Hk Ho. pose proof pp_ram_range as Hr. pose proof Hmap as (_ & _ & _ & _ & _ & _ & Hpte).
  destruct (mapped_table start end_text pd pp_ram pp_ram v k Hmap) as (H7 & He & _); [lia | div_lia|].
  specialize (Hpte k Hk). unfold translate.
  replace ((PHYS_BASE + 4096 * k + ofs) / 4194304) with (768 + k / 1024) by (unfold PHYS_BASE; div_lia).
  replace ((PHYS_BASE + 4096 * k + ofs) / 4096 mod 1024) with (k mod 1024) by (unfold PHYS_BASE; div_lia).
  replace ((PHYS_BASE + 4096 * k + ofs) mod 4096) with ofs by (unfold PHYS_BASE; div_lia).
  rewrite bool_decide_true by (unfold present; div_lia). rewrite Hpte. unfold kernel_pte.
  assert (∀ fl, 0 ≤ fl < 4 → frame (4096 * k + fl) = PHYS_BASE + 4096 * k) as Hfr by (intros fl Hfl; unfold frame; div_lia).
  assert (∀ x j, 0 ≤ j < 3 → Z.testbit x j = Z.testbit (x mod 8) j) as Hlow.
  { intros x j Hj. change 8 with (2^3). by rewrite Z.mod_pow2_bits_low by lia. }
  assert (∀ fl, 0 ≤ fl < 4 → (4096 * k + fl) mod 8 = fl) as Hm by (intros fl Hfl; div_lia).
  rewrite (Hlow (pde _ _ _) 1), (Hlow (pde _ _ _) 2), H7 by lia.
  destruct ((start <=? _) && _); (rewrite bool_decide_true by (unfold present; div_lia));
    rewrite Hfr, !(Hlow (4096 * k + _)), Hm by lia; done.
Qed.

(** ** A small machine *)

(** 336 pages of RAM, with two pools of 40 pages at the end. *)
Definition small_pools : PagePools Palloc.palloc := UserPages.pools 336 ltac:(lia).

Definition boot : vm Palloc.palloc := mk_vm Palloc.two_pools (λ _, 0) 0 0 ∅.
Definition boot_run : res (unit * vm Palloc.palloc) :=
  @paging_init Palloc.palloc small_pools 3221356544 3221405696 boot.
Definition of_run {A} (d : A) (r : res (unit * A)) : A := match r with Ok (_, v) => v | Err _ => d end.
Definition booted : vm Palloc.palloc := of_run boot boot_run.

Lemma small_ready : pp_inv (PagePools := small_pools) Palloc.two_pools.
Proof. split_and!; [apply Palloc.two_pools_wf | done..]. Qed.

Lemma of_run_Ok {A} (d : A) (r : res (unit * A)) :
  match r with Ok _ => true | Err _ => false end = true → r = Ok (tt, of_run d r).
Proof. by destruct r as [[[] v]|e]. Qed.
Lemma booted_run : boot_run = Ok (tt, booted).
Proof. apply of_run_Ok. vm_compute. reflexivity. Qed.

Lemma booted_reach : @reach Palloc.palloc small_pools booted {[init_page_dir booted := λ _, 0]}.
Proof.
  generalize booted_run. generalize booted. unfold boot_run. intros v Hrun.
  exact (@reach_init Palloc.palloc small_pools 3221356544 3221405696 boot v small_ready (λ _, conj (Z.le_refl 0) eq_refl) Hrun).
Qed.

(** A process with an empty address space, and a page for it. *)
Definition result {A} (d : A) (r : res A) : A := match r with Ok x => x | Err _ => d end.
Lemma result_Ok {A} (d : A) (r : res A) : match r with Ok _ => true | Err _ => false end = true → r = Ok (result d r).
Proof. by destruct r. Qed.

Definition dir_run : res (Z * vm Palloc.palloc) := @pagedir_create Palloc.palloc small_pools booted.
Definition first_dir : Z * vm Palloc.palloc := result (NULL, booted) dir_run.
Definition one_process : gmap Z (Z → Z) := <[first_dir.1 := λ _, 0]> {[init_page_dir booted := λ _, 0]}.
Definition frame_run : res (Z * vm Palloc.palloc) := @palloc_get_page Palloc.palloc small_pools Palloc.PAL_USER first_dir.2.
Definition user_frame : Z * vm Palloc.palloc := result (NULL, first_dir.2) frame_run.

Lemma dir_facts : dir_run = Ok first_dir ∧ first_dir.1 = 3222298624 ∧ init_page_dir first_dir.2 ≠ first_dir.1.
Proof. split_and!; [apply result_Ok | | ]; vm_compute; done. Qed.
Lemma user_frame_facts : frame_run = Ok user_frame ∧ user_frame.1 = 3222437888 ∧ init_page_dir user_frame.2 ≠ first_dir.1.
Proof. split_and!; [apply result_Ok | | ]; vm_compute; done. Qed.

Lemma dir_reach : @reach Palloc.palloc small_pools first_dir.2 one_process.
Proof.
  destruct dir_facts as (Hrun & Hd & _). unfold one_process. pose proof booted_reach as Hb.
  revert Hrun Hd. unfold dir_run. generalize first_dir. intros [p v] Hrun Hd. cbn [fst snd] in *.
  refine (reach_step _ _ _ _ Hb _). pose proof (@step_create Palloc.palloc small_pools booted {[init_page_dir booted := λ _, 0]} p v Hrun) as Hs.
  by rewrite (proj2 (Z.eqb_neq p NULL)) in Hs by (unfold NULL; lia).
Qed.
Lemma process_reach : @reach Palloc.palloc small_pools user_frame.2 one_process.
Proof.
  destruct user_frame_facts as (Hrun & _). pose proof dir_reach as Hb. revert Hrun. unfold frame_run. generalize user_frame.
  intros [p v] Hrun. refine (reach_step _ _ _ _ Hb _). exact (@step_get Palloc.palloc small_pools first_dir.2 _ Palloc.PAL_USER p v eq_refl Hrun).
Qed.
Lemma user_frame_unmapped : @unmapped Palloc.palloc small_pools user_frame.2 one_process user_frame.1.
Proof.
  destruct user_frame_facts as (Hrun & Hp & _). pose proof (@reach_vm_ok Palloc.palloc small_pools _ _ dir_reach) as Hv.
  revert Hrun Hp. unfold frame_run. generalize user_frame. intros [p v] Hrun Hp. cbn [fst snd] in *.
  destruct (@step_get_ok Palloc.palloc small_pools first_dir.2 one_process Palloc.PAL_USER p v Hv eq_refl Hrun) as [_ Hu].
  apply Hu. unfold NULL. lia.
Qed.
Lemma dir_not_init : first_dir.1 ≠ init_page_dir user_frame.2.
Proof. apply not_eq_sym, user_frame_facts. Qed.

(** ** Claims *)

(** C11: Address spaces are isolated.  After any sequence of operations on page
    directories, allocations, releases, writes to data pages, and accesses by
    the processor: the processor translates a user address as the entries of
    the address space say; a page is mapped by one address space only, at one
    place; no user address leads to a page directory or a page table; the
    kernel part of every page directory is that of [init_page_dir]; and what
    the TLB has cached of the active address space agrees with it. *)
Theorem address_spaces_isolated {St} `{PagePools St} (v : vm St) S pd f :
  reach v S → S !! pd = Some f →
  (∀ va, 0 ≤ va < PHYS_BASE → translate (mem v) pd va = translation f va)
  ∧ (∀ va a w u, 0 ≤ va < PHYS_BASE → translate (mem v) pd va = Some (a, w, u) →
       (∀ pd' f', S !! pd' = Some f' → ¬ footprint (mem v) pd' (a - a mod 4096))
       ∧ ∀ pd' f' va' a' w' u', S !! pd' = Some f' → 0 ≤ va' < PHYS_BASE →
           translate (mem v) pd' va' = Some (a', w', u') → a - a mod 4096 = a' - a' mod 4096 →
           pd' = pd ∧ va' / 4096 = va / 4096)
  ∧ (∀ i, 768 ≤ i < 1024 → pde (mem v) pd i = pde (mem v) (init_page_dir v) i)
  ∧ (pd = active v → ∀ n e, 0 ≤ n < USER_PAGES → tlb v !! n = Some e → cached e (f n)).
Proof.
  intros Hr E. pose proof (reach_vm_ok v S Hr) as Hv. pose proof Hv as (Ht & [Hd Hinj] & Htlb). split_and!.
  - intros va Hva. by apply (translate_space v S).
  - intros va a w u Hva. rewrite (translate_space v S pd f) by done. intros Htr.
    destruct (translation_frame v S pd f va a w u Hv E Hva Htr) as [Hp Hfr]. destruct (user_page va Hva) as (Hn & _).
    split; [rewrite <- Hfr; apply (Hd pd f _ E Hn Hp)|]. intros pd' f' va' a' w' u' E' Hva'.
    rewrite (translate_space v S pd' f') by done. intros Htr' Heq. destruct (user_page va' Hva') as (Hn' & _).
    destruct (translation_frame v S pd' f' va' a' w' u' Hv E' Hva' Htr') as [Hp' Hfr'].
    apply (Hinj pd' f' _ pd f); try done. congruence.
  - intros i Hi. destruct Ht as (_ & _ & _ & _ & _ & Hk). by apply (Hk pd f).
  - intros ->. destruct Htlb as (_ & g & Eg & Hl). unfold active in E. rewrite E in Eg. by injection Eg as <-.
Qed.

Lemma address_spaces_isolated_witness :
  translate (mem booted) (init_page_dir booted) 134512640 = None.
Proof.
  destruct (@address_spaces_isolated Palloc.palloc small_pools booted _ (init_page_dir booted) (λ _, 0) booted_reach
    (lookup_singleton_eq _ _)) as (Htr & _).
  apply (Htr 134512640). by unfold PHYS_BASE.
Defined.

(** C12: The operations on page directories do what they say.  On any system
    of address spaces: [pagedir_get_page] gives the kernel address of a user
    address or a null pointer; [pagedir_set_page] maps an unmapped page, or
    reports that there is no memory for a page table and changes no entry, and
    fails its assertion if the page is mapped; [pagedir_clear_page] unmaps a
    page and keeps the other bits; the dirty bit of a page that has an entry
    can be set, cleared and read; [pagedir_destroy] gives back exactly the
    mapped pages, the page tables and the directory.  The other address
    spaces do not change. *)
Theorem pagedir_operations_correct {St} `{PagePools St} (v : vm St) S pd f upage kpage w :
  reach v S → S !! pd = Some f → pd ≠ init_page_dir v → 0 ≤ upage < PHYS_BASE → upage mod 4096 = 0 →
  unmapped v S kpage →
  let n := upage / 4096 in
  (∀ va, 0 ≤ va < PHYS_BASE → pagedir_get_page pd va v = Ok (resolve f va, v))
  ∧ (if bool_decide (present (f n)) then pagedir_set_page pd upage kpage w v = Err Panic
     else ∃ ok v', pagedir_set_page pd upage kpage w v = Ok (ok, v')
       ∧ reach v' (if ok : bool then <[pd := upd f n (user_pte kpage w)]> S else S))
  ∧ (∃ v', pagedir_clear_page pd upage v = Ok (tt, v')
       ∧ if bool_decide (present (f n)) then reach v' (<[pd := upd f n (Z.ldiff (f n) PTE_P)]> S) else v' = v)
  ∧ (f n ≠ 0 → ∀ value, ∃ v', pagedir_set_dirty pd upage value v = Ok (tt, v')
       ∧ pagedir_is_dirty pd upage v' = Ok (value, v'))
  ∧ (pd ≠ active v → ∃ v', pagedir_destroy pd v = Ok (tt, v') ∧ reach v' (delete pd S)
       ∧ ∀ q, pp_used (pages v') q ↔ pp_used (pages v) q ∧ ¬ belongs v pd f q).
Proof.
  intros Hr E Hni Hup Hum Hk n. pose proof (reach_vm_ok v S Hr) as Hv. split_and!.
  - intros va Hva. pose proof (pagedir_get_page_ok v S pd f va (λ r v', r = resolve f va ∧ v' = v) Hv E Hva ltac:(done)) as Hw.
    by apply wp_Ok in Hw as (r & v' & -> & -> & ->).
  - case_bool_decide as Hp; [by apply (set_page_mapped v S pd f)|].
    pose proof (pagedir_set_page_ok v S pd f upage kpage w Hv E Hni Hup Hum Hk Hp) as Hw.
    apply wp_Ok in Hw as (ok & v' & Hrun & _). exists ok, v'. split; [done|]. eapply reach_step; [done|].
    by apply (step_set v S pd f upage kpage w ok v').
  - pose proof (pagedir_clear_page_ok v S pd f upage Hv E Hup Hum) as Hw. apply wp_Ok in Hw as ([] & v' & Hrun & _ & Hres).
    exists v'. split; [done|]. fold n in Hres. case_bool_decide as Hp; [|done]. eapply reach_step; [done|].
    by apply (step_clear v S pd f upage v').
  - intros Hnz value. pose proof (set_bit_ok v S pd f upage PTE_D value Hv E Hup (or_intror eq_refl)) as Hw.
    apply wp_Ok in Hw as ([] & v' & Hrun & _ & [Hv'|[_ ?]]); [|done]. exists v'. split; [done|]. fold n in Hv'.
    match type of Hv' with vm_ok _ (<[_ := ?g]> _) => set (g' := g) in * end.
    assert (<[pd := g']> S !! pd = Some g') as E' by apply lookup_insert_eq.
    pose proof (is_bit_ok v' _ pd g' upage PTE_D (λ r v2, r = value ∧ v2 = v') Hv' E' Hup) as Hw.
    assert (pagedir_is_dirty pd upage v' = Ok (value, v')) as ->; [|done].
    assert (negb (Z.land (g' (upage / 4096)) PTE_D =? 0) = value) as Hbit.
    { unfold g', upd. fold n. rewrite Z.eqb_refl. apply dirty_bit. }
    apply wp_Ok in Hw as (r & v2 & Hrun2 & -> & ->); done.
  - intros Hna. pose proof (pagedir_destroy_ok v S pd f Hv E Hni (not_eq_sym Hna)) as Hw.
    apply wp_Ok in Hw as ([] & v' & Hrun & _ & Hu & _). exists v'. split_and!; try done.
    eapply reach_step; [done|]. by apply (step_destroy v S pd f v').
Qed.

Lemma pagedir_operations_correct_witness :
  ∃ ok v', @pagedir_set_page Palloc.palloc small_pools first_dir.1 134512640 user_frame.1 true user_frame.2 = Ok (ok, v').
Proof.
  destruct (@pagedir_operations_correct Palloc.palloc small_pools user_frame.2 one_process first_dir.1 (λ _, 0) 134512640 user_frame.1 true
    process_reach (lookup_insert_eq _ _ _) dir_not_init ltac:(vm_compute; done) eq_refl user_frame_unmapped) as (_ & Hset & _).
  destruct Hset as (ok & v' & Hrun & _). exists ok, v'. exact Hrun.
Defined.

(** C13: [paging_init] maps RAM.  It panics for lack of pages, or gives a page
    directory in which every byte of RAM is at its kernel address, out of the
    reach of user code, and read-only exactly where the code of the kernel is. *)
Theorem paging_init_maps_ram {St} `{PagePools St} start end_text (v : vm St) :
  pp_inv (pages v) → is_bytes (mem v) →
  match paging_init start end_text v with
  | Ok (_, v') => active v' = init_page_dir v' ∧ ∀ k ofs, 0 ≤ k < pp_ram → 0 ≤ ofs < 4096 →
      translate (mem v') (init_page_dir v') (PHYS_BASE + 4096 * k + ofs)
      = Some (PHYS_BASE + 4096 * k + ofs,
              negb ((start <=? PHYS_BASE + 4096 * k) && (PHYS_BASE + 4096 * k <? end_text)), false)
  | Err e => e = Panic
  end.
Proof.
  intros Hp Hby. pose proof (paging_init_ok start end_text v Hp Hby) as Hw. unfold wpp in Hw.
  destruct (paging_init start end_text v) as [[[] v']|e]; [|done]. destruct Hw as [(_ & _ & Hc & f & Ef & _) Hmap]. split.
  - by apply lookup_singleton_Some in Ef as [? _].
  - intros k ofs Hk Ho. by apply mapped_translate.
Qed.

Lemma paging_init_maps_ram_witness :
  translate (mem booted) (init_page_dir booted) (PHYS_BASE + 4096 * 33 + 7) = Some (PHYS_BASE + 4096 * 33 + 7, false, false).
Proof.
  pose proof (@paging_init_maps_ram Palloc.palloc small_pools 3221356544 3221405696 boot small_ready
    (λ _, conj (Z.le_refl 0) eq_refl)) as Hw.
  generalize booted_run. generalize booted. unfold boot_run. intros v' Hrun.
  rewrite Hrun in Hw. destruct Hw as [_ Hw].
  clear Hrun. assert (0 ≤ 33 < 336 ∧ 0 ≤ 7 < 4096) as [Hk Ho] by lia. exact (Hw 33 7 Hk Ho).
Defined.
End PagedirProps.
