(* ===== verification/Hash.v ===== *)
(** * Hash tables: lib/kernel/hash.c

    A table of buckets, each a list of elements.  Elements are named by the
    addresses of their [struct hash_elem]; the hash and the comparison
    function of the client are parameters, and so is, for each call, whether
    [malloc] succeeds.  Buckets are sequences (the file Dlist shows that
    lib/kernel/list.c implements them). *)
From stdpp Require Import base gmap list.
From Stdlib Require Import ZArith Lia.
From S2P Require Import Prelude Cstring.

Module Hash.

Record hash := mk_hash {
  elem_cnt : Z;
  bucket_cnt : Z;
  buckets : list (list Z)
}.

Definition set_elem_cnt (n : Z) (h : hash) : hash := mk_hash n (bucket_cnt h) (buckets h).
Definition set_buckets (bs : list (list Z)) (h : hash) : hash := mk_hash (elem_cnt h) (bucket_cnt h) bs.

Definition MIN_BUCKETS : Z := 4.
Definition BEST_ELEMS_PER_BUCKET : Z := 2.

Definition turn_off_least_1bit (x : Z) : Z := Z.land x (u32 (x - 1)).
Definition is_power_of_2 (x : Z) : bool := negb (x =? 0) && (turn_off_least_1bit x =? 0).

(** ** Hash functions of the library *)

Definition FNV_32_PRIME : Z := 16777619.
Definition FNV_32_BASIS : Z := 2166136261.

Definition fnv (h b : Z) : Z := Z.lxor (u32 (h * FNV_32_PRIME)) b.

Fixpoint hash_bytes_loop (m : Mem.mem) (n : nat) (buf h : Z) : res Z :=
  match n with
  | O => Ok h
  | Datatypes.S n =>
      match m !! buf with
      | Some b => hash_bytes_loop m n (buf + 1) (fnv h b)
      | None => Err Fault
      end
  end.
Definition hash_bytes (m : Mem.mem) (buf size : Z) : res Z :=
  if buf =? 0 then Err Panic else hash_bytes_loop m (Z.to_nat size) buf FNV_32_BASIS.

Fixpoint hash_string_loop (m : Mem.mem) (fuel : nat) (s h : Z) : res Z :=
  match fuel with
  | O => Err OutOfFuel
  | Datatypes.S fuel =>
      match m !! s with
      | Some b => if b =? 0 then Ok h else hash_string_loop m fuel (s + 1) (fnv h b)
      | None => Err Fault
      end
  end.
Definition hash_string (m : Mem.mem) (fuel : nat) (s : Z) : res Z :=
  if s =? 0 then Err Panic else hash_string_loop m fuel s FNV_32_BASIS.

(** The four bytes of [i] in memory, lowest first. *)
Definition hash_int (i : Z) : Z :=
  foldl fnv FNV_32_BASIS
    [u8 i; u8 (Z.shiftr (u32 i) 8); u8 (Z.shiftr (u32 i) 16); u8 (Z.shiftr (u32 i) 24)].

Section hash_table.
Context (hash_func : Z → Z) (less : Z → Z → bool).

(** ** Buckets *)

Definition bucket_idx (cnt e : Z) : Z := Z.land (hash_func e) (u32 (cnt - 1)).

Definition get_bucket (i : Z) : M hash (list Z) := λ h,
  match buckets h !! Z.to_nat i with Some b => Ok (b, h) | None => Err Fault end.
Definition set_bucket (i : Z) (b : list Z) : M hash unit := λ h,
  if decide (Z.to_nat i < length (buckets h))%nat
  then Ok (tt, set_buckets (<[Z.to_nat i := b]> (buckets h)) h) else Err Fault.

Definition find_bucket (e : Z) : M hash Z :=
  cnt ← gets bucket_cnt; mret (bucket_idx cnt e).

Definition equal (a b : Z) : bool := negb (less a b) && negb (less b a).

Fixpoint find_in (b : list Z) (e : Z) : option Z :=
  match b with
  | [] => None
  | hi :: b => if equal hi e then Some hi else find_in b e
  end.
Definition find_elem (i e : Z) : M hash (option Z) :=
  b ← get_bucket i; mret (find_in b e).

Definition insert_elem (i e : Z) : M hash unit :=
  modify (λ h, set_elem_cnt (u32 (elem_cnt h + 1)) h) ;;
  b ← get_bucket i;
  set_bucket i (e :: b).

(** [list_remove] finds the bucket by following pointers from [e]; [i] is the
    bucket that [e] is in. *)
Definition remove_elem (i e : Z) : M hash unit :=
  modify (λ h, set_elem_cnt (u32 (elem_cnt h - 1)) h) ;;
  b ← get_bucket i;
  set_bucket i (filter (λ x, x ≠ e) b).

(** ** Resizing *)

Fixpoint round_power (fuel : nat) (n : Z) : res Z :=
  match fuel with
  | O => Err OutOfFuel
  | Datatypes.S fuel => if is_power_of_2 n then Ok n else round_power fuel (turn_off_least_1bit n)
  end.

Definition new_bucket_cnt (elem_cnt : Z) : res Z :=
  let n := elem_cnt / BEST_ELEMS_PER_BUCKET in
  round_power 33 (if n <? MIN_BUCKETS then MIN_BUCKETS else n).

Definition move_elem (cnt : Z) (new : list (list Z)) (e : Z) : list (list Z) :=
  alter (cons e) (Z.to_nat (bucket_idx cnt e)) new.

(** [ok] tells whether [malloc] succeeds. *)
Definition rehash (ok : bool) : M hash unit :=
  h ← get;
  n ← of_res (new_bucket_cnt (elem_cnt h));
  if n =? bucket_cnt h then mret tt
  else if negb ok then mret tt
  else put (mk_hash (elem_cnt h) n
         (foldl (λ new b, foldl (move_elem n) new b) (replicate (Z.to_nat n) []) (buckets h))).

(** ** Operations *)

Definition hash_clear (destructor : bool) : M hash (list Z) := λ h,
  Ok (if destructor then concat (buckets h) else [],
      mk_hash 0 (bucket_cnt h) (replicate (Z.to_nat (bucket_cnt h)) [])).

(** Nothing is known of the table before. *)
Definition hash_init (ok : bool) : option hash :=
  if ok then Some (mk_hash 0 MIN_BUCKETS (replicate (Z.to_nat MIN_BUCKETS) [])) else None.

Definition hash_destroy (destructor : bool) : M hash (list Z) :=
  if destructor then hash_clear true else mret [].

Definition hash_insert (ok : bool) (new : Z) : M hash (option Z) :=
  bucket ← find_bucket new;
  old ← find_elem bucket new;
  match old with None => insert_elem bucket new | Some _ => mret tt end ;;
  rehash ok ;;
  mret old.

Definition hash_replace (ok : bool) (new : Z) : M hash (option Z) :=
  bucket ← find_bucket new;
  old ← find_elem bucket new;
  match old with Some old => remove_elem bucket old | None => mret tt end ;;
  insert_elem bucket new ;;
  rehash ok ;;
  mret old.

Definition hash_find (e : Z) : M hash (option Z) :=
  bucket ← find_bucket e;
  find_elem bucket e.

Definition hash_delete (ok : bool) (e : Z) : M hash (option Z) :=
  bucket ← find_bucket e;
  found ← find_elem bucket e;
  match found with
  | Some f => remove_elem bucket f ;; rehash ok
  | None => mret tt
  end ;;
  mret found.

Definition hash_size : M hash Z := gets elem_cnt.
Definition hash_empty : M hash bool := gets (λ h, elem_cnt h =? 0).

(** The elements that [hash_apply] calls the action for, in order. *)
Definition hash_apply : M hash (list Z) := gets (λ h, concat (buckets h)).

(** ** Iterators *)

(** An iterator is before the first element of its bucket, at an element, or
    at the end. *)
Inductive position := At_head | At_elem (e : Z) | At_end.
Record hash_iterator := mk_iterator { bucket : nat; elem : position }.

Definition hash_first : hash_iterator := mk_iterator 0 At_head.
Definition hash_cur (i : hash_iterator) : option Z :=
  match elem i with At_elem e => Some e | _ => None end.

(** The element after [e]. *)
Fixpoint list_next (b : list Z) (e : Z) : option Z :=
  match b with
  | [] => None
  | x :: b => if x =? e then head b else list_next b e
  end.

(** [bs] are the buckets after the one with number [n], whose next element is
    [next]. *)
Fixpoint next_bucket (bs : list (list Z)) (n : nat) (next : option Z) : hash_iterator :=
  match next with
  | Some e => mk_iterator n (At_elem e)
  | None =>
      match bs with
      | [] => mk_iterator (Datatypes.S n) At_end
      | b :: bs => next_bucket bs (Datatypes.S n) (head b)
      end
  end.

Definition hash_next (h : hash) (i : hash_iterator) : res hash_iterator :=
  match buckets h !! bucket i, elem i with
  | Some b, At_head => Ok (next_bucket (drop (Datatypes.S (bucket i)) (buckets h)) (bucket i) (head b))
  | Some b, At_elem e =>
      Ok (next_bucket (drop (Datatypes.S (bucket i)) (buckets h)) (bucket i) (list_next b e))
  | _, _ => Err Fault
  end.

End hash_table.

(** ** The number of buckets *)

Lemma land_double u : 0 < u → Z.land (2 * u) (2 * u - 1) = 2 * Z.land u (u - 1).
Proof.
  intros Hu. replace (2 * u - 1) with (2 * (u - 1) + 1) by lia.
  apply Z.bits_inj'. intros n Hn. rewrite Z.land_spec.
  destruct (decide (n = 0)) as [->|Hne]; [by rewrite !Z.testbit_even_0|].
  replace n with (Z.succ (n - 1)) by lia.
  by rewrite Z.testbit_odd_succ, !Z.testbit_even_succ, Z.land_spec by lia.
Qed.

Lemma land_pred_odd y : 0 ≤ y → Z.land (2 * y + 1) (2 * y + 1 - 1) = 2 * y.
Proof.
  intros Hy. replace (2 * y + 1 - 1) with (2 * y) by lia.
  apply Z.bits_inj'. intros n Hn. rewrite Z.land_spec.
  destruct (decide (n = 0)) as [->|Hne]; [by rewrite Z.testbit_even_0, andb_false_r|].
  replace n with (Z.succ (n - 1)) by lia.
  rewrite Z.testbit_odd_succ, !Z.testbit_even_succ by lia. apply andb_diag.
Qed.

Lemma land_pred a y : 0 ≤ a → 0 ≤ y → Z.land (2^a * (2 * y + 1)) (2^a * (2 * y + 1) - 1) = 2^(a + 1) * y.
Proof.
  intros Ha Hy. revert a Ha. apply (natlike_ind (λ a, Z.land (2^a * (2 * y + 1)) (2^a * (2 * y + 1) - 1) = 2^(a + 1) * y)).
  - rewrite !Z.mul_1_l. rewrite land_pred_odd by done. lia.
  - intros a Ha IH. rewrite Z.pow_succ_r by lia. replace (2 * 2^a * (2 * y + 1)) with (2 * (2^a * (2 * y + 1))) by lia.
    rewrite land_double by (pose proof (Z.pow_pos_nonneg 2 a); nia). rewrite IH.
    replace (Z.succ a + 1) with (Z.succ (a + 1)) by lia. rewrite (Z.pow_succ_r 2 (a + 1)) by lia. lia.
Qed.

Lemma odd_part x : 0 < x → ∃ a y, 0 ≤ a ∧ 0 ≤ y ∧ x = 2^a * (2 * y + 1).
Proof.
  intros Hx. assert (0 ≤ x) as H0 by lia. revert x H0 Hx. refine (Z_lt_induction _ _).
  intros x IH Hx. destruct (Z.Even_or_Odd x) as [[u ->]|[u ->]].
  - destruct (IH u) as (a & y & ? & ? & ->); [lia..|]. exists (Z.succ a), y. split_and!; [lia..|].
    rewrite Z.pow_succ_r by lia. lia.
  - exists 0, u. lia.
Qed.

Lemma turn_off a y : 0 ≤ a → 0 ≤ y → 2^a * (2 * y + 1) < 2^32 →
  turn_off_least_1bit (2^a * (2 * y + 1)) = 2^(a + 1) * y.
Proof.
  intros Ha Hy Hlt. unfold turn_off_least_1bit. pose proof (Z.pow_pos_nonneg 2 a).
  rewrite u32_small by nia. by apply land_pred.
Qed.

Lemma round_power_log2 (fuel : nat) a y :
  0 ≤ a → 0 ≤ y → 2^a * (2 * y + 1) < 2^32 → 32 - a ≤ Z.of_nat fuel →
  round_power fuel (2^a * (2 * y + 1)) = Ok (2^(Z.log2 (2^a * (2 * y + 1)))).
Proof.
  revert a y. induction fuel as [|fuel IH]; intros a y Ha Hy Hlt Hf.
  { exfalso. assert (2^32 ≤ 2^a) by (apply Z.pow_le_mono_r; lia). nia. }
  pose proof (Z.pow_pos_nonneg 2 a ltac:(lia) Ha) as Hpos.
  simpl. unfold is_power_of_2. rewrite turn_off by done.
  rewrite (proj2 (Z.eqb_neq (2^a * (2 * y + 1)) 0)) by nia. simpl.
  destruct (Z.eqb_spec (2^(a + 1) * y) 0) as [E|Hne].
  - assert (y = 0) as -> by (pose proof (Z.pow_pos_nonneg 2 (a + 1)); nia).
    rewrite Z.mul_0_r, Z.add_0_l, Z.mul_1_r. by rewrite Z.log2_pow2.
  - assert (0 < y) as Hy' by (destruct (decide (y = 0)); [subst; lia | lia]).
    destruct (odd_part y Hy') as (b & z & Hb & Hz & Ey).
    replace (2^(a + 1) * y) with (2^(a + 1 + b) * (2 * z + 1)).
    2: { rewrite (Z.pow_add_r 2 (a + 1) b) by lia. rewrite Ey. lia. }
    rewrite IH; [|lia|lia| |lia].
    + do 2 f_equal.
      replace (2^(a + 1 + b) * (2 * z + 1)) with (y * 2^(a + 1)).
      2: { rewrite (Z.pow_add_r 2 (a + 1) b) by lia. rewrite Ey. lia. }
      rewrite Z.log2_mul_pow2 by lia. rewrite (Z.mul_comm (2^a)), Z.log2_mul_pow2 by lia.
      rewrite Z.log2_succ_double by lia. lia.
    + rewrite (Z.pow_add_r 2 (a + 1) b) by lia. replace (2^(a + 1) * 2^b * (2 * z + 1)) with (2^(a+1) * y)
        by (rewrite Ey; lia). rewrite Z.pow_add_r by lia. lia.
Qed.

(** The number of buckets is the largest power of two that leaves at least
    [BEST_ELEMS_PER_BUCKET] elements for each bucket, but at least four. *)
Lemma new_bucket_cnt_log2 n :
  0 ≤ n < 2^32 → new_bucket_cnt n = Ok (2^(Z.log2 (Z.max 4 (n / 2)))).
Proof.
  intros Hn. unfold new_bucket_cnt, BEST_ELEMS_PER_BUCKET, MIN_BUCKETS.
  assert ((if n / 2 <? 4 then 4 else n / 2) = Z.max 4 (n / 2)) as -> by (destruct (Z.ltb_spec (n / 2) 4); lia).
  assert (4 ≤ Z.max 4 (n / 2) < 2^32) as Hr by (split; [lia|]; apply Z.max_lub_lt; [done | div_lia]).
  destruct (odd_part (Z.max 4 (n / 2))) as (a & y & Ha & Hy & E); [lia|].
  rewrite E in Hr |- *. apply round_power_log2; [done | done | lia | lia].
Qed.

Lemma new_bucket_cnt_range n :
  0 ≤ n < 2^32 → ∃ a, 2 ≤ a < 32 ∧ new_bucket_cnt n = Ok (2^a).
Proof.
  intros Hn. exists (Z.log2 (Z.max 4 (n / 2))). split; [|by apply new_bucket_cnt_log2].
  assert (Z.max 4 (n / 2) < 2^32) by (apply Z.max_lub_lt; [done | div_lia]). split.
  - apply (Z.log2_le_mono 4). lia.
  - apply Z.log2_lt_pow2; lia.
Qed.

(** ** What the client promises *)

(** [less] is a strict order up to [equal], and equal elements have equal
    hash values. *)
Class HashOk (hash_func : Z → Z) (less : Z → Z → bool) := {
  hash_range e : 0 ≤ hash_func e < 2^32;
  less_irrefl e : less e e = false;
  equal_trans a b c : equal less a b = true → equal less b c = true → equal less a c = true;
  equal_hash a b : equal less a b = true → hash_func a = hash_func b
}.

Section refinement.
Context (hash_func : Z → Z) (less : Z → Z → bool) `{HashOk hash_func less}.
Local Abbreviation equal := (equal less).
Local Abbreviation bucket_idx := (bucket_idx hash_func).

Lemma equal_refl e : equal e e = true.
Proof. unfold Hash.equal. by rewrite less_irrefl. Qed.
Lemma equal_sym a b : equal a b = equal b a.
Proof. unfold Hash.equal. apply andb_comm. Qed.

(** No two elements are equal, and no element occurs twice. *)
Definition distinct (xs : list Z) : Prop :=
  NoDup xs ∧ ∀ a b, a ∈ xs → b ∈ xs → equal a b = true → a = b.

(** The elements [xs] are in the table [h], each in the bucket that its hash
    value selects. *)
Record represents (h : hash) (xs : list Z) : Prop := {
  r_cnt : ∃ a, 2 ≤ a < 32 ∧ bucket_cnt h = 2^a;
  r_buckets : length (buckets h) = Z.to_nat (bucket_cnt h);
  r_place i b e : buckets h !! i = Some b → e ∈ b → Z.to_nat (bucket_idx (bucket_cnt h) e) = i;
  r_elems : concat (buckets h) ≡ₚ xs;
  r_distinct : distinct xs;
  r_size : elem_cnt h = Z.of_nat (length xs) ∧ Z.of_nat (length xs) < 2^32
}.

Lemma bucket_idx_range a e : 0 ≤ a < 32 → 0 ≤ bucket_idx (2^a) e < 2^a.
Proof.
  intros Ha. unfold Hash.bucket_idx. assert (0 < 2^a < 2^32) as Hp.
  { split; [apply Z.pow_pos_nonneg; lia | apply Z.pow_lt_mono_r; lia]. }
  rewrite u32_small by lia. replace (2^a - 1) with (Z.ones a) by (rewrite Z.ones_equiv; lia).
  rewrite Z.land_ones by lia. apply Z.mod_pos_bound. lia.
Qed.

Lemma bucket_idx_equal cnt a b : equal a b = true → bucket_idx cnt a = bucket_idx cnt b.
Proof. intros E. unfold Hash.bucket_idx. by rewrite (equal_hash a b E). Qed.

(** ** Searching *)

Lemma find_in_Some b e x : find_in less b e = Some x → x ∈ b ∧ equal x e = true.
Proof.
  induction b as [|y b IH]; simpl; [done|]. destruct (Hash.equal less y e) eqn:E.
  - intros [= ->]. split; [by left | done].
  - intros ?. destruct IH; [done|]. split; [by right | done].
Qed.
Lemma find_in_None b e : find_in less b e = None → ∀ x, x ∈ b → equal x e = false.
Proof.
  induction b as [|y b IH]; simpl; intros Hf x; [by intros ?%elem_of_nil|].
  destruct (Hash.equal less y e) eqn:E; [done|]. intros [->|?]%elem_of_cons; auto.
Qed.

(** Where the equal elements are the same, the search finds the same. *)
Lemma find_in_same b xs e :
  distinct xs → (∀ x, x ∈ b → x ∈ xs) → (∀ x, x ∈ xs → equal x e = true → x ∈ b) →
  find_in less b e = find_in less xs e.
Proof.
  intros [_ Hd] Hsub Hsup.
  destruct (find_in less b e) as [x|] eqn:Eb, (find_in less xs e) as [y|] eqn:Ex; [|..|done].
  - destruct (find_in_Some _ _ _ Eb), (find_in_Some _ _ _ Ex) as [? Hy]. f_equal.
    apply Hd; [auto | done |]. eapply equal_trans; [done|]. by rewrite equal_sym.
  - destruct (find_in_Some _ _ _ Eb) as [Hin E]. rewrite (find_in_None _ _ Ex x) in E; [done | auto].
  - destruct (find_in_Some _ _ _ Ex) as [Hin E]. rewrite (find_in_None _ _ Eb y) in E; [done | auto].
Qed.

Lemma distinct_perm xs ys : xs ≡ₚ ys → distinct xs → distinct ys.
Proof.
  intros Hp [HN Hd]. split; [by rewrite <- Hp|]. intros a b Ha Hb. apply Hd; by rewrite Hp.
Qed.

Lemma find_in_perm xs ys e : xs ≡ₚ ys → distinct xs → find_in less xs e = find_in less ys e.
Proof.
  intros Hp Hd. apply find_in_same; [by eapply distinct_perm | |].
  - intros x. by rewrite Hp.
  - intros x Hx _. by rewrite Hp.
Qed.

(** The bucket of [e] holds whatever is equal to [e]. *)
Lemma find_bucket_elem h xs e :
  represents h xs →
  ∃ b, buckets h !! Z.to_nat (bucket_idx (bucket_cnt h) e) = Some b
    ∧ find_in less b e = find_in less xs e ∧ ∀ x, x ∈ b → x ∈ xs.
Proof.
  intros [(a & Ha & Hcnt) Hlen Hpl Hel Hd _].
  assert (Z.to_nat (bucket_idx (bucket_cnt h) e) < length (buckets h))%nat as Hlt.
  { rewrite Hlen, Hcnt. pose proof (bucket_idx_range a e ltac:(lia)). lia. }
  apply lookup_lt_is_Some in Hlt as [b Hb]. exists b. split; [done|].
  assert (∀ x, x ∈ b → x ∈ xs) as Hsub.
  { intros x Hx. rewrite <- Hel. apply list_elem_of_In, in_concat. exists b.
    split; apply list_elem_of_In; [by eapply list_elem_of_lookup_2 | done]. }
  split; [|done]. apply find_in_same; [done | done |].
  intros x Hx E. rewrite <- Hel in Hx. apply list_elem_of_In, in_concat in Hx as (b' & Hb' & Hx).
  apply list_elem_of_In in Hb', Hx. apply list_elem_of_lookup_1 in Hb' as [i Hi].
  pose proof (Hpl _ _ _ Hi Hx) as <-. rewrite (bucket_idx_equal _ x e E) in Hi. congruence.
Qed.

(** ** Changing a bucket *)

Lemma concat_split (bs : list (list Z)) i b b' :
  bs !! i = Some b →
  ∃ pre post, concat bs = pre ++ b ++ post ∧ concat (<[i := b']> bs) = pre ++ b' ++ post.
Proof.
  intros Hb. exists (concat (take i bs)), (concat (drop (Datatypes.S i) bs)). split.
  - rewrite <- (take_drop_middle bs i b Hb) at 1. rewrite concat_app. done.
  - rewrite insert_take_drop by (by eapply lookup_lt_Some). rewrite concat_app. done.
Qed.

Definition placed (cnt : Z) (bs : list (list Z)) : Prop :=
  ∀ i b e, bs !! i = Some b → e ∈ b → Z.to_nat (bucket_idx cnt e) = i.

Lemma placed_insert cnt bs i b' :
  placed cnt bs → (∀ e, e ∈ b' → Z.to_nat (bucket_idx cnt e) = i) → placed cnt (<[i := b']> bs).
Proof.
  intros Hp Hb' j b e Hj Hin. destruct (decide (i = j)) as [<-|Hne].
  - assert (i < length bs)%nat by (apply lookup_lt_Some in Hj; by rewrite length_insert in Hj).
    rewrite list_lookup_insert_eq in Hj by done. injection Hj as <-. auto.
  - rewrite list_lookup_insert_ne in Hj by done. eauto.
Qed.

Lemma add_elem h xs e b :
  represents h xs → buckets h !! Z.to_nat (bucket_idx (bucket_cnt h) e) = Some b →
  (∀ x, x ∈ xs → equal x e = false) → Z.of_nat (length xs) + 1 < 2^32 →
  represents (mk_hash (u32 (elem_cnt h + 1)) (bucket_cnt h)
                (<[Z.to_nat (bucket_idx (bucket_cnt h) e) := e :: b]> (buckets h))) (e :: xs).
Proof.
  intros [Hcnt Hlen Hpl Hel [HN Hd] [Hsz Hlt]] Hb Hno Hbound.
  destruct (concat_split _ _ _ (e :: b) Hb) as (pre & post & E & E').
  split; simpl; [done | by rewrite length_insert | | | |].
  - apply (placed_insert (bucket_cnt h)); [exact Hpl|]. intros x [->|Hx]%elem_of_cons; [done|].
    by eapply Hpl.
  - rewrite E', <- Hel, E. simpl. by rewrite <- Permutation_middle.
  - split.
    + apply NoDup_cons. split; [|done]. intros Hin. apply Hno in Hin. by rewrite equal_refl in Hin.
    + intros a c [->|Ha]%elem_of_cons [->|Hc]%elem_of_cons Heq; [done| | |auto].
      * rewrite equal_sym, Hno in Heq; done.
      * rewrite Hno in Heq; done.
  - rewrite Hsz, u32_small by lia. lia.
Qed.

Lemma filter_out_notin (e : Z) (xs : list Z) : e ∉ xs → filter (λ x, x ≠ e) xs = xs.
Proof.
  induction xs as [|x xs IH]; [done|]. intros [Hne Hn]%not_elem_of_cons.
  rewrite filter_cons_True by congruence. by rewrite IH.
Qed.

Lemma filter_out_length (e : Z) (xs : list Z) :
  NoDup xs → e ∈ xs → Datatypes.S (length (filter (λ x, x ≠ e) xs)) = length xs.
Proof.
  induction xs as [|x xs IH]; [by intros _ ?%elem_of_nil|]. intros [Hn HN]%NoDup_cons.
  intros [->|Hin]%elem_of_cons.
  - rewrite filter_cons_False by naive_solver. by rewrite filter_out_notin.
  - rewrite filter_cons_True by (intros ->; done). simpl. by rewrite IH.
Qed.

Lemma del_elem h xs e b :
  represents h xs → buckets h !! Z.to_nat (bucket_idx (bucket_cnt h) e) = Some b → e ∈ b →
  represents (mk_hash (u32 (elem_cnt h - 1)) (bucket_cnt h)
                (<[Z.to_nat (bucket_idx (bucket_cnt h) e) := filter (λ x, x ≠ e) b]> (buckets h)))
    (filter (λ x, x ≠ e) xs).
Proof.
  intros [Hcnt Hlen Hpl Hel [HN Hd] [Hsz Hlt]] Hb Hin.
  destruct (concat_split _ _ _ (filter (λ x, x ≠ e) b) Hb) as (pre & post & E & E').
  assert (e ∈ xs) as Hxs.
  { rewrite <- Hel, E. apply elem_of_app. right. apply elem_of_app. by left. }
  pose proof HN as HN'. rewrite <- Hel, E in HN'. apply NoDup_app in HN' as (_ & Hpre & HN').
  apply NoDup_app in HN' as (_ & Hpost & _).
  split; simpl; [done | by rewrite length_insert | | | |].
  - apply (placed_insert (bucket_cnt h)); [exact Hpl|]. intros x [_ Hx]%list_elem_of_filter. by eapply Hpl.
  - rewrite E', <- Hel, E, !filter_app. f_equiv; [|f_equiv]; rewrite filter_out_notin; [done| |done|].
    + intros Hp. apply (Hpre e Hp). apply elem_of_app. by left.
    + intros Hp. by apply (Hpost e Hin).
  - split; [by apply NoDup_filter|]. intros a c [_ Ha]%list_elem_of_filter [_ Hc]%list_elem_of_filter. auto.
  - pose proof (filter_out_length e xs HN Hxs) as Hlf. rewrite Hsz, u32_small by lia. lia.
Qed.

(** ** Resizing *)

Lemma move_elems a es new :
  0 ≤ a < 32 → length new = Z.to_nat (2^a) → placed (2^a) new →
  let r := foldl (move_elem hash_func (2^a)) new es in
  length r = Z.to_nat (2^a) ∧ placed (2^a) r ∧ concat r ≡ₚ es ++ concat new.
Proof.
  intros Ha. revert new. induction es as [|e es IH]; intros new Hlen Hpl; [done|]. simpl.
  pose proof (bucket_idx_range a e Ha) as Hr.
  destruct (lookup_lt_is_Some_2 new (Z.to_nat (bucket_idx (2^a) e))) as [b Hb]; [lia|].
  assert (move_elem hash_func (2^a) new e = <[Z.to_nat (bucket_idx (2^a) e) := e :: b]> new) as Em.
  { unfold move_elem. apply list_eq. intros j.
    destruct (decide (j = Z.to_nat (bucket_idx (2^a) e))) as [->|Hne].
    - rewrite list_lookup_alter_eq, list_lookup_insert_eq by (by eapply lookup_lt_Some). by rewrite Hb.
    - by rewrite list_lookup_alter_ne, list_lookup_insert_ne by done. }
  destruct (concat_split _ _ _ (e :: b) Hb) as (pre & post & E & E').
  destruct (IH (move_elem hash_func (2^a) new e)) as (H1 & H2 & H3).
  - by rewrite Em, length_insert.
  - rewrite Em. apply placed_insert; [done|]. intros x [->|Hx]%elem_of_cons; [done | by eapply Hpl].
  - split_and!; [done..|]. rewrite H3, Em, E', E. simpl. rewrite <- (Permutation_middle pre).
    by rewrite <- (Permutation_middle es).
Qed.

Lemma foldl_concat {A B} (f : A → B → A) bs a : foldl (λ a b, foldl f a b) a bs = foldl f a (concat bs).
Proof. revert a. induction bs as [|b bs IH]; intros a; [done|]. simpl. by rewrite foldl_app, IH. Qed.

Lemma rehash_spec ok h xs :
  represents h xs → ∃ h', rehash hash_func ok h = Ok (tt, h') ∧ represents h' xs.
Proof.
  intros Hr. pose proof Hr as [Hcnt Hlen Hpl Hel Hd [Hsz Hlt]].
  destruct (new_bucket_cnt_range (elem_cnt h)) as (a & Ha & En); [lia|].
  unfold rehash. run. rewrite En. destruct (2^a =? bucket_cnt h); [by exists h|].
  destruct ok; simpl; [|by exists h]. eexists. split; [done|].
  rewrite (foldl_concat (move_elem hash_func (2^a))).
  destruct (move_elems a (concat (buckets h)) (replicate (Z.to_nat (2^a)) [])) as (H1 & H2 & H3);
    [lia | by rewrite length_replicate | |].
  { intros i b e [-> _]%lookup_replicate Hin. by apply elem_of_nil in Hin. }
  split; simpl; [by exists a | done | exact H2 | | done | done].
  rewrite H3, Hel. assert (∀ n, concat (replicate n []) = @nil Z) as -> by (by induction n).
  by rewrite app_nil_r.
Qed.

(** ** Operations on sets of elements *)

Inductive op :=
  | Insert (ok : bool) (e : Z)
  | Replace (ok : bool) (e : Z)
  | Find (e : Z)
  | Delete (ok : bool) (e : Z)
  | Size
  | Empty
  | Clear.
Inductive ret := RElem (o : option Z) | RSize (n : Z) | REmpty (b : bool) | RUnit.

Definition exec_op (o : op) : M hash ret :=
  match o with
  | Insert ok e => r ← hash_insert hash_func less ok e; mret (RElem r)
  | Replace ok e => r ← hash_replace hash_func less ok e; mret (RElem r)
  | Find e => r ← hash_find hash_func less e; mret (RElem r)
  | Delete ok e => r ← hash_delete hash_func less ok e; mret (RElem r)
  | Size => n ← hash_size; mret (RSize n)
  | Empty => b ← hash_empty; mret (REmpty b)
  | Clear => hash_clear false ;; mret RUnit
  end.

(** The same on a set [xs] of elements; memory plays no role. *)
Definition spec_op (xs : list Z) (o : op) : ret * list Z :=
  match o with
  | Insert _ e =>
      match find_in less xs e with
      | Some old => (RElem (Some old), xs)
      | None => (RElem None, e :: xs)
      end
  | Replace _ e =>
      match find_in less xs e with
      | Some old => (RElem (Some old), e :: filter (λ x, x ≠ old) xs)
      | None => (RElem None, e :: xs)
      end
  | Find e => (RElem (find_in less xs e), xs)
  | Delete _ e =>
      match find_in less xs e with
      | Some old => (RElem (Some old), filter (λ x, x ≠ old) xs)
      | None => (RElem None, xs)
      end
  | Size => (RSize (Z.of_nat (length xs)), xs)
  | Empty => (REmpty (bool_decide (xs = [])), xs)
  | Clear => (RUnit, [])
  end.

Fixpoint exec_ops (os : list op) : M hash (list ret) :=
  match os with
  | [] => mret []
  | o :: os => r ← exec_op o; rs ← exec_ops os; mret (r :: rs)
  end.
Fixpoint spec_ops (xs : list Z) (os : list op) : list ret * list Z :=
  match os with
  | [] => ([], xs)
  | o :: os => let '(r, xs) := spec_op xs o in let '(rs, xs) := spec_ops xs os in (r :: rs, xs)
  end.

(** The steps that the operations start with. *)
Lemma locate h xs e :
  represents h xs →
  ∃ b, find_bucket hash_func e h = Ok (bucket_idx (bucket_cnt h) e, h)
    ∧ buckets h !! Z.to_nat (bucket_idx (bucket_cnt h) e) = Some b
    ∧ find_elem less (bucket_idx (bucket_cnt h) e) e h = Ok (find_in less xs e, h)
    ∧ (find_in less xs e = find_in less b e) ∧ ∀ x, x ∈ b → x ∈ xs.
Proof.
  intros Hr. destruct (find_bucket_elem h xs e Hr) as (b & Hb & Hf & Hsub). exists b. split; [done|].
  split; [done|]. split; [|done]. unfold find_elem, get_bucket. run. by rewrite Hb, Hf.
Qed.

Lemma insert_elem_run h i b e :
  buckets h !! Z.to_nat i = Some b →
  insert_elem i e h = Ok (tt, mk_hash (u32 (elem_cnt h + 1)) (bucket_cnt h) (<[Z.to_nat i := e :: b]> (buckets h))).
Proof.
  intros Hb. unfold insert_elem, get_bucket, set_bucket. run. simpl. rewrite Hb. simpl.
  rewrite decide_True by (by eapply lookup_lt_Some). done.
Qed.
Lemma remove_elem_run h i b e :
  buckets h !! Z.to_nat i = Some b →
  remove_elem i e h
  = Ok (tt, mk_hash (u32 (elem_cnt h - 1)) (bucket_cnt h) (<[Z.to_nat i := filter (λ x, x ≠ e) b]> (buckets h))).
Proof.
  intros Hb. unfold remove_elem, get_bucket, set_bucket. run. simpl. rewrite Hb. simpl.
  rewrite decide_True by (by eapply lookup_lt_Some). done.
Qed.

Lemma insert_refines h xs ok e :
  represents h xs → Z.of_nat (length xs) + 1 < 2^32 →
  ∃ h' r xs', hash_insert hash_func less ok e h = Ok (r, h') ∧ spec_op xs (Insert ok e) = (RElem r, xs')
    ∧ represents h' xs'.
Proof.
  intros Hr Hlt. destruct (locate h xs e Hr) as (b & Hfb & Hb & Hfe & Hfi & Hsub).
  unfold hash_insert. run. rewrite Hfb, Hfe. simpl. destruct (find_in less xs e) as [old|] eqn:E.
  - destruct (rehash_spec ok h xs Hr) as (h' & -> & Hr'). by exists h', (Some old), xs.
  - rewrite (insert_elem_run h _ b e Hb).
    destruct (rehash_spec ok _ (e :: xs) (add_elem h xs e b Hr Hb (find_in_None _ _ E) Hlt)) as (h' & -> & Hr').
    by exists h', None, (e :: xs).
Qed.

(** The removal of the element that was found. *)
Lemma remove_found h xs e old b :
  represents h xs → find_in less xs e = Some old → find_in less xs e = find_in less b e →
  buckets h !! Z.to_nat (bucket_idx (bucket_cnt h) e) = Some b →
  ∃ h', remove_elem (bucket_idx (bucket_cnt h) e) old h = Ok (tt, h')
    ∧ represents h' (filter (λ x, x ≠ old) xs)
    ∧ bucket_cnt h' = bucket_cnt h
    ∧ is_Some (buckets h' !! Z.to_nat (bucket_idx (bucket_cnt h) e)).
Proof.
  intros Hr E Eb Hb. rewrite (remove_elem_run h _ b old Hb). eexists. split; [done|].
  rewrite Eb in E. apply find_in_Some in E as [Hin Heq].
  rewrite <- (bucket_idx_equal _ _ _ Heq) in *. split; [by apply del_elem|]. split; [done|]. simpl.
  rewrite list_lookup_insert_eq by (by eapply lookup_lt_Some). by eexists.
Qed.

Lemma not_equal_others xs e old x :
  distinct xs → find_in less xs e = Some old → x ∈ filter (λ x, x ≠ old) xs → equal x e = false.
Proof.
  intros [_ Hd] E [Hne Hin]%list_elem_of_filter. apply find_in_Some in E as [Hold Heq].
  destruct (Hash.equal less x e) eqn:Ex; [|done]. destruct Hne. apply Hd; [done..|].
  eapply equal_trans; [done|]. by rewrite equal_sym.
Qed.

Lemma replace_refines h xs ok e :
  represents h xs → Z.of_nat (length xs) + 1 < 2^32 →
  ∃ h' r xs', hash_replace hash_func less ok e h = Ok (r, h') ∧ spec_op xs (Replace ok e) = (RElem r, xs')
    ∧ represents h' xs'.
Proof.
  intros Hr Hlt. destruct (locate h xs e Hr) as (b & Hfb & Hb & Hfe & Hfi & Hsub).
  unfold hash_replace. run. rewrite Hfb, Hfe. simpl. destruct (find_in less xs e) as [old|] eqn:E.
  - rewrite <- E in Hfi. destruct (remove_found h xs e old b Hr E Hfi Hb) as (h1 & -> & Hr1 & Hc1 & [b1 Hb1]).
    rewrite (insert_elem_run h1 _ b1 e Hb1). rewrite <- Hc1 in Hb1 |- *.
    assert (length (filter (λ x, x ≠ old) xs) ≤ length xs)%nat by apply length_filter.
    edestruct (rehash_spec ok) as (h' & -> & Hr').
    + eapply (add_elem h1 _ e b1 Hr1 Hb1); [|lia]. intros x. apply not_equal_others; [apply Hr | done].
    + by exists h', (Some old), (e :: filter (λ x, x ≠ old) xs).
  - rewrite (insert_elem_run h _ b e Hb).
    destruct (rehash_spec ok _ (e :: xs) (add_elem h xs e b Hr Hb (find_in_None _ _ E) Hlt)) as (h' & -> & Hr').
    by exists h', None, (e :: xs).
Qed.

Lemma delete_refines h xs ok e :
  represents h xs →
  ∃ h' r xs', hash_delete hash_func less ok e h = Ok (r, h') ∧ spec_op xs (Delete ok e) = (RElem r, xs')
    ∧ represents h' xs'.
Proof.
  intros Hr. destruct (locate h xs e Hr) as (b & Hfb & Hb & Hfe & Hfi & Hsub).
  unfold hash_delete. run. rewrite Hfb, Hfe. simpl. destruct (find_in less xs e) as [old|] eqn:E.
  - rewrite <- E in Hfi. destruct (remove_found h xs e old b Hr E Hfi Hb) as (h1 & -> & Hr1 & _).
    destruct (rehash_spec ok h1 _ Hr1) as (h' & -> & Hr').
    by exists h', (Some old), (filter (λ x, x ≠ old) xs).
  - by exists h, None, xs.
Qed.

Lemma clear_represents h xs d l :
  represents h xs → hash_clear d h = Ok l → represents (snd l) [].
Proof.
  intros [(a & Ha & Hcnt) Hlen Hpl Hel Hd Hsz] [= <-]. split; simpl.
  - by exists a.
  - by rewrite length_replicate.
  - intros i b e [-> _]%lookup_replicate Hin. by apply elem_of_nil in Hin.
  - assert (∀ n, concat (replicate n []) = @nil Z) as -> by (by induction n). done.
  - split; [constructor|]. intros a0 b Ha0. by apply elem_of_nil in Ha0.
  - done.
Qed.

Lemma op_refines h xs o :
  represents h xs → Z.of_nat (length xs) + 1 < 2^32 →
  ∃ h', exec_op o h = Ok (fst (spec_op xs o), h') ∧ represents h' (snd (spec_op xs o)).
Proof.
  intros Hr Hlt. destruct o as [ok e|ok e|e|ok e| | |].
  - destruct (insert_refines h xs ok e Hr Hlt) as (h' & r & xs' & E & -> & ?). exists h'.
    unfold exec_op. run. by rewrite E.
  - destruct (replace_refines h xs ok e Hr Hlt) as (h' & r & xs' & E & -> & ?). exists h'.
    unfold exec_op. run. by rewrite E.
  - destruct (locate h xs e Hr) as (b & Hfb & Hb & Hfe & _). exists h.
    unfold exec_op, hash_find. run. by rewrite Hfb, Hfe.
  - destruct (delete_refines h xs ok e Hr) as (h' & r & xs' & E & -> & ?). exists h'.
    unfold exec_op. run. by rewrite E.
  - exists h. unfold exec_op, hash_size. run. by rewrite (proj1 (r_size _ _ Hr)).
  - exists h. unfold exec_op, hash_empty. run. rewrite (proj1 (r_size _ _ Hr)). split; [|done].
    simpl. do 2 f_equal. by destruct xs.
  - exists (mk_hash 0 (bucket_cnt h) (replicate (Z.to_nat (bucket_cnt h)) [])). split; [done|].
    by apply (clear_represents h xs false ([], _)).
Qed.

Lemma spec_op_length xs o : (length (snd (spec_op xs o)) ≤ Datatypes.S (length xs))%nat.
Proof.
  destruct o; simpl; try lia; destruct (find_in less xs e) as [old|]; simpl; try lia;
    pose proof (length_filter (λ x, x ≠ old) xs); lia.
Qed.

Lemma ops_refine os h xs :
  represents h xs → Z.of_nat (length xs) + Z.of_nat (length os) < 2^32 →
  ∃ h', exec_ops os h = Ok (fst (spec_ops xs os), h') ∧ represents h' (snd (spec_ops xs os)).
Proof.
  revert h xs. induction os as [|o os IH]; intros h xs Hr Hlt; [by exists h|]. simpl in Hlt.
  destruct (op_refines h xs o Hr) as (h1 & E & Hr1); [lia|].
  pose proof (spec_op_length xs o) as Hl. simpl. run. rewrite E.
  destruct (spec_op xs o) as [r xs1]. simpl in *.
  destruct (IH h1 xs1 Hr1) as (h' & -> & Hr'); [lia|].
  destruct (spec_ops xs1 os) as [rs xs2]. by exists h'.
Qed.

Lemma init_represents h : hash_init true = Some h → represents h [].
Proof.
  intros [= <-]. split; simpl; [by exists 2 | done | | done | |done].
  - intros i b e Hb Hin. do 4 (destruct i as [|i]; [injection Hb as <-; by apply elem_of_nil in Hin|]). done.
  - split; [constructor|]. intros a b Ha. by apply elem_of_nil in Ha.
Qed.

(** C39: a hash table is a set of elements.  Started on a table made by
    [hash_init], every sequence of insertions, replacements, searches,
    removals, size queries and clearings gives the results of the same
    operations on a set in which no two elements are equal, whatever the hash
    function and whether or not [malloc] succeeds when the table is resized; and
    the table still represents that set. *)
Theorem hash_refines_set os h :
  hash_init true = Some h → Z.of_nat (length os) < 2^32 →
  ∃ h', exec_ops os h = Ok (fst (spec_ops [] os), h') ∧ represents h' (snd (spec_ops [] os)).
Proof. intros Hi Hlt. apply ops_refine; [by apply init_represents | done]. Qed.

(** ** Iteration *)

(** [while (hash_next (&i)) ...]: the elements that the loop visits. *)
Fixpoint iterate (fuel : nat) (h : hash) (i : hash_iterator) : res (list Z) :=
  match fuel with
  | O => Err OutOfFuel
  | Datatypes.S fuel =>
      match hash_next h i with
      | Err e => Err e
      | Ok i' =>
          match hash_cur i' with
          | None => Ok []
          | Some e => match iterate fuel h i' with Ok es => Ok (e :: es) | Err e => Err e end
          end
      end
  end.

Lemma list_next_split pre e post : e ∉ pre → list_next (pre ++ e :: post) e = head post.
Proof.
  induction pre as [|x pre IH]; simpl; intros Hn.
  - by rewrite Z.eqb_refl.
  - apply not_elem_of_cons in Hn as [Hne Hn]. rewrite (proj2 (Z.eqb_neq x e)) by congruence. auto.
Qed.

(** The iterator [i] is at [e] and has the elements [es] still to come. *)
Definition at_elem (bs : list (list Z)) (i : hash_iterator) (e : Z) (es : list Z) : Prop :=
  elem i = At_elem e ∧ ∃ pre post, bs !! bucket i = Some (pre ++ e :: post)
    ∧ es = post ++ concat (drop (Datatypes.S (bucket i)) bs).

Lemma next_bucket_spec bs rest n pre xs :
  bs !! n = Some (pre ++ xs) → rest = drop (Datatypes.S n) bs →
  let i := next_bucket rest n (head xs) in
  match xs ++ concat rest with
  | [] => elem i = At_end
  | e :: es => at_elem bs i e es
  end.
Proof.
  revert n pre xs. induction rest as [|b rest IH]; intros n pre xs Hb E.
  - destruct xs as [|e xs]; [done|]. split; [done|]. exists pre, xs. cbn [next_bucket head bucket]. by rewrite <- E.
  - destruct xs as [|e xs].
    + assert (bs !! Datatypes.S n = Some b) as Hb'.
      { rewrite <- (Nat.add_0_r (Datatypes.S n)), <- lookup_drop, <- E. done. }
      apply (IH (Datatypes.S n) [] b Hb').
      rewrite (drop_S _ _ _ Hb') in E. by injection E.
    + split; [done|]. exists pre, xs. cbn [next_bucket head bucket]. by rewrite <- E.
Qed.

Lemma iterate_from fuel h i e es :
  NoDup (concat (buckets h)) → at_elem (buckets h) i e es → (length es < fuel)%nat →
  iterate fuel h i = Ok es.
Proof.
  intros HN. revert i e es. induction fuel as [|fuel IH]; intros i e es (Ee & pre & post & Hb & ->) Hlt; [lia|].
  assert (e ∉ pre) as Hn.
  { destruct (concat_split _ _ _ [] Hb) as (p0 & q & E & _). rewrite E in HN.
    apply NoDup_app in HN as (_ & _ & HN). apply NoDup_app in HN as (HN & _).
    apply NoDup_app in HN as (_ & HN & _). intros Hin. by apply (HN e Hin); left. }
  simpl. unfold hash_next. rewrite Hb, Ee. rewrite list_next_split by done.
  pose proof (next_bucket_spec (buckets h) _ (bucket i) (pre ++ [e]) post
    ltac:(by rewrite <- app_assoc) eq_refl) as Hnext. simpl in Hnext.
  destruct (post ++ concat _) as [|e' es'] eqn:Ees.
  - unfold hash_cur. by rewrite Hnext.
  - unfold hash_cur at 1. destruct Hnext as [Hne Hat]. rewrite Hne. simpl in Hlt.
    rewrite (IH _ e' es'); [done | by split | lia].
Qed.

Lemma iterate_first h :
  NoDup (concat (buckets h)) → buckets h ≠ [] →
  iterate (Datatypes.S (length (concat (buckets h)))) h hash_first = Ok (concat (buckets h)).
Proof.
  intros HN Hne. destruct (buckets h !! 0%nat) as [b|] eqn:Hb; [|by destruct (buckets h)].
  cbn [iterate]. unfold hash_next, hash_first. cbn [bucket elem]. rewrite Hb.
  pose proof (next_bucket_spec (buckets h) _ 0 [] b Hb eq_refl) as Hnext. cbn zeta in Hnext.
  assert (concat (buckets h) = b ++ concat (drop 1 (buckets h))) as E.
  { destruct (buckets h); [done|]. injection Hb as ->. done. }
  rewrite E. destruct (b ++ concat (drop 1 (buckets h))) as [|e es]; unfold hash_cur at 1.
  - by rewrite Hnext.
  - pose proof Hnext as [-> _]. rewrite (iterate_from _ h _ e es); [done | done | done | simpl; lia].
Qed.

(** the loop [hash_first (&i, h); while (hash_next (&i)) ...] visits every
    element of the table exactly once and then ends. *)
Theorem hash_iteration_complete h xs :
  represents h xs →
  ∃ es, iterate (Datatypes.S (length xs)) h hash_first = Ok es ∧ es ≡ₚ xs ∧ NoDup es.
Proof.
  intros [(a & Ha & Hcnt) Hlen Hpl Hel [HN Hd] Hsz]. exists (concat (buckets h)).
  assert (NoDup (concat (buckets h))) as HN' by (by rewrite Hel). split; [|done].
  rewrite <- (Permutation_length Hel). apply iterate_first; [done|]. intros E. rewrite E in Hlen.
  simpl in Hlen. pose proof (Z.pow_pos_nonneg 2 a). lia.
Qed.


End refinement.
(** Integers as elements. *)
Lemma int_hash_ok : HashOk u32 Z.ltb.
Proof.
  split.
  - apply u32_range.
  - apply Z.ltb_irrefl.
  - unfold equal. intros a b c. rewrite !andb_true_iff, !negb_true_iff, !Z.ltb_ge. lia.
  - unfold equal. intros a b. rewrite !andb_true_iff, !negb_true_iff, !Z.ltb_ge. intros ?. f_equal. lia.
Qed.

Definition ten_inserts : list op :=
  map (Insert true) [1; 2; 3; 4; 5; 6; 7; 8; 9; 10; 3] ++ [Delete false 4; Replace true 5; Find 7; Size].

Lemma hash_refines_set_witness :
  ∃ h', exec_ops u32 Z.ltb ten_inserts (mk_hash 0 4 [[]; []; []; []])
        = Ok (fst (spec_ops Z.ltb [] ten_inserts), h')
      ∧ represents u32 Z.ltb h' (snd (spec_ops Z.ltb [] ten_inserts)).
Proof.
  assert (HashOk u32 Z.ltb) as Hok by exact int_hash_ok.
  apply (hash_refines_set u32 Z.ltb); [reflexivity | simpl; lia].
Defined.

Lemma hash_iteration_complete_witness :
  ∃ es, iterate 2 (mk_hash 1 4 [[]; []; [6]; []]) hash_first = Ok es ∧ es ≡ₚ [6] ∧ NoDup es.
Proof.
  assert (HashOk u32 Z.ltb) as Hok by exact int_hash_ok.
  apply (hash_iteration_complete u32 Z.ltb _ [6]). split; simpl; [by exists 2 | done | | done | |done].
  - intros i b e Hb Hin.
    do 4 (destruct i as [|i]; [injection Hb as <-; repeat (apply elem_of_cons in Hin as [->|Hin]); try done;
      by apply elem_of_nil in Hin|]). done.
  - split; [apply NoDup_singleton|]. intros a b Ha Hb _. apply list_elem_of_singleton in Ha, Hb. congruence.
Defined.

End Hash.
