(* ===== verification/Arith.v ===== *)
(** * 64-bit division: lib/arithmetic.c

    Integers are [Z] within their 64 or 32 bits, and every operation that can
    leave the range is reduced.  A division error of the processor is
    [Err Fault]. *)
From stdpp Require Import base numbers tactics.
From Stdlib Require Import ZArith Lia.
From S2P Require Import Prelude.

Module Arith.

(** The instruction [divl]. *)
Definition divl (n d : Z) : res Z :=
  if (d =? 0) || (2^32 <=? n / d) then Err Fault else Ok (n / d).

(** [if (x <= bound) { n += k; x <<= k; }] *)
Definition nlz_stage (bound k : Z) (nx : Z * Z) : Z * Z :=
  let '(n, x) := nx in
  if x <=? bound then (n + k, u32 (Z.shiftl x k)) else (n, x).

Definition nlz (x : Z) : Z :=
  let nx := (0, x) in
  let nx := nlz_stage 65535 16 nx in
  let nx := nlz_stage 16777215 8 nx in
  let nx := nlz_stage 268435455 4 nx in
  let nx := nlz_stage 1073741823 2 nx in
  let '(n, x) := nx in
  if x <=? 2147483647 then n + 1 else n.

Definition udiv64 (n d : Z) : res Z :=
  if Z.shiftr d 32 =? 0 then
    let b := 2^32 in
    let n1 := u32 (Z.shiftr n 32) in
    let n0 := u32 n in
    let d0 := u32 d in
    if d0 =? 0 then Err Fault
    else
      match divl (u64 (b * (n1 mod d0) + n0)) d0 with
      | Ok q => Ok (u64 (q + b * (n1 / d0)))
      | Err e => Err e
      end
  else if n <? d then Ok 0
  else
    let d1 := u32 (Z.shiftr d 32) in
    let s := nlz d1 in
    match divl (Z.shiftr n 1) (u32 (Z.shiftr (u64 (Z.shiftl d s)) 32)) with
    | Ok q =>
        let q := Z.shiftr q (31 - s) in
        Ok (if u64 (n - u64 (u64 (q - 1) * d)) <? d then u64 (q - 1) else q)
    | Err e => Err e
    end.

Definition umod64 (n d : Z) : res Z :=
  match udiv64 n d with
  | Ok q => Ok (u32 (n - d * q))
  | Err e => Err e
  end.

Definition sdiv64 (n d : Z) : res Z :=
  let n_abs := if 0 <=? n then n else u64 (- u64 n) in
  let d_abs := if 0 <=? d then d else u64 (- u64 d) in
  match udiv64 n_abs d_abs with
  | Ok q_abs => Ok (if Bool.eqb (n <? 0) (d <? 0) then s64 q_abs else s64 (- s64 q_abs))
  | Err e => Err e
  end.

Definition smod64 (n d : Z) : res Z :=
  match sdiv64 n d with
  | Ok q => Ok (s32 (n - s64 (d * q)))
  | Err e => Err e
  end.

Definition divdi3 : Z → Z → res Z := sdiv64.
Definition moddi3 : Z → Z → res Z := smod64.
Definition udivdi3 : Z → Z → res Z := udiv64.
Definition umoddi3 : Z → Z → res Z := umod64.

(** ** Leading zeros *)

(** After a stage the highest one is among the top [k] bits, if it was among the
    top [2 * k] before. *)
Lemma nlz_stage_spec k n x :
  1 ≤ k ≤ 16 → 2^(32 - 2 * k) ≤ x < 2^32 →
  ∃ e, nlz_stage (2^(32 - k) - 1) k (n, x) = (n + e, x * 2^e) ∧ 0 ≤ e ≤ k
    ∧ 2^(32 - k) ≤ x * 2^e < 2^32.
Proof.
  intros Hk Hx. unfold nlz_stage. destruct (Z.leb_spec x (2^(32 - k) - 1)) as [Hle|Hgt].
  - exists k. rewrite Z.shiftl_mul_pow2 by lia.
    assert (0 < 2^k) by (apply Z.pow_pos_nonneg; lia).
    assert (0 < 2^(32 - 2 * k)) by (apply Z.pow_pos_nonneg; lia).
    assert (2^(32 - k) * 2^k = 2^32) as E1 by (rewrite <- Z.pow_add_r by lia; f_equal; lia).
    assert (2^(32 - 2 * k) * 2^k = 2^(32 - k)) as E2 by (rewrite <- Z.pow_add_r by lia; f_equal; lia).
    assert (2^(32 - k) ≤ x * 2^k < 2^32) by nia.
    rewrite u32_small by nia. split_and!; [done | lia..].
  - exists 0. rewrite Z.add_0_r, Z.mul_1_r. split_and!; [done | lia..].
Qed.

(** Shifting by [nlz x] moves the highest one to the top. *)
Lemma nlz_correct x : 0 < x < 2^32 → 0 ≤ nlz x ≤ 31 ∧ 2^31 ≤ x * 2^(nlz x) < 2^32.
Proof.
  intros Hx. unfold nlz.
  destruct (nlz_stage_spec 16 0 x) as (e1 & E1 & He1 & Hx1); [lia | simpl; lia |].
  change 65535 with (2^(32 - 16) - 1). rewrite E1. set (x1 := x * 2^e1) in *.
  destruct (nlz_stage_spec 8 (0 + e1) x1) as (e2 & E2 & He2 & Hx2); [lia | simpl in *; lia |].
  change 16777215 with (2^(32 - 8) - 1). rewrite E2. set (x2 := x1 * 2^e2) in *.
  destruct (nlz_stage_spec 4 (0 + e1 + e2) x2) as (e3 & E3 & He3 & Hx3); [lia | simpl in *; lia |].
  change 268435455 with (2^(32 - 4) - 1). rewrite E3. set (x3 := x2 * 2^e3) in *.
  destruct (nlz_stage_spec 2 (0 + e1 + e2 + e3) x3) as (e4 & E4 & He4 & Hx4); [lia | simpl in *; lia |].
  change 1073741823 with (2^(32 - 2) - 1). rewrite E4. set (x4 := x3 * 2^e4) in *.
  assert (x4 = x * 2^(0 + e1 + e2 + e3 + e4)) as Ex.
  { unfold x4, x3, x2, x1. rewrite !Z.pow_add_r by lia. lia. }
  destruct (Z.leb_spec x4 2147483647).
  - rewrite Z.pow_add_r by lia. rewrite Z.mul_assoc, <- Ex. simpl in *. lia.
  - rewrite <- Ex. simpl in *. lia.
Qed.

(** ** Division *)

Lemma divl_ok n d : 0 < d → n / d < 2^32 → divl n d = Ok (n / d).
Proof.
  intros Hd Hq. unfold divl. rewrite (proj2 (Z.eqb_neq d 0)), (proj2 (Z.leb_gt _ _)) by lia. done.
Qed.

(** By a divisor of at most 32 bits. *)
Lemma udiv64_small n d : 0 ≤ n < 2^64 → 0 < d < 2^32 → udiv64 n d = Ok (n / d).
Proof.
  intros Hn Hd. unfold udiv64. rewrite !Z.shiftr_div_pow2 by lia.
  rewrite (Z.div_small d), Z.eqb_refl by lia.
  rewrite (u32_small d) by lia. rewrite (proj2 (Z.eqb_neq d 0)) by lia.
  rewrite (u32_small (n / 2^32)) by div_lia. unfold u32 at 1.
  set (n1 := n / 2^32). assert (n = 2^32 * n1 + n mod 2^32) as En by (unfold n1; apply Z.div_mod; lia).
  pose proof (Z.mod_pos_bound n (2^32)) as H0. set (n0 := n mod 2^32) in *.
  assert (0 ≤ n1 < 2^32) as H1 by (unfold n1; div_lia).
  pose proof (Z.mod_pos_bound n1 d ltac:(lia)) as Hm.
  pose proof (Z.div_mod n1 d ltac:(lia)) as E1.
  rewrite (u64_small (2^32 * (n1 mod d) + n0)) by nia.
  assert ((2^32 * (n1 mod d) + n0) / d < 2^32) as Hq by (apply Z.div_lt_upper_bound; nia).
  rewrite divl_ok by lia. f_equal.
  assert (n / d = (2^32 * (n1 mod d) + n0) / d + 2^32 * (n1 / d)) as ->.
  { rewrite <- Z.div_add by lia. f_equal. rewrite En. nia. }
  apply u64_small. pose proof (Z.div_pos (2^32 * (n1 mod d) + n0) d ltac:(nia) ltac:(lia)).
  assert (n1 / d ≤ n1) by (apply Z.div_le_upper_bound; nia).
  pose proof (Z.div_pos n1 d ltac:(lia) ltac:(lia)). nia.
Qed.

(** The quotient estimate of the other case: dividing by [d] with its low bits
    cleared gives the quotient or one more. *)
Lemma estimate n d k :
  0 ≤ n < 2^64 → 1 ≤ k ≤ 32 → 2^(31 + k) ≤ d →
  let D := d / 2^k * 2^k in
  0 < D ∧ n / d ≤ n / D ≤ n / d + 1.
Proof.
  intros Hn Hk Hd D. set (p := 2^k).
  assert (2 ≤ p) as Hp by (change 2 with (2^1) at 1; apply Z.pow_le_mono_r; lia).
  assert (2^(31 + k) = 2^31 * p) as E1 by (unfold p; apply Z.pow_add_r; lia).
  rewrite E1 in Hd.
  assert (D ≤ d ∧ d - D ≤ p - 1) as [HD1 HD2].
  { unfold D. fold p. pose proof (Z.div_mod d p ltac:(lia)). pose proof (Z.mod_pos_bound d p ltac:(lia)). lia. }
  assert (2^31 * p ≤ D) as HD3.
  { unfold D. fold p. apply Z.mul_le_mono_nonneg_r; [lia|]. apply Z.div_le_lower_bound; lia. }
  assert (0 < D) as Hpos by lia. split; [done|].
  assert (n * (d - D) < d * D) as Hkey.
  { apply Z.lt_le_trans with (2^64 * (p - 1)).
    - destruct (decide (d - D = 0)) as [->|]; [lia|].
      apply Z.le_lt_trans with (n * (p - 1)); [apply Z.mul_le_mono_nonneg_l; lia|].
      apply Z.mul_lt_mono_pos_r; lia.
    - apply Z.le_trans with ((2^31 * p) * (2^31 * p)); [|apply Z.mul_le_mono_nonneg; lia].
      assert (0 ≤ (p - 2) * (p - 2)) by (apply Z.square_nonneg). lia. }
  split; [apply Z.div_le_compat_l; lia|].
  pose proof (Z.mul_succ_div_gt n d ltac:(lia)) as Hgt.
  assert (n < (n / d + 2) * D) as Hlt.
  { apply (Z.mul_lt_mono_pos_l d); [lia|].
    assert (n * D < (n / d + 1) * d * D) by (apply Z.mul_lt_mono_pos_r; lia). lia. }
  assert (n / D < n / d + 2) by (apply Z.div_lt_upper_bound; lia). lia.
Qed.

Lemma udiv64_large n d : 0 ≤ n < 2^64 → 2^32 ≤ d < 2^64 → udiv64 n d = Ok (n / d).
Proof.
  intros Hn Hd. unfold udiv64. rewrite !Z.shiftr_div_pow2 by lia.
  assert (1 ≤ d / 2^32 < 2^32) as Hd1 by div_lia.
  rewrite (proj2 (Z.eqb_neq _ _)) by lia.
  destruct (Z.ltb_spec n d) as [Hlt|Hge]; [by rewrite Z.div_small by lia|].
  rewrite (u32_small (d / 2^32)) by lia.
  destruct (nlz_correct (d / 2^32)) as [Hs Hnorm]; [lia|]. set (s := nlz (d / 2^32)) in *.
  rewrite Z.shiftl_mul_pow2 by lia.
  assert (0 < 2^s) as Hps by (apply Z.pow_pos_nonneg; lia).
  set (k := 32 - s). assert (2^32 = 2^s * 2^k) as E32 by (rewrite <- Z.pow_add_r by lia; f_equal; lia).
  assert (0 < 2^k) as Hpk by (apply Z.pow_pos_nonneg; lia).
  assert (d / 2^32 < 2^k) as Hd1k by (apply (Z.mul_lt_mono_pos_r (2^s)); lia).
  assert (d < 2^k * 2^32) as Hdu.
  { apply Z.lt_le_trans with ((d / 2^32 + 1) * 2^32); [div_lia|]. apply Z.mul_le_mono_nonneg_r; lia. }
  assert (0 < d * 2^s < 2^64) as Hdl.
  { split; [apply Z.mul_pos_pos; lia|]. replace (2^64) with (2^k * 2^32 * 2^s) by lia.
    apply Z.mul_lt_mono_pos_r; lia. }
  rewrite (u64_small (d * 2^s)) by lia.
  assert (d * 2^s / 2^32 = d / 2^k) as Ev.
  { rewrite E32 at 1. rewrite (Z.mul_comm d), Z.div_mul_cancel_l by lia. done. }
  rewrite Ev.
  assert (2^(31 + k) ≤ d) as Hdk.
  { rewrite Z.pow_add_r by lia. apply Z.le_trans with (d / 2^32 * 2^32); [|div_lia].
    assert (d / 2^32 * 2^32 = d / 2^32 * 2^s * 2^k) as -> by (by rewrite <- Z.mul_assoc, <- E32).
    apply Z.mul_le_mono_nonneg_r; lia. }
  assert (2^31 ≤ d / 2^k < 2^32) as Hv.
  { rewrite Z.pow_add_r in Hdk by lia. split; [apply Z.div_le_lower_bound; lia|].
    apply Z.div_lt_upper_bound; lia. }
  rewrite (u32_small (d / 2^k)) by lia. change (2^1) with 2.
  rewrite divl_ok; [|lia|apply Z.div_lt_upper_bound; [lia|div_lia]].
  rewrite Z.shiftr_div_pow2 by lia.
  assert (n / 2 / (d / 2^k) / 2^(31 - s) = n / (d / 2^k * 2^k)) as ->.
  { assert (0 < 2^(31 - s)) by (apply Z.pow_pos_nonneg; lia). rewrite !Z.div_div by lia. f_equal.
    assert (2^k = 2 * 2^(31 - s)) as Ek by (rewrite <- Z.pow_succ_r by lia; f_equal; lia).
    set (v := d / 2^k). rewrite Ek. lia. }
  destruct (estimate n d k Hn ltac:(lia) Hdk) as [HD [Hq1 Hq2]].
  set (q := n / (d / 2^k * 2^k)) in *. f_equal.
  assert (1 ≤ n / d) as Hone by (apply Z.div_le_lower_bound; lia).
  assert (n / d < 2^32) as Hq3 by (apply Z.div_lt_upper_bound; lia).
  rewrite (u64_small (q - 1)) by lia.
  pose proof (Z.div_mod n d ltac:(lia)) as En. pose proof (Z.mod_pos_bound n d ltac:(lia)) as Hm.
  assert (q = n / d ∨ q = n / d + 1) as [E|E] by lia; rewrite E.
  - rewrite (u64_small ((n / d - 1) * d)) by nia.
    replace (n - (n / d - 1) * d) with (n mod d + d) by lia.
    rewrite u64_small by nia. rewrite (proj2 (Z.ltb_ge _ _)) by lia. done.
  - rewrite (u64_small ((n / d + 1 - 1) * d)) by nia.
    replace (n - (n / d + 1 - 1) * d) with (n mod d) by lia.
    rewrite u64_small by lia. rewrite (proj2 (Z.ltb_lt _ _)) by lia. lia.
Qed.

Lemma udiv64_spec n d : 0 ≤ n < 2^64 → 0 < d < 2^64 → udiv64 n d = Ok (n / d).
Proof.
  intros Hn Hd. destruct (decide (d < 2^32)); [apply udiv64_small; lia | apply udiv64_large; lia].
Qed.

Lemma umod64_spec n d : 0 ≤ n < 2^64 → 0 < d < 2^64 → umod64 n d = Ok (u32 (n mod d)).
Proof.
  intros Hn Hd. unfold umod64. rewrite udiv64_spec by done. rewrite Z.mod_eq by lia. done.
Qed.

Lemma sgn64_small x : - 2^63 ≤ x < 2^63 → s64 x = x.
Proof. intros Hx. apply (sgn_small 64); lia. Qed.

(** The absolute value of a negative integer, computed without a sign. *)
Lemma abs64 n : - 2^63 ≤ n < 2^63 → (if 0 <=? n then n else u64 (- u64 n)) = Z.abs n.
Proof.
  intros Hn. destruct (Z.leb_spec 0 n); [lia|]. unfold u64. rewrite <- (Z.mod_unique n (2^64) (-1) (n + 2^64)) by lia.
  rewrite <- (Z.mod_unique (- (n + 2^64)) (2^64) (-1) (- n)) by lia. lia.
Qed.

Lemma quot_abs_sign n d :
  d ≠ 0 → Z.quot n d = if Bool.eqb (n <? 0) (d <? 0) then Z.abs n / Z.abs d else - (Z.abs n / Z.abs d).
Proof.
  intros Hd. rewrite <- Z.quot_div_nonneg by lia. rewrite Z.quot_abs by done.
  destruct (Z.ltb_spec n 0), (Z.ltb_spec d 0); simpl.
  - rewrite Z.abs_eq; [done|]. rewrite <- Z.quot_opp_opp by done. apply Z.quot_pos; lia.
  - rewrite Z.abs_neq; [lia|]. assert (0 ≤ Z.quot (- n) d) by (apply Z.quot_pos; lia).
    rewrite Z.quot_opp_l in * by done. lia.
  - rewrite Z.abs_neq; [lia|]. assert (0 ≤ Z.quot n (- d)) by (apply Z.quot_pos; lia).
    rewrite Z.quot_opp_r in * by done. lia.
  - rewrite Z.abs_eq; [done|]. apply Z.quot_pos; lia.
Qed.

Lemma sdiv64_spec n d :
  - 2^63 ≤ n < 2^63 → - 2^63 ≤ d < 2^63 → d ≠ 0 → sdiv64 n d = Ok (s64 (Z.quot n d)).
Proof.
  intros Hn Hd Hd0. unfold sdiv64. rewrite (abs64 n Hn), (abs64 d Hd), udiv64_spec by lia. f_equal.
  rewrite quot_abs_sign by done.
  assert (0 ≤ Z.abs n / Z.abs d ≤ 2^63) as Hq.
  { split; [apply Z.div_pos; lia|]. apply Z.div_le_upper_bound; [lia|]. nia. }
  set (q := Z.abs n / Z.abs d) in *. destruct (Bool.eqb (n <? 0) (d <? 0)); [done|].
  destruct (decide (q = 2^63)) as [->|Hne]; [done|]. by rewrite (sgn64_small q) by lia.
Qed.

Lemma smod64_spec n d :
  - 2^63 ≤ n < 2^63 → - 2^63 ≤ d < 2^63 → d ≠ 0 → smod64 n d = Ok (s32 (Z.rem n d)).
Proof.
  intros Hn Hd Hd0. unfold smod64. rewrite sdiv64_spec by done. do 2 f_equal.
  destruct (decide (n = - 2^63 ∧ d = -1)) as [[-> ->]|Hno]; [done|].
  pose proof (Z.quot_rem n d Hd0) as E.
  assert (Z.abs (Z.quot n d) ≤ Z.abs n) as Hq.
  { rewrite <- Z.quot_abs by done. apply Z.quot_le_upper_bound; [lia|]. nia. }
  assert (- 2^63 ≤ Z.quot n d < 2^63) as Hr.
  { assert (Z.quot n d ≠ 2^63); [|lia]. intros Eq.
    assert (Z.abs n = 2^63) as En by lia. assert (n = - 2^63) as -> by lia.
    assert (d ≠ -1) as Hd1 by tauto.
    pose proof (Z.rem_bound_abs (- 2^63) d Hd0). lia. }
  rewrite (sgn64_small (Z.quot n d)) by done. rewrite sgn64_small; [lia|].
  replace (d * Z.quot n d) with (n - Z.rem n d) by lia.
  pose proof (Z.rem_sign_nz n d Hd0). pose proof (Z.rem_bound_abs n d Hd0).
  assert (Z.abs (Z.rem n d) ≤ Z.abs n) by (rewrite <- Z.rem_abs by done; apply Z.rem_le; lia).
  destruct (decide (Z.rem n d = 0)); lia.
Qed.

(** C40: 64-bit division.  The routines return, without a division error, the
    quotient of any dividend by any divisor other than zero; the signed one
    truncates towards zero, and only the quotient of the smallest integer by
    -1, which does not fit, is reduced to 64 bits.  The remainders are reduced
    to 32 bits, since [umod64] and [smod64] return 32-bit integers: a remainder
    that does not fit is lost. *)
Theorem division_correct n d :
  (0 ≤ n < 2^64 → 0 < d < 2^64 →
     udivdi3 n d = Ok (n / d) ∧ umoddi3 n d = Ok (u32 (n mod d)))
  ∧ (- 2^63 ≤ n < 2^63 → - 2^63 ≤ d < 2^63 → d ≠ 0 →
     divdi3 n d = Ok (s64 (Z.quot n d)) ∧ moddi3 n d = Ok (s32 (Z.rem n d))).
Proof.
  split; [intros Hn Hd; split; [by apply udiv64_spec | by apply umod64_spec]|].
  intros Hn Hd Hd0. split; [by apply sdiv64_spec | by apply smod64_spec].
Qed.

Lemma division_correct_witness :
  udivdi3 18446744073709551615 4294967299 = Ok 4294967293 ∧ moddi3 (-7) 2 = Ok (-1)
  ∧ umoddi3 8589934592 17179869184 = Ok 0 ∧ 8589934592 mod 17179869184 = 8589934592.
Proof.
  split; [apply (proj1 (division_correct 18446744073709551615 4294967299)); lia|].
  split; [apply (proj2 (division_correct (-7) 2)); lia|].
  split; [apply (proj1 (division_correct 8589934592 17179869184)); lia | reflexivity].
Defined.

End Arith.
