(* ===== verification/Sort.v ===== *)
(** * Sorting, searching and numbers: lib/stdlib.c

    An array of [cnt] elements of [size] bytes is a list of elements; the
    comparison function of the client, with its auxiliary data, is a parameter.
    Indexes are 32-bit integers, 1-based in the heap as in the source. *)
From stdpp Require Import base gmap list.
From Stdlib Require Import ZArith Lia.
From S2P Require Import Prelude Cstring.

Module Sort.

(** ** atoi *)

(** [isspace] and [isdigit] of lib/ctype.h. *)
Definition isspace (c : Z) : bool :=
  (c =? 32) || (c =? 12) || (c =? 10) || (c =? 13) || (c =? 9) || (c =? 11).
Definition isdigit (c : Z) : bool := (48 <=? c) && (c <=? 57).

(** The bytes at [s] are read as [char], which is signed. *)
Definition atoi (fuel : nat) (s : Z) : M Mem.mem Z :=
  ASSERT (negb (s =? 0)) ;;
  s ← loop fuel (λ s, c ← Mem.load s; if isspace c then mret (inl (s + 1)) else mret (inr s)) s;
  c ← Mem.load s;
  let '(negative, s) := if c =? 43 then (false, s + 1) else if c =? 45 then (true, s + 1) else (false, s) in
  value ← loop fuel (λ '(s, value),
    c ← Mem.load s;
    if isdigit (s8 c) then mret (inl (s + 1, s32 (value * 10 - (s8 c - 48)))) else mret (inr value)) (s, 0);
  mret (if negative then value else s32 (- value)).

Section sort.
Context {A : Type} (compare : A → A → Z).

(** ** Heap sort *)

(** [array] has its elements at the 1-based indexes [1 ... length array]. *)
Definition elem (array : list A) (i : Z) : res A :=
  if i <? 1 then Err Fault
  else match array !! Z.to_nat (i - 1) with Some x => Ok x | None => Err Fault end.

Definition do_swap (a_idx b_idx : Z) : M (list A) unit := λ array,
  match elem array a_idx, elem array b_idx with
  | Ok a, Ok b => Ok (tt, <[Z.to_nat (b_idx - 1) := a]> (<[Z.to_nat (a_idx - 1) := b]> array))
  | _, _ => Err Fault
  end.

Definition do_compare (a_idx b_idx : Z) : M (list A) Z := λ array,
  match elem array a_idx, elem array b_idx with
  | Ok a, Ok b => Ok (compare a b, array)
  | _, _ => Err Fault
  end.

(** [if (idx <= cnt && do_compare (idx, max) > 0) max = idx] *)
Definition larger (cnt idx max : Z) : M (list A) Z :=
  if idx <=? cnt then c ← do_compare idx max; mret (if 0 <? c then idx else max)
  else mret max.

Definition heapify (fuel : nat) (i cnt : Z) : M (list A) unit :=
  loop fuel (λ i,
    let left := u32 (2 * i) in
    let right := u32 (2 * i + 1) in
    max ← larger cnt left i;
    max ← larger cnt right max;
    if max =? i then mret (inr tt) else do_swap i max ;; mret (inl max)) i.

(** A loop of [heapify] needs at most [cnt] rounds. *)
Definition sort (cnt : Z) : M (list A) unit :=
  let fuel := Z.to_nat (cnt + 1) in
  loop fuel (λ i, if 0 <? i then heapify fuel i cnt ;; mret (inl (i - 1)) else mret (inr tt)) (cnt / 2) ;;
  loop fuel (λ i, if 1 <? i then do_swap 1 i ;; heapify fuel 1 (i - 1) ;; mret (inl (i - 1))
                  else mret (inr tt)) cnt.

Definition qsort : Z → M (list A) unit := sort.

(** ** Binary search *)

(** [first] and [last] count elements from the start of the array; the result
    is the place of the match. *)
Definition binary_search (fuel : nat) (key : A) (cnt : Z) : M (list A) (option Z) :=
  loop fuel (λ '(first, last),
    if first <? last then
      let range := last - first in
      let middle := first + range / 2 in
      array ← get;
      x ← of_res (elem array (middle + 1));
      let cmp := compare key x in
      if cmp <? 0 then mret (inl (first, middle))
      else if 0 <? cmp then mret (inl (middle + 1, last))
      else mret (inr (Some middle))
    else mret (inr None)) (0, cnt).

Definition bsearch : nat → A → Z → M (list A) (option Z) := binary_search.

End sort.

(** [compare] orders the elements. *)
Class Compare {A} (compare : A → A → Z) := {
  compare_opp x y : 0 < compare x y ↔ compare y x < 0;
  compare_trans x y z : compare x y ≤ 0 → compare y z ≤ 0 → compare x z ≤ 0
}.

Section heap.
Context {A : Type} (compare : A → A → Z) `{Compare A compare}.
Local Abbreviation le x y := (compare x y ≤ 0).

Lemma le_refl x : le x x.
Proof. pose proof (compare_opp x x). lia. Qed.
Lemma gt_le x y : 0 < compare x y → le y x.
Proof. rewrite compare_opp. lia. Qed.

(** The element at a 1-based index, and [d] outside of the array. *)
Definition item (d : A) (array : list A) (i : Z) : A := nth (Z.to_nat (i - 1)) array d.

Section with_default.
Context (d : A).


Lemma elem_at array i : 1 ≤ i ≤ Z.of_nat (length array) → elem array i = Ok (item d array i).
Proof.
  intros Hi. unfold elem, item. rewrite (proj2 (Z.ltb_ge i 1)) by lia.
  destruct (lookup_lt_is_Some_2 array (Z.to_nat (i - 1))) as [x Hx]; [lia|]. rewrite Hx.
  by rewrite (nth_lookup_Some _ _ _ _ Hx).
Qed.

Definition swapped (array : list A) (a b : Z) : list A :=
  <[Z.to_nat (b - 1) := item d array a]> (<[Z.to_nat (a - 1) := item d array b]> array).

Lemma do_swap_run array a b :
  1 ≤ a ≤ Z.of_nat (length array) → 1 ≤ b ≤ Z.of_nat (length array) →
  do_swap a b array = Ok (tt, swapped array a b).
Proof. intros Ha Hb. unfold do_swap. by rewrite !elem_at. Qed.

Lemma do_compare_run array a b :
  1 ≤ a ≤ Z.of_nat (length array) → 1 ≤ b ≤ Z.of_nat (length array) →
  do_compare compare a b array = Ok (compare (item d array a) (item d array b), array).
Proof. intros Ha Hb. unfold do_compare. by rewrite !elem_at. Qed.

Lemma swapped_length array a b : length (swapped array a b) = length array.
Proof. unfold swapped. by rewrite !length_insert. Qed.

Lemma swapped_at array a b i :
  1 ≤ a ≤ Z.of_nat (length array) → 1 ≤ b ≤ Z.of_nat (length array) → 1 ≤ i →
  item d (swapped array a b) i
  = if i =? a then item d array b else if i =? b then item d array a else item d array i.
Proof.
  intros Ha Hb Hi. unfold swapped, item at 1. rewrite !nth_lookup.
  destruct (Z.eqb_spec i b) as [->|Hnb].
  - rewrite list_lookup_insert_eq by (rewrite length_insert; lia). simpl.
    destruct (Z.eqb_spec b a) as [->|]; done.
  - rewrite list_lookup_insert_ne by lia. destruct (Z.eqb_spec i a) as [->|Hna].
    + by rewrite list_lookup_insert_eq by lia.
    + rewrite list_lookup_insert_ne by lia. unfold item. by rewrite nth_lookup.
Qed.

Lemma swapped_perm array a b :
  1 ≤ a ≤ Z.of_nat (length array) → 1 ≤ b ≤ Z.of_nat (length array) → swapped array a b ≡ₚ array.
Proof.
  intros Ha Hb. unfold swapped, item.
  destruct (lookup_lt_is_Some_2 array (Z.to_nat (a - 1))) as [x Hx]; [lia|].
  destruct (lookup_lt_is_Some_2 array (Z.to_nat (b - 1))) as [y Hy]; [lia|].
  rewrite (nth_lookup_Some _ _ _ _ Hx), (nth_lookup_Some _ _ _ _ Hy).
  by apply Permutation_insert_swap.
Qed.

(** ** The heap *)

(** Among the first [cnt] elements, no child is larger than its parent if the
    parent is at [lo] or beyond. *)
Definition heap (lo cnt : Z) (array : list A) : Prop :=
  ∀ j, 2 ≤ j ≤ cnt → lo ≤ j / 2 → le (item d array j) (item d array (j / 2)).

(** The same, except that the element at [i] may be too small. *)
Definition heap_but (lo cnt i : Z) (array : list A) : Prop :=
  (∀ j, 2 ≤ j ≤ cnt → lo ≤ j / 2 → j / 2 ≠ i → le (item d array j) (item d array (j / 2)))
  ∧ (∀ j, 2 ≤ j ≤ cnt → j / 2 = i → lo ≤ i / 2 → le (item d array j) (item d array (i / 2))).

Lemma larger_run array cnt idx max :
  cnt ≤ Z.of_nat (length array) → 1 ≤ idx → 1 ≤ max ≤ cnt →
  ∃ m, larger compare cnt idx max array = Ok (m, array) ∧ (m = max ∨ m = idx ∧ idx ≤ cnt)
    ∧ le (item d array max) (item d array m) ∧ (idx ≤ cnt → le (item d array idx) (item d array m)).
Proof.
  intros Hlen Hidx Hmax. unfold larger. destruct (Z.leb_spec idx cnt) as [Hle|Hgt].
  - run. rewrite do_compare_run by lia. destruct (Z.ltb_spec 0 (compare (item d array idx) (item d array max))).
    + exists idx. split_and!; [done | by right | by apply gt_le | intros _; apply le_refl].
    + exists max. split_and!; [done | by left | apply le_refl | intros _; lia].
  - exists max. split_and!; [done | by left | apply le_refl | lia].
Qed.

(** The child to exchange the element at [i] with, or [i] itself. *)
Definition largest (cnt i m : Z) (array : list A) : Prop :=
  (m = i ∨ m = 2 * i ∨ m = 2 * i + 1) ∧ m ≤ cnt ∧ le (item d array i) (item d array m)
  ∧ ∀ j, 2 ≤ j ≤ cnt → j / 2 = i → le (item d array j) (item d array m).

Lemma children_run array cnt i :
  cnt ≤ Z.of_nat (length array) → cnt < 2^31 → 1 ≤ i ≤ cnt →
  ∃ m1 m, larger compare cnt (u32 (2 * i)) i array = Ok (m1, array)
    ∧ larger compare cnt (u32 (2 * i + 1)) m1 array = Ok (m, array) ∧ largest cnt i m array.
Proof.
  intros Hlen Hcnt Hi. rewrite !u32_small by lia.
  destruct (larger_run array cnt (2 * i) i) as (m1 & E1 & Hm1 & Hle1 & Hc1); [lia..|].
  destruct (larger_run array cnt (2 * i + 1) m1) as (m & E & Hm & Hle & Hc); [lia..|].
  exists m1, m. split; [done|]. split; [done|]. split; [lia|]. split; [lia|].
  split; [by eapply compare_trans|]. intros j Hj Ej.
  assert (j = 2 * i ∨ j = 2 * i + 1) as [-> | ->] by div_lia.
  - eapply compare_trans; [apply Hc1; lia | done].
  - apply Hc. lia.
Qed.

(** One exchange moves the exception to the child. *)
Lemma heap_but_down lo cnt i m array :
  cnt ≤ Z.of_nat (length array) → 1 ≤ lo ≤ i → largest cnt i m array → m ≠ i →
  heap_but lo cnt i array → heap_but lo cnt m (swapped array i m).
Proof.
  intros Hlen Hlo (Hm & Hmc & Hle & Hch) Hne [Hheap Hgrand].
  assert (m / 2 = i ∧ i < m) as [Hmi Hlt] by (split; [div_lia | lia]).
  assert (∀ j, 1 ≤ j → item d (swapped array i m) j
    = if j =? i then item d array m else if j =? m then item d array i else item d array j) as Hat.
  { intros j Hj. apply swapped_at; lia. }
  split.
  - intros j Hj Hjl Hjm. rewrite !Hat by div_lia.
    destruct (Z.eqb_spec j i) as [->|Hji].
    { rewrite (proj2 (Z.eqb_neq (i / 2) i)), (proj2 (Z.eqb_neq (i / 2) m)) by div_lia.
      apply Hgrand; [lia | done | done]. }
    destruct (Z.eqb_spec (j / 2) i) as [Eji|Hji2].
    { destruct (Z.eqb_spec j m); [done|]. by apply Hch. }
    assert (j ≠ m) as Hjm' by (intros ->; lia).
    rewrite (proj2 (Z.eqb_neq j m)), (proj2 (Z.eqb_neq (j / 2) m)) by done. by apply Hheap.
  - intros j Hj Ej Hl. rewrite Hmi. rewrite !Hat by lia. rewrite Z.eqb_refl.
    rewrite (proj2 (Z.eqb_neq j i)), (proj2 (Z.eqb_neq j m)) by div_lia.
    rewrite <- Ej. apply Hheap; lia.
Qed.

Lemma heap_but_done lo cnt i array :
  largest cnt i i array → heap_but lo cnt i array → heap lo cnt array.
Proof.
  intros (_ & _ & _ & Hch) [Hheap _] j Hj Hl. destruct (decide (j / 2 = i)) as [E|]; [|by apply Hheap].
  rewrite E. by apply Hch.
Qed.

(** [array'] rearranges the elements of [array] at [lo ... cnt]. *)
Definition rearranges (lo cnt : Z) (array array' : list A) : Prop :=
  array' ≡ₚ array ∧ (∀ j, 1 ≤ j → j < lo ∨ cnt < j → item d array' j = item d array j)
  ∧ ∀ j, lo ≤ j ≤ cnt → ∃ j', lo ≤ j' ≤ cnt ∧ item d array' j = item d array j'.

Lemma rearranges_refl lo cnt array : rearranges lo cnt array array.
Proof. split_and!; [done..|]. intros j Hj. by exists j. Qed.

Lemma heapify_spec fuel lo cnt i array (Q : unit → list A → Prop) :
  cnt ≤ Z.of_nat (length array) → cnt < 2^31 → 1 ≤ lo ≤ i → i ≤ cnt → heap_but lo cnt i array →
  cnt < Z.of_nat fuel →
  (∀ array', heap lo cnt array' → rearranges lo cnt array array' → Q tt array') →
  wp (heapify compare fuel i cnt) Q array.
Proof.
  intros Hlen Hcnt Hlo Hi Hheap Hfuel HQ. unfold heapify.
  apply (wp_loop (λ i a, lo ≤ i ≤ cnt ∧ heap_but lo cnt i a ∧ rearranges lo cnt array a)
    (λ i a, Z.to_nat (cnt - i))); [|split_and!; [lia | lia | done | apply rearranges_refl] | lia].
  intros i' a (Hi' & Hheap' & Hperm & Hout & Hin).
  assert (cnt ≤ Z.of_nat (length a)) as Hlen' by (by rewrite (Permutation_length Hperm)).
  destruct (children_run a cnt i') as (m1 & m & E1 & E & Hlg); [lia..|].
  wp_bind. eapply wp_eq; [exact E1|]. wp_bind. eapply wp_eq; [exact E|].
  destruct (Z.eqb_spec m i') as [->|Hne].
  - apply wp_ret, HQ; [by eapply heap_but_done | done].
  - pose proof Hlg as (Hm & Hmc & _). wp_bind. eapply wp_eq; [apply do_swap_run; lia|].
    apply wp_ret. split; [|lia]. split; [lia|]. split; [apply heap_but_down; done || lia|]. split_and!.
    + rewrite swapped_perm by lia. done.
    + intros j Hj Hjo. rewrite swapped_at by lia.
      rewrite (proj2 (Z.eqb_neq j i')), (proj2 (Z.eqb_neq j m)) by lia. auto.
    + intros j Hj. rewrite swapped_at by lia.
      destruct (Z.eqb_spec j i'), (Z.eqb_spec j m); apply Hin; lia.
Qed.

Lemma rearranges_trans lo cnt a b c : rearranges lo cnt a b → rearranges lo cnt b c → rearranges lo cnt a c.
Proof.
  intros (Hp1 & H1 & I1) (Hp2 & H2 & I2). split_and!; [by rewrite Hp2| |].
  - intros j Hj Ho. rewrite H2, H1 by done. done.
  - intros j Hj. destruct (I2 j Hj) as (j2 & Hj2 & ->). auto.
Qed.

Lemma rearranges_mono lo lo' cnt a b :
  1 ≤ lo' ≤ lo → rearranges lo cnt a b → rearranges lo' cnt a b.
Proof.
  intros Hl (Hp & H1 & I1). split_and!; [done| |].
  - intros j Hj Ho. apply H1; lia.
  - intros j Hj. destruct (decide (lo ≤ j)) as [?|?].
    + destruct (I1 j) as (j' & ? & ?); [lia|]. exists j'. split; [lia | done].
    + exists j. rewrite H1 by lia. done.
Qed.

(** A heap beyond [i] becomes a heap from [i] on. *)
Lemma heap_extend cnt i array : heap (i + 1) cnt array → heap_but i cnt i array.
Proof.
  intros Hh. split.
  - intros j Hj Hl Hne. apply Hh; lia.
  - intros j Hj E Hl. exfalso. div_lia.
Qed.

(** The first element of a heap is a largest one. *)
Lemma heap_top cnt array j : heap 1 cnt array → 1 ≤ j ≤ cnt → le (item d array j) (item d array 1).
Proof.
  intros Hh Hj. assert (0 ≤ j) as H0 by lia. revert j H0 Hj. refine (Z_lt_induction _ _).
  intros j IH Hj. destruct (decide (j = 1)) as [->|Hne]; [apply le_refl|].
  eapply compare_trans; [apply Hh; div_lia|]. apply IH; div_lia.
Qed.

(** ** Sorting *)

(** The elements after the first [k] are sorted, and none of them is smaller
    than one of the first [k]. *)
Definition sorted_from (k n : Z) (array : list A) : Prop :=
  ∀ i j, 1 ≤ i < j → j ≤ n → k < j → le (item d array i) (item d array j).

Lemma swap_top cnt array :
  1 < cnt ≤ Z.of_nat (length array) → heap 1 cnt array → heap_but 1 (cnt - 1) 1 (swapped array 1 cnt).
Proof.
  intros Hcnt Hh. split; [|intros j Hj Ej Hl; exfalso; div_lia].
  intros j Hj Hl Hne. rewrite !swapped_at by div_lia.
  rewrite (proj2 (Z.eqb_neq j 1)), (proj2 (Z.eqb_neq j cnt)), (proj2 (Z.eqb_neq (j / 2) 1)),
    (proj2 (Z.eqb_neq (j / 2) cnt)) by div_lia. apply Hh; lia.
Qed.

(** One round of the second loop: the largest element goes to its place. *)
Lemma extract_sorted cnt n array array' :
  1 < cnt ≤ n → n ≤ Z.of_nat (length array) → heap 1 cnt array → sorted_from cnt n array →
  rearranges 1 (cnt - 1) (swapped array 1 cnt) array' → sorted_from (cnt - 1) n array'.
Proof.
  intros Hcnt Hn Hh Hs (Hp & Hout & Hin) i j Hij Hj Hk.
  assert (∀ x, 1 ≤ x ≤ cnt → ∃ x', 1 ≤ x' ≤ cnt ∧ item d array' x = item d array x') as Hpre.
  { intros x Hx. assert (∃ y, 1 ≤ y ≤ cnt ∧ item d array' x = item d (swapped array 1 cnt) y) as (y & Hy & ->).
    { destruct (decide (x = cnt)) as [->|].
      - exists cnt. rewrite Hout by lia. split; [lia | done].
      - destruct (Hin x) as (y & ? & ?); [lia|]. exists y. split; [lia | done]. }
    rewrite swapped_at by lia. destruct (y =? 1); [by exists cnt; split; [lia|]|].
    destruct (y =? cnt); [by exists 1; split; [lia|] | by exists y]. }
  destruct (decide (j = cnt)) as [->|Hjc].
  - assert (item d array' cnt = item d array 1) as ->.
    { rewrite Hout, swapped_at by lia. rewrite (proj2 (Z.eqb_neq cnt 1)), Z.eqb_refl by lia. done. }
    destruct (Hpre i) as (x & Hx & ->); [lia|]. by apply (heap_top cnt).
  - assert (item d array' j = item d array j) as ->.
    { rewrite Hout, swapped_at by lia. by rewrite (proj2 (Z.eqb_neq j 1)), (proj2 (Z.eqb_neq j cnt)) by lia. }
    destruct (decide (i ≤ cnt)) as [Hi|Hi].
    + destruct (Hpre i) as (x & Hx & ->); [lia|]. apply Hs; lia.
    + rewrite Hout, swapped_at by lia. rewrite (proj2 (Z.eqb_neq i 1)), (proj2 (Z.eqb_neq i cnt)) by lia.
      apply Hs; lia.
Qed.

Lemma sort_spec cnt array (Q : unit → list A → Prop) :
  0 ≤ cnt < 2^31 → cnt = Z.of_nat (length array) →
  (∀ array', array' ≡ₚ array → sorted_from 1 cnt array' → Q tt array') →
  wp (sort compare cnt) Q array.
Proof.
  intros Hcnt Hlen HQ. unfold sort. set (fuel := Z.to_nat (cnt + 1)). wp_bind.
  apply (wp_loop (λ i a, 0 ≤ i ≤ cnt / 2 ∧ heap (i + 1) cnt a ∧ a ≡ₚ array) (λ i a, Z.to_nat i));
    [|split_and!; [div_lia | lia | intros j Hj Hl; exfalso; div_lia | done] | unfold fuel; div_lia].
  { intros i a (Hi & Hh & Hp). destruct (Z.ltb_spec 0 i) as [Hpos|Hz].
    - wp_bind. pose proof (Permutation_length Hp) as Hl.
      apply (heapify_spec fuel i); [lia | lia | lia | div_lia | by apply heap_extend | unfold fuel; lia |].
      intros a' Hh' (Hp' & _). apply wp_ret. split; [|lia]. split_and!; [lia | lia | | by rewrite Hp'].
      by replace (i - 1 + 1) with i by lia.
    - apply wp_ret. assert (i = 0) as -> by lia. revert Hh Hp. generalize a. clear a Hi Hz.
      intros a Hh Hp. rewrite Z.add_0_l in Hh.
      apply (wp_loop (λ i a, 0 ≤ i ≤ cnt ∧ heap 1 i a ∧ sorted_from i cnt a ∧ a ≡ₚ array) (λ i a, Z.to_nat i));
        [|split_and!; [lia | lia | done | intros x y ???; lia | done] | unfold fuel; lia].
      clear a Hh Hp. intros i a (Hi & Hh & Hs & Hp). pose proof (Permutation_length Hp) as Hl.
      destruct (Z.ltb_spec 1 i) as [Hpos|Hz].
      + wp_bind. eapply wp_eq; [apply do_swap_run; lia|]. wp_bind.
        apply (heapify_spec fuel 1); [rewrite swapped_length; lia | lia | lia | lia | apply swap_top; done || lia
          | unfold fuel; lia |].
        intros a' Hh' Hre. apply wp_ret. split; [|lia]. split_and!; [lia | lia | done | |].
        * apply (extract_sorted i cnt a); [lia | lia | done..].
        * destruct Hre as (-> & _). rewrite swapped_perm by lia. done.
      + apply wp_ret, HQ; [done|]. intros x y Hxy Hy Hk. apply Hs; lia. }
Qed.

End with_default.
(** No element is larger than a later one. *)
Definition sorted (array : list A) : Prop :=
  ∀ i j x y, (i < j)%nat → array !! i = Some x → array !! j = Some y → le x y.

Lemma sorted_from_sorted d array :
  sorted_from d 1 (Z.of_nat (length array)) array → sorted array.
Proof.
  intros Hs i j x y Hij Hx Hy. pose proof (lookup_lt_Some _ _ _ Hx). pose proof (lookup_lt_Some _ _ _ Hy).
  specialize (Hs (Z.of_nat i + 1) (Z.of_nat j + 1) ltac:(lia) ltac:(lia) ltac:(lia)).
  unfold item in Hs.
  replace (Z.to_nat (Z.of_nat i + 1 - 1)) with i in Hs by lia.
  replace (Z.to_nat (Z.of_nat j + 1 - 1)) with j in Hs by lia.
  by rewrite (nth_lookup_Some _ _ _ _ Hx), (nth_lookup_Some _ _ _ _ Hy) in Hs.
Qed.

(** [sort] terminates and leaves a sorted permutation of the array, for
    every array of less than 2^31 elements and every comparison function that
    orders them; it never reads or writes outside of the array. *)
Theorem sort_sorts array :
  Z.of_nat (length array) < 2^31 →
  ∃ array', sort compare (Z.of_nat (length array)) array = Ok (tt, array')
    ∧ array' ≡ₚ array ∧ sorted array'.
Proof.
  intros Hlen. destruct array as [|d array]; [by exists []|].
  pose proof (proj1 (wp_Ok _ _ _) (sort_spec d (Z.of_nat (length (d :: array))) (d :: array)
    (λ _ a, a ≡ₚ d :: array ∧ sorted a) ltac:(lia) eq_refl
    ltac:(intros a Hp Hs; split; [done|]; apply (sorted_from_sorted d); by rewrite (Permutation_length Hp))))
    as ([] & a & E & Ha). by exists a.
Qed.

(** ** Searching *)

Lemma elem_lookup (array : list A) i x :
  array !! i = Some x → elem array (Z.of_nat i + 1) = Ok x.
Proof.
  intros Hx. unfold elem. rewrite (proj2 (Z.ltb_ge _ _)) by lia.
  replace (Z.to_nat (Z.of_nat i + 1 - 1)) with i by lia. by rewrite Hx.
Qed.

Lemma search_spec fuel key array (Q : option Z → list A → Prop) :
  sorted array → (length array < fuel)%nat →
  (∀ o, match o with
        | Some m => ∃ x, 0 ≤ m ∧ array !! Z.to_nat m = Some x ∧ compare key x = 0
        | None => ∀ x, x ∈ array → compare key x ≠ 0
        end → Q o array) →
  wp (binary_search compare fuel key (Z.of_nat (length array))) Q array.
Proof.
  intros Hs Hfuel HQ. unfold binary_search.
  apply (wp_loop (λ '(first, last) a, a = array ∧ 0 ≤ first ≤ last ∧ last ≤ Z.of_nat (length array)
      ∧ (∀ i x, array !! i = Some x → Z.of_nat i < first → 0 < compare key x)
      ∧ (∀ i x, array !! i = Some x → last ≤ Z.of_nat i → compare key x < 0))
    (λ '(first, last) _, Z.to_nat (last - first))); [| |lia].
  2: { split_and!; [done | lia | lia | lia | intros i x _ ?; lia |].
       intros i x Hx Hi. apply lookup_lt_Some in Hx. lia. }
  intros [first last] a (-> & Hfl & Hlast & Hlow & Hhigh).
  destruct (Z.ltb_spec first last) as [Hlt|Hge].
  - set (m := first + (last - first) / 2).
    assert (first ≤ m < last) as Hm by (unfold m; div_lia).
    destruct (lookup_lt_is_Some_2 array (Z.to_nat m)) as [x Hx]; [lia|].
    wp_bind. apply wp_eq with array array; [done|]. wp_bind. apply wp_of_res with x.
    { replace (m + 1) with (Z.of_nat (Z.to_nat m) + 1) by lia. by apply elem_lookup. }
    destruct (Z.ltb_spec (compare key x) 0) as [Hc|Hc].
    { apply wp_ret. split; [|lia]. split_and!; [done | lia | lia | lia | done |].
      intros i y Hy Hi. destruct (decide (i = Z.to_nat m)) as [->|Hne]; [congruence|].
      pose proof (Hs (Z.to_nat m) i x y ltac:(lia) Hx Hy) as Hxy.
      destruct (decide (compare key y < 0)) as [|Hn]; [done|]. exfalso.
      assert (compare y key ≤ 0) as Hyk by (pose proof (compare_opp y key); lia).
      pose proof (compare_trans _ _ _ Hxy Hyk). pose proof (compare_opp x key). lia. }
    destruct (Z.ltb_spec 0 (compare key x)) as [Hc'|Hc'].
    { apply wp_ret. split; [|lia]. split_and!; [done | lia | lia | lia | | done].
      intros i y Hy Hi. destruct (decide (i = Z.to_nat m)) as [->|Hne]; [congruence|].
      pose proof (Hs i (Z.to_nat m) y x ltac:(lia) Hy Hx) as Hyx.
      destruct (decide (0 < compare key y)) as [|Hn]; [done|]. exfalso.
      assert (compare key y ≤ 0) as Hky by lia. pose proof (compare_trans _ _ _ Hky Hyx). lia. }
    apply wp_ret, HQ. exists x. split_and!; [lia | done | lia].
  - apply wp_ret, HQ. intros x [i Hx]%list_elem_of_lookup_1 E.
    destruct (decide (Z.of_nat i < first)) as [Hi|Hi]; [specialize (Hlow i x Hx Hi); lia|].
    specialize (Hhigh i x Hx ltac:(lia)). lia.
Qed.

(** [binary_search] on a sorted array terminates; it returns the place of
    an element that matches the key, and a null pointer only if there is
    none. *)
Theorem binary_search_finds key array :
  sorted array →
  ∃ o, binary_search compare (Datatypes.S (length array)) key (Z.of_nat (length array)) array = Ok (o, array)
    ∧ match o with
      | Some m => ∃ x, 0 ≤ m ∧ array !! Z.to_nat m = Some x ∧ compare key x = 0
      | None => ∀ x, x ∈ array → compare key x ≠ 0
      end.
Proof.
  intros Hs. destruct (proj1 (wp_Ok _ _ _) (search_spec (Datatypes.S (length array)) key array
    (λ o a, a = array ∧ match o with
      | Some m => ∃ x, 0 ≤ m ∧ array !! Z.to_nat m = Some x ∧ compare key x = 0
      | None => ∀ x, x ∈ array → compare key x ≠ 0
      end) Hs ltac:(lia) ltac:(done))) as (o & a & E & -> & Ho). by exists o.
Qed.

End heap.

Lemma int_compare : Compare Z.sub.
Proof. split; intros; lia. Qed.

Lemma sort_sorts_witness :
  ∃ array', sort Z.sub 5 [3; 1; 2; 5; 4] = Ok (tt, array') ∧ array' ≡ₚ [3; 1; 2; 5; 4] ∧ sorted Z.sub array'.
Proof.
  assert (Compare Z.sub) as Hc by exact int_compare.
  apply (sort_sorts Z.sub [3; 1; 2; 5; 4]). simpl. lia.
Defined.

Lemma binary_search_finds_witness :
  ∃ o, binary_search Z.sub 4 7 3 [2; 7; 9] = Ok (o, [2; 7; 9])
    ∧ match o with
      | Some m => ∃ x, 0 ≤ m ∧ [2; 7; 9] !! Z.to_nat m = Some x ∧ 7 - x = 0
      | None => ∀ x, x ∈ [2; 7; 9] → 7 - x ≠ 0
      end.
Proof.
  assert (Compare Z.sub) as Hc by exact int_compare.
  apply (binary_search_finds Z.sub 7 [2; 7; 9]).
  intros i j x y Hij Hx Hy.
  do 3 (destruct i as [|i]; [do 3 (destruct j as [|j]; [simplify_eq/=; lia|]); done|]). done.
Defined.

End Sort.
