(* ===== verification/Block.v ===== *)
(** * Block devices and partitions: devices/block.c, devices/partition.c

    The table of block devices, the roles that the devices play, and the
    partitions that a scan of a disk registers as devices of their own.  A
    disk is an array of sectors: the registers of the IDE controller are not
    modelled, only what devices/ide.c makes of them, a read and a write of
    one sector that reject sector numbers of more than 28 bits.  Messages to
    the console are left out. *)
From stdpp Require Import base gmap list.
From Stdlib Require Import ZArith Lia.
From S2P Require Import Prelude.

(** ** The interface of a block device

    What the file system relies on: a device [b] of the state [D] is an array
    of [bd_size] sectors of 512 bytes; reading and writing past its end stops
    the machine.  [bd_role] finds the device with a role. *)
Class BlockDevices (D : Type) := {
  bd_ok : D → Z → Prop;
  bd_size : D → Z → Z;
  bd_sector : D → Z → Z → list Z;
  bd_read : Z → Z → M D (list Z);
  bd_write : Z → Z → list Z → M D unit;
  bd_role : D → Z → option Z;
  bd_length d b s : bd_ok d b → length (bd_sector d b s) = 512%nat;
  bd_bytes d b s : bd_ok d b → Forall (λ c, 0 ≤ c < 256) (bd_sector d b s);
  bd_size_range d b : bd_ok d b → 0 ≤ bd_size d b < 2^28;
  bd_read_ok d b s :
    bd_ok d b → 0 ≤ s < bd_size d b →
    wp (bd_read b s) (λ r d', r = bd_sector d b s ∧ bd_ok d' b ∧ bd_size d' b = bd_size d b
      ∧ ∀ s', 0 ≤ s' < bd_size d b → bd_sector d' b s' = bd_sector d b s') d;
  bd_write_ok d b s x :
    bd_ok d b → 0 ≤ s < bd_size d b → length x = 512%nat → Forall (λ c, 0 ≤ c < 256) x →
    wp (bd_write b s x) (λ _ d', bd_ok d' b ∧ bd_size d' b = bd_size d b
      ∧ ∀ s', 0 ≤ s' < bd_size d b → bd_sector d' b s' = if decide (s' = s) then x else bd_sector d b s') d;
  bd_read_past d b s : bd_ok d b → bd_size d b ≤ s < 2^32 → bd_read b s d = Err Panic;
  bd_write_past d b s x : bd_ok d b → bd_size d b ≤ s < 2^32 → bd_write b s x d = Err Panic
}.

Module Block.

(** ** Data *)

Definition BLOCK_SECTOR_SIZE : Z := 512.

Inductive block_type_t :=
  | BLOCK_KERNEL | BLOCK_FILESYS | BLOCK_SCRATCH | BLOCK_SWAP
  | BLOCK_RAW | BLOCK_FOREIGN.

#[export] Instance block_type_eq_dec : EqDecision block_type_t.
Proof. solve_decision. Defined.

Definition type_no (t : block_type_t) : Z :=
  match t with
  | BLOCK_KERNEL => 0 | BLOCK_FILESYS => 1 | BLOCK_SCRATCH => 2 | BLOCK_SWAP => 3
  | BLOCK_RAW => 4 | BLOCK_FOREIGN => 5
  end.
Definition BLOCK_ROLE_CNT : Z := 4.

(** [ops] and [aux] of a device: a disk, or a [struct partition]. *)
Inductive operations :=
  | ide_operations (disk : Z)
  | partition_operations (p : Z).

Record block := mk_block {
  name : list Z;
  type : block_type_t;
  size : Z;
  ops : operations;
  read_cnt : Z;
  write_cnt : Z
}.

Record partition := mk_partition {
  p_block : Z;
  p_start : Z
}.

(** The heap with its devices and partitions, the two tables of block.c, the
    sectors of the disks, and the address of the next object. *)
Record devices := mk_devices {
  blocks : gmap Z block;
  partitions : gmap Z partition;
  all_blocks : list Z;
  block_by_role : gmap Z Z;
  disks : gmap (Z * Z) (list Z);
  next : Z
}.

Definition set_blocks (x : gmap Z block) (d : devices) : devices :=
  mk_devices x (partitions d) (all_blocks d) (block_by_role d) (disks d) (next d).
Definition set_partitions (x : gmap Z partition) (d : devices) : devices :=
  mk_devices (blocks d) x (all_blocks d) (block_by_role d) (disks d) (next d).
Definition set_all_blocks (x : list Z) (d : devices) : devices :=
  mk_devices (blocks d) (partitions d) x (block_by_role d) (disks d) (next d).
Definition set_block_by_role (x : gmap Z Z) (d : devices) : devices :=
  mk_devices (blocks d) (partitions d) (all_blocks d) x (disks d) (next d).
Definition set_disks (x : gmap (Z * Z) (list Z)) (d : devices) : devices :=
  mk_devices (blocks d) (partitions d) (all_blocks d) (block_by_role d) x (next d).
Definition set_next (x : Z) (d : devices) : devices :=
  mk_devices (blocks d) (partitions d) (all_blocks d) (block_by_role d) (disks d) x.

Definition get_block (b : Z) : M devices block := λ d,
  match blocks d !! b with Some x => Ok (x, d) | None => Err Fault end.
Definition get_partition (p : Z) : M devices partition := λ d,
  match partitions d !! p with Some x => Ok (x, d) | None => Err Fault end.

(** ** Finding devices *)

Definition block_get_role (role : block_type_t) : M devices (option Z) :=
  ASSERT (type_no role <? BLOCK_ROLE_CNT) ;;
  gets (λ d, block_by_role d !! type_no role).
Definition block_set_role (role : block_type_t) (b : Z) : M devices unit :=
  ASSERT (type_no role <? BLOCK_ROLE_CNT) ;;
  modify (λ d, set_block_by_role (<[type_no role := b]> (block_by_role d)) d).

Definition block_first : M devices (option Z) := gets (λ d, head (all_blocks d)).

Fixpoint after (b : Z) (l : list Z) : option Z :=
  match l with
  | [] => None
  | x :: l => if x =? b then head l else after b l
  end.
Definition block_next (b : Z) : M devices (option Z) := gets (λ d, after b (all_blocks d)).

Fixpoint find_name (nm : list Z) (l : list Z) : M devices (option Z) :=
  match l with
  | [] => mret None
  | b :: l => x ← get_block b;
      if bool_decide (nm = name x) then mret (Some b) else find_name nm l
  end.
Definition block_get_by_name (nm : list Z) : M devices (option Z) :=
  l ← gets all_blocks; find_name nm l.

Definition block_size (b : Z) : M devices Z := x ← get_block b; mret (size x).
Definition block_name (b : Z) : M devices (list Z) := x ← get_block b; mret (name x).
Definition block_type (b : Z) : M devices block_type_t := x ← get_block b; mret (type x).

(** ** Reading and writing *)

Definition zeros : list Z := replicate 512 0.

(** The disk. *)
Definition ide_read (disk sec_no : Z) : M devices (list Z) :=
  ASSERT (sec_no <? 2^28) ;;
  gets (λ d, default zeros (disks d !! (disk, sec_no))).
Definition ide_write (disk sec_no : Z) (buffer : list Z) : M devices unit :=
  ASSERT (sec_no <? 2^28) ;;
  modify (λ d, set_disks (<[(disk, sec_no) := buffer]> (disks d)) d).

Definition check_sector (b sector : Z) : M devices unit :=
  x ← get_block b;
  if size x <=? sector then fail Panic else mret tt.

Definition count_read (x : block) : block :=
  mk_block (name x) (type x) (size x) (ops x) (u64 (read_cnt x + 1)) (write_cnt x).
Definition count_write (x : block) : block :=
  mk_block (name x) (type x) (size x) (ops x) (read_cnt x) (u64 (write_cnt x + 1)).

(** A partition passes the request on to its device. *)
Definition partition_read (read : Z → Z → M devices (list Z)) (p sector : Z) : M devices (list Z) :=
  x ← get_partition p; read (p_block x) (u32 (p_start x + sector)).
Definition partition_write (write : Z → Z → list Z → M devices unit) (p sector : Z)
    (buffer : list Z) : M devices unit :=
  x ← get_partition p; write (p_block x) (u32 (p_start x + sector)) buffer.

(** The fuel bounds the nesting of partitions. *)
Fixpoint read_block (fuel : nat) (b sector : Z) : M devices (list Z) :=
  match fuel with
  | O => fail OutOfFuel
  | Datatypes.S fuel =>
      check_sector b sector ;;
      x ← get_block b;
      buffer ← match ops x with
               | ide_operations disk => ide_read disk sector
               | partition_operations p => partition_read (read_block fuel) p sector
               end;
      modify (λ d, set_blocks (alter count_read b (blocks d)) d) ;;
      mret buffer
  end.

Fixpoint write_block (fuel : nat) (b sector : Z) (buffer : list Z) : M devices unit :=
  match fuel with
  | O => fail OutOfFuel
  | Datatypes.S fuel =>
      check_sector b sector ;;
      x ← get_block b;
      ASSERT (negb (bool_decide (type x = BLOCK_FOREIGN))) ;;
      match ops x with
      | ide_operations disk => ide_write disk sector buffer
      | partition_operations p => partition_write (write_block fuel) p sector buffer
      end ;;
      modify (λ d, set_blocks (alter count_write b (blocks d)) d)
  end.

(** The device of a partition is older than the partition, so its address is
    smaller in the model: the address of a device bounds the nesting. *)
Definition block_read (b sector : Z) : M devices (list Z) := read_block (Datatypes.S (Z.to_nat b)) b sector.
Definition block_write (b sector : Z) (buffer : list Z) : M devices unit :=
  write_block (Datatypes.S (Z.to_nat b)) b sector buffer.

(** ** Registering devices *)

Section register.
(** Whether the allocation that would return a given address succeeds. *)
Context (malloc_ok : Z → bool).

Definition malloc : M devices (option Z) := λ d,
  Ok (if malloc_ok (next d) then Some (next d) else None, set_next (next d + 1) d).

Definition block_register (nm : list Z) (t : block_type_t) (sz : Z) (o : operations) : M devices Z :=
  a ← malloc;
  match a with
  | None => fail Panic
  | Some b =>
      modify (λ d, set_all_blocks (all_blocks d ++ [b]) d) ;;
      modify (λ d, set_blocks (<[b := mk_block (take 15 nm) t sz o 0 0]> (blocks d)) d) ;;
      mret b
  end.

(** Decimal digits, as printed by "%d" for a positive number. *)
Fixpoint digits (fuel : nat) (n : Z) : list Z :=
  match fuel with
  | O => []
  | Datatypes.S fuel => if n <? 10 then [48 + n] else digits fuel (n / 10) ++ [48 + n mod 10]
  end.
Definition decimal (n : Z) : list Z := digits 10 n.

Definition partition_block_type (part_type : Z) : block_type_t :=
  if part_type =? 32 then BLOCK_KERNEL
  else if part_type =? 33 then BLOCK_FILESYS
  else if part_type =? 34 then BLOCK_SCRATCH
  else if part_type =? 35 then BLOCK_SWAP
  else BLOCK_FOREIGN.

Definition found_partition (b part_type start sz part_nr : Z) : M devices unit :=
  n ← block_size b;
  if n <=? start then mret tt
  else if (u32 (start + sz) <? start) || (n <? u32 (start + sz)) then mret tt
  else
    a ← malloc;
    match a with
    | None => fail Panic
    | Some p =>
        modify (λ d, set_partitions (<[p := mk_partition b start]> (partitions d)) d) ;;
        nm ← block_name b;
        block_register (take 15 (nm ++ decimal part_nr)) (partition_block_type part_type) sz
          (partition_operations p) ;;
        mret tt
    end.

(** Little-endian integers in a sector. *)
Definition byte_at (s : list Z) (i : Z) : Z := default 0 (s !! Z.to_nat i).
Definition le16 (s : list Z) (i : Z) : Z := byte_at s i + byte_at s (i + 1) * 2^8.
Definition le32 (s : list Z) (i : Z) : Z :=
  byte_at s i + byte_at s (i + 1) * 2^8 + byte_at s (i + 2) * 2^16 + byte_at s (i + 3) * 2^24.

(** The [i]th entry of a partition table: type, offset and size. *)
Record partition_table_entry := mk_entry { e_type : Z; e_offset : Z; e_size : Z }.
Definition table_entry (pt : list Z) (i : Z) : partition_table_entry :=
  mk_entry (byte_at pt (446 + 16 * i + 4)) (le32 pt (446 + 16 * i + 8)) (le32 pt (446 + 16 * i + 12)).
Definition signature (pt : list Z) : Z := le16 pt 510.

Definition is_extended (t : Z) : bool := (t =? 5) || (t =? 15) || (t =? 133) || (t =? 197).

(** One entry of the table in [sector]; the counter [*part_nr] is passed
    along, and [read_table] is the recursive call. *)
Definition parse_entry (read_table : Z → Z → Z → M devices Z) (b sector primary_extended_sector : Z)
    (pt : list Z) (i part_nr : Z) : M devices Z :=
  let e := table_entry pt i in
  if (e_size e =? 0) || (e_type e =? 0) then mret part_nr
  else if is_extended (e_type e) then
    if sector =? 0 then read_table (e_offset e) (e_offset e) part_nr
    else read_table (u32 (e_offset e + primary_extended_sector)) primary_extended_sector part_nr
  else
    found_partition b (e_type e) (u32 (e_offset e + sector)) (e_size e) (s32 (part_nr + 1)) ;;
    mret (s32 (part_nr + 1)).

(** The fuel bounds the nesting of extended partitions. *)
Fixpoint read_partition_table (fuel : nat) (b sector primary_extended_sector part_nr : Z) : M devices Z :=
  match fuel with
  | O => fail OutOfFuel
  | Datatypes.S fuel =>
      n ← block_size b;
      if n <=? sector then mret part_nr
      else
        a ← malloc;
        match a with
        | None => fail Panic
        | Some _ =>
            pt ← block_read b 0;
            if negb (signature pt =? 43605) then mret part_nr
            else
              let parse := parse_entry (read_partition_table fuel b) b sector primary_extended_sector pt in
              nr ← parse 0 part_nr; nr ← parse 1 nr; nr ← parse 2 nr; parse 3 nr
        end
  end.

Definition partition_scan (fuel : nat) (b : Z) : M devices unit :=
  read_partition_table fuel b 0 0 0 ;; mret tt.
End register.

(** ** Where a sector is *)

(** The disk under a device and the sector of the disk where it starts. *)
Fixpoint locate (fuel : nat) (d : devices) (b : Z) : Z * Z :=
  match fuel, blocks d !! b with
  | Datatypes.S fuel, Some x =>
      match ops x with
      | ide_operations disk => (disk, 0)
      | partition_operations p =>
          match partitions d !! p with
          | Some y => let (disk, base) := locate fuel d (p_block y) in (disk, p_start y + base)
          | None => (0, 0)
          end
      end
  | _, _ => (0, 0)
  end.
Definition location (d : devices) (b s : Z) : Z * Z :=
  let (disk, base) := locate (Datatypes.S (Z.to_nat b)) d b in (disk, base + s).
Definition sector (d : devices) (b s : Z) : list Z := default zeros (disks d !! location d b s).

(** No device on the way to the disk belongs to another system. *)
Fixpoint not_foreign (fuel : nat) (d : devices) (b : Z) : bool :=
  match fuel, blocks d !! b with
  | Datatypes.S fuel, Some x =>
      negb (bool_decide (type x = BLOCK_FOREIGN)) &&
      match ops x with
      | ide_operations disk => true
      | partition_operations p =>
          match partitions d !! p with Some y => not_foreign fuel d (p_block y) | None => false end
      end
  | _, _ => false
  end.
Definition writable (d : devices) (b : Z) : bool := not_foreign (Datatypes.S (Z.to_nat b)) d b.

(** Every partition lies inside its device, which is older, and every disk
    is small enough for the controller. *)
Definition wf_block (d : devices) (b : Z) (x : block) : Prop :=
  0 ≤ b < next d ∧ 0 ≤ size x < 2^28 ∧
  match ops x with
  | ide_operations disk => True
  | partition_operations p =>
      ∃ y z, partitions d !! p = Some y ∧ p < next d ∧ blocks d !! p_block y = Some z ∧ p_block y < b
        ∧ 0 ≤ p_start y ∧ p_start y + size x ≤ size z
  end.
Definition is_sector (x : list Z) : Prop := length x = 512%nat ∧ Forall (λ c, 0 ≤ c < 256) x.
Definition wf (d : devices) : Prop :=
  (∀ b x, blocks d !! b = Some x → wf_block d b x) ∧ (∀ l x, disks d !! l = Some x → is_sector x).

(** Two states with the same devices, up to their statistics. *)
Definition core (x : block) : list Z * block_type_t * Z * operations := (name x, type x, size x, ops x).
Definition same (d d' : devices) : Prop :=
  (∀ b, core <$> blocks d' !! b = core <$> blocks d !! b) ∧ partitions d' = partitions d
  ∧ all_blocks d' = all_blocks d ∧ block_by_role d' = block_by_role d ∧ next d' = next d.

#[export] Instance same_equiv : Equivalence same.
Proof.
  split; unfold same.
  - done.
  - intros d d' (? & -> & -> & -> & ->). done.
  - intros d1 d2 d3 (H1 & -> & -> & -> & ->) (H2 & -> & -> & -> & ->).
    repeat split; [|done..]. intros b. by rewrite H2.
Qed.

Lemma same_block d d' b x :
  same d d' → blocks d !! b = Some x →
  ∃ x', blocks d' !! b = Some x' ∧ core x' = core x.
Proof.
  intros [H _] E. specialize (H b). rewrite E in H. destruct (blocks d' !! b) as [x'|]; [|done].
  simpl in H. eauto with congruence.
Qed.

Lemma core_fields x x' : core x' = core x → name x' = name x ∧ type x' = type x ∧ size x' = size x ∧ ops x' = ops x.
Proof. unfold core. naive_solver. Qed.

Lemma same_locate fuel d d' b : same d d' → locate fuel d' b = locate fuel d b.
Proof.
  intros Hs. revert b. induction fuel as [|fuel IH]; intros b; [done|]. simpl.
  pose proof Hs as (Hb & -> & _). specialize (Hb b).
  destruct (blocks d !! b) as [x|], (blocks d' !! b) as [x'|]; simpl in Hb; [apply (inj Some) in Hb | done..].
  apply core_fields in Hb as (_ & _ & _ & ->).
  destruct (ops x); [done|]. destruct (partitions d !! p); [|done]. by rewrite IH.
Qed.

Lemma same_not_foreign fuel d d' b : same d d' → not_foreign fuel d' b = not_foreign fuel d b.
Proof.
  intros Hs. revert b. induction fuel as [|fuel IH]; intros b; [done|]. simpl.
  pose proof Hs as (Hb & -> & _). specialize (Hb b).
  destruct (blocks d !! b) as [x|], (blocks d' !! b) as [x'|]; simpl in Hb; [apply (inj Some) in Hb | done..].
  apply core_fields in Hb as (_ & -> & _ & ->).
  destruct (ops x); [done|]. destruct (partitions d !! p); [|done]. by rewrite IH.
Qed.

Lemma same_wf_block d d' b x x' :
  same d d' → core x' = core x → wf_block d b x → wf_block d' b x'.
Proof.
  intros Hs (_ & _ & Hsz & Hops)%core_fields. unfold wf_block. pose proof Hs as (_ & -> & _ & _ & ->).
  rewrite Hsz, Hops. intros (? & ? & H). split_and!; [lia..|]. destruct (ops x) as [|p]; [done|].
  destruct H as (y & z & Hp & ? & Hz & ? & ? & ?).
  destruct (same_block _ _ _ _ Hs Hz) as (z' & Hz' & (_ & _ & Hsz' & _)%core_fields).
  exists y, z'. rewrite Hsz'. done.
Qed.

Lemma same_wf d d' :
  same d d' → wf d → (∀ l x, disks d' !! l = Some x → is_sector x) → wf d'.
Proof.
  intros Hs [Hw _] Hd. split; [|done]. intros b x' Hb'.
  assert (same d' d) as Hs' by by symmetry.
  destruct (same_block _ _ _ _ Hs' Hb') as (x & Hb & Hc).
  by apply (same_wf_block d d' b x); auto.
Qed.

Lemma same_alter d b f :
  (∀ x, core (f x) = core x) → same d (set_blocks (alter f b (blocks d)) d).
Proof.
  intros Hf. split; [|done]. intros b'. simpl. destruct (decide (b' = b)) as [->|].
  - rewrite lookup_alter_eq. destruct (blocks d !! b); simpl; [by rewrite Hf | done].
  - by rewrite lookup_alter_ne.
Qed.

(** The nesting is bounded by the address of the device. *)
Lemma locate_fuel d b n m : wf d → (Z.to_nat b < n)%nat → (Z.to_nat b < m)%nat → locate n d b = locate m d b.
Proof.
  intros [Hw _]. revert b m. induction n as [|n IH]; intros b [|m] Hn Hm; [lia..|]. simpl.
  destruct (blocks d !! b) as [x|] eqn:E; [|done]. destruct (Hw _ _ E) as (Hb & _ & H).
  destruct (ops x); [done|]. destruct H as (y & z & -> & _ & Hz & Hlt & _).
  destruct (Hw _ _ Hz) as (? & _). rewrite (IH (p_block y) m) by lia. done.
Qed.
Lemma not_foreign_fuel d b n m :
  wf d → (Z.to_nat b < n)%nat → (Z.to_nat b < m)%nat → not_foreign n d b = not_foreign m d b.
Proof.
  intros [Hw _]. revert b m. induction n as [|n IH]; intros b [|m] Hn Hm; [lia..|]. simpl.
  destruct (blocks d !! b) as [x|] eqn:E; [|done]. destruct (Hw _ _ E) as (Hb & _ & H).
  destruct (ops x); [done|]. destruct H as (y & z & -> & _ & Hz & Hlt & _).
  destruct (Hw _ _ Hz) as (? & _). rewrite (IH (p_block y) m) by lia. done.
Qed.

(** The location of a sector of a partition is that of a sector of its
    device. *)
Lemma location_partition d b x p y s :
  wf d → blocks d !! b = Some x → ops x = partition_operations p → partitions d !! p = Some y →
  location d b s = location d (p_block y) (p_start y + s).
Proof.
  intros Hw E Ho Hp. destruct (proj1 Hw _ _ E) as (Hb & _ & H). rewrite Ho in H.
  destruct H as (y' & z & Hp' & _ & Hz & Hlt & _). simplify_eq.
  destruct (proj1 Hw _ _ Hz) as (? & _).
  unfold location.
  rewrite (locate_fuel d (p_block y) (Datatypes.S (Z.to_nat (p_block y))) (Z.to_nat b)) by (done || lia).
  simpl. rewrite E, Ho, Hp. destruct (locate _ _ _). f_equal. lia.
Qed.
Lemma writable_partition d b x p y :
  wf d → blocks d !! b = Some x → ops x = partition_operations p → partitions d !! p = Some y →
  writable d b = negb (bool_decide (type x = BLOCK_FOREIGN)) && writable d (p_block y).
Proof.
  intros Hw E Ho Hp. destruct (proj1 Hw _ _ E) as (Hb & _ & H). rewrite Ho in H.
  destruct H as (y' & z & Hp' & _ & Hz & Hlt & _). simplify_eq.
  destruct (proj1 Hw _ _ Hz) as (? & _).
  unfold writable.
  rewrite (not_foreign_fuel d (p_block y) (Datatypes.S (Z.to_nat (p_block y))) (Z.to_nat b)) by (done || lia).
  simpl. by rewrite E, Ho, Hp.
Qed.

Lemma same_sector d d' b s : same d d' → disks d' = disks d → sector d' b s = sector d b s.
Proof. intros Hs Hd. unfold sector, location. by rewrite (same_locate _ d d'), Hd. Qed.

(** ** Reading and writing a sector *)

Lemma location_disk d b x disk s :
  blocks d !! b = Some x → ops x = ide_operations disk → location d b s = (disk, s).
Proof. intros E Ho. unfold location. simpl. by rewrite E, Ho. Qed.

Lemma read_block_ok fuel d b x s :
  wf d → blocks d !! b = Some x → 0 ≤ s < size x → (Z.to_nat b < fuel)%nat →
  wp (read_block fuel b s) (λ r d', r = sector d b s ∧ same d d' ∧ disks d' = disks d) d.
Proof.
  intros Hw. revert b x s. induction fuel as [|fuel IH]; intros b x s E Hs Hf; [lia|].
  destruct (proj1 Hw _ _ E) as (Hb & Hsz & H).
  unfold wp. simpl. unfold check_sector, get_block. run. rewrite E.
  destruct (Z.leb_spec (size x) s); [lia|]. rewrite E. run.
  destruct (ops x) as [disk|p] eqn:Ho.
  - unfold ide_read. run. destruct (Z.ltb_spec s (2^28)); [|lia]. split_and!; [|by apply same_alter|done].
    unfold sector. by rewrite (location_disk d b x disk s).
  - destruct H as (y & z & Hp & _ & Hz & Hlt & Hst & Hend). destruct (proj1 Hw _ _ Hz) as (? & ? & _).
    unfold partition_read, get_partition. run. rewrite Hp. rewrite u32_small by lia.
    specialize (IH (p_block y) z (p_start y + s) Hz). unfold wp in IH.
    destruct (read_block fuel (p_block y) (p_start y + s) d) as [[r d']|];
      [|exfalso; apply IH; lia]. destruct IH as (-> & Hs' & Hd); [lia..|]. split_and!.
    + unfold sector. by rewrite (location_partition d b x p y).
    + transitivity d'; [done|]. by apply same_alter.
    + done.
Qed.

Lemma write_block_ok fuel d b x s buffer :
  wf d → blocks d !! b = Some x → 0 ≤ s < size x → (Z.to_nat b < fuel)%nat → writable d b = true →
  wp (write_block fuel b s buffer)
    (λ _ d', same d d' ∧ disks d' = <[location d b s := buffer]> (disks d)) d.
Proof.
  intros Hw. revert b x s. induction fuel as [|fuel IH]; intros b x s E Hs Hf Hwr; [lia|].
  destruct (proj1 Hw _ _ E) as (Hb & Hsz & H).
  unfold wp. simpl. unfold check_sector, get_block. run. rewrite E.
  destruct (Z.leb_spec (size x) s); [lia|]. rewrite E. run.
  destruct (ops x) as [disk|p] eqn:Ho.
  - unfold writable in Hwr. simpl in Hwr. rewrite E in Hwr. apply andb_true_iff in Hwr as [-> _].
    unfold ide_write. run. destruct (Z.ltb_spec s (2^28)); [|lia]. split.
    + transitivity (set_disks (<[(disk, s):=buffer]> (disks d)) d); [done|]. by apply same_alter.
    + simpl. by rewrite (location_disk d b x disk s).
  - destruct H as (y & z & Hp & _ & Hz & Hlt & Hst & Hend). destruct (proj1 Hw _ _ Hz) as (? & ? & _).
    rewrite (writable_partition d b x p y) in Hwr by done. apply andb_true_iff in Hwr as [-> Hwr].
    unfold partition_write, get_partition. run. rewrite Hp. rewrite u32_small by lia.
    specialize (IH (p_block y) z (p_start y + s) Hz). unfold wp in IH.
    destruct (write_block fuel (p_block y) (p_start y + s) buffer d) as [[r d']|];
      [|exfalso; apply IH; (done || lia)]. destruct IH as (Hs' & Hd); [done || lia..|]. split.
    + transitivity d'; [done|]. by apply same_alter.
    + simpl. rewrite Hd. by rewrite (location_partition d b x p y).
Qed.

Lemma sector_wf d b s : wf d → is_sector (sector d b s).
Proof.
  intros [_ Hd]. unfold sector. destruct (disks d !! location d b s) eqn:E; simpl; [by eapply Hd|].
  split; [done|]. by apply Forall_replicate.
Qed.

(** A read: the sector, with only statistics changed. *)
Lemma block_read_ok d b x s :
  wf d → blocks d !! b = Some x → 0 ≤ s < size x →
  wp (block_read b s) (λ r d', r = sector d b s ∧ wf d' ∧ same d d' ∧ disks d' = disks d) d.
Proof.
  intros Hw E Hs. eapply wp_mono; [apply (read_block_ok _ d b x s); (done || lia)|].
  intros r d' (-> & Hsame & Hd). split_and!; [done| |done..].
  apply (same_wf d); [done..|]. rewrite Hd. apply Hw.
Qed.
Lemma block_write_ok d b x s buffer :
  wf d → blocks d !! b = Some x → 0 ≤ s < size x → writable d b = true → is_sector buffer →
  wp (block_write b s buffer)
    (λ _ d', wf d' ∧ same d d' ∧ disks d' = <[location d b s := buffer]> (disks d)) d.
Proof.
  intros Hw E Hs Hwr Hbuf. eapply wp_mono; [apply (write_block_ok _ d b x s); (done || lia)|].
  intros _ d' (Hsame & Hd). split_and!; [|done..].
  apply (same_wf d); [done..|]. intros l y. rewrite Hd. intros Hl. lookups; [done | by eapply (proj2 Hw)].
Qed.

Lemma location_inj d b s s' : location d b s = location d b s' → s = s'.
Proof. unfold location. destruct (locate _ _ _). intros [=]. lia. Qed.

Lemma sector_written d d' b s s' buffer :
  same d d' → disks d' = <[location d b s := buffer]> (disks d) →
  ∀ b', sector d' b' s' = if decide (location d b' s' = location d b s) then buffer else sector d b' s'.
Proof.
  intros Hs Hd b'. unfold sector. rewrite Hd.
  assert (location d' b' s' = location d b' s') as -> by (unfold location; by rewrite (same_locate _ d d')).
  case_decide as He; [by rewrite He, lookup_insert_eq | by rewrite lookup_insert_ne].
Qed.

(** Devices of block.c are block devices in the sense of the interface. *)
Definition device_ok (d : devices) (b : Z) : Prop := wf d ∧ writable d b = true ∧ is_Some (blocks d !! b).
Definition device_size (d : devices) (b : Z) : Z := from_option size 0 (blocks d !! b).

Lemma device_same d d' b :
  same d d' → wf d' → device_ok d b → device_ok d' b ∧ device_size d' b = device_size d b.
Proof.
  intros Hs Hw' (Hw & Hwr & x & E). destruct (same_block _ _ _ _ Hs E) as (x' & E' & Hc).
  unfold device_ok, device_size. rewrite E, E'. simpl. apply core_fields in Hc as (_ & _ & -> & _).
  split; [|done]. split_and!; [done| |done]. unfold writable. by rewrite (same_not_foreign _ d d').
Qed.

#[export] Program Instance block_devices : BlockDevices devices := {|
  bd_ok := device_ok;
  bd_size := device_size;
  bd_sector := sector;
  bd_read := block_read;
  bd_write := block_write;
  bd_role d role := block_by_role d !! role
|}.
Next Obligation. intros d b s (Hw & _). by apply sector_wf. Qed.
Next Obligation. intros d b s (Hw & _). by apply sector_wf. Qed.
Next Obligation.
  intros d b (Hw & _ & x & E). unfold device_size. rewrite E. simpl. by apply (proj1 Hw) in E as (_ & ? & _).
Qed.
Next Obligation.
  intros d b s Hok Hs. pose proof Hok as (Hw & _ & x & E). unfold device_size in *. rewrite E in *.
  eapply wp_mono; [by apply (block_read_ok d b x)|]. intros r d' (-> & Hw' & Hsame & Hd).
  destruct (device_same d d' b) as [? Hsz]; [done..|]. unfold device_size in Hsz. rewrite E in Hsz.
  split_and!; [done..|]. intros s' _. by apply same_sector.
Qed.
Next Obligation.
  intros d b s buffer Hok Hs Hl Hb. pose proof Hok as (Hw & Hwr & x & E). unfold device_size in *. rewrite E in *.
  eapply wp_mono; [by apply (block_write_ok d b x)|]. intros _ d' (Hw' & Hsame & Hd).
  destruct (device_same d d' b) as [? Hsz]; [done..|]. unfold device_size in Hsz. rewrite E in Hsz.
  split_and!; [done..|]. intros s' _. rewrite (sector_written d d' b s s' buffer) by done.
  destruct (decide (s' = s)) as [->|Hn]; case_decide as He; try done. by apply location_inj in He.
Qed.
Next Obligation.
  intros d b s (Hw & _ & x & E) Hs. unfold device_size in Hs. rewrite E in Hs. simpl in Hs.
  unfold block_read. simpl. unfold check_sector, get_block. run. rewrite E.
  by destruct (Z.leb_spec (size x) s); [|lia].
Qed.
Next Obligation.
  intros d b s buffer (Hw & _ & x & E) Hs. unfold device_size in Hs. rewrite E in Hs. simpl in Hs.
  unfold block_write. simpl. unfold check_sector, get_block. run. rewrite E.
  by destruct (Z.leb_spec (size x) s); [|lia].
Qed.

(** ** Scanning for partitions *)

Section scan.
Context (malloc_ok : Z → bool).

Lemma disk_wf_next d n : next d ≤ n → wf d → wf (set_next n d).
Proof.
  intros Hn [Hw Hd]. split; [|done]. simpl. intros b x E. destruct (Hw _ _ E) as (? & ? & H).
  unfold wf_block. simpl. split_and!; [lia..|]. destruct (ops x); [done|].
  destruct H as (y & z & H). exists y, z. naive_solver lia.
Qed.


Lemma malloc_wf d o d' : malloc malloc_ok d = Ok (o, d') → wf d →
  wf d' ∧ d' = set_next (next d + 1) d ∧ (∀ a, o = Some a → a = next d).
Proof.
  intros [= <- <-] Hw. split_and!; [apply disk_wf_next; [lia | done] | done |].
  intros a. by destruct (malloc_ok (next d)); intros [= ->].
Qed.

(** A new device is not yet in the table, so that the others keep their
    properties. *)
Lemma wf_insert d b x :
  wf (set_next b d) → wf_block (set_next (b + 1) d) b x →
  wf (set_blocks (<[b := x]> (blocks d)) (set_next (b + 1) d)).
Proof.
  intros [Hw Hd] Hx. split; [|done]. simpl in *.
  assert (blocks d !! b = None) as Hnew.
  { destruct (blocks d !! b) as [y|] eqn:E; [|done]. destruct (Hw _ _ E) as (? & _). simpl in *. lia. }
  intros b' x' E.
  assert (wf_block (set_next (b + 1) d) b' x') as (? & ? & H).
  { lookups; [done|]. destruct (Hw _ _ E) as (? & ? & H'). unfold wf_block. simpl in *. split_and!; [lia..|].
    destruct (ops x'); [done|]. destruct H' as (y & z & H'). exists y, z. naive_solver lia. }
  unfold wf_block. simpl in *. split_and!; [lia..|]. destruct (ops x'); [done|].
  destruct H as (y & z & ? & ? & Hz & H). exists y, z.
  rewrite lookup_insert_ne by (intros ->; congruence). naive_solver.
Qed.

Lemma block_register_wf d nm t sz o b d' :
  block_register malloc_ok nm t sz o d = Ok (b, d') → wf d → 0 ≤ next d →
  wf_block (set_next (next d + 1) d) (next d) (mk_block (take 15 nm) t sz o 0 0) →
  wf d' ∧ next d' = next d + 1 ∧ disks d' = disks d ∧ b = next d
  ∧ blocks d' = <[b := mk_block (take 15 nm) t sz o 0 0]> (blocks d).
Proof.
  unfold block_register, malloc. run. intros H Hw Hn Hb. destruct (malloc_ok (next d)); [|done].
  injection H as <- <-. simpl. split_and!; [|done..].
  apply (wf_insert d (next d)); [|done]. by apply disk_wf_next.
Qed.

Lemma found_partition_wf d b ty start sz nr d' :
  found_partition malloc_ok b ty start sz nr d = Ok (tt, d') → wf d → 0 ≤ next d → 0 ≤ start < 2^32 →
  0 ≤ sz < 2^32 →
  wf d' ∧ 0 ≤ next d' ∧ (∀ a, is_Some (blocks d !! a) → blocks d' !! a = blocks d !! a) ∧ disks d' = disks d.
Proof.
  intros H Hw Hn Hst Hsz. revert H. unfold found_partition, block_size, block_name, get_block. run.
  destruct (blocks d !! b) as [x|] eqn:E; [|done]. destruct (proj1 Hw _ _ E) as (Hb & Hx & _).
  destruct (Z.leb_spec (size x) start); [intros [= <-]; done|].
  destruct (Z.ltb_spec (u32 (start + sz)) start) as [|Hge]; [intros [= <-]; done|].
  destruct (Z.ltb_spec (size x) (u32 (start + sz))) as [|Hle]; simpl; [intros [= <-]; done|].
  assert (start + sz ≤ size x) as Hend.
  { unfold u32 in *. destruct (decide (start + sz < 2^32)); [rewrite Z.mod_small in Hle; lia|].
    rewrite <- (Z.mod_unique (start + sz) (2^32) 1 (start + sz - 2^32)) in Hge by lia. lia. }
  unfold malloc. destruct (malloc_ok (next d)); simpl; [|done]. rewrite E.
  set (d1 := set_partitions _ _). intros Hreg.
  destruct (block_register malloc_ok _ _ _ _ d1) as [[b' d2]|] eqn:Hr; [|done]. injection Hreg as <-.
  assert (wf d1) as Hw1.
  { destruct Hw as [Hw Hd]. split; [|done]. unfold d1. simpl. intros a y Ea.
    destruct (Hw _ _ Ea) as (? & ? & Hy). unfold wf_block. simpl. split_and!; [lia..|].
    destruct (ops y); [done|]. destruct Hy as (u & v & Hy). exists u, v.
    rewrite lookup_insert_ne by naive_solver lia. naive_solver lia. }
  apply block_register_wf in Hr as (? & Hn' & ? & -> & ->); [|done|unfold d1; simpl; lia|].
  - unfold d1 in *. simpl in *. split_and!; [done | lia | | done]. intros a [y Ea].
    rewrite lookup_insert_ne; [done|]. apply (proj1 Hw) in Ea as (? & _). lia.
  - unfold wf_block, d1. simpl. split_and!; [lia..|]. exists (mk_partition b start), x. simpl.
    rewrite lookup_insert_eq. split_and!; [done | lia | done | lia..].
Qed.

Definition steady (d : devices) : Prop := wf d ∧ 0 ≤ next d.

Lemma byte_at_range x i : is_sector x → 0 ≤ byte_at x i < 256.
Proof.
  intros [_ Hf]. unfold byte_at. destruct (x !! Z.to_nat i) as [c|] eqn:E; simpl; [|lia].
  by apply (Forall_lookup_1 _ _ _ _ Hf) in E.
Qed.
Lemma le32_range x i : is_sector x → 0 ≤ le32 x i < 2^32.
Proof.
  intros Hx. unfold le32.
  pose proof (byte_at_range x i Hx). pose proof (byte_at_range x (i + 1) Hx).
  pose proof (byte_at_range x (i + 2) Hx). pose proof (byte_at_range x (i + 3) Hx). lia.
Qed.

Lemma parse_entry_steady rt b sec prim pt i nr d nr' d' :
  (∀ s p n d nr' d', rt s p n d = Ok (nr', d') → 0 ≤ s → steady d → steady d') →
  is_sector pt →
  parse_entry malloc_ok rt b sec prim pt i nr d = Ok (nr', d') → steady d → steady d'.
Proof.
  intros Hrt Hpt H Hd. unfold parse_entry, table_entry in H. simpl in H. destruct (_ || _); [by injection H as <- <-|].
  destruct (is_extended _).
  - destruct (sec =? 0); (eapply Hrt; [exact H| |done]); [apply le32_range; done | apply u32_range].
  - apply bind_Ok in H as ([] & d1 & H1 & [= <- <-]). destruct Hd.
    apply found_partition_wf in H1; [|done..|apply u32_range|by apply le32_range]. split; apply H1.
Qed.

Lemma read_partition_table_steady fuel b sec prim nr d nr' d' :
  read_partition_table malloc_ok fuel b sec prim nr d = Ok (nr', d') → 0 ≤ sec → steady d → steady d'.
Proof.
  revert sec prim nr d nr' d'. induction fuel as [|fuel IH]; intros sec prim nr d nr' d' H Hs Hd; [done|].
  simpl in H. apply bind_Ok in H as (n & d0 & Hn & H).
  unfold block_size, get_block in Hn. run_in Hn. destruct (blocks d !! b) as [x|] eqn:E; [|done].
  injection Hn as <- <-. destruct (Z.leb_spec (size x) sec); [by injection H as <- <-|].
  apply bind_Ok in H as (o & d1 & Hm & H). destruct Hd as [Hw Hnx].
  apply malloc_wf in Hm as (Hw1 & -> & _); [|done]. destruct o as [?|]; [|done].
  apply bind_Ok in H as (pt & d2 & Hr & H).
  pose proof (block_read_ok (set_next (next d + 1) d) b x 0 Hw1 E) as Hrd. unfold wp in Hrd. rewrite Hr in Hrd.
  destruct Hrd as (-> & Hw2 & Hsame & _); [lia|].
  assert (steady d2) as Hd2.
  { split; [done|]. destruct Hsame as (_ & _ & _ & _ & ->). simpl. lia. }
  destruct (negb _); [by injection H as <- <-|].
  apply bind_Ok in H as (? & d3 & H3 & H). apply bind_Ok in H as (? & d4 & H4 & H).
  apply bind_Ok in H as (? & d5 & H5 & H6).
  assert (is_sector (sector (set_next (next d + 1) d) b 0)) as Hpt by by apply sector_wf.
  eapply parse_entry_steady; [apply IH | done | exact H6 |].
  eapply parse_entry_steady; [apply IH | done | exact H5 |].
  eapply parse_entry_steady; [apply IH | done | exact H4 |].
  by eapply parse_entry_steady; [apply IH | done | exact H3 |].
Qed.


End scan.

(** ** Properties *)

(** C9: The isolation of partitions.  After a scan of a disk that returns,
    every device is inside its disk: a sector can be written through any
    device that no other system owns, and the write changes the sector at
    this place of the disk only.  Reading any sector of any device, be it a
    disk or a partition, then returns what was written if both are the same
    place, and what the sector held before otherwise. *)
Theorem partition_isolation malloc_ok fuel b0 d d1 b x s buffer :
  wf d → 0 ≤ next d → partition_scan malloc_ok fuel b0 d = Ok (tt, d1) →
  blocks d1 !! b = Some x → 0 ≤ s < size x → writable d1 b = true → is_sector buffer →
  ∃ d2, block_write b s buffer d1 = Ok (tt, d2) ∧ wf d2
    ∧ ∀ b' x' s', blocks d1 !! b' = Some x' → 0 ≤ s' < size x' →
        ∃ d3, block_read b' s' d2
              = Ok (if decide (location d1 b' s' = location d1 b s) then buffer else sector d1 b' s', d3).
Proof.
  intros Hw Hn Hscan E Hs Hwr Hbuf. unfold partition_scan in Hscan.
  apply bind_Ok in Hscan as (nr & d' & Hscan & [= ->]).
  apply read_partition_table_steady in Hscan as [Hw1 _]; [|done..].
  destruct (proj1 (wp_Ok _ _ _) (block_write_ok d1 b x s buffer Hw1 E Hs Hwr Hbuf))
    as ([] & d2 & Hwrite & Hw2 & Hsame & Hd).
  exists d2. split_and!; [done..|]. intros b' x' s' E' Hs'.
  destruct (same_block _ _ _ _ Hsame E') as (x2 & E2 & (_ & _ & Hsz & _)%core_fields).
  rewrite <- Hsz in Hs'.
  destruct (proj1 (wp_Ok _ _ _) (block_read_ok d2 b' x2 s' Hw2 E2 Hs')) as (r & d3 & Hr & -> & _).
  exists d3. by rewrite Hr, (sector_written d1 d2 b s s' buffer).
Qed.

(** A disk of 100 sectors whose table has a file system at sector 10 and a
    scratch partition at sector 20, of eight sectors each. *)
Definition entry_bytes (t ofs sz : Z) : list Z := [0; 0; 0; 0; t; 0; 0; 0; ofs; 0; 0; 0; sz; 0; 0; 0].
Definition table_sector (es : list (list Z)) : list Z := replicate 446 0 ++ concat es ++ [85; 170].
Definition disk_with (table : list Z) : devices :=
  mk_devices {[ 1 := mk_block [104; 100; 97] BLOCK_RAW 100 (ide_operations 7) 0 0 ]} ∅ [1] ∅
    {[ (7, 0) := table ]} 2.
Definition small_disk : devices :=
  disk_with (table_sector [entry_bytes 33 10 8; entry_bytes 34 20 8; entry_bytes 0 0 0; entry_bytes 0 0 0]).

Lemma disk_with_wf table : is_sector table → wf (disk_with table).
Proof.
  intros Ht. split; simpl.
  - intros b x [<- <-]%lookup_singleton_Some. unfold wf_block. simpl. lia.
  - intros l x [_ <-]%lookup_singleton_Some. done.
Qed.

Definition scanned_disk : devices :=
  match partition_scan (λ _, true) 2 1 small_disk with Ok (_, d) => d | Err _ => small_disk end.

Lemma partition_isolation_witness :
  ∃ d2, block_write 4 3 (replicate 512 9) scanned_disk = Ok (tt, d2)
    ∧ (∃ d3, block_read 6 3 d2 = Ok (zeros, d3)) ∧ ∃ d3, block_read 1 13 d2 = Ok (replicate 512 9, d3).
Proof.
  destruct (partition_isolation (λ _, true) 2 1 small_disk scanned_disk 4
    (mk_block [104; 100; 97; 49] BLOCK_FILESYS 8 (partition_operations 3) 0 0) 3 (replicate 512 9))
    as (d2 & Hw & _ & Hr).
  - apply disk_with_wf. split; [done|]. by apply (bool_decide_unpack _); vm_compute.
  - done.
  - by vm_compute.
  - by vm_compute.
  - simpl. lia.
  - by vm_compute.
  - split; [done|]. apply Forall_replicate. lia.
  - exists d2. split_and!; [done| |].
    + destruct (Hr 6 (mk_block [104; 100; 97; 50] BLOCK_SCRATCH 8 (partition_operations 5) 0 0) 3) as [d3 H3];
        [by vm_compute | simpl; lia |]. exists d3. rewrite H3. by vm_compute.
    + destruct (Hr 1 (mk_block [104; 100; 97] BLOCK_RAW 100 (ide_operations 7) 1 0) 13) as [d3 H3];
        [by vm_compute | simpl; lia |]. exists d3. rewrite H3. by vm_compute.
Defined.



End Block.
