(* ===== verification/Filesys.v ===== *)
(** * The file system: filesys/*.c

    The state of the file system and the functions of inode.c, file.c,
    free-map.c, directory.c and filesys.c, and [bitmap_read] and
    [bitmap_write] of lib/kernel/bitmap.c, which store the free map in a
    file.  The block device is the interface of the file Block.  Objects on
    the kernel heap are named by their addresses; a freed object is no longer
    there, so that using it is a fault.  Buffers of the caller are sequences
    of bytes that a function takes and returns. *)
From stdpp Require Import base gmap list.
From Stdlib Require Import ZArith Lia.
From S2P Require Import Prelude Bitmap Block.

Module Filesys.
Import Bitmap.

(** ** Data *)

Definition BLOCK_SECTOR_SIZE : Z := 512.
Definition INODE_MAGIC : Z := 1229868868.
Definition FREE_MAP_SECTOR : Z := 0.
Definition ROOT_DIR_SECTOR : Z := 1.
Definition NAME_MAX : Z := 14.
Definition NULL : Z := 0.

Record inode_disk := mk_inode_disk {
  start : Z;
  length : Z;
  magic : Z;
  unused : list Z
}.

Record inode := mk_inode {
  sector : Z;
  open_cnt : Z;
  removed : bool;
  deny_write_cnt : Z;
  data : inode_disk
}.

Record file := mk_file {
  f_inode : Z;
  f_pos : Z;
  deny_write : bool
}.

Record dir := mk_dir {
  d_inode : Z;
  d_pos : Z
}.

Record fs (D : Type) := mk_fs {
  dev : D;
  fs_device : Z;
  inodes : gmap Z inode;
  open_inodes : list Z;
  files : gmap Z file;
  dirs : gmap Z dir;
  free_map : option bitmap;
  free_map_file : Z;
  next : Z
}.
Arguments mk_fs {D}. Arguments dev {D}. Arguments fs_device {D}. Arguments inodes {D}.
Arguments open_inodes {D}. Arguments files {D}. Arguments dirs {D}. Arguments free_map {D}.
Arguments free_map_file {D}. Arguments next {D}.

(** ** Integers in memory *)

Definition to_le (n : Z) : list Z := [u8 n; u8 (Z.shiftr n 8); u8 (Z.shiftr n 16); u8 (Z.shiftr n 24)].
Definition of_le (l : list Z) : Z :=
  match l with
  | [a; b; c; d] => a + b * 2^8 + c * 2^16 + d * 2^24
  | _ => 0
  end.

(** A [struct inode_disk] as the sector that holds it. *)
Definition disk_bytes (i : inode_disk) : list Z :=
  to_le (start i) ++ to_le (length i) ++ to_le (magic i) ++ unused i.
Definition disk_of_bytes (b : list Z) : inode_disk :=
  mk_inode_disk (of_le (take 4 b)) (s32 (of_le (take 4 (drop 4 b)))) (of_le (take 4 (drop 8 b))) (drop 12 b).

Definition bytes_to_sectors (size : Z) : Z := u32 (Z.quot (s32 (size + BLOCK_SECTOR_SIZE - 1)) BLOCK_SECTOR_SIZE).

(** Copying into a buffer and out of one. *)
Definition copy_to {S} (buffer : list Z) (ofs : Z) (bytes : list Z) : M S (list Z) := λ s,
  if decide (0 ≤ ofs ∧ ofs + Z.of_nat (List.length bytes) ≤ Z.of_nat (List.length buffer))
  then Ok (take (Z.to_nat ofs) buffer ++ bytes ++ drop (Z.to_nat ofs + List.length bytes) buffer, s)
  else Err Fault.
Definition slice {S} (buffer : list Z) (ofs n : Z) : M S (list Z) := λ s,
  if decide (0 ≤ ofs ∧ 0 ≤ n ∧ ofs + n ≤ Z.of_nat (List.length buffer))
  then Ok (take (Z.to_nat n) (drop (Z.to_nat ofs) buffer), s) else Err Fault.

Section filesys.
Context {D : Type} `{BlockDevices D}.
(** Whether the allocation that would return a given address succeeds. *)
Context (malloc_ok : Z → bool).

Definition set_dev (x : D) (f : fs D) : fs D :=
  mk_fs x (fs_device f) (inodes f) (open_inodes f) (files f) (dirs f) (free_map f) (free_map_file f) (next f).
Definition set_fs_device (x : Z) (f : fs D) : fs D :=
  mk_fs (dev f) x (inodes f) (open_inodes f) (files f) (dirs f) (free_map f) (free_map_file f) (next f).
Definition set_inodes (x : gmap Z inode) (f : fs D) : fs D :=
  mk_fs (dev f) (fs_device f) x (open_inodes f) (files f) (dirs f) (free_map f) (free_map_file f) (next f).
Definition set_open_inodes (x : list Z) (f : fs D) : fs D :=
  mk_fs (dev f) (fs_device f) (inodes f) x (files f) (dirs f) (free_map f) (free_map_file f) (next f).
Definition set_files (x : gmap Z file) (f : fs D) : fs D :=
  mk_fs (dev f) (fs_device f) (inodes f) (open_inodes f) x (dirs f) (free_map f) (free_map_file f) (next f).
Definition set_dirs (x : gmap Z dir) (f : fs D) : fs D :=
  mk_fs (dev f) (fs_device f) (inodes f) (open_inodes f) (files f) x (free_map f) (free_map_file f) (next f).
Definition set_free_map (x : option bitmap) (f : fs D) : fs D :=
  mk_fs (dev f) (fs_device f) (inodes f) (open_inodes f) (files f) (dirs f) x (free_map_file f) (next f).
Definition set_free_map_file (x : Z) (f : fs D) : fs D :=
  mk_fs (dev f) (fs_device f) (inodes f) (open_inodes f) (files f) (dirs f) (free_map f) x (next f).
Definition set_next (x : Z) (f : fs D) : fs D :=
  mk_fs (dev f) (fs_device f) (inodes f) (open_inodes f) (files f) (dirs f) (free_map f) (free_map_file f) x.

Definition malloc : M (fs D) Z := λ f,
  Ok (if malloc_ok (next f) then next f else NULL, set_next (next f + 1) f).

(** [block_read] and [block_write] of the device of the file system.  A sector
    number is a [block_sector_t], of 32 bits. *)
Definition fs_read (s : Z) : M (fs D) (list Z) := b ← gets fs_device; zoom dev set_dev (bd_read b (u32 s)).
Definition fs_write (s : Z) (x : list Z) : M (fs D) unit := b ← gets fs_device; zoom dev set_dev (bd_write b (u32 s) x).

Definition get_inode (i : Z) : M (fs D) inode := λ f,
  match inodes f !! i with Some x => Ok (x, f) | None => Err Fault end.
Definition put_inode (i : Z) (x : inode) : M (fs D) unit := modify (λ f, set_inodes (<[i := x]> (inodes f)) f).
Definition get_file (a : Z) : M (fs D) file := λ f,
  match files f !! a with Some x => Ok (x, f) | None => Err Fault end.
Definition put_file (a : Z) (x : file) : M (fs D) unit := modify (λ f, set_files (<[a := x]> (files f)) f).
Definition get_dir (a : Z) : M (fs D) dir := λ f,
  match dirs f !! a with Some x => Ok (x, f) | None => Err Fault end.
Definition put_dir (a : Z) (x : dir) : M (fs D) unit := modify (λ f, set_dirs (<[a := x]> (dirs f)) f).

(** ** inode.c: reading and writing *)

Definition byte_to_sector (i : inode) (pos : Z) : Z :=
  if pos <? length (data i) then u32 (start (data i) + Z.quot pos BLOCK_SECTOR_SIZE) else u32 (-1).

Definition inode_init : M (fs D) unit := modify (set_open_inodes []).

Definition inode_length (i : Z) : M (fs D) Z := x ← get_inode i; mret (length (data x)).
Definition inode_get_inumber (i : Z) : M (fs D) Z := x ← get_inode i; mret (sector x).

Definition min_of (a b : Z) : Z := if a <? b then a else b.

(** What an iteration of the loops below works on. *)
Record io := mk_io {
  buffer : list Z;
  io_size : Z;
  offset : Z;
  done_bytes : Z;
  bounce : bool
}.

Definition advance (st : io) (buf : list Z) (chunk_size : Z) (b : bool) : io :=
  mk_io buf (s32 (io_size st - chunk_size)) (s32 (offset st + chunk_size)) (s32 (done_bytes st + chunk_size)) b.

(** The bounce buffer is allocated once. *)
Definition need_bounce (b : bool) : M (fs D) bool :=
  if b then mret true else p ← malloc; mret (negb (p =? NULL)).

Definition read_step (i : Z) (st : io) : M (fs D) (io + Z * list Z) :=
  if io_size st <=? 0 then mret (inr (done_bytes st, buffer st)) else
  x ← get_inode i;
  let sector_idx := byte_to_sector x (offset st) in
  let sector_ofs := Z.rem (offset st) BLOCK_SECTOR_SIZE in
  let inode_left := s32 (length (data x) - offset st) in
  let sector_left := BLOCK_SECTOR_SIZE - sector_ofs in
  let min_left := min_of inode_left sector_left in
  let chunk_size := min_of (io_size st) min_left in
  if chunk_size <=? 0 then mret (inr (done_bytes st, buffer st)) else
  if (sector_ofs =? 0) && (chunk_size =? BLOCK_SECTOR_SIZE) then
    s ← fs_read sector_idx;
    buf ← copy_to (buffer st) (done_bytes st) s;
    mret (inl (advance st buf chunk_size (bounce st)))
  else
    ok ← need_bounce (bounce st);
    if negb ok then mret (inr (done_bytes st, buffer st)) else
    s ← fs_read sector_idx;
    c ← slice s sector_ofs chunk_size;
    buf ← copy_to (buffer st) (done_bytes st) c;
    mret (inl (advance st buf chunk_size true)).

(** Every iteration reads at least one byte. *)
Definition inode_read_at (i : Z) (buf : list Z) (size ofs : Z) : M (fs D) (Z * list Z) :=
  loop (Datatypes.S (Z.to_nat size)) (read_step i) (mk_io buf size ofs 0 false).

Definition write_step (i : Z) (st : io) : M (fs D) (io + Z) :=
  if io_size st <=? 0 then mret (inr (done_bytes st)) else
  x ← get_inode i;
  let sector_idx := byte_to_sector x (offset st) in
  let sector_ofs := Z.rem (offset st) BLOCK_SECTOR_SIZE in
  let inode_left := s32 (length (data x) - offset st) in
  let sector_left := BLOCK_SECTOR_SIZE - sector_ofs in
  let min_left := min_of inode_left sector_left in
  let chunk_size := min_of (io_size st) min_left in
  if chunk_size <=? 0 then mret (inr (done_bytes st)) else
  if (sector_ofs =? 0) && (chunk_size =? BLOCK_SECTOR_SIZE) then
    c ← slice (buffer st) (done_bytes st) BLOCK_SECTOR_SIZE;
    fs_write sector_idx c ;;
    mret (inl (advance st (buffer st) chunk_size (bounce st)))
  else
    ok ← need_bounce (bounce st);
    if negb ok then mret (inr (done_bytes st)) else
    s ← (if (0 <? sector_ofs) || (chunk_size <? sector_left) then fs_read sector_idx
         else mret (replicate 512 0));
    c ← slice (buffer st) (done_bytes st) chunk_size;
    s ← copy_to s sector_ofs c;
    fs_write sector_idx s ;;
    mret (inl (advance st (buffer st) chunk_size true)).

Definition inode_write_at (i : Z) (buf : list Z) (size ofs : Z) : M (fs D) Z :=
  x ← get_inode i;
  if negb (deny_write_cnt x =? 0) then mret 0 else
  loop (Datatypes.S (Z.to_nat size)) (write_step i) (mk_io buf size ofs 0 false).

Definition set_deny_write_cnt (n : Z) (x : inode) : inode :=
  mk_inode (sector x) (open_cnt x) (removed x) n (data x).
Definition set_open_cnt (n : Z) (x : inode) : inode :=
  mk_inode (sector x) n (removed x) (deny_write_cnt x) (data x).
Definition set_removed (b : bool) (x : inode) : inode :=
  mk_inode (sector x) (open_cnt x) b (deny_write_cnt x) (data x).

Definition inode_deny_write (i : Z) : M (fs D) unit :=
  x ← get_inode i;
  put_inode i (set_deny_write_cnt (s32 (deny_write_cnt x + 1)) x) ;;
  x ← get_inode i;
  ASSERT (deny_write_cnt x <=? open_cnt x).
Definition inode_allow_write (i : Z) : M (fs D) unit :=
  x ← get_inode i;
  ASSERT (0 <? deny_write_cnt x) ;;
  ASSERT (deny_write_cnt x <=? open_cnt x) ;;
  put_inode i (set_deny_write_cnt (s32 (deny_write_cnt x - 1)) x).

Definition inode_remove (i : Z) : M (fs D) unit :=
  ASSERT (negb (i =? NULL)) ;;
  x ← get_inode i;
  put_inode i (set_removed true x).

Definition inode_reopen (i : Z) : M (fs D) Z :=
  if i =? NULL then mret i else
  x ← get_inode i;
  put_inode i (set_open_cnt (s32 (open_cnt x + 1)) x) ;;
  mret i.

(** ** file.c: reading and writing *)

Definition set_f_pos (p : Z) (x : file) : file := mk_file (f_inode x) p (deny_write x).
Definition set_deny_write (b : bool) (x : file) : file := mk_file (f_inode x) (f_pos x) b.

Definition file_get_inode (a : Z) : M (fs D) Z := x ← get_file a; mret (f_inode x).

Definition file_read (a : Z) (buf : list Z) (size : Z) : M (fs D) (Z * list Z) :=
  x ← get_file a;
  r ← inode_read_at (f_inode x) buf size (f_pos x);
  x ← get_file a;
  put_file a (set_f_pos (s32 (f_pos x + r.1)) x) ;;
  mret r.
Definition file_read_at (a : Z) (buf : list Z) (size file_ofs : Z) : M (fs D) (Z * list Z) :=
  x ← get_file a; inode_read_at (f_inode x) buf size file_ofs.
Definition file_write (a : Z) (buf : list Z) (size : Z) : M (fs D) Z :=
  x ← get_file a;
  n ← inode_write_at (f_inode x) buf size (f_pos x);
  x ← get_file a;
  put_file a (set_f_pos (s32 (f_pos x + n)) x) ;;
  mret n.
Definition file_write_at (a : Z) (buf : list Z) (size file_ofs : Z) : M (fs D) Z :=
  x ← get_file a; inode_write_at (f_inode x) buf size file_ofs.

Definition file_deny_write (a : Z) : M (fs D) unit :=
  ASSERT (negb (a =? NULL)) ;;
  x ← get_file a;
  if deny_write x then mret tt
  else put_file a (set_deny_write true x) ;; inode_deny_write (f_inode x).
Definition file_allow_write (a : Z) : M (fs D) unit :=
  ASSERT (negb (a =? NULL)) ;;
  x ← get_file a;
  if deny_write x then put_file a (set_deny_write false x) ;; inode_allow_write (f_inode x)
  else mret tt.

Definition file_length (a : Z) : M (fs D) Z :=
  ASSERT (negb (a =? NULL)) ;; x ← get_file a; inode_length (f_inode x).
Definition file_seek (a new_pos : Z) : M (fs D) unit :=
  ASSERT (negb (a =? NULL)) ;;
  ASSERT (0 <=? new_pos) ;;
  x ← get_file a; put_file a (set_f_pos new_pos x).
Definition file_tell (a : Z) : M (fs D) Z :=
  ASSERT (negb (a =? NULL)) ;; x ← get_file a; mret (f_pos x).

(** ** free-map.c: allocation, and the file input and output of bitmap.c *)

Definition on_free_map {A} (m : M bitmap A) : M (fs D) A := λ f,
  match free_map f with
  | None => Err Fault
  | Some b => match m b with
              | Ok (a, b') => Ok (a, set_free_map (Some b') f)
              | Err e => Err e
              end
  end.

Definition words_bytes (w : list Z) : list Z := concat (to_le <$> w).
Fixpoint bytes_words (l : list Z) : list Z :=
  match l with
  | a :: b :: c :: d :: l => of_le [a; b; c; d] :: bytes_words l
  | _ => []
  end.

Definition bitmap_write (b : bitmap) (a : Z) : M (fs D) bool :=
  let size := s32 (byte_cnt (bit_cnt b)) in
  n ← file_write_at a (words_bytes (bits b)) size 0;
  mret (n =? size).

(** The words of the bitmap are the buffer of the read. *)
Definition bitmap_read (b : bitmap) (a : Z) : M (fs D) (bool * bitmap) :=
  if bit_cnt b <=? 0 then mret (true, b) else
  let size := s32 (byte_cnt (bit_cnt b)) in
  r ← file_read_at a (words_bytes (bits b)) size 0;
  let b' := mk_bitmap (bit_cnt b) (bytes_words r.2) in
  mret (r.1 =? size, mk_bitmap (bit_cnt b) (alter (λ w, Z.land w (last_mask b'))
                       (Z.to_nat (elem_cnt (bit_cnt b) - 1)) (bits b'))).

(** [words] is what a new block of memory for the bitmap holds. *)
Definition free_map_init (words : list Z) : M (fs D) unit :=
  b ← gets fs_device; n ← gets (λ f, bd_size (dev f) b);
  p ← malloc; q ← malloc;
  o ← of_res (bitmap_create (negb (p =? NULL)) (if q =? NULL then None else Some words) n);
  match o with
  | None => fail Panic
  | Some bm =>
      modify (set_free_map (Some bm)) ;;
      on_free_map (bitmap_mark FREE_MAP_SECTOR) ;;
      on_free_map (bitmap_mark ROOT_DIR_SECTOR)
  end.

Definition current_free_map : M (fs D) bitmap := λ f,
  match free_map f with Some b => Ok (b, f) | None => Err Fault end.

Definition free_map_allocate (cnt : Z) : M (fs D) (option Z) :=
  s ← on_free_map (bitmap_scan_and_flip 0 cnt false);
  s ← (if s =? BITMAP_ERROR then mret s else
       a ← gets free_map_file;
       if a =? NULL then mret s else
       b ← current_free_map;
       ok ← bitmap_write b a;
       if ok : bool then mret s
       else on_free_map (bitmap_set_multiple s cnt false) ;; mret BITMAP_ERROR);
  mret (if s =? BITMAP_ERROR then None else Some s).

Definition free_map_release (s cnt : Z) : M (fs D) unit :=
  all ← on_free_map (bitmap_all s cnt);
  ASSERT all ;;
  on_free_map (bitmap_set_multiple s cnt false) ;;
  b ← current_free_map; a ← gets free_map_file;
  bitmap_write b a ;; mret tt.

(** ** inode.c: creating, opening and closing *)

Definition inode_create (s len : Z) : M (fs D) bool :=
  ASSERT (0 <=? len) ;;
  p ← malloc;
  if p =? NULL then mret false else
  let sectors := bytes_to_sectors len in
  o ← free_map_allocate sectors;
  match o with
  | None => mret false
  | Some st =>
      fs_write s (disk_bytes (mk_inode_disk st len INODE_MAGIC (replicate 500 0))) ;;
      (if 0 <? sectors then for_loop (Z.to_nat sectors) 0 (λ i, fs_write (u32 (st + i)) (replicate 512 0))
       else mret tt) ;;
      mret true
  end.

Fixpoint find_open (s : Z) (l : list Z) : M (fs D) (option Z) :=
  match l with
  | [] => mret None
  | e :: l => x ← get_inode e; if sector x =? s then mret (Some e) else find_open s l
  end.

Definition inode_open (s : Z) : M (fs D) Z :=
  l ← gets open_inodes;
  o ← find_open s l;
  match o with
  | Some i => inode_reopen i
  | None =>
      i ← malloc;
      if i =? NULL then mret NULL else
      modify (λ f, set_open_inodes (i :: open_inodes f) f) ;;
      b ← fs_read s;
      put_inode i (mk_inode s 1 false 0 (disk_of_bytes b)) ;;
      mret i
  end.

Definition inode_close (i : Z) : M (fs D) unit :=
  if i =? NULL then mret tt else
  x ← get_inode i;
  put_inode i (set_open_cnt (s32 (open_cnt x - 1)) x) ;;
  if s32 (open_cnt x - 1) =? 0 then
    modify (λ f, set_open_inodes (filter (λ e, e ≠ i) (open_inodes f)) f) ;;
    (if removed x then
       free_map_release (sector x) 1 ;;
       free_map_release (start (data x)) (bytes_to_sectors (length (data x)))
     else mret tt) ;;
    modify (λ f, set_inodes (delete i (inodes f)) f)
  else mret tt.

(** ** file.c: opening and closing *)

Definition file_open (i : Z) : M (fs D) Z :=
  a ← malloc;
  if negb (i =? NULL) && negb (a =? NULL) then put_file a (mk_file i 0 false) ;; mret a
  else inode_close i ;; mret NULL.
Definition file_reopen (a : Z) : M (fs D) Z :=
  x ← get_file a; i ← inode_reopen (f_inode x); file_open i.
Definition file_close (a : Z) : M (fs D) unit :=
  if a =? NULL then mret tt else
  file_allow_write a ;;
  x ← get_file a;
  inode_close (f_inode x) ;;
  modify (λ f, set_files (delete a (files f)) f).

(** ** free-map.c: opening and closing *)

Definition free_map_open : M (fs D) unit :=
  i ← inode_open FREE_MAP_SECTOR;
  a ← file_open i;
  modify (set_free_map_file a) ;;
  if a =? NULL then fail Panic else
  b ← current_free_map;
  r ← bitmap_read b a;
  modify (set_free_map (Some r.2)) ;;
  if r.1 : bool then mret tt else fail Panic.
Definition free_map_close : M (fs D) unit := a ← gets free_map_file; file_close a.
Definition free_map_create : M (fs D) unit :=
  b ← current_free_map;
  ok ← inode_create FREE_MAP_SECTOR (s32 (bitmap_file_size b));
  if negb ok then fail Panic else
  i ← inode_open FREE_MAP_SECTOR;
  a ← file_open i;
  modify (set_free_map_file a) ;;
  if a =? NULL then fail Panic else
  b ← current_free_map;
  ok ← bitmap_write b a;
  if ok : bool then mret tt else fail Panic.

(** ** directory.c *)

(** A [struct dir_entry] of 20 bytes: the sector, the name, [in_use]. *)
Definition ENTRY_SIZE : Z := 20.
Definition entry_sector (e : list Z) : Z := of_le (take 4 e).
Definition entry_in_use (e : list Z) : bool := negb (default 0 (e !! 19%nat) =? 0).

(** The string at the start of some bytes. *)
Fixpoint c_string (l : list Z) : option (list Z) :=
  match l with
  | [] => None
  | c :: l => if c =? 0 then Some [] else cons c <$> c_string l
  end.
(** A name that is not terminated runs on past the entry. *)
Definition entry_name (e : list Z) : M (fs D) (list Z) := of_option Fault (c_string (drop 4 e)).

(** What the bytes of an automatic variable hold at first. *)
Context (stack_bytes : list Z).

Definition dir_create (s entry_cnt : Z) : M (fs D) bool := inode_create s (s32 (u32 (entry_cnt * ENTRY_SIZE))).

Definition dir_open (i : Z) : M (fs D) Z :=
  a ← malloc;
  if negb (i =? NULL) && negb (a =? NULL) then put_dir a (mk_dir i 0) ;; mret a
  else inode_close i ;; mret NULL.
Definition dir_open_root : M (fs D) Z := i ← inode_open ROOT_DIR_SECTOR; dir_open i.
Definition dir_reopen (a : Z) : M (fs D) Z := x ← get_dir a; i ← inode_reopen (d_inode x); dir_open i.
Definition dir_close (a : Z) : M (fs D) unit :=
  if a =? NULL then mret tt else
  x ← get_dir a;
  inode_close (d_inode x) ;;
  modify (λ f, set_dirs (delete a (dirs f)) f).
Definition dir_get_inode (a : Z) : M (fs D) Z := x ← get_dir a; mret (d_inode x).

(** An iteration of the loops over the entries: the next entry, if there is
    one. *)
Definition next_entry (a ofs : Z) (e : list Z) : M (fs D) (bool * list Z) :=
  x ← get_dir a;
  r ← inode_read_at (d_inode x) e ENTRY_SIZE (s32 ofs);
  mret (r.1 =? ENTRY_SIZE, r.2).

(** A directory has fewer entries than bytes. *)
Definition entry_fuel (a : Z) : M (fs D) nat :=
  x ← get_dir a; n ← inode_length (d_inode x); mret (Z.to_nat n + 2)%nat.

(** The entry and its offset. *)
Definition lookup_step (a : Z) (nm : list Z) (st : list Z * Z) : M (fs D) (list Z * Z + option (list Z * Z)) :=
  let '(e, ofs) := st in
  r ← next_entry a ofs e;
  let '(ok, e) := r in
  if negb ok then mret (inr None) else
  if entry_in_use e then
    n ← entry_name e;
    if bool_decide (nm = n) then mret (inr (Some (e, ofs))) else mret (inl (e, u32 (ofs + ENTRY_SIZE)))
  else mret (inl (e, u32 (ofs + ENTRY_SIZE))).
Definition lookup (a : Z) (nm : list Z) : M (fs D) (option (list Z * Z)) :=
  ASSERT (negb (a =? NULL)) ;;
  n ← entry_fuel a;
  loop n (lookup_step a nm) (stack_bytes, 0).

Definition dir_lookup (a : Z) (nm : list Z) : M (fs D) Z :=
  ASSERT (negb (a =? NULL)) ;;
  o ← lookup a nm;
  match o with
  | Some (e, _) => inode_open (entry_sector e)
  | None => mret NULL
  end.

Definition free_slot_step (a : Z) (st : list Z * Z) : M (fs D) (list Z * Z + list Z * Z) :=
  let '(e, ofs) := st in
  r ← next_entry a ofs e;
  let '(ok, e) := r in
  if negb ok then mret (inr (e, ofs)) else
  if negb (entry_in_use e) then mret (inr (e, ofs)) else mret (inl (e, s32 (ofs + ENTRY_SIZE))).

(** [strlcpy (e.name, name, sizeof e.name)] and the other fields. *)
Definition fill_entry (e : list Z) (nm : list Z) (s : Z) : M (fs D) (list Z) :=
  e ← copy_to e 19 [1];
  e ← copy_to e 4 (take 14 nm ++ [0]);
  copy_to e 0 (to_le s).

Definition dir_add (a : Z) (nm : list Z) (inode_sector : Z) : M (fs D) bool :=
  ASSERT (negb (a =? NULL)) ;;
  if bool_decide (nm = []) || (NAME_MAX <? Z.of_nat (List.length nm)) then mret false else
  o ← lookup a nm;
  match o with
  | Some _ => mret false
  | None =>
      n ← entry_fuel a;
      r ← loop n (free_slot_step a) (stack_bytes, 0);
      e ← fill_entry r.1 nm inode_sector;
      x ← get_dir a;
      n ← inode_write_at (d_inode x) e ENTRY_SIZE r.2;
      mret (n =? ENTRY_SIZE)
  end.

Definition dir_remove (a : Z) (nm : list Z) : M (fs D) bool :=
  ASSERT (negb (a =? NULL)) ;;
  o ← lookup a nm;
  match o with
  | None => inode_close NULL ;; mret false
  | Some (e, ofs) =>
      i ← inode_open (entry_sector e);
      if i =? NULL then inode_close i ;; mret false else
      e ← copy_to e 19 [0];
      x ← get_dir a;
      n ← inode_write_at (d_inode x) e ENTRY_SIZE (s32 ofs);
      if negb (n =? ENTRY_SIZE) then inode_close i ;; mret false else
      inode_remove i ;;
      inode_close i ;;
      mret true
  end.

Definition readdir_step (a : Z) (e : list Z) : M (fs D) (list Z + option (list Z)) :=
  x ← get_dir a;
  r ← next_entry a (d_pos x) e;
  let '(ok, e) := r in
  if negb ok then mret (inr None) else
  x ← get_dir a;
  put_dir a (mk_dir (d_inode x) (s32 (d_pos x + ENTRY_SIZE))) ;;
  if entry_in_use e then n ← entry_name e; mret (inr (Some (take 14 n)))
  else mret (inl e).
Definition dir_readdir (a : Z) : M (fs D) (option (list Z)) :=
  n ← entry_fuel a; loop n (readdir_step a) stack_bytes.

(** ** filesys.c *)

Definition do_format : M (fs D) unit :=
  free_map_create ;;
  ok ← dir_create ROOT_DIR_SECTOR 16;
  if negb ok then fail Panic else free_map_close.

Definition filesys_init (words : list Z) (format : bool) : M (fs D) unit :=
  o ← gets (λ f, bd_role (dev f) 1);
  match o with
  | None => fail Panic
  | Some b =>
      modify (set_fs_device b) ;;
      inode_init ;;
      free_map_init words ;;
      (if format then do_format else mret tt) ;;
      free_map_open
  end.
Definition filesys_done : M (fs D) unit := free_map_close.

Definition filesys_create (nm : list Z) (initial_size : Z) : M (fs D) bool :=
  dir ← dir_open_root;
  r ← (if dir =? NULL then mret (false, 0) else
       o ← free_map_allocate 1;
       match o with
       | None => mret (false, 0)
       | Some s =>
           ok ← inode_create s initial_size;
           if negb ok then mret (false, s) else
           ok ← dir_add dir nm s; mret (ok, s)
       end);
  let '(success, inode_sector) := r in
  (if negb success && negb (inode_sector =? 0) then free_map_release inode_sector 1 else mret tt) ;;
  dir_close dir ;;
  mret success.

Definition filesys_open (nm : list Z) : M (fs D) Z :=
  dir ← dir_open_root;
  i ← (if dir =? NULL then mret NULL else dir_lookup dir nm);
  dir_close dir ;;
  file_open i.

Definition filesys_remove (nm : list Z) : M (fs D) bool :=
  dir ← dir_open_root;
  ok ← (if dir =? NULL then mret false else dir_remove dir nm);
  dir_close dir ;;
  mret ok.
End filesys.
End Filesys.
