(* ===== verification/FileIO.v ===== *)
(** * Reading and writing files

    The device of the file system as one array of bytes, the effect of
    [inode_read_at] and [inode_write_at] on it, and files as sequences of
    bytes with a position. *)
From stdpp Require Import base gmap list list_numbers.
From Stdlib Require Import ZArith Lia.
From S2P Require Import Prelude Bitmap Block Filesys.

Module FileIO.
Import Filesys.

Section io.
Context {D : Type} `{BlockDevices D}.
Implicit Types f g : fs D.

(** ** The device as an array of bytes *)

Definition dev_ok f : Prop := bd_ok (dev f) (fs_device f).
Definition dev_size f : Z := bd_size (dev f) (fs_device f).
Definition sec f (s : Z) : list Z := bd_sector (dev f) (fs_device f) s.
Definition byte f (a : Z) : Z := default 0 (sec f (a / 512) !! Z.to_nat (a mod 512)).
Definition bytes f (a n : Z) : list Z := byte f <$> seqZ a n.

Lemma bytes_length f a n : List.length (bytes f a n) = Z.to_nat n.
Proof. unfold bytes. by rewrite length_fmap, length_seqZ. Qed.
Lemma dev_bytes_lookup f a n i : (i < Z.to_nat n)%nat → bytes f a n !! i = Some (byte f (a + Z.of_nat i)).
Proof. intros Hi. unfold bytes. rewrite list_lookup_fmap, lookup_seqZ_lt by lia. done. Qed.
Lemma dev_bytes_app f a n m : 0 ≤ n → 0 ≤ m → bytes f a (n + m) = bytes f a n ++ bytes f (a + n) m.
Proof. intros. unfold bytes. by rewrite seqZ_app, fmap_app by lia. Qed.
Lemma bytes_nil f a n : n ≤ 0 → bytes f a n = [].
Proof. intros. unfold bytes. by rewrite seqZ_nil. Qed.

Lemma bytes_ext f g a b n :
  (∀ i, 0 ≤ i < n → byte f (a + i) = byte g (b + i)) → bytes f a n = bytes g b n.
Proof.
  intros Hb. apply list_eq_same_length with (Z.to_nat n); [apply bytes_length.. |].
  intros i x y Hi. rewrite !dev_bytes_lookup by done. intros [= <-] [= <-]. apply Hb. lia.
Qed.

Lemma byte_of_sec f s j : dev_ok f → 0 ≤ j < 512 → byte f (s * 512 + j) = default 0 (sec f s !! Z.to_nat j).
Proof.
  intros _ Hj. unfold byte. replace ((s * 512 + j) / 512) with s by div_lia.
  by replace ((s * 512 + j) mod 512) with j by div_lia.
Qed.

Lemma sec_length f s : dev_ok f → List.length (sec f s) = 512%nat.
Proof. apply bd_length. Qed.

(** Part of a sector. *)
Lemma sec_bytes f s o n :
  dev_ok f → 0 ≤ o → 0 ≤ n → o + n ≤ 512 →
  take (Z.to_nat n) (drop (Z.to_nat o) (sec f s)) = bytes f (s * 512 + o) n.
Proof.
  intros Hd Ho Hn Hle. pose proof (sec_length f s Hd) as Hl.
  apply list_eq_same_length with (Z.to_nat n).
  - apply bytes_length.
  - rewrite length_take, length_drop, Hl. lia.
  - intros i x y Hi. rewrite dev_bytes_lookup by done. rewrite lookup_take_lt, lookup_drop by done.
    intros Hx [= <-]. rewrite <- Z.add_assoc, byte_of_sec by (done || lia).
    replace (Z.to_nat (o + Z.of_nat i)) with (Z.to_nat o + i)%nat by lia. by rewrite Hx.
Qed.

Lemma sec_all f s : dev_ok f → sec f s = bytes f (s * 512) 512.
Proof.
  intros Hd. rewrite <- (Z.add_0_r (s * 512)), <- sec_bytes by (done || lia).
  rewrite drop_0, take_ge; [done|]. rewrite sec_length by done. lia.
Qed.

(** What reading and writing sectors, and allocating memory, keep. *)
Definition frame f g : Prop :=
  dev_ok g ∧ dev_size g = dev_size f ∧ next f ≤ next g
  ∧ g = set_next (next g) (set_dev (dev g) f).

Lemma frame_refl f : dev_ok f → frame f f.
Proof. intros Hd. split_and!; [done | done | done | by destruct f]. Qed.
Lemma frame_trans f g h : frame f g → frame g h → frame f h.
Proof.
  intros (_ & Hs & Hn & Hg) (Hd & Hs' & Hn' & Hh). split_and!; [done | congruence | lia |].
  rewrite Hh at 1. rewrite Hg. done.
Qed.
Lemma frame_ok f g : frame f g → dev_ok g.
Proof. by intros [? _]. Qed.

(** [g] has the bytes of [f], with [x] at [a]. *)
Definition patched f g (a : Z) (x : list Z) : Prop :=
  ∀ p, 0 ≤ p < dev_size f * 512 →
    byte g p = if decide (a ≤ p < a + Z.of_nat (List.length x)) then default 0 (x !! Z.to_nat (p - a)) else byte f p.

Lemma patched_nil f a : patched f f a [].
Proof. intros p _. rewrite decide_False; [done|]. simpl. lia. Qed.
Lemma patched_app f g h a x y :
  dev_size g = dev_size f →
  patched f g a x → patched g h (a + Z.of_nat (List.length x)) y → patched f h a (x ++ y).
Proof.
  intros Hs Hx Hy p Hp. rewrite Hy by (by rewrite Hs). rewrite Hx by done. rewrite length_app.
  case_decide as H1.
  - rewrite decide_True by lia. rewrite lookup_app_r by lia. do 2 f_equal. lia.
  - case_decide as H2.
    + rewrite decide_True by lia. rewrite lookup_app_l by lia. done.
    + rewrite decide_False by lia. done.
Qed.

Lemma fs_read_ok f s :
  dev_ok f → 0 ≤ s < dev_size f →
  wp (fs_read s) (λ r g, r = sec f s ∧ frame f g ∧ patched f g 0 []) f.
Proof.
  intros Hd Hs. pose proof (bd_size_range _ _ Hd) as Hr. unfold fs_read. apply wp_bind, wp_gets, wp_zoom.
  rewrite u32_small by (unfold dev_size in *; lia).
  eapply wp_mono; [by apply bd_read_ok|]. intros r d (-> & Hok & Hsz & Hsec). split_and!; [done| |].
  - split_and!; try done; simpl; lia.
  - intros p Hp. rewrite decide_False by (simpl; lia). unfold byte, sec. simpl.
    rewrite Hsec; [done|]. unfold dev_size in *. div_lia.
Qed.

Lemma fs_write_ok f s x :
  dev_ok f → 0 ≤ s < dev_size f → List.length x = 512%nat → Forall (λ c, 0 ≤ c < 256) x →
  wp (fs_write s x) (λ _ g, frame f g ∧ patched f g (s * 512) x) f.
Proof.
  intros Hd Hs Hl Hx. pose proof (bd_size_range _ _ Hd) as Hr. unfold fs_write. apply wp_bind, wp_gets, wp_zoom.
  rewrite u32_small by (unfold dev_size in *; lia).
  eapply wp_mono; [by apply bd_write_ok|]. intros _ d (Hok & Hsz & Hsec). split_and!.
  - split_and!; try done; simpl; lia.
  - intros p Hp. unfold byte, sec. simpl. rewrite Hsec by (unfold dev_size in *; div_lia). rewrite Hl.
    case_decide as Hq.
    + rewrite decide_True by div_lia. do 2 f_equal. div_lia.
    + rewrite decide_False by div_lia. done.
Qed.

Lemma patched_bytes f g a n : dev_size g = dev_size f → 0 ≤ a → a + n ≤ dev_size f * 512 →
  patched f g 0 [] → bytes g a n = bytes f a n.
Proof.
  intros Hs Ha Hn Hp. apply bytes_ext. intros i Hi. rewrite Hp by lia. rewrite decide_False; [done|simpl; lia].
Qed.

Lemma patched_id_trans f g h a x :
  dev_size g = dev_size f → patched f g 0 [] → patched g h a x → patched f h a x.
Proof.
  intros Hs Hfg Hgh p Hp. rewrite Hgh by (by rewrite Hs). case_decide; [done|].
  rewrite Hfg by done. rewrite decide_False; [done | simpl; lia].
Qed.

(** ** Buffers *)

Lemma copy_to_at {S} (pre rest x : list Z) (k : Z) (s : S) (Q : list Z → S → Prop) :
  k = Z.of_nat (List.length pre) → (List.length x ≤ List.length rest)%nat →
  Q (pre ++ x ++ drop (List.length x) rest) s → wp (copy_to (pre ++ rest) k x) Q s.
Proof.
  intros -> Hl HQ. unfold wp, copy_to. rewrite decide_True by (rewrite length_app; lia).
  rewrite Nat2Z.id, take_app_length, drop_app_add. done.
Qed.
Lemma slice_at {S} (b : list Z) (o n : Z) (s : S) (Q : list Z → S → Prop) :
  0 ≤ o → 0 ≤ n → o + n ≤ Z.of_nat (List.length b) →
  Q (take (Z.to_nat n) (drop (Z.to_nat o) b)) s → wp (slice b o n) Q s.
Proof. intros Ho Hn Hl HQ. unfold wp, slice. by rewrite decide_True. Qed.

End io.

Section transfer.
Context {D : Type} `{BlockDevices D}.
Context (malloc_ok : Z → bool).
Implicit Types f g : fs D.

Lemma need_bounce_ok f b :
  dev_ok f →
  wp (need_bounce malloc_ok b)
    (λ ok g, frame f g ∧ patched f g 0 [] ∧ (ok = false → 0 < next f → ∃ a, next f ≤ a ∧ malloc_ok a = false)) f.
Proof.
  intros Hd. unfold need_bounce. destruct b.
  - apply wp_ret. split_and!; [by apply frame_refl | apply patched_nil | done].
  - unfold wp, malloc. run. split_and!.
    + split_and!; try done; simpl; lia.
    + intros p Hp. by rewrite decide_False by (simpl; lia).
    + destruct (malloc_ok (next f)) eqn:E; [|by exists (next f)].
      destruct (Z.eqb_spec (next f) NULL) as [Hz|]; [unfold NULL in Hz; lia | done].
Qed.

(** ** Reading *)

(** The data of the inode lies on the device. *)
Definition inode_ok f (x : inode) : Prop :=
  0 ≤ start (data x) ∧ 0 ≤ length (data x) < 2^31
  ∧ start (data x) * 512 + length (data x) ≤ dev_size f * 512.

(** The bytes that a transfer of [sz] bytes at [ofs] can reach. *)
Definition avail (x : inode) (sz ofs : Z) : Z := Z.max 0 (Z.min sz (length (data x) - ofs)).

Definition chunk (x : inode) (sz p : Z) : Z :=
  min_of sz (min_of (s32 (length (data x) - p)) (BLOCK_SECTOR_SIZE - Z.rem p BLOCK_SECTOR_SIZE)).

Lemma s32_small z : - 2^31 ≤ z < 2^31 → s32 z = z.
Proof. intros. apply sgn_small; lia. Qed.

Lemma min_of_min a b : min_of a b = Z.min a b.
Proof. unfold min_of. destruct (Z.ltb_spec a b); lia. Qed.

Lemma chunk_end x sz p :
  0 ≤ length (data x) < 2^31 → 0 ≤ p < 2^31 → 0 < sz → chunk x sz p ≤ 0 → length (data x) ≤ p.
Proof.
  intros Hl Hp Hs. unfold chunk, BLOCK_SECTOR_SIZE. rewrite !min_of_min, s32_small by lia.
  pose proof (Z.rem_bound_pos p 512). lia.
Qed.
Lemma chunk_bound x sz p :
  0 ≤ length (data x) < 2^31 → 0 ≤ p < 2^31 → 0 < chunk x sz p →
  chunk x sz p ≤ sz ∧ chunk x sz p ≤ length (data x) - p ∧ p mod 512 + chunk x sz p ≤ 512
  ∧ Z.rem p BLOCK_SECTOR_SIZE = p mod 512.
Proof.
  intros Hl Hp. unfold chunk, BLOCK_SECTOR_SIZE. rewrite !min_of_min, s32_small by lia.
  rewrite Z.rem_mod_nonneg by lia. lia.
Qed.

Lemma byte_to_sector_ok f x p :
  dev_ok f → inode_ok f x → 0 ≤ p < length (data x) →
  byte_to_sector x p = start (data x) + p / 512 ∧ 0 ≤ byte_to_sector x p < dev_size f
  ∧ byte_to_sector x p * 512 + p mod 512 = start (data x) * 512 + p.
Proof.
  intros Hd (Hst & Hl & Hend) Hp. pose proof (bd_size_range _ _ Hd) as Hsz. unfold byte_to_sector.
  fold (dev_size f) in Hsz.
  destruct (Z.ltb_spec p (length (data x))); [|lia]. unfold BLOCK_SECTOR_SIZE. rewrite Z.quot_div_nonneg by lia.
  rewrite u32_small by div_lia. split_and!; [done | div_lia..].
Qed.

Lemma inode_ok_frame f g x : frame f g → inode_ok f x → inode_ok g x.
Proof. intros (_ & Hs & _) (? & ? & ?). unfold inode_ok. rewrite Hs. done. Qed.
Lemma inodes_frame f g : frame f g → inodes g = inodes f.
Proof. by intros (_ & _ & _ & ->). Qed.
Lemma size_frame f g : frame f g → dev_size g = dev_size f.
Proof. by intros (_ & ? & _). Qed.

(** One chunk, read straight into the buffer or through the bounce buffer. *)
Lemma read_chunk f i x st pre rest :
  dev_ok f → inodes f !! i = Some x → inode_ok f x → 0 ≤ offset st < 2^31 → 0 < io_size st < 2^31 →
  0 ≤ done_bytes st → done_bytes st + io_size st < 2^31 →
  buffer st = pre ++ rest → done_bytes st = Z.of_nat (List.length pre) → io_size st ≤ Z.of_nat (List.length rest) →
  0 < chunk x (io_size st) (offset st) →
  wp (read_step malloc_ok i st)
    (λ r g, frame f g ∧ patched f g 0 [] ∧
       match r with
       | inl st' => ∃ b, st' = mk_io
           (pre ++ bytes f (start (data x) * 512 + offset st) (chunk x (io_size st) (offset st))
              ++ drop (Z.to_nat (chunk x (io_size st) (offset st))) rest)
           (io_size st - chunk x (io_size st) (offset st)) (offset st + chunk x (io_size st) (offset st))
           (done_bytes st + chunk x (io_size st) (offset st)) b
       | inr r => r = (done_bytes st, buffer st) ∧ (0 < next f → ∃ a, next f ≤ a ∧ malloc_ok a = false)
       end) f.
Proof.
  intros Hd E Hx Hofs Hsz Hk Hmax Hbuf Hpre Hrest Hc. pose proof Hx as (_ & Hl & _).
  destruct (chunk_bound x (io_size st) (offset st)) as (Hc1 & Hc2 & Hc3 & Hrem); [done..|].
  destruct (byte_to_sector_ok f x (offset st)) as (_ & Hsec & Haddr); [done | done | lia |].
  pose proof (Z.mod_pos_bound (offset st) 512 ltac:(lia)).
  unfold read_step. destruct (Z.leb_spec (io_size st) 0); [lia|].
  apply wp_bind. eapply wp_eq; [unfold get_inode; by rewrite E|]. cbv zeta.
  fold (chunk x (io_size st) (offset st)). set (c := chunk x (io_size st) (offset st)) in *.
  destruct (Z.leb_spec c 0); [lia|]. rewrite Hrem. unfold BLOCK_SECTOR_SIZE. rewrite Hbuf.
  assert (∀ g buf b, frame f g → patched f g 0 [] →
    buf = pre ++ bytes f (start (data x) * 512 + offset st) c ++ drop (Z.to_nat c) rest →
    wp (mret (inl (advance st buf c b))) (λ (r : io + Z * list Z) g, frame f g ∧ patched f g 0 [] ∧ match r with
       | inl st' => ∃ b, st' = mk_io (pre ++ bytes f (start (data x) * 512 + offset st) c ++ drop (Z.to_nat c) rest)
           (io_size st - c) (offset st + c) (done_bytes st + c) b
       | inr r => r = (done_bytes st, pre ++ rest) ∧ (0 < next f → ∃ a, next f ≤ a ∧ malloc_ok a = false) end) g) as Hret.
  { intros g buf b Hf Hp ->. apply wp_ret. split_and!; [done..|]. exists b. unfold advance.
    by rewrite !s32_small by lia. }
  destruct (Z.eqb_spec (offset st mod 512) 0) as [Hm0|Hm0];
    [destruct (Z.eqb_spec c 512) as [Hfull|Hfull]|]; simpl.
  1: {
    apply wp_bind. eapply wp_mono; [by apply fs_read_ok|]. intros s g (-> & Hf & Hp).
    apply wp_bind, copy_to_at; [done | rewrite sec_length by done; lia |]. apply Hret; [done..|].
    rewrite (sec_all f) by done. rewrite bytes_length. rewrite Hfull. do 2 f_equal. f_equal. lia. }
  all: apply wp_bind; eapply wp_mono; [by apply need_bounce_ok|]; intros ok g (Hf & Hp & Hok).
  all: destruct ok; simpl; [|apply wp_ret; split_and!; [done..|]; by intros; apply Hok].
  all: pose proof (frame_ok _ _ Hf) as Hdg; pose proof (size_frame _ _ Hf) as Hsg.
  all: apply wp_bind; eapply wp_mono; [apply fs_read_ok; [done | by rewrite Hsg]|].
  all: intros s g' (-> & Hf' & Hp'); apply wp_bind, slice_at; [lia | lia | rewrite sec_length by done; lia |].
  all: rewrite sec_bytes by (done || lia); rewrite Haddr.
  all: rewrite (patched_bytes f g) by (done || (destruct Hx as (? & ? & ?); lia)).
  all: apply wp_bind, copy_to_at; [done | rewrite bytes_length; lia |].
  all: apply Hret; [by apply (frame_trans f g) | by apply (patched_id_trans f g) | by rewrite bytes_length].
Qed.

(** Reading fills the buffer with the bytes of the file from [ofs] on, up to
    its end; it stops earlier only if there is no memory. *)
Lemma inode_read_at_ok f i x buf sz ofs :
  dev_ok f → inodes f !! i = Some x → inode_ok f x → 0 ≤ ofs < 2^31 → 0 ≤ sz < 2^31 →
  sz ≤ Z.of_nat (List.length buf) →
  wp (inode_read_at malloc_ok i buf sz ofs)
    (λ r g, frame f g ∧ patched f g 0 [] ∧ 0 ≤ r.1 ≤ avail x sz ofs
       ∧ r.2 = bytes f (start (data x) * 512 + ofs) r.1 ++ drop (Z.to_nat r.1) buf
       ∧ (r.1 < avail x sz ofs → 0 < next f → ∃ a, next f ≤ a ∧ malloc_ok a = false)) f.
Proof.
  intros Hd E Hx Hofs Hsz Hbuf. unfold inode_read_at. pose proof Hx as (Hst & Hl & Hend).
  set (base := start (data x) * 512 + ofs).
  apply (wp_loop (λ st g, frame f g ∧ patched f g 0 [] ∧ 0 ≤ done_bytes st ≤ avail x sz ofs
      ∧ io_size st = sz - done_bytes st ∧ offset st = ofs + done_bytes st
      ∧ buffer st = bytes f base (done_bytes st) ++ drop (Z.to_nat (done_bytes st)) buf)
    (λ st _, Z.to_nat (io_size st))).
  - intros st g (Hf & Hp & Hk & Hs & Ho & Hb). pose proof (inode_ok_frame _ _ _ Hf Hx) as Hxg.
    unfold avail in Hk.
    destruct (decide (0 < io_size st)) as [Hpos|Hpos].
    2: { unfold read_step. destruct (Z.leb_spec (io_size st) 0); [|lia]. apply wp_ret. simpl.
         split_and!; [done..| unfold avail; lia | unfold avail; lia | done | unfold avail; lia]. }
    destruct (decide (0 < chunk x (io_size st) (offset st))) as [Hc|Hc].
    2: { apply Z.nlt_ge in Hc. pose proof Hc as Hc'. apply chunk_end in Hc'; [|lia..].
         unfold read_step. destruct (Z.leb_spec (io_size st) 0); [lia|].
         apply wp_bind. eapply wp_eq; [unfold get_inode; by rewrite (inodes_frame _ _ Hf), E|]. cbv zeta.
         fold (chunk x (io_size st) (offset st)). destruct (Z.leb_spec (chunk x (io_size st) (offset st)) 0); [|lia].
         apply wp_ret. simpl. split_and!; [done..| unfold avail; lia | unfold avail; lia | done | unfold avail; lia]. }
    destruct (chunk_bound x (io_size st) (offset st)) as (Hc1 & Hc2 & _); [lia..|].
    eapply wp_mono.
    { apply (read_chunk g i x st (bytes f base (done_bytes st)) (drop (Z.to_nat (done_bytes st)) buf));
        try done; try lia; [by eapply frame_ok | by rewrite (inodes_frame _ _ Hf) | |].
      - rewrite bytes_length. lia.
      - rewrite length_drop. lia. }
    intros [st'|r] g' (Hf' & Hp' & Hr).
    + destruct Hr as [b ->]. simpl. set (c := chunk x (io_size st) (offset st)) in *.
      split; [|lia]. split_and!; [by apply (frame_trans f g) | apply (patched_id_trans f g); [by apply size_frame | done..] | lia | unfold avail; lia | lia | lia |].
      rewrite (patched_bytes f g) by (done || lia || by apply size_frame).
      replace (start (data x) * 512 + offset st) with (base + done_bytes st) by (unfold base; lia).
      rewrite dev_bytes_app, <- app_assoc, drop_drop by lia. do 3 f_equal. lia.
    + destruct Hr as [-> Hmem]. simpl.
      split_and!; [by apply (frame_trans f g) | apply (patched_id_trans f g); [by apply size_frame | done..] | lia | unfold avail; lia | done |].
      intros _ Hn. destruct Hf as (_ & _ & Hnx & _). destruct Hmem as (a & ? & ?); [lia|]. exists a. split; [lia | done].
  - simpl. split_and!; [by apply frame_refl | apply patched_nil | lia | unfold avail; lia | lia | lia |].
    done.
  - simpl. lia.
Qed.

(** ** Writing *)

Lemma patched_sector f g s o x :
  dev_ok f → 0 ≤ o → o + Z.of_nat (List.length x) ≤ 512 →
  patched f g (s * 512) (take (Z.to_nat o) (sec f s) ++ x ++ drop (Z.to_nat o + List.length x) (sec f s)) →
  patched f g (s * 512 + o) x.
Proof.
  intros Hd Ho Hl Hp p Hr. rewrite Hp by done. pose proof (sec_length f s Hd) as Hsl.
  rewrite !length_app, length_take, length_drop, Hsl.
  case_decide as H1; case_decide as H2; try lia.
  - rewrite lookup_app_r by (rewrite length_take; lia). rewrite length_take, lookup_app_l by lia.
    do 2 f_equal. lia.
  - replace p with (s * 512 + (p - s * 512)) at 2 by lia. rewrite byte_of_sec by (done || lia). f_equal.
    destruct (decide (p < s * 512 + o)).
    + rewrite lookup_app_l by (rewrite length_take; lia). by rewrite lookup_take_lt by lia.
    + rewrite lookup_app_r by (rewrite length_take; lia). rewrite length_take, lookup_app_r by lia.
      rewrite lookup_drop. f_equal. lia.
Qed.

Lemma patched_sec f g s : dev_ok f → dev_ok g → dev_size g = dev_size f → 0 ≤ s < dev_size f →
  patched f g 0 [] → sec g s = sec f s.
Proof. intros. rewrite !sec_all by done. apply patched_bytes; (done || lia). Qed.

Lemma write_chunk f i x st :
  dev_ok f → inodes f !! i = Some x → inode_ok f x → 0 ≤ offset st < 2^31 → 0 < io_size st < 2^31 →
  0 ≤ done_bytes st → done_bytes st + io_size st < 2^31 → Forall (λ c, 0 ≤ c < 256) (buffer st) →
  done_bytes st + io_size st ≤ Z.of_nat (List.length (buffer st)) →
  0 < chunk x (io_size st) (offset st) →
  wp (write_step malloc_ok i st)
    (λ r g, frame f g ∧
       match r with
       | inl st' => ∃ b, st' = mk_io (buffer st)
           (io_size st - chunk x (io_size st) (offset st)) (offset st + chunk x (io_size st) (offset st))
           (done_bytes st + chunk x (io_size st) (offset st)) b
           ∧ patched f g (start (data x) * 512 + offset st)
               (take (Z.to_nat (chunk x (io_size st) (offset st))) (drop (Z.to_nat (done_bytes st)) (buffer st)))
       | inr r => r = done_bytes st ∧ patched f g 0 [] ∧ (0 < next f → ∃ a, next f ≤ a ∧ malloc_ok a = false)
       end) f.
Proof.
  intros Hd E Hx Hofs Hsz Hk Hmax Hbyte Hbuf Hc. pose proof Hx as (_ & Hl & _).
  destruct (chunk_bound x (io_size st) (offset st)) as (Hc1 & Hc2 & Hc3 & Hrem); [done..|].
  destruct (byte_to_sector_ok f x (offset st)) as (_ & Hsec & Haddr); [done | done | lia |].
  pose proof (Z.mod_pos_bound (offset st) 512 ltac:(lia)).
  unfold write_step. destruct (Z.leb_spec (io_size st) 0); [lia|].
  apply wp_bind. eapply wp_eq; [unfold get_inode; by rewrite E|]. cbv zeta.
  fold (chunk x (io_size st) (offset st)). set (c := chunk x (io_size st) (offset st)) in *.
  set (out := take (Z.to_nat c) (drop (Z.to_nat (done_bytes st)) (buffer st))).
  assert (List.length out = Z.to_nat c) as Hout by (unfold out; rewrite length_take, length_drop; lia).
  assert (Forall (λ c, 0 ≤ c < 256) out) as Hob by (by apply Forall_take, Forall_drop).
  destruct (Z.leb_spec c 0); [lia|]. rewrite Hrem. unfold BLOCK_SECTOR_SIZE.
  assert (∀ b, advance st (buffer st) c b = mk_io (buffer st) (io_size st - c) (offset st + c) (done_bytes st + c) b) as Hadv.
  { intros b. unfold advance. by rewrite !s32_small by lia. }
  destruct (Z.eqb_spec (offset st mod 512) 0) as [Hm0|Hm0]; [destruct (Z.eqb_spec c 512) as [Hfull|Hfull]|]; simpl.
  1: {
    apply wp_bind, slice_at; [lia..|].
    replace (Z.to_nat 512) with (Z.to_nat c) by lia. fold out.
    apply wp_bind. eapply wp_mono; [apply fs_write_ok; (done || lia)|]. intros _ g (Hf & Hp).
    apply wp_ret. split; [done|]. exists (bounce st). rewrite Hadv. split; [done|]. by rewrite <- Haddr, Hm0, Z.add_0_r. }
  1: assert (0 <? offset st mod 512 = false) as -> by lia; assert (c <? 512 - offset st mod 512 = true) as -> by lia.
  2: assert (0 <? offset st mod 512 = true) as -> by lia.
  all: simpl; apply wp_bind; eapply wp_mono; [by apply need_bounce_ok|]; intros ok g (Hf & Hp & Hok).
  all: destruct ok; simpl; [|apply wp_ret; split_and!; [done..|]; by intros; apply Hok].
  all: pose proof (frame_ok _ _ Hf) as Hdg; pose proof (size_frame _ _ Hf) as Hsg.
  all: apply wp_bind; eapply wp_mono; [apply fs_read_ok; [done | by rewrite Hsg]|].
  all: intros s g' (-> & Hf' & Hp'); apply wp_bind, slice_at; [lia..|]; fold out.
  all: pose proof (sec_length g (byte_to_sector x (offset st)) Hdg) as Hsl.
  all: rewrite <- (take_drop (Z.to_nat (offset st mod 512)) (sec g _)) at 1.
  all: apply wp_bind, copy_to_at; [rewrite length_take; lia | rewrite length_drop; lia |].
  all: rewrite drop_drop.
  all: pose proof (frame_trans _ _ _ Hf Hf') as Hff; pose proof (frame_ok _ _ Hff) as Hdg'.
  all: apply wp_bind; eapply wp_mono; [apply fs_write_ok; [done | by rewrite (size_frame _ _ Hff) | |]|].
  all: try (rewrite !length_app, length_take, length_drop; lia).
  all: try (apply Forall_app; split; [apply Forall_take, bd_bytes; done|apply Forall_app; split; [done|apply Forall_drop, bd_bytes; done]]).
  all: intros _ g'' (Hf'' & Hp''); apply wp_ret; split; [by apply (frame_trans f g')|].
  all: exists true; rewrite Hadv; split; [done|].
  all: rewrite <- (patched_sec g g') in Hp'' by (done || (by apply size_frame) || (by rewrite Hsg)).
  all: rewrite <- Haddr; apply (patched_id_trans f g'); [by apply size_frame | |].
  all: try (apply (patched_id_trans f g); done).
  all: apply patched_sector; [done | lia | rewrite Hout; lia | done].
Qed.

(** Writing puts the bytes of the buffer at [ofs] and changes no other byte
    of the device; an inode whose writers are denied is left alone. *)
Lemma inode_write_at_ok f i x buf sz ofs :
  dev_ok f → inodes f !! i = Some x → inode_ok f x → 0 ≤ ofs < 2^31 → 0 ≤ sz < 2^31 →
  sz ≤ Z.of_nat (List.length buf) → Forall (λ c, 0 ≤ c < 256) buf → deny_write_cnt x = 0 →
  wp (inode_write_at malloc_ok i buf sz ofs)
    (λ n g, frame f g ∧ 0 ≤ n ≤ avail x sz ofs
       ∧ patched f g (start (data x) * 512 + ofs) (take (Z.to_nat n) buf)
       ∧ (n < avail x sz ofs → 0 < next f → ∃ a, next f ≤ a ∧ malloc_ok a = false)) f.
Proof.
  intros Hd E Hx Hofs Hsz Hbuf Hbytes Hdeny. pose proof Hx as (Hst & Hl & Hend).
  set (base := start (data x) * 512 + ofs). unfold inode_write_at.
  apply wp_bind. eapply wp_eq; [unfold get_inode; by rewrite E|]. rewrite Hdeny. cbn [negb Z.eqb].
  apply (wp_loop (λ st g, frame f g ∧ patched f g base (take (Z.to_nat (done_bytes st)) buf)
      ∧ 0 ≤ done_bytes st ≤ avail x sz ofs
      ∧ io_size st = sz - done_bytes st ∧ offset st = ofs + done_bytes st ∧ buffer st = buf)
    (λ st _, Z.to_nat (io_size st))).
  - intros st g (Hf & Hp & Hk & Hs & Ho & Hb). pose proof (inode_ok_frame _ _ _ Hf Hx) as Hxg.
    unfold avail in Hk.
    destruct (decide (0 < io_size st)) as [Hpos|Hpos].
    2: { unfold write_step. destruct (Z.leb_spec (io_size st) 0); [|lia]. apply wp_ret.
         split_and!; [done | unfold avail; lia.. | done | unfold avail; lia]. }
    destruct (decide (0 < chunk x (io_size st) (offset st))) as [Hc|Hc].
    2: { apply Z.nlt_ge in Hc. pose proof Hc as Hc'. apply chunk_end in Hc'; [|lia..].
         unfold write_step. destruct (Z.leb_spec (io_size st) 0); [lia|].
         apply wp_bind. eapply wp_eq; [unfold get_inode; by rewrite (inodes_frame _ _ Hf), E|]. cbv zeta.
         fold (chunk x (io_size st) (offset st)). destruct (Z.leb_spec (chunk x (io_size st) (offset st)) 0); [|lia].
         apply wp_ret. split_and!; [done | unfold avail; lia.. | done | unfold avail; lia]. }
    destruct (chunk_bound x (io_size st) (offset st)) as (Hc1 & Hc2 & _); [lia..|].
    eapply wp_mono.
    { apply (write_chunk g i x st); try done; try lia;
        [by eapply frame_ok | by rewrite (inodes_frame _ _ Hf) | by rewrite Hb | rewrite Hb; lia]. }
    intros [st'|r] g' (Hf' & Hr).
    + destruct Hr as (b & -> & Hr). simpl. set (c := chunk x (io_size st) (offset st)) in *.
      split; [|lia]. split_and!; [by apply (frame_trans f g) | | lia | unfold avail; lia | lia | lia | done].
      rewrite Hb in Hr. rewrite Z2Nat.inj_add, <- take_take_drop by lia.
      apply (patched_app f g); [by apply size_frame | done |].
      rewrite length_take, Nat.min_l by lia.
      by replace (base + Z.of_nat (Z.to_nat (done_bytes st))) with (start (data x) * 512 + offset st) by (unfold base; lia).
    + destruct Hr as (-> & Hid & Hmem). split_and!; [by apply (frame_trans f g) | lia | unfold avail; lia | |].
      * rewrite <- (app_nil_r (take _ buf)). apply (patched_app f g); [by apply size_frame | done |].
        intros p Hpp. rewrite Hid by done. by rewrite !decide_False by (simpl; lia).
      * intros _ Hn. destruct Hf as (_ & _ & Hnx & _). destruct Hmem as (a & ? & ?); [lia|]. exists a. split; [lia | done].
  - simpl. split_and!; [by apply frame_refl | apply patched_nil | lia | unfold avail; lia | lia | lia | done].
  - simpl. lia.
Qed.

(** ** Files as sequences of bytes *)

Definition content f (x : inode) : list Z := bytes f (start (data x) * 512) (length (data x)).

(** [a] is an open file with contents [c] and position [p], not denied to
    writers. *)
Definition is_file f (a : Z) (c : list Z) (p : Z) : Prop :=
  dev_ok f ∧ 0 < next f ∧ 0 < a ∧ 0 ≤ p < 2^31 ∧
  ∃ y x, files f !! a = Some y ∧ f_pos y = p ∧ inodes f !! f_inode y = Some x ∧ inode_ok f x
    ∧ deny_write_cnt x = 0 ∧ c = content f x.

Inductive file_op :=
  | FRead (n : Z)
  | FReadAt (n ofs : Z)
  | FWrite (bs : list Z)
  | FWriteAt (bs : list Z) (ofs : Z)
  | FSeek (p : Z)
  | FTell
  | FLength.

(** Sizes and offsets fit in an [off_t], and bytes are bytes. *)
Definition op_ok (o : file_op) : Prop :=
  match o with
  | FRead n => 0 ≤ n < 2^31
  | FReadAt n ofs => 0 ≤ n < 2^31 ∧ 0 ≤ ofs < 2^31
  | FWrite bs => Z.of_nat (List.length bs) < 2^31 ∧ Forall (λ c, 0 ≤ c < 256) bs
  | FWriteAt bs ofs => Z.of_nat (List.length bs) < 2^31 ∧ Forall (λ c, 0 ≤ c < 256) bs ∧ 0 ≤ ofs < 2^31
  | FSeek p => 0 ≤ p < 2^31
  | FTell | FLength => True
  end.

(** The bytes that a call returns, and its count. *)
Definition run_op (a : Z) (o : file_op) : M (fs D) (list Z * Z) :=
  match o with
  | FRead n => r ← file_read malloc_ok a (replicate (Z.to_nat n) 0) n; mret (take (Z.to_nat r.1) r.2, r.1)
  | FReadAt n ofs =>
      r ← file_read_at malloc_ok a (replicate (Z.to_nat n) 0) n ofs; mret (take (Z.to_nat r.1) r.2, r.1)
  | FWrite bs => n ← file_write malloc_ok a bs (Z.of_nat (List.length bs)); mret ([], n)
  | FWriteAt bs ofs => n ← file_write_at malloc_ok a bs (Z.of_nat (List.length bs)) ofs; mret ([], n)
  | FSeek p => file_seek a p ;; mret ([], 0)
  | FTell => n ← file_tell a; mret ([], n)
  | FLength => n ← file_length a; mret ([], n)
  end.
Fixpoint run_ops (a : Z) (os : list file_op) : M (fs D) (list (list Z * Z)) :=
  match os with
  | [] => mret []
  | o :: os => r ← run_op a o; rs ← run_ops a os; mret (r :: rs)
  end.
End transfer.

(** The same calls on a sequence of bytes with a position. *)
Definition read_spec (c : list Z) (n p : Z) : list Z := take (Z.to_nat n) (drop (Z.to_nat p) c).
Definition write_len (c bs : list Z) (p : Z) : Z :=
  Z.max 0 (Z.min (Z.of_nat (List.length bs)) (Z.of_nat (List.length c) - p)).
Definition write_spec (c bs : list Z) (p : Z) : list Z :=
  take (Z.to_nat p) c ++ take (Z.to_nat (write_len c bs p)) bs ++ drop (Z.to_nat (p + write_len c bs p)) c.

Definition spec_op (st : list Z * Z) (o : file_op) : (list Z * Z) * (list Z * Z) :=
  let '(c, p) := st in
  match o with
  | FRead n => let r := read_spec c n p in
      (r, Z.of_nat (List.length r), (c, p + Z.of_nat (List.length r)))
  | FReadAt n ofs => let r := read_spec c n ofs in (r, Z.of_nat (List.length r), (c, p))
  | FWrite bs => ([], write_len c bs p, (write_spec c bs p, p + write_len c bs p))
  | FWriteAt bs ofs => ([], write_len c bs ofs, (write_spec c bs ofs, p))
  | FSeek p' => ([], 0, (c, p'))
  | FTell => ([], p, (c, p))
  | FLength => ([], Z.of_nat (List.length c), (c, p))
  end.
Fixpoint spec_ops (st : list Z * Z) (os : list file_op) : list (list Z * Z) * (list Z * Z) :=
  match os with
  | [] => ([], st)
  | o :: os => let '(r, st) := spec_op st o in let '(rs, st) := spec_ops st os in (r :: rs, st)
  end.

Section refinement.
Context {D : Type} `{BlockDevices D}.
Context (malloc_ok : Z → bool) (Hmem : ∀ a, malloc_ok a = true).
Implicit Types f g : fs D.

Lemma read_spec_bytes f x n p :
  0 ≤ length (data x) → 0 ≤ p → 0 ≤ n →
  read_spec (content f x) n p = bytes f (start (data x) * 512 + p) (avail x n p)
  ∧ Z.of_nat (List.length (read_spec (content f x) n p)) = avail x n p.
Proof.
  intros Hl Hp Hn. assert (read_spec (content f x) n p = bytes f (start (data x) * 512 + p) (avail x n p)) as ->.
  2: { split; [done|]. rewrite bytes_length. unfold avail. lia. }
  unfold read_spec, content. apply list_eq_same_length with (Z.to_nat (avail x n p)).
  - apply bytes_length.
  - rewrite length_take, length_drop, bytes_length. unfold avail. lia.
  - intros i u v Hi. unfold avail in Hi. rewrite lookup_take_lt, lookup_drop by lia.
    rewrite !dev_bytes_lookup by (unfold avail; lia). intros [= <-] [= <-]. f_equal. lia.
Qed.

Lemma content_frame f g x :
  frame f g → inode_ok f x → patched f g 0 [] → content g x = content f x.
Proof. intros Hf (? & ? & ?) Hp. apply patched_bytes; [by apply size_frame | lia | lia | done]. Qed.

Lemma write_spec_bytes f g x bs p :
  frame f g → inode_ok f x → 0 ≤ p →
  patched f g (start (data x) * 512 + p) (take (Z.to_nat (avail x (Z.of_nat (List.length bs)) p)) bs) →
  write_spec (content f x) bs p = content g x ∧ write_len (content f x) bs p = avail x (Z.of_nat (List.length bs)) p.
Proof.
  intros Hf (Hst & Hl & Hend) Hp Hpat.
  assert (write_len (content f x) bs p = avail x (Z.of_nat (List.length bs)) p) as Hlen.
  { unfold write_len, content, avail. rewrite bytes_length. f_equal. f_equal. lia. }
  split; [|done]. unfold write_spec. rewrite Hlen. set (k := avail x _ p) in *.
  assert (0 ≤ k ≤ Z.of_nat (List.length bs) ∧ (0 < k → p + k ≤ length (data x))) as [Hk Hk'].
  { unfold k, avail. lia. }
  assert (Z.of_nat (List.length (take (Z.to_nat k) bs)) = k) as Htk by (rewrite length_take; lia).
  unfold content. apply list_eq_same_length with (Z.to_nat (length (data x))).
  - apply bytes_length.
  - rewrite !length_app, !length_take, length_drop, bytes_length. lia.
  - intros i u v Hi Hu. rewrite dev_bytes_lookup by done. intros [= <-].
    pose proof (Hpat (start (data x) * 512 + Z.of_nat i) ltac:(lia)) as ->. rewrite Htk. case_decide as Hin.
    + rewrite lookup_app_r in Hu by (rewrite length_take, bytes_length; lia).
      rewrite length_take, bytes_length, lookup_app_l in Hu by lia.
      replace (Z.to_nat _) with (i - Z.to_nat p `min` Z.to_nat (length (data x)))%nat by lia. by rewrite Hu.
    + destruct (decide (Z.of_nat i < p)).
      * rewrite lookup_app_l in Hu by (rewrite length_take, bytes_length; lia).
        rewrite lookup_take_lt, dev_bytes_lookup in Hu by lia. by injection Hu.
      * rewrite lookup_app_r in Hu by (rewrite length_take, bytes_length; lia).
        rewrite length_take, bytes_length, lookup_app_r, lookup_drop in Hu by lia.
        rewrite dev_bytes_lookup in Hu by lia. injection Hu as <-. f_equal. lia.
Qed.

(** A file after its position has moved and its bytes have changed. *)
Lemma is_file_moved f g a y x p :
  frame f g → 0 < next f → 0 < a → 0 ≤ p < 2^31 → files f !! a = Some y → inodes f !! f_inode y = Some x →
  inode_ok f x → deny_write_cnt x = 0 →
  is_file (set_files (<[a := set_f_pos p y]> (files g)) g) a (content g x) p.
Proof.
  intros Hf Hn Ha Hp Ey Ex Hx Hdw. pose proof Hf as (Hd & _ & Hn' & Hg).
  pose proof (inode_ok_frame _ _ _ Hf Hx) as Hxg.
  split_and!; [done | simpl; lia | done | lia | lia |]. exists (set_f_pos p y), x. simpl.
  rewrite lookup_insert_eq, (inodes_frame _ _ Hf). done.
Qed.
Lemma is_file_kept f g a y x :
  frame f g → 0 < next f → 0 < a → 0 ≤ f_pos y < 2^31 → files f !! a = Some y → inodes f !! f_inode y = Some x →
  inode_ok f x → deny_write_cnt x = 0 → is_file g a (content g x) (f_pos y).
Proof.
  intros Hf Hn Ha Hp Ey Ex Hx Hdw. pose proof Hf as (Hd & _ & Hn' & Hg).
  pose proof (inode_ok_frame _ _ _ Hf Hx) as Hxg.
  split_and!; [done | lia | done | lia | lia |]. exists y, x. rewrite (inodes_frame _ _ Hf).
  assert (files g = files f) as -> by (by rewrite Hg). done.
Qed.

Lemma get_file_eq f a y : files f !! a = Some y → get_file a f = Ok (y, f).
Proof. unfold get_file. by intros ->. Qed.
Lemma files_frame f g : frame f g → files g = files f.
Proof. by intros (_ & _ & _ & ->). Qed.

Lemma read_all f a y x n ofs :
  0 < next f → dev_ok f → inodes f !! f_inode y = Some x → inode_ok f x → 0 ≤ ofs < 2^31 → 0 ≤ n < 2^31 →
  wp (inode_read_at malloc_ok (f_inode y) (replicate (Z.to_nat n) a) n ofs)
    (λ r g, frame f g ∧ patched f g 0 [] ∧ take (Z.to_nat r.1) r.2 = read_spec (content f x) n ofs
      ∧ r.1 = Z.of_nat (List.length (read_spec (content f x) n ofs))) f.
Proof.
  intros Hn0 Hd Ex Hx Hofs Hn. pose proof Hx as (_ & ? & _).
  destruct (read_spec_bytes f x n ofs) as [Hr Hl]; [lia..|].
  eapply wp_mono; [apply inode_read_at_ok; try done; rewrite length_replicate; lia|].
  intros [k buf] g (Hf & Hp & Hk & -> & Hall). simpl in *.
  assert (k = avail x n ofs) as ->.
  { destruct (decide (k < avail x n ofs)) as [Hlt|]; [|lia]. destruct (Hall Hlt Hn0) as (b & _ & Hb).
    by rewrite Hmem in Hb. }
  split_and!; [done | done | | done]. rewrite Hr. rewrite take_app_le by (rewrite bytes_length; lia).
  apply take_ge. by rewrite bytes_length.
Qed.

Lemma write_all f i x bs ofs :
  0 < next f → dev_ok f → inodes f !! i = Some x → inode_ok f x → deny_write_cnt x = 0 → 0 ≤ ofs < 2^31 →
  Z.of_nat (List.length bs) < 2^31 → Forall (λ c, 0 ≤ c < 256) bs →
  wp (inode_write_at malloc_ok i bs (Z.of_nat (List.length bs)) ofs)
    (λ n g, frame f g ∧ n = write_len (content f x) bs ofs ∧ content g x = write_spec (content f x) bs ofs) f.
Proof.
  intros Hn0 Hd Ex Hx Hdw Hofs Hn Hbs.
  eapply wp_mono; [apply inode_write_at_ok; try done; lia|].
  intros k g (Hf & Hk & Hpat & Hall).
  assert (k = avail x (Z.of_nat (List.length bs)) ofs) as ->.
  { destruct (decide (k < avail x (Z.of_nat (List.length bs)) ofs)) as [Hlt|]; [|lia].
    destruct (Hall Hlt Hn0) as (b & _ & Hb). by rewrite Hmem in Hb. }
  destruct (write_spec_bytes f g x bs ofs) as [Hw Hl]; [done | done | lia | done |]. done.
Qed.

Lemma write_len_bound c bs p : 0 ≤ p → p + write_len c bs p ≤ Z.max p (Z.of_nat (List.length c)).
Proof. unfold write_len. lia. Qed.

Lemma file_read_spec f a c p n :
  is_file f a c p → 0 ≤ n < 2^31 →
  wp (file_read malloc_ok a (replicate (Z.to_nat n) 0) n)
    (λ r g, take (Z.to_nat r.1) r.2 = read_spec c n p ∧ r.1 = Z.of_nat (List.length (read_spec c n p))
       ∧ is_file g a c (p + r.1)) f.
Proof.
  intros (Hd & Hn & Ha & Hp & y & x & Ey & <- & Ex & Hx & Hdw & ->) Ho. pose proof Hx as (_ & Hl & _).
  unfold file_read. apply wp_bind. eapply wp_eq; [by apply get_file_eq|].
  apply wp_bind. eapply wp_mono; [by apply (read_all f)|]. intros r g (Hf & Hpat & Hr & Hlen).
  destruct (read_spec_bytes f x n (f_pos y)) as [_ Hl']; [lia..|].
  apply wp_bind. eapply wp_eq; [apply get_file_eq; by rewrite (files_frame _ _ Hf)|].
  apply wp_bind, wp_modify, wp_ret. rewrite Hr. split_and!; [done..|].
  assert (0 ≤ f_pos y + r.1 < 2^31) by (unfold avail in *; lia).
  rewrite s32_small by lia. rewrite <- (content_frame f g x) by done.
  by apply (is_file_moved f).
Qed.

Lemma file_write_spec f a c p bs :
  is_file f a c p → Z.of_nat (List.length bs) < 2^31 → Forall (λ c, 0 ≤ c < 256) bs →
  wp (file_write malloc_ok a bs (Z.of_nat (List.length bs)))
    (λ n g, n = write_len c bs p ∧ is_file g a (write_spec c bs p) (p + n)) f.
Proof.
  intros (Hd & Hn & Ha & Hp & y & x & Ey & <- & Ex & Hx & Hdw & ->) Hlen Hbs. pose proof Hx as (_ & Hl & _).
  unfold file_write. apply wp_bind. eapply wp_eq; [by apply get_file_eq|].
  apply wp_bind. eapply wp_mono; [by apply (write_all f _ x)|]. intros k g (Hf & -> & Hc).
  apply wp_bind. eapply wp_eq; [apply get_file_eq; by rewrite (files_frame _ _ Hf)|].
  apply wp_bind, wp_modify, wp_ret. split; [done|]. rewrite <- Hc.
  assert (Z.of_nat (List.length (content f x)) = length (data x)) as Hcl.
  { unfold content. rewrite bytes_length. lia. }
  pose proof (write_len_bound (content f x) bs (f_pos y) ltac:(lia)).
  assert (0 ≤ write_len (content f x) bs (f_pos y)) by (unfold write_len; lia).
  rewrite s32_small by lia. apply (is_file_moved f); (done || lia).
Qed.

Lemma run_op_spec f a c p o :
  is_file f a c p → op_ok o →
  wp (run_op malloc_ok a o) (λ r g, let '(r', (c', p')) := spec_op (c, p) o in r = r' ∧ is_file g a c' p') f.
Proof.
  intros Hfile Ho. pose proof Hfile as (Hd & Hn & Ha & Hp & y & x & Ey & Hy & Ex & Hx & Hdw & Hc).
  assert (negb (a =? NULL) = true) as Hnn by (unfold NULL; lia).
  destruct o as [n|n ofs|bs|bs ofs|q| |]; simpl in *; apply wp_bind.
  - eapply wp_mono; [by apply file_read_spec|]. intros r g (Hr & Hlen & Hg). apply wp_ret. by rewrite Hr, <- Hlen.
  - unfold file_read_at. apply wp_bind. eapply wp_eq; [by apply get_file_eq|].
    eapply wp_mono; [apply (read_all f); (done || lia)|]. intros r g (Hf & Hpat & Hr & Hlen).
    apply wp_ret. subst c p. rewrite Hr, Hlen. split; [done|]. rewrite <- (content_frame f g x) by done.
    by apply (is_file_kept f g a y x).
  - destruct Ho as [Hlen Hbs]. eapply wp_mono; [by apply file_write_spec|]. intros k g (-> & Hg). apply wp_ret. by split.
  - destruct Ho as (Hlen & Hbs & Hofs). unfold file_write_at. apply wp_bind. eapply wp_eq; [by apply get_file_eq|].
    eapply wp_mono; [by apply (write_all f _ x)|]. intros k g (Hf & -> & Hg).
    apply wp_ret. subst c p. split; [done|]. rewrite <- Hg. by apply (is_file_kept f g a y x).
  - unfold file_seek. apply wp_bind, wp_ASSERT; [done|]. apply wp_bind, wp_ASSERT; [lia|].
    apply wp_bind. eapply wp_eq; [by apply get_file_eq|]. apply wp_modify, wp_ret. split; [done|]. subst c.
    apply (is_file_moved f); (done || by apply frame_refl).
  - unfold file_tell. apply wp_bind, wp_ASSERT; [done|].
    apply wp_bind. eapply wp_eq; [by apply get_file_eq|]. apply wp_ret, wp_ret. by subst p.
  - unfold file_length. apply wp_bind, wp_ASSERT; [done|].
    apply wp_bind. eapply wp_eq; [by apply get_file_eq|]. unfold inode_length.
    apply wp_bind. eapply wp_eq; [unfold get_inode; by rewrite Ex|]. apply wp_ret, wp_ret. split; [|done].
    subst c. unfold content. rewrite bytes_length. f_equal. destruct Hx as (_ & ? & _). lia.
Qed.

Lemma run_ops_spec os : ∀ f a c p,
  is_file f a c p → Forall op_ok os →
  wp (run_ops malloc_ok a os) (λ rs g, let '(rs', (c', p')) := spec_ops (c, p) os in rs = rs' ∧ is_file g a c' p') f.
Proof.
  induction os as [|o os IH]; intros f a c p Hf Ho; [by apply wp_ret|].
  apply Forall_cons in Ho as [Ho Hos]. cbn [run_ops spec_ops]. apply wp_bind. eapply wp_mono; [by apply run_op_spec|].
  intros r g. destruct (spec_op (c, p) o) as [r' [c' p']]. intros [-> Hg].
  apply wp_bind. eapply wp_mono; [by apply IH|]. intros rs h.
  destruct (spec_ops (c', p') os) as [rs' [c'' p'']]. intros [-> Hh]. apply wp_ret. by split.
Qed.
End refinement.

(** ** Properties *)

(** C7: Files are sequences of bytes.  Any sequence of reads, writes (at the
    position of the file or at a given offset), seeks, and queries on an open
    file returns what the same calls return on a sequence of bytes with a
    position: a read returns the bytes up to the end of the file and moves
    the position past them, a write replaces the bytes up to the end of the
    file, the file never grows, and no call fails.  Transfers of any length
    across any number of sectors are covered; memory for the bounce buffer is
    assumed to be there. *)
Theorem file_refines_bytes {D} `{BlockDevices D} (malloc_ok : Z → bool) (f : fs D) a c p os :
  (∀ b, malloc_ok b = true) → is_file f a c p → Forall op_ok os →
  ∃ g, run_ops malloc_ok a os f = Ok ((spec_ops (c, p) os).1, g)
    ∧ is_file g a (spec_ops (c, p) os).2.1 (spec_ops (c, p) os).2.2.
Proof.
  intros Hmem Hf Hos.
  destruct (proj1 (wp_Ok _ _ _) (run_ops_spec malloc_ok Hmem os f a c p Hf Hos)) as (rs & g & Hrun & Hg).
  exists g. destruct (spec_ops (c, p) os) as [rs' [c' p']]. destruct Hg as [-> Hg]. done.
Qed.

#[local] Existing Instance Block.block_devices.

(** A file of 1200 zeros in the sectors from 10 on. *)
Definition demo_inode : inode := mk_inode 5 1 false 0 (mk_inode_disk 10 1200 INODE_MAGIC (replicate 500 0)).
Definition demo_fs : fs Block.devices :=
  mk_fs (Block.disk_with Block.zeros) 1 {[ 20 := demo_inode ]} [20] {[ 21 := mk_file 20 0 false ]} ∅ None NULL 30.
Definition demo_ops : list file_op :=
  [FSeek 500; FWrite (replicate 600 7); FTell; FReadAt 3 499; FSeek 1198; FRead 10; FTell; FWriteAt [1] 1200].

Lemma demo_is_file : is_file demo_fs 21 (content demo_fs demo_inode) 0.
Proof.
  split_and!; [|done..|].
  - split_and!; [|done|by eexists]. apply Block.disk_with_wf. split; [done|]. by apply Forall_replicate.
  - exists (mk_file 20 0 false), demo_inode. split_and!; try done; vm_compute; lia || done.
Qed.

Lemma file_refines_bytes_witness :
  ∃ g, run_ops (λ _, true) 21 demo_ops demo_fs
       = Ok ([([], 0); ([], 600); ([], 1100); ([0; 7; 7], 3); ([], 0); ([0; 0], 2); ([], 1200); ([], 0)], g).
Proof.
  destruct (file_refines_bytes (λ _, true) demo_fs 21 (content demo_fs demo_inode) 0 demo_ops) as (g & Hg & _).
  - done.
  - apply demo_is_file.
  - repeat constructor; simpl; try lia; apply Forall_replicate; lia.
  - exists g. by rewrite Hg.
Defined.
End FileIO.
