(* ===== verification/FreeMap.v ===== *)
(** * Sectors and inodes

    The free map as the owner of sectors: allocating and releasing them,
    creating an inode, opening and closing it.  Memory is assumed to be
    there. *)
From stdpp Require Import base gmap list list_numbers.
From Stdlib Require Import ZArith Lia.
From S2P Require Import Prelude Bitmap Block Filesys FileIO.

Module FreeMap.
Import Filesys FileIO.

Section free_map.
Context {D : Type} `{BlockDevices D}.
Implicit Types f g h : fs D.

(** ** Effects *)

(** Only bytes of the device in [P] differ. *)
Definition only (P : Z → Prop) f g : Prop :=
  ∀ p, 0 ≤ p < dev_size f * 512 → ¬ P p → byte g p = byte f p.

Lemma only_refl P f : only P f f.
Proof. by intros p. Qed.
Lemma only_trans P f g h : dev_size g = dev_size f → only P f g → only P g h → only P f h.
Proof. intros Hs Hf Hg p Hp HP. rewrite Hg by (by rewrite ?Hs). by apply Hf. Qed.
Lemma only_mono (P Q : Z → Prop) f g : (∀ p, P p → Q p) → only P f g → only Q f g.
Proof. intros HPQ Hf p Hp HQ. apply Hf; [done|]. eauto. Qed.
Lemma only_nothing P f g : patched f g 0 [] → only P f g.
Proof. intros Hp p Hr _. rewrite Hp by done. rewrite decide_False; [done | simpl; lia]. Qed.
Lemma only_patched f g a x : patched f g a x → only (λ p, a ≤ p < a + Z.of_nat (List.length x)) f g.
Proof. intros Hp p Hr Hn. rewrite Hp by done. by rewrite decide_False. Qed.

Lemma only_bytes P f g a n :
  only P f g → dev_size g = dev_size f → 0 ≤ a → a + n ≤ dev_size f * 512 →
  (∀ i, 0 ≤ i < n → ¬ P (a + i)) → bytes g a n = bytes f a n.
Proof. intros Ho Hs Ha Hn HP. apply bytes_ext. intros i Hi. apply Ho; [lia | by apply HP]. Qed.
Lemma only_sec P f g s :
  only P f g → dev_ok f → dev_ok g → dev_size g = dev_size f → 0 ≤ s < dev_size f →
  (∀ i, 0 ≤ i < 512 → ¬ P (s * 512 + i)) → sec g s = sec f s.
Proof. intros Ho Hf Hg Hs Hr HP. rewrite !sec_all by done. apply (only_bytes P); (done || lia). Qed.

(** A change of the free map to [fm] along with the device. *)
Definition mframe f g (fm : Bitmap.bitmap) : Prop :=
  dev_ok g ∧ dev_size g = dev_size f ∧ next f ≤ next g
  ∧ g = set_free_map (Some fm) (set_next (next g) (set_dev (dev g) f)).

Lemma frame_mframe f g fm : frame f g → free_map f = Some fm → mframe f g fm.
Proof.
  intros (? & ? & ? & Hg) Hfm. split_and!; [done..|]. rewrite Hg. simpl. unfold set_free_map, set_next, set_dev. simpl.
  by rewrite Hfm.
Qed.
Lemma mframe_frame_trans f g h fm : mframe f g fm → frame g h → mframe f h fm.
Proof.
  intros (? & ? & ? & Hg) (? & ? & ? & Hh). split_and!; [done | congruence | lia |]. rewrite Hh at 1. rewrite Hg. done.
Qed.
Lemma frame_mframe_trans f g h fm : frame f g → mframe g h fm → mframe f h fm.
Proof.
  intros (? & ? & ? & Hg) (? & ? & ? & Hh). split_and!; [done | congruence | lia |]. rewrite Hh at 1. rewrite Hg. done.
Qed.
Lemma mframe_trans f g h fm fm' : mframe f g fm → mframe g h fm' → mframe f h fm'.
Proof.
  intros (? & ? & ? & Hg) (? & ? & ? & Hh). split_and!; [done | congruence | lia |]. rewrite Hh at 1. rewrite Hg. done.
Qed.

(** ** The free map *)

(** The free map [fm] and the inode [x] of the file that holds it. *)
Definition has_map f (fm : Bitmap.bitmap) (x : inode) : Prop :=
  dev_ok f ∧ 0 < next f ∧ free_map f = Some fm ∧ Bitmap.wf fm ∧ Bitmap.bit_cnt fm = dev_size f
  ∧ 0 < free_map_file f ∧ ∃ y, files f !! free_map_file f = Some y ∧ inodes f !! f_inode y = Some x
    ∧ inode_ok f x ∧ deny_write_cnt x = 0 ∧ Bitmap.byte_cnt (Bitmap.bit_cnt fm) ≤ length (data x).

Definition in_data (x : inode_disk) (p : Z) : Prop := start x * 512 ≤ p < start x * 512 + length x.

Lemma words_bytes_length w : List.length (words_bytes w) = (4 * List.length w)%nat.
Proof.
  induction w as [|a w IH]; [done|].
  change (words_bytes (a :: w)) with (to_le a ++ words_bytes w). rewrite length_app, IH. simpl. lia.
Qed.
Lemma words_bytes_range w : Forall (λ c, 0 ≤ c < 256) (words_bytes w).
Proof.
  induction w as [|a w IH]; [done|]. change (words_bytes (a :: w)) with (to_le a ++ words_bytes w).
  apply Forall_app. split; [|done]. repeat (apply Forall_cons; split; [apply u8_range|]). done.
Qed.

Lemma byte_cnt_eq n : 0 ≤ n < 2^28 → Bitmap.byte_cnt n = 4 * Bitmap.elem_cnt n ∧ 0 ≤ Bitmap.elem_cnt n < 2^24.
Proof.
  intros Hn. assert (0 ≤ Bitmap.elem_cnt n < 2^24) as He.
  { unfold Bitmap.elem_cnt, Bitmap.ELEM_BITS. rewrite u32_small by lia. div_lia. }
  split; [|done]. unfold Bitmap.byte_cnt. rewrite u32_small; lia.
Qed.

Lemma bytes_to_sectors_eq len :
  0 ≤ len < 2^31 - 512 → bytes_to_sectors len = (len + 511) / 512 ∧ 0 ≤ bytes_to_sectors len < 2^23
  ∧ len ≤ bytes_to_sectors len * 512.
Proof.
  intros Hl. unfold bytes_to_sectors, BLOCK_SECTOR_SIZE. rewrite s32_small by lia.
  rewrite Z.quot_div_nonneg by lia. rewrite u32_small by div_lia. split_and!; div_lia.
Qed.

Lemma zero_sectors f st n :
  dev_ok f → 0 ≤ st → st + Z.of_nat n ≤ dev_size f →
  wp (for_loop n 0 (λ i, fs_write (u32 (st + i)) (replicate 512 0)))
    (λ _ g, frame f g ∧ patched f g (st * 512) (replicate (512 * n) 0)) f.
Proof.
  intros Hd Hst Hend. pose proof (bd_size_range _ _ Hd) as Hsz. fold (dev_size f) in Hsz.
  apply (wp_for_loop (λ i g, frame f g ∧ patched f g (st * 512) (replicate (512 * Z.to_nat i) 0))).
  - split; [by apply frame_refl|]. apply patched_nil.
  - intros i g Hi [Hf Hp]. rewrite u32_small by lia.
    eapply wp_mono.
    { apply fs_write_ok; [exact (frame_ok _ _ Hf) | rewrite (size_frame _ _ Hf); lia | done |]. by apply Forall_replicate. }
    intros _ h [Hh Hp']. split; [by apply (frame_trans f g)|].
    replace (512 * Z.to_nat (i + 1))%nat with (512 * Z.to_nat i + 512)%nat by lia. rewrite replicate_add.
    apply (patched_app f g); [by apply size_frame | done|]. rewrite length_replicate.
    by replace (st * 512 + Z.of_nat (512 * Z.to_nat i)) with ((st + i) * 512) by lia.
  - intros g. by replace (Z.to_nat (0 + Z.of_nat n)) with n by lia.
Qed.

Lemma to_le_length n : List.length (to_le n) = 4%nat.
Proof. done. Qed.
Lemma to_le_range n : Forall (λ c, 0 ≤ c < 256) (to_le n).
Proof. repeat (apply Forall_cons; split; [apply u8_range|]). done. Qed.

Definition new_disk (st len : Z) : inode_disk := mk_inode_disk st len INODE_MAGIC (replicate 500 0).

Lemma new_disk_sector st len :
  List.length (disk_bytes (new_disk st len)) = 512%nat ∧ Forall (λ c, 0 ≤ c < 256) (disk_bytes (new_disk st len)).
Proof.
  split; [done|]. unfold disk_bytes. repeat (apply Forall_app; split; [apply to_le_range|]).
  by apply Forall_replicate.
Qed.

End free_map.

Section sectors.
Context {D : Type} `{BlockDevices D}.
Context (malloc_ok : Z → bool) (Hmem : ∀ a, malloc_ok a = true).
Implicit Types f g h : fs D.

(** Storing the free map succeeds and touches only the file that holds it. *)
Lemma bitmap_write_ok f fm x :
  has_map f fm x →
  wp (bitmap_write malloc_ok fm (free_map_file f))
    (λ ok g, ok = true ∧ frame f g ∧ only (in_data (data x)) f g) f.
Proof.
  intros (Hd & Hn & Hfm & Hwf & Hcnt & Hff & y & Ey & Ex & Hx & Hdw & Hlen). unfold bitmap_write.
  pose proof (bd_size_range _ _ Hd) as Hsz. fold (dev_size f) in Hsz. rewrite <- Hcnt in Hsz.
  destruct (byte_cnt_eq (Bitmap.bit_cnt fm) Hsz) as [Hbc He]. destruct Hwf as (_ & Hl & _).
  rewrite s32_small by lia. apply wp_bind. unfold file_write_at. apply wp_bind.
  eapply wp_eq; [by apply get_file_eq|].
  eapply wp_mono.
  { apply inode_write_at_ok; try done; [lia | | apply words_bytes_range]. rewrite words_bytes_length. lia. }
  intros n g (Hf & Hk & Hp & Hall). apply wp_ret.
  assert (n = Bitmap.byte_cnt (Bitmap.bit_cnt fm)) as ->.
  { unfold avail in *. destruct (decide (n < Bitmap.byte_cnt (Bitmap.bit_cnt fm))); [|lia].
    destruct Hall as (b & _ & Hb); [lia | done |]. by rewrite Hmem in Hb. }
  split_and!; [lia | done |]. apply only_patched in Hp. eapply only_mono; [|exact Hp].
  intros p. rewrite length_take, words_bytes_length. unfold in_data. lia.
Qed.

Lemma on_free_map_ok {A} f fm (m : M Bitmap.bitmap A) (Q : A → fs D → Prop) :
  free_map f = Some fm → wp m (λ a fm', Q a (set_free_map (Some fm') f)) fm → wp (on_free_map m) Q f.
Proof. intros Hfm. unfold wp, on_free_map. rewrite Hfm. by destruct (m fm) as [[a fm']|]. Qed.

Lemma has_map_set f fm fm' x :
  has_map f fm x → Bitmap.wf fm' → Bitmap.bit_cnt fm' = Bitmap.bit_cnt fm →
  has_map (set_free_map (Some fm') f) fm' x.
Proof.
  intros (Hd & Hn & Hfm & Hwf & Hcnt & Hff & y & Ey & Ex & Hx & Hdw & Hlen) Hwf' Hc.
  split_and!; [done..| by rewrite Hc | done |]. exists y. rewrite Hc. done.
Qed.
Lemma has_map_frame f g fm x : has_map f fm x → frame f g → has_map g fm x.
Proof.
  intros (Hd & Hn & Hfm & Hwf & Hcnt & Hff & y & Ey & Ex & Hx & Hdw & Hlen) Hf. pose proof Hf as (? & Hs & ? & Hg).
  unfold has_map. rewrite (inodes_frame _ _ Hf), (files_frame _ _ Hf), Hs.
  assert (free_map g = free_map f) as -> by (by rewrite Hg).
  assert (free_map_file g = free_map_file f) as -> by (by rewrite Hg).
  split_and!; [done | lia | done..|]. exists y. split_and!; [done..| by eapply inode_ok_frame | done | done].
Qed.

Lemma set_free_map_mframe f g fm' :
  frame (set_free_map (Some fm') f) g → mframe f g fm'.
Proof. intros (Hd & Hs & Hn & Hg). split_and!; [done..|]. rewrite Hg at 1. done. Qed.

(** Allocation takes the first free run of sectors, or fails if there is
    none. *)
Definition taken (fm fm' : Bitmap.bitmap) (s cnt : Z) (v : bool) : Prop :=
  Bitmap.updated fm fm' (λ j, if decide (s ≤ j < s + cnt) then Some v else None).

Lemma free_map_allocate_ok f fm x cnt :
  has_map f fm x → 0 ≤ cnt →
  wp (free_map_allocate malloc_ok cnt)
    (λ o g, ∃ fm', mframe f g fm' ∧ only (in_data (data x)) f g ∧ has_map g fm' x ∧
       match o with
       | Some s => 0 ≤ s ∧ s + cnt ≤ dev_size f ∧ (∀ j, s ≤ j < s + cnt → Bitmap.bit fm j = false)
                   ∧ (∀ i, 0 ≤ i < s → ¬ Bitmap.group fm cnt false i) ∧ taken fm fm' s cnt true
       | None => (∀ j, 0 ≤ j → Bitmap.bit fm' j = Bitmap.bit fm j) ∧ ∀ s, 0 ≤ s → ¬ Bitmap.group fm cnt false s
       end) f.
Proof.
  intros Hm Hc. pose proof Hm as (Hd & Hn & Hfm & Hwf & Hcnt & Hff & _).
  pose proof (bd_size_range _ _ Hd) as Hsz. fold (dev_size f) in Hsz.
  unfold free_map_allocate. apply wp_bind. apply (on_free_map_ok f fm); [done|].
  apply Bitmap.bitmap_scan_and_flip_spec; [done | lia | done |]. intros s fm' Hg (Hwf' & Hc' & Hb).
  pose proof (has_map_set f fm fm' x Hm Hwf' Hc') as Hm'. apply wp_bind.
  destruct (Z.eqb_spec s Bitmap.BITMAP_ERROR) as [->|Hne].
  - apply wp_ret, wp_ret. rewrite Z.eqb_refl. destruct Hg as [(Hr & _)|[_ Hno]].
    { unfold Bitmap.BITMAP_ERROR, SIZE_MAX in Hr. lia. }
    exists fm'. split_and!; [by apply set_free_map_mframe, frame_refl | by intros ? | done | | done].
    intros j Hj. rewrite Hb by done. by rewrite decide_False by tauto.
  - destruct Hg as [(Hr & [Hfit Hfree] & Hfirst)|[? _]]; [|done].
    apply wp_bind, wp_gets. simpl. destruct (Z.eqb_spec (free_map_file f) NULL) as [Hz|_]; [unfold NULL in Hz; lia|].
    apply wp_bind. eapply wp_eq; [done|].
    apply wp_bind. eapply wp_mono; [by apply (bitmap_write_ok (set_free_map (Some fm') f) fm' x)|]. intros ok g (-> & Hf & Ho).
    apply wp_ret, wp_ret. destruct (Z.eqb_spec s Bitmap.BITMAP_ERROR); [done|].
    exists fm'. split_and!; [by apply set_free_map_mframe | done | by eapply has_map_frame | lia | lia | done | done |].
    split_and!; [done..|]. intros j Hj. rewrite Hb by done. repeat case_decide; tauto.
Qed.

Lemma free_map_release_ok f fm x s cnt :
  has_map f fm x → 0 ≤ s → 0 ≤ cnt → s + cnt ≤ dev_size f → (∀ j, s ≤ j < s + cnt → Bitmap.bit fm j = true) →
  wp (free_map_release malloc_ok s cnt)
    (λ _ g, ∃ fm', mframe f g fm' ∧ only (in_data (data x)) f g ∧ has_map g fm' x ∧ taken fm fm' s cnt false) f.
Proof.
  intros Hm Hs Hc Hend Hall. pose proof Hm as (Hd & Hn & Hfm & Hwf & Hcnt & Hff & _).
  unfold free_map_release. apply wp_bind, (on_free_map_ok f fm); [done|].
  apply Bitmap.bitmap_all_spec; [done | done | done | lia |]. intros r Hr.
  assert (r = true) as -> by (by apply Hr). apply wp_bind, wp_ASSERT; [done|].
  apply wp_bind, (on_free_map_ok _ fm); [done|].
  eapply wp_mono; [apply Bitmap.bitmap_set_multiple_spec; (done || lia)|]. intros [] fm' Hu.
  pose proof Hu as (Hwf' & Hc' & Hb).
  assert (has_map (set_free_map (Some fm') f) fm' x) as Hm' by by eapply has_map_set.
  apply wp_bind. eapply wp_eq; [done|]. apply wp_bind, wp_gets, wp_bind.
  eapply wp_mono; [by apply (bitmap_write_ok (set_free_map (Some fm') f) fm' x)|]. intros ok g (-> & Hf & Ho).
  apply wp_ret. exists fm'. split_and!; [by apply set_free_map_mframe | done | by eapply has_map_frame | done].
Qed.

(** ** Creating an inode *)

Lemma malloc_some f : 0 < next f → wp (malloc malloc_ok) (λ a g, 0 < a ∧ a = next f ∧ g = set_next (next f + 1) f) f.
Proof. intros Hn. unfold wp, malloc. rewrite Hmem. done. Qed.
Lemma next_frame f : dev_ok f → frame f (set_next (next f + 1) f).
Proof. intros Hd. split_and!; try done; simpl; lia. Qed.

(** A new inode: its sector, then its data, all zeros. *)
Lemma inode_create_ok f fm x s len :
  has_map f fm x → 0 ≤ s < dev_size f → 0 ≤ len < 2^31 - 512 →
  wp (inode_create malloc_ok s len)
    (λ ok g, ∃ fm', mframe f g fm' ∧ has_map g fm' x ∧
       if ok then
         ∃ st f1, let n := bytes_to_sectors len in
         0 ≤ st ∧ st + n ≤ dev_size f ∧ (∀ j, st ≤ j < st + n → Bitmap.bit fm j = false)
         ∧ taken fm fm' st n true ∧ only (in_data (data x)) f f1 ∧ dev_size f1 = dev_size f
         ∧ ∃ f2, patched f1 f2 (s * 512) (disk_bytes (new_disk st len)) ∧ dev_size f2 = dev_size f
            ∧ patched f2 g (st * 512) (replicate (512 * Z.to_nat n) 0)
       else only (in_data (data x)) f g ∧ (∀ j, 0 ≤ j → Bitmap.bit fm' j = Bitmap.bit fm j)
            ∧ ∀ st, 0 ≤ st → ¬ Bitmap.group fm (bytes_to_sectors len) false st) f.
Proof.
  intros Hm Hs Hlen. pose proof Hm as (Hd & Hn & _). destruct (bytes_to_sectors_eq len Hlen) as (_ & Hns & _).
  unfold inode_create. apply wp_bind, wp_ASSERT; [lia|].
  apply wp_bind. eapply wp_mono; [by apply malloc_some|]. intros p f0 (Hp & _ & ->).
  destruct (Z.eqb_spec p NULL) as [->|_]; [unfold NULL in Hp; lia|].
  pose proof (next_frame f Hd) as Hf0. set (f0 := set_next (next f + 1) f) in *.
  apply wp_bind. eapply wp_mono.
  { apply (free_map_allocate_ok f0 fm x); [by eapply has_map_frame | lia]. }
  intros [st|] f1 (fm' & Hmf & Ho & Hm1 & Hres).
  2: { destruct Hres as [Hb Hno]. apply wp_ret. exists fm'. split_and!; [by eapply frame_mframe_trans | done..]. }
  destruct Hres as (Hst & Hend & Hfree & _ & Htk). pose proof Hmf as (Hd1 & Hs1 & _).
  change (dev_size f0) with (dev_size f) in *. destruct (new_disk_sector st len) as [Hl Hb].
  apply wp_bind. eapply wp_mono; [apply (fs_write_ok f1 s (disk_bytes (new_disk st len))); (done || lia)|].
  intros _ f2 [Hf2 Hp2]. pose proof (size_frame _ _ Hf2) as Hs2.
  assert (wp (if 0 <? bytes_to_sectors len
      then for_loop (Z.to_nat (bytes_to_sectors len)) 0 (λ i, fs_write (u32 (st + i)) (replicate 512 0)) else mret tt)
    (λ _ g, frame f2 g ∧ patched f2 g (st * 512) (replicate (512 * Z.to_nat (bytes_to_sectors len)) 0)) f2) as Hz.
  { destruct (Z.ltb_spec 0 (bytes_to_sectors len)).
    - apply zero_sectors; [exact (frame_ok _ _ Hf2) | done | lia].
    - apply wp_ret. split; [apply frame_refl, (frame_ok _ _ Hf2)|].
      replace (Z.to_nat (bytes_to_sectors len)) with 0%nat by lia. apply patched_nil. }
  apply wp_bind. eapply wp_mono; [exact Hz|]. intros _ g [Hf3 Hp3]. apply wp_ret.
  exists fm'. split_and!.
  - eapply frame_mframe_trans; [exact Hf0|]. eapply mframe_frame_trans; [exact Hmf|]. by eapply frame_trans.
  - eapply has_map_frame; [|exact Hf3]. by eapply has_map_frame.
  - exists st, f1. split_and!; [done..|]. exists f2. split_and!; [done | lia | done].
Qed.

(** ** Opening and closing an inode *)

(** The parts of the state that are in memory. *)
Definition mem f : Z * gmap Z inode * list Z * gmap Z file * gmap Z dir * Z :=
  (fs_device f, inodes f, open_inodes f, files f, dirs f, free_map_file f).

Lemma mframe_mem f g fm : mframe f g fm → mem g = mem f ∧ free_map g = Some fm.
Proof. by intros (_ & _ & _ & ->). Qed.
Lemma frame_mem f g : frame f g → mem g = mem f ∧ free_map g = free_map f.
Proof. by intros (_ & _ & _ & ->). Qed.

Lemma find_open_none f s l :
  (∀ e, e ∈ l → ∃ y, inodes f !! e = Some y ∧ sector y ≠ s) → find_open s l f = Ok (None, f).
Proof.
  induction l as [|e l IH]; intros Hl; [done|]. simpl. unfold get_inode. run.
  destruct (Hl e) as (y & -> & Hy); [by left|]. destruct (Z.eqb_spec (sector y) s); [done|].
  apply IH. intros e' He'. apply Hl. by right.
Qed.

Lemma inode_open_ok f s :
  dev_ok f → 0 < next f → 0 ≤ s < dev_size f →
  (∀ e, e ∈ open_inodes f → ∃ y, inodes f !! e = Some y ∧ sector y ≠ s) →
  wp (inode_open malloc_ok s)
    (λ i g, i = next f ∧ dev_ok g ∧ dev_size g = dev_size f ∧ next f < next g ∧ patched f g 0 []
      ∧ free_map g = free_map f
      ∧ mem g = (fs_device f, <[i := mk_inode s 1 false 0 (disk_of_bytes (sec f s))]> (inodes f),
                 i :: open_inodes f, files f, dirs f, free_map_file f)) f.
Proof.
  intros Hd Hn Hs Hopen. unfold inode_open. apply wp_bind, wp_gets.
  apply wp_bind. eapply wp_eq; [by apply find_open_none|].
  apply wp_bind. eapply wp_mono; [by apply malloc_some|]. intros i f0 (Hi & -> & ->).
  destruct (Z.eqb_spec (next f) NULL) as [Hz|_]; [unfold NULL in Hz; lia|].
  apply wp_bind, wp_modify. apply wp_bind. eapply wp_mono; [by apply fs_read_ok|].
  intros b g (-> & Hf & Hp). apply wp_bind, wp_modify, wp_ret.
  destruct (frame_mem _ _ Hf) as [Hmm Hfm]. pose proof Hf as (Hdg & Hsg & Hng & _). simpl in *.
  unfold mem in *. simpl in *. injection Hmm as -> -> -> -> -> ->. split_and!; try done. lia.
Qed.

Lemma inode_close_ok f i x :
  0 < i → inodes f !! i = Some x → open_cnt x = 1 → removed x = false →
  inode_close malloc_ok i f
  = Ok (tt, set_inodes (delete i (inodes f)) (set_open_inodes (filter (λ e, e ≠ i) (open_inodes f)) f)).
Proof.
  intros Hi E Ho Hr. unfold inode_close. destruct (Z.eqb_spec i NULL) as [->|_]; [unfold NULL in Hi; lia|].
  unfold get_inode, put_inode. run. rewrite E, Ho, Hr. simpl.
  by rewrite delete_insert_eq.
Qed.
End sectors.
End FreeMap.
