(* ===== verification/Directory.v ===== *)
(** * Directories

    A directory as the sequence of its slots: searching it for a name,
    finding a free slot, and writing a slot.  Memory is assumed to be
    there. *)
From stdpp Require Import base gmap list list_numbers.
From Stdlib Require Import ZArith Lia.
From S2P Require Import Prelude Bitmap Block Filesys FileIO FreeMap.

Module Directory.
Import Filesys FileIO FreeMap.

(** ** Slots *)

Definition slot_name (e : list Z) : option (list Z) := c_string (drop 4 e).
Definition valid_name (nm : list Z) : Prop :=
  nm ≠ [] ∧ Z.of_nat (List.length nm) ≤ NAME_MAX ∧ Forall (λ c, 0 < c < 256) nm.

(** The first slot in use with the given name, and its offset. *)
Fixpoint find_slot (nm : list Z) (l : list (list Z)) (k : Z) : option (list Z * Z) :=
  match l with
  | [] => None
  | e :: l => if entry_in_use e && bool_decide (slot_name e = Some nm) then Some (e, 20 * k)
              else find_slot nm l (k + 1)
  end.

Definition named (l : list (list Z)) : Prop :=
  Forall (λ e, entry_in_use e = true → is_Some (slot_name e)) l.

Lemma c_string_app nm rest : Forall (λ c, 0 < c < 256) nm → c_string (nm ++ 0 :: rest) = Some nm.
Proof.
  induction 1 as [|c nm Hc _ IH]; simpl; [done|]. destruct (Z.eqb_spec c 0); [lia|]. by rewrite IH.
Qed.

Lemma of_to_le n : 0 ≤ n < 2^32 → of_le (to_le n) = n.
Proof.
  intros Hn. unfold of_le, to_le, u8. rewrite !Z.shiftr_div_pow2 by lia. div_lia.
Qed.

(** The entry that [dir_add] makes. *)
Definition filled (e : list Z) (nm : list Z) (s : Z) : Prop :=
  List.length e = 20%nat ∧ Forall (λ c, 0 ≤ c < 256) e
  ∧ entry_in_use e = true ∧ slot_name e = Some nm ∧ entry_sector e = s.

Section fill.
Context {D : Type}.

Lemma split_entry (e : list Z) : List.length e = 20%nat →
  ∃ a b c, e = a ++ b ++ [c] ∧ List.length a = 4%nat ∧ List.length b = 15%nat.
Proof.
  intros Hl. exists (take 4 e), (take 15 (drop 4 e)). destruct (drop 19 e) as [|c [|? ?]] eqn:E.
  - apply (f_equal List.length) in E. rewrite length_drop, Hl in E. done.
  - exists c. split_and!.
    + rewrite <- E. change 19%nat with (4 + 15)%nat. by rewrite <- (drop_drop e 15 4), !take_drop.
    + by rewrite length_take, Hl.
    + by rewrite length_take, length_drop, Hl.
  - apply (f_equal List.length) in E. rewrite length_drop, Hl in E. simpl in E. lia.
Qed.

Lemma fill_entry_ok (f : fs D) e nm s (Q : list Z → fs D → Prop) :
  List.length e = 20%nat → Forall (λ c, 0 ≤ c < 256) e → valid_name nm → 0 ≤ s < 2^32 →
  (∀ e', filled e' nm s → Q e' f) → wp (fill_entry e nm s) Q f.
Proof.
  intros Hl Hb (_ & Hlen & Hnm) Hs HQ. unfold NAME_MAX in Hlen.
  destruct (split_entry e Hl) as (a & b & c & -> & Ha & Hb').
  unfold fill_entry. rewrite app_assoc.
  apply wp_bind, copy_to_at; [rewrite length_app; lia | done|]. simpl drop.
  rewrite <- !app_assoc. apply wp_bind.
  rewrite (take_ge nm) by lia. apply copy_to_at; [lia | rewrite !length_app; simpl; lia |].
  set (rest := drop _ _). change (a ++ (nm ++ [0]) ++ rest) with ([] ++ a ++ (nm ++ [0]) ++ rest).
  apply copy_to_at; [done | rewrite length_app; simpl; lia |]. rewrite app_nil_l, to_le_length.
  rewrite <- Ha, drop_app_length, <- app_assoc. apply HQ.
  assert (rest = drop (List.length nm + 1) b ++ [1]) as Hrest.
  { unfold rest. rewrite length_app. simpl. rewrite drop_app_le by lia. done. }
  rewrite Hrest. rewrite Forall_app in Hb. destruct Hb as [Hba Hbb]. rewrite Forall_app in Hbb. destruct Hbb as [Hbb _].
  split_and!.
  - rewrite !length_app, to_le_length, length_drop. simpl. lia.
  - apply Forall_app. split; [apply to_le_range|]. apply Forall_app. split; [eapply Forall_impl; [exact Hnm|]; simpl; lia|].
    apply Forall_cons. split; [lia|]. apply Forall_app. split; [by apply Forall_drop | repeat constructor; lia].
  - unfold entry_in_use.
    replace (to_le s ++ nm ++ [0] ++ drop (List.length nm + 1) b ++ [1])
      with ((to_le s ++ nm ++ [0] ++ drop (List.length nm + 1) b) ++ 1 :: []) by (by rewrite <- !app_assoc).
    rewrite list_lookup_middle; [done|]. rewrite !length_app, to_le_length, length_drop. simpl. lia.
  - unfold slot_name. rewrite drop_app_length' by done. by apply c_string_app.
  - unfold entry_sector. rewrite take_app_length' by done. by apply of_to_le.
Qed.
End fill.

Section directory.
Context {D : Type} `{BlockDevices D}.
Implicit Types f g : fs D.

Definition slot f (d : inode_disk) (k : Z) : list Z := bytes f (start d * 512 + 20 * k) 20.
Definition slots_from f (d : inode_disk) (k n : Z) : list (list Z) := slot f d <$> seqZ k (n - k).
Definition slots f (d : inode_disk) (n : Z) : list (list Z) := slots_from f d 0 n.

(** [a] is an open directory of [n] slots whose inode holds [d]. *)
Definition is_dir f (a : Z) (d : inode_disk) (n : Z) : Prop :=
  dev_ok f ∧ 0 < next f ∧ 0 < a ∧ 0 ≤ n ∧ length d = 20 * n
  ∧ ∃ y x, dirs f !! a = Some y ∧ inodes f !! d_inode y = Some x ∧ inode_ok f x ∧ deny_write_cnt x = 0 ∧ data x = d.

Lemma is_dir_frame f g a d n : frame f g → is_dir f a d n → is_dir g a d n.
Proof.
  intros Hf (Hd & Hn & Ha & Hn0 & Hl & y & x & Ey & Ex & Hx & Hdw & Hdx). pose proof Hf as (? & ? & ? & Hg).
  split_and!; [done | lia | done..|]. exists y, x. rewrite (inodes_frame _ _ Hf).
  assert (dirs g = dirs f) as -> by (by rewrite Hg). split_and!; try done. by eapply inode_ok_frame.
Qed.

Lemma is_dir_bound f a d n : is_dir f a d n →
  20 * n < 2^31 ∧ 0 ≤ start d ∧ start d * 512 + 20 * n ≤ dev_size f * 512.
Proof.
  intros (_ & _ & _ & _ & Hl & y & x & _ & _ & (? & ? & ?) & _ & <-). lia.
Qed.

Lemma slot_frame f g a d n k : is_dir f a d n → frame f g → patched f g 0 [] → 0 ≤ k < n →
  slot g d k = slot f d k.
Proof.
  intros Hdir Hf Hp Hk. destruct (is_dir_bound _ _ _ _ Hdir) as (? & ? & ?).
  apply patched_bytes; [by apply size_frame | lia | lia | done].
Qed.
Lemma slots_frame f g a d n k : is_dir f a d n → frame f g → patched f g 0 [] → 0 ≤ k →
  slots_from g d k n = slots_from f d k n.
Proof.
  intros Hdir Hf Hp Hk. unfold slots_from. apply list_fmap_ext. intros i z Hz.
  apply lookup_seqZ in Hz as [-> ?]. apply (slot_frame f g a d n); (done || lia).
Qed.

Lemma slots_cons f d k n : k < n → slots_from f d k n = slot f d k :: slots_from f d (k + 1) n.
Proof.
  intros Hk. unfold slots_from. rewrite seqZ_cons by lia. simpl. do 3 f_equal; lia.
Qed.
Lemma slots_nil f d n : slots_from f d n n = [].
Proof. unfold slots_from. by rewrite Z.sub_diag. Qed.
Lemma slots_lookup f d n k : 0 ≤ k < n → slots f d n !! Z.to_nat k = Some (slot f d k).
Proof.
  intros Hk. unfold slots, slots_from. rewrite list_lookup_fmap, lookup_seqZ_lt by lia. simpl. do 2 f_equal. lia.
Qed.
Lemma slots_length f d n : List.length (slots f d n) = Z.to_nat n.
Proof. unfold slots, slots_from. rewrite length_fmap, length_seqZ. lia. Qed.
Lemma slot_length f d k : List.length (slot f d k) = 20%nat.
Proof. apply bytes_length. Qed.

Lemma byte_range f a : dev_ok f → 0 ≤ byte f a < 256.
Proof.
  intros Hd. unfold byte. destruct (sec f (a / 512) !! _) as [c|] eqn:E; simpl; [|lia].
  eapply Forall_lookup_1 in E; [|by apply bd_bytes]. done.
Qed.
Lemma bytes_range f a n : dev_ok f → Forall (λ c, 0 ≤ c < 256) (bytes f a n).
Proof. intros Hd. apply Forall_fmap, Forall_forall. intros x _. by apply byte_range. Qed.

(** Writing a slot changes this slot only. *)
Lemma slots_write f g d n k e :
  0 ≤ start d → start d * 512 + 20 * n ≤ dev_size f * 512 → 0 ≤ k < n → List.length e = 20%nat → patched f g (start d * 512 + 20 * k) e →
  slots g d n = <[Z.to_nat k := e]> (slots f d n).
Proof.
  intros Hst Hend Hk He Hp. apply list_eq_same_length with (Z.to_nat n).
  - by rewrite length_insert, slots_length.
  - apply slots_length.
  - intros i u v Hi. replace i with (Z.to_nat (Z.of_nat i)) at 1 by lia. rewrite slots_lookup by lia. intros [= <-].
    assert (∀ j, 0 ≤ j < 20 → byte g (start d * 512 + 20 * Z.of_nat i + j) =
      if decide (Z.of_nat i = k) then default 0 (e !! Z.to_nat j) else byte f (start d * 512 + 20 * Z.of_nat i + j)) as Hb.
    { intros j Hj. rewrite Hp by lia. rewrite He. repeat case_decide; try lia; try done. do 2 f_equal. lia. }
    destruct (decide (Z.of_nat i = k)) as [Hik|Hik].
    + assert (<[Z.to_nat k := e]> (slots f d n) !! i = Some e) as ->.
      { replace i with (Z.to_nat k) by lia. apply list_lookup_insert_eq. rewrite slots_length. lia. }
      intros [= <-]. unfold slot. apply list_eq_same_length with 20%nat; [done | apply bytes_length|].
      intros j x y Hj. rewrite dev_bytes_lookup by lia. intros [= <-] Hy. rewrite Hb by lia. by rewrite Nat2Z.id, Hy.
    + rewrite list_lookup_insert_ne by lia. replace i with (Z.to_nat (Z.of_nat i)) at 1 by lia.
      rewrite slots_lookup by lia. intros [= <-]. apply bytes_ext. intros j Hj. by apply Hb.
Qed.
End directory.

Section search.
Context {D : Type} `{BlockDevices D}.
Context (malloc_ok : Z → bool) (Hmem : ∀ a, malloc_ok a = true).
Context (stack_bytes : list Z) (Hstack : List.length stack_bytes = 20%nat ∧ Forall (λ c, 0 ≤ c < 256) stack_bytes).
Implicit Types f g : fs D.

(** ** Searching *)

Lemma next_entry_ok f a d n k e :
  is_dir f a d n → 0 ≤ k ≤ n → List.length e = 20%nat →
  wp (next_entry malloc_ok a (20 * k) e)
    (λ r g, frame f g ∧ patched f g 0 []
       ∧ r = if decide (k < n) then (true, slot f d k) else (false, e)) f.
Proof.
  intros Hdir Hk He. pose proof (is_dir_bound _ _ _ _ Hdir) as (Hb & _).
  destruct Hdir as (Hd & Hn & Ha & _ & Hl & y & x & Ey & Ex & Hx & Hdw & <-).
  unfold next_entry. apply wp_bind. eapply wp_eq; [unfold get_dir; by rewrite Ey|].
  rewrite s32_small by lia. apply wp_bind. unfold ENTRY_SIZE.
  eapply wp_mono; [apply inode_read_at_ok; try done; lia|].
  intros [m buf] g (Hf & Hp & Hm & -> & Hall). simpl in Hm, Hall |- *. apply wp_ret. split_and!; [done..|].
  assert (m = avail x 20 (20 * k)) as ->.
  { destruct (decide (m < avail x 20 (20 * k))); [|lia]. destruct Hall as (b & _ & Hb'); [done..|].
    by rewrite Hmem in Hb'. }
  unfold avail in Hm |- *. case_decide.
  - replace (Z.max 0 (Z.min 20 (length (data x) - 20 * k))) with 20 by lia. f_equal.
    rewrite drop_ge by (rewrite He; done). apply app_nil_r.
  - replace (Z.max 0 (Z.min 20 (length (data x) - 20 * k))) with 0 by lia. done.
Qed.

Lemma entry_fuel_ok f a d n :
  is_dir f a d n → wp (entry_fuel a) (λ m g, g = f ∧ (Z.to_nat n < m)%nat) f.
Proof.
  intros (Hd & _ & _ & Hn & Hl & y & x & Ey & Ex & _ & _ & <-). unfold entry_fuel.
  apply wp_bind. eapply wp_eq; [unfold get_dir; by rewrite Ey|].
  apply wp_bind. unfold inode_length. apply wp_bind. eapply wp_eq; [unfold get_inode; by rewrite Ex|].
  apply wp_ret, wp_ret. split; [done|]. lia.
Qed.

Lemma lookup_ok f a d n nm :
  is_dir f a d n → named (slots f d n) →
  wp (lookup malloc_ok stack_bytes a nm)
    (λ r g, frame f g ∧ patched f g 0 [] ∧ r = find_slot nm (slots f d n) 0) f.
Proof.
  intros Hdir Hnamed. pose proof (is_dir_bound _ _ _ _ Hdir) as (Hb & _). pose proof Hdir as (Hd & _ & Ha & Hn & _).
  unfold lookup. apply wp_bind, wp_ASSERT; [unfold NULL; lia|].
  apply wp_bind. eapply wp_mono; [by apply (entry_fuel_ok f a d n)|]. intros m ? [-> Hm].
  apply (wp_loop (λ st g, frame f g ∧ patched f g 0 [] ∧ List.length st.1 = 20%nat ∧
      ∃ k, st.2 = 20 * k ∧ 0 ≤ k ≤ n ∧ find_slot nm (slots f d n) 0 = find_slot nm (slots_from f d k n) k)
    (λ st _, Z.to_nat (n - st.2 / 20))).
  - intros [e ofs] g (Hf & Hp & He & k & Hofs & Hk & Hfind). simpl in *. subst ofs.
    pose proof (is_dir_frame _ _ _ _ _ Hf Hdir) as Hdg.
    apply wp_bind. eapply wp_mono; [by apply (next_entry_ok g a d n k)|].
    intros r g' (Hf' & Hp' & ->). assert (frame f g') as Hff by by eapply frame_trans.
    assert (patched f g' 0 []) as Hpp by (apply (patched_id_trans f g); [by apply size_frame | done..]).
    case_decide as Hlt; simpl.
    2: { apply wp_ret. split_and!; [done..|]. rewrite Hfind. replace k with n by lia. by rewrite slots_nil. }
    rewrite (slot_frame f g a d n k) by (done || lia). rewrite (slots_cons f d k n Hlt) in Hfind. simpl in Hfind.
    assert (∀ b : bool, b = false → find_slot nm (slots f d n) 0 = (if b then Some (slot f d k, 20 * k) else find_slot nm (slots_from f d (k + 1) n) (k + 1)) →
      wp (mret (inl (slot f d k, u32 (20 * k + ENTRY_SIZE)))) (λ (x : list Z * Z + option (list Z * Z)) s', match x with
        | inl a' => (frame f s' ∧ patched f s' 0 [] ∧ List.length a'.1 = 20%nat ∧ ∃ k0, a'.2 = 20 * k0 ∧ 0 <= k0 <= n
            ∧ find_slot nm (slots f d n) 0 = find_slot nm (slots_from f d k0 n) k0)
            ∧ (Z.to_nat (n - a'.2 / 20) < Z.to_nat (n - 20 * k / 20))%nat
        | inr r => frame f s' ∧ patched f s' 0 [] ∧ r = find_slot nm (slots f d n) 0 end) g') as Hnext.
    { intros b -> Hb'. apply wp_ret. simpl. unfold ENTRY_SIZE. rewrite u32_small by lia.
      replace (20 * k + 20) with (20 * (k + 1)) by lia. split; [|rewrite !(Z.mul_comm 20), !Z.div_mul by lia; lia].
      split_and!; [done | done | by rewrite ?slot_length |]. exists (k + 1). split_and!; [done | lia | lia | done]. }
    destruct (entry_in_use (slot f d k)) eqn:Huse; [|by apply (Hnext false)].
    assert (is_Some (slot_name (slot f d k))) as [nm' Hnm'].
    { eapply Forall_lookup_1 in Hnamed; [by apply Hnamed|]. apply slots_lookup. lia. }
    apply wp_bind. unfold entry_name. eapply wp_of_option; [exact Hnm'|].
    rewrite Hnm' in Hfind. simpl in Hfind. destruct (decide (nm = nm')) as [->|Hne].
    + rewrite bool_decide_eq_true_2 in Hfind by done. rewrite bool_decide_eq_true_2 by done. by apply wp_ret.
    + rewrite bool_decide_eq_false_2 in Hfind by congruence. rewrite bool_decide_eq_false_2 by done.
      by apply (Hnext false).
  - simpl. destruct Hstack as [Hst _]. split_and!; [by apply frame_refl | apply patched_nil | done|].
    exists 0. split_and!; [done | lia | lia | done].
  - simpl. rewrite Z.sub_0_r. done.
Qed.

(** The offset of the first slot that is free, or of the end. *)
Lemma free_slot_ok f a d n m :
  is_dir f a d n → (Z.to_nat n < m)%nat →
  wp (loop m (free_slot_step malloc_ok a) (stack_bytes, 0))
    (λ r g, frame f g ∧ patched f g 0 [] ∧ List.length r.1 = 20%nat ∧ Forall (λ c, 0 ≤ c < 256) r.1 ∧
       ∃ k, r.2 = 20 * k ∧ 0 ≤ k ≤ n ∧ (k < n → entry_in_use (slot f d k) = false)
         ∧ ∀ j, 0 ≤ j < k → entry_in_use (slot f d j) = true) f.
Proof.
  intros Hdir Hm. pose proof (is_dir_bound _ _ _ _ Hdir) as (Hb & _). pose proof Hdir as (Hd & _ & Ha & Hn & _).
  apply (wp_loop (λ st g, frame f g ∧ patched f g 0 [] ∧ List.length st.1 = 20%nat ∧ Forall (λ c, 0 ≤ c < 256) st.1 ∧
      ∃ k, st.2 = 20 * k ∧ 0 ≤ k ≤ n ∧ ∀ j, 0 ≤ j < k → entry_in_use (slot f d j) = true)
    (λ st _, Z.to_nat (n - st.2 / 20))).
  - intros [e ofs] g (Hf & Hp & He & Heb & k & Hofs & Hk & Hused). simpl in *. subst ofs.
    pose proof (is_dir_frame _ _ _ _ _ Hf Hdir) as Hdg.
    apply wp_bind. eapply wp_mono; [by apply (next_entry_ok g a d n k)|].
    intros r g' (Hf' & Hp' & ->). assert (frame f g') as Hff by by eapply frame_trans.
    assert (patched f g' 0 []) as Hpp by (apply (patched_id_trans f g); [by apply size_frame | done..]).
    case_decide as Hlt; simpl.
    2: { apply wp_ret. simpl. split_and!; [done..|]. exists k. split_and!; (done || lia). }
    rewrite (slot_frame f g a d n k) by (done || lia).
    destruct (entry_in_use (slot f d k)) eqn:Huse; simpl; apply wp_ret; simpl.
    + unfold ENTRY_SIZE. rewrite s32_small by lia. replace (20 * k + 20) with (20 * (k + 1)) by lia.
      split; [|rewrite !(Z.mul_comm 20), !Z.div_mul by lia; lia].
      split_and!; [done | done | by rewrite ?slot_length | by apply bytes_range |].
      exists (k + 1). split_and!; [done | lia | lia |]. intros j Hj.
      destruct (decide (j = k)) as [->|]; [done|]. apply Hused. lia.
    + split_and!; [done | done | by rewrite ?slot_length | by apply bytes_range |]. exists k. split_and!; (done || lia).
  - destruct Hstack. split_and!; [by apply frame_refl | apply patched_nil | done | done |].
    exists 0. split_and!; (done || lia).
  - simpl. rewrite Z.sub_0_r. done.
Qed.

(** ** Adding an entry *)

Lemma write_slot f a d n k e :
  is_dir f a d n → 0 ≤ k ≤ n → List.length e = 20%nat → Forall (λ c, 0 ≤ c < 256) e →
  ∃ y, dirs f !! a = Some y ∧
  wp (inode_write_at malloc_ok (d_inode y) e ENTRY_SIZE (20 * k))
    (λ m g, frame f g ∧ if decide (k < n) then m = 20 ∧ patched f g (start d * 512 + 20 * k) e
                        else m = 0 ∧ patched f g 0 []) f.
Proof.
  intros Hdir Hk He Heb. pose proof (is_dir_bound _ _ _ _ Hdir) as (Hb & _).
  destruct Hdir as (Hd & Hn & Ha & _ & Hl & y & x & Ey & Ex & Hx & Hdw & <-). exists y. split; [done|].
  unfold ENTRY_SIZE. eapply wp_mono; [apply inode_write_at_ok; try done; lia|].
  intros m g (Hf & Hm & Hp & Hall). split; [done|].
  assert (m = avail x 20 (20 * k)) as ->.
  { destruct (decide (m < avail x 20 (20 * k))); [|lia]. destruct Hall as (b & _ & Hb'); [done..|].
    by rewrite Hmem in Hb'. }
  unfold avail in Hp |- *. case_decide.
  - replace (Z.max 0 (Z.min 20 (length (data x) - 20 * k))) with 20 in Hp |- * by lia. split; [done|].
    by rewrite take_ge in Hp by (rewrite He; done).
  - replace (Z.max 0 (Z.min 20 (length (data x) - 20 * k))) with 0 in Hp |- * by lia. split; [done|].
    intros p Hr. rewrite Hp by done. by rewrite !decide_False by (simpl; lia).
Qed.

Lemma dir_add_ok f a d n nm s :
  is_dir f a d n → named (slots f d n) → Forall (λ c, 0 < c < 256) nm → 0 ≤ s < 2^32 →
  wp (dir_add malloc_ok stack_bytes a nm s)
    (λ (ok : bool) g, frame f g ∧
       if ok then valid_name nm ∧ find_slot nm (slots f d n) 0 = None
         ∧ ∃ k e, 0 ≤ k < n ∧ entry_in_use (slot f d k) = false ∧ filled e nm s
             ∧ patched f g (start d * 512 + 20 * k) e
       else patched f g 0 [] ∧ (valid_name nm → find_slot nm (slots f d n) 0 = None →
              ∀ k, 0 ≤ k < n → entry_in_use (slot f d k) = true)) f.
Proof.
  intros Hdir Hnamed Hnm Hs. pose proof Hdir as (Hd & _ & Ha & Hn & _).
  unfold dir_add. apply wp_bind, wp_ASSERT; [unfold NULL; lia|].
  destruct (bool_decide (nm = []) || (NAME_MAX <? Z.of_nat (List.length nm))) eqn:Hbad.
  { apply wp_ret. split_and!; [by apply frame_refl | apply patched_nil |]. intros (Hne & Hle & _).
    rewrite bool_decide_eq_false_2 in Hbad by done. simpl in Hbad. lia. }
  apply orb_false_iff in Hbad as [Hne%bool_decide_eq_false Hle].
  assert (valid_name nm) as Hv by (split_and!; [done | lia | done]).
  apply wp_bind. eapply wp_mono; [by apply (lookup_ok f a d n)|]. intros r g (Hf & Hp & ->).
  destruct (find_slot nm (slots f d n) 0) as [?|] eqn:Hfind.
  { apply wp_ret. split_and!; [done | done | done]. }
  pose proof (is_dir_frame _ _ _ _ _ Hf Hdir) as Hdg. pose proof (size_frame _ _ Hf) as Hsg.
  apply wp_bind. eapply wp_mono; [by apply (entry_fuel_ok g a d n)|]. intros m ? [-> Hm].
  apply wp_bind. eapply wp_mono; [by apply (free_slot_ok g a d n)|].
  intros [e ofs] h (Hfh & Hph & He & Heb & k & Hofs & Hk & Hfree & Hused). simpl in *. subst ofs.
  pose proof (is_dir_frame _ _ _ _ _ Hfh Hdg) as Hdh.
  apply wp_bind, fill_entry_ok; [done..|]. intros e' Hfill. pose proof Hfill as (He' & Heb' & _).
  destruct (write_slot h a d n k e' Hdh Hk He' Heb') as (y & Ey & Hw).
  apply wp_bind. eapply wp_eq; [unfold get_dir; by rewrite Ey|]. apply wp_bind.
  eapply wp_mono; [exact Hw|]. intros w t [Hft Hpt]. apply wp_ret.
  assert (frame f h) as Hfh' by by apply (frame_trans f g).
  assert (patched f h 0 []) as Hph' by (by apply (patched_id_trans f g)).
  assert (frame f t) as Hft' by by apply (frame_trans f h). split; [done|].
  assert (∀ j, 0 ≤ j < n → slot g d j = slot f d j) as Hsl by (intros j Hj; by apply (slot_frame f g a d n)).
  case_decide as Hlt; destruct Hpt as [-> Hpt]; simpl.
  - split_and!; [done..|]. exists k, e'. rewrite <- Hsl by lia. split_and!; [lia | lia | by apply Hfree | done |].
    by apply (patched_id_trans f h); [apply size_frame | |].
  - split; [by apply (patched_id_trans f h); [apply size_frame | |]|]. intros _ _ j Hj. rewrite <- Hsl by lia. apply Hused. lia.
Qed.
End search.
End Directory.
