(* ===== verification/FilesysInv.v ===== *)
(** * The invariant of the file system

    Which inodes are on the device, that no two of them share a sector and
    all their sectors are taken in the free map; the directory as a map from
    names to inodes; and the file system as a map from names to contents. *)
From stdpp Require Import base gmap list list_numbers.
From Stdlib Require Import ZArith Lia.
From S2P Require Import Prelude Bitmap Block Filesys FileIO FreeMap Directory.

Module FilesysInv.
Import Filesys FileIO FreeMap Directory.

(** ** Encoding of inodes *)

Lemma disk_bytes_roundtrip d :
  0 ≤ start d < 2^32 → 0 ≤ length d < 2^31 → 0 ≤ magic d < 2^32 → disk_of_bytes (disk_bytes d) = d.
Proof.
  destruct d as [st len mg un]. simpl. intros Hst Hlen Hmg.
  change (mk_inode_disk (of_le (to_le st)) (s32 (of_le (to_le len))) (of_le (to_le mg)) un
          = mk_inode_disk st len mg un).
  rewrite !of_to_le by lia. by rewrite s32_small by lia.
Qed.

(** ** The directory as a map from names to sectors *)

Definition slots_ok (ss : list (list Z)) (T : gmap (list Z) Z) : Prop :=
  (∀ k e, ss !! k = Some e → entry_in_use e = true →
     ∃ nm, slot_name e = Some nm ∧ valid_name nm ∧ T !! nm = Some (entry_sector e))
  ∧ (∀ nm s, T !! nm = Some s →
       ∃ k e, ss !! k = Some e ∧ entry_in_use e = true ∧ slot_name e = Some nm ∧ entry_sector e = s)
  ∧ ∀ k k' e e', ss !! k = Some e → ss !! k' = Some e' → entry_in_use e = true → entry_in_use e' = true →
      slot_name e = slot_name e' → k = k'.

Lemma slots_ok_named ss T : slots_ok ss T → named ss.
Proof.
  intros (H1 & _). apply Forall_lookup. intros k e He Hu. destruct (H1 _ _ He Hu) as (nm & Hnm & _). eauto.
Qed.

Lemma find_slot_Some nm l k e o :
  find_slot nm l k = Some (e, o) →
  ∃ j, l !! j = Some e ∧ o = 20 * (k + Z.of_nat j) ∧ entry_in_use e = true ∧ slot_name e = Some nm.
Proof.
  revert k. induction l as [|x l IH]; intros k; [done|]. simpl. destruct (entry_in_use x && _) eqn:E.
  - intros [= -> <-]. apply andb_true_iff in E as [? ?%bool_decide_eq_true]. exists 0%nat. split_and!; [done | lia | done | done].
  - intros Hf. destruct (IH _ Hf) as (j & ? & -> & ? & ?). exists (Datatypes.S j). split_and!; [done | lia | done | done].
Qed.
Lemma find_slot_None nm l k j e :
  find_slot nm l k = None → l !! j = Some e → entry_in_use e = true → slot_name e ≠ Some nm.
Proof.
  revert k j. induction l as [|x l IH]; intros k j; [done|]. simpl. destruct (entry_in_use x && _) eqn:E; [done|].
  intros Hf. destruct j as [|j]; simpl; [|by apply (IH (k + 1))]. intros [= ->] Hu Hn.
  rewrite Hu, Hn, bool_decide_eq_true_2 in E; done.
Qed.

Lemma find_slot_map ss T nm :
  slots_ok ss T →
  match T !! nm with
  | Some s => ∃ k e, find_slot nm ss 0 = Some (e, 20 * Z.of_nat k) ∧ ss !! k = Some e ∧ entry_in_use e = true
      ∧ slot_name e = Some nm ∧ entry_sector e = s
  | None => find_slot nm ss 0 = None
  end.
Proof.
  intros (H1 & H2 & H3). destruct (find_slot nm ss 0) as [[e o]|] eqn:Hf.
  - apply find_slot_Some in Hf as (j & Hj & -> & Hu & Hn).
    destruct (H1 _ _ Hj Hu) as (nm' & Hnm' & _ & HT). rewrite Hn in Hnm'. injection Hnm' as <-. rewrite HT.
    exists j, e. done.
  - destruct (T !! nm) as [s|] eqn:HT; [|done]. destruct (H2 _ _ HT) as (k & e & Hk & Hu & Hn & _).
    by destruct (find_slot_None _ _ _ _ _ Hf Hk Hu).
Qed.

Lemma slots_ok_insert ss T k e0 e nm s :
  slots_ok ss T → ss !! k = Some e0 → entry_in_use e0 = false → filled e nm s → valid_name nm → T !! nm = None →
  slots_ok (<[k := e]> ss) (<[nm := s]> T).
Proof.
  intros (H1 & H2 & H3) Hk Hfree (_ & _ & Hu & Hn & Hs) Hv HT.
  assert (∀ j x, <[k := e]> ss !! j = Some x → (j = k ∧ x = e) ∨ (j ≠ k ∧ ss !! j = Some x)) as Hins.
  { intros j x. rewrite list_lookup_insert_Some. intros [(<- & <- & _)|[Hne Hj]]; [by left | by right]. }
  assert (∀ j x, ss !! j = Some x → entry_in_use x = true → slot_name x ≠ Some nm) as Hother.
  { intros j x Hj Hux Hnx. destruct (H1 _ _ Hj Hux) as (nm' & Hnm' & _ & HT'). congruence. }
  split_and!.
  - intros j x [[-> ->]|[Hne Hj]]%Hins Hux.
    + exists nm. rewrite lookup_insert_eq, Hs. done.
    + destruct (H1 _ _ Hj Hux) as (nm' & Hnm' & Hv' & HT'). exists nm'. rewrite lookup_insert_ne; [done|].
      intros ->. congruence.
  - intros nm' s' HT'. lookups.
    + exists k, e. rewrite list_lookup_insert_eq by (by eapply lookup_lt_Some). done.
    + destruct (H2 _ _ HT') as (j & x & Hj & Hux & Hrest). exists j, x.
      rewrite list_lookup_insert_ne; [done|]. intros ->. congruence.
  - intros j j' x x' [[-> ->]|[Hne Hj]]%Hins [[-> ->]|[Hne' Hj']]%Hins Hux Hux' Heq; [done| | |by eapply H3].
    + by destruct (Hother _ _ Hj' Hux'); rewrite <- Heq.
    + by destruct (Hother _ _ Hj Hux); rewrite Heq.
Qed.

Lemma slots_ok_delete ss T k e e' nm :
  slots_ok ss T → ss !! k = Some e → entry_in_use e = true → slot_name e = Some nm → entry_in_use e' = false →
  slots_ok (<[k := e']> ss) (delete nm T).
Proof.
  intros (H1 & H2 & H3) Hk Hu Hn Hu'.
  assert (∀ j x, <[k := e']> ss !! j = Some x → entry_in_use x = true → j ≠ k ∧ ss !! j = Some x) as Hins.
  { intros j x. rewrite list_lookup_insert_Some. intros [(<- & <- & _)|[Hne Hj]] Hux; [congruence | done]. }
  split_and!.
  - intros j x Hj Hux. destruct (Hins _ _ Hj Hux) as [Hne Hj']. destruct (H1 _ _ Hj' Hux) as (nm' & Hnm' & Hv' & HT').
    exists nm'. rewrite lookup_delete_ne; [done|]. intros ->. apply Hne. by eapply H3; [exact Hj' | exact Hk | | | congruence].
  - intros nm' s' [Hne HT']%lookup_delete_Some. destruct (H2 _ _ HT') as (j & x & Hj & Hux & Hnx & Hsx).
    exists j, x. rewrite list_lookup_insert_ne; [done|]. intros ->. congruence.
  - intros j j' x x' Hj Hj' Hux Hux' Heq.
    destruct (Hins _ _ Hj Hux) as [_ ?]. destruct (Hins _ _ Hj' Hux') as [_ ?]. by eapply H3.
Qed.

(** A directory without a free slot has as many names as slots. *)
Lemma slots_ok_full ss T :
  slots_ok ss T → (∀ k e, ss !! k = Some e → entry_in_use e = true) → (List.length ss ≤ size T)%nat.
Proof.
  intros (H1 & _ & H3) Hall. rewrite <- size_dom.
  set (names := (λ e, default [] (slot_name e)) <$> ss).
  assert (NoDup names) as Hnd.
  { apply NoDup_alt. intros i j x. unfold names. rewrite !list_lookup_fmap.
    destruct (ss !! i) as [e|] eqn:Ei, (ss !! j) as [e'|] eqn:Ej; simpl; try done. intros [= Hx] [= Hy].
    destruct (H1 _ _ Ei (Hall _ _ Ei)) as (n1 & Hn1 & _). destruct (H1 _ _ Ej (Hall _ _ Ej)) as (n2 & Hn2 & _).
    rewrite Hn1 in Hx. rewrite Hn2 in Hy. simpl in *. apply (H3 i j e e'); eauto. congruence. }
  rewrite <- (length_fmap (λ e, default [] (slot_name e)) ss). fold names.
  rewrite <- (size_list_to_set (C := gset (list Z)) names Hnd). apply subseteq_size.
  intros x. rewrite elem_of_list_to_set, elem_of_dom. unfold names. intros (e & -> & He)%list_elem_of_fmap.
  apply list_elem_of_lookup in He as [k Hk]. destruct (H1 _ _ Hk (Hall _ _ Hk)) as (nm & -> & _ & HT). by eexists.
Qed.

Section inv.
Context {D : Type} `{BlockDevices D}.
Implicit Types f g : fs D.

(** ** Sectors and who owns them *)

Definition nsec (d : inode_disk) : Z := bytes_to_sectors (length d).
Definition own (s : Z) (d : inode_disk) (t : Z) : Prop := t = s ∨ start d ≤ t < start d + nsec d.

Definition node_ok f (fm : Bitmap.bitmap) (s : Z) (d : inode_disk) : Prop :=
  0 ≤ s < dev_size f ∧ disk_of_bytes (sec f s) = d ∧ 0 ≤ start d ∧ 0 ≤ length d < 2^31 - 512
  ∧ start d + nsec d ≤ dev_size f ∧ ¬ start d ≤ s < start d + nsec d
  ∧ ∀ t, own s d t → Bitmap.bit fm t = true.

(** The inodes [N] on the device, by sector. *)
Definition disk_inv f (fm : Bitmap.bitmap) (N : gmap Z inode_disk) : Prop :=
  dev_ok f ∧ Bitmap.wf fm ∧ Bitmap.bit_cnt fm = dev_size f
  ∧ (∀ s d, N !! s = Some d → node_ok f fm s d)
  ∧ ∀ s d s' d' t, N !! s = Some d → N !! s' = Some d' → own s d t → own s' d' t → s = s'.

(** Only bytes of the sectors in [U] differ. *)
Definition touch (U : Z → Prop) f g : Prop := only (λ p, U (p / 512)) f g.

Lemma nsec_bound d : 0 ≤ length d < 2^31 - 512 → 0 ≤ nsec d < 2^23 ∧ length d ≤ nsec d * 512.
Proof. intros Hl. destruct (bytes_to_sectors_eq _ Hl) as (_ & ? & ?). done. Qed.

(** The sectors of the data of an inode. *)
Definition dat (d : inode_disk) (t : Z) : Prop := start d ≤ t < start d + nsec d.

Lemma touch_data d f g : 0 ≤ length d < 2^31 - 512 → only (in_data d) f g → touch (dat d) f g.
Proof.
  intros Hl. apply only_mono. intros p Hp. destruct (nsec_bound d Hl). unfold in_data, dat in *. div_lia.
Qed.

Lemma touch_mono (U V : Z → Prop) f g : (∀ t, U t → V t) → touch U f g → touch V f g.
Proof. intros HU. apply only_mono. intros p. apply HU. Qed.
Lemma touch_trans U f g h : dev_size g = dev_size f → touch U f g → touch U g h → touch U f h.
Proof. apply only_trans. Qed.
Lemma touch_patched f g s o x :
  0 ≤ o → o + Z.of_nat (List.length x) ≤ 512 → patched f g (s * 512 + o) x → touch (λ t, t = s) f g.
Proof. intros Ho Hl Hp. apply only_patched in Hp. eapply only_mono; [|exact Hp]. simpl. intros p. div_lia. Qed.

Lemma touch_sec U f g s :
  touch U f g → dev_ok f → dev_ok g → dev_size g = dev_size f → 0 ≤ s < dev_size f → ¬ U s → sec g s = sec f s.
Proof.
  intros Ht Hf Hg Hs Hr HU. eapply only_sec; [exact Ht | done..|]. intros i Hi.
  cbv beta. by replace ((s * 512 + i) / 512) with s by div_lia.
Qed.

Definition contents f (d : inode_disk) : list Z := bytes f (start d * 512) (length d).

Lemma touch_contents U f g fm s d :
  touch U f g → dev_size g = dev_size f → node_ok f fm s d → (∀ t, own s d t → ¬ U t) → contents g d = contents f d.
Proof.
  intros Ht Hs (_ & _ & Hst & Hl & Hend & _) HU. destruct (nsec_bound d Hl).
  eapply only_bytes; [exact Ht | done | lia | lia |]. intros i Hi. apply HU. right. div_lia.
Qed.

(** A change outside the inodes on the device, which keeps their sectors
    taken. *)
Lemma disk_inv_change U f g fm fm' N :
  disk_inv f fm N → dev_ok g → dev_size g = dev_size f → touch U f g → (∀ s d, N !! s = Some d → ¬ U s) →
  Bitmap.wf fm' → Bitmap.bit_cnt fm' = Bitmap.bit_cnt fm →
  (∀ s d t, N !! s = Some d → own s d t → Bitmap.bit fm' t = true) → disk_inv g fm' N.
Proof.
  intros (Hd & Hwf & Hcnt & Hn & Hdis) Hdg Hsg Ht HU Hwf' Hcnt' Hbit. split_and!; [done | done | congruence | | done].
  intros s d Hs. destruct (Hn s d Hs) as (? & Hsec & ? & ? & ? & ? & Hb). unfold node_ok. rewrite Hsg.
  rewrite (touch_sec U f g s) by (done || by eapply HU). split_and!; try done; try lia. intros t. by eapply Hbit.
Qed.

(** Sectors of one inode are not sectors of another. *)
Lemma disk_inv_disjoint f fm N s d s' d' t :
  disk_inv f fm N → N !! s = Some d → N !! s' = Some d' → s ≠ s' → own s d t → ¬ own s' d' t.
Proof. intros (_ & _ & _ & _ & Hdis) Hs Hs' Hne Ho Ho'. by apply Hne, (Hdis s d s' d' t). Qed.

(** The sectors of an inode and those that are free. *)
Lemma disk_inv_free f fm N s d t : disk_inv f fm N → N !! s = Some d → own s d t → Bitmap.bit fm t = true.
Proof. intros (_ & _ & _ & Hn & _) Hs. apply Hn in Hs as (_ & _ & _ & _ & _ & _ & Hb). apply Hb. Qed.

(** A new inode in sectors that were free. *)
Lemma disk_inv_insert f fm fm0 N s d :
  disk_inv f fm0 N → (∀ s' d' t, N !! s' = Some d' → own s' d' t → Bitmap.bit fm t = true) →
  Bitmap.wf fm → Bitmap.bit_cnt fm = dev_size f →
  node_ok f fm s d → (∀ s' d' t, N !! s' = Some d' → own s' d' t → ¬ own s d t) →
  disk_inv f fm (<[s := d]> N).
Proof.
  intros (Hd & Hwf & Hcnt & Hn & Hdis) Hbit Hwf' Hcnt' Hnode Hnew. split_and!; [done..| |].
  - intros s' d' Hs'. lookups; [done|]. destruct (Hn _ _ Hs') as (? & ? & ? & ? & ? & ? & _).
    split_and!; try done; try lia. intros t. by eapply Hbit.
  - intros s1 d1 s2 d2 t H1 H2 Ho1 Ho2. lookups; [done | | |].
    + by destruct (Hnew _ _ _ H1 Ho1).
    + by destruct (Hnew _ _ _ H2 Ho2).
    + by eapply Hdis.
Qed.

Lemma disk_inv_delete f fm N s : disk_inv f fm N → disk_inv f fm (delete s N).
Proof.
  intros (Hd & Hwf & Hcnt & Hn & Hdis). split_and!; [done..| |].
  - intros s' d' [_ Hs']%lookup_delete_Some. by apply Hn.
  - intros s1 d1 s2 d2 t [_ H1]%lookup_delete_Some [_ H2]%lookup_delete_Some. by apply (Hdis s1 d1 s2 d2).
Qed.

(** ** The file system as a map from names to contents *)

(** Inode 0 holds the free map, inode 1 the directory of 16 slots; [T] maps
    the names to the sectors of their inodes. *)
Definition tree f (N : gmap Z inode_disk) (md rd : inode_disk) (T : gmap (list Z) Z) : Prop :=
  N !! 0 = Some md ∧ length md = Bitmap.byte_cnt (dev_size f) ∧ N !! 1 = Some rd ∧ length rd = 320
  ∧ slots_ok (slots f rd 16) T
  ∧ (∀ nm nm' s, T !! nm = Some s → T !! nm' = Some s → nm = nm')
  ∧ ∀ nm s, T !! nm = Some s → s ≠ 0 ∧ s ≠ 1 ∧ is_Some (N !! s).

Definition view f (N : gmap Z inode_disk) (T : gmap (list Z) Z) (m : gmap (list Z) (list Z)) : Prop :=
  ∀ nm, m !! nm = s ← T !! nm; contents f <$> N !! s.

(** Everything about the device. *)
Definition stored f fm N md rd T m : Prop := disk_inv f fm N ∧ tree f N md rd T ∧ view f N T m.

Lemma stored_node f fm N md rd T m s d : stored f fm N md rd T m → N !! s = Some d → node_ok f fm s d.
Proof. intros ((_ & _ & _ & Hn & _) & _). apply Hn. Qed.

Lemma slots_touch U f g fm d n :
  touch U f g → dev_size g = dev_size f → node_ok f fm 1 d → length d = 20 * n → 0 ≤ n →
  (∀ t, own 1 d t → ¬ U t) → slots g d n = slots f d n.
Proof.
  intros Ht Hs (_ & _ & Hst & Hl & Hend & _) Hlen Hn HU. destruct (nsec_bound d Hl).
  unfold slots, slots_from. apply list_fmap_ext. intros i z Hz. apply lookup_seqZ in Hz as [-> ?].
  eapply only_bytes; [exact Ht | done | lia | lia |]. intros j Hj. apply HU. right. div_lia.
Qed.

(** A change of free sectors and of the file that holds the free map. *)
Lemma stored_change U f g fm fm' N md rd T m :
  stored f fm N md rd T m → dev_ok g → dev_size g = dev_size f → touch U f g →
  (∀ s d t, N !! s = Some d → own s d t → U t → s = 0 ∧ t ≠ 0) →
  Bitmap.wf fm' → Bitmap.bit_cnt fm' = Bitmap.bit_cnt fm →
  (∀ s d t, N !! s = Some d → own s d t → Bitmap.bit fm' t = true) →
  stored g fm' N md rd T m.
Proof.
  intros (Hi & Ht & Hv) Hdg Hsg Hto HU Hwf Hcnt Hbit. pose proof Hi as (_ & _ & _ & Hn & _).
  destruct Ht as (H0 & Hl0 & H1 & Hl1 & Hss & Hinj & HT). split_and!.
  - apply (disk_inv_change U f g fm); try done. intros s d Hs Hu.
    by destruct (HU s d s Hs (or_introl eq_refl) Hu) as [-> ?].
  - split_and!; [done | by rewrite Hsg | done | done | | done | done].
    rewrite (slots_touch U f g fm rd 16); try done; [by apply Hn|]. intros t Ho Hu.
    by destruct (HU _ _ _ H1 Ho Hu).
  - intros nm. rewrite Hv. destruct (T !! nm) as [s|] eqn:ET; [|done]. simpl.
    destruct (HT _ _ ET) as (Hs0 & _ & [d Hd]). rewrite Hd. simpl. f_equal. symmetry.
    apply (touch_contents U f g fm s); [done | done | by apply Hn |]. intros t Ho Hu.
    by destruct (HU _ _ _ Hd Ho Hu).
Qed.

(** A change of one slot of the directory. *)
Lemma stored_slot f g fm N md rd T m k e :
  stored f fm N md rd T m → frame f g → 0 ≤ k < 16 → List.length e = 20%nat →
  patched f g (start rd * 512 + 20 * k) e →
  disk_inv g fm N ∧ slots g rd 16 = <[Z.to_nat k := e]> (slots f rd 16)
  ∧ (∀ s d, N !! s = Some d → s ≠ 1 → contents g d = contents f d) ∧ touch (dat rd) f g.
Proof.
  intros (Hi & Ht & Hv) Hf Hk He Hp. pose proof Hi as (_ & Hwf & Hcnt & Hn & _).
  destruct Ht as (H0 & Hl0 & H1 & Hl1 & _). pose proof (Hn _ _ H1) as (_ & _ & Hst & Hl & Hend & Hself & _).
  destruct (nsec_bound rd Hl). pose proof (size_frame _ _ Hf) as Hsg.
  assert (touch (dat rd) f g) as Hto.
  { apply touch_data; [done|]. apply only_patched in Hp. eapply only_mono; [|exact Hp].
    unfold in_data. intros p. rewrite He. lia. }
  split_and!.
  - apply (disk_inv_change (dat rd) f g fm); try done; [by eapply frame_ok | |by intros s d t Hs; apply (disk_inv_free f fm N s d)].
    intros s d Hs Hdat. destruct (decide (s = 1)) as [->|Hne].
    + by apply Hself.
    + eapply (disk_inv_disjoint f fm N s d 1 rd s); try done; [by left | by right].
  - apply slots_write; (done || lia).
  - intros s d Hs Hne. apply (touch_contents (dat rd) f g fm s); [done | done | by apply Hn |].
    intros t Ho Hdat. by apply (disk_inv_disjoint f fm N s d 1 rd t); [..|right].
  - done.
Qed.
End inv.
End FilesysInv.
