(* ===== verification/FilesysOps.v ===== *)
(** * Files by name

    [filesys_create], [filesys_remove], [filesys_open] and the transfers on an
    open file keep the invariant of the file FilesysInv and act on the map
    from names to contents as their names say. *)
From stdpp Require Import base gmap list list_numbers.
From Stdlib Require Import ZArith Lia.
From S2P Require Import Prelude Bitmap Block Filesys FileIO FreeMap Directory FilesysInv.

Module FilesysOps.
Import Filesys FileIO FreeMap Directory FilesysInv.

Section states.
Context {D : Type} `{BlockDevices D}.
Implicit Types f g : fs D.

(** ** States of the memory *)

Definition map_inode (md : inode_disk) : inode := mk_inode 0 1 false 0 md.
Definition root_inode (rd : inode_disk) : inode := mk_inode 1 1 false 0 rd.

(** Only the free map is open. *)
Definition at_rest f (fi ff : Z) (md : inode_disk) : Prop :=
  inodes f = {[ fi := map_inode md ]} ∧ open_inodes f = [fi] ∧ files f = {[ ff := mk_file fi 0 false ]}
  ∧ dirs f = ∅ ∧ free_map_file f = ff ∧ 0 < fi < next f ∧ 0 < ff < next f.

(** The root directory is open, too, as directory [a] with inode [i]. *)
Definition with_root f (fi ff : Z) (md rd : inode_disk) (i a : Z) : Prop :=
  inodes f = <[i := root_inode rd]> {[ fi := map_inode md ]} ∧ open_inodes f = [i; fi]
  ∧ files f = {[ ff := mk_file fi 0 false ]} ∧ dirs f = {[ a := mk_dir i 0 ]} ∧ free_map_file f = ff
  ∧ 0 < fi < next f ∧ 0 < ff < next f ∧ 0 < i < next f ∧ 0 < a < next f ∧ i ≠ fi.

Definition base f (md : inode_disk) : Prop :=
  0 < next f ∧ 0 < free_map_file f ∧ ∃ fi, files f !! free_map_file f = Some (mk_file fi 0 false)
    ∧ inodes f !! fi = Some (map_inode md).

Lemma at_rest_base f fi ff md : at_rest f fi ff md → base f md.
Proof.
  intros (Hi & _ & Hf & _ & Hm & ? & ?). unfold base. rewrite Hi, Hf, Hm. split_and!; [lia | lia |].
  exists fi. by rewrite !lookup_singleton_eq.
Qed.
Lemma with_root_base f fi ff md rd i a : with_root f fi ff md rd i a → base f md.
Proof.
  intros (Hi & _ & Hf & _ & Hm & ? & ? & ? & ? & ?). unfold base. rewrite Hi, Hf, Hm. split_and!; [lia | lia |].
  exists fi. by rewrite lookup_insert_ne, !lookup_singleton_eq.
Qed.

Lemma mem_at_rest f g fi ff md : mem g = mem f → next f ≤ next g → at_rest f fi ff md → at_rest g fi ff md.
Proof. unfold mem, at_rest. intros [= _ -> -> -> -> ->] Hn (? & ? & ? & ? & ? & ? & ?). split_and!; (done || lia). Qed.
Lemma mem_with_root f g fi ff md rd i a :
  mem g = mem f → next f ≤ next g → with_root f fi ff md rd i a → with_root g fi ff md rd i a.
Proof.
  unfold mem, with_root. intros [= _ -> -> -> -> ->] Hn (? & ? & ? & ? & ? & ? & ? & ? & ? & ?). split_and!; (done || lia).
Qed.

(** No byte of the device changes, nor the free map. *)
Definition quiet f g : Prop :=
  dev_ok g ∧ dev_size g = dev_size f ∧ patched f g 0 [] ∧ free_map g = free_map f ∧ next f ≤ next g.

Lemma quiet_refl f : dev_ok f → quiet f f.
Proof. intros Hd. split_and!; [done | done | apply patched_nil | done | done]. Qed.
Lemma quiet_trans f g h : quiet f g → quiet g h → quiet f h.
Proof.
  intros (? & ? & ? & ? & ?) (? & ? & ? & ? & ?). split_and!; [done | congruence | by eapply patched_id_trans | congruence | lia].
Qed.
Lemma quiet_frame f g : frame f g → patched f g 0 [] → quiet f g.
Proof. intros Hf Hp. destruct (frame_mem _ _ Hf) as [_ Hfm]. destruct Hf as (? & ? & ? & _). done. Qed.

(** Changes of the memory only. *)
Lemma quiet_mem f g :
  dev_ok f → dev g = dev f → fs_device g = fs_device f → free_map g = free_map f → next f ≤ next g → quiet f g.
Proof.
  intros Hd Hdev Hfd Hfm Hn. unfold quiet, dev_ok, dev_size, patched, byte, sec. rewrite Hdev, Hfd.
  split_and!; [done..| | done | done]. intros p _. by rewrite decide_False by (simpl; lia).
Qed.

Lemma stored_quiet f g fm N md rd T m : stored f fm N md rd T m → quiet f g → stored g fm N md rd T m.
Proof.
  intros Hs (Hd & Hsz & Hp & _ & _). pose proof Hs as ((_ & Hwf & _) & _).
  apply (stored_change (λ _, False) f g fm); try done.
  - by apply only_nothing.
  - intros s d t Hn Ho. destruct Hs as (Hi & _). by apply (disk_inv_free f fm N s d).
Qed.

Lemma node_inode f fm N md rd T m s d x :
  stored f fm N md rd T m → N !! s = Some d → data x = d → inode_ok f x.
Proof.
  intros Hs Hd <-. destruct (stored_node _ _ _ _ _ _ _ _ _ Hs Hd) as (_ & _ & ? & Hl & ? & _).
  destruct (nsec_bound _ Hl). split_and!; lia.
Qed.

Lemma stored_has_map f fm N md rd T m :
  stored f fm N md rd T m → free_map f = Some fm → base f md → has_map f fm (map_inode md).
Proof.
  intros Hs Hfm (Hn & Hff & fi & Ef & Ei). pose proof Hs as ((Hd & Hwf & Hcnt & _) & (H0 & Hl & _) & _).
  split_and!; [done..|]. exists (mk_file fi 0 false). split_and!; try done.
  - by eapply node_inode.
  - rewrite Hcnt. simpl. lia.
Qed.

Lemma with_root_dir f fm N md rd T m fi ff i a :
  stored f fm N md rd T m → with_root f fi ff md rd i a → is_dir f a rd 16.
Proof.
  intros Hs (Hi & _ & _ & Hdirs & _ & ? & ? & ? & ? & ?). pose proof Hs as ((Hd & _) & (_ & _ & Hrd & Hl & _) & _).
  split_and!; [done | lia | lia | done | lia |]. exists (mk_dir i 0), (root_inode rd). rewrite Hi, Hdirs. simpl.
  rewrite lookup_singleton_eq, lookup_insert_eq. split_and!; try done. by eapply node_inode.
Qed.
End states.

Section ops.
Context {D : Type} `{BlockDevices D}.
Context (malloc_ok : Z → bool) (Hmem : ∀ a, malloc_ok a = true).
Context (stack_bytes : list Z) (Hstack : List.length stack_bytes = 20%nat ∧ Forall (λ c, 0 ≤ c < 256) stack_bytes).
Implicit Types f g : fs D.

Lemma open_root_ok f fm N md rd T m fi ff :
  stored f fm N md rd T m → at_rest f fi ff md →
  wp (dir_open_root malloc_ok) (λ a g, ∃ i, quiet f g ∧ with_root g fi ff md rd i a) f.
Proof.
  intros Hs (Hi & Ho & Hf & Hds & Hm & Hfi & Hff). pose proof Hs as ((Hd & _ & _ & Hn & _) & (_ & _ & H1 & _) & _).
  pose proof (Hn _ _ H1) as (Hr & Hsec & _).
  unfold dir_open_root. apply wp_bind. eapply wp_mono.
  { apply (inode_open_ok malloc_ok Hmem f ROOT_DIR_SECTOR); [done | lia | done |]. rewrite Ho, Hi.
    intros e ->%list_elem_of_singleton. exists (map_inode md). by rewrite lookup_singleton_eq. }
  intros i g (-> & Hdg & Hsg & Hng & Hp & Hfm & Hmm). unfold mem in Hmm. injection Hmm as Hmd Hmi Hmo Hmf Hmds Hmff.
  unfold dir_open. apply wp_bind. eapply wp_mono; [apply malloc_some; [done | lia]|]. intros a g' (Ha & -> & ->).
  assert (negb (next f =? NULL) && negb (next g =? NULL) = true) as -> by (unfold NULL; lia).
  apply wp_bind, wp_modify, wp_ret. exists (next f). split.
  - split_and!; [done | done | done | done | simpl; lia].
  - unfold with_root. simpl. rewrite Hmi, Hmo, Hmf, Hmds, Hmff, Hi, Ho, Hf, Hds, Hm. unfold ROOT_DIR_SECTOR. rewrite Hsec.
    split_and!; try done; lia.
Qed.

Lemma close_root_ok f fi ff md rd i a :
  dev_ok f → with_root f fi ff md rd i a →
  wp (dir_close malloc_ok a) (λ _ g, quiet f g ∧ at_rest g fi ff md) f.
Proof.
  intros Hd (Hi & Ho & Hf & Hds & Hm & Hfi & Hff & Hi0 & Ha & Hne). unfold dir_close.
  destruct (Z.eqb_spec a NULL) as [->|_]; [unfold NULL in Ha; lia|].
  apply wp_bind. eapply wp_eq; [unfold get_dir; by rewrite Hds, lookup_singleton_eq|]. apply wp_bind.
  eapply wp_eq; [apply (inode_close_ok malloc_ok f i (root_inode rd)); try done; [lia|]; by rewrite Hi, lookup_insert_eq|].
  apply wp_modify. split.
  - by apply quiet_mem.
  - unfold at_rest. simpl. rewrite Hi, Ho, Hf, Hds, Hm. rewrite delete_insert_id by (by rewrite lookup_singleton_ne).
    rewrite delete_singleton_eq. rewrite filter_cons_False by (intros ?; done). rewrite filter_cons_True by done.
    split_and!; try done; lia.
Qed.

(** ** Allocation and creation of inodes *)

Lemma stored_map_write f g fm fm' N md rd T m :
  stored f fm N md rd T m → dev_ok g → dev_size g = dev_size f → only (in_data md) f g →
  Bitmap.wf fm' → Bitmap.bit_cnt fm' = Bitmap.bit_cnt fm →
  (∀ s d t, N !! s = Some d → own s d t → Bitmap.bit fm' t = true) → stored g fm' N md rd T m.
Proof.
  intros Hs Hd Hsz Ho Hwf Hcnt Hb. pose proof Hs as (Hi & (H0 & _) & _).
  destruct (stored_node _ _ _ _ _ _ _ _ _ Hs H0) as (_ & _ & _ & Hl & _ & Hself & _).
  apply (stored_change (dat md) f g fm); try done; [by apply touch_data|].
  intros s d t Hn Hown Hdat. destruct (decide (s = 0)) as [->|Hne].
  - split; [done|]. intros ->. by apply Hself.
  - destruct (disk_inv_disjoint f fm N s d 0 md t Hi Hn H0 Hne Hown). by right.
Qed.

Definition grows (fm fm' : Bitmap.bitmap) : Prop :=
  ∀ j, 0 ≤ j → Bitmap.bit fm j = true → Bitmap.bit fm' j = true.

Lemma own_nonneg f fm N md rd T m s d t : stored f fm N md rd T m → N !! s = Some d → own s d t → 0 ≤ t.
Proof.
  intros Hs Hd. destruct (stored_node _ _ _ _ _ _ _ _ _ Hs Hd) as (? & _ & ? & _). intros [->|?]; lia.
Qed.

Lemma stored_grows f g fm fm' N md rd T m :
  stored f fm N md rd T m → has_map g fm' (map_inode md) → mframe f g fm' → only (in_data md) f g →
  grows fm fm' → stored g fm' N md rd T m.
Proof.
  intros Hs (_ & _ & _ & Hwf & Hc & _) (Hd & Hsz & _) Ho Hg. pose proof Hs as ((_ & _ & Hcnt & _) & _).
  apply (stored_map_write f g fm); try done; [congruence|].
  intros s d t Hn Hown. apply Hg; [by eapply own_nonneg|]. destruct Hs as (Hi & _). by apply (disk_inv_free f fm N s d).
Qed.

Lemma taken_grows fm fm' s n : taken fm fm' s n true → grows fm fm'.
Proof. intros (_ & _ & Hb) j Hj Hbit. rewrite Hb by done. by case_decide. Qed.

Lemma allocate_stored f fm N md rd T m cnt :
  stored f fm N md rd T m → free_map f = Some fm → base f md → 0 ≤ cnt →
  wp (free_map_allocate malloc_ok cnt)
    (λ o g, ∃ fm', mframe f g fm' ∧ stored g fm' N md rd T m ∧ grows fm fm' ∧
       match o with
       | Some s => 0 ≤ s ∧ s + cnt ≤ dev_size f ∧ (∀ j, s ≤ j < s + cnt → Bitmap.bit fm j = false)
                   ∧ (∀ i, 0 ≤ i < s → ¬ Bitmap.group fm cnt false i) ∧ taken fm fm' s cnt true
       | None => ∀ s, 0 ≤ s → ¬ Bitmap.group fm cnt false s
       end) f.
Proof.
  intros Hs Hfm Hb Hc. pose proof (stored_has_map _ _ _ _ _ _ _ Hs Hfm Hb) as Hm.
  eapply wp_mono; [by apply (free_map_allocate_ok malloc_ok Hmem f fm (map_inode md))|].
  intros o g (fm' & Hmf & Ho & Hm' & Hres). exists fm'.
  assert (grows fm fm') as Hg.
  { destruct o as [s|]; [by eapply taken_grows; apply Hres|]. intros j Hj Hbit. destruct Hres as [Heq _].
    by rewrite Heq. }
  split_and!; [done | by eapply stored_grows | done |]. destruct o as [s|]; [done|]. apply Hres.
Qed.

(** What a new inode and its data hold. *)
Lemma new_inode_bytes f1 f2 g s st len :
  dev_ok g → dev_size f2 = dev_size f1 → dev_size g = dev_size f1 → 0 ≤ s < dev_size f1 → 0 ≤ len < 2^31 - 512 →
  0 ≤ st → st + bytes_to_sectors len ≤ dev_size f1 → ¬ st ≤ s < st + bytes_to_sectors len →
  patched f1 f2 (s * 512) (disk_bytes (new_disk st len)) →
  patched f2 g (st * 512) (replicate (512 * Z.to_nat (bytes_to_sectors len)) 0) →
  disk_of_bytes (sec g s) = new_disk st len ∧ contents g (new_disk st len) = replicate (Z.to_nat len) 0.
Proof.
  intros Hd Hs2 Hsg Hs Hlen Hst Hend Hns Hp2 Hp3. destruct (bytes_to_sectors_eq len Hlen) as (_ & Hn & Hln).
  set (n := bytes_to_sectors len) in *. pose proof (bd_size_range _ _ Hd) as Hsz. fold (dev_size g) in Hsz.
  destruct (new_disk_sector st len) as [Hl _]. split.
  - assert (sec g s = disk_bytes (new_disk st len)) as ->; [|apply disk_bytes_roundtrip; simpl; unfold INODE_MAGIC; lia].
    rewrite sec_all by done. apply list_eq_same_length with 512%nat; [done | apply bytes_length |].
    intros i u v Hi. rewrite dev_bytes_lookup by lia. intros [= <-] Hv. rewrite Hp3 by lia.
    rewrite length_replicate, decide_False by lia. rewrite Hp2 by lia. rewrite Hl, decide_True by lia.
    replace (Z.to_nat (s * 512 + Z.of_nat i - s * 512)) with i by lia. by rewrite Hv.
  - unfold contents. simpl. apply list_eq_same_length with (Z.to_nat len); [apply length_replicate | apply bytes_length |].
    intros i u v Hi. rewrite dev_bytes_lookup by done. intros [= <-] Hv. rewrite lookup_replicate in Hv. destruct Hv as [-> _].
    rewrite Hp3 by lia. rewrite length_replicate, decide_True by lia. by rewrite lookup_replicate_2 by lia.
Qed.

Lemma create_stored f fm N md rd T m s len :
  stored f fm N md rd T m → free_map f = Some fm → base f md → 0 ≤ s < dev_size f → Bitmap.bit fm s = true →
  (∀ s' d', N !! s' = Some d' → ¬ own s' d' s) → 0 ≤ len < 2^31 - 512 →
  wp (inode_create malloc_ok s len)
    (λ (ok : bool) g, ∃ fm', mframe f g fm' ∧ stored g fm' N md rd T m ∧ grows fm fm' ∧
       if ok then ∃ d, length d = len ∧ node_ok g fm' s d ∧ contents g d = replicate (Z.to_nat len) 0
         ∧ ∀ s' d' t, N !! s' = Some d' → own s' d' t → ¬ own s d t
       else ∀ st, 0 ≤ st → ¬ Bitmap.group fm (bytes_to_sectors len) false st) f.
Proof.
  intros Hs Hfm Hb Hsr Hbit Hfree Hlen. pose proof (stored_has_map _ _ _ _ _ _ _ Hs Hfm Hb) as Hm.
  pose proof Hs as ((Hd & Hwf & Hcnt & _) & _).
  eapply wp_mono; [by apply (inode_create_ok malloc_ok Hmem f fm (map_inode md) s len)|].
  intros [] g (fm' & Hmf & Hm' & Hres); exists fm'.
  2: { destruct Hres as (Ho & Heq & Hno). assert (grows fm fm') as Hg by (intros j Hj; by rewrite Heq).
       split_and!; [done | by eapply stored_grows | done | done]. }
  destruct Hres as (st & f1 & Hst & Hend & Hz & Htk & Ho1 & Hs1 & f2 & Hp2 & Hs2 & Hp3). simpl in Ho1.
  set (n := bytes_to_sectors len) in *. destruct (bytes_to_sectors_eq len Hlen) as (_ & Hn & Hln). fold n in Hn, Hln.
  pose proof Hmf as (Hdg & Hsg & _). pose proof (taken_grows _ _ _ _ Htk) as Hg. pose proof Htk as (Hwf' & Hcnt' & Hb').
  assert (¬ st ≤ s < st + n) as Hns by (intros Hin; specialize (Hz s Hin); congruence).
  assert (∀ s' d' t, N !! s' = Some d' → own s' d' t → t ≠ s ∧ ¬ st ≤ t < st + n) as Hdisj.
  { intros s' d' t Hn' Hown. split; [intros ->; by eapply Hfree|]. intros Hin. pose proof (Hz t Hin) as Hf.
    destruct Hs as (Hi & _). rewrite (disk_inv_free f fm N s' d' t Hi Hn' Hown) in Hf. done. }
  pose proof Hs as (Hi & (H0 & _) & _).
  destruct (stored_node _ _ _ _ _ _ _ _ _ Hs H0) as (_ & _ & _ & Hl0 & _ & Hself & _).
  set (U := λ t, dat md t ∨ t = s ∨ st ≤ t < st + n).
  assert (touch U f g) as Hto.
  { apply (touch_trans U f f1); [done | eapply touch_mono, (touch_data md); [by left | done | done] |].
    apply (touch_trans U f1 f2); [lia | |].
    - apply (touch_mono (λ t, t = s)); [by right; left|]. apply (touch_patched f1 f2 s 0 (disk_bytes (new_disk st len)));
        [done | done | by rewrite Z.add_0_r].
    - apply only_patched in Hp3. eapply only_mono; [|exact Hp3]. simpl. rewrite length_replicate.
      intros p Hp. right. right. div_lia. }
  split_and!; [done | | done |].
  - apply (stored_change U f g fm); try done; [|intros s' d' t Hn' Hown; apply Hg; [by eapply own_nonneg | by apply (disk_inv_free f fm N s' d')]].
    intros s' d' t Hn' Hown [Hdat|Hu].
    + destruct (decide (s' = 0)) as [->|Hne]; [split; [done|]; intros ->; by apply Hself|].
      destruct (disk_inv_disjoint f fm N s' d' 0 md t Hi Hn' H0 Hne Hown). by right.
    + destruct (Hdisj s' d' t Hn' Hown) as [? ?]. by destruct Hu.
  - destruct (new_inode_bytes f1 f2 g s st len) as [Hsec Hcont]; try done; try lia.
    exists (new_disk st len). unfold node_ok, own, nsec. simpl. fold n. split_and!; try done; try lia.
    + intros t [->|Hin]; [by apply Hg; [lia|]|]. rewrite Hb' by lia. by rewrite decide_True.
    + intros s' d' t Hn' Hown [->|Hin]; by destruct (Hdisj s' d' _ Hn' Hown).
Qed.

Lemma release_stored f fm N md rd T m s cnt :
  stored f fm N md rd T m → free_map f = Some fm → base f md → 0 ≤ s → 0 ≤ cnt → s + cnt ≤ dev_size f →
  (∀ j, s ≤ j < s + cnt → Bitmap.bit fm j = true) →
  (∀ s' d' t, N !! s' = Some d' → own s' d' t → ¬ s ≤ t < s + cnt) →
  wp (free_map_release malloc_ok s cnt)
    (λ _ g, ∃ fm', mframe f g fm' ∧ stored g fm' N md rd T m ∧ taken fm fm' s cnt false) f.
Proof.
  intros Hs Hfm Hb Hs0 Hc Hend Hall Hfree. pose proof (stored_has_map _ _ _ _ _ _ _ Hs Hfm Hb) as Hm.
  eapply wp_mono; [by apply (free_map_release_ok malloc_ok Hmem f fm (map_inode md))|].
  intros _ g (fm' & Hmf & Ho & Hm' & Htk). exists fm'. split_and!; [done | | done].
  pose proof Htk as (Hwf & Hcnt & Hb'). destruct Hmf as (Hd & Hsz & _).
  apply (stored_map_write f g fm); try done. intros s' d' t Hn Hown.
  rewrite Hb' by (by eapply own_nonneg). rewrite decide_False by (by eapply Hfree). simpl.
  destruct Hs as (Hi & _). by apply (disk_inv_free f fm N s' d').
Qed.

(** ** The file system as a whole *)

(** [f] holds the files [m], and none of them is open. *)
Definition holds f (m : gmap (list Z) (list Z)) : Prop :=
  ∃ fm N md rd T fi ff, free_map f = Some fm ∧ stored f fm N md rd T m ∧ at_rest f fi ff md.

Lemma view_dom f N md rd T m : tree f N md rd T → view f N T m → dom m = dom T.
Proof.
  intros (_ & _ & _ & _ & _ & _ & HT) Hv. apply set_eq. intros nm. rewrite !elem_of_dom, Hv. split.
  - destruct (T !! nm); [done|]. intros [? [=]].
  - intros [s Hs]. rewrite Hs. simpl. destruct (HT _ _ Hs) as (_ & _ & [d ->]). done.
Qed.

Lemma view_lookup f N md rd T m nm : tree f N md rd T → view f N T m → m !! nm = None ↔ T !! nm = None.
Proof. intros Ht Hv. rewrite <- !not_elem_of_dom. by rewrite (view_dom f N md rd T m). Qed.

Lemma first_fit_room fm fm' s n :
  0 ≤ n → 0 ≤ s → (∀ i, 0 ≤ i < s → ¬ Bitmap.group fm 1 false i) → taken fm fm' s 1 true →
  (∀ st, 0 ≤ st → ¬ Bitmap.group fm' n false st) → ∀ st, 0 ≤ st → ¬ Bitmap.group fm (1 + n) false st.
Proof.
  intros Hn Hs Hfirst (_ & Hcnt & Hb) Hno st Hst [Hend Hfree]. apply (Hno (st + 1)); [lia|].
  assert (s ≤ st).
  { destruct (decide (st < s)); [|lia]. destruct (Hfirst st); [lia|]. split; [lia|]. intros j Hj. apply Hfree. lia. }
  split; [lia|]. intros j Hj. rewrite Hb by lia. rewrite decide_False by lia. apply Hfree. lia.
Qed.

(** The directory entry of a new inode. *)
Lemma stored_add f g fm N md rd T m nm s d k e :
  stored f fm N md rd T m → frame f g → valid_name nm → T !! nm = None → node_ok f fm s d → s ≠ 0 → s ≠ 1 →
  (∀ s' d' t, N !! s' = Some d' → own s' d' t → ¬ own s d t) → 0 ≤ k < 16 →
  entry_in_use (slot f rd k) = false → filled e nm s → patched f g (start rd * 512 + 20 * k) e →
  stored g fm (<[s := d]> N) md rd (<[nm := s]> T) (<[nm := contents f d]> m).
Proof.
  intros Hs Hf Hval HTn Hnode Hs0 Hs1 Hnew Hk Hfree Hfill Hp.
  pose proof Hs as (Hi & Ht & Hv). pose proof Hi as (Hd & Hwf & Hcnt & Hn & Hdis).
  pose proof Ht as (H0 & Hl0 & H1 & Hl1 & Hss & Hinj & HT).
  pose proof Hnode as (Hsr & Hsec & Hst & Hlen & Hend & Hself & Hbits).
  destruct (stored_slot f g fm N md rd T m k e) as (Hi' & Hss' & Hcont & Hto); [done | done | lia | apply Hfill | done |].
  assert (N !! s = None) as HNs.
  { destruct (N !! s) as [d'|] eqn:E; [|done]. by destruct (Hnew s d' s E); left. }
  pose proof (size_frame _ _ Hf) as Hsg. pose proof (frame_ok _ _ Hf) as Hdg.
  assert (∀ t, own s d t → ¬ dat rd t) as Hnd by (intros t Ho Hdat; by apply (Hnew 1 rd t); [|right|]).
  assert (node_ok g fm s d) as Hnode'.
  { unfold node_ok. rewrite Hsg, (touch_sec (dat rd) f g s); try done. by apply Hnd; left. }
  split_and!.
  - apply (disk_inv_insert g fm fm); try done; [|by rewrite Hsg]. intros s' d' t Hs'. by apply (disk_inv_free f fm N s' d').
  - unfold tree. rewrite !lookup_insert_ne by done. rewrite Hsg, Hss'. split_and!; try done.
    + apply (slots_ok_insert _ _ _ (slot f rd k)); try done. by apply slots_lookup.
    + assert (∀ n1, T !! n1 ≠ Some s) as HTs by (intros n1 E1; destruct (HT _ _ E1) as (_ & _ & [? ?]); congruence).
      intros n1 n2 s' [[-> <-]|[? E1]]%lookup_insert_Some [[-> Heq]|[? E2]]%lookup_insert_Some; [done | | |by eapply Hinj].
      * by apply HTs in E2.
      * rewrite <- Heq in E1. by apply HTs in E1.
    + intros n1 s' E1. lookups; [by rewrite lookup_insert_eq|]. destruct (HT _ _ E1) as (? & ? & ?).
      split_and!; [done..|]. rewrite lookup_insert_ne by (intros ->; destruct (HT _ _ E1) as (_ & _ & [? ?]); congruence). done.
  - intros n1. destruct (decide (n1 = nm)) as [->|Hne].
    + rewrite !lookup_insert_eq. simpl. rewrite lookup_insert_eq. simpl. f_equal. symmetry.
      by apply (touch_contents (dat rd) f g fm s).
    + rewrite !lookup_insert_ne by done. rewrite Hv. destruct (T !! n1) as [s'|] eqn:E1; [|done]. simpl.
      destruct (HT _ _ E1) as (? & ? & [d' Hd']). rewrite lookup_insert_ne by congruence. rewrite Hd'. simpl.
      f_equal. symmetry. by apply (Hcont s').
Qed.

Lemma add_stored f fm N md rd T m fi ff i a nm s d :
  stored f fm N md rd T m → with_root f fi ff md rd i a → Forall (λ c, 0 < c < 256) nm →
  node_ok f fm s d → s ≠ 0 → s ≠ 1 → (∀ s' d' t, N !! s' = Some d' → own s' d' t → ¬ own s d t) →
  wp (dir_add malloc_ok stack_bytes a nm s)
    (λ (ok : bool) g, frame f g ∧
       if ok then valid_name nm ∧ m !! nm = None
         ∧ stored g fm (<[s := d]> N) md rd (<[nm := s]> T) (<[nm := contents f d]> m)
       else stored g fm N md rd T m ∧ (valid_name nm → m !! nm = None → (16 ≤ size m)%nat)) f.
Proof.
  intros Hs Hr Hnm Hnode Hs0 Hs1 Hnew. pose proof (with_root_dir _ _ _ _ _ _ _ _ _ _ _ Hs Hr) as Hdir.
  pose proof Hs as (Hi & Ht & Hv). pose proof Hi as (Hd & Hwf & Hcnt & Hn & Hdis).
  pose proof Ht as (H0 & Hl0 & H1 & Hl1 & Hss & Hinj & HT).
  pose proof (bd_size_range _ _ Hd) as Hsz. fold (dev_size f) in Hsz.
  pose proof Hnode as (Hsr & Hsec & Hst & Hlen & Hend & Hself & Hbits).
  pose proof (find_slot_map _ _ nm Hss) as Hfind.
  eapply wp_mono; [apply (dir_add_ok malloc_ok Hmem stack_bytes Hstack f a rd 16); try done; [by eapply slots_ok_named | lia]|].
  intros [] g (Hf & Hres).
  2: { destruct Hres as [Hp Hfull]. split; [done|]. split; [by eapply stored_quiet; [|apply quiet_frame]|].
       intros Hval Hm. rewrite (view_lookup f N md rd T) in Hm by done. rewrite Hm in Hfind.
       rewrite <- size_dom, (view_dom f N md rd T m), size_dom by done. change 16%nat with (Z.to_nat 16).
       rewrite <- (slots_length f rd 16). apply slots_ok_full; [done|]. intros k e He.
       pose proof (lookup_lt_Some _ _ _ He) as Hk. rewrite slots_length in Hk.
       rewrite <- (Nat2Z.id k), slots_lookup in He by lia. injection He as <-. apply Hfull; [done..|lia]. }
  destruct Hres as (Hval & Hnone & k & e & Hk & Hfree & Hfill & Hp).
  assert (T !! nm = None) as HTn.
  { destruct (T !! nm) as [?|]; [|done]. destruct Hfind as (? & ? & Hfind & _). congruence. }
  split; [done|]. split_and!; [done | by apply (view_lookup f N md rd T) |].
  by apply (stored_add f g fm N md rd T m nm s d k e).
Qed.

Lemma filesys_create_inner f fm N md rd T m fi ff i a nm len :
  stored f fm N md rd T m → free_map f = Some fm → with_root f fi ff md rd i a →
  Forall (λ c, 0 < c < 256) nm → 0 ≤ len < 2^31 - 512 →
  wp (o ← free_map_allocate malloc_ok 1;
      match o with
      | None => mret (false, 0)
      | Some s => ok ← inode_create malloc_ok s len;
          if negb ok then mret (false, s) else ok ← dir_add malloc_ok stack_bytes a nm s; mret (ok, s)
      end)
    (λ r g, ∃ fm', free_map g = Some fm' ∧ with_root g fi ff md rd i a ∧ dev_size g = dev_size f ∧
       if r.1 then valid_name nm ∧ m !! nm = None ∧ ∃ N' T',
           stored g fm' N' md rd T' (<[nm := replicate (Z.to_nat len) 0]> m)
       else stored g fm' N md rd T m
         ∧ (r.2 = 0 ∨ 0 < r.2 < dev_size f ∧ Bitmap.bit fm' r.2 = true ∧ ∀ s' d', N !! s' = Some d' → ¬ own s' d' r.2)
         ∧ (valid_name nm → m !! nm = None → (size m < 16)%nat →
              ∀ st, 0 ≤ st → ¬ Bitmap.group fm (1 + bytes_to_sectors len) false st)) f.
Proof.
  intros Hs Hfm Hr Hnm Hlen. destruct (bytes_to_sectors_eq len Hlen) as (_ & Hnn & _).
  apply wp_bind. eapply wp_mono; [apply (allocate_stored f fm N md rd T m 1); try done; by eapply with_root_base|].
  intros o f1 (fm1 & Hmf1 & Hs1 & Hg1 & Hres). destruct (mframe_mem _ _ _ Hmf1) as [Hm1 Hfm1].
  pose proof Hmf1 as (_ & Hsz1 & Hnx1 & _). pose proof (mem_with_root _ _ _ _ _ _ _ _ Hm1 Hnx1 Hr) as Hr1.
  destruct o as [s|].
  2: { apply wp_ret. exists fm1. cbn [fst snd]. split_and!; try done; [by left|]. intros _ _ _ st Hst [Hend Hfree].
       apply (Hres st Hst). split; [lia|]. intros j Hj. apply Hfree. lia. }
  destruct Hres as (Hs0 & Hsend & Hfree & Hfirst & Htk). pose proof Htk as (_ & _ & Hb1).
  assert (∀ s' d', N !! s' = Some d' → ¬ own s' d' s) as Hnew.
  { intros s' d' Hs' Ho. specialize (Hfree s ltac:(lia)). destruct Hs as (Hi & _).
    rewrite (disk_inv_free f fm N s' d' s Hi Hs' Ho) in Hfree. done. }
  pose proof Hs as (_ & (H0 & _ & H1 & _) & _).
  assert (s ≠ 0) as Hne0 by (intros ->; eapply (Hnew 0); [exact H0 | by left]).
  assert (s ≠ 1) as Hne1 by (intros ->; eapply (Hnew 1); [exact H1 | by left]).
  assert (Bitmap.bit fm1 s = true) as Hbs by (rewrite Hb1 by done; by rewrite decide_True by lia).
  apply wp_bind. eapply wp_mono.
  { apply (create_stored f1 fm1 N md rd T m s len); try done; [by eapply with_root_base | lia]. }
  intros ok f2 (fm2 & Hmf2 & Hs2 & Hg2 & Hres). destruct (mframe_mem _ _ _ Hmf2) as [Hm2 Hfm2].
  pose proof Hmf2 as (_ & Hsz2 & Hnx2 & _). pose proof (mem_with_root _ _ _ _ _ _ _ _ Hm2 Hnx2 Hr1) as Hr2.
  destruct ok; cbn [negb].
  2: { apply wp_ret. exists fm2. cbn [fst snd]. split_and!; try done; [congruence | right; split_and!; try done; [lia..|by apply Hg2] |].
       intros _ _ _. apply (first_fit_room fm fm1 s); (done || lia). }
  destruct Hres as (d & Hdl & Hnode & Hcont & Hdisj).
  apply wp_bind. eapply wp_mono; [by apply (add_stored f2 fm2 N md rd T m fi ff i a nm s d)|].
  intros ok f3 [Hf3 Hres]. destruct (frame_mem _ _ Hf3) as [Hm3 Hfm3]. pose proof Hf3 as (_ & Hsz3 & Hnx3 & _).
  pose proof (mem_with_root _ _ _ _ _ _ _ _ Hm3 Hnx3 Hr2) as Hr3. apply wp_ret. exists fm2. cbn [fst snd].
  split_and!; [congruence | done | congruence |]. destruct ok.
  - destruct Hres as (Hval & Hmn & Hst). split_and!; [done..|]. rewrite Hcont in Hst. eauto.
  - destruct Hres as [Hst Hfull]. split_and!; [done | right; split_and!; try done; [lia..|by apply Hg2] |].
    intros Hv Hmn Hlt. specialize (Hfull Hv Hmn). lia.
Qed.

Lemma filesys_create_ok f m nm len :
  holds f m → Forall (λ c, 0 < c < 256) nm → 0 ≤ len < 2^31 - 512 →
  wp (filesys_create malloc_ok stack_bytes nm len)
    (λ (ok : bool) g,
       if ok then valid_name nm ∧ m !! nm = None ∧ holds g (<[nm := replicate (Z.to_nat len) 0]> m)
       else holds g m ∧ (valid_name nm → m !! nm = None → (size m < 16)%nat →
              ∀ fm, free_map f = Some fm → ∀ st, 0 ≤ st → ¬ Bitmap.group fm (1 + bytes_to_sectors len) false st)) f.
Proof.
  intros (fm & N & md & rd & T & fi & ff & Hfm & Hs & Hrest) Hnm Hlen.
  unfold filesys_create. apply wp_bind. eapply wp_mono; [by apply (open_root_ok f fm N md rd T m fi ff)|].
  intros a f1 (i & Hq & Hr). pose proof (stored_quiet _ _ _ _ _ _ _ _ Hs Hq) as Hs1.
  pose proof Hq as (_ & Hsz1 & _ & Hfm1 & _). rewrite Hfm in Hfm1.
  assert (0 < a) as Ha by apply Hr. destruct (Z.eqb_spec a NULL) as [->|_]; [unfold NULL in Ha; lia|].
  apply wp_bind. eapply wp_mono; [by apply (filesys_create_inner f1 fm N md rd T m fi ff i a nm len)|].
  intros [ok s] f2 (fm2 & Hfm2 & Hr2 & Hsz2 & Hres). simpl in Hres.
  assert (∀ h N' T' m' fm', stored h fm' N' md rd T' m' → free_map h = Some fm' → with_root h fi ff md rd i a →
    wp (dir_close malloc_ok a ;; mret ok) (λ ok' g, ok' = ok ∧ holds g m') h) as Hclose.
  { intros h N' T' m' fm' Hst Hfmh Hrh. pose proof Hst as ((Hdh & _) & _). apply wp_bind.
    eapply wp_mono; [by apply (close_root_ok h fi ff md rd i a)|]. intros _ g [Hqg Hat]. apply wp_ret. split; [done|].
    exists fm', N', md, rd, T', fi, ff. split_and!; [|by eapply stored_quiet|done].
    destruct Hqg as (_ & _ & _ & -> & _). done. }
  destruct ok; simpl.
  - destruct Hres as (Hval & Hmn & N' & T' & Hst). apply wp_bind, wp_ret.
    eapply wp_mono; [by eapply Hclose|]. intros ok g [-> Hg]. done.
  - destruct Hres as (Hst & Hsec & Hwhy).
    destruct (Z.eqb_spec s 0) as [->|Hne]; simpl.
    + apply wp_bind, wp_ret. eapply wp_mono; [by eapply Hclose|]. intros ok g [-> Hg]. split; [done|].
      intros Hv Hmn Hlt fm0 Hfm0. rewrite Hfm in Hfm0. injection Hfm0 as <-. by apply Hwhy.
    + destruct Hsec as [?|(Hsr & Hbs & Hnew)]; [done|]. apply wp_bind. eapply wp_mono.
      { apply (release_stored f2 fm2 N md rd T m s 1); try done; try lia; [by eapply with_root_base | |].
        - intros j Hj. by replace j with s by lia.
        - intros s' d' t Hs' Ho Ht. replace t with s in Ho by lia. by eapply Hnew. }
      intros _ f3 (fm3 & Hmf3 & Hs3 & _). destruct (mframe_mem _ _ _ Hmf3) as [Hm3 Hfm3].
      pose proof Hmf3 as (_ & _ & Hnx3 & _). pose proof (mem_with_root _ _ _ _ _ _ _ _ Hm3 Hnx3 Hr2) as Hr3.
      eapply wp_mono; [by eapply Hclose|]. intros ok g [-> Hg]. split; [done|].
      intros Hv Hmn Hlt fm0 Hfm0. rewrite Hfm in Hfm0. injection Hfm0 as <-. by apply Hwhy.
Qed.

(** ** Removal *)

Lemma stored_remove f g fm N md rd T m nm s k e' :
  stored f fm N md rd T m → frame f g → T !! nm = Some s → (k < 16)%nat →
  (∃ e, slots f rd 16 !! k = Some e ∧ entry_in_use e = true ∧ slot_name e = Some nm) →
  List.length e' = 20%nat → entry_in_use e' = false → patched f g (start rd * 512 + 20 * Z.of_nat k) e' →
  stored g fm (delete s N) md rd (delete nm T) (delete nm m).
Proof.
  intros Hs Hf HTn Hk (e & Hke & Hue & Hne) Hl Hu Hp.
  destruct (stored_slot f g fm N md rd T m (Z.of_nat k) e') as (Hi' & Hss' & Hcont & _); [done | done | lia | done | done |].
  pose proof Hs as (Hi & (H0 & Hl0 & H1 & Hl1 & Hss & Hinj & HT) & Hv).
  destruct (HT _ _ HTn) as (Hs0 & Hs1 & _). rewrite Nat2Z.id in Hss'. split_and!.
  - by apply disk_inv_delete.
  - unfold tree. rewrite !lookup_delete_ne by done. rewrite (size_frame _ _ Hf), Hss'. split_and!; try done.
    + by eapply slots_ok_delete.
    + intros n1 n2 s' [? E1]%lookup_delete_Some [? E2]%lookup_delete_Some. by eapply Hinj.
    + intros n1 s' [Hn1 E1]%lookup_delete_Some. destruct (HT _ _ E1) as (? & ? & ?).
      rewrite lookup_delete_ne; [done|]. intros ->. by apply Hn1, (Hinj _ _ s').
  - intros n1. destruct (decide (n1 = nm)) as [->|Hn1]; [by rewrite !lookup_delete_eq|].
    rewrite !lookup_delete_ne by done. rewrite Hv. destruct (T !! n1) as [s'|] eqn:E1; [|done]. simpl.
    destruct (HT _ _ E1) as (? & ? & [d' Hd']). rewrite lookup_delete_ne by (intros ->; by apply Hn1, (Hinj _ _ s')).
    rewrite Hd'. simpl. f_equal. symmetry. by apply (Hcont s').
Qed.

(** Closing a removed inode gives its sectors back. *)
Lemma close_removed f fm N md rd T m j s d x :
  stored f fm N md rd T m → free_map f = Some fm → 0 < j → inodes f !! j = Some x →
  x = mk_inode s 1 true 0 d → node_ok f fm s d → (∀ s' d' t, N !! s' = Some d' → own s' d' t → ¬ own s d t) →
  base (set_inodes (<[j := set_open_cnt 0 x]> (inodes f)) f) md →
  wp (inode_close malloc_ok j)
    (λ _ g, ∃ fm', stored g fm' N md rd T m ∧ free_map g = Some fm' ∧ next f ≤ next g
       ∧ mem g = (fs_device f, delete j (inodes f), filter (λ e, e ≠ j) (open_inodes f), files f, dirs f, free_map_file f)) f.
Proof.
  intros Hs Hfm Hj Ej -> Hnode Hnew Hb. destruct Hnode as (Hsr & _ & Hst & Hlen & Hend & Hself & Hbits).
  destruct (nsec_bound d Hlen) as [Hns _].
  unfold inode_close. destruct (Z.eqb_spec j NULL) as [->|_]; [unfold NULL in Hj; lia|].
  apply wp_bind. eapply wp_eq; [unfold get_inode; by rewrite Ej|]. apply wp_bind, wp_modify. simpl.
  apply wp_bind, wp_modify. apply wp_bind. cbn [inodes set_inodes set_open_inodes open_inodes].
  set (f1 := set_open_inodes _ _).
  assert (quiet f f1) as Hq1 by (apply quiet_mem; try done; destruct Hs as ((? & _) & _); done).
  pose proof (stored_quiet _ _ _ _ _ _ _ _ Hs Hq1) as Hs1.
  apply wp_bind. eapply wp_mono.
  { apply (release_stored f1 fm N md rd T m s 1); try done; try lia.
    - destruct Hq1 as (_ & -> & _). lia.
    - intros t Ht. apply Hbits. left. lia.
    - intros s' d' t Hn Ho Ht. eapply Hnew; [exact Hn | exact Ho | left; lia]. }
  intros _ f2 (fm2 & Hmf2 & Hs2 & Htk2). destruct (mframe_mem _ _ _ Hmf2) as [Hm2 Hfm2].
  pose proof Hmf2 as (_ & Hsz2 & Hnx2 & _).
  eapply wp_mono.
  { apply (release_stored f2 fm2 N md rd T m (start d) (nsec d)); try done; try lia.
    - unfold base in *. unfold mem in Hm2. injection Hm2 as _ Hmi _ Hmf _ Hmm. rewrite Hmi, Hmf, Hmm.
      destruct Hb as (? & ? & ?). simpl in *. split_and!; [lia | done | done].
    - rewrite Hsz2. destruct Hq1 as (_ & -> & _). lia.
    - intros t Ht. destruct Htk2 as (_ & _ & Hb2). rewrite Hb2 by lia. rewrite decide_False by lia. apply Hbits. by right.
    - intros s' d' t Hn Ho Ht. eapply Hnew; [exact Hn | exact Ho | by right]. }
  intros _ f3 (fm3 & Hmf3 & Hs3 & _). destruct (mframe_mem _ _ _ Hmf3) as [Hm3 Hfm3].
  pose proof Hmf3 as (Hd3 & _ & Hnx3 & _). apply wp_modify. exists fm3. split_and!.
  - eapply stored_quiet; [exact Hs3|]. by apply quiet_mem.
  - done.
  - simpl in *. lia.
  - rewrite Hm2 in Hm3. unfold mem in *. injection Hm3 as H3a H3b H3c H3d H3e H3f. simpl.
    rewrite H3a, H3b, H3c, H3d, H3e, H3f. simpl. by rewrite delete_insert_eq.
Qed.

(** The inode of a file, open beside the root directory. *)
Definition with_node f (fi ff : Z) (md rd : inode_disk) (i a j : Z) (x : inode) : Prop :=
  inodes f = <[j := x]> (<[i := root_inode rd]> {[ fi := map_inode md ]}) ∧ open_inodes f = [j; i; fi]
  ∧ files f = {[ ff := mk_file fi 0 false ]} ∧ dirs f = {[ a := mk_dir i 0 ]} ∧ free_map_file f = ff
  ∧ 0 < fi < next f ∧ 0 < ff < next f ∧ 0 < i < next f ∧ 0 < a < next f ∧ 0 < j < next f ∧ i ≠ fi ∧ j ≠ fi ∧ j ≠ i.

Lemma open_node f fm N md rd T m fi ff i a s d :
  stored f fm N md rd T m → with_root f fi ff md rd i a → N !! s = Some d → s ≠ 0 → s ≠ 1 →
  wp (inode_open malloc_ok s) (λ j g, quiet f g ∧ with_node g fi ff md rd i a j (mk_inode s 1 false 0 d)) f.
Proof.
  intros Hs (Hi & Ho & Hf & Hds & Hm & Hfi & Hff & Hi0 & Ha & Hne) Hd Hs0 Hs1. pose proof Hs as ((Hdv & _) & _).
  destruct (stored_node _ _ _ _ _ _ _ _ _ Hs Hd) as (Hr & Hsec & _).
  eapply wp_mono.
  { apply (inode_open_ok malloc_ok Hmem f s); [done | lia | done |]. rewrite Ho, Hi.
    intros e [->|[->|[]%not_elem_of_nil]%elem_of_cons]%elem_of_cons.
    - exists (root_inode rd). by rewrite lookup_insert_eq.
    - exists (map_inode md). by rewrite lookup_insert_ne, lookup_singleton_eq. }
  intros j g (-> & Hdg & Hsg & Hng & Hp & Hfm & Hmm). unfold mem in Hmm. injection Hmm as Hmd Hmi Hmo Hmf Hmds Hmff.
  split; [split_and!; try done; lia|]. unfold with_node. rewrite Hmi, Hmo, Hmf, Hmds, Hmff, Hi, Ho, Hf, Hds, Hm, Hsec.
  split_and!; try done; lia.
Qed.

Lemma with_node_dir f fm N md rd T m fi ff i a j x :
  stored f fm N md rd T m → with_node f fi ff md rd i a j x → is_dir f a rd 16.
Proof.
  intros Hs (Hi & _ & _ & Hdirs & _ & ? & ? & ? & ? & ? & ? & ? & ?).
  pose proof Hs as ((Hd & _) & (_ & _ & Hrd & Hl & _) & _).
  split_and!; [done | lia | lia | done | lia |]. exists (mk_dir i 0), (root_inode rd). rewrite Hi, Hdirs. simpl.
  rewrite lookup_singleton_eq, lookup_insert_ne, lookup_insert_eq by done. split_and!; try done. by eapply node_inode.
Qed.

Lemma with_node_mem f g fi ff md rd i a j x x' :
  with_node f fi ff md rd i a j x → inodes g = <[j := x']> (inodes f) → open_inodes g = open_inodes f →
  files g = files f → dirs g = dirs f → free_map_file g = free_map_file f → next f ≤ next g →
  with_node g fi ff md rd i a j x'.
Proof.
  unfold with_node. intros (Hi & Ho & Hf & Hds & Hm & ? & ? & ? & ? & ? & ? & ? & ?) Hig -> -> -> -> Hn.
  rewrite Hig, Hi, insert_insert_eq. split_and!; try done; lia.
Qed.

Lemma clear_in_use {S} e (st : S) (Q : list Z → S → Prop) :
  List.length e = 20%nat → Forall (λ c, 0 ≤ c < 256) e →
  (∀ e', List.length e' = 20%nat → Forall (λ c, 0 ≤ c < 256) e' → entry_in_use e' = false → Q e' st) →
  wp (copy_to e 19 [0]) Q st.
Proof.
  intros Hl Hb HQ. destruct (split_entry e Hl) as (a & b & c & -> & Ha & Hb'). rewrite app_assoc.
  apply copy_to_at; [rewrite length_app; lia | done |]. apply HQ.
  - rewrite !length_app. simpl. lia.
  - rewrite !Forall_app in *. destruct Hb as (? & ? & _). split_and!; [done | done | repeat constructor; lia | done].
  - unfold entry_in_use. simpl. rewrite list_lookup_middle; [done|]. rewrite length_app. lia.
Qed.

Lemma slots_quiet f g fm N md rd T m :
  stored f fm N md rd T m → quiet f g → slots g rd 16 = slots f rd 16.
Proof.
  intros Hs (_ & Hsz & Hp & _). pose proof Hs as (_ & (_ & _ & Hrd & Hl & _) & _).
  apply (slots_touch (λ _, False) f g fm); try done; [by apply only_nothing | by eapply stored_node | by intros t _ []].
Qed.

Lemma remove_node f fm N md rd T m fi ff i a j s d :
  stored f fm N md rd T m → free_map f = Some fm → with_node f fi ff md rd i a j (mk_inode s 1 false 0 d) →
  node_ok f fm s d → (∀ s' d' t, N !! s' = Some d' → own s' d' t → ¬ own s d t) →
  wp (inode_remove j ;; inode_close malloc_ok j ;; mret true)
    (λ (ok : bool) g, ok = true ∧ ∃ fm', free_map g = Some fm' ∧ with_root g fi ff md rd i a
       ∧ stored g fm' N md rd T m) f.
Proof.
  intros Hs Hfm Hw Hnode Hnew. pose proof Hw as (Hi & Ho & Hf & Hds & Hm & Hfi & Hff & Hi0 & Ha & Hj & Hne & Hjf & Hji).
  pose proof Hs as ((Hd & _) & _).
  apply wp_bind. unfold inode_remove. apply wp_bind, wp_ASSERT; [unfold NULL; lia|].
  apply wp_bind. eapply wp_eq; [unfold get_inode; by rewrite Hi, lookup_insert_eq|]. apply wp_modify.
  set (f1 := set_inodes _ _). cbn [set_removed sector open_cnt deny_write_cnt data] in f1.
  assert (stored f1 fm N md rd T m) as Hs1 by (eapply stored_quiet; [exact Hs|]; by apply quiet_mem).
  apply wp_bind. eapply wp_mono.
  { apply (close_removed f1 fm N md rd T m j s d (mk_inode s 1 true 0 d)); try done; [lia | |].
    - unfold f1. simpl. by rewrite lookup_insert_eq.
    - unfold base, f1. simpl. rewrite Hi, Hf, Hm, lookup_singleton_eq. split_and!; [lia | lia|]. exists fi.
      by rewrite !lookup_insert_ne, lookup_singleton_eq. }
  intros _ g (fm' & Hs' & Hfm' & Hn' & Hmm). apply wp_ret. split; [done|]. exists fm'. split_and!; [done | | done].
  unfold mem in Hmm. injection Hmm as _ Hmi Hmo Hmf Hmds Hmff. unfold f1 in *. simpl in *.
  unfold with_root. rewrite Hmi, Hmo, Hmf, Hmds, Hmff, Hi, Ho, Hf, Hds, Hm.
  rewrite insert_insert_eq, delete_insert_id by (by rewrite lookup_insert_ne, lookup_singleton_ne).
  rewrite filter_cons_False by (intros ?; done). rewrite !filter_cons_True by done.
  split_and!; try done; lia.
Qed.

Lemma dir_remove_ok f fm N md rd T m fi ff i a nm :
  stored f fm N md rd T m → free_map f = Some fm → with_root f fi ff md rd i a →
  wp (dir_remove malloc_ok stack_bytes a nm)
    (λ (ok : bool) g, ∃ fm' N' T', free_map g = Some fm' ∧ with_root g fi ff md rd i a
       ∧ stored g fm' N' md rd T' (delete nm m) ∧ (ok = true ↔ is_Some (m !! nm))) f.
Proof.
  intros Hs Hfm Hr. pose proof (with_root_dir _ _ _ _ _ _ _ _ _ _ _ Hs Hr) as Hdir.
  pose proof Hs as (Hi & Ht & Hv). pose proof Ht as (H0 & Hl0 & H1 & Hl1 & Hss & Hinj & HT).
  assert (0 < a) as Ha by apply Hr. unfold dir_remove. apply wp_bind, wp_ASSERT; [unfold NULL; lia|].
  apply wp_bind. eapply wp_mono; [apply (lookup_ok malloc_ok Hmem stack_bytes Hstack f a rd 16); [done | by eapply slots_ok_named]|].
  intros r f1 (Hf1 & Hp1 & ->). pose proof (quiet_frame _ _ Hf1 Hp1) as Hq1.
  pose proof (stored_quiet _ _ _ _ _ _ _ _ Hs Hq1) as Hs1. destruct (frame_mem _ _ Hf1) as [Hm1 Hfm1]. rewrite Hfm in Hfm1.
  assert (next f ≤ next f1) as Hn1 by apply Hq1. pose proof (mem_with_root _ _ _ _ _ _ _ _ Hm1 Hn1 Hr) as Hr1.
  pose proof (find_slot_map _ _ nm Hss) as Hfind. pose proof (view_lookup f N md rd T m nm Ht Hv) as Hvl.
  destruct (T !! nm) as [s|] eqn:HTn.
  2: { rewrite Hfind. apply wp_bind, wp_ret, wp_ret. exists fm, N, T. rewrite delete_id by (by apply Hvl).
       split_and!; [done..|]. rewrite (proj2 Hvl) by done. split; [done | by intros []]. }
  destruct Hfind as (k & e & -> & Hke & Hue & Hne & Hse). rewrite Hse. destruct (HT _ _ HTn) as (Hs0 & Hs1' & [d Hd]).
  pose proof (lookup_lt_Some _ _ _ Hke) as Hk. rewrite slots_length in Hk.
  assert (slot f rd (Z.of_nat k) = e) as Hslot.
  { rewrite <- (Nat2Z.id k), slots_lookup in Hke by lia. by injection Hke. }
  apply wp_bind. eapply wp_mono; [by apply (open_node f1 fm N md rd T m fi ff i a s d)|].
  intros j f2 [Hq2 Hw2]. pose proof (stored_quiet _ _ _ _ _ _ _ _ Hs1 Hq2) as Hs2.
  assert (0 < j) as Hj by apply Hw2. destruct (Z.eqb_spec j NULL) as [->|_]; [unfold NULL in Hj; lia|].
  apply wp_bind, clear_in_use; [rewrite <- Hslot; apply slot_length | rewrite <- Hslot; apply bytes_range, Hi |].
  intros e' Hl' Hb' Hu'. rewrite s32_small by lia.
  destruct (write_slot malloc_ok Hmem stack_bytes Hstack f2 a rd 16 (Z.of_nat k) e') as (y & Ey & Hw); [by eapply with_node_dir | lia | done | done |].
  apply wp_bind. eapply wp_eq; [unfold get_dir; by rewrite Ey|]. apply wp_bind. eapply wp_mono; [exact Hw|].
  intros w f3 [Hf3 Hp3]. rewrite decide_True in Hp3 by lia. destruct Hp3 as [-> Hp3]. simpl.
  assert (slots f2 rd 16 = slots f rd 16) as Hsl by (apply (slots_quiet f f2 fm N md rd T m); [done | by eapply quiet_trans]).
  destruct (stored_slot f2 f3 fm N md rd T m (Z.of_nat k) e') as ((_ & _ & _ & Hn3 & _) & _); [done | done | lia | done | done |].
  assert (stored f3 fm (delete s N) md rd (delete nm T) (delete nm m)) as Hs3.
  { apply (stored_remove f2 f3 fm N md rd T m nm s k e'); try done. exists e. by rewrite Hsl. }
  assert (with_node f3 fi ff md rd i a j (mk_inode s 1 false 0 d)) as Hw3.
  { destruct (frame_mem _ _ Hf3) as [Hmm _]. unfold mem in Hmm. injection Hmm as _ Hmi Hmo Hmf Hmds Hmff.
    eapply with_node_mem; [exact Hw2 | | done..|apply Hf3]. rewrite Hmi. pose proof Hw2 as (-> & _).
    by rewrite insert_insert_eq. }
  assert (free_map f3 = Some fm) as Hfm3.
  { destruct (frame_mem _ _ Hf3) as [_ ->]. destruct Hq2 as (_ & _ & _ & -> & _). done. }
  eapply wp_mono.
  { apply (remove_node f3 fm (delete s N) md rd (delete nm T) (delete nm m) fi ff i a j s d); try done; [by apply Hn3|].
    intros s' d' t [Hne' Hs']%lookup_delete_Some Ho Ho'.
    by eapply (disk_inv_disjoint f fm N s d s' d' t). }
  intros ok g (-> & fm' & Hfm' & Hr' & Hst). exists fm', (delete s N), (delete nm T). split_and!; [done..|].
  split; [|done]. intros _. rewrite Hv, HTn. simpl. rewrite Hd. done.
Qed.

Lemma filesys_remove_ok f m nm :
  holds f m →
  wp (filesys_remove malloc_ok stack_bytes nm)
    (λ (ok : bool) g, holds g (delete nm m) ∧ (ok = true ↔ is_Some (m !! nm))) f.
Proof.
  intros (fm & N & md & rd & T & fi & ff & Hfm & Hs & Hrest).
  unfold filesys_remove. apply wp_bind. eapply wp_mono; [by apply (open_root_ok f fm N md rd T m fi ff)|].
  intros a f1 (i & Hq & Hr). pose proof (stored_quiet _ _ _ _ _ _ _ _ Hs Hq) as Hs1.
  pose proof Hq as (_ & _ & _ & Hfm1 & _). rewrite Hfm in Hfm1.
  assert (0 < a) as Ha by apply Hr. destruct (Z.eqb_spec a NULL) as [->|_]; [unfold NULL in Ha; lia|].
  apply wp_bind. eapply wp_mono; [by apply (dir_remove_ok f1 fm N md rd T m fi ff i a nm)|].
  intros ok f2 (fm2 & N2 & T2 & Hfm2 & Hr2 & Hs2 & Hok). pose proof Hs2 as ((Hd2 & _) & _).
  apply wp_bind. eapply wp_mono; [by apply (close_root_ok f2 fi ff md rd i a)|]. intros _ g [Hqg Hat]. apply wp_ret.
  split; [|done]. exists fm2, N2, md, rd, T2, fi, ff. split_and!; [|by eapply stored_quiet|done].
  destruct Hqg as (_ & _ & _ & -> & _). done.
Qed.

(** ** Transfers *)

(** A file is open as [b]. *)
Definition with_file f (fi ff : Z) (md : inode_disk) (j b : Z) (x : inode) : Prop :=
  inodes f = <[j := x]> {[ fi := map_inode md ]} ∧ open_inodes f = [j; fi]
  ∧ files f = <[b := mk_file j 0 false]> {[ ff := mk_file fi 0 false ]} ∧ dirs f = ∅ ∧ free_map_file f = ff
  ∧ 0 < fi < next f ∧ 0 < ff < next f ∧ 0 < j < next f ∧ 0 < b < next f ∧ j ≠ fi ∧ b ≠ ff.

Lemma close_root_node f fi ff md rd i a j x :
  dev_ok f → with_node f fi ff md rd i a j x →
  wp (dir_close malloc_ok a ;; file_open malloc_ok j) (λ b g, quiet f g ∧ with_file g fi ff md j b x) f.
Proof.
  intros Hd (Hi & Ho & Hf & Hds & Hm & Hfi & Hff & Hi0 & Ha & Hj & Hne & Hjf & Hji). unfold dir_close.
  destruct (Z.eqb_spec a NULL) as [->|_]; [unfold NULL in Ha; lia|].
  apply wp_bind, wp_bind. eapply wp_eq; [unfold get_dir; by rewrite Hds, lookup_singleton_eq|]. apply wp_bind.
  eapply wp_eq.
  { apply (inode_close_ok malloc_ok f i (root_inode rd)); try done; [lia|]. by rewrite Hi, lookup_insert_ne, lookup_insert_eq. }
  apply wp_modify. unfold file_open. apply wp_bind. eapply wp_mono; [apply malloc_some; [done | simpl; lia]|].
  intros b g (Hb & -> & ->). simpl in Hb |- *.
  assert (negb (j =? NULL) && negb (next f =? NULL) = true) as -> by (unfold NULL; lia).
  apply wp_bind, wp_modify, wp_ret. split; [apply quiet_mem; try done; simpl; lia|].
  unfold with_file. simpl. rewrite Hi, Ho, Hf, Hds, Hm.
  rewrite delete_insert_ne, delete_insert_id by (done || by rewrite lookup_singleton_ne).
  rewrite filter_cons_True by done. rewrite filter_cons_False by (intros ?; done). rewrite filter_cons_True by done.
  rewrite delete_singleton_eq. split_and!; try done; lia.
Qed.

Lemma filesys_open_ok f fm N md rd T m fi ff nm :
  stored f fm N md rd T m → at_rest f fi ff md →
  wp (filesys_open malloc_ok stack_bytes nm)
    (λ b g, quiet f g ∧
       match T !! nm with
       | None => b = NULL ∧ at_rest g fi ff md
       | Some s => ∃ j d, N !! s = Some d ∧ with_file g fi ff md j b (mk_inode s 1 false 0 d)
       end) f.
Proof.
  intros Hs Hrest. pose proof Hs as (Hi & (H0 & Hl0 & H1 & Hl1 & Hss & Hinj & HT) & Hv).
  unfold filesys_open. apply wp_bind. eapply wp_mono; [by apply (open_root_ok f fm N md rd T m fi ff)|].
  intros a f1 (i & Hq1 & Hr1). pose proof (stored_quiet _ _ _ _ _ _ _ _ Hs Hq1) as Hs1.
  pose proof (slots_quiet f f1 fm N md rd T m Hs Hq1) as Hsl.
  pose proof (with_root_dir _ _ _ _ _ _ _ _ _ _ _ Hs1 Hr1) as Hdir.
  assert (0 < a) as Ha by apply Hr1. destruct (Z.eqb_spec a NULL) as [->|_]; [unfold NULL in Ha; lia|].
  apply wp_bind. unfold dir_lookup. apply wp_bind, wp_ASSERT; [unfold NULL; lia|]. apply wp_bind.
  eapply wp_mono; [apply (lookup_ok malloc_ok Hmem stack_bytes Hstack f1 a rd 16); [done | rewrite Hsl; by eapply slots_ok_named]|].
  intros r f2 (Hf2 & Hp2 & ->). pose proof (quiet_frame _ _ Hf2 Hp2) as Hq2. rewrite Hsl.
  pose proof (stored_quiet _ _ _ _ _ _ _ _ Hs1 Hq2) as Hs2. destruct (frame_mem _ _ Hf2) as [Hm2 _].
  assert (next f1 ≤ next f2) as Hn2 by apply Hq2. pose proof (mem_with_root _ _ _ _ _ _ _ _ Hm2 Hn2 Hr1) as Hr2.
  assert (quiet f f2) as Hq by by eapply quiet_trans.
  pose proof (find_slot_map _ _ nm Hss) as Hfind. destruct (T !! nm) as [s|] eqn:HTn.
  - destruct Hfind as (k & e & -> & _ & _ & _ & ->). destruct (HT _ _ HTn) as (Hs0 & Hs1' & [d Hd]).
    eapply wp_mono; [by apply (open_node f2 fm N md rd T m fi ff i a s d)|]. intros j f3 [Hq3 Hw3].
    eapply wp_mono; [apply (close_root_node f3 fi ff md rd i a j); [apply Hq3 | done]|]. intros b g [Hqg Hwf].
    split; [by eapply quiet_trans; [|eapply quiet_trans]|]. exists j, d. done.
  - rewrite Hfind. apply wp_ret. apply wp_bind.
    eapply wp_mono; [apply (close_root_ok f2 fi ff md rd i a); [apply Hq2 | done]|]. intros _ f3 [Hq3 Hat].
    pose proof Hq3 as (Hd3 & _ & _ & _ & Hn3). pose proof Hat as (_ & _ & _ & _ & _ & ? & ?).
    unfold file_open. apply wp_bind. eapply wp_mono; [apply malloc_some; [done | lia]|]. intros b g (Hb & -> & ->).
    simpl. apply wp_bind, wp_ret, wp_ret. split.
    + eapply quiet_trans; [exact Hq|]. eapply quiet_trans; [exact Hq3|]. apply quiet_mem; try done. simpl. lia.
    + split; [done|]. eapply mem_at_rest; [|..|exact Hat]; [done | simpl; lia].
Qed.

Lemma file_close_ok f fi ff md j b x :
  dev_ok f → with_file f fi ff md j b x → open_cnt x = 1 → removed x = false →
  wp (file_close malloc_ok b) (λ _ g, quiet f g ∧ at_rest g fi ff md) f.
Proof.
  intros Hd (Hi & Ho & Hf & Hds & Hm & Hfi & Hff & Hj & Hb & Hjf & Hbf) Hoc Hrm. unfold file_close.
  assert (get_file b f = Ok (mk_file j 0 false, f)) as Hget by (unfold get_file; by rewrite Hf, lookup_insert_eq).
  destruct (Z.eqb_spec b NULL) as [->|Hnb]; [unfold NULL in Hb; lia|].
  apply wp_bind. unfold file_allow_write. apply wp_bind, wp_ASSERT; [unfold NULL in *; lia|].
  apply wp_bind. eapply wp_eq; [exact Hget|]. simpl. apply wp_ret. apply wp_bind. eapply wp_eq; [exact Hget|].
  apply wp_bind. eapply wp_eq.
  { apply (inode_close_ok malloc_ok f j x); try done; [lia|]. by rewrite Hi, lookup_insert_eq. }
  apply wp_modify. split; [by apply quiet_mem|]. unfold at_rest. simpl. rewrite Hi, Ho, Hf, Hds, Hm.
  rewrite !delete_insert_id by (by rewrite lookup_singleton_ne).
  rewrite filter_cons_False by (intros ?; done). rewrite filter_cons_True by done. split_and!; try done; lia.
Qed.

(** Writing to a file changes its contents only. *)
Lemma stored_write f g fm N md rd T m nm s d :
  stored f fm N md rd T m → dev_ok g → dev_size g = dev_size f → T !! nm = Some s → N !! s = Some d →
  only (in_data d) f g → stored g fm N md rd T (<[nm := contents g d]> m).
Proof.
  intros Hs Hdg Hsg HTn Hd Ho. pose proof Hs as (Hi & (H0 & Hl0 & H1 & Hl1 & Hss & Hinj & HT) & Hv).
  pose proof Hi as (_ & Hwf & _ & Hn & _). destruct (HT _ _ HTn) as (Hs0 & Hs1 & _).
  pose proof (Hn _ _ Hd) as (_ & _ & _ & Hlen & _ & Hself & _).
  assert (touch (dat d) f g) as Hto by by apply touch_data.
  assert (∀ s' d' t, N !! s' = Some d' → s' ≠ s → own s' d' t → ¬ dat d t) as Hdis.
  { intros s' d' t Hs' Hne Hown Hdat. by eapply (disk_inv_disjoint f fm N s' d' s d t); [..|by right]. }
  split_and!.
  - apply (disk_inv_change (dat d) f g fm); try done.
    + intros s' d' Hs' Hdat. destruct (decide (s' = s)) as [->|Hne]; [by apply Hself|].
      eapply (Hdis s' d' s'); [done..|by left|done].
    + intros s' d' t Hs'. by apply (disk_inv_free f fm N s' d').
  - split_and!; [done | by rewrite Hsg | done | done | | done | done].
    rewrite (slots_touch (dat d) f g fm rd 16); try done; [by apply Hn|]. intros t. by apply Hdis.
  - intros n1. destruct (decide (n1 = nm)) as [->|Hne].
    + rewrite lookup_insert_eq, HTn. simpl. by rewrite Hd.
    + rewrite lookup_insert_ne by done. rewrite Hv. destruct (T !! n1) as [s'|] eqn:E1; [|done]. simpl.
      destruct (HT _ _ E1) as (_ & _ & [d' Hd']). rewrite Hd'. simpl. f_equal. symmetry.
      apply (touch_contents (dat d) f g fm s'); [done | done | by apply Hn |]. intros t. apply Hdis; [done|].
      intros ->. by apply Hne, (Hinj _ _ s).
Qed.
End ops.
End FilesysOps.
