(* ===== verification/FilesysProps.v ===== *)
(** * Properties of the file system

    Any sequence of creations, removals, reads and writes of files by name
    behaves like the same operations on a finite map from names to
    contents. *)
From stdpp Require Import base gmap list list_numbers.
From Stdlib Require Import ZArith Lia.
From S2P Require Import Prelude Bitmap Block Filesys FileIO FreeMap Directory FilesysInv FilesysOps.

Module FilesysProps.
Import Filesys FileIO FreeMap Directory FilesysInv FilesysOps.

(** ** Clients *)

Inductive fs_op :=
  | Create (nm : list Z) (len : Z)
  | Remove (nm : list Z)
  | ReadFile (nm : list Z) (n ofs : Z)
  | WriteFile (nm : list Z) (bs : list Z) (ofs : Z).

Inductive fs_res :=
  | RBool (b : bool)
  | RBytes (o : option (list Z))
  | RCount (o : option Z).

(** Names are C strings, and sizes and offsets fit in an [off_t]. *)
Definition fs_op_ok (o : fs_op) : Prop :=
  match o with
  | Create nm len => Forall (λ c, 0 < c < 256) nm ∧ 0 ≤ len < 2^31 - 512
  | Remove nm => True
  | ReadFile nm n ofs => 0 ≤ n < 2^31 ∧ 0 ≤ ofs < 2^31
  | WriteFile nm bs ofs => Z.of_nat (List.length bs) < 2^31 ∧ Forall (λ c, 0 ≤ c < 256) bs ∧ 0 ≤ ofs < 2^31
  end.

(** What the operations do to a map from names to contents. *)
Inductive fs_spec (m : gmap (list Z) (list Z)) : fs_op → fs_res → gmap (list Z) (list Z) → Prop :=
  | spec_create nm len :
      valid_name nm → m !! nm = None →
      fs_spec m (Create nm len) (RBool true) (<[nm := replicate (Z.to_nat len) 0]> m)
  | spec_create_fails nm len : fs_spec m (Create nm len) (RBool false) m
  | spec_remove nm :
      fs_spec m (Remove nm) (RBool (bool_decide (is_Some (m !! nm)))) (delete nm m)
  | spec_read nm n ofs :
      fs_spec m (ReadFile nm n ofs) (RBytes ((λ c, read_spec c n ofs) <$> m !! nm)) m
  | spec_write nm bs ofs :
      fs_spec m (WriteFile nm bs ofs) (RCount ((λ c, write_len c bs ofs) <$> m !! nm))
        (alter (λ c, write_spec c bs ofs) nm m).

Inductive fs_specs : gmap (list Z) (list Z) → list fs_op → list fs_res → gmap (list Z) (list Z) → Prop :=
  | specs_nil m : fs_specs m [] [] m
  | specs_cons m o r m' os rs m'' :
      fs_spec m o r m' → fs_specs m' os rs m'' → fs_specs m (o :: os) (r :: rs) m''.

Section client.
Context {D : Type} `{BlockDevices D}.
Context (malloc_ok : Z → bool) (stack_bytes : list Z).

(** Each operation opens the file that it works on and closes it. *)
Definition run_fs_op (o : fs_op) : M (fs D) fs_res :=
  match o with
  | Create nm len => b ← filesys_create malloc_ok stack_bytes nm len; mret (RBool b)
  | Remove nm => b ← filesys_remove malloc_ok stack_bytes nm; mret (RBool b)
  | ReadFile nm n ofs =>
      a ← filesys_open malloc_ok stack_bytes nm;
      if a =? NULL then mret (RBytes None) else
      r ← file_read_at malloc_ok a (replicate (Z.to_nat n) 0) n ofs;
      file_close malloc_ok a ;;
      mret (RBytes (Some (take (Z.to_nat r.1) r.2)))
  | WriteFile nm bs ofs =>
      a ← filesys_open malloc_ok stack_bytes nm;
      if a =? NULL then mret (RCount None) else
      n ← file_write_at malloc_ok a bs (Z.of_nat (List.length bs)) ofs;
      file_close malloc_ok a ;;
      mret (RCount (Some n))
  end.
Fixpoint run_fs_ops (os : list fs_op) : M (fs D) (list fs_res) :=
  match os with
  | [] => mret []
  | o :: os => r ← run_fs_op o; rs ← run_fs_ops os; mret (r :: rs)
  end.
End client.

Section proofs.
Context {D : Type} `{BlockDevices D}.
Context (malloc_ok : Z → bool) (Hmem : ∀ a, malloc_ok a = true).
Context (stack_bytes : list Z) (Hstack : List.length stack_bytes = 20%nat ∧ Forall (λ c, 0 ≤ c < 256) stack_bytes).
Implicit Types f g : fs D.

Lemma with_file_ok f fm N md rd T m fi ff j b s d :
  stored f fm N md rd T m → N !! s = Some d → with_file f fi ff md j b (mk_inode s 1 false 0 d) →
  files f !! b = Some (mk_file j 0 false) ∧ inodes f !! j = Some (mk_inode s 1 false 0 d)
  ∧ inode_ok f (mk_inode s 1 false 0 d) ∧ 0 < next f ∧ 0 < b.
Proof.
  intros Hs Hd (Hi & _ & Hf & _ & _ & ? & ? & ? & ? & ? & ?). rewrite Hi, Hf, !lookup_insert_eq.
  split_and!; [done | done | | lia | lia]. by eapply node_inode.
Qed.

Lemma with_file_frame f g fi ff md j b x : frame f g → with_file f fi ff md j b x → with_file g fi ff md j b x.
Proof.
  intros Hf. destruct (frame_mem _ _ Hf) as [Hmm _]. destruct Hf as (_ & _ & Hn & _). unfold mem in Hmm.
  injection Hmm as _ Hmi Hmo Hmf Hmds Hmff. unfold with_file. rewrite Hmi, Hmo, Hmf, Hmds, Hmff.
  intros (? & ? & ? & ? & ? & ? & ? & ? & ? & ? & ?). split_and!; (done || lia).
Qed.

Lemma holds_intro f g fm N md rd T m fi ff :
  stored f fm N md rd T m → free_map f = Some fm → quiet f g → at_rest g fi ff md → holds g m.
Proof.
  intros Hs Hfm Hq Hat. exists fm, N, md, rd, T, fi, ff. split_and!; [|by eapply stored_quiet|done].
  destruct Hq as (_ & _ & _ & -> & _). done.
Qed.

Lemma read_file_ok f m nm n ofs :
  holds f m → 0 ≤ n < 2^31 → 0 ≤ ofs < 2^31 →
  wp (run_fs_op malloc_ok stack_bytes (ReadFile nm n ofs))
    (λ r g, holds g m ∧ r = RBytes ((λ c, read_spec c n ofs) <$> m !! nm)) f.
Proof.
  intros (fm & N & md & rd & T & fi & ff & Hfm & Hs & Hrest) Hn Hofs. pose proof Hs as (_ & (_ & _ & _ & _ & _ & _ & HT) & Hv).
  simpl. apply wp_bind. eapply wp_mono; [by apply (filesys_open_ok malloc_ok Hmem stack_bytes Hstack f fm N md rd T m fi ff)|].
  intros b f1 [Hq1 Hres]. rewrite Hv. destruct (T !! nm) as [s|] eqn:HTn; simpl.
  2: { destruct Hres as [-> Hat]. simpl. apply wp_ret. split; [|done]. by eapply (holds_intro f f1). }
  destruct Hres as (j & d & Hd & Hw). rewrite Hd. simpl.
  pose proof (stored_quiet _ _ _ _ _ _ _ _ Hs Hq1) as Hs1.
  destruct (with_file_ok _ _ _ _ _ _ _ _ _ _ _ _ _ Hs1 Hd Hw) as (Eb & Ej & Hx & Hn1 & Hb).
  destruct (Z.eqb_spec b NULL) as [->|_]; [unfold NULL in Hb; lia|].
  apply wp_bind. unfold file_read_at. apply wp_bind. eapply wp_eq; [by apply get_file_eq|].
  eapply wp_mono; [apply (read_all malloc_ok Hmem f1 0 (mk_file j 0 false) (mk_inode s 1 false 0 d)); try done; apply Hq1|].
  intros r f2 (Hf2 & Hp2 & Hr & _). pose proof (quiet_frame _ _ Hf2 Hp2) as Hq2.
  apply wp_bind. eapply wp_mono; [apply (file_close_ok malloc_ok stack_bytes Hstack f2 fi ff md j b (mk_inode s 1 false 0 d)); [apply Hq2 | by apply (with_file_frame f1) | done | done]|].
  intros _ g [Hq3 Hat]. apply wp_ret. split.
  - eapply (holds_intro f g); try done. by eapply quiet_trans; [|eapply quiet_trans].
  - do 2 f_equal. rewrite Hr. f_equal. unfold content, contents. simpl.
    apply (touch_contents (λ _, False) f f1 fm s); [by apply only_nothing, Hq1 | apply Hq1 | by eapply stored_node | by intros t _ []].
Qed.

Lemma write_file_ok f m nm bs ofs :
  holds f m → Z.of_nat (List.length bs) < 2^31 → Forall (λ c, 0 ≤ c < 256) bs → 0 ≤ ofs < 2^31 →
  wp (run_fs_op malloc_ok stack_bytes (WriteFile nm bs ofs))
    (λ r g, holds g (alter (λ c, write_spec c bs ofs) nm m) ∧ r = RCount ((λ c, write_len c bs ofs) <$> m !! nm)) f.
Proof.
  intros (fm & N & md & rd & T & fi & ff & Hfm & Hs & Hrest) Hn Hbs Hofs. pose proof Hs as (_ & (_ & _ & _ & _ & _ & _ & HT) & Hv).
  simpl. apply wp_bind. eapply wp_mono; [by apply (filesys_open_ok malloc_ok Hmem stack_bytes Hstack f fm N md rd T m fi ff)|].
  intros b f1 [Hq1 Hres]. pose proof (Hv nm) as Hvn. destruct (T !! nm) as [s|] eqn:HTn; simpl in Hvn.
  2: { destruct Hres as [-> Hat]. simpl. apply wp_ret. rewrite Hvn, alter_id by (intros x; by rewrite Hvn).
       split; [|done]. by eapply (holds_intro f f1). }
  destruct Hres as (j & d & Hd & Hw). rewrite Hd in Hvn. simpl in Hvn. rewrite Hvn. simpl.
  pose proof (stored_quiet _ _ _ _ _ _ _ _ Hs Hq1) as Hs1. pose proof Hs1 as (_ & _ & Hv1).
  destruct (with_file_ok _ _ _ _ _ _ _ _ _ _ _ _ _ Hs1 Hd Hw) as (Eb & Ej & Hx & Hn1 & Hb).
  destruct (Z.eqb_spec b NULL) as [->|_]; [unfold NULL in Hb; lia|].
  apply wp_bind. unfold file_write_at. apply wp_bind. eapply wp_eq; [by apply get_file_eq|].
  eapply wp_mono; [apply (inode_write_at_ok malloc_ok f1 j (mk_inode s 1 false 0 d)); try done; [apply Hq1 | lia]|].
  intros k f2 (Hf2 & Hk & Hp2 & Hall). set (x := mk_inode s 1 false 0 d) in *.
  assert (k = avail x (Z.of_nat (List.length bs)) ofs) as ->.
  { destruct (decide (k < avail x (Z.of_nat (List.length bs)) ofs)) as [Hlt|]; [|lia].
    destruct (Hall Hlt Hn1) as (c & _ & Hc). by rewrite Hmem in Hc. }
  destruct (write_spec_bytes f1 f2 x bs ofs) as [Hspec Hlen]; [done | done | lia | done |].
  assert (content f1 x = contents f d) as Hc1.
  { specialize (Hv1 nm). rewrite HTn in Hv1. simpl in Hv1. rewrite Hd, Hvn in Hv1. by injection Hv1 as Hv1. }
  rewrite Hc1 in Hspec, Hlen.
  apply wp_bind. eapply wp_mono; [apply (file_close_ok malloc_ok stack_bytes Hstack f2 fi ff md j b x); [apply Hf2 | by apply (with_file_frame f1) | done | done]|].
  intros _ g [Hq3 Hat]. apply wp_ret. rewrite Hlen. split; [|done].
  assert (alter (λ c, write_spec c bs ofs) nm m = <[nm := contents f2 d]> m) as ->.
  { apply map_eq. intros n1. destruct (decide (n1 = nm)) as [->|]; [|by rewrite lookup_alter_ne, lookup_insert_ne].
    rewrite lookup_alter_eq, lookup_insert_eq, Hvn. simpl. by rewrite Hspec. }
  eapply (holds_intro f2 g); [|  | exact Hq3 | exact Hat].
  - apply (stored_write f1 f2 fm N md rd T m nm s d); try done; [apply Hf2 | by apply size_frame|].
    apply only_patched in Hp2. eapply only_mono; [|exact Hp2]. unfold in_data, avail. simpl. intros p.
    rewrite length_take. lia.
  - destruct (frame_mem _ _ Hf2) as [_ ->]. destruct Hq1 as (_ & _ & _ & -> & _). done.
Qed.

Lemma run_fs_op_ok f m o :
  holds f m → fs_op_ok o →
  wp (run_fs_op malloc_ok stack_bytes o) (λ r g, ∃ m', fs_spec m o r m' ∧ holds g m') f.
Proof.
  intros Hh Ho. destruct o as [nm len|nm|nm n ofs|nm bs ofs]; simpl in Ho.
  - destruct Ho as [Hnm Hlen]. simpl. apply wp_bind. eapply wp_mono; [by apply (filesys_create_ok malloc_ok Hmem stack_bytes Hstack f m nm len)|].
    intros [] g Hg; apply wp_ret.
    + destruct Hg as (? & ? & ?). eexists. split; [by constructor | done].
    + destruct Hg as [? _]. exists m. split; [constructor | done].
  - simpl. apply wp_bind. eapply wp_mono; [by apply (filesys_remove_ok malloc_ok Hmem stack_bytes Hstack f m nm)|].
    intros ok g [Hg Hok]. apply wp_ret. exists (delete nm m). split; [|done].
    assert (ok = bool_decide (is_Some (m !! nm))) as ->; [|constructor].
    destruct ok; symmetry; [by apply bool_decide_eq_true, Hok|]. apply bool_decide_eq_false. intros Hm.
    by apply Hok in Hm.
  - destruct Ho as [Hn Hofs]. eapply wp_mono; [by apply read_file_ok|]. intros r g [Hg ->]. exists m. split; [constructor | done].
  - destruct Ho as (Hn & Hbs & Hofs). eapply wp_mono; [by apply write_file_ok|]. intros r g [Hg ->]. eexists. split; [constructor | done].
Qed.

Lemma run_fs_ops_ok os : ∀ f m,
  holds f m → Forall fs_op_ok os →
  wp (run_fs_ops malloc_ok stack_bytes os) (λ rs g, ∃ m', fs_specs m os rs m' ∧ holds g m') f.
Proof.
  induction os as [|o os IH]; intros f m Hh Ho.
  - apply wp_ret. exists m. split; [constructor | done].
  - apply Forall_cons in Ho as [Ho Hos]. cbn [run_fs_ops]. apply wp_bind.
    eapply wp_mono; [by apply run_fs_op_ok|]. intros r g (m' & Hr & Hg).
    apply wp_bind. eapply wp_mono; [by apply IH|]. intros rs h (m'' & Hrs & Hh'). apply wp_ret.
    exists m''. split; [by econstructor | done].
Qed.
End proofs.

(** ** A formatted device *)

#[local] Existing Instance Block.block_devices.

(** A device of 100 sectors, formatted by [filesys_init]. *)
Definition fs_disk : Block.devices := Block.set_block_by_role {[ 1 := 1 ]} (Block.disk_with Block.zeros).
Definition boot_fs : fs Block.devices := mk_fs fs_disk 0 ∅ [] ∅ ∅ None NULL 1.
Definition formatted_fs : fs Block.devices :=
  match filesys_init (λ _, true) (replicate 4 7) true boot_fs with Ok (_, f) => f | Err _ => boot_fs end.
Definition demo_stack : list Z := replicate 20 3.

Definition demo_md : inode_disk := new_disk 2 16.
Definition demo_rd : inode_disk := new_disk 3 320.

Lemma formatted_dev_ok : dev_ok formatted_fs.
Proof.
  split_and!; [split|by vm_compute|by eexists; vm_compute].
  - assert (Block.blocks (dev formatted_fs) = {[ 1 := Block.mk_block [104; 100; 97] Block.BLOCK_RAW 100 (Block.ide_operations 7) 5 6 ]}
      ∧ Block.next (dev formatted_fs) = 2) as [-> Hn] by (split; by vm_compute).
    intros b x [<- <-]%lookup_singleton_Some. unfold Block.wf_block. rewrite Hn. simpl. lia.
  - apply (bool_decide_unpack (map_Forall (λ _ x, Block.is_sector x) (Block.disks (dev formatted_fs)))). by vm_compute.
Qed.

Lemma formatted_node s d fm :
  free_map formatted_fs = Some fm → (s, d) = (0, demo_md) ∨ (s, d) = (1, demo_rd) → node_ok formatted_fs fm s d.
Proof.
  intros Hfm Hsd.
  assert (∀ t, 0 ≤ t < 4 → Bitmap.bit fm t = true) as Hbit.
  { vm_compute in Hfm. injection Hfm as <-. intros t Ht.
    assert (t = 0 ∨ t = 1 ∨ t = 2 ∨ t = 3) as [->|[->|[->| ->]]] by lia; done. }
  clear Hfm. assert (dev_size formatted_fs = 100 ∧ nsec demo_md = 1 ∧ nsec demo_rd = 1) as (Hsz & Hn1 & Hn2)
    by (split_and!; by vm_compute).
  unfold node_ok. rewrite Hsz.
  assert (start demo_md = 2 ∧ start demo_rd = 3 ∧ length demo_md = 16 ∧ length demo_rd = 320) as (Hs1 & Hs2 & Hl1 & Hl2) by by split_and!.
  destruct Hsd as [[= -> ->]|[= -> ->]]; rewrite ?Hs1, ?Hs2, ?Hl1, ?Hl2, ?Hn1, ?Hn2.
  all: split_and!; try lia; [by vm_compute|]; unfold own; rewrite ?Hs1, ?Hs2, ?Hn1, ?Hn2; intros t Ht; apply Hbit; lia.
Qed.

Lemma formatted_holds : holds formatted_fs ∅.
Proof.
  destruct (free_map formatted_fs) as [fm|] eqn:Hfm; [|by vm_compute in Hfm].
  exists fm, {[ 0 := demo_md; 1 := demo_rd ]}, demo_md, demo_rd, ∅, 9, 10.
  assert (∀ s d, ({[ 0 := demo_md; 1 := demo_rd ]} : gmap Z inode_disk) !! s = Some d →
    (s, d) = (0, demo_md) ∨ (s, d) = (1, demo_rd)) as HN.
  { intros s d [[<- <-]|[_ [<- <-]%lookup_singleton_Some]]%lookup_insert_Some; [by left | by right]. }
  assert (nsec demo_md = 1 ∧ nsec demo_rd = 1) as (Hn1 & Hn2) by (split_and!; by vm_compute).
  pose proof (λ s d, formatted_node s d fm Hfm) as Hnode.
  assert (Bitmap.wf fm ∧ Bitmap.bit_cnt fm = dev_size formatted_fs) as [Hwf Hcnt].
  { vm_compute in Hfm. injection Hfm as <-. split; [|by vm_compute]. split_and!; [done | done | done | by repeat constructor]. }
  split; [exact Hfm|]. clear Hfm. split; [split_and!|split_and!; by vm_compute].
  - split_and!; [apply formatted_dev_ok | done | done | |].
    + intros s d Hsd. by apply Hnode, HN.
    + intros s d s' d' t [[= -> ->]|[= -> ->]]%HN [[= -> ->]|[= -> ->]]%HN; unfold own; rewrite ?Hn1, ?Hn2; simpl; lia.
  - split_and!; [by vm_compute..| | done | done].
    assert (slots formatted_fs demo_rd 16 = replicate 16 (replicate 20 0)) as -> by by vm_compute.
    split_and!; [|done|].
    + intros k e [-> _]%lookup_replicate Hu. by vm_compute in Hu.
    + intros k k' e e' [-> _]%lookup_replicate _ Hu. by vm_compute in Hu.
  - intros nm. by rewrite !lookup_empty.
Qed.

(** ** Properties *)

(** C6: The file system is a map from names to contents, as long as the kernel
    has memory: every [malloc] is assumed to succeed.  Starting from a file
    system that holds the files [m], none of which is open, any sequence of
    creations, removals, reads and writes, each of which opens and closes the
    file that it names, returns, and returns what the same sequence
    returns on the map: a created file has the given length and is all
    zeros, a removed file is gone, a read returns what was last written, a
    write changes only the file that it names, and names are unique.  The
    invariant says that no two inodes share a sector and that all their
    sectors are taken in the free map; it holds again at the end. *)
Theorem filesys_refines_map {D} `{BlockDevices D} malloc_ok stack_bytes (f : fs D) m os :
  (∀ a, malloc_ok a = true) → List.length stack_bytes = 20%nat ∧ Forall (λ c, 0 ≤ c < 256) stack_bytes →
  holds f m → Forall fs_op_ok os →
  ∃ rs g m', run_fs_ops malloc_ok stack_bytes os f = Ok (rs, g) ∧ fs_specs m os rs m' ∧ holds g m'.
Proof.
  intros Hmem Hstack Hh Hos.
  destruct (proj1 (wp_Ok _ _ _) (run_fs_ops_ok malloc_ok Hmem stack_bytes Hstack os f m Hh Hos))
    as (rs & g & Hrun & m' & Hspec & Hg). eauto 10.
Qed.

Definition demo_ops : list fs_op :=
  [Create [97] 700; Create [97] 10; WriteFile [97] [1; 2; 3] 510; ReadFile [97] 5 509; Create [98] 0;
   Remove [97]; ReadFile [97] 5 509].

Lemma filesys_refines_map_witness :
  ∃ rs g m', run_fs_ops (λ _, true) demo_stack demo_ops formatted_fs = Ok (rs, g) ∧ fs_specs ∅ demo_ops rs m' ∧ holds g m'.
Proof.
  apply (filesys_refines_map (λ _, true) demo_stack formatted_fs ∅ demo_ops).
  - done.
  - split; [done|]. by apply Forall_replicate.
  - apply formatted_holds.
  - repeat constructor; simpl; lia.
Defined.

(** C8: A file can be created whenever there is room on the disk and in the
    kernel's memory.  If every [malloc] succeeds, no file is open, the name is
    valid and new, the directory has a free slot, and the free map has a run of
    free sectors for the inode and the data, then [filesys_create] returns
    true, and the file is there. *)
Theorem filesys_create_succeeds {D} `{BlockDevices D} malloc_ok stack_bytes (f : fs D) m nm len fm st :
  (∀ a, malloc_ok a = true) → List.length stack_bytes = 20%nat ∧ Forall (λ c, 0 ≤ c < 256) stack_bytes →
  holds f m → valid_name nm → 0 ≤ len < 2^31 - 512 → m !! nm = None → (size m < 16)%nat →
  free_map f = Some fm → 0 ≤ st → Bitmap.group fm (1 + bytes_to_sectors len) false st →
  ∃ g, filesys_create malloc_ok stack_bytes nm len f = Ok (true, g)
    ∧ holds g (<[nm := replicate (Z.to_nat len) 0]> m).
Proof.
  intros Hmem Hstack Hh Hv Hlen Hnew Hsize Hfm Hst Hroom.
  destruct (proj1 (wp_Ok _ _ _) (filesys_create_ok malloc_ok Hmem stack_bytes Hstack f m nm len Hh (proj2 (proj2 Hv)) Hlen))
    as ([] & g & Hrun & Hg).
  - exists g. split; [done | apply Hg].
  - destruct Hg as [_ Hwhy]. by destruct (Hwhy Hv Hnew Hsize fm Hfm st Hst).
Qed.

Lemma filesys_create_succeeds_witness :
  ∃ g, filesys_create (λ _, true) demo_stack [97] 700 formatted_fs = Ok (true, g)
    ∧ holds g (<[[97] := replicate (Z.to_nat 700) 0]> ∅).
Proof.
  destruct (filesys_create_succeeds (λ _, true) demo_stack formatted_fs ∅ [97] 700
    (Bitmap.mk_bitmap 100 [15; 0; 0; 0]) 4) as (g & Hg & Hh); [..|exists g; split; [exact Hg | exact Hh]].
  - done.
  - split; [done|]. by apply Forall_replicate.
  - apply formatted_holds.
  - split_and!; [done | done | repeat constructor].
  - lia.
  - done.
  - by vm_compute; lia.
  - by vm_compute.
  - lia.
  - replace (1 + bytes_to_sectors 700) with 3 by by vm_compute. split; [done|]. intros j Hj.
    assert (j = 4 ∨ j = 5 ∨ j = 6) as [->|[->| ->]] by lia; done.
Defined.

(** The sectors that a creation takes for the data are not given back when
    the name exists already. *)
Lemma create_existing_leaks :
  match run_fs_ops (λ _, true) demo_stack [Create [97] 700] formatted_fs with
  | Ok (_, f) =>
      free_map f = Some (Bitmap.mk_bitmap 100 [127; 0; 0; 0]) ∧
      match filesys_create (λ _, true) demo_stack [97] 512 f with
      | Ok (ok, g) => ok = false ∧ free_map g = Some (Bitmap.mk_bitmap 100 [383; 0; 0; 0])
      | Err _ => False
      end
  | Err _ => False
  end.
Proof. by vm_compute. Qed.
End FilesysProps.
