(* ===== verification/Process.v ===== *)
(** * User processes: userprog/process.c

    Loading a program: the page directory, the segments of an ELF executable,
    the stack with the arguments; the table of open files; the end of a
    process.  The file system is an interface, which the file ProcessFiles
    shows that filesys/ implements. *)
From stdpp Require Import base gmap list list_numbers.
From Stdlib Require Import ZArith Lia.
From S2P Require Import Prelude Vaddr Bitmap Palloc Memory Pagedir PagedirInv PagedirOps PagedirDestroy PagedirProps.

(** ** The interface of the file system

    [fs_holds s m]: the file system holds the files [m], by name, and none is
    open.  [fs_file s m h c p]: [h] is the one open file, with the contents
    [c] and the position [p].  A read may return fewer bytes than there are if
    memory is short. *)
Class FileSystem (F : Type) := {
  fs_holds : F → gmap (list Z) (list Z) → Prop;
  fs_file : F → gmap (list Z) (list Z) → Z → list Z → Z → Prop;
  filesys_open : list Z → M F Z;
  file_close : Z → M F unit;
  file_read : Z → Z → M F (list Z);
  file_seek : Z → Z → M F unit;
  file_length : Z → M F Z;
  filesys_open_ok s m nm :
    fs_holds s m →
    wp (filesys_open nm) (λ h s', (h = 0 ∧ fs_holds s' m) ∨ (∃ c, m !! nm = Some c ∧ h ≠ 0 ∧ fs_file s' m h c 0)) s;
  file_close_null s : file_close 0 s = Ok (tt, s);
  file_close_ok s m h c p : fs_file s m h c p → wp (file_close h) (λ _ s', fs_holds s' m) s;
  file_read_ok s m h c p n :
    fs_file s m h c p → 0 ≤ n < 2^31 →
    wp (file_read h n) (λ bs s', fs_file s' m h c (p + Z.of_nat (length bs))
      ∧ bs `prefix_of` take (Z.to_nat n) (drop (Z.to_nat p) c)) s;
  file_seek_ok s m h c p q : fs_file s m h c p → 0 ≤ q < 2^31 → wp (file_seek h q) (λ _ s', fs_file s' m h c q) s;
  file_length_ok s m h c p :
    fs_file s m h c p →
    wp (file_length h) (λ n s', fs_file s' m h c p ∧ n = Z.of_nat (length c)) s;
  fs_file_bytes s m h c p : fs_file s m h c p → Forall (λ b, 0 ≤ b < 256) c ∧ Z.of_nat (length c) < 2^31
}.

Module Process.
Import Vaddr Memory Pagedir PagedirProps.

(** ** ELF executables *)

Definition half (bs : list Z) (i : nat) : Z := default 0 (bs !! i) + 2^8 * default 0 (bs !! (i + 1)%nat).
Definition word (bs : list Z) (i : nat) : Z := half bs i + 2^16 * half bs (i + 2).

Record Elf32_Ehdr := mk_ehdr {
  e_ident : list Z;
  e_type : Z;
  e_machine : Z;
  e_version : Z;
  e_entry : Z;
  e_phoff : Z;
  e_shoff : Z;
  e_flags : Z;
  e_ehsize : Z;
  e_phentsize : Z;
  e_phnum : Z;
  e_shentsize : Z;
  e_shnum : Z;
  e_shstrndx : Z
}.
Definition ehdr_of_bytes (bs : list Z) : Elf32_Ehdr :=
  mk_ehdr (take 16 bs) (half bs 16) (half bs 18) (word bs 20) (word bs 24) (word bs 28) (word bs 32) (word bs 36)
    (half bs 40) (half bs 42) (half bs 44) (half bs 46) (half bs 48) (half bs 50).

Record Elf32_Phdr := mk_phdr {
  p_type : Z;
  p_offset : Z;
  p_vaddr : Z;
  p_paddr : Z;
  p_filesz : Z;
  p_memsz : Z;
  p_flags : Z;
  p_align : Z
}.
Definition phdr_of_bytes (bs : list Z) : Elf32_Phdr :=
  mk_phdr (word bs 0) (word bs 4) (word bs 8) (word bs 12) (word bs 16) (word bs 20) (word bs 24) (word bs 28).

Definition sizeof_ehdr : Z := 52.
Definition sizeof_phdr : Z := 32.
Definition PT_LOAD : Z := 1.
Definition PT_DYNAMIC : Z := 2.
Definition PT_INTERP : Z := 3.
Definition PT_SHLIB : Z := 5.
Definition PF_W : Z := 2.
(** ["\177ELF\1\1\1"]. *)
Definition ELF_IDENT : list Z := [127; 69; 76; 70; 1; 1; 1].

(** The test of the executable header in [load]. *)
Definition good_ehdr (e : Elf32_Ehdr) : bool :=
  bool_decide (take 7 (e_ident e) = ELF_IDENT) && (e_type e =? 2) && (e_machine e =? 3) && (e_version e =? 1)
  && (e_phentsize e =? sizeof_phdr) && (e_phnum e <=? 1024).

(** ** State

    The machine, the file system, and what process.c uses of the running
    thread [cur]: its page directory, its files, by descriptor, and the value
    of the semaphore that says that loading is over.  [esp0] is the stack
    pointer in the task state segment. *)
Record process (St F : Type) := mk_process {
  machine : vm St;
  disk : F;
  cur : Z;
  pagedir : Z;
  next_fd : Z;
  fd_table : gmap Z Z;
  esp0 : Z;
  load_sema : Z
}.
Arguments mk_process {St F}. Arguments machine {St F}. Arguments disk {St F}. Arguments cur {St F}.
Arguments pagedir {St F}. Arguments next_fd {St F}. Arguments fd_table {St F}. Arguments esp0 {St F}. Arguments load_sema {St F}.

Section process.
Context {St : Type} `{PagePools St} {F : Type} `{FileSystem F}.
Local Notation process := (process St F).

Definition set_machine (v : vm St) (p : process) : process :=
  mk_process v (disk p) (cur p) (pagedir p) (next_fd p) (fd_table p) (esp0 p) (load_sema p).
Definition set_disk (d : F) (p : process) : process :=
  mk_process (machine p) d (cur p) (pagedir p) (next_fd p) (fd_table p) (esp0 p) (load_sema p).
Definition set_pagedir (pd : Z) (p : process) : process :=
  mk_process (machine p) (disk p) (cur p) pd (next_fd p) (fd_table p) (esp0 p) (load_sema p).
Definition set_next_fd (n : Z) (p : process) : process :=
  mk_process (machine p) (disk p) (cur p) (pagedir p) n (fd_table p) (esp0 p) (load_sema p).
Definition set_fd_table (t : gmap Z Z) (p : process) : process :=
  mk_process (machine p) (disk p) (cur p) (pagedir p) (next_fd p) t (esp0 p) (load_sema p).
Definition set_esp0 (e : Z) (p : process) : process :=
  mk_process (machine p) (disk p) (cur p) (pagedir p) (next_fd p) (fd_table p) e (load_sema p).
Definition set_load_sema (n : Z) (p : process) : process :=
  mk_process (machine p) (disk p) (cur p) (pagedir p) (next_fd p) (fd_table p) (esp0 p) n.

Definition on_machine {A} : M (vm St) A → M process A := zoom machine set_machine.
Definition on_disk {A} : M F A → M process A := zoom disk set_disk.

(** ** Accesses of the kernel to user addresses

    Through the active page directory.  A page that is not mapped, or that is
    read-only for a write (CR0_WP is set), is a page fault in the kernel, for
    which [page_fault] panics. *)
Definition user_load8 (va : Z) : M (vm St) Z := λ v,
  match translate (mem v) (active v) va with
  | Some (a, _, _) => Ok (mem v a, v)
  | None => Err Fault
  end.
Definition user_store8 (va x : Z) : M (vm St) unit := λ v,
  match translate (mem v) (active v) va with
  | Some (a, true, _) => Ok (tt, set_mem (store8 a x (mem v)) v)
  | _ => Err Fault
  end.
Definition user_store32 (va x : Z) : M (vm St) unit :=
  for_loop 4 0 (λ i, user_store8 (u32 (va + i)) (Z.shiftr x (8 * i))).

(** A buffer that [file_read] fills. *)
Definition store_bytes (a : Z) (bs : list Z) (m : Z → Z) : Z → Z :=
  λ x, if (a <=? x) && (x <? a + Z.of_nat (length bs)) then default 0 (bs !! Z.to_nat (x - a)) else m x.

(** The string at [a], with its end in the [n] bytes from there. *)
Fixpoint string_at (n : nat) (m : Z → Z) (a : Z) : option (list Z) :=
  match n with
  | O => None
  | Datatypes.S n => if m a =? 0 then Some [] else cons (m a) <$> string_at n m (a + 1)
  end.

(** ** The parameters of a new process

    [struct uprg_params]: the length at 0, the command line at 4. *)
Definition params_len (v : vm St) (params : Z) : Z := s32 (load32 (mem v) params).
Definition cmdline (params : Z) : Z := params + 4.
Definition sizeof_params : Z := 516.

(** ** Mapping pages *)

Definition install_page (upage kpage : Z) (writable : bool) : M process bool :=
  pd ← gets pagedir;
  k ← on_machine (pagedir_get_page pd upage);
  if k =? NULL then on_machine (pagedir_set_page pd upage kpage writable) else mret false.

(** ** Segments *)

Definition validate_segment (phdr : Elf32_Phdr) (file : Z) : M process bool :=
  if negb (Z.land (p_offset phdr) PGMASK =? Z.land (p_vaddr phdr) PGMASK) then mret false else
  len ← on_disk (file_length file);
  if u32 len <? p_offset phdr then mret false else
  if p_memsz phdr <? p_filesz phdr then mret false else
  if p_memsz phdr =? 0 then mret false else
  if negb (is_user_vaddr (p_vaddr phdr)) then mret false else
  if negb (is_user_vaddr (u32 (p_vaddr phdr + p_memsz phdr))) then mret false else
  if u32 (p_vaddr phdr + p_memsz phdr) <? p_vaddr phdr then mret false else
  if p_vaddr phdr <? PGSIZE then mret false else
  mret true.

(** One page; [false] leaves the loop. *)
Definition load_page (file : Z) (writable : bool) : Z * Z * Z → M process (Z * Z * Z + bool) :=
  λ '(upage, read_bytes, zero_bytes),
  if (0 <? read_bytes) || (0 <? zero_bytes) then
    let page_read_bytes := if read_bytes <? PGSIZE then read_bytes else PGSIZE in
    let page_zero_bytes := PGSIZE - page_read_bytes in
    kpage ← on_machine (palloc_get_page Palloc.PAL_USER);
    if kpage =? NULL then mret (inr false) else
    bs ← on_disk (file_read file page_read_bytes);
    on_machine (modify (λ v, set_mem (store_bytes kpage bs (mem v)) v)) ;;
    if negb (Z.of_nat (length bs) =? page_read_bytes) then
      on_machine (palloc_free_page kpage) ;; mret (inr false)
    else
    on_machine (modify (λ v, set_mem (fill (kpage + page_read_bytes) 0 page_zero_bytes (mem v)) v)) ;;
    ok ← install_page upage kpage writable;
    if negb ok then on_machine (palloc_free_page kpage) ;; mret (inr false)
    else mret (inl (u32 (upage + PGSIZE), u32 (read_bytes - page_read_bytes), u32 (zero_bytes - page_zero_bytes)))
  else mret (inr true).
Definition load_segment (file ofs upage read_bytes zero_bytes : Z) (writable : bool) : M process bool :=
  ASSERT (u32 (read_bytes + zero_bytes) mod PGSIZE =? 0) ;;
  ASSERT (pg_ofs upage =? 0) ;;
  ASSERT (Z.rem ofs PGSIZE =? 0) ;;
  on_disk (file_seek file ofs) ;;
  loop (Z.to_nat ((read_bytes + zero_bytes) / PGSIZE + 1)) (load_page file writable) (upage, read_bytes, zero_bytes).

(** ** The stack *)

(** One character of the arguments, from the last to the first: [t] is the
    one before, [esp] the stack pointer. *)
Definition push_token (len : Z) : Z * Z * Z * Z → M (vm St) (Z * Z * Z * Z + Z * Z) := λ '(i, t, argc, esp),
  if i <=? len then
    let addr := u32 (PHYS_BASE - 1 - i) in
    start ← (if t =? 0 then mret false else c ← user_load8 addr; mret (c =? 0));
    '(argc, esp) ← (if (start : bool) then
                      user_store32 (u32 (esp - 4)) (u32 (addr + 1)) ;; mret (argc + 1, u32 (esp - 4))
                    else mret (argc, esp));
    '(argc, esp) ← (if i =? len then
                      user_store32 (u32 (esp - 4)) addr ;; mret (argc + 1, u32 (esp - 4))
                    else mret (argc, esp));
    c ← user_load8 addr;
    mret (inl (i + 1, c, argc, esp))
  else mret (inr (argc, esp)).

(** The arguments on the stack; the stack pointer is the result.  The length
    is not changed meanwhile and is read once. *)
Definition push_arguments (params : Z) : M (vm St) Z :=
  len ← gets (λ v, params_len v params);
  let esp := u32 (PHYS_BASE - (len + 1)) in
  for_loop (Z.to_nat (len + 1)) 0 (λ i,
    c ← gets (λ v, mem v (cmdline params + i)); user_store8 (u32 (esp + i)) c) ;;
  let pad := Z.rem (len + 1) 4 in
  let esp := u32 (esp - pad) in
  for_loop (Z.to_nat pad) 0 (λ i, user_store8 (u32 (esp + i)) 0) ;;
  let esp := u32 (esp - 4) in
  user_store32 esp 0 ;;
  '(argc, esp) ← loop (Z.to_nat (len + 2)) (push_token len) (0, 0, 0, esp);
  user_store32 (u32 (esp - 4)) esp ;;
  user_store32 (u32 (esp - 8)) argc ;;
  user_store32 (u32 (esp - 12)) 0 ;;
  mret (u32 (esp - 12)).

(** [None] if it fails, and the stack pointer otherwise. *)
Definition setup_stack (params : Z) : M process (option Z) :=
  kpage ← on_machine (palloc_get_page (Z.lor Palloc.PAL_USER Palloc.PAL_ZERO));
  if kpage =? NULL then mret None else
  success ← install_page (PHYS_BASE - PGSIZE) kpage true;
  if (success : bool) then esp ← on_machine (push_arguments params); mret (Some esp)
  else on_machine (palloc_free_page kpage) ;; mret None.

(** ** Loading *)

Definition tss_update : M process unit := t ← gets cur; modify (set_esp0 (t + PGSIZE)).
Definition process_activate : M process unit :=
  pd ← gets pagedir; on_machine (pagedir_activate pd) ;; tss_update.

(** One program header; [false] leaves the loop for the label [done]. *)
Definition load_header (file phnum : Z) : Z * Z → M process (Z * Z + bool) := λ '(i, file_ofs),
  if i <? phnum then
    len ← on_disk (file_length file);
    if (file_ofs <? 0) || (len <? file_ofs) then mret (inr false) else
    on_disk (file_seek file file_ofs) ;;
    bs ← on_disk (file_read file sizeof_phdr);
    if negb (Z.of_nat (length bs) =? sizeof_phdr) then mret (inr false) else
    let phdr := phdr_of_bytes bs in
    let next := (i + 1, s32 (file_ofs + sizeof_phdr)) in
    if (p_type phdr =? PT_DYNAMIC) || (p_type phdr =? PT_INTERP) || (p_type phdr =? PT_SHLIB) then mret (inr false)
    else if p_type phdr =? PT_LOAD then
      valid ← validate_segment phdr file;
      if negb valid then mret (inr false) else
      let writable := negb (Z.land (p_flags phdr) PF_W =? 0) in
      let file_page := Z.land (p_offset phdr) (u32 (Z.lnot PGMASK)) in
      let mem_page := Z.land (p_vaddr phdr) (u32 (Z.lnot PGMASK)) in
      let page_offset := Z.land (p_vaddr phdr) PGMASK in
      let total := u32 (page_offset + p_memsz phdr + PGSIZE - 1) / PGSIZE * PGSIZE in
      let read_bytes := if 0 <? p_filesz phdr then u32 (page_offset + p_filesz phdr) else 0 in
      let zero_bytes := u32 (total - read_bytes) in
      ok ← load_segment file (s32 file_page) mem_page read_bytes zero_bytes writable;
      if negb ok then mret (inr false) else mret (inl next)
    else mret (inl next)
  else mret (inr true).

(** After the file has been opened: the entry point and the stack pointer. *)
Definition load_file (params file : Z) : M process (option (Z * Z)) :=
  bs ← on_disk (file_read file sizeof_ehdr);
  let ehdr := ehdr_of_bytes bs in
  if negb (Z.of_nat (length bs) =? sizeof_ehdr) || negb (good_ehdr ehdr) then mret None else
  ok ← loop (Z.to_nat (e_phnum ehdr + 1)) (load_header file (e_phnum ehdr)) (0, s32 (e_phoff ehdr));
  if negb ok then mret None else
  o ← setup_stack params;
  mret ((λ esp, (e_entry ehdr, esp)) <$> o).

Definition load (params : Z) : M process (option (Z * Z)) :=
  pd ← on_machine pagedir_create;
  modify (set_pagedir pd) ;;
  if pd =? NULL then on_disk (file_close NULL) ;; mret None else
  process_activate ;;
  o ← gets (λ p, string_at (Z.to_nat PGSIZE) (mem (machine p)) (cmdline params));
  file_name ← of_option Fault o;
  file ← on_disk (filesys_open file_name);
  r ← (if file =? NULL then mret None else load_file params file);
  on_disk (file_close file) ;;
  mret r.

(** ** Starting a process *)

Definition TID_ERROR : Z := -1.

(** [*c = 0] for every space, from [c] to the end of the string. *)
Definition cut_word (c : Z) : M (vm St) (Z + unit) :=
  x ← gets (λ v, mem v c);
  if x =? 0 then mret (inr tt) else
  (if x =? 32 then modify (λ v, set_mem (store8 c 0 (mem v)) v) else mret tt) ;;
  mret (inl (c + 1)).

(** The copy of the command line [cmd] in the page [params], with
    [strlcpy], [strlen] and the loop over its spaces. *)
Definition make_params (params : Z) (cmd : list Z) : M (vm St) unit :=
  let size := PGSIZE - sizeof_params in
  modify (λ v, set_mem (store_bytes (cmdline params) (take (Z.to_nat (size - 1)) cmd ++ [0]) (mem v)) v) ;;
  o ← gets (λ v, string_at (Z.to_nat PGSIZE) (mem v) (cmdline params));
  s ← of_option Fault o;
  modify (λ v, set_mem (store32 params (Z.of_nat (length s)) (mem v)) v) ;;
  loop (Z.to_nat PGSIZE) cut_word (cmdline params).

(** [thread_create] makes a thread with the given name that runs
    [start_process] with the parameters; its code is in the file Thread.  The
    process is a part of the state [S] that it works on. *)
Definition process_execute {S} (g : S → process) (put : process → S → S) (thread_create : list Z → Z → M S Z)
    (cmd : list Z) : M S Z :=
  params ← zoom g put (on_machine (palloc_get_page Palloc.PAL_ZERO));
  if params =? NULL then mret TID_ERROR else
  zoom g put (on_machine (make_params params cmd)) ;;
  o ← gets (λ s, string_at (Z.to_nat PGSIZE) (mem (machine (g s))) (cmdline params));
  name ← of_option Fault o;
  tid ← thread_create name params;
  (if tid =? TID_ERROR then zoom g put (on_machine (palloc_free_page params)) else mret tt) ;;
  mret tid.

(** The registers that a process starts with; all data segment registers
    have the same value. *)
Record intr_frame := mk_intr_frame {
  f_ds : Z;
  f_cs : Z;
  f_eflags : Z;
  f_eip : Z;
  f_esp : Z
}.
Definition SEL_UCSEG : Z := 27.
Definition SEL_UDSEG : Z := 35.
Definition FLAG_MBS : Z := 2.
Definition FLAG_IF : Z := 512.

(** [None] if the thread exits instead of starting the process. *)
Definition start_process (params : Z) : M process (option intr_frame) :=
  r ← load params;
  modify (λ p, set_load_sema (load_sema p + 1) p) ;;
  on_machine (palloc_free_page params) ;;
  mret ((λ '(eip, esp), mk_intr_frame SEL_UDSEG SEL_UCSEG (Z.lor FLAG_IF FLAG_MBS) eip esp) <$> r).

(** ** The end of a process *)

Definition process_exit : M process unit :=
  pd ← gets pagedir;
  if pd =? NULL then mret tt else
  modify (set_pagedir NULL) ;;
  on_machine (pagedir_activate NULL) ;;
  on_machine (pagedir_destroy pd).

(** ** Open files

    The table has two pages for the descriptors from 2 on; other entries are
    memory of someone else. *)
Definition FD_MAX : Z := 2 + 2 * PGSIZE / 4.
Definition fd_slot (fd : Z) : M process unit := if (2 <=? fd) && (fd <? FD_MAX) then mret tt else fail Fault.

Definition process_add_file (f : Z) : M process Z :=
  if f =? NULL then mret (-1) else
  fd ← gets next_fd;
  modify (set_next_fd (s32 (fd + 1))) ;;
  fd_slot fd ;;
  modify (λ p, set_fd_table (<[fd := f]> (fd_table p)) p) ;;
  mret fd.
Definition process_get_file (fd : Z) : M process Z :=
  n ← gets next_fd;
  if (fd <=? 1) || (n <=? fd) then mret NULL else
  fd_slot fd ;;
  gets (λ p, default NULL (fd_table p !! fd)).
Definition process_close_file (fd : Z) : M process unit :=
  n ← gets next_fd;
  if (fd <=? 1) || (n <=? fd) then mret tt else
  fd_slot fd ;;
  f ← gets (λ p, default NULL (fd_table p !! fd));
  on_disk (file_close f) ;;
  modify (λ p, set_fd_table (<[fd := NULL]> (fd_table p)) p).
End process.
End Process.
