(* ===== verification/ProcessSegments.v ===== *)
(** * Loading segments

    What happens to address spaces while pages are allocated, filled and
    mapped, and the image that [load_segment] makes in memory. *)
From stdpp Require Import base gmap list list_numbers.
From Stdlib Require Import ZArith Lia.
From S2P Require Import Prelude Vaddr Bitmap Palloc Memory Pagedir PagedirInv PagedirOps PagedirDestroy PagedirProps Process.

Module ProcessSegments.
Import Vaddr Memory Pagedir PagedirInv PagedirOps PagedirDestroy PagedirProps Process.

Section machine.
Context {St : Type} `{PagePools St}.
Implicit Types (v : vm St) (S : gmap Z (Z → Z)) (f : Z → Z).

(** ** What an operation on the address space [pd] leaves alone *)

Definition later S (pd : Z) v v' : Prop := extends pd v v' ∧ grows S v v'.

Lemma later_refl S pd v : later S pd v v.
Proof. split; [apply extends_refl|]. intros pd' f q _ Hq. by left. Qed.
Lemma later_trans S pd f v v1 v2 : S !! pd = Some f → later S pd v v1 → later S pd v1 v2 → later S pd v v2.
Proof. intros E [? ?] [? ?]. by eapply extends_trans. Qed.
Lemma grows_insert S pd f f' v v' : S !! pd = Some f → grows (<[pd := f']> S) v v' ↔ grows S v v'.
Proof.
  intros E. split; intros Hg pd' g q E'.
  - destruct (decide (pd' = pd)) as [->|Hne]; [apply (Hg pd f'); by rewrite lookup_insert_eq|].
    apply (Hg pd' g). by rewrite lookup_insert_ne.
  - destruct (decide (pd' = pd)) as [->|Hne]; [by apply (Hg pd f)|].
    rewrite lookup_insert_ne in E' by done. by apply (Hg pd' g).
Qed.
Lemma later_insert S pd f f' v v' : S !! pd = Some f → later (<[pd := f']> S) pd v v' ↔ later S pd v v'.
Proof. intros E. unfold later. by rewrite grows_insert. Qed.

Lemma used_footprint v S pd f q : vm_ok v S → S !! pd = Some f → footprint (mem v) pd q → pp_used (pages v) q.
Proof. intros ((_ & _ & Hsp & _) & _) E Hq. by apply (footprint_used (pages v) (mem v) pd f q); [apply Hsp|]. Qed.
Lemma used_ram_page v S q : vm_ok v S → pp_used (pages v) q → ram_page q.
Proof. intros ((Hp & _) & _). by apply used_ram. Qed.

(** Memory that differs on the page [q] only. *)
Definition only_page (q : Z) (m m' : Z → Z) : Prop := ∀ a, ¬ (q ≤ a < q + 4096) → m' a = m a.

Lemma only_page_same q m m' q' : q mod 4096 = 0 → q' mod 4096 = 0 → q' ≠ q → only_page q m m' → same_on q' m m'.
Proof. intros H1 H2 Hne Ho k Hk. apply Ho. apply (page_apart q' q); (done || lia). Qed.

(** A page that is not part of the page tables may be written. *)
Definition plain v S (q : Z) : Prop := pp_used (pages v) q ∧ ∀ pd f, S !! pd = Some f → ¬ footprint (mem v) pd q.

Lemma unmapped_plain v S q : unmapped v S q → plain v S q.
Proof. intros (? & ? & _). by split. Qed.

Lemma write_page_ok v S q m' : vm_ok v S → plain v S q → only_page q (mem v) m' → is_bytes m' → vm_ok (set_mem m' v) S.
Proof.
  intros Hv [Hu Hno] Ho Hb. pose proof Hv as (Ht & [Hd _] & _). destruct (used_ram_page v S q Hv Hu) as (_ & Hqm & _).
  apply (vm_ok_frame v); try done; [by apply (proj1 Ht) | |].
  - intros pd f q' E Hq'. pose proof (used_footprint v S pd f q' Hv E Hq') as Hu'. split; [|done].
    destruct (used_ram_page v S q' Hv Hu') as (_ & ? & _). apply (only_page_same q); try done.
    intros ->. by apply (Hno pd f).
  - intros pd f n E Hn Hp. by destruct (Hd pd f n E Hn Hp) as (_ & ? & _).
Qed.

Lemma write_footprint v S q m' pd f q' :
  vm_ok v S → plain v S q → only_page q (mem v) m' → S !! pd = Some f → footprint m' pd q' ↔ footprint (mem v) pd q'.
Proof.
  intros Hv [Hu Hno] Ho E. apply footprint_same. destruct (used_ram_page v S q Hv Hu) as (_ & ? & _).
  destruct (pd_page v S pd f (proj1 Hv) E) as (_ & ? & _). apply (only_page_same q); try done.
  intros ->. apply (Hno q f E). by left.
Qed.

Lemma write_plain v S q m' q' : vm_ok v S → plain v S q → only_page q (mem v) m' → plain v S q' → plain (set_mem m' v) S q'.
Proof.
  intros Hv Hq Ho [Hu' Hno']. split; [done|]. intros pd f E. simpl.
  rewrite (write_footprint v S q m' pd f) by done. by apply (Hno' pd f).
Qed.
Lemma write_unmapped v S q m' q' :
  vm_ok v S → plain v S q → only_page q (mem v) m' → unmapped v S q' → unmapped (set_mem m' v) S q'.
Proof.
  intros Hv Hq Ho (Hu' & Hno' & Hnm). split_and!; [done | | done].
  by apply (write_plain v S q m' q').
Qed.

(** A write to a page that was not in use at first. *)
Lemma later_write S0 S pd v0 v q m' :
  vm_ok v0 S0 → vm_ok v S → later S pd v0 v → plain v S q → ¬ pp_used (pages v0) q → only_page q (mem v) m' →
  later S pd v0 (set_mem m' v).
Proof.
  intros Hv0 Hv [(Hi & Hc & Hu & Hm) Hg] Hq Hnu Ho. destruct (used_ram_page v S q Hv (proj1 Hq)) as (_ & Hqm & _). split.
  - split_and!; try done. intros q' Hq' Hnf. apply (same_on_trans q' (mem v0) (mem v)); [by apply Hm|].
    destruct (used_ram_page v0 S0 q' Hv0 Hq') as (_ & ? & _). apply (only_page_same q); try done. by intros ->.
  - intros pd' f' q' E' Hq'. apply (Hg pd' f' q' E'). by apply (write_footprint v S q m' pd' f' q').
Qed.

(** ** Pages *)

(** Every page that has been taken since [v] is a table of [pd], or [k]. *)
Definition acct (k pd : Z) v v' : Prop :=
  (∀ q, footprint (mem v) pd q → footprint (mem v') pd q)
  ∧ ∀ q, pp_used (pages v') q → pp_used (pages v) q ∨ footprint (mem v') pd q ∨ q = k.

Lemma acct_write k S pd f v0 v q m' :
  vm_ok v S → S !! pd = Some f → plain v S q → only_page q (mem v) m' → acct k pd v0 v → acct k pd v0 (set_mem m' v).
Proof.
  intros Hv E Hq Ho [H1 H2]. split; simpl.
  - intros q' Hq'. apply (write_footprint v S q m' pd f); auto.
  - intros q' Hq'. rewrite (write_footprint v S q m' pd f) by done. by apply H2.
Qed.
Lemma acct_trans k pd v0 v v' : acct k pd v0 v → accounts pd v v' → acct k pd v0 v'.
Proof.
  intros [H1 H2] [H3 H4]. split; [auto|]. intros q Hq. destruct (H4 q Hq) as [Hq'|?]; [|by right; left].
  destruct (H2 q Hq') as [?|[?|?]]; [by left | right; left; auto | by right; right].
Qed.

Lemma alloc_ok v S pd flags :
  vm_ok v S → Palloc.has flags Palloc.PAL_ASSERT = false →
  wp (palloc_get_page flags) (λ q v', vm_ok v' S ∧ later S pd v v' ∧ (is_Some (S !! pd) → acct q pd v v')
    ∧ (q ≠ NULL → unmapped v' S q ∧ ¬ pp_used (pages v) q
         ∧ (Palloc.has flags Palloc.PAL_ZERO = true → ∀ k, 0 ≤ k < 4096 → mem v' (q + k) = 0))) v.
Proof.
  intros Hv Hfl. pose proof Hv as (Ht & _). pose proof Ht as (Hp & _).
  assert (wp (palloc_get_page flags) (λ q v', vm_ok v' S ∧ (q ≠ NULL → unmapped v' S q)) v) as Hs.
  { unfold wp. destruct (palloc_get_page flags v) as [[q v']|e] eqn:Hrun; [by apply (step_get_ok v S flags)|].
    assert (wp (palloc_get_page flags) (λ _ _, True) v) as Hw by (by apply get_page_ok). unfold wp in Hw. by rewrite Hrun in Hw. }
  enough (wp (palloc_get_page flags) (λ q v', later S pd v v' ∧ (is_Some (S !! pd) → acct q pd v v')
    ∧ (q ≠ NULL → ¬ pp_used (pages v) q
         ∧ (Palloc.has flags Palloc.PAL_ZERO = true → ∀ k, 0 ≤ k < 4096 → mem v' (q + k) = 0))) v) as Hw.
  { eapply wp_mono; [exact (wp_conj _ _ _ _ Hs Hw)|]. intros q v' [[Hv' Hun] (Hl & Ht' & Hq)].
    split_and!; try done. intros Hne. destruct (Hq Hne). by split_and!; [apply Hun|..]. }
  apply get_page_ok; try done.
  - intros s Hs' Hu. split_and!; [|intros _; split; [done|]; intros q Hq; left; by apply Hu|done].
    split; [|by intros pd' f' q _ Hq; left]. split_and!; try done. intros q. simpl. apply Hu.
  - intros q s Hs' Hnu Hu. destruct (used_ram s q Hs') as (_ & Hqm & _); [apply Hu; by right|].
    set (m' := if Palloc.has flags Palloc.PAL_ZERO then fill q 0 4096 (mem v) else mem v).
    assert (only_page q (mem v) m') as Ho.
    { intros a Ha. unfold m'. destruct (Palloc.has flags Palloc.PAL_ZERO); [by apply fill_out | done]. }
    assert (∀ pd' f' q', S !! pd' = Some f' → footprint m' pd' q' ↔ footprint (mem v) pd' q') as Hfp.
    { intros pd' f' q' E'. apply footprint_same. destruct (pd_page v S pd' f' Ht E') as (_ & ? & _).
      apply (only_page_same q); try done. intros ->. apply Hnu. apply (used_footprint v S q f'); [done | done | by left]. }
    split_and!; [split | intros [f' E'] | intros _; split; [done|]].
    + split_and!; try done; [intros q' Hq'; apply Hu; by left|]. intros q' Hq' _.
      destruct (used_ram _ q' Hp Hq') as (_ & ? & _). apply (only_page_same q); try done. by intros ->.
    + intros pd' f' q' E' Hq'. left. by apply (Hfp pd' f').
    + split; simpl; [intros q' Hq'; by apply (Hfp pd f')|]. intros q' [?| ->]%Hu; [by left | by right; right].
    + intros Hz k Hk. simpl. unfold m'. rewrite Hz. by apply fill_in.
Qed.

Lemma give_back_ok S pd f v0 v q :
  vm_ok v0 S → vm_ok v S → S !! pd = Some f → later S pd v0 v → unmapped v S q → ¬ pp_used (pages v0) q → acct q pd v0 v →
  wp (palloc_free_page q) (λ _ v', vm_ok v' S ∧ later S pd v0 v' ∧ acct NULL pd v0 v') v.
Proof.
  intros Hv0 Hv E Hl Hq Hnu Hac. apply wp_conj; [by apply step_free_ok|]. pose proof Hq as (Hu & _).
  pose proof Hv as ((Hp & _) & _). apply free_frame_ok; [done | done|]. intros s Hs Hus.
  assert (only_page q (mem v) (fill q 204 4096 (mem v))) as Ho by (intros a Ha; by apply fill_out).
  pose proof (unmapped_plain _ _ _ Hq) as Hqp.
  pose proof (later_write S S pd v0 v q _ Hv0 Hv Hl Hqp Hnu Ho) as [(? & ? & Hu0 & ?) ?].
  destruct (acct_write q S pd f v0 v q _ Hv E Hqp Ho Hac) as [Ha1 Ha2]. split; split; [|done|done|].
  - split_and!; try done. intros q' Hq'. apply Hus. split; [by apply Hu0 | by intros ->].
  - simpl. intros q' [Hq' Hne]%Hus. destruct (Ha2 q' Hq') as [?|[?|?]]; [by left | by right; left | done].
Qed.

Lemma add_page_ok v S pd f upage kpage w :
  vm_ok v S → S !! pd = Some f → pd ≠ init_page_dir v → 0 ≤ upage < PHYS_BASE → upage mod 4096 = 0 → unmapped v S kpage →
  wp (k ← pagedir_get_page pd upage; if k =? NULL then pagedir_set_page pd upage kpage w else mret false)
    (λ ok v', later S pd v v' ∧ accounts pd v v'
      ∧ if ok then ¬ present (f (upage / 4096)) ∧ vm_ok v' (<[pd := upd f (upage / 4096) (user_pte kpage w)]> S)
        else vm_ok v' S ∧ unmapped v' S kpage) v.
Proof.
  intros Hv E Hni Hup Hum Hk. apply wp_bind, (pagedir_get_page_ok v S pd f); [done..|]. unfold resolve.
  destruct (user_page upage Hup) as (Hn & _). case_bool_decide as Hp.
  - pose proof Hv as (_ & [Hd _] & _). destruct (Hd pd f _ E Hn Hp) as (_ & Hu & _). destruct (used_ram_page v S _ Hv Hu) as (? & _).
    rewrite (proj2 (Z.eqb_neq _ NULL)) by (unfold NULL, PHYS_BASE in *; pose proof (Z.mod_pos_bound upage 4096); lia).
    apply wp_ret. split_and!; [apply later_refl | split; [done | by left] | done | done].
  - simpl. eapply wp_mono.
    { exact (wp_conj _ _ _ _ (pagedir_set_page_ok v S pd f upage kpage w Hv E Hni Hup Hum Hk Hp)
        (set_page_accounts v S pd f upage kpage w Hv E Hni Hup Hum Hk Hp)). }
    intros [] v' [(Hx & Hg & Hv') Hac].
    + by split_and!.
    + split; [done|]. split; [done|]. split; [by destruct Hv'|]. by apply (unmapped_grows S pd v v').
Qed.

(** ** Images

    The bytes that a process sees from the address [u] on. *)
Definition image f (m : Z → Z) (u n : Z) (w : bool) (g : Z → Z) : Prop :=
  ∀ j, 0 ≤ j < n → ∃ a, translation f (u + j) = Some (a, w, true) ∧ m a = g j.

Definition keeps f f' : Prop := ∀ n, present (f n) → f' n = f n.

Lemma keeps_trans f g h : keeps f g → keeps g h → keeps f h.
Proof. intros H1 H2 n Hn. rewrite H2; [by apply H1 | by rewrite H1]. Qed.

Lemma image_later v S pd f v' f' u n w g :
  vm_ok v S → S !! pd = Some f → later S pd v v' → keeps f f' → 0 ≤ u → u + n ≤ PHYS_BASE →
  image f (mem v) u n w g → image f' (mem v') u n w g.
Proof.
  intros Hv E [(_ & _ & _ & Hm) _] Hk Hu Hn Him j Hj. destruct (Him j Hj) as (a & Ha & Hg). exists a.
  destruct (user_page (u + j) ltac:(lia)) as (Hpg & _).
  pose proof (translation_Some f (u + j) a w true Ha) as [Hp ->].
  unfold translation in *. rewrite (Hk _ Hp). split; [done|]. rewrite <- Hg.
  destruct Hv as (_ & [Hd _] & _). destruct (Hd pd f _ E Hpg Hp) as (_ & Hus & Hno).
  apply Hm; [done | by apply (Hno pd f) | apply Z.mod_pos_bound; lia].
Qed.

Lemma user_pte_bits kpage w :
  ram_page kpage → present (user_pte kpage w) ∧ frame (user_pte kpage w) = kpage
  ∧ Z.testbit (user_pte kpage w) 1 = w ∧ Z.testbit (user_pte kpage w) 2 = true.
Proof.
  intros (_ & Hm & _). unfold user_pte.
  assert (∀ j, 0 ≤ j < 3 → Z.testbit (kpage - PHYS_BASE + (if w then 7 else 5)) j = Z.testbit (if w then 7 else 5) j) as Hlow.
  { intros j Hj. rewrite <- (Z.mod_pow2_bits_low (_ + _) 3) by lia. f_equal. change (2^3) with 8. unfold PHYS_BASE. destruct w; div_lia. }
  rewrite !Hlow by lia. rewrite present_entry by done. rewrite frame_entry by (done || by destruct w; lia). by destruct w.
Qed.

(** The bytes of a page that has been mapped. *)
Lemma image_page f m kpage u w :
  ram_page kpage → u mod 4096 = 0 → image (upd f (u / 4096) (user_pte kpage w)) m u 4096 w (λ j, m (kpage + j)).
Proof.
  intros Hr Hu j Hj. exists (kpage + j). split; [|done]. destruct (user_pte_bits kpage w Hr) as (Hp & Hf & Hw & Hus).
  unfold translation, upd. replace ((u + j) / 4096) with (u / 4096) by div_lia. rewrite Z.eqb_refl, bool_decide_true by done.
  rewrite Hf, Hw, Hus. repeat f_equal. div_lia.
Qed.

Lemma image_app f m u n k w g :
  image f m u n w g → image f m (u + n) k w (λ j, g (n + j)) → image f m u (n + k) w g.
Proof.
  intros H1 H2 j Hj. destruct (decide (j < n)); [apply H1; lia|].
  destruct (H2 (j - n) ltac:(lia)) as (a & Ha & Hg). exists a. replace (u + n + (j - n)) with (u + j) in Ha by lia.
  by replace (n + (j - n)) with j in Hg by lia.
Qed.
Lemma image_ext f m u n w g g' : (∀ j, 0 ≤ j < n → g j = g' j) → image f m u n w g → image f m u n w g'.
Proof. intros Hg Hi j Hj. rewrite <- Hg by done. by apply Hi. Qed.
End machine.

Section segments.
Context {St : Type} `{PagePools St} {F : Type} `{FileSystem F}.
Implicit Types (p : process St F) (S : gmap Z (Z → Z)) (f : Z → Z).

Definition same_thread p p' : Prop :=
  cur p' = cur p ∧ pagedir p' = pagedir p ∧ next_fd p' = next_fd p ∧ fd_table p' = fd_table p ∧ esp0 p' = esp0 p
  ∧ load_sema p' = load_sema p.

(** Every page that has been taken since [v] belongs to [pd], and only those
    have been mapped. *)
Definition owned pd (v v' : vm St) f f' : Prop :=
  (∀ q, footprint (mem v) pd q → footprint (mem v') pd q)
  ∧ (∀ q, pp_used (pages v') q → pp_used (pages v) q ∨ belongs v' pd f' q)
  ∧ ∀ n, present (f' n) → f' n = f n ∨ ¬ pp_used (pages v) (frame (f' n)).

Lemma owned_null pd v v' f S : vm_ok v' S → acct NULL pd v v' → owned pd v v' f f.
Proof.
  intros Hv [H1 H2]. split_and!; [done | | by left]. intros q Hq. destruct (H2 q Hq) as [?|[?| ->]]; [by left | right; by left|].
  destruct (used_ram_page v' S NULL Hv Hq) as (? & _). unfold NULL, PHYS_BASE in *. lia.
Qed.
Lemma owned_trans S pd v v1 v2 f f1 f2 :
  later S pd v v1 → keeps f1 f2 → owned pd v v1 f f1 → owned pd v1 v2 f1 f2 → owned pd v v2 f f2.
Proof.
  intros [(_ & _ & Hu & _) _] Hk (H1 & H2 & H2') (H3 & H4 & H4'). split_and!; [auto | |].
  - intros q Hq. destruct (H4 q Hq) as [Hq'|?]; [|by right].
    destruct (H2 q Hq') as [?|[?|(n & Hn & Hp & ->)]]; [by left | right; left; auto|].
    right. right. exists n. by rewrite (Hk n Hp).
  - intros n Hp. destruct (H4' n Hp) as [Heq|?]; [|right; auto]. rewrite Heq in Hp |- *. by apply H2'.
Qed.

(** The process of [p0] has its address space [f] grown to [f']. *)
Definition loading p0 S pd f p f' : Prop :=
  vm_ok (machine p) (<[pd := f']> S) ∧ later S pd (machine p0) (machine p) ∧ keeps f f' ∧ same_thread p0 p
  ∧ owned pd (machine p0) (machine p) f f'.

(** A process with an address space of its own. *)
Definition has_space p S pd f : Prop :=
  vm_ok (machine p) S ∧ S !! pd = Some f ∧ pagedir p = pd ∧ pd ≠ init_page_dir (machine p).

Lemma loading_refl p S pd f : has_space p S pd f → loading p S pd f p f.
Proof. intros (Hv & E & _). split_and!; try done; [by rewrite insert_id | apply later_refl | split_and!; [done | by left | by left]]. Qed.
Lemma loading_disk p0 S pd f p f' d : loading p0 S pd f p f' → loading p0 S pd f (set_disk d p) f'.
Proof. intros (Hv & Hl & Hk & Hs & Ho). exact (conj Hv (conj Hl (conj Hk (conj Hs Ho)))). Qed.
Lemma loading_space p0 S pd f p f' : has_space p0 S pd f → loading p0 S pd f p f' → has_space p (<[pd := f']> S) pd f'.
Proof.
  intros (_ & E & Hpd & Hni) (Hv & [(Hi & _) _] & _ & (_ & Hpd' & _) & _).
  split_and!; [done | by rewrite lookup_insert_eq | congruence | by rewrite Hi].
Qed.
Lemma loading_trans p0 S pd f p f1 p' f2 :
  has_space p0 S pd f → loading p0 S pd f p f1 → loading p (<[pd := f1]> S) pd f1 p' f2 → loading p0 S pd f p' f2.
Proof.
  intros (_ & E & _) (_ & Hl & Hk & (? & ? & ? & ? & ? & ?) & Ho) (Hv & Hl' & Hk' & (? & ? & ? & ? & ? & ?) & Ho'). split_and!.
  - by rewrite insert_insert_eq in Hv.
  - apply (later_insert S pd f) in Hl'; [|done]. by apply (later_trans S pd f (machine p0) (machine p)).
  - by apply (keeps_trans f f1).
  - split_and!; congruence.
  - by apply (owned_trans S pd (machine p0) (machine p) (machine p') f f1 f2).
Qed.

Definition byte_at (c : list Z) (i : Z) : Z := default 0 (c !! Z.to_nat i).

Lemma read_bytes_at (bs c : list Z) n pos j :
  bs `prefix_of` take (Z.to_nat n) (drop (Z.to_nat pos) c) → 0 ≤ pos → 0 ≤ j < Z.of_nat (length bs) →
  default 0 (bs !! Z.to_nat j) = byte_at c (pos + j).
Proof.
  intros [k Hk] Hp Hj. unfold byte_at. f_equal. assert (Z.to_nat j < length bs)%nat as Hlt by lia.
  rewrite <- (lookup_app_l bs k _ Hlt), <- Hk. assert (length (bs ++ k) ≤ Z.to_nat n)%nat as Hlen.
  { rewrite <- Hk, length_take. lia. }
  rewrite length_app in Hlen. rewrite lookup_take_lt by lia. rewrite lookup_drop. f_equal. lia.
Qed.

Lemma store_bytes_in a bs m j : 0 ≤ j < Z.of_nat (length bs) → store_bytes a bs m (a + j) = default 0 (bs !! Z.to_nat j).
Proof. intros Hj. unfold store_bytes. destruct (in_range_spec a (a + j) (Z.of_nat (length bs))); [do 3 f_equal|]; lia. Qed.
Lemma store_bytes_out a bs m q : ¬ (a ≤ q < a + Z.of_nat (length bs)) → store_bytes a bs m q = m q.
Proof. intros Hq. unfold store_bytes. by destruct (in_range_spec a q (Z.of_nat (length bs))). Qed.
Lemma store_bytes_bytes a bs m : Forall (λ b, 0 ≤ b < 256) bs → is_bytes m → is_bytes (store_bytes a bs m).
Proof.
  intros Hb Hm x. unfold store_bytes. destruct (in_range_spec a x (Z.of_nat (length bs))) as [Hx|]; [|done].
  destruct (lookup_lt_is_Some_2 bs (Z.to_nat (x - a))) as [y Hy]; [lia|]. rewrite Hy. simpl.
  by apply (Forall_lookup_1 _ _ _ _ Hb Hy).
Qed.

Lemma read_range (bs c : list Z) n pos : Forall (λ b, 0 ≤ b < 256) c →
  bs `prefix_of` take (Z.to_nat n) (drop (Z.to_nat pos) c) → Forall (λ b, 0 ≤ b < 256) bs.
Proof.
  intros Hc [k Hk]. assert (Forall (λ b, 0 ≤ b < 256) (bs ++ k)) as Hf by (rewrite <- Hk; by apply Forall_take, Forall_drop).
  by apply Forall_app in Hf as [? _].
Qed.

(** A step of the machine that keeps the process. *)
Lemma loading_machine p0 S pd f p v' f' :
  same_thread p0 p → vm_ok v' (<[pd := f']> S) → later S pd (machine p0) v' → keeps f f' → owned pd (machine p0) v' f f' →
  loading p0 S pd f (set_machine v' p) f'.
Proof. intros Hs Hv Hl Hk Ho. exact (conj Hv (conj Hl (conj Hk (conj Hs Ho)))). Qed.

Lemma install_page_ok p S pd f upage kpage w :
  has_space p S pd f → 0 ≤ upage < PHYS_BASE → upage mod 4096 = 0 → unmapped (machine p) S kpage →
  wp (install_page upage kpage w) (λ ok p', ∃ v', p' = set_machine v' p ∧ later S pd (machine p) v' ∧ accounts pd (machine p) v'
    ∧ if ok then ¬ present (f (upage / 4096)) ∧ vm_ok v' (<[pd := upd f (upage / 4096) (user_pte kpage w)]> S)
      else vm_ok v' S ∧ unmapped v' S kpage) p.
Proof.
  intros (Hv & E & Hpd & Hni) Hup Hum Hk. unfold install_page. apply wp_bind, wp_gets. rewrite Hpd.
  pose proof (add_page_ok (machine p) S pd f upage kpage w Hv E Hni Hup Hum Hk) as Hw.
  apply wp_bind_inv in Hw. apply wp_bind, wp_zoom. eapply wp_mono; [exact Hw|]. intros k v1. cbv beta.
  destruct (k =? NULL).
  - intros Hw1. apply wp_zoom. eapply wp_mono; [exact Hw1|]. intros ok v' Hok. by exists v'.
  - intros Hok. apply wp_ret. by exists v1.
Qed.

Definition page_bytes (read_bytes : Z) : Z := if read_bytes <? PGSIZE then read_bytes else PGSIZE.

(** The bytes of a segment. *)
Definition segment_byte (c : list Z) (ofs read_bytes : Z) (j : Z) : Z :=
  if j <? read_bytes then byte_at c (ofs + j) else 0.

(** A page that has been filled from the file. *)
Lemma filled_page kpage bs c n pos m k :
  bs `prefix_of` take (Z.to_nat n) (drop (Z.to_nat pos) c) → 0 ≤ pos → Z.of_nat (length bs) = n → 0 ≤ k < 4096 →
  fill (kpage + n) 0 (4096 - n) (store_bytes kpage bs m) (kpage + k) = segment_byte c pos n k.
Proof.
  intros Hbs Hpos Hn Hk. unfold segment_byte. destruct (Z.ltb_spec k n).
  - rewrite fill_out, store_bytes_in by lia. apply (read_bytes_at bs c n); (done || lia).
  - replace (kpage + k) with (kpage + n + (k - n)) by lia. apply fill_in. lia.
Qed.

Lemma page_bytes_bound rb : 0 ≤ rb → 0 ≤ page_bytes rb ≤ 4096 ∧ page_bytes rb ≤ rb ∧ (page_bytes rb < 4096 → page_bytes rb = rb).
Proof. intros Hr. unfold page_bytes. rewrite PGSIZE_eq. destruct (Z.ltb_spec rb 4096); lia. Qed.

(** A new page [k] has been written. *)
Lemma page_written p S pd f v1 k m2 :
  has_space p S pd f → vm_ok v1 S → later S pd (machine p) v1 → unmapped v1 S k → ¬ pp_used (pages (machine p)) k →
  only_page k (mem v1) m2 → is_bytes m2 → acct k pd (machine p) v1 →
  vm_ok (set_mem m2 v1) S ∧ unmapped (set_mem m2 v1) S k ∧ later S pd (machine p) (set_mem m2 v1)
  ∧ acct k pd (machine p) (set_mem m2 v1).
Proof.
  intros (Hv & E & _) Hv1 Hl Hk Hku Ho Hb Hac. pose proof (unmapped_plain _ _ _ Hk) as Hkp. split_and!.
  - by apply (write_page_ok v1 S k).
  - by apply (write_unmapped v1 S k).
  - by apply (later_write S S pd (machine p) v1 k).
  - by apply (acct_write k S pd f (machine p) v1 k).
Qed.

(** It is given back. *)
Lemma page_returned {R} p S pd f p2 k (r : R) :
  has_space p S pd f → vm_ok (machine p2) S → later S pd (machine p) (machine p2) → unmapped (machine p2) S k →
  ¬ pp_used (pages (machine p)) k → same_thread p p2 → acct k pd (machine p) (machine p2) →
  wp (on_machine (palloc_free_page k) ;; mret r) (λ r' p', r' = r ∧ loading p S pd f p' f ∧ disk p' = disk p2) p2.
Proof.
  intros (Hv & E & _) Hv2 Hl Hk Hku Hs Hac. apply wp_bind, wp_zoom. eapply wp_mono; [by apply (give_back_ok S pd f (machine p))|].
  intros _ v' (Hv' & Hl' & Hac'). apply wp_ret. split_and!; try done.
  apply loading_machine; try done; [by rewrite insert_id | by apply (owned_null pd _ v' f S)].
Qed.

Lemma owned_page pd (v v' : vm St) f k u w :
  acct k pd v v' → ram_page k → ¬ pp_used (pages v) k → 0 ≤ u < PHYS_BASE → owned pd v v' f (upd f (u / 4096) (user_pte k w)).
Proof.
  intros [H1 H2] Hk Hku Hu. destruct (user_pte_bits k w Hk) as (Hp & Hf & _). split_and!; [done | |].
  - intros q Hq. destruct (H2 q Hq) as [?|[?| ->]]; [by left | right; by left|].
    right. right. exists (u / 4096). unfold upd. rewrite Z.eqb_refl.
    destruct (user_page u Hu) as (? & _). split; [done|]. split; [done | by rewrite Hf].
  - intros n _. unfold upd. destruct (Z.eqb_spec n (u / 4096)); [right; by rewrite Hf | by left].
Qed.

(** It is mapped at [u]. *)
Lemma page_installed {R} p S pd f p2 k u w (no : R) (yes : R) :
  has_space p S pd f → vm_ok (machine p2) S → later S pd (machine p) (machine p2) → unmapped (machine p2) S k →
  ¬ pp_used (pages (machine p)) k → same_thread p p2 → acct k pd (machine p) (machine p2) → 0 ≤ u < PHYS_BASE → u mod 4096 = 0 →
  wp (ok ← install_page u k w;
      if negb ok then on_machine (palloc_free_page k) ;; mret no else mret yes)
    (λ r p', ∃ f', loading p S pd f p' f' ∧ disk p' = disk p2
      ∧ ((r = no ∧ f' = f)
         ∨ (r = yes ∧ f' = upd f (u / 4096) (user_pte k w)
            ∧ image f' (mem (machine p')) u 4096 w (λ j, mem (machine p2) (k + j))))) p2.
Proof.
  intros Hp Hv2 Hl Hk Hku Hs Hac Hu Hum. pose proof Hp as (Hv & E & Hpd & Hni). pose proof Hl as [(Hi & _) _].
  assert (has_space p2 S pd f) as Hp2 by (destruct Hs as (_ & Hpd' & _); split_and!; [done | done | congruence | congruence]).
  apply wp_bind. eapply wp_mono; [by apply (install_page_ok p2 S pd f)|]. intros ok p' (v' & -> & Hl' & Hac' & Hok).
  assert (later S pd (machine p) v') as Hl2 by by apply (later_trans S pd f (machine p) (machine p2)).
  pose proof (acct_trans _ _ _ _ _ Hac Hac') as Hac2. pose proof (used_ram_page (machine p2) S k Hv2 (proj1 Hk)) as Hkr.
  destruct ok; simpl.
  - apply wp_ret. destruct Hok as [Hnp Hv']. exists (upd f (u / 4096) (user_pte k w)). split_and!; [|done|right; split_and!; try done].
    + apply loading_machine; try done; [intros n Hn; unfold upd; by destruct (Z.eqb_spec n (u / 4096)) as [->|]|].
      by apply (owned_page pd _ v' f).
    + pose proof Hk as (Hku2 & Hnf & _). eapply image_ext; [|apply image_page; [by apply (used_ram_page (machine p2) S) | done]].
      intros j Hj. destruct Hl' as [(_ & _ & _ & Hm) _]. apply Hm; [done | by apply (Hnf pd f) | done].
  - destruct Hok as [Hv' Hk'].
    eapply wp_mono; [apply (page_returned p S pd f (set_machine v' p2)); (done || by apply Hs)|].
    intros r p' (-> & Hld & Hd). exists f. split_and!; [done | done | by left].
Qed.

Lemma prefix_short (bs c : list Z) n pos :
  bs `prefix_of` take (Z.to_nat n) (drop (Z.to_nat pos) c) → 0 ≤ n → Z.of_nat (length bs) ≤ n.
Proof. intros [k Hk] Hn. apply (f_equal length) in Hk. rewrite length_app, length_take in Hk. lia. Qed.

Lemma load_page_ok p S pd f m h c pos w u rb zb :
  has_space p S pd f → fs_file (disk p) m h c pos → 0 ≤ pos → u mod 4096 = 0 → 0 ≤ u → 0 ≤ rb → 0 ≤ zb →
  (rb + zb) mod 4096 = 0 → 0 < rb + zb → u + (rb + zb) ≤ PHYS_BASE →
  wp (load_page h w (u, rb, zb)) (λ r p', ∃ f', loading p S pd f p' f' ∧ (∀ n, n ≠ u / 4096 → f' n = f n) ∧
    match r with
    | inr b => b = false ∧ ∃ q, fs_file (disk p') m h c q
    | inl x => x = (u + 4096, rb - page_bytes rb, zb - (4096 - page_bytes rb))
        ∧ fs_file (disk p') m h c (pos + page_bytes rb)
        ∧ image f' (mem (machine p')) u 4096 w (segment_byte c pos (page_bytes rb))
    end) p.
Proof.
  intros Hp Hf Hpos Hum Hu Hrb Hzb Hmod Hlt Htop. pose proof Hp as (Hv & E & Hpd & Hni).
  destruct (page_bytes_bound rb Hrb) as (Hn & Hn1 & Hn2). unfold load_page. rewrite PGSIZE_eq.
  assert (u < PHYS_BASE ∧ rb + zb ≤ PHYS_BASE ∧ 4096 ≤ rb + zb) as (Hu2 & Hsz & Hge) by (unfold PHYS_BASE in *; div_lia).
  change (if rb <? 4096 then rb else 4096) with (page_bytes rb). set (n := page_bytes rb) in *.
  assert ((0 <? rb) || (0 <? zb) = true) as -> by (apply orb_true_iff; rewrite !Z.ltb_lt; lia).
  apply wp_bind, wp_zoom. eapply wp_mono; [by apply (alloc_ok (machine p) S pd)|]. intros k v1 (Hv1 & Hl1 & Hac & Hk). specialize (Hac (ex_intro _ f E)).
  destruct (Z.eqb_spec k NULL) as [->|Hkn].
  { apply wp_ret. exists f. split_and!; [|done|done|by exists pos]. apply loading_machine; try done; [by rewrite insert_id | by apply (owned_null pd _ v1 f S)]. }
  destruct (Hk Hkn) as (Hkm & Hku & _). clear Hk.
  apply wp_bind, wp_zoom. eapply wp_mono; [apply (file_read_ok _ m h c pos n); [done | unfold PHYS_BASE in *; lia]|].
  intros bs d [Hf' Hbs]. destruct (fs_file_bytes _ _ _ _ _ Hf) as [Hc _]. pose proof (read_range _ _ _ _ Hc Hbs) as Hbr.
  pose proof (prefix_short _ _ _ _ Hbs (proj1 Hn)) as Hbl. apply wp_bind, wp_zoom, wp_modify.
  assert (is_bytes (store_bytes k bs (mem v1))) as Hb1 by (apply store_bytes_bytes; [done | apply Hv1]).
  destruct (page_written p S pd f v1 k (store_bytes k bs (mem v1))) as (Hv2 & Hk2 & Hl2 & Hac2); try done.
  { intros a Ha. apply store_bytes_out. lia. }
  destruct (Z.eqb_spec (Z.of_nat (length bs)) n) as [Hlen|Hlen]; simpl.
  2: { eapply wp_mono; [by apply (page_returned p S pd f _ k (inr false))|]. intros r p' (-> & Hld & Hd).
       exists f. split_and!; [done..|]. rewrite Hd. by eexists. }
  apply wp_bind, wp_zoom, wp_modify. simpl.
  set (m2 := fill (k + n) 0 (4096 - n) (store_bytes k bs (mem v1))).
  destruct (page_written p S pd f v1 k m2) as (Hv3 & Hk3 & Hl3 & Hac3); try done.
  { intros a Ha. unfold m2. rewrite fill_out, store_bytes_out by lia. done. }
  { by apply fill_bytes. }
  eapply wp_mono; [by apply (page_installed p S pd f _ k u w (inr false))|].
  intros r p' (f' & Hld & Hd & Hr). rewrite Hlen in Hf'. exists f'. split_and!; [done| |destruct Hr as [[-> ->]|(-> & -> & Him)]].
  - intros j Hj. destruct Hr as [[_ ->]|(_ & -> & _)]; [done|]. unfold upd. by rewrite (proj2 (Z.eqb_neq j _)).
  - split; [done|]. rewrite Hd. by eexists.
  - split_and!; [|by rewrite Hd|].
    + unfold PHYS_BASE in *. rewrite !u32_small by lia. done.
    + eapply image_ext; [|exact Him]. intros j Hj. by apply filled_page.
Qed.

Definition in_segment (u n : Z) (k : Z) : Prop := u / 4096 ≤ k < u / 4096 + n / 4096.

(** The pages that have been loaded so far, when [rb] and [zb] bytes are
    left of [read_bytes] and [zero_bytes]. *)
Lemma load_pages_ok fuel p S pd f m h c pos w u rb zb :
  has_space p S pd f → fs_file (disk p) m h c pos → 0 ≤ pos → u mod 4096 = 0 → 0 ≤ u → 0 ≤ rb → 0 ≤ zb →
  (rb + zb) mod 4096 = 0 → u + (rb + zb) ≤ PHYS_BASE → ((rb + zb) / 4096 < Z.of_nat fuel) →
  wp (loop fuel (load_page h w) (u, rb, zb)) (λ ok p', ∃ f', loading p S pd f p' f'
    ∧ (∃ q, fs_file (disk p') m h c q) ∧ (∀ n, ¬ in_segment u (rb + zb) n → f' n = f n)
    ∧ (ok = true → image f' (mem (machine p')) u (rb + zb) w (segment_byte c pos rb))) p.
Proof.
  revert p f pos u rb zb. revert S. induction fuel as [|fuel IH]; intros S p f pos u rb zb Hp Hf Hpos Hum Hu Hrb Hzb Hmod Htop Hfuel;
    [div_lia|].
  cbn [loop]. apply wp_bind. destruct (decide (0 < rb + zb)) as [Hlt|Hge].
  2: { assert (rb = 0 ∧ zb = 0) as [-> ->] by lia. apply wp_ret, wp_ret. exists f. split_and!; try done.
       - by apply loading_refl.
       - by exists pos.
       - intros _ j Hj. lia. }
  destruct (page_bytes_bound rb Hrb) as (Hn & Hn1 & Hn2).
  assert (4096 ≤ rb + zb) as Hge by div_lia.
  eapply wp_mono; [by apply (load_page_ok p S pd f m h c pos w u rb zb)|]. intros r p1 (f1 & Hld & Hout & Hr).
  assert (∀ n, ¬ in_segment u (rb + zb) n → n ≠ u / 4096) as Hseg by (unfold in_segment; intros j Hj ->; div_lia).
  destruct r as [x|b].
  2: { destruct Hr as [-> Hq]. apply wp_ret. exists f1. split_and!; try done. intros j Hj. by apply Hout, Hseg. }
  destruct Hr as (-> & Hf1 & Him). set (n := page_bytes rb) in *.
  pose proof (loading_space _ _ _ _ _ _ Hp Hld) as Hp1.
  assert (rb - n + (zb - (4096 - n)) = rb + zb - 4096) as Hsum by lia.
  assert ((rb + zb - 4096) / 4096 = (rb + zb) / 4096 - 1) as Hdiv by div_lia.
  eapply wp_mono; [apply (IH (<[pd := f1]> S) p1 f1 (pos + n) (u + 4096)); try done; rewrite ?Hsum; try lia; div_lia|].
  rewrite Hsum. intros ok p' (f' & Hld' & Hq & Hout' & Him'). exists f'.
  split_and!; [by apply (loading_trans p S pd f p1 f1) | done | |].
  - intros j Hj. rewrite Hout'; [by apply Hout, Hseg|]. unfold in_segment in *. rewrite Hdiv. div_lia.
  - intros Hok. specialize (Him' Hok). replace (rb + zb) with (4096 + (rb + zb - 4096)) by lia. apply image_app.
    + destruct Hld' as (_ & Hl' & Hk' & _). destruct Hp1 as (Hv1 & E1 & _).
      eapply image_ext; [|apply (image_later (machine p1) (<[pd := f1]> S) pd f1 (machine p') f' u 4096 w _ Hv1 E1 Hl' Hk' Hu); [lia | exact Him]].
      intros j Hj. unfold segment_byte. destruct (Z.ltb_spec j n), (Z.ltb_spec j rb); try done; lia.
    + eapply image_ext; [|exact Him']. intros j Hj. unfold segment_byte.
      destruct (decide (n = 4096)) as [Hn4|Hn4]; destruct (Z.ltb_spec j (rb - n)), (Z.ltb_spec (4096 + j) rb); try lia; f_equal; lia.
Qed.
End segments.
End ProcessSegments.
