(* ===== verification/ProcessStack.v ===== *)
(** * The first stack of a process

    What [setup_stack] writes to the stack page: the arguments, the array of
    pointers to them, and the frame of the function that a program starts
    with; and when it does not fit. *)
From stdpp Require Import base gmap list list_numbers.
From Stdlib Require Import ZArith Lia.
From S2P Require Import Prelude Vaddr Bitmap Palloc Memory Pagedir PagedirInv PagedirOps PagedirProps Process ProcessSegments.

Module ProcessStack.
Import Vaddr Memory Pagedir PagedirInv PagedirOps PagedirProps Process ProcessSegments.

(** ** Code that returns, or that faults if [P] *)

Definition wpf {S A} (P : Prop) (m : M S A) (Q : A → S → Prop) (s : S) : Prop :=
  match m s with
  | Ok (a, s') => Q a s'
  | Err e => P ∧ e = Fault
  end.

Section wpf.
Context {S : Type} (P : Prop).

Lemma wpf_bind {A B} (m : M S A) (k : A → M S B) (Q : B → S → Prop) s :
  wpf P m (λ a s', wpf P (k a) Q s') s → wpf P (m ≫= k) Q s.
Proof. unfold wpf, mbind, M_bind. by destruct (m s) as [[a s']|]. Qed.
Lemma wpf_ret {A} (a : A) (Q : A → S → Prop) s : Q a s → wpf P (mret a) Q s.
Proof. done. Qed.
Lemma wpf_assoc {A B C} (m : M S A) (k : A → M S B) (k' : B → M S C) (Q : C → S → Prop) s :
  wpf P ((x ← m; k x) ≫= k') Q s → wpf P (x ← m; y ← k x; k' y) Q s.
Proof. unfold wpf, mbind, M_bind. by destruct (m s) as [[a s']|]. Qed.
Lemma wpf_seq {A B C D} (a : M S A) (b : M S B) (c : M S C) (k : M S D) (Q : D → S → Prop) s :
  wpf P (a ;; b ;; c) (λ _ s', wpf P k Q s') s → wpf P (a ;; b ;; c ;; k) Q s.
Proof.
  unfold wpf, mbind, M_bind. destruct (a s) as [[? s1]|]; [|done]. destruct (b s1) as [[? s2]|]; [|done].
  by destruct (c s2) as [[? s3]|].
Qed.
Lemma wpf_mono {A} (m : M S A) (Q Q' : A → S → Prop) s : wpf P m Q s → (∀ a s', Q a s' → Q' a s') → wpf P m Q' s.
Proof. unfold wpf. destruct (m s) as [[a s']|]; auto. Qed.
Lemma wpf_for_loop (I : Z → S → Prop) n i (body : Z → M S unit) (Q : unit → S → Prop) s :
  I i s → (∀ j s, i ≤ j < i + Z.of_nat n → I j s → wpf P (body j) (λ _ s', I (j + 1) s') s) →
  (∀ s, I (i + Z.of_nat n) s → Q tt s) → wpf P (for_loop n i body) Q s.
Proof.
  revert i s. induction n as [|n IH]; intros i s HI Hbody HQ; simpl.
  - apply HQ. by replace (i + Z.of_nat 0) with i by lia.
  - apply wpf_bind. eapply wpf_mono; [apply Hbody; [lia | done]|]. intros [] s' HI'. apply IH; [done | |].
    + intros j s'' Hj. apply Hbody. lia.
    + intros s'' Hs. apply HQ. by replace (i + Z.of_nat (Datatypes.S n)) with (i + 1 + Z.of_nat n) by lia.
Qed.
Lemma wpf_loop {A R} (I : A → S → Prop) (μ : A → nat) (body : A → M S (A + R)) (Q : R → S → Prop) fuel a s :
  (∀ a s, I a s → wpf P (body a) (λ x s', match x with
                                          | inl a' => I a' s' ∧ (μ a' < μ a)%nat
                                          | inr r => Q r s'
                                          end) s) →
  I a s → (μ a < fuel)%nat → wpf P (loop fuel body a) Q s.
Proof.
  intros Hbody. revert a s. induction fuel as [|fuel IH]; intros a s HI Hμ; [lia|].
  simpl. apply wpf_bind. eapply wpf_mono; [by apply Hbody|]. intros [a'|r] s'; simpl; [|done].
  intros [HI' Hlt]. apply IH; [done | lia].
Qed.
End wpf.

(** ** Arguments

    The command line has the characters [cs 0] to [cs len], where a null
    character ends an argument.  An argument starts at the first character,
    and after each null character that another character follows. *)
Definition arg_start (cs : Z → Z) (s : Z) : bool := negb (cs s =? 0) && (cs (s - 1) =? 0).
Definition starts_from (cs : Z → Z) (len x : Z) : list Z := filter (λ s, arg_start cs s = true) (seqZ x (len - x)).
Definition arg_starts (cs : Z → Z) (len : Z) : list Z := 0 :: starts_from cs len 1.

Lemma starts_cons cs len x : x < len →
  starts_from cs len x = (if arg_start cs x then [x] else []) ++ starts_from cs len (x + 1).
Proof.
  intros Hx. unfold starts_from. rewrite seqZ_cons by lia. rewrite filter_cons.
  replace (Z.pred (len - x)) with (len - (x + 1)) by lia. rewrite Z.add_1_r. destruct (arg_start cs x) eqn:E.
  - by rewrite decide_True.
  - by rewrite decide_False.
Qed.
Lemma starts_nil cs len x : len ≤ x → starts_from cs len x = [].
Proof. intros Hx. unfold starts_from. by rewrite seqZ_nil by lia. Qed.

(** Where things are in the stack page. *)
Definition arg_pad (len : Z) : Z := (len + 1) mod 4.
Definition argv_end (len : Z) : Z := 4096 - (len + 1) - arg_pad len - 4.
Definition argv_ofs (cs : Z → Z) (len : Z) : Z := argv_end len - 4 * Z.of_nat (length (arg_starts cs len)).
Definition esp_ofs (cs : Z → Z) (len : Z) : Z := argv_ofs cs len - 12.

Section stack.
Context {St : Type} `{PagePools St} (v : vm St) (S : gmap Z (Z → Z)) (f : Z → Z) (kpage : Z).
Context (Hv : vm_ok v S) (E : S !! active v = Some f) (Hpage : f 786431 = user_pte kpage true) (Hk : plain v S kpage).
Context (P : Prop) (Hbelow : P → ¬ present (f 786430)).

Definition good (m : Z → Z) : Prop := only_page kpage (mem v) m ∧ is_bytes m.

Lemma kpage_ram : ram_page kpage.
Proof. by apply (used_ram_page v S), Hk. Qed.
Lemma good_ok m : good m → vm_ok (set_mem m v) S.
Proof. intros [? ?]. by apply (write_page_ok v S kpage). Qed.

Lemma stack_translate m o : good m → 0 ≤ o < 4096 → translate m (active v) (PHYS_BASE - 4096 + o) = Some (kpage + o, true, true).
Proof.
  intros Hm Ho. change (active v) with (active (set_mem m v)). change m with (mem (set_mem m v)).
  rewrite (translate_space (set_mem m v) S (active v) f); [|by apply good_ok | done | unfold PHYS_BASE; lia]. unfold translation.
  replace ((PHYS_BASE - 4096 + o) / 4096) with 786431 by (unfold PHYS_BASE; div_lia). rewrite Hpage.
  destruct (user_pte_bits kpage true kpage_ram) as (Hp & -> & -> & ->). rewrite bool_decide_true by done.
  do 4 f_equal. unfold PHYS_BASE. div_lia.
Qed.
Lemma below_translate m o : P → good m → -4096 ≤ o < 0 → translate m (active v) (PHYS_BASE - 4096 + o) = None.
Proof.
  intros HP Hm Ho. change (active v) with (active (set_mem m v)). change m with (mem (set_mem m v)).
  rewrite (translate_space (set_mem m v) S (active v) f); [|by apply good_ok | done | unfold PHYS_BASE; lia]. unfold translation.
  replace ((PHYS_BASE - 4096 + o) / 4096) with 786430 by (unfold PHYS_BASE; div_lia).
  by rewrite bool_decide_false by by apply Hbelow.
Qed.

Lemma good_store8 m o x : good m → 0 ≤ o < 4096 → good (store8 (kpage + o) x m).
Proof.
  intros [Ho Hb] Hx. split; [|by apply store8_bytes]. intros a Ha. unfold store8.
  rewrite (proj2 (Z.eqb_neq a _)) by lia. by apply Ho.
Qed.

Lemma store8_ok m o x va (Q : unit → vm St → Prop) :
  va = PHYS_BASE - 4096 + o → good m → -4096 ≤ o < 4096 → (o < 0 → P) → (0 ≤ o → Q tt (set_mem (store8 (kpage + o) x m) v)) →
  wpf P (user_store8 va x) Q (set_mem m v).
Proof.
  intros -> Hm Ho HP HQ. unfold wpf, user_store8. change (active (set_mem m v)) with (active v). simpl.
  destruct (decide (0 ≤ o)).
  - rewrite stack_translate by (done || lia). apply HQ. lia.
  - rewrite below_translate by (done || lia || apply HP; lia). split; [|done]. apply HP. lia.
Qed.

Lemma load8_ok m o va (Q : Z → vm St → Prop) :
  va = PHYS_BASE - 4096 + o → good m → 0 ≤ o < 4096 → Q (m (kpage + o)) (set_mem m v) → wpf P (user_load8 va) Q (set_mem m v).
Proof.
  intros -> Hm Ho HQ. unfold wpf, user_load8. change (active (set_mem m v)) with (active v). simpl.
  by rewrite stack_translate by done.
Qed.

Definition same_but (a n : Z) (m m' : Z → Z) : Prop := ∀ x, ¬ (a ≤ x < a + n) → m' x = m x.

Lemma store32_ok m o x va (Q : unit → vm St → Prop) :
  va = PHYS_BASE - 4096 + o → good m → -4 ≤ o → o + 4 ≤ 4096 → 0 ≤ x < 2^32 → (o < 0 → P) →
  (∀ m', 0 ≤ o → good m' → load32 m' (kpage + o) = x → same_but (kpage + o) 4 m m' → Q tt (set_mem m' v)) →
  wpf P (user_store32 va x) Q (set_mem m v).
Proof.
  intros -> Hm Ho1 Ho2 Hx HP HQ. unfold user_store32.
  apply (wpf_for_loop P (λ i s, ∃ m', s = set_mem m' v ∧ good m' ∧ same_but (kpage + o) 4 m m' ∧ (0 < i → 0 ≤ o)
    ∧ ∀ j, 0 ≤ j < i → m' (kpage + o + j) = u8 (Z.shiftr x (8 * j)))).
  - exists m. split_and!; try done; intros; lia.
  - intros i s Hi (m' & -> & Hm' & Hsame & Hpos & Hdone). apply (store8_ok m' (o + i)); try done; try lia.
    { unfold PHYS_BASE in *. rewrite u32_small by lia. lia. }
    { intros Hlt. apply HP. lia. }
    intros Hoi. destruct (decide (0 ≤ o)) as [H0|H0]; [|destruct (decide (i = 0)) as [->|]; lia].
    eexists. split_and!; [done | apply good_store8; [done | lia] | | done|].
    + intros y Hy. unfold store8. rewrite (proj2 (Z.eqb_neq y _)) by lia. by apply Hsame.
    + intros j Hj. unfold store8. destruct (Z.eqb_spec (kpage + o + j) (kpage + (o + i))) as [Heq|Hne].
      * by replace j with i by lia.
      * apply Hdone. lia.
  - intros s (m' & -> & Hm' & Hsame & Hpos & Hdone). apply HQ; [apply Hpos; lia | done | | done].
    unfold load32. pose proof (Hdone 0 ltac:(lia)) as H0. rewrite Z.add_0_r in H0. rewrite H0, !Hdone by lia.
    unfold u8. rewrite !Z.shiftr_div_pow2 by lia. simpl (8 * _). div_lia.
Qed.

(** ** The arguments *)

Context (params len : Z) (Hlen : 0 ≤ len ≤ 4091) (Hplen : params_len v params = len).
Context (Hfar : ∀ i, 0 ≤ i < 5 + len → ¬ (kpage ≤ params + i < kpage + 4096)).
Definition cs (i : Z) : Z := mem v (cmdline params + i).
Context (Hnul : cs len = 0) (HP : esp_ofs cs len < 0 → P).

Definition written (m : Z → Z) : Prop := ∀ i, 0 ≤ i ≤ len → m (kpage + (4096 - (len + 1) + i)) = cs i.

(** The array of pointers to the arguments [l]. *)
Definition argv_is (m : Z → Z) (l : list Z) (argc esp : Z) : Prop :=
  let o := argv_end len - 4 * Z.of_nat (length l) in
  argc = Z.of_nat (length l) ∧ esp = PHYS_BASE - 4096 + o ∧ 0 ≤ o
  ∧ ∀ k s, l !! k = Some s → load32 m (kpage + (o + 4 * Z.of_nat k)) = PHYS_BASE - (len + 1) + s.

Definition tokens (m : Z → Z) (l : list Z) (argc esp : Z) : Prop :=
  good m ∧ written m ∧ load32 m (kpage + argv_end len) = 0 ∧ argv_is m l argc esp.

Lemma argv_end_bound : -3 ≤ argv_end len ≤ 4096 - (len + 1) - 4.
Proof. unfold argv_end, arg_pad. div_lia. Qed.

Lemma written_kept m m' a n : written m → same_but a n m m' → a + n ≤ kpage + (4096 - (len + 1)) → written m'.
Proof. intros Hw Hs Ha i Hi. rewrite Hs by lia. by apply Hw. Qed.

Lemma push_ok m l argc esp s va x (Q : unit → vm St → Prop) :
  tokens m l argc esp → (length l < length (arg_starts cs len))%nat → va = u32 (esp - 4) →
  x = PHYS_BASE - (len + 1) + s → 0 ≤ s ≤ len →
  (∀ m', tokens m' (s :: l) (argc + 1) (u32 (esp - 4)) → Q tt (set_mem m' v)) →
  wpf P (user_store32 va x) Q (set_mem m v).
Proof.
  intros (Hm & Hw & H0 & Hargc & Hesp & Ho & Hargs) Hl -> -> Hs HQ. pose proof argv_end_bound as Hend.
  set (o := argv_end len - 4 * Z.of_nat (length l)) in *.
  assert (u32 (esp - 4) = PHYS_BASE - 4096 + (o - 4)) as Hva by (unfold PHYS_BASE in *; rewrite u32_small; lia).
  assert (argv_end len - 4 * Z.of_nat (length (s :: l)) = o - 4) as Ho' by (unfold o; cbn [length]; lia).
  apply (store32_ok m (o - 4)); try done; try lia.
  - unfold PHYS_BASE in *. lia.
  - intros Hlt. apply HP. unfold esp_ofs, argv_ofs, o in *. lia.
  - intros m' Hpos Hm' Hld Hsame. apply HQ. split_and!; [done | | |].
    + apply (written_kept m m' (kpage + (o - 4)) 4); [done | done | unfold o; lia].
    + rewrite <- H0. apply load32_ext. intros j Hj. apply Hsame. unfold o. lia.
    + unfold argv_is. cbv zeta. rewrite Ho'. split_and!; [cbn [length]; lia | done | done|].
      intros [|k] s' Hk'; [injection Hk' as <-; by rewrite Z.mul_0_r, Z.add_0_r|].
      rewrite <- (Hargs k s' Hk'). replace (o - 4 + 4 * Z.of_nat (Datatypes.S k)) with (o + 4 * Z.of_nat k) by lia.
      apply load32_ext. intros j Hj. apply Hsame. lia.
Qed.

Lemma starts_length x : 1 ≤ x → (length (starts_from cs len x) ≤ length (starts_from cs len 1))%nat.
Proof.
  intros Hx. replace x with (1 + Z.of_nat (Z.to_nat (x - 1))) by lia. induction (Z.to_nat (x - 1)) as [|k IH]; [done|].
  replace (1 + Z.of_nat (Datatypes.S k)) with (1 + Z.of_nat k + 1) by lia.
  destruct (decide (len ≤ 1 + Z.of_nat k)); [rewrite starts_nil by lia; simpl; lia|].
  rewrite (starts_cons cs len (1 + Z.of_nat k)) in IH by lia. rewrite length_app in IH. lia.
Qed.

(** The characters from [len - i + 1] on have been seen. *)
Definition scanned (i t argc esp : Z) (s : vm St) : Prop :=
  ∃ m, s = set_mem m v ∧ 0 ≤ i ≤ len + 1
    ∧ (i ≤ len → t = (if i =? 0 then 0 else cs (len - i + 1)) ∧ tokens m (starts_from cs len (len - i + 2)) argc esp)
    ∧ (i = len + 1 → tokens m (arg_starts cs len) argc esp).

Lemma start_push i t argc esp m (Q : Z * Z → vm St → Prop) :
  0 ≤ i ≤ len → t = (if i =? 0 then 0 else cs (len - i + 1)) → tokens m (starts_from cs len (len - i + 2)) argc esp →
  (∀ m' argc' esp', tokens m' (starts_from cs len (len - i + 1)) argc' esp' → Q (argc', esp') (set_mem m' v)) →
  wpf P (start ← (if t =? 0 then mret false else c ← user_load8 (u32 (PHYS_BASE - 1 - i)); mret (c =? 0));
         if (start : bool) then
           user_store32 (u32 (esp - 4)) (u32 (u32 (PHYS_BASE - 1 - i) + 1)) ;; mret (argc + 1, u32 (esp - 4))
         else mret (argc, esp)) Q (set_mem m v).
Proof.
  intros Hi Ht Htk HQ.
  assert (u32 (PHYS_BASE - 1 - i) = PHYS_BASE - 4096 + (4096 - (len + 1) + (len - i))) as Haddr.
  { unfold PHYS_BASE in *. rewrite u32_small; lia. }
  rewrite Haddr. destruct (Z.eqb_spec t 0) as [Ht0|Ht0].
  - simpl. apply wpf_bind, HQ. replace (starts_from cs len (len - i + 1)) with (starts_from cs len (len - i + 2)); [done|].
    destruct (decide (i ≤ 1)); [by rewrite !starts_nil by lia|]. rewrite (starts_cons cs len (len - i + 1)) by lia.
    rewrite (proj2 (Z.eqb_neq i 0)) in Ht by lia. unfold arg_start. rewrite <- Ht, Ht0. simpl. f_equal. lia.
  - assert (i ≠ 0) as Hi0 by (intros ->; done). rewrite (proj2 (Z.eqb_neq i 0)) in Ht by done.
    assert (i ≠ 1) by (intros ->; apply Ht0; by rewrite Ht, Z.sub_add).
    pose proof (starts_cons cs len (len - i + 1) ltac:(lia)) as Hst. unfold arg_start in Hst. rewrite <- Ht in Hst.
    replace (len - i + 1 + 1) with (len - i + 2) in Hst by lia. replace (len - i + 1 - 1) with (len - i) in Hst by lia.
    rewrite (proj2 (Z.eqb_neq t 0)) in Hst by done. simpl in Hst.
    apply wpf_bind, wpf_bind, (load8_ok m (4096 - (len + 1) + (len - i))); [done | apply Htk | lia |]. apply wpf_ret.
    pose proof Htk as (_ & Hw & _). rewrite Hw by lia. destruct (cs (len - i) =? 0); simpl in Hst; [|by apply HQ; rewrite Hst].
    apply wpf_bind. eapply (push_ok m _ argc esp (len - i + 1)); [done | | done | | lia |].
    + pose proof (starts_length (len - i + 1) ltac:(lia)) as Hsl. rewrite Hst in Hsl. cbn [length arg_starts] in *. lia.
    + unfold PHYS_BASE in *. rewrite u32_small; lia.
    + intros m' Htk'. apply HQ. by rewrite Hst.
Qed.

Lemma push_token_ok i t argc esp s :
  scanned i t argc esp s →
  wpf P (push_token len (i, t, argc, esp)) (λ r s',
    match r with
    | inl (i', t', argc', esp') => scanned i' t' argc' esp' s' ∧ i' = i + 1 ∧ i ≤ len
    | inr (argc', esp') => ∃ m, s' = set_mem m v ∧ tokens m (arg_starts cs len) argc' esp'
    end) s.
Proof.
  intros (m & -> & Hi & Hmid & Hend). unfold push_token. destruct (Z.leb_spec i len) as [Hle|Hgt].
  2: { exists m. split; [done|]. apply Hend. lia. }
  destruct (Hmid Hle) as [Ht Htk]. clear Hmid Hend.
  assert (u32 (PHYS_BASE - 1 - i) = PHYS_BASE - 4096 + (4096 - (len + 1) + (len - i))) as Haddr.
  { unfold PHYS_BASE in *. rewrite u32_small; lia. }
  apply wpf_assoc, wpf_bind. eapply (start_push i t argc esp m); [lia | done | done|]. intros m1 argc1 esp1 Htk1.
  assert (∀ m2 argc2 esp2, (i < len → tokens m2 (starts_from cs len (len - i + 1)) argc2 esp2) →
    (i = len → tokens m2 (arg_starts cs len) argc2 esp2) → good m2 → written m2 →
    wpf P (c ← user_load8 (u32 (PHYS_BASE - 1 - i)); mret (inl (i + 1, c, argc2, esp2))) (λ r s',
      match r with
      | inl (i', t', argc', esp') => scanned i' t' argc' esp' s' ∧ i' = i + 1 ∧ i ≤ len
      | inr (argc', esp') => ∃ m, s' = set_mem m v ∧ tokens m (arg_starts cs len) argc' esp'
      end) (set_mem m2 v)) as Hlast.
  { intros m2 argc2 esp2 H1 H2 Hg2 Hw2. rewrite Haddr. apply wpf_bind, (load8_ok m2 (4096 - (len + 1) + (len - i))); [done | done | lia|].
    apply wpf_ret. rewrite Hw2 by lia. split_and!; [|done|done]. exists m2. split_and!; [done | lia | | |].
    - lia.
    - intros Hi1. rewrite (proj2 (Z.eqb_neq (i + 1) 0)) by lia. replace (len - (i + 1) + 1) with (len - i) by lia.
      replace (len - (i + 1) + 2) with (len - i + 1) by lia. split; [done|]. apply H1. lia.
    - intros Hi1. apply H2. lia. }
  destruct (Z.eqb_spec i len) as [Heq|Hne].
  - apply wpf_bind, wpf_bind. eapply (push_ok m1 _ argc1 esp1 0); [done | | done | | lia |].
    + replace (len - i + 1) with 1 by lia. simpl. lia.
    + unfold PHYS_BASE in *. lia.
    + intros m2 Htk2. apply wpf_ret. replace (len - i + 1) with 1 in Htk2 by lia. pose proof Htk2 as (? & ? & _).
      apply Hlast; (done || lia).
  - apply wpf_bind, wpf_ret. pose proof Htk1 as (? & ? & _). apply Hlast; (done || lia).
Qed.

(** The stack page when all is there. *)
Definition layout (m : Z → Z) : Prop :=
  0 ≤ esp_ofs cs len ∧ tokens m (arg_starts cs len) (Z.of_nat (length (arg_starts cs len))) (PHYS_BASE - 4096 + argv_ofs cs len)
  ∧ load32 m (kpage + (esp_ofs cs len + 8)) = PHYS_BASE - 4096 + argv_ofs cs len
  ∧ load32 m (kpage + (esp_ofs cs len + 4)) = Z.of_nat (length (arg_starts cs len))
  ∧ load32 m (kpage + esp_ofs cs len) = 0.

Lemma set_mem_id : set_mem (mem v) v = v.
Proof. by destruct v. Qed.

Lemma tokens_kept m m' l argc esp a n :
  tokens m l argc esp → good m' → same_but a n m m' → a + n ≤ kpage + (argv_end len - 4 * Z.of_nat (length l)) →
  tokens m' l argc esp.
Proof.
  intros (Hm & Hw & H0 & Hargc & Hesp & Ho & Hargs) Hm' Hs Ha. pose proof argv_end_bound.
  split_and!; [done | apply (written_kept m m' a n); (done || lia) | | ].
  - rewrite <- H0. apply load32_ext. intros j Hj. apply Hs. lia.
  - split_and!; try done. intros k s Hks. rewrite <- (Hargs k s Hks). apply load32_ext. intros j Hj. apply Hs. lia.
Qed.

Lemma starts_count : (length (arg_starts cs len) ≤ Z.to_nat (len + 1))%nat.
Proof.
  cbn [arg_starts length]. unfold starts_from. pose proof (length_filter (λ s, arg_start cs s = true) (seqZ 1 (len - 1))) as Hl.
  rewrite length_seqZ in Hl. lia.
Qed.

(** The frame below the array. *)
Lemma push_frame m (Q : Z → vm St → Prop) :
  let l := arg_starts cs len in let argc := Z.of_nat (length l) in let esp := PHYS_BASE - 4096 + argv_ofs cs len in
  tokens m l argc esp →
  (∀ m', layout m' → Q (PHYS_BASE - 4096 + esp_ofs cs len) (set_mem m' v)) →
  wpf P (user_store32 (u32 (esp - 4)) esp ;; user_store32 (u32 (esp - 8)) argc ;; user_store32 (u32 (esp - 12)) 0 ;;
         mret (u32 (esp - 12))) Q (set_mem m v).
Proof.
  intros l argc esp Htk HQ. pose proof Htk as (Hm & _ & _ & _ & _ & Ho & _). pose proof argv_end_bound as Hend.
  pose proof starts_count as Hcnt. change (0 ≤ argv_ofs cs len) in Ho. set (o := argv_ofs cs len) in *.
  assert (o ≤ 4096 - 4) as Ho2 by (unfold o, argv_ofs; lia).
  assert (∀ d, 0 ≤ d ≤ 12 → u32 (esp - d) = PHYS_BASE - 4096 + (o - d)) as Hu.
  { intros d Hd. unfold esp. fold o. unfold PHYS_BASE. rewrite u32_small; lia. }
  assert (∀ d, d ≤ 12 → o - d < 0 → P) as HP' by (intros d Hd Hlt; apply HP; unfold esp_ofs; fold o; lia).
  apply wpf_bind, (store32_ok m (o - 4)); [by apply Hu; lia | done | lia | lia | unfold esp; fold o; unfold PHYS_BASE; lia | by apply HP' |].
  intros m1 Ho1 Hm1 Hl1 Hs1. apply wpf_bind, (store32_ok m1 (o - 8)); [by apply Hu; lia | done | lia | lia | unfold argc, l; lia | by apply HP' |].
  intros m2 Ho3 Hm2 Hl2 Hs2. apply wpf_bind, (store32_ok m2 (o - 12)); [by apply Hu; lia | done | lia | lia | lia | by apply HP' |].
  intros m3 Ho4 Hm3 Hl3 Hs3. apply wpf_ret. rewrite Hu by lia. unfold esp_ofs in HQ. fold o in HQ. apply HQ.
  unfold layout, esp_ofs. fold o l argc. split_and!; [done | | | | done].
  - apply (tokens_kept m2 m3 _ _ _ (kpage + (o - 12)) 4); [|done | done | unfold o, argv_ofs; fold l; lia].
    apply (tokens_kept m1 m2 _ _ _ (kpage + (o - 8)) 4); [|done | done | unfold o, argv_ofs; fold l; lia].
    apply (tokens_kept m m1 _ _ _ (kpage + (o - 4)) 4); [done..|unfold o, argv_ofs; fold l; lia].
  - transitivity (load32 m1 (kpage + (o - 4))); [|exact Hl1]. replace (o - 12 + 8) with (o - 4) by lia. apply load32_ext. intros j Hj.
    rewrite Hs3, Hs2 by lia. done.
  - transitivity (load32 m2 (kpage + (o - 8))); [|exact Hl2]. replace (o - 12 + 4) with (o - 8) by lia. apply load32_ext. intros j Hj. rewrite Hs3 by lia. done.
Qed.

(** The characters, the padding, and the null pointer at the end of the array. *)
Lemma push_strings (Q : unit → vm St → Prop) :
  let esp := u32 (PHYS_BASE - (len + 1)) in
  let pad := Z.rem (len + 1) 4 in
  (∀ m, tokens m [] 0 (u32 (u32 (esp - pad) - 4)) → Q tt (set_mem m v)) →
  wpf P (for_loop (Z.to_nat (len + 1)) 0 (λ i,
           c ← gets (λ v, mem v (cmdline params + i)); user_store8 (u32 (esp + i)) c) ;;
         for_loop (Z.to_nat pad) 0 (λ i, user_store8 (u32 (u32 (esp - pad) + i)) 0) ;;
         user_store32 (u32 (u32 (esp - pad) - 4)) 0) Q (set_mem (mem v) v).
Proof.
  intros esp pad HQ. pose proof argv_end_bound as Hend.
  assert (esp = PHYS_BASE - 4096 + (4096 - (len + 1))) as Hesp by (unfold esp, PHYS_BASE; rewrite u32_small; lia).
  assert (pad = arg_pad len) as Hpad by (unfold pad, arg_pad; apply Z.rem_mod_nonneg; lia).
  assert (0 ≤ pad < 4) as Hp4 by (rewrite Hpad; apply Z.mod_pos_bound; lia).
  assert (u32 (esp - pad) = PHYS_BASE - 4096 + (argv_end len + 4)) as Hesp2.
  { unfold argv_end. rewrite <- Hpad, Hesp. unfold PHYS_BASE. rewrite u32_small; lia. }
  assert (argv_end len + 4 + pad = 4096 - (len + 1)) as Hsum by (unfold argv_end; rewrite Hpad; lia).
  assert (u32 (u32 (esp - pad) - 4) = PHYS_BASE - 4096 + argv_end len) as Hesp3.
  { rewrite Hesp2. unfold PHYS_BASE. rewrite u32_small; lia. }
  apply wpf_bind, (wpf_for_loop P (λ i s, ∃ m, s = set_mem m v ∧ good m
    ∧ ∀ j, 0 ≤ j < i → m (kpage + (4096 - (len + 1) + j)) = cs j)).
  - exists (mem v). split_and!; [done | split; [done | apply Hv] | intros; lia].
  - intros i s Hi (m & -> & Hm & Hd). apply wpf_bind. change (wpf P (user_store8 (u32 (esp + i)) (m (cmdline params + i)))
      (λ _ s', ∃ m, s' = set_mem m v ∧ good m ∧ ∀ j, 0 ≤ j < i + 1 → m (kpage + (4096 - (len + 1) + j)) = cs j) (set_mem m v)).
    assert (m (cmdline params + i) = cs i) as ->.
    { apply Hm. unfold cmdline. rewrite <- Z.add_assoc. apply Hfar. lia. }
    apply (store8_ok m (4096 - (len + 1) + i)); [rewrite Hesp; unfold PHYS_BASE; rewrite u32_small; lia | done | lia | lia|]. intros _.
    eexists. split_and!; [done | apply good_store8; [done | lia]|]. intros j Hj. unfold store8.
    destruct (Z.eqb_spec (kpage + (4096 - (len + 1) + j)) (kpage + (4096 - (len + 1) + i))).
    + replace j with i by lia. apply u8_small. unfold cs. apply Hv.
    + apply Hd. lia.
  - intros s (m & -> & Hm & Hd).
    apply wpf_bind, (wpf_for_loop P (λ i s, ∃ m, s = set_mem m v ∧ good m ∧ written m)).
    + exists m. split_and!; try done. intros i Hi. apply Hd. lia.
    + intros i s Hi (m1 & -> & Hm1 & Hw1). apply (store8_ok m1 (argv_end len + 4 + i)); try done; try lia.
      { rewrite Hesp2. unfold PHYS_BASE. rewrite u32_small; lia. }
      intros _. eexists. split_and!; [done | apply good_store8; [done | lia]|].
      intros j Hj. unfold store8. rewrite (proj2 (Z.eqb_neq _ _)) by lia. by apply Hw1.
    + intros s (m1 & -> & Hm1 & Hw1). apply (store32_ok m1 (argv_end len)); [done | done | lia | lia | lia | |].
      { intros Hlt. apply HP. unfold esp_ofs, argv_ofs. lia. }
      intros m2 Hpos Hm2 Hl2 Hs2. apply HQ. split_and!; [done | | done|].
      * apply (written_kept m1 m2 (kpage + argv_end len) 4); (done || lia).
      * unfold argv_is. simpl. rewrite Z.sub_0_r. split_and!; [done | done | done|]. intros k s Hks. by rewrite lookup_nil in Hks.
Qed.

(** The arguments are on the stack, unless they do not fit. *)
Lemma push_arguments_ok :
  wpf P (push_arguments params) (λ esp s, ∃ m, s = set_mem m v ∧ layout m ∧ esp = PHYS_BASE - 4096 + esp_ofs cs len) v.
Proof.
  enough (wpf P (push_arguments params) (λ esp s, ∃ m, s = set_mem m v ∧ layout m ∧ esp = PHYS_BASE - 4096 + esp_ofs cs len)
    (set_mem (mem v) v)) as He by (by rewrite set_mem_id in He).
  unfold push_arguments. apply wpf_bind. unfold wpf at 1, gets at 1.
  change (params_len (set_mem (mem v) v) params) with (params_len v params). rewrite Hplen.
  apply wpf_seq, push_strings. intros m Htk. cbv beta.
  apply wpf_bind, (wpf_loop P (λ '(i, t, argc, esp) s, scanned i t argc esp s) (λ '(i, _, _, _), Z.to_nat (len + 1 - i))).
  - intros [[[i t] argc] esp] s Hs. pose proof Hs as (m' & _ & Hi & _). eapply wpf_mono; [by apply push_token_ok|].
    intros [[[[i' t'] argc'] esp']|[argc' esp']] s'.
    + intros (Hs' & -> & Hle). split; [done | lia].
    + intros (m2 & -> & Htk2). pose proof Htk2 as (_ & _ & _ & -> & -> & _).
      apply (push_frame m2); [done|]. intros m3 Hl3. by exists m3.
  - exists m. split; [done|]. split; [lia|]. split; [|intros ?; lia].
    intros _. split; [done|]. by rewrite starts_nil by lia.
  - lia.
Qed.
End stack.
End ProcessStack.
