(* ===== verification/ProcessLoad.v ===== *)
(** * Loading programs

    The program headers, the stack and [load] as a whole. *)
From stdpp Require Import base gmap list list_numbers.
From Stdlib Require Import ZArith Lia.
From S2P Require Import Prelude Vaddr Bitmap Palloc Memory Pagedir PagedirInv PagedirOps PagedirDestroy PagedirProps.
From S2P Require Import Process ProcessSegments ProcessStack.

Module ProcessLoad.
Import Vaddr Memory Pagedir PagedirInv PagedirOps PagedirDestroy PagedirProps Process ProcessSegments ProcessStack.

(** ** Program headers *)

Definition is_byte (b : Z) : Prop := 0 ≤ b < 256.

Lemma half_range bs i : Forall is_byte bs → 0 ≤ half bs i < 2^16.
Proof.
  intros Hb. assert (∀ j, 0 ≤ default 0 (bs !! j) < 256) as Hj.
  { intros j. destruct (bs !! j) eqn:E; simpl; [by apply (Forall_lookup_1 _ _ _ _ Hb E) | lia]. }
  unfold half. pose proof (Hj i). pose proof (Hj (i + 1)%nat). lia.
Qed.
Lemma word_range bs i : Forall is_byte bs → 0 ≤ word bs i < 2^32.
Proof. intros Hb. unfold word. pose proof (half_range bs i Hb). pose proof (half_range bs (i + 2) Hb). lia. Qed.

Definition phdr_ok (ph : Elf32_Phdr) : Prop :=
  0 ≤ p_type ph < 2^32 ∧ 0 ≤ p_offset ph < 2^32 ∧ 0 ≤ p_vaddr ph < 2^32 ∧ 0 ≤ p_filesz ph < 2^32 ∧ 0 ≤ p_memsz ph < 2^32.
Lemma phdr_of_bytes_ok bs : Forall is_byte bs → phdr_ok (phdr_of_bytes bs).
Proof. intros Hb. split_and!; apply word_range; done. Qed.

(** What [validate_segment] asks for, in a file of [len] bytes. *)
Definition valid_segment (len : Z) (ph : Elf32_Phdr) : Prop :=
  p_offset ph mod 4096 = p_vaddr ph mod 4096 ∧ p_offset ph ≤ len ∧ p_filesz ph ≤ p_memsz ph ∧ 0 < p_memsz ph
  ∧ 4096 ≤ p_vaddr ph ∧ p_vaddr ph + p_memsz ph < PHYS_BASE.
#[global] Instance valid_segment_dec len ph : Decision (valid_segment len ph).
Proof. unfold valid_segment. apply _. Defined.

Definition writable (ph : Elf32_Phdr) : bool := negb (Z.land (p_flags ph) PF_W =? 0).

(** The header number [i] of the table at [off] in the file [c]. *)
Definition phdr_at (c : list Z) (off i : Z) : Elf32_Phdr := phdr_of_bytes (take 32 (drop (Z.to_nat (off + 32 * i)) c)).

Section load.
Context {St : Type} `{PagePools St} {F : Type} `{FileSystem F}.
Implicit Types (p : process St F) (S : gmap Z (Z → Z)) (f : Z → Z).

Lemma load_segment_ok p S pd f m h c pos w ofs u rb zb :
  has_space p S pd f → fs_file (disk p) m h c pos → 0 ≤ ofs < 2^31 → ofs mod 4096 = 0 → u mod 4096 = 0 → 0 ≤ u →
  0 ≤ rb → 0 ≤ zb → (rb + zb) mod 4096 = 0 → u + (rb + zb) ≤ PHYS_BASE →
  wp (load_segment h ofs u rb zb w) (λ ok p', ∃ f', loading p S pd f p' f' ∧ (∃ q, fs_file (disk p') m h c q)
    ∧ (ok = true → image f' (mem (machine p')) u (rb + zb) w (segment_byte c ofs rb))) p.
Proof.
  intros Hp Hf Hofs Hom Hum Hu Hrb Hzb Hmod Htop. unfold load_segment. rewrite PGSIZE_eq.
  apply wp_bind, wp_ASSERT; [unfold PHYS_BASE in *; rewrite u32_small by lia; by rewrite Hmod|].
  apply wp_bind, wp_ASSERT; [by rewrite pg_ofs_eq, PGSIZE_eq, Hum|].
  apply wp_bind, wp_ASSERT; [rewrite Z.rem_mod_nonneg by lia; by rewrite Hom|].
  apply wp_bind, wp_zoom. eapply wp_mono; [by apply (file_seek_ok _ m h c pos ofs)|]. intros [] d Hf'.
  eapply wp_mono; [apply (load_pages_ok _ (set_disk d p) S pd f m h c ofs w u rb zb); try done; try lia; div_lia|].
  intros ok p' (f' & Hld & Hq & _ & Him). by exists f'.
Qed.

Lemma land_mask x : 0 ≤ x < 2^32 → Z.land x PGMASK = x mod 4096 ∧ Z.land x (u32 (Z.lnot PGMASK)) = x - x mod 4096.
Proof.
  intros Hx. split.
  - change PGMASK with (Z.ones 12). by rewrite Z.land_ones.
  - rewrite land_page_mask by done. div_lia.
Qed.

Lemma validate_segment_ok p m h c pos ph :
  phdr_ok ph → fs_file (disk p) m h c pos →
  wp (validate_segment ph h) (λ b p', ∃ d, p' = set_disk d p ∧ fs_file d m h c pos
    ∧ b = bool_decide (valid_segment (Z.of_nat (length c)) ph)) p.
Proof.
  intros (_ & Ho & Hva & Hfs & Hms) Hf. unfold validate_segment.
  rewrite (proj1 (land_mask _ Ho)), (proj1 (land_mask _ Hva)).
  destruct (Z.eqb_spec (p_offset ph mod 4096) (p_vaddr ph mod 4096)) as [He|He]; simpl.
  2: { apply wp_ret. exists (disk p). split_and!; [by destruct p | done|]. rewrite bool_decide_false; [done|]. by intros (? & _). }
  apply wp_bind, wp_zoom. eapply wp_mono; [by apply (file_length_ok _ m h c pos)|]. intros len d [Hf' ->].
  destruct (fs_file_bytes _ _ _ _ _ Hf) as [_ Hlen]. rewrite u32_small by lia.
  assert (∀ b, b = bool_decide (valid_segment (Z.of_nat (length c)) ph) → wp (mret b) (λ b p', ∃ d, p' = set_disk d p ∧ fs_file d m h c pos
    ∧ b = bool_decide (valid_segment (Z.of_nat (length c)) ph)) (set_disk d p)) as Hret by (intros b Hb; apply wp_ret; by exists d).
  unfold is_user_vaddr. rewrite PGSIZE_eq.
  assert (∀ x, (x <? 2^32) = true → 0 ≤ x → u32 x = x) as Hu by (intros; apply u32_small; lia).
  repeat match goal with
  | |- context [?a <? ?b] => destruct (Z.ltb_spec a b)
  | |- context [?a =? ?b] => destruct (Z.eqb_spec a b)
  end; simpl; apply Hret; symmetry; unfold valid_segment; unfold u32, PHYS_BASE in *;
  (apply bool_decide_eq_true_2; div_lia) || (apply bool_decide_eq_false_2; div_lia).
Qed.

(** The segment of the header [ph] of the file [c] is in memory. *)
Definition loaded f (m : Z → Z) (c : list Z) (ph : Elf32_Phdr) : Prop :=
  image f m (p_vaddr ph) (p_memsz ph) (writable ph) (segment_byte c (p_offset ph) (p_filesz ph)).
Definition header_done f (m : Z → Z) (c : list Z) (ph : Elf32_Phdr) : Prop :=
  p_type ph ≠ PT_DYNAMIC ∧ p_type ph ≠ PT_INTERP ∧ p_type ph ≠ PT_SHLIB
  ∧ (p_type ph = PT_LOAD → valid_segment (Z.of_nat (length c)) ph ∧ loaded f m c ph).

Lemma image_sub f m u n w g a k : image f m u n w g → 0 ≤ a → a + k ≤ n → image f m (u + a) k w (λ j, g (a + j)).
Proof. intros Hi Ha Hk j Hj. destruct (Hi (a + j) ltac:(lia)) as (x & Hx & Hg). exists x. by rewrite <- Z.add_assoc. Qed.

Lemma load_phdr_ok p S pd f m h c pos ph :
  has_space p S pd f → fs_file (disk p) m h c pos → phdr_ok ph → valid_segment (Z.of_nat (length c)) ph →
  let page_offset := Z.land (p_vaddr ph) PGMASK in
  let total := u32 (page_offset + p_memsz ph + PGSIZE - 1) / PGSIZE * PGSIZE in
  let read_bytes := if 0 <? p_filesz ph then u32 (page_offset + p_filesz ph) else 0 in
  wp (load_segment h (s32 (Z.land (p_offset ph) (u32 (Z.lnot PGMASK)))) (Z.land (p_vaddr ph) (u32 (Z.lnot PGMASK)))
       read_bytes (u32 (total - read_bytes)) (writable ph))
    (λ ok p', ∃ f', loading p S pd f p' f' ∧ (∃ q, fs_file (disk p') m h c q)
      ∧ (ok = true → loaded f' (mem (machine p')) c ph)) p.
Proof.
  intros Hp Hf (_ & Ho & Hva & Hfs & Hms) (Heq & Hin & Hle & Hpos & Hlow & Htop). cbv zeta.
  destruct (fs_file_bytes _ _ _ _ _ Hf) as [_ Hlen].
  rewrite (proj1 (land_mask _ Hva)), (proj2 (land_mask _ Hva)), (proj2 (land_mask _ Ho)), PGSIZE_eq.
  set (po := p_vaddr ph mod 4096) in *. assert (0 ≤ po < 4096) as Hpo by (apply Z.mod_pos_bound; lia).
  rewrite (u32_small (po + p_memsz ph + 4096 - 1)) by (unfold PHYS_BASE in *; lia).
  set (total := (po + p_memsz ph + 4096 - 1) / 4096 * 4096).
  assert (po + p_memsz ph ≤ total < po + p_memsz ph + 4096 ∧ total mod 4096 = 0) as [Htot Htm] by (unfold total; div_lia).
  set (rb := if 0 <? p_filesz ph then u32 (po + p_filesz ph) else 0).
  assert (0 ≤ rb ≤ total ∧ (0 < p_filesz ph → rb = po + p_filesz ph) ∧ (p_filesz ph = 0 → rb = 0)) as (Hrb & Hrb1 & Hrb2).
  { unfold rb. destruct (Z.ltb_spec 0 (p_filesz ph)); [|lia]. unfold PHYS_BASE in *. rewrite u32_small; lia. }
  rewrite (u32_small (total - rb)) by (unfold PHYS_BASE in *; lia).
  assert (s32 (p_offset ph - p_offset ph mod 4096) = p_offset ph - po) as ->.
  { rewrite Heq. unfold s32. apply sgn_small; [lia|]. fold po. div_lia. }
  assert (0 ≤ p_offset ph - po ∧ (p_offset ph - po) mod 4096 = 0 ∧ (p_vaddr ph - po) mod 4096 = 0) as (Hof & Hom & Hvm)
    by (unfold po in *; div_lia).
  assert (rb + (total - rb) = total) as Hsum by lia.
  eapply wp_mono; [apply (load_segment_ok p S pd f m h c pos (writable ph)); rewrite ?Hsum; try done; try lia|].
  { unfold PHYS_BASE in *. unfold total, po in *. div_lia. }
  rewrite Hsum. intros ok p' (f' & Hld & Hq & Him). exists f'. split_and!; [done | done|]. intros Hok.
  pose proof (image_sub _ _ _ _ _ _ po (p_memsz ph) (Him Hok) ltac:(lia) ltac:(lia)) as Hsub.
  rewrite Z.sub_add in Hsub. eapply image_ext; [|exact Hsub]. intros j Hj. unfold segment_byte. cbv beta.
  replace (p_offset ph - po + (po + j)) with (p_offset ph + j) by lia.
  destruct (decide (p_filesz ph = 0)) as [Hz|Hz].
  - rewrite (Hrb2 Hz), Hz. destruct (Z.ltb_spec (po + j) 0), (Z.ltb_spec j 0); (done || lia).
  - rewrite Hrb1 by lia. destruct (Z.ltb_spec (po + j) (po + p_filesz ph)), (Z.ltb_spec j (p_filesz ph)); (done || lia).
Qed.

(** The headers before [i] are done. *)
Lemma loaded_later p S pd f p' f' c ph :
  has_space p S pd f → loading p S pd f p' f' → header_done f (mem (machine p)) c ph → header_done f' (mem (machine p')) c ph.
Proof.
  intros (Hv & E & _) (_ & Hl & Hk & _) (H1 & H2 & H3 & H4). split_and!; [done..|]. intros Hld. destruct (H4 Hld) as [Hval Him].
  split; [done|]. destruct Hval as (_ & _ & _ & _ & ? & ?). by apply (image_later (machine p) S pd f); try lia.
Qed.

(** The whole of [n] bytes has been read. *)
Lemma prefix_full (bs c : list Z) n pos :
  bs `prefix_of` take (Z.to_nat n) (drop (Z.to_nat pos) c) → 0 ≤ pos → 0 < n → Z.of_nat (length bs) = n →
  bs = take (Z.to_nat n) (drop (Z.to_nat pos) c) ∧ pos + n ≤ Z.of_nat (length c).
Proof.
  intros Hbs Hpos Hn Hl. assert (length (take (Z.to_nat n) (drop (Z.to_nat pos) c)) ≤ length bs)%nat as Hle.
  { rewrite length_take. lia. }
  pose proof (prefix_length_eq _ _ Hbs Hle) as Heq. split; [done|].
  apply (f_equal length) in Heq. rewrite length_take, length_drop in Heq. lia.
Qed.

Lemma load_header_ok p S pd f m h c pos phnum i ofs :
  has_space p S pd f → fs_file (disk p) m h c pos →
  wp (load_header h phnum (i, ofs)) (λ r p', ∃ f', loading p S pd f p' f' ∧ (∃ q, fs_file (disk p') m h c q) ∧
    match r with
    | inr b => b = true → phnum ≤ i
    | inl x => i < phnum ∧ x = (i + 1, ofs + 32) ∧ 0 ≤ ofs
        ∧ header_done f' (mem (machine p')) c (phdr_of_bytes (take 32 (drop (Z.to_nat ofs) c)))
    end) p.
Proof.
  intros Hp Hf. unfold load_header. destruct (fs_file_bytes _ _ _ _ _ Hf) as [Hc Hlen].
  destruct (Z.ltb_spec i phnum) as [Hi|Hi].
  2: { apply wp_ret. exists f. split_and!; [by apply loading_refl | by exists pos | done]. }
  apply wp_bind, wp_zoom. eapply wp_mono; [by apply (file_length_ok _ m h c pos)|]. intros len d [Hf1 ->].
  assert (∀ d', loading p S pd f (set_disk d' p) f) as Hsame by (intros d'; by apply loading_disk, loading_refl).
  assert (∀ d' q, fs_file d' m h c q → wp (mret (inr false)) (λ (r : Z * Z + bool) p', ∃ f', loading p S pd f p' f' ∧ (∃ q, fs_file (disk p') m h c q) ∧
    match r with
    | inr b => b = true → phnum ≤ i
    | inl x => i < phnum ∧ x = (i + 1, ofs + 32) ∧ 0 ≤ ofs
        ∧ header_done f' (mem (machine p')) c (phdr_of_bytes (take 32 (drop (Z.to_nat ofs) c)))
    end) (set_disk d' p)) as Hout.
  { intros d' q Hq. apply wp_ret. exists f. split_and!; [done | by exists q | done]. }
  destruct (Z.ltb_spec ofs 0) as [?|Ho0]; [by eapply Hout|]. destruct (Z.ltb_spec (Z.of_nat (length c)) ofs) as [?|Ho1]; [by eapply Hout|].
  cbn [orb]. apply wp_bind, wp_zoom. eapply wp_mono; [apply (file_seek_ok _ m h c pos ofs); [done | lia]|]. intros [] d1 Hf2.
  apply wp_bind, wp_zoom. eapply wp_mono; [by apply (file_read_ok _ m h c ofs sizeof_phdr)|]. intros bs d2 [Hf3 Hbs].
  destruct (Z.eqb_spec (Z.of_nat (length bs)) sizeof_phdr) as [Hl|Hl]; cbn [negb]; [|by eapply Hout].
  destruct (prefix_full _ _ _ _ Hbs Ho0 eq_refl Hl) as [Hbs' Hend].
  change (Z.to_nat sizeof_phdr) with 32%nat in Hbs'. unfold sizeof_phdr in Hend. rewrite <- Hbs' in Hout |- *.
  assert (phdr_ok (phdr_of_bytes bs)) as Hok by (by apply phdr_of_bytes_ok, (read_range bs c sizeof_phdr ofs)).
  assert (s32 (ofs + 32) = ofs + 32) as Hs by (apply sgn_small; lia). set (ph := phdr_of_bytes bs) in *.
  destruct (Z.eqb_spec (p_type ph) PT_DYNAMIC); [by eapply Hout|]. destruct (Z.eqb_spec (p_type ph) PT_INTERP); [by eapply Hout|].
  destruct (Z.eqb_spec (p_type ph) PT_SHLIB); [by eapply Hout|]. cbn [orb]. change sizeof_phdr with 32. rewrite Hs.
  destruct (Z.eqb_spec (p_type ph) PT_LOAD) as [Hld|Hnl].
  2: { apply wp_ret. exists f. split; [exact (Hsame d2)|]. split; [by eexists|]. by split_and!. }
  apply wp_bind. eapply wp_mono; [by apply (validate_segment_ok _ m h c (ofs + Z.of_nat (length bs)))|].
  intros b p1 (d3 & -> & Hf4 & ->). case_bool_decide as Hval; cbn [negb]; [|by eapply Hout].
  apply wp_bind. eapply wp_mono; [by apply (load_phdr_ok (set_disk d3 p) S pd f m h c (ofs + Z.of_nat (length bs)) ph)|].
  intros ok p' (f' & Hldg & Hq & Him). destruct ok; cbn [negb]; apply wp_ret; exists f'; (split; [exact Hldg|]); (split; [done|]); [|done].
  do 3 (split; [done|]). split_and!; try done. intros _. split; [done | by apply Him].
Qed.

Lemma load_headers_ok p S pd f m h c pos phnum off :
  has_space p S pd f → fs_file (disk p) m h c pos → 0 ≤ phnum →
  wp (loop (Z.to_nat (phnum + 1)) (load_header h phnum) (0, off)) (λ ok p', ∃ f', loading p S pd f p' f'
    ∧ (∃ q, fs_file (disk p') m h c q)
    ∧ (ok = true → ∀ k, 0 ≤ k < phnum → header_done f' (mem (machine p')) c (phdr_at c off k))) p.
Proof.
  intros Hp Hf Hn.
  apply (wp_loop (λ '(i, ofs) p', ∃ f', loading p S pd f p' f' ∧ (∃ q, fs_file (disk p') m h c q)
    ∧ 0 ≤ i ≤ phnum ∧ ofs = off + 32 * i ∧ ∀ k, 0 ≤ k < i → header_done f' (mem (machine p')) c (phdr_at c off k))
    (λ '(i, _) _, Z.to_nat (phnum - i))).
  - intros [i ofs] p1 (f1 & Hld & [q Hq] & Hi & -> & Hdone). pose proof (loading_space _ _ _ _ _ _ Hp Hld) as Hp1.
    eapply wp_mono; [by apply (load_header_ok p1 (<[pd := f1]> S) pd f1 m h c q)|].
    intros r p' (f' & Hld' & Hq' & Hr). pose proof (loading_trans _ _ _ _ _ _ _ _ Hp Hld Hld') as Hld2.
    assert (∀ k, 0 ≤ k < i → header_done f' (mem (machine p')) c (phdr_at c off k)) as Hdone'.
    { intros k Hk. apply (loaded_later p1 (<[pd := f1]> S) pd f1); auto. }
    destruct r as [x|b].
    + destruct Hr as (Hlt & -> & _ & Hhd). split; [|lia]. exists f'. split_and!; try done; try lia.
      intros k Hk. destruct (decide (k = i)) as [->|]; [done | apply Hdone'; lia].
    + exists f'. split_and!; [done | done|]. intros Hb k Hk. apply Hdone'. specialize (Hr Hb). lia.
  - exists f. split_and!; [by apply loading_refl | by exists pos | lia | lia | lia | intros; lia].
  - lia.
Qed.
End load.

(** ** The stack, as the process sees it *)

Definition user_byte (m : Z → Z) (pd va : Z) : option Z :=
  match translate m pd va with
  | Some (a, _, true) => Some (m a)
  | _ => None
  end.
Definition user_word (m : Z → Z) (pd va : Z) : option Z :=
  a ← user_byte m pd va; b ← user_byte m pd (va + 1); c ← user_byte m pd (va + 2); d ← user_byte m pd (va + 3);
  Some (a + 2^8 * b + 2^16 * c + 2^24 * d).

(** The stack for the command line [g 0], ..., [g len]: the return address,
    [argc] and [argv] of the function that the program starts with, the array
    [argv] and the strings. *)
Definition stack_image (m : Z → Z) (pd : Z) (g : Z → Z) (len esp : Z) : Prop :=
  let argc := Z.of_nat (length (arg_starts g len)) in
  let argv := esp + 12 in
  esp = PHYS_BASE - 4096 + esp_ofs g len
  ∧ user_word m pd esp = Some 0 ∧ user_word m pd (esp + 4) = Some argc ∧ user_word m pd (esp + 8) = Some argv
  ∧ (∀ k s, arg_starts g len !! k = Some s → user_word m pd (argv + 4 * Z.of_nat k) = Some (PHYS_BASE - (len + 1) + s))
  ∧ user_word m pd (argv + 4 * argc) = Some 0
  ∧ ∀ i, 0 ≤ i ≤ len → user_byte m pd (PHYS_BASE - (len + 1) + i) = Some (g i).

Lemma filter_same (b b' : Z → bool) (l : list Z) :
  (∀ x, x ∈ l → b x = b' x) → filter (λ s, b s = true) l = filter (λ s, b' s = true) l.
Proof.
  induction l as [|x l IH]; intros Hb; [done|]. rewrite !filter_cons, (Hb x) by by left.
  rewrite IH by (intros y Hy; apply Hb; by right). done.
Qed.
Lemma starts_ext g g' len x :
  1 ≤ x → (∀ i, 0 ≤ i ≤ len → g i = g' i) → starts_from g len x = starts_from g' len x.
Proof.
  intros Hx Hg. unfold starts_from. apply filter_same. intros s Hs%elem_of_seqZ. unfold arg_start.
  rewrite !Hg by lia. done.
Qed.
Lemma arg_starts_ext g g' len : (∀ i, 0 ≤ i ≤ len → g i = g' i) → arg_starts g len = arg_starts g' len.
Proof. intros Hg. unfold arg_starts. f_equal. by apply starts_ext. Qed.

Section stack.
Context {St : Type} `{PagePools St}.
Implicit Types (v : vm St) (S : gmap Z (Z → Z)) (f : Z → Z).

Lemma image_user_byte v S pd f u n w g j :
  vm_ok v S → S !! pd = Some f → 0 ≤ u → u + n ≤ PHYS_BASE → image f (mem v) u n w g → 0 ≤ j < n →
  user_byte (mem v) pd (u + j) = Some (g j).
Proof.
  intros Hv E Hu Hn Hi Hj. destruct (Hi j Hj) as (a & Ha & Hg). unfold user_byte.
  rewrite (translate_space v S pd f) by (done || lia). by rewrite Ha, Hg.
Qed.

Lemma stack_user_byte v S f kpage m o :
  vm_ok v S → S !! active v = Some f → f 786431 = user_pte kpage true → plain v S kpage → good v kpage m → 0 ≤ o < 4096 →
  user_byte m (active v) (PHYS_BASE - 4096 + o) = Some (m (kpage + o)).
Proof.
  intros Hv E Hpage Hk Hm Ho. unfold user_byte.
  by rewrite (stack_translate v S f kpage Hv E Hpage Hk m o Hm Ho).
Qed.
Lemma stack_user_word v S f kpage m o va :
  vm_ok v S → S !! active v = Some f → f 786431 = user_pte kpage true → plain v S kpage → good v kpage m →
  0 ≤ o → o + 4 ≤ 4096 → va = PHYS_BASE - 4096 + o → user_word m (active v) va = Some (load32 m (kpage + o)).
Proof.
  intros Hv E Hpage Hk Hm Ho1 Ho2 ->. unfold user_word.
  assert (∀ d, 0 ≤ d < 4 → user_byte m (active v) (PHYS_BASE - 4096 + o + d) = Some (m (kpage + o + d))) as Hb.
  { intros d Hd. rewrite <- !Z.add_assoc. apply (stack_user_byte v S f); (done || lia). }
  pose proof (Hb 0 ltac:(lia)) as H0. rewrite !Z.add_0_r in H0. rewrite H0, !Hb by lia. done.
Qed.

Lemma layout_image v S f kpage params len m :
  vm_ok v S → S !! active v = Some f → f 786431 = user_pte kpage true → plain v S kpage → 0 ≤ len ≤ 4091 →
  layout v kpage params len m →
  stack_image m (active v) (cs v params) len (PHYS_BASE - 4096 + esp_ofs (cs v params) len).
Proof.
  intros Hv E Hpage Hk Hlen (Ho & (Hm & Hw & H0 & _ & _ & Hargs0 & Hargs) & Hargv & Hargc & Hret).
  set (g := cs v params) in *. assert (argv_ofs g len = esp_ofs g len + 12) as Hav by (unfold esp_ofs; lia).
  assert (argv_ofs g len = argv_end len - 4 * Z.of_nat (length (arg_starts g len))) as Hav2 by done.
  assert (argv_end len ≤ 4096 - (len + 1) - 4) as Hend by (unfold argv_end, arg_pad; div_lia).
  assert (∀ o va, 0 ≤ o → o + 4 ≤ 4096 → va = PHYS_BASE - 4096 + o → user_word m (active v) va = Some (load32 m (kpage + o))) as Hword.
  { intros o va Ho1 Ho2 Hva. by apply (stack_user_word v S f). }
  split_and!; [done | | | | | |].
  - by rewrite (Hword (esp_ofs g len)), Hret by lia.
  - by rewrite (Hword (esp_ofs g len + 4)), Hargc by lia.
  - rewrite (Hword (esp_ofs g len + 8)), Hargv by lia. f_equal. lia.
  - intros k s Hks. assert (k < length (arg_starts g len))%nat by by eapply lookup_lt_Some.
    rewrite (Hword (argv_end len - 4 * Z.of_nat (length (arg_starts g len)) + 4 * Z.of_nat k)) by lia.
    by rewrite (Hargs k s Hks).
  - by rewrite (Hword (argv_end len)), H0 by lia.
  - intros i Hi. replace (PHYS_BASE - (len + 1) + i) with (PHYS_BASE - 4096 + (4096 - (len + 1) + i)) by lia.
    rewrite (stack_user_byte v S f kpage) by (done || lia). by rewrite Hw.
Qed.
End stack.

(** ** Loading a program *)

Section program.
Context {St : Type} `{PagePools St} {F : Type} `{FileSystem F}.
Implicit Types (p : process St F) (v : vm St) (S : gmap Z (Z → Z)) (f : Z → Z).

(** The parameters at [params], a page of the kernel: the command line [g]
    with [len] characters before the null character at its end. *)
Definition params_at v S (params len : Z) (g : Z → Z) : Prop :=
  plain v S params ∧ params_len v params = len ∧ 0 ≤ len ≤ 4091 ∧ g len = 0
  ∧ ∀ i, 0 ≤ i ≤ len → mem v (cmdline params + i) = g i.

Lemma params_insert v S pd f f' params len g :
  S !! pd = Some f → params_at v S params len g → params_at v (<[pd := f']> S) params len g.
Proof.
  intros E ([Hu Hno] & Hrest). split; [|done]. split; [done|]. intros pd' f1 E' Hq.
  destruct (decide (pd' = pd)) as [->|Hne]; [by apply (Hno pd f)|]. rewrite lookup_insert_ne in E' by done. by apply (Hno pd' f1).
Qed.

Lemma plain_later S pd v v' q : later S pd v v' → plain v S q → plain v' S q.
Proof.
  intros [(_ & _ & Hu & _) Hg] [Hq Hno]. split; [by apply Hu|]. intros pd' f' E' Hq'.
  destruct (Hg pd' f' q E' Hq') as [?|?]; [by apply (Hno pd' f') | done].
Qed.

Lemma params_later v S pd f v' params len g :
  vm_ok v S → S !! pd = Some f → later S pd v v' → params_at v S params len g → params_at v' S params len g.
Proof.
  intros Hv E [Hx Hg] (Hu & Hl & Hlen & Hg0 & Hc). pose proof Hx as (_ & _ & _ & Hm).
  assert (same_on params (mem v) (mem v')) as Hs.
  { destruct Hu as [Hu Hno]. apply Hm; [done | by apply (Hno pd f)]. }
  split_and!; [by apply (plain_later S pd v) | | lia | lia | done|].
  - rewrite <- Hl. unfold params_len. f_equal. apply load32_ext. intros k Hk. apply Hs. lia.
  - intros i Hi. rewrite <- Hc by done. unfold cmdline. rewrite <- !Z.add_assoc. apply Hs. lia.
Qed.

Lemma mapped_plain v S pd f n kpage w :
  vm_ok v S → S !! pd = Some f → 0 ≤ n < USER_PAGES → f n = user_pte kpage w → ram_page kpage → plain v S kpage.
Proof.
  intros (_ & [Hd _] & _) E Hn Hf Hr. destruct (user_pte_bits kpage w Hr) as (Hp & Hfr & _).
  destruct (Hd pd f n E Hn) as (_ & Hu & Hno); [by rewrite Hf|]. rewrite Hf, Hfr in Hu, Hno. by split.
Qed.

Lemma wpf_wp {T A} (m : M T A) (Q : A → T → Prop) s : wpf False m Q s → wp m Q s.
Proof. unfold wpf, wp. destruct (m s) as [[a s']|]; [done | by intros [? _]]. Qed.

(** The page of the stack does not hold the parameters. *)
Lemma params_far v S params k i :
  vm_ok v S → plain v S params → ram_page k → params ≠ k → 0 ≤ i < 4096 → ¬ (k ≤ params + i < k + 4096).
Proof.
  intros Hv [Hu _] (_ & Hk & _) Hne Hi. destruct (used_ram_page v S params Hv Hu) as (_ & ? & _).
  apply (page_apart params k); (done || lia).
Qed.

Lemma setup_stack_ok p S pd f params len g :
  has_space p S pd f → active (machine p) = pd → params_at (machine p) S params len g → 0 ≤ esp_ofs g len →
  wp (setup_stack params) (λ o p', ∃ f', loading p S pd f p' f' ∧ disk p' = disk p
    ∧ match o with None => True | Some esp => stack_image (mem (machine p')) pd g len esp end) p.
Proof.
  intros Hp Hact Hpar Hfit. pose proof Hp as (Hv & E & Hpd & Hni). unfold setup_stack.
  apply wp_bind, wp_zoom. eapply wp_mono; [by apply (alloc_ok (machine p) S pd)|]. intros k v1 (Hv1 & Hl1 & Hac & Hk). specialize (Hac (ex_intro _ f E)).
  destruct (Z.eqb_spec k NULL) as [->|Hkn].
  { apply wp_ret. exists f. split_and!; [|done|done]. apply loading_machine; try done; [by rewrite insert_id | by apply (owned_null pd _ v1 f S)]. }
  destruct (Hk Hkn) as (Hkm & Hku & _). clear Hk. pose proof (used_ram_page v1 S k Hv1 (proj1 Hkm)) as Hkr.
  assert (has_space (set_machine v1 p) S pd f) as Hp1.
  { destruct Hl1 as [(Hi & _) _]. split_and!; [done | done | done | simpl; by rewrite Hi]. }
  change (PHYS_BASE - PGSIZE) with (PHYS_BASE - 4096).
  apply wp_bind. eapply wp_mono; [by apply (install_page_ok (set_machine v1 p) S pd f)|].
  intros ok p2 (v2 & -> & Hl2 & Hac2 & Hok). pose proof (acct_trans _ _ _ _ _ Hac Hac2) as Hac3.
  pose proof (later_trans S pd f _ _ _ E Hl1 Hl2) as Hl. destruct ok.
  2: { destruct Hok as [Hv2 Hk2]. eapply wp_mono; [by apply (page_returned p S pd f _ k None)|].
       intros o p' (-> & Hld & Hd). exists f. by split_and!. }
  destruct Hok as [Hnp Hv2]. change ((PHYS_BASE - 4096) / 4096) with 786431 in *.
  set (f1 := upd f 786431 (user_pte k true)) in *. set (S1 := <[pd := f1]> S) in *.
  assert (S1 !! pd = Some f1) as E1 by apply lookup_insert_eq.
  assert (active v2 = pd) as Ha2 by (rewrite <- Hact; unfold active; by destruct Hl as [(_ & -> & _) _]).
  assert (plain v2 S1 k) as Hk2 by (by apply (mapped_plain v2 S1 pd f1 786431 k true)).
  pose proof (params_later _ S pd f v2 params len g Hv E Hl Hpar) as (Hu2 & Hpl & Hlen & Hg0 & Hcs).
  assert (∀ i, 0 ≤ i ≤ len → g i = cs v2 params i) as Hg by (intros i Hi; symmetry; by apply Hcs).
  assert (arg_starts g len = arg_starts (cs v2 params) len) as Hst by by apply arg_starts_ext.
  assert (esp_ofs g len = esp_ofs (cs v2 params) len) as Hesp by (unfold esp_ofs, argv_ofs; by rewrite Hst).
  assert (S1 !! active v2 = Some f1) as E2 by by rewrite Ha2.
  assert (params ≠ k) as Hpk by (intros ->; apply Hku, Hpar).
  apply wp_bind, wp_zoom. eapply wp_mono; [apply wpf_wp, (push_arguments_ok v2 S1 f1 k Hv2 E2 eq_refl Hk2 False ltac:(done) params len Hlen Hpl)|].
  { intros i Hi. apply (params_far (machine p) S); (done || apply Hpar || lia). }
  { by rewrite <- Hg by lia. }
  { rewrite <- Hesp. lia. }
  intros esp v3 (m3 & -> & Hlay & ->). apply wp_ret. exists f1.
  pose proof Hlay as (_ & (Hgood & _) & _). split_and!; [|done|].
  - apply loading_machine; [done | by apply (good_ok v2 S1 k) | | |].
    + apply (later_insert S pd f f1); [done|]. apply (later_write S S1 pd (machine p) v2 k); try done; [|apply Hgood].
      by apply (later_insert S pd f f1).
    + intros n Hn. unfold f1, upd. by destruct (Z.eqb_spec n 786431) as [->|].
    + apply (owned_page pd _ _ f k (PHYS_BASE - 4096) true); [|done | done | done].
      apply (acct_write k S1 pd f1 (machine p) v2 k); try done. apply Hgood.
  - pose proof (layout_image v2 S1 f1 k params len m3 Hv2 E2 eq_refl Hk2 Hlen Hlay) as Him. rewrite Ha2 in Him.
    unfold stack_image in *. rewrite Hst, Hesp. destruct Him as (? & ? & ? & ? & ? & ? & Hb). split_and!; try done.
    intros i Hi. rewrite Hg by done. by apply Hb.
Qed.

(** What [load] has made of the file [c] and the command line [g]. *)
Definition program_loaded (m : Z → Z) f (pd : Z) (c : list Z) (g : Z → Z) (len eip esp : Z) : Prop :=
  let e := ehdr_of_bytes (take 52 c) in
  52 ≤ Z.of_nat (length c) ∧ good_ehdr e = true ∧ eip = e_entry e
  ∧ (∀ k, 0 ≤ k < e_phnum e → header_done f m c (phdr_at c (s32 (e_phoff e)) k))
  ∧ stack_image m pd g len esp.

Lemma load_file_ok p S pd f m h c params len g :
  has_space p S pd f → active (machine p) = pd → fs_file (disk p) m h c 0 → params_at (machine p) S params len g →
  0 ≤ esp_ofs g len →
  wp (load_file params h) (λ o p', ∃ f', loading p S pd f p' f' ∧ (∃ q, fs_file (disk p') m h c q)
    ∧ match o with
      | None => True
      | Some (eip, esp) => program_loaded (mem (machine p')) f' pd c g len eip esp
      end) p.
Proof.
  intros Hp Hact Hf Hpar Hfit. pose proof Hp as (Hv & E & _). unfold load_file.
  destruct (fs_file_bytes _ _ _ _ _ Hf) as [Hc Hlen].
  apply wp_bind, wp_zoom. eapply wp_mono; [by apply (file_read_ok _ m h c 0 sizeof_ehdr)|]. intros bs d [Hf1 Hbs].
  pose proof (loading_disk _ _ _ _ _ _ d (loading_refl p S pd f Hp)) as Hld0.
  destruct (Z.eqb_spec (Z.of_nat (length bs)) sizeof_ehdr) as [Hl|Hl]; cbn [negb orb].
  2: { apply wp_ret. exists f. split; [exact Hld0|]. split; [by eexists | done]. }
  destruct (prefix_full _ _ _ _ Hbs (Z.le_refl 0) eq_refl Hl) as [Hbs' Hend].
  change (Z.to_nat sizeof_ehdr) with 52%nat in Hbs'. rewrite drop_0 in Hbs'. subst bs. set (e := ehdr_of_bytes (take 52 c)).
  destruct (good_ehdr e) eqn:Hgood; cbn [negb].
  2: { apply wp_ret. exists f. split; [exact Hld0|]. split; [by eexists | done]. }
  assert (0 ≤ e_phnum e) as Hn by (apply half_range; by apply Forall_take).
  apply wp_bind. eapply wp_mono; [by eapply (load_headers_ok (set_disk d p) S pd f m h c)|].
  intros ok p1 (f1 & Hld1 & Hq & Hdone). destruct ok; cbn [negb].
  2: { apply wp_ret. exists f1. split_and!; [exact Hld1 | exact Hq | done]. }
  pose proof (loading_space (set_disk d p) _ _ _ _ _ Hp Hld1) as Hp1. pose proof Hld1 as (_ & Hl1 & _).
  assert (active (machine p1) = pd) as Ha1 by (rewrite <- Hact; unfold active; by destruct Hl1 as [(_ & -> & _) _]).
  pose proof (params_insert _ _ _ _ f1 _ _ _ E (params_later _ _ _ _ _ _ _ _ Hv E Hl1 Hpar)) as Hpar1.
  apply wp_bind. eapply wp_mono; [by apply (setup_stack_ok p1 (<[pd := f1]> S) pd f1 params len g)|].
  intros o p2 (f2 & Hld2 & Hd2 & Ho). apply wp_ret. exists f2. split_and!.
  - exact (loading_trans (set_disk d p) S pd f p1 f1 p2 f2 Hp Hld1 Hld2).
  - by rewrite Hd2.
  - destruct o as [esp|]; [|done]. simpl. unfold program_loaded. change sizeof_ehdr with 52 in Hend. fold e. split_and!; [lia | done | done| |done].
    intros k Hk. apply (loaded_later p1 (<[pd := f1]> S) pd f1); [done | done|]. by apply Hdone.
Qed.

Lemma string_at_ext n m g a b :
  (∀ i, 0 ≤ i < Z.of_nat n → m (a + i) = g (b + i)) → string_at n m a = string_at n g b.
Proof.
  revert a b. induction n as [|n IH]; intros a b Hm; [done|]. cbn [string_at].
  pose proof (Hm 0 ltac:(lia)) as H0'. rewrite !Z.add_0_r in H0'. rewrite H0'. destruct (g b =? 0); [done|]. f_equal.
  apply IH. intros i Hi. rewrite <- !Z.add_assoc. apply Hm. lia.
Qed.
Lemma string_at_more n k m a s : string_at n m a = Some s → (n ≤ k)%nat → string_at k m a = Some s.
Proof.
  revert k a s. induction n as [|n IH]; intros k a s Hs Hk; [done|]. destruct k as [|k]; [lia|]. cbn [string_at] in *.
  destruct (m a =? 0); [done|]. destruct (string_at n m (a + 1)) as [t|] eqn:Ht; [|done].
  by rewrite (IH k (a + 1) t Ht ltac:(lia)).
Qed.
Lemma string_at_some n m a : m (a + Z.of_nat n) = 0 → is_Some (string_at (Datatypes.S n) m a).
Proof.
  revert a. induction n as [|n IH]; intros a Hm.
  - rewrite Z.add_0_r in Hm. cbn. by rewrite Hm.
  - destruct (IH (a + 1)) as [t Ht]; [rewrite <- Hm; f_equal; lia|].
    change (is_Some (if m a =? 0 then Some [] else cons (m a) <$> string_at (Datatypes.S n) m (a + 1))). rewrite Ht.
    by destruct (m a =? 0).
Qed.

Lemma file_name_ok v S params len g :
  params_at v S params len g →
  ∃ name, string_at (Z.to_nat (len + 1)) g 0 = Some name ∧ string_at (Z.to_nat PGSIZE) (mem v) (cmdline params) = Some name.
Proof.
  intros (_ & _ & Hlen & Hg0 & Hg). destruct (string_at_some (Z.to_nat len) g 0) as [name Hn].
  { by rewrite Z2Nat.id by lia. }
  replace (Datatypes.S (Z.to_nat len)) with (Z.to_nat (len + 1)) in Hn by lia. exists name. split; [done|].
  apply (string_at_more (Z.to_nat (len + 1))); [|rewrite PGSIZE_eq; lia]. rewrite <- Hn. apply string_at_ext.
  intros i Hi. apply Hg. lia.
Qed.

Lemma activate_run pd v u v' : pagedir_activate pd v = Ok (u, v') → init_page_dir v' = init_page_dir v.
Proof.
  unfold pagedir_activate, vtop, gets, ASSERT, mbind, M_bind. destruct (is_kernel_vaddr _); [|done]. by intros [= _ <-].
Qed.

(** [v'] comes after [v], with the address spaces [S']; the pages that were in
    use are as they were. *)
Definition after v v' S' : Prop :=
  vm_ok v' S' ∧ init_page_dir v' = init_page_dir v
  ∧ (∀ q, pp_used (pages v) q → pp_used (pages v') q) ∧ ∀ q, pp_used (pages v) q → same_on q (mem v) (mem v').

(** A new directory has no tables of its own. *)
Lemma create_footprint v S :
  vm_ok v S → wp pagedir_create (λ pd v', (∀ q, pd ≠ NULL → footprint (mem v') pd q → q = pd)
    ∧ ∀ q, pp_used (pages v') q → pp_used (pages v) q ∨ (pd ≠ NULL ∧ q = pd)) v.
Proof.
  intros (Ht & _). pose proof Ht as (_ & _ & _ & _ & [_ Hi0] & _).
  unfold pagedir_create. apply wp_bind, get_page_ok; [by destruct Ht | done |..].
  { intros s Hs Hu. apply wp_bind, wp_ret, wp_ret. split; [done|]. intros q Hq. left. by apply Hu. }
  intros pd s Hs Hnu Hu. change (Palloc.has 0 Palloc.PAL_ZERO) with false. cbv iota.
  destruct (used_ram s pd Hs) as (? & _); [apply Hu; by right|].
  destruct (Z.eqb_spec pd NULL) as [->|]; [unfold NULL, PHYS_BASE in *; lia|].
  apply wp_bind, wp_modify, wp_ret. simpl. rewrite PGSIZE_eq. split; [|intros q [?| ->]%Hu; [by left | by right]].
  intros q _ [?|(i & Hi & Hne & _)]; [done|].
  destruct Hne. rewrite new_dir_pde by (unfold USER_PDES in *; lia). by apply Hi0.
Qed.
Lemma new_space_ok v S :
  vm_ok v S →
  wp pagedir_create (λ pd v', (pd = NULL ∧ after v v' S ∧ ∀ q, pp_used (pages v') q → pp_used (pages v) q)
    ∨ (pd ≠ NULL ∧ ¬ pp_used (pages v) pd ∧ S !! pd = None ∧ pd ≠ init_page_dir v ∧ after v v' (<[pd := λ _, 0]> S)
       ∧ (∀ q, plain v S q → plain v' (<[pd := λ _, 0]> S) q)
       ∧ (∀ q, pp_used (pages v') q → pp_used (pages v) q ∨ q = pd)
       ∧ ∀ q, footprint (mem v') pd q → q = pd)) v.
Proof.
  intros Hv. eapply wp_mono; [exact (wp_conj _ _ _ _ (pagedir_create_ok v S Hv) (create_footprint v S Hv))|].
  intros pd v' [(Hi & _ & Hu & Hr) [Hnew Hback]].
  assert (∀ pd f, S !! pd = Some f → pp_used (pages v) pd) as Hdir.
  { intros pd' f E. apply (used_footprint v S pd' f); [done | done | by left]. }
  destruct Hr as [[-> Hv']|(Hr & Hnu & Hv')]; [left | right].
  - split; [done|]. split; [split_and!; try done; intros q Hq; by apply Hu|].
    intros q Hq. by destruct (Hback q Hq) as [?|[? _]].
  - assert (S !! pd = None) as Hnone by (destruct (S !! pd) eqn:E; [|done]; by destruct Hnu; eapply Hdir).
    split_and!; try done.
    + destruct Hr as (? & _). unfold NULL, PHYS_BASE in *. lia.
    + intros ->. pose proof Hv as ((_ & _ & _ & _ & [[fi Ei] _] & _) & _). by apply Hnu, (Hdir _ fi).
    + split_and!; try done; intros q Hq; by apply Hu.
    + intros q [Hq Hno]. split; [by apply Hu|]. intros pd' f' E' Hf. destruct (decide (pd' = pd)) as [->|Hne].
      * destruct Hr as (? & _). apply Hnew in Hf; [by subst q | unfold NULL, PHYS_BASE in *; lia].
      * rewrite lookup_insert_ne in E' by done. apply (Hno pd' f' E').
        apply (footprint_same (mem v) (mem v')); [|done]. apply Hu. by apply (Hdir pd' f').
    + intros q Hq. destruct (Hback q Hq) as [?|[_ ->]]; [by left | by right].
    + intros q. apply Hnew. destruct Hr as (? & _). unfold NULL, PHYS_BASE in *. lia.
Qed.

(** What is left of [p] when [load] returns the result [o]. *)
Definition load_post p S (m : gmap (list Z) (list Z)) (len : Z) (g : Z → Z) (o : option (Z * Z)) p' : Prop :=
  fs_holds (disk p') m ∧ cur p' = cur p ∧ next_fd p' = next_fd p ∧ fd_table p' = fd_table p ∧ load_sema p' = load_sema p
  ∧ ((o = None ∧ pagedir p' = NULL ∧ after (machine p) (machine p') S
      ∧ ∀ q, pp_used (pages (machine p')) q → pp_used (pages (machine p)) q)
     ∨ ∃ pd f, S !! pd = None ∧ pagedir p' = pd ∧ active (machine p') = pd ∧ pd ≠ init_page_dir (machine p')
       ∧ esp0 p' = cur p + 4096 ∧ after (machine p) (machine p') (<[pd := f]> S)
       ∧ (∀ q, pp_used (pages (machine p')) q → pp_used (pages (machine p)) q ∨ belongs (machine p') pd f q)
       ∧ (∀ q, pp_used (pages (machine p)) q → ¬ belongs (machine p') pd f q)
       ∧ match o with
         | None => True
         | Some (eip, esp) => ∃ name c, string_at (Z.to_nat (len + 1)) g 0 = Some name ∧ m !! name = Some c
             ∧ program_loaded (mem (machine p')) f pd c g len eip esp
         end).

Lemma process_activate_ok p S pd f :
  vm_ok (machine p) S → S !! pd = Some f → pagedir p = pd → pd ≠ NULL →
  wp process_activate (λ _ p', ∃ v', p' = set_esp0 (cur p + 4096) (set_machine v' p) ∧ vm_ok v' S ∧ mem v' = mem (machine p)
    ∧ pages v' = pages (machine p) ∧ init_page_dir v' = init_page_dir (machine p) ∧ active v' = pd) p.
Proof.
  intros Hv E Hpd Hne. unfold process_activate. apply wp_bind, wp_gets. rewrite Hpd. apply wp_bind, wp_zoom.
  pose proof (pagedir_activate_ok (machine p) S pd Hv (or_intror (ex_intro _ f E))) as Hw.
  apply wp_Ok in Hw as (u & v' & Hrun & Hv' & _ & Hm & Hpg & Ha).
  eapply wp_eq; [exact Hrun|]. pose proof (activate_run _ _ _ _ Hrun) as Hi. rewrite (proj2 (Z.eqb_neq pd NULL)) in Ha by done.
  unfold tss_update. apply wp_bind, wp_gets, wp_modify. rewrite PGSIZE_eq. exists v'. by split_and!.
Qed.

Lemma plain_same v v' S q : mem v' = mem v → pages v' = pages v → plain v S q → plain v' S q.
Proof. unfold plain. by intros -> ->. Qed.

Lemma params_after v S v' S' params len g :
  after v v' S' → plain v' S' params → params_at v S params len g → params_at v' S' params len g.
Proof.
  intros (_ & _ & _ & Hs) Hpl ([Hq _] & Hl & Hlen & Hg0 & Hc). pose proof (Hs params Hq) as Hsame. split_and!; try done; try lia.
  - rewrite <- Hl. unfold params_len. f_equal. apply load32_ext. intros k Hk. apply Hsame. lia.
  - intros i Hi. rewrite <- Hc by done. unfold cmdline. rewrite <- !Z.add_assoc. apply Hsame. lia.
Qed.

Lemma after_loading v S v2 pd f p p' f' :
  after v v2 (<[pd := f]> S) → (∀ q, pp_used (pages v) q → ¬ footprint (mem v2) pd q) → v2 = machine p →
  loading p (<[pd := f]> S) pd f p' f' → after v (machine p') (<[pd := f']> S).
Proof.
  intros (_ & Hi & Hu & Hs) Hno -> (Hv' & [(Hi' & _ & Hu' & Hm') _] & _). rewrite insert_insert_eq in Hv'.
  split_and!; [done | congruence | auto|]. intros q Hq. apply (same_on_trans q _ (mem (machine p))); [by apply Hs|].
  apply Hm'; auto.
Qed.

Lemma load_ok p S m params len g :
  vm_ok (machine p) S → fs_holds (disk p) m → params_at (machine p) S params len g → 0 ≤ esp_ofs g len →
  wp (load params) (load_post p S m len g) p.
Proof.
  intros Hv Hfs Hpar Hfit. unfold load. apply wp_bind, wp_zoom. eapply wp_mono; [by apply (new_space_ok (machine p) S)|].
  intros pd v1 Hr. apply wp_bind, wp_modify. destruct Hr as [(-> & Haf & Hback)|(Hpd & Hnu & Hnone & Hni & Haf & Hpl & Hback & Hnew)].
  { apply wp_bind, wp_zoom. eapply wp_eq; [apply file_close_null|]. apply wp_ret. split_and!; try done. by left. }
  rewrite (proj2 (Z.eqb_neq pd NULL)) by done. set (S1 := <[pd := λ _, 0]> S) in *.
  assert (S1 !! pd = Some (λ _, 0)) as E1 by apply lookup_insert_eq. pose proof Haf as (Hv1 & Hi1 & _).
  apply wp_bind. eapply wp_mono; [by apply (process_activate_ok (set_pagedir pd (set_machine v1 p)) S1 pd (λ _, 0))|].
  intros _ p2 (v2 & -> & Hv2 & Hm2 & Hp2 & Hi2 & Ha2). simpl in Hm2, Hp2, Hi2.
  set (p2 := set_esp0 _ _). assert (after (machine p) v2 S1) as Haf2.
  { destruct Haf as (_ & ? & ? & ?). unfold after. rewrite Hm2, Hp2. split_and!; try done. congruence. }
  assert (∀ q, plain (machine p) S q → plain v2 S1 q) as Hpl2 by (intros q Hq; apply (plain_same v1); auto).
  assert (∀ q, pp_used (pages (machine p)) q → ¬ footprint (mem v2) pd q) as Hno2.
  { rewrite Hm2. intros q Hq Hf. apply Hnu. by rewrite <- (Hnew q Hf). }
  pose proof (params_after _ S _ _ _ _ _ Haf2 (Hpl2 _ (proj1 Hpar)) Hpar) as Hpar2.
  destruct (file_name_ok _ _ _ _ _ Hpar2) as (name & Hname & Hname2).
  apply wp_bind, wp_gets, wp_bind. eapply wp_of_option; [exact Hname2|].
  assert (has_space p2 S1 pd (λ _, 0)) as Hsp by (split_and!; [done | done | done | simpl; congruence]).
  assert (∀ p' f' o, loading p2 S1 pd (λ _, 0) p' f' → fs_holds (disk p') m →
    match o with
    | None => True
    | Some (eip, esp) => ∃ name c, string_at (Z.to_nat (len + 1)) g 0 = Some name ∧ m !! name = Some c
        ∧ program_loaded (mem (machine p')) f' pd c g len eip esp
    end → load_post p S m len g o p') as Hpost.
  { intros p' f' o Hld Hh Ho. pose proof Hld as (_ & [(Hi & Hc & Hmono & _) Hgr] & _ & (H1 & H2 & H3 & H4 & H5 & H6) & (Ho1 & Ho2 & Ho3)).
    split_and!; try done. right. exists pd, f'. split_and!; try done.
    - rewrite <- Ha2. unfold active. by rewrite Hc.
    - rewrite Hi. simpl. congruence.
    - by apply (after_loading (machine p) S v2 pd (λ _, 0) p2).
    - intros q Hq. destruct (Ho2 q Hq) as [Hq2|?]; [|by right]. simpl in Hq2. rewrite Hp2 in Hq2.
      destruct (Hback q Hq2) as [?| ->]; [by left|]. right. left. apply Ho1. by left.
    - intros q Hq [Hf|(n & _ & Hp & ->)].
      + destruct (Hgr pd (λ _, 0) q E1 Hf) as [Hf2|Hf2]; [by apply (Hno2 q) | by apply Hf2, Haf2].
      + destruct (Ho3 n Hp) as [Hz|Hn]; [by rewrite Hz in Hp | by apply Hn, Haf2]. }
  apply wp_bind, wp_zoom. eapply wp_mono; [by apply (filesys_open_ok _ m)|]. intros h d [[-> Hh]|(c & Hc & Hh & Hf)].
  - simpl. apply wp_bind, wp_ret, wp_bind, wp_zoom. eapply wp_eq; [apply file_close_null|]. apply wp_ret.
    apply (Hpost _ (λ _, 0)); try done. by apply loading_disk, loading_disk, loading_refl.
  - change (h ≠ NULL) in Hh. rewrite (proj2 (Z.eqb_neq h NULL)) by done.
    apply wp_bind. eapply wp_mono; [by apply (load_file_ok (set_disk d p2) S1 pd (λ _, 0) m h c params len g)|].
    intros o p3 (f' & Hld & [q Hq] & Ho). apply wp_bind, wp_zoom. eapply wp_mono; [by apply (file_close_ok _ m h c q)|].
    intros [] d' Hd'. apply wp_ret. apply (Hpost _ f'); [exact (loading_disk _ _ _ _ _ _ d' Hld) | done|].
    destruct o as [[eip esp]|]; [|done]. by exists name, c.
Qed.
End program.
End ProcessLoad.
