(* ===== verification/ProcessProps.v ===== *)
(** * What loading and leaving a process promise

    Programs are loaded as their files say, arguments arrive, and a process
    that ends gives back all that loading has taken. *)
From stdpp Require Import base gmap list list_numbers.
From Stdlib Require Import ZArith Lia.
From S2P Require Import Prelude Vaddr Bitmap Palloc Memory Pagedir PagedirInv PagedirOps PagedirDestroy PagedirProps.
From S2P Require Import Process ProcessSegments ProcessStack ProcessLoad.

Module ProcessProps.
Import Vaddr Memory Pagedir PagedirInv PagedirOps PagedirDestroy PagedirProps Process ProcessSegments ProcessStack ProcessLoad.

Section exit.
Context {St : Type} `{PagePools St} {F : Type} `{FileSystem F}.
Implicit Types (p : process St F) (v : vm St) (S : gmap Z (Z → Z)) (f : Z → Z).

(** ** The end of a process *)

Lemma process_exit_ok p S pd f :
  has_space p S pd f →
  wp process_exit (λ _ p', ∃ v', p' = set_machine v' (set_pagedir NULL p) ∧ vm_ok v' (delete pd S)
    ∧ (∀ q, pp_used (pages v') q ↔ pp_used (pages (machine p)) q ∧ ¬ belongs (machine p) pd f q)
    ∧ ∀ q, pp_used (pages (machine p)) q → ¬ belongs (machine p) pd f q → same_on q (mem (machine p)) (mem v')) p.
Proof.
  intros (Hv & E & Hpd & Hni). unfold process_exit. apply wp_bind, wp_gets. rewrite Hpd.
  destruct (pd_page (machine p) S pd f (proj1 Hv) E) as (Hpos & _).
  rewrite (proj2 (Z.eqb_neq pd NULL)) by (unfold NULL, PHYS_BASE in *; lia).
  apply wp_bind, wp_modify, wp_bind, wp_zoom.
  destruct (proj1 (wp_Ok _ _ _) (pagedir_activate_ok (machine p) S NULL Hv (or_introl eq_refl))) as (u & v1 & Hrun & Hv1 & _ & Hm & Hpg & Ha).
  eapply wp_eq; [exact Hrun|]. pose proof (activate_run _ _ _ _ Hrun) as Hi. change (NULL =? NULL) with true in Ha. cbv iota in Ha.
  apply wp_zoom. eapply wp_mono; [apply (pagedir_destroy_ok v1 S pd f); [done | done | congruence|]|].
  { change (active v1 ≠ pd). rewrite Ha. congruence. }
  intros [] v' (Hv' & Hu & Hs). unfold belongs in *. rewrite Hpg, Hm in *. by exists v'.
Qed.

(** Loading and leaving again. *)
Lemma load_exit_ok p S m params len g :
  vm_ok (machine p) S → fs_holds (disk p) m → params_at (machine p) S params len g → 0 ≤ esp_ofs g len →
  wp (load params) (λ _ p1, wp process_exit (λ _ p', pagedir p' = NULL ∧ fs_holds (disk p') m ∧ vm_ok (machine p') S
    ∧ (∀ q, pp_used (pages (machine p')) q ↔ pp_used (pages (machine p)) q)
    ∧ ∀ q, pp_used (pages (machine p)) q → same_on q (mem (machine p)) (mem (machine p'))) p1) p.
Proof.
  intros Hv Hfs Hpar Hfit. eapply wp_mono; [by apply (load_ok p S m params len g)|].
  intros o p1 (Hd & _ & _ & _ & _ & [(_ & Hnull & (Hv1 & _ & Hu1 & Hs1) & Hback)|(pd & f & Hnone & Hpd & _ & Hni & _ & Haf & Hback & Hnew & _)]).
  - unfold process_exit. apply wp_bind, wp_gets. rewrite Hnull. apply wp_ret. split_and!; try done. intros q. split; auto.
  - destruct Haf as (Hv1 & _ & Hu1 & Hs1). eapply wp_mono.
    { apply (process_exit_ok p1 (<[pd := f]> S) pd f). split_and!; [done | apply lookup_insert_eq | done | done]. }
    intros _ p' (v' & -> & Hv' & Hu & Hs). rewrite delete_insert_id in Hv' by done. split_and!; try done; simpl.
    + intros q. rewrite Hu. split; [intros [Hq Hnb]; by destruct (Hback q Hq)|]. intros Hq. split; auto.
    + intros q Hq. apply (same_on_trans q _ (mem (machine p1))); [by apply Hs1|]. apply Hs; auto.
Qed.
End exit.

(** ** The command line *)

(** The part of the command line that is kept. *)
Definition kept (cmd : list Z) : list Z := take 3579 cmd.
Definition kept_len (cmd : list Z) : Z := Z.of_nat (length (kept cmd)).
(** The characters that the new process finds in the parameters. *)
Definition cmd_char (cmd : list Z) (i : Z) : Z := let c := byte_at (kept cmd) i in if c =? 32 then 0 else c.

Lemma kept_range cmd : 0 ≤ kept_len cmd ≤ 3579.
Proof. unfold kept_len, kept. rewrite length_take. lia. Qed.

Lemma string_at_text t k m a :
  Forall (λ c, 0 < c < 256) t → (∀ i, 0 ≤ i < Z.of_nat (length t) → m (a + i) = byte_at t i) → m (a + Z.of_nat (length t)) = 0 →
  (length t < k)%nat → string_at k m a = Some t.
Proof.
  revert k a. induction t as [|c t IH]; intros k a Ht Hm H0 Hk; (destruct k as [|k]; [simpl in Hk; lia|]); cbn [string_at].
  - simpl in H0. by rewrite Z.add_0_r in H0; rewrite H0.
  - apply Forall_cons in Ht as [Hc Ht]. cbn [length] in *. pose proof (Hm 0 ltac:(lia)) as Hm0. rewrite Z.add_0_r in Hm0.
    rewrite Hm0. change (byte_at (c :: t) 0) with c. rewrite (proj2 (Z.eqb_neq c 0)) by lia.
    rewrite (IH k (a + 1)); [done | done | | | lia].
    + intros i Hi. rewrite <- Z.add_assoc, Hm by lia. unfold byte_at. replace (Z.to_nat (1 + i)) with (Datatypes.S (Z.to_nat i)) by lia. done.
    + rewrite <- H0. f_equal. lia.
Qed.

Lemma arg_byte_range t i : Forall (λ c, 0 < c < 256) t → 0 ≤ i < Z.of_nat (length t) → 0 < byte_at t i < 256.
Proof.
  intros Ht Hi. unfold byte_at. destruct (lookup_lt_is_Some_2 t (Z.to_nat i)) as [c Hc]; [lia|]. rewrite Hc.
  by apply (Forall_lookup_1 _ _ _ _ Ht Hc).
Qed.
Lemma byte_at_past t i : Z.of_nat (length t) ≤ i → byte_at t i = 0.
Proof. intros Hi. unfold byte_at. by rewrite lookup_ge_None_2 by lia. Qed.

Section params.
Context {St : Type} `{PagePools St}.
Implicit Types (v : vm St) (S : gmap Z (Z → Z)).

(** The string of [strlcpy] in memory. *)
Lemma copied_text t a m i :
  0 ≤ i ≤ Z.of_nat (length t) → store_bytes a (t ++ [0]) m (a + i) = byte_at t i.
Proof.
  intros Hi. rewrite store_bytes_in by (rewrite length_app; simpl; lia). unfold byte_at.
  destruct (decide (i < Z.of_nat (length t))).
  - by rewrite lookup_app_l by lia.
  - replace (Z.to_nat i) with (length t) by lia. rewrite lookup_app_r, Nat.sub_diag by lia. by rewrite (lookup_ge_None_2 t) by lia.
Qed.

(** The characters before [i] have been cut. *)
Definition cutting v params (cmd : list Z) (c : Z) (v' : vm St) : Prop :=
  ∃ i m, c = cmdline params + i ∧ 0 ≤ i ≤ kept_len cmd ∧ v' = set_mem m v ∧ only_page params (mem v) m ∧ is_bytes m
    ∧ load32 m params = kept_len cmd
    ∧ ∀ j, 0 ≤ j ≤ kept_len cmd → m (cmdline params + j) = if j <? i then cmd_char cmd j else byte_at (kept cmd) j.

Lemma cut_words v params cmd c v' :
  Forall (λ c, 0 < c < 256) cmd → cutting v params cmd c v' →
  wp (loop (Z.to_nat PGSIZE) cut_word c) (λ _ v', cutting v params cmd (cmdline params + kept_len cmd) v') v'.
Proof.
  intros Hcmd Hc. assert (Forall (λ c, 0 < c < 256) (kept cmd)) as Hk by by apply Forall_take. pose proof (kept_range cmd) as Hr.
  apply (wp_loop (λ c v', cutting v params cmd c v') (λ c _, Z.to_nat (cmdline params + kept_len cmd - c))); [|done|].
  2: { destruct Hc as (i & m & -> & Hi & _). rewrite PGSIZE_eq. lia. }
  clear c v' Hc. intros c v' (i & m & -> & Hi & -> & Ho & Hb & Hl & Hm). unfold cut_word. apply wp_bind, wp_gets. simpl.
  pose proof (Hm i ltac:(lia)) as Hmi. rewrite Z.ltb_irrefl in Hmi. rewrite Hmi.
  destruct (Z.eqb_spec (byte_at (kept cmd) i) 0) as [Hz|Hz].
  { apply wp_ret. assert (i = kept_len cmd) as ->.
    { destruct (decide (i < kept_len cmd)) as [Hlt|]; [|lia]. pose proof (arg_byte_range _ i Hk ltac:(unfold kept_len in Hlt; lia)). lia. }
    exists (kept_len cmd), m. split_and!; (done || lia). }
  assert (i < kept_len cmd) as Hlt.
  { destruct (decide (i < kept_len cmd)); [done|]. destruct Hz. apply byte_at_past. unfold kept_len in *. lia. }
  assert (∀ m', (∀ a, a ≠ cmdline params + i → m' a = m a) → m' (cmdline params + i) = cmd_char cmd i → is_bytes m' →
    cutting v params cmd (cmdline params + i + 1) (set_mem m' v)) as Hnext.
  { intros m' Hother Hmi' Hb'. exists (i + 1), m'. unfold cmdline in *. split_and!; try done; try lia.
    - intros a Ha. rewrite Hother by lia. by apply Ho.
    - rewrite <- Hl. apply load32_ext. intros k Hk'. apply Hother. lia.
    - intros j Hj. destruct (decide (j = i)) as [->|Hne].
      + rewrite Hmi'. by rewrite (proj2 (Z.ltb_lt i (i + 1))) by lia.
      + rewrite Hother, Hm by lia. destruct (Z.ltb_spec j i), (Z.ltb_spec j (i + 1)); (done || lia). }
  unfold cmd_char in Hnext. destruct (Z.eqb_spec (byte_at (kept cmd) i) 32) as [Hs|Hs].
  - apply wp_bind, wp_modify, wp_ret. split; [|lia]. apply Hnext; simpl.
    + intros a Ha. unfold store8. by rewrite (proj2 (Z.eqb_neq a _)).
    + unfold store8. by rewrite Z.eqb_refl.
    + by apply store8_bytes.
  - apply wp_bind, wp_ret, wp_ret. split; [|lia]. by apply Hnext.
Qed.

Lemma make_params_ok v S params cmd :
  vm_ok v S → plain v S params → Forall (λ c, 0 < c < 256) cmd →
  wp (make_params params cmd) (λ _ v', vm_ok v' S ∧ (pages v' = pages v ∧ cr3 v' = cr3 v) ∧ only_page params (mem v) (mem v')
    ∧ params_at v' S params (kept_len cmd) (cmd_char cmd)) v.
Proof.
  intros Hv Hpl Hcmd. pose proof (kept_range cmd) as Hr. unfold make_params. apply wp_bind, wp_modify.
  change (Z.to_nat (PGSIZE - sizeof_params - 1)) with 3579%nat. fold (kept cmd).
  assert (Forall (λ c, 0 < c < 256) (kept cmd)) as Hk by by apply Forall_take.
  set (m1 := store_bytes (cmdline params) (kept cmd ++ [0]) (mem v)).
  assert (∀ i, 0 ≤ i ≤ kept_len cmd → m1 (cmdline params + i) = byte_at (kept cmd) i) as Hm1 by (intros i Hi; by apply copied_text).
  apply wp_bind, wp_gets, wp_bind. eapply (wp_of_option _ _ (kept cmd)).
  { apply string_at_text; [done | intros i Hi; apply Hm1; unfold kept_len; lia | | rewrite PGSIZE_eq; unfold kept_len in Hr; lia].
    simpl. fold m1. rewrite Hm1 by (unfold kept_len; lia). by apply byte_at_past. }
  apply wp_bind, wp_modify. pose (m2 := store32 params (kept_len cmd) m1).
  assert (∀ a, ¬ (params ≤ a < params + 4096) → m2 a = mem v a) as Ho.
  { intros a Ha. unfold m2, m1. rewrite store32_out by lia. apply store_bytes_out. rewrite length_app. unfold cmdline, kept_len in *. simpl. lia. }
  assert (is_bytes m2) as Hb2.
  { apply store32_bytes, store_bytes_bytes; [|apply Hv]. apply Forall_app. split; [|by repeat constructor].
    eapply Forall_impl; [exact Hk|]. intros c ?. simpl in *. lia. }
  eapply wp_mono; [apply (cut_words v params cmd); [done|]|].
  { exists 0, m2. split_and!; try done; try lia.
    - apply load32_store32. lia.
    - intros j Hj. rewrite (proj2 (Z.ltb_ge j 0)) by lia. unfold m2. rewrite store32_out by (unfold cmdline; lia). by apply Hm1. }
  intros _ v' (i & m & Hi & _ & -> & Ho' & Hb' & Hl' & Hm'). assert (i = kept_len cmd) as -> by lia. split_and!; try done.
  - by apply (write_page_ok v S params).
  - unfold params_at. split_and!; [by apply (write_plain v S params) | | lia | lia | |].
    + unfold params_len. simpl. rewrite Hl'. apply sgn_small; lia.
    + unfold cmd_char. by rewrite byte_at_past by (unfold kept_len; lia).
    + intros j Hj. simpl. rewrite Hm' by done. destruct (Z.ltb_spec j (kept_len cmd)); [done|].
      unfold cmd_char. by rewrite byte_at_past by (unfold kept_len in *; lia).
Qed.

Lemma params_made v S params cmd v' :
  vm_ok v S → unmapped v S params → Forall (λ c, 0 < c < 256) cmd → make_params params cmd v = Ok (tt, v') →
  vm_ok v' S ∧ params_at v' S params (kept_len cmd) (cmd_char cmd).
Proof.
  intros Hv Hp Hc Hrun.
  destruct (wp_run _ _ _ _ _ (make_params_ok v S params cmd Hv (unmapped_plain _ _ _ Hp) Hc) Hrun) as (? & _ & _ & ?). done.
Qed.
#[local] Opaque make_params.
End params.

(** ** Words *)

(** The characters up to the next space. *)
Fixpoint word_of (t : list Z) : list Z :=
  match t with
  | [] => []
  | c :: t => if c =? 32 then [] else c :: word_of t
  end.
(** The words of [t] that start in it; [b] says whether one may start with
    the first character. *)
Fixpoint words (b : bool) (t : list Z) : list (list Z) :=
  match t with
  | [] => []
  | c :: t' => (if b && negb (c =? 32) then [word_of t] else []) ++ words (c =? 32) t'
  end.
(** The arguments: the first one starts with the first character, even if
    that is a space. *)
Definition arguments (t : list Z) : list (list Z) :=
  match t with
  | [] => [[]]
  | c :: t' => word_of t :: words (c =? 32) t'
  end.

Definition chr (t : list Z) (i : Z) : Z := let c := byte_at t i in if c =? 32 then 0 else c.

Lemma chr_cons c t i : 0 ≤ i → chr (c :: t) (i + 1) = chr t i.
Proof. intros Hi. unfold chr, byte_at. by replace (Z.to_nat (i + 1)) with (Datatypes.S (Z.to_nat i)) by lia. Qed.

Lemma string_word t g a n :
  Forall (λ c, 0 < c < 256) t → (∀ i, 0 ≤ i ≤ Z.of_nat (length t) → g (a + i) = chr t i) → (length t < n)%nat →
  string_at n g a = Some (word_of t).
Proof.
  revert a n. induction t as [|c t IH]; intros a n Ht Hg Hn; (destruct n as [|n]; [simpl in Hn; lia|]); cbn [string_at word_of];
    pose proof (Hg 0 ltac:(lia)) as Hg0; rewrite Z.add_0_r in Hg0; rewrite Hg0; [done|].
  apply Forall_cons in Ht as [Hc Ht]. change (chr (c :: t) 0) with (if c =? 32 then 0 else c).
  destruct (Z.eqb_spec c 32); [done|]. rewrite (proj2 (Z.eqb_neq c 0)) by lia. cbn [length] in *.
  rewrite (IH (a + 1) n); [done | done | | lia]. intros i Hi. rewrite <- Z.add_assoc, Hg by lia.
  rewrite Z.add_comm. apply chr_cons. lia.
Qed.

Lemma starts_words t g a n len :
  Forall (λ c, 0 < c < 256) t → 1 ≤ a → len = a + Z.of_nat (length t) →
  (∀ i, 0 ≤ i ≤ Z.of_nat (length t) → g (a + i) = chr t i) → (length t < n)%nat →
  string_at n g <$> starts_from g len a = Some <$> words (g (a - 1) =? 0) t.
Proof.
  revert a. induction t as [|c t IH]; intros a Ht Ha Hlen Hg Hn; cbn [length] in *; [by rewrite starts_nil by lia|].
  rewrite starts_cons by lia. cbn [words]. rewrite !fmap_app. pose proof (Hg 0 ltac:(lia)) as Hg0. rewrite Z.add_0_r in Hg0.
  change (chr (c :: t) 0) with (if c =? 32 then 0 else c) in Hg0. pose proof Ht as [Hc Ht']%Forall_cons. f_equal.
  - unfold arg_start. replace (negb (g a =? 0)) with (negb (c =? 32)).
    2: { rewrite Hg0. destruct (Z.eqb_spec c 32); [done|]. by rewrite (proj2 (Z.eqb_neq c 0)) by lia. }
    rewrite andb_comm. destruct ((g (a - 1) =? 0) && negb (c =? 32)); [|done].
    cbn. by rewrite (string_word (c :: t)).
  - rewrite (IH (a + 1)); [|done | lia | lia | | lia].
    + f_equal. replace (a + 1 - 1) with a by lia. rewrite Hg0. destruct (Z.eqb_spec c 32); [done|].
      by rewrite (proj2 (Z.eqb_neq c 0)) by lia.
    + intros i Hi. rewrite <- Z.add_assoc, Hg by lia. rewrite Z.add_comm. apply chr_cons. lia.
Qed.

Lemma arg_starts_words t g n :
  Forall (λ c, 0 < c < 256) t → (∀ i, 0 ≤ i ≤ Z.of_nat (length t) → g i = chr t i) → (length t < n)%nat →
  string_at n g <$> arg_starts g (Z.of_nat (length t)) = Some <$> arguments t.
Proof.
  intros Ht Hg Hn. unfold arg_starts. rewrite fmap_cons, (string_word t g 0 n) by done. destruct t as [|c t].
  { by rewrite starts_nil by (simpl; lia). }
  cbn [arguments]. rewrite fmap_cons. f_equal. pose proof Ht as [Hc Ht']%Forall_cons. cbn [length] in *.
  pose proof (Hg 0 ltac:(lia)) as Hg0. change (chr (c :: t) 0) with (if c =? 32 then 0 else c) in Hg0.
  rewrite (starts_words t g 1 n); [|done | lia | lia | | lia].
  - f_equal. change (1 - 1) with 0. rewrite Hg0. destruct (Z.eqb_spec c 32); [done|]. by rewrite (proj2 (Z.eqb_neq c 0)) by lia.
  - intros i Hi. rewrite Hg, (Z.add_comm 1) by lia. apply chr_cons. lia.
Qed.

(** ** The start of a process *)

Fixpoint user_string (n : nat) (m : Z → Z) (pd va : Z) : option (list Z) :=
  match n with
  | O => None
  | Datatypes.S n => c ← user_byte m pd va; if c =? 0 then Some [] else cons c <$> user_string n m pd (va + 1)
  end.
Definition user_writable (m : Z → Z) (pd va : Z) : bool :=
  match translate m pd va with
  | Some (_, w, _) => w
  | None => false
  end.

(** The loadable segments of the executable [c] are in memory. *)
Definition program_in_memory (m : Z → Z) (pd : Z) (c : list Z) : Prop :=
  let e := ehdr_of_bytes (take 52 c) in
  52 ≤ Z.of_nat (length c) ∧ good_ehdr e = true
  ∧ ∀ k, 0 ≤ k < e_phnum e →
      let ph := phdr_at c (s32 (e_phoff e)) k in
      p_type ph = PT_LOAD →
      valid_segment (Z.of_nat (length c)) ph
      ∧ ∀ j, 0 ≤ j < p_memsz ph →
          user_byte m pd (p_vaddr ph + j) = Some (if j <? p_filesz ph then byte_at c (p_offset ph + j) else 0)
          ∧ user_writable m pd (p_vaddr ph + j) = writable ph.

(** The frame of the function that the program starts with. *)
Definition arguments_on_stack (m : Z → Z) (pd : Z) (args : list (list Z)) (esp : Z) : Prop :=
  let argc := Z.of_nat (length args) in
  user_word m pd esp = Some 0 ∧ user_word m pd (esp + 4) = Some argc ∧ user_word m pd (esp + 8) = Some (esp + 12)
  ∧ (∀ k w, args !! k = Some w →
       ∃ a, user_word m pd (esp + 12 + 4 * Z.of_nat k) = Some a ∧ user_string (Z.to_nat PGSIZE) m pd a = Some w)
  ∧ user_word m pd (esp + 12 + 4 * argc) = Some 0.

Lemma user_string_at n m pd B g len s w :
  (∀ i, 0 ≤ i ≤ len → user_byte m pd (B + i) = Some (g i)) → g len = 0 → 0 ≤ s ≤ len →
  string_at n g s = Some w → user_string n m pd (B + s) = Some w.
Proof.
  intros Hb Hend. revert s w. induction n as [|n IH]; intros s w Hs Hw; [done|]. cbn [string_at user_string] in *.
  rewrite Hb by done. cbn. destruct (Z.eqb_spec (g s) 0) as [|Hne]; [done|].
  assert (s ≠ len) by (by intros ->). destruct (string_at n g (s + 1)) as [t|] eqn:Ht; [|done].
  rewrite <- Z.add_assoc, (IH (s + 1) t) by (done || lia). done.
Qed.

Lemma stack_arguments m pd t g esp :
  Forall (λ c, 0 < c < 256) t → (length t < Z.to_nat PGSIZE)%nat → (∀ i, 0 ≤ i ≤ Z.of_nat (length t) → g i = chr t i) →
  stack_image m pd g (Z.of_nat (length t)) esp → arguments_on_stack m pd (arguments t) esp.
Proof.
  unfold arguments_on_stack. generalize (Z.to_nat PGSIZE). intros n Ht Hn Hg (_ & H0 & H1 & H2 & H3 & H4 & H5).
  pose proof (arg_starts_words t g n Ht Hg Hn) as Hw.
  assert (length (arg_starts g (Z.of_nat (length t))) = length (arguments t)) as Hl.
  { apply (f_equal length) in Hw. by rewrite !length_fmap in Hw. }
  rewrite Hl in H1, H4. split_and!; [done | done | done | | done]. intros k w Hk.
  apply (f_equal (λ l, l !! k)) in Hw. rewrite !list_lookup_fmap, Hk in Hw. cbn in Hw.
  destruct (arg_starts g (Z.of_nat (length t)) !! k) as [s|] eqn:Hs; [|done]. cbn in Hw. injection Hw as Hw.
  eexists. split; [by apply H3|]. apply (user_string_at n m pd _ g (Z.of_nat (length t))); [done | | | done].
  - rewrite Hg by lia. unfold chr. by rewrite byte_at_past by lia.
  - apply list_elem_of_lookup_2 in Hs. unfold arg_starts, starts_from in Hs. apply elem_of_cons in Hs as [->|Hs]; [lia|].
    apply list_elem_of_filter in Hs as [_ Hs]. apply elem_of_seqZ in Hs. lia.
Qed.

Section start.
Context {St : Type} `{PagePools St} {F : Type} `{FileSystem F}.
Implicit Types (p : process St F) (v : vm St) (S : gmap Z (Z → Z)) (f : Z → Z).

Lemma user_byte_same v v' S pd f va :
  vm_ok v S → vm_ok v' S → S !! pd = Some f → 0 ≤ va < PHYS_BASE →
  (∀ n, 0 ≤ n < USER_PAGES → present (f n) → same_on (frame (f n)) (mem v) (mem v')) →
  user_byte (mem v') pd va = user_byte (mem v) pd va ∧ user_writable (mem v') pd va = user_writable (mem v) pd va.
Proof.
  intros Hv Hv' E Hva Hs. unfold user_byte, user_writable. rewrite (translate_space v' S pd f), (translate_space v S pd f) by done.
  destruct (translation f va) as [[[a w] u]|] eqn:Ht; [|done]. apply translation_Some in Ht as [Hp ->].
  destruct (user_page va Hva) as (Hn & _). destruct u; [|done]. split; [|done]. f_equal. apply Hs; [done | done|].
  apply Z.mod_pos_bound. lia.
Qed.

Lemma loaded_in_memory v S pd f c g len eip esp :
  vm_ok v S → S !! pd = Some f → program_loaded (mem v) f pd c g len eip esp → program_in_memory (mem v) pd c.
Proof.
  intros Hv E (Hlen & Hgood & _ & Hh & _). split_and!; [done | done|]. intros k Hk ph Hld.
  specialize (Hh k Hk). change (phdr_at c _ k) with ph in Hh. clearbody ph. destruct Hh as (_ & _ & _ & Hd). destruct (Hd Hld) as [Hval Him]. split; [done|]. intros j Hj.
  pose proof Hval as (_ & _ & _ & _ & Hlow & Htop). split.
  - apply (image_user_byte v S pd f (p_vaddr ph) (p_memsz ph) (writable ph) (segment_byte c (p_offset ph) (p_filesz ph))); (done || lia).
  - destruct (Him j Hj) as (a & Ha & _). unfold user_writable. rewrite (translate_space v S pd f) by (done || lia). by rewrite Ha.
Qed.

Lemma user_word_same m m' pd va :
  (∀ d, 0 ≤ d < 4 → user_byte m' pd (va + d) = user_byte m pd (va + d)) → user_word m' pd va = user_word m pd va.
Proof.
  intros Hb. unfold user_word. pose proof (Hb 0 ltac:(lia)) as Hb0. rewrite Z.add_0_r in Hb0. by rewrite Hb0, !Hb by lia.
Qed.

Lemma stack_image_same m m' pd g len esp :
  0 ≤ esp_ofs g len → 0 ≤ len ≤ 4091 →
  (∀ va, PHYS_BASE - 4096 ≤ va < PHYS_BASE → user_byte m' pd va = user_byte m pd va) →
  stack_image m pd g len esp → stack_image m' pd g len esp.
Proof.
  intros Hfit Hlen Hb (He & H0' & H1' & H2' & H3' & H4' & H5').
  assert (esp_ofs g len + 12 + 4 * Z.of_nat (length (arg_starts g len)) + 4 ≤ 4096) as Htop.
  { unfold esp_ofs, argv_ofs, argv_end, arg_pad. div_lia. }
  assert (∀ va, PHYS_BASE - 4096 ≤ va → va + 4 ≤ PHYS_BASE → user_word m' pd va = user_word m pd va) as Hw.
  { intros va H1 H2. apply user_word_same. intros d Hd. apply Hb. lia. }
  split_and!; [done | rewrite Hw; (done || lia).. | | rewrite Hw; (done || lia) |].
  - intros k s Hk. pose proof (lookup_lt_Some _ _ _ Hk). rewrite Hw by lia. by apply H3'.
  - intros i Hi. rewrite Hb by lia. by apply H5'.
Qed.

Lemma free_params_ok v S q :
  vm_ok v S → unmapped v S q →
  wp (palloc_free_page q) (λ _ v', vm_ok v' S ∧ (∀ q', pp_used (pages v') q' ↔ pp_used (pages v) q' ∧ q' ≠ q)
    ∧ only_page q (mem v) (mem v') ∧ cr3 v' = cr3 v) v.
Proof.
  intros Hv Hq. apply wp_conj; [by apply step_free_ok|]. apply free_frame_ok; [apply Hv | apply Hq|].
  intros s Hs Hu. split_and!; try done. intros a Ha. simpl. by apply fill_out.
Qed.

(** The page of the parameters is not part of the new address space. *)
Lemma params_unmapped v S v' pd f q :
  vm_ok v S → S !! pd = None → unmapped v S q → after v v' (<[pd := f]> S) → ¬ belongs v' pd f q → unmapped v' (<[pd := f]> S) q.
Proof.
  intros Hv Hnone (Hq & Hno & Hnm) (_ & _ & Hu & Hs) Hnb. split_and!; [by apply Hu | |].
  - intros pd' f' E' Hf. destruct (decide (pd' = pd)) as [->|Hne]; [by apply Hnb; left|].
    rewrite lookup_insert_ne in E' by done. apply (Hno pd' f' E'). apply (footprint_same (mem v) (mem v')); [|done].
    apply Hs. apply (used_footprint v S pd' f'); [done | done | by left].
  - intros pd' f' n E' Hn Hp Hfr. destruct (decide (pd' = pd)) as [->|Hne].
    + rewrite lookup_insert_eq in E'. injection E' as <-. apply Hnb. right. by exists n.
    + rewrite lookup_insert_ne in E' by done. by apply (Hnm pd' f' n E' Hn Hp).
Qed.

(** What [process_execute] does with the page [params] that it has got, and
    what the new thread does with it then. *)
Definition run_command (params : Z) (cmd : list Z) : M (process St F) (option intr_frame) :=
  on_machine (make_params params cmd) ;; start_process params.

(** The arguments fit in the stack page. *)
Definition fits (cmd : list Z) : Prop := 0 ≤ esp_ofs (cmd_char cmd) (kept_len cmd).

(** The process can run with the registers [fr] in its address space [pd]. *)
Definition ready_to_run v pd (c cmd : list Z) (fr : intr_frame) : Prop :=
  f_cs fr = SEL_UCSEG ∧ f_ds fr = SEL_UDSEG ∧ f_eflags fr = 514 ∧ f_eip fr = e_entry (ehdr_of_bytes (take 52 c))
  ∧ program_in_memory (mem v) pd c ∧ arguments_on_stack (mem v) pd (arguments (kept cmd)) (f_esp fr)
  ∧ f_esp fr mod 4 = 2 * ((kept_len cmd + 1) mod 2).

Lemma free_keeps_program v v' S pd f q c cmd eip esp :
  vm_ok v S → vm_ok v' S → S !! pd = Some f → ¬ belongs v pd f q → pp_used (pages v) q → only_page q (mem v) (mem v') →
  Forall (λ c, 0 < c < 256) cmd → fits cmd →
  program_loaded (mem v) f pd c (cmd_char cmd) (kept_len cmd) eip esp →
  program_in_memory (mem v') pd c ∧ arguments_on_stack (mem v') pd (arguments (kept cmd)) esp.
Proof.
  intros Hv Hv' E Hnb Hq Ho Hcmd Hfit Hld. pose proof (kept_range cmd) as Hr.
  assert (∀ va, 0 ≤ va < PHYS_BASE → user_byte (mem v') pd va = user_byte (mem v) pd va
    ∧ user_writable (mem v') pd va = user_writable (mem v) pd va) as Hsame.
  { intros va Hva. apply (user_byte_same v v' S pd f); try done. intros n Hn Hp.
    destruct (used_ram_page v S q Hv Hq) as (_ & ? & _). apply (only_page_same q); try done; [by apply (frame_aligned v S pd f n)|].
    intros Hfr. apply Hnb. right. by exists n. }
  pose proof (loaded_in_memory v S pd f c _ _ _ _ Hv E Hld) as (H1 & H2 & H3). destruct Hld as (_ & _ & _ & _ & Hst). split.
  - split_and!; [done | done|]. intros k Hk ph Hpt. specialize (H3 k Hk). cbv zeta in H3.
    change (phdr_at c _ k) with ph in H3. clearbody ph. destruct (H3 Hpt) as [Hval Hb]. split; [done|]. intros j Hj.
    pose proof Hval as (_ & _ & _ & _ & Hlow & Htop). destruct (Hsame (p_vaddr ph + j)) as [-> ->]; [lia|]. by apply Hb.
  - apply (stack_arguments _ _ _ (cmd_char cmd)); [by apply Forall_take | rewrite PGSIZE_eq; unfold kept_len in Hr; lia | done|].
    apply (stack_image_same (mem v)); [done | unfold kept_len in Hr; lia | | done].
    intros va Hva. apply Hsame. unfold PHYS_BASE in *. lia.
Qed.

(** The padding does not align the stack pointer if the command line has an
    even number of characters. *)
Lemma esp_alignment g len : (PHYS_BASE - 4096 + esp_ofs g len) mod 4 = 2 * ((len + 1) mod 2).
Proof. unfold esp_ofs, argv_ofs, argv_end, arg_pad, PHYS_BASE. div_lia. Qed.

Lemma unmapped_after v S v' q : vm_ok v S → unmapped v S q → after v v' S → unmapped v' S q.
Proof.
  intros Hv (Hq & Hno & Hnm) (_ & _ & Hu & Hs). split_and!; [by apply Hu | | done].
  intros pd f E Hf. apply (Hno pd f E). apply (footprint_same (mem v) (mem v')); [|done].
  apply Hs. apply (used_footprint v S pd f); [done | done | by left].
Qed.

Lemma load_cases p S m params cmd r p' :
  vm_ok (machine p) S → unmapped (machine p) S params → Forall (λ c, 0 < c < 256) cmd →
  load_post p S m (kept_len cmd) (cmd_char cmd) r p' →
  ∃ S', after (machine p) (machine p') S' ∧ unmapped (machine p') S' params ∧
    match r with
    | None => True
    | Some (eip, esp) => ∃ pd f c, S' = <[pd := f]> S ∧ S !! pd = None ∧ pagedir p' = pd ∧ active (machine p') = pd
        ∧ ¬ belongs (machine p') pd f params ∧ m !! word_of (kept cmd) = Some c
        ∧ program_loaded (mem (machine p')) f pd c (cmd_char cmd) (kept_len cmd) eip esp
    end.
Proof.
  intros Hv Hum Hcmd (_ & _ & _ & _ & _ & [(-> & _ & Haf & _)|(pd & f & Hnone & Hpd & Hact & _ & _ & Haf & _ & Hnew & Hr)]).
  - exists S. split_and!; [done | by apply (unmapped_after (machine p)) | done].
  - assert (¬ belongs (machine p') pd f params) as Hnb by (apply Hnew, Hum).
    exists (<[pd := f]> S). split_and!; [done | by apply (params_unmapped (machine p) S)|].
    destruct r as [[eip esp]|]; [|done]. destruct Hr as (name & c & Hname & Hc & Hpl).
    assert (name = word_of (kept cmd)) as ->.
    { rewrite (string_word (kept cmd)) in Hname; [by injection Hname | by apply Forall_take | | unfold kept_len; lia].
      intros i Hi. by rewrite Z.add_0_l. }
    exists pd, f, c. by split_and!.
Qed.

Lemma run_command_ok p S m params cmd :
  vm_ok (machine p) S → fs_holds (disk p) m → unmapped (machine p) S params → Forall (λ c, 0 < c < 256) cmd → fits cmd →
  wp (run_command params cmd) (λ r p', load_sema p' = load_sema p + 1 ∧ fs_holds (disk p') m
    ∧ ¬ pp_used (pages (machine p')) params
    ∧ (∀ q, pp_used (pages (machine p)) q → q ≠ params → pp_used (pages (machine p')) q ∧ same_on q (mem (machine p)) (mem (machine p')))
    ∧ match r with
      | None => ∃ S', vm_ok (machine p') S'
      | Some fr => ∃ pd f c, S !! pd = None ∧ pagedir p' = pd ∧ active (machine p') = pd ∧ vm_ok (machine p') (<[pd := f]> S)
          ∧ m !! word_of (kept cmd) = Some c ∧ ready_to_run (machine p') pd c cmd fr
      end) p.
Proof.
  intros Hv Hfs Hum Hcmd Hfit. unfold run_command. apply wp_bind, wp_zoom.
  eapply wp_mono; [by apply (make_params_ok (machine p) S params cmd); [|apply unmapped_plain|]|].
  intros [] v1 (Hv1 & [Hp1 _] & Ho1 & Hpar). set (p1 := set_machine v1 p). pose proof Hum as (Hq & _).
  destruct (used_ram_page _ S params Hv Hq) as (_ & Hal & _).
  assert (unmapped v1 S params) as Hum1.
  { destruct Hum as (? & ? & ?). destruct Hpar as ([? ?] & _). by split_and!. }
  assert (∀ q, pp_used (pages (machine p)) q → q ≠ params → same_on q (mem (machine p)) (mem v1)) as Hs1.
  { intros q Hqu Hne. destruct (used_ram_page _ S q Hv Hqu) as (_ & ? & _). by apply (only_page_same params). }
  unfold start_process. apply wp_bind. eapply wp_mono; [by apply (load_ok p1 S m params _ _ Hv1 Hfs Hpar)|].
  intros r p2 Hpost. pose proof Hpost as (Hd2 & _ & _ & _ & Hsem & _). apply wp_bind, wp_modify, wp_bind, wp_zoom.
  destruct (load_cases p1 S m params cmd r p2 Hv1 Hum1 Hcmd Hpost) as (S2 & (Hv2 & _ & Hu2 & Hs2) & Hum2 & Hr).
  eapply wp_mono; [by apply (free_params_ok (machine p2) S2)|]. intros [] v3 (Hv3 & Hu3 & Ho3 & Hc3). apply wp_ret.
  split_and!; simpl; [by rewrite Hsem | done | by rewrite Hu3; intros [_ ?] | |].
  - intros q Hqu Hne. destruct (used_ram_page _ S q Hv Hqu) as (_ & ? & _). split.
    + apply Hu3. split; [apply Hu2; simpl; by rewrite Hp1 | done].
    + apply (same_on_trans q _ (mem v1)); [by apply Hs1|]. apply (same_on_trans q _ (mem (machine p2))).
      * apply Hs2. simpl. by rewrite Hp1.
      * by apply (only_page_same params).
  - destruct r as [[eip esp]|]; simpl; [|by exists S2].
    destruct Hr as (pd & f & c & -> & Hnone & Hpd & Hact & Hnb & Hc & Hld). exists pd, f, c. split_and!; try done.
    + unfold active. rewrite Hc3. done.
    + pose proof Hld as (_ & _ & Heip & _ & (Hesp & _)).
      destruct (free_keeps_program (machine p2) v3 (<[pd := f]> S) pd f params c cmd eip esp) as [Hprog Hargs]; try done.
      * apply lookup_insert_eq.
      * apply Hum2.
      * split_and!; try done. simpl. rewrite Hesp. apply esp_alignment.
Qed.
End start.

(** ** A file system in memory, and a program *)

Section example.
Definition ram_disk : Type := gmap (list Z) (list Z) * option (list Z * Z).
Definition small_file (c : list Z) : Prop := Forall (λ b, 0 ≤ b < 256) c ∧ Z.of_nat (length c) < 2^31.
Definition disk_holds (s : ram_disk) (m : gmap (list Z) (list Z)) : Prop := s = (m, None) ∧ map_Forall (λ _, small_file) m.
Definition disk_file (s : ram_disk) (m : gmap (list Z) (list Z)) (h : Z) (c : list Z) (p : Z) : Prop :=
  s = (m, Some (c, p)) ∧ map_Forall (λ _, small_file) m ∧ h ≠ 0 ∧ small_file c ∧ 0 ≤ p.
Definition disk_open (nm : list Z) : M ram_disk Z := λ '(m, o),
  match m !! nm with
  | Some c => Ok (1, (m, Some (c, 0)))
  | None => Ok (0, (m, o))
  end.
Definition disk_close (h : Z) : M ram_disk unit := λ '(m, o), if h =? 0 then Ok (tt, (m, o)) else Ok (tt, (m, None)).
Definition disk_read (h n : Z) : M ram_disk (list Z) := λ '(m, o),
  match o with
  | Some (c, p) => let bs := take (Z.to_nat n) (drop (Z.to_nat p) c) in Ok (bs, (m, Some (c, p + Z.of_nat (length bs))))
  | None => Err Fault
  end.
Definition disk_seek (h q : Z) : M ram_disk unit := λ '(m, o),
  match o with
  | Some (c, _) => Ok (tt, (m, Some (c, q)))
  | None => Err Fault
  end.
Definition disk_length (h : Z) : M ram_disk Z := λ '(m, o),
  match o with
  | Some (c, p) => Ok (Z.of_nat (length c), (m, Some (c, p)))
  | None => Err Fault
  end.

Definition ram_files : FileSystem ram_disk.
Proof.
  refine (Build_FileSystem ram_disk disk_holds disk_file disk_open disk_close disk_read disk_seek disk_length _ _ _ _ _ _ _).
  - intros s m nm [-> Hm]. unfold wp, disk_open. destruct (m !! nm) as [c|] eqn:E; [right | by left].
    exists c. split_and!; [done | done|]. split_and!; try done. by apply (map_Forall_lookup_1 _ _ _ _ Hm E).
  - intros [m o]. done.
  - intros s m h c p (-> & Hm & Hh & _). unfold wp, disk_close. by rewrite (proj2 (Z.eqb_neq h 0)).
  - intros s m h c p n (-> & Hm & Hh & Hc & Hp) Hn. unfold wp, disk_read. split; [|done]. split_and!; try done; try apply Hc. lia.
  - intros s m h c p q (-> & Hm & Hh & Hc & _) Hq. unfold wp, disk_seek. split_and!; try done; [apply Hc.. | lia].
  - intros s m h c p (-> & Hm & Hh & Hc & Hp). unfold wp, disk_length. by split_and!.
  - intros s m h c p (_ & _ & _ & Hc & _). exact Hc.
Defined.
End example.

Definition le16 (x : Z) : list Z := [x mod 256; x / 256 mod 256].
Definition le32 (x : Z) : list Z := le16 (x mod 65536) ++ le16 (x / 65536).
(** An executable of two bytes of code, with 14 bytes of zeros behind it. *)
Definition small_elf : list Z :=
  [127; 69; 76; 70; 1; 1; 1] ++ replicate 9 0 ++ le16 2 ++ le16 3 ++ le32 1 ++ le32 134512724 ++ le32 52 ++ le32 0 ++ le32 0
  ++ le16 52 ++ le16 32 ++ le16 1 ++ le16 0 ++ le16 0 ++ le16 0
  ++ le32 1 ++ le32 0 ++ le32 134512640 ++ le32 134512640 ++ le32 86 ++ le32 100 ++ le32 7 ++ le32 4096 ++ [235; 254].

#[local] Opaque user_frame.

(** The file [a], and the command line [a bc]. *)
Definition small_disk : gmap (list Z) (list Z) := {[ [97] := small_elf ]}.
Definition small_cmd : list Z := [97; 32; 98; 99].
Definition new_thread : process Palloc.palloc ram_disk := mk_process user_frame.2 (small_disk, None) 3221282816 0 2 ∅ 0 0.

Lemma small_disk_ok : disk_holds (small_disk, None) small_disk.
Proof.
  split; [done|]. apply map_Forall_singleton. split; [|vm_compute; done]. vm_compute. repeat constructor; done.
Qed.
Lemma small_cmd_ok : Forall (λ c, 0 < c < 256) small_cmd.
Proof. repeat constructor; lia. Qed.
Definition small_run : res (option intr_frame * process Palloc.palloc ram_disk) :=
  @run_command Palloc.palloc small_pools ram_disk ram_files user_frame.1 small_cmd new_thread.

Lemma small_fits : fits small_cmd.
Proof. vm_compute. done. Qed.
Lemma new_thread_ok : @vm_ok Palloc.palloc small_pools (machine new_thread) one_process.
Proof. apply (@reach_vm_ok Palloc.palloc small_pools), process_reach. Qed.

#[local] Opaque run_command.

(** ** Claims *)

(** C17: Programs start as their files and command lines say, if the words of
    the command line and the pointers to them fit in the one page of the stack
    (the first bytes of the page are not overrun).  What [process_execute] and
    [start_process] do with such a command line runs to its end; the parameters are freed, the parent may go on, the file system is as
    it was, and no page of anyone else changes.  If the process starts, the
    file that its first word names is a valid executable; every byte of every
    loadable segment is in its address space, as in the file or zero, with the
    protection of the segment; the registers are those of a user process at
    the entry point; and the stack has a null return address, [argc], and
    [argv] with pointers to the words of the command line, up to the first
    3579 characters of it, and a null pointer at its end.  The stack pointer is
    a multiple of four only for command lines of odd length. *)
Theorem program_starts {St} `{PagePools St} {F} `{FileSystem F} (p : process St F) S m params cmd :
  vm_ok (machine p) S → fs_holds (disk p) m → unmapped (machine p) S params → Forall (λ c, 0 < c < 256) cmd → fits cmd →
  ∃ r p', run_command params cmd p = Ok (r, p')
    ∧ load_sema p' = load_sema p + 1 ∧ fs_holds (disk p') m ∧ ¬ pp_used (pages (machine p')) params
    ∧ (∀ q, pp_used (pages (machine p)) q → q ≠ params →
         pp_used (pages (machine p')) q ∧ same_on q (mem (machine p)) (mem (machine p')))
    ∧ match r with
      | None => ∃ S', vm_ok (machine p') S'
      | Some fr => ∃ pd f c, S !! pd = None ∧ pagedir p' = pd ∧ active (machine p') = pd ∧ vm_ok (machine p') (<[pd := f]> S)
          ∧ m !! word_of (kept cmd) = Some c ∧ ready_to_run (machine p') pd c cmd fr
      end.
Proof. intros Hv Hfs Hum Hcmd Hfit. apply wp_Ok. by apply run_command_ok. Qed.

Lemma program_starts_witness :
  (∃ r p', small_run = Ok (r, p') ∧ load_sema p' = 1)
  ∧ match small_run with
    | Ok (Some fr, p') => f_eip fr = 134512724 ∧ f_esp fr = 3221225442
        ∧ user_string 10 (mem (machine p')) (pagedir p') 3221225469 = Some [98; 99]
    | _ => False
    end.
Proof.
  split; [|vm_compute; done].
  destruct (@program_starts Palloc.palloc small_pools ram_disk ram_files new_thread one_process small_disk user_frame.1 small_cmd
    new_thread_ok small_disk_ok user_frame_unmapped small_cmd_ok small_fits) as (r & p' & Hrun & Hs & _).
  exists r, p'. split; [exact Hrun | exact Hs].
Defined.

(** C18: A process leaves nothing behind.  Whether a program can be loaded or
    not, and whichever step fails, when the process exits its page directory,
    its page tables and its pages are free again: exactly the pages that were
    in use before are in use, with the contents that they had, the address
    spaces of the others are intact, and the page directory that is active is
    not one that has been freed. *)
Theorem exit_returns_memory {St} `{PagePools St} {F} `{FileSystem F} (p : process St F) S m params len g :
  vm_ok (machine p) S → fs_holds (disk p) m → params_at (machine p) S params len g → 0 ≤ esp_ofs g len →
  ∃ r p1 p2, load params p = Ok (r, p1) ∧ process_exit p1 = Ok (tt, p2)
    ∧ pagedir p2 = NULL ∧ fs_holds (disk p2) m ∧ vm_ok (machine p2) S
    ∧ (∀ q, pp_used (pages (machine p2)) q ↔ pp_used (pages (machine p)) q)
    ∧ ∀ q, pp_used (pages (machine p)) q → same_on q (mem (machine p)) (mem (machine p2)).
Proof.
  intros Hv Hfs Hpar Hfit. pose proof (load_exit_ok p S m params len g Hv Hfs Hpar Hfit) as Hw.
  apply wp_Ok in Hw as (r & p1 & Hload & Hw). apply wp_Ok in Hw as ([] & p2 & Hexit & Hpost). by exists r, p1, p2.
Qed.

(** The parameters of the command line [a bc]. *)
Definition params_vm : vm Palloc.palloc := of_run user_frame.2 (@make_params Palloc.palloc user_frame.1 small_cmd user_frame.2).
Lemma params_run : @make_params Palloc.palloc user_frame.1 small_cmd user_frame.2 = Ok (tt, params_vm).
Proof. unfold params_vm. apply of_run_Ok. vm_compute. done. Qed.
#[local] Opaque params_vm.
Definition loader : process Palloc.palloc ram_disk := mk_process params_vm (small_disk, None) 3221282816 0 2 ∅ 0 0.

Lemma loader_params :
  @vm_ok Palloc.palloc small_pools (machine loader) one_process
  ∧ @params_at Palloc.palloc small_pools (machine loader) one_process user_frame.1 (kept_len small_cmd) (cmd_char small_cmd).
Proof.
  exact (@params_made Palloc.palloc small_pools _ _ _ _ _ new_thread_ok user_frame_unmapped small_cmd_ok params_run).
Qed.

Lemma exit_returns_memory_witness :
  ∃ r p1 p2, @load Palloc.palloc small_pools ram_disk ram_files user_frame.1 loader = Ok (r, p1)
    ∧ @process_exit Palloc.palloc small_pools ram_disk p1 = Ok (tt, p2) ∧ pagedir p2 = NULL.
Proof.
  destruct (@exit_returns_memory Palloc.palloc small_pools ram_disk ram_files loader one_process small_disk user_frame.1
    (kept_len small_cmd) (cmd_char small_cmd) (proj1 loader_params) small_disk_ok (proj2 loader_params) small_fits)
    as (r & p1 & p2 & Hload & Hexit & Hpd & _).
  exists r, p1, p2. split; [exact Hload | split; [exact Hexit | exact Hpd]].
Defined.

(** C19: Arguments that do not fit in the stack page halt the machine: when
    the strings, the padding, the pointers and the frame need more than 4096
    bytes and no segment of the program is below the stack page,
    [setup_stack] writes below it, which is a page fault in the kernel. *)
Theorem long_arguments_fault {St} `{PagePools St} (v : vm St) S f kpage params len g :
  vm_ok v S → S !! active v = Some f → f 786431 = user_pte kpage true → plain v S kpage → ¬ present (f 786430) →
  params_at v S params len g → params ≠ kpage → esp_ofs g len < 0 →
  push_arguments params v = Err Fault.
Proof.
  intros Hv E Hf Hk Hbelow (Hpl & Hlen & Hr & Hg0 & Hg) Hne Hneg.
  assert (∀ i, 0 ≤ i ≤ len → g i = cs v params i) as Hcs by (intros i Hi; symmetry; by apply Hg).
  assert (esp_ofs g len = esp_ofs (cs v params) len) as Hesp by (unfold esp_ofs, argv_ofs; by rewrite (arg_starts_ext g (cs v params))).
  pose proof (push_arguments_ok v S f kpage Hv E Hf Hk True (λ _, Hbelow) params len Hr Hlen) as Hw. unfold wpf in Hw.
  destruct (push_arguments params v) as [[esp s]|e].
  - destruct Hw as (m & _ & (Hpos & _) & _); [|by rewrite <- Hcs by lia | done | lia].
    intros i Hi. apply (params_far v S); try done; [by apply (used_ram_page v S), Hk | lia].
  - destruct Hw as [_ ->]; [|by rewrite <- Hcs by lia | done | done].
    intros i Hi. apply (params_far v S); try done; [by apply (used_ram_page v S), Hk | lia].
Qed.

(** A stack page for [pd], and the parameters of a long command line. *)
Section long.
Context {St : Type} `{PagePools St}.
Definition long_setup (pd params : Z) (cmd : list Z) : M (vm St) bool :=
  k ← palloc_get_page Palloc.PAL_USER;
  if k =? NULL then mret false else
  ok ← pagedir_set_page pd (PHYS_BASE - 4096) k true;
  if negb ok then mret false else
  pagedir_activate pd ;; make_params params cmd ;; mret true.

Definition overfull (v : vm St) (params : Z) : Prop :=
  ∃ S f kpage len g, vm_ok v S ∧ S !! active v = Some f ∧ f 786431 = user_pte kpage true ∧ plain v S kpage
    ∧ ¬ present (f 786430) ∧ params_at v S params len g ∧ params ≠ kpage ∧ esp_ofs g len < 0.

Lemma long_setup_ok v S pd params cmd :
  vm_ok v (<[pd := λ _, 0]> S) → pd ≠ init_page_dir v → unmapped v (<[pd := λ _, 0]> S) params →
  Forall (λ c, 0 < c < 256) cmd → ¬ fits cmd →
  wp (long_setup pd params cmd) (λ b v', b = true → overfull v' params) v.
Proof.
  intros Hv Hni Hum Hcmd Hfit. set (S0 := <[pd := λ _, 0]> S) in *. assert (S0 !! pd = Some (λ _, 0)) as E by apply lookup_insert_eq.
  unfold long_setup. apply wp_bind. eapply wp_mono; [by apply (alloc_ok v S0 pd)|]. intros k v1 (Hv1 & Hl1 & _ & Hk).
  destruct (Z.eqb_spec k NULL) as [->|Hkn]; [by apply wp_ret|]. destruct (Hk Hkn) as (Hkm & Hku & _).
  pose proof Hl1 as [(Hi1 & _) _]. pose proof (used_ram_page v1 S0 k Hv1 (proj1 Hkm)) as Hkr.
  apply wp_bind. eapply wp_mono; [apply (pagedir_set_page_ok v1 S0 pd (λ _, 0)); try done; congruence|].
  intros [] v2 (Hx2 & Hg2 & Hv2); [|by apply wp_ret]. cbn [negb]. change ((PHYS_BASE - 4096) / 4096) with 786431 in Hv2.
  set (f := upd (λ _, 0) 786431 (user_pte k true)) in *. unfold S0 in Hv2. rewrite insert_insert_eq in Hv2.
  assert ((<[pd := f]> S) !! pd = Some f) as E2 by apply lookup_insert_eq.
  destruct (pd_page v2 _ pd f (proj1 Hv2) E2) as (Hpos & _).
  apply wp_bind. destruct (proj1 (wp_Ok _ _ _) (pagedir_activate_ok v2 _ pd Hv2 (or_intror (ex_intro _ f E2)))) as ([] & v3 & Hrun & Hv3 & _ & Hm3 & Hp3 & Ha3).
  rewrite (proj2 (Z.eqb_neq pd NULL)) in Ha3 by (unfold NULL, PHYS_BASE in *; lia). eapply wp_eq; [exact Hrun|].
  assert (params ≠ k) as Hne by (intros ->; apply Hku, Hum).
  assert (plain v3 (<[pd := f]> S) params) as Hpl3.
  { apply (plain_same v2); [done | done|]. pose proof (plain_later S0 pd v v2 params (later_trans _ _ _ _ _ _ E Hl1 (conj Hx2 Hg2)) (unmapped_plain _ _ _ Hum)) as [Hu Hno].
    split; [done|]. intros pd' f' E' Hq. destruct (decide (pd' = pd)) as [->|Hnd]; [by apply (Hno pd (λ _, 0))|].
    rewrite lookup_insert_ne in E' by done. apply (Hno pd' f'); [|done]. unfold S0. by rewrite lookup_insert_ne. }
  destruct (proj1 (wp_Ok _ _ _) (make_params_ok v3 _ params cmd Hv3 Hpl3 Hcmd)) as ([] & v4 & Hrun4 & Hv4 & [Hp4 Hc4] & Ho4 & Hpar).
  apply wp_bind. eapply wp_eq; [exact Hrun4|]. apply wp_ret. intros _.
  assert (active v4 = pd) as Ha4 by (rewrite <- Ha3; unfold active; by rewrite Hc4).
  exists (<[pd := f]> S), f, k, (kept_len cmd), (cmd_char cmd). rewrite Ha4. split_and!; try done; [| by unfold fits in Hfit; lia].
  by apply (mapped_plain v4 (<[pd := f]> S) pd f 786431 k true).
Qed.
End long.

Definition long_cmd : list Z := concat (replicate 800 [97; 32]).
Definition long_vm : vm Palloc.palloc :=
  (result (false, user_frame.2) (@long_setup Palloc.palloc small_pools first_dir.1 user_frame.1 long_cmd user_frame.2)).2.
Lemma long_cmd_ok : Forall (λ c, 0 < c < 256) long_cmd ∧ ¬ fits long_cmd.
Proof.
  split; [|vm_compute; intros Hf; by apply Hf].
  apply Forall_concat, Forall_replicate. repeat constructor; lia.
Qed.
Lemma long_run : match @long_setup Palloc.palloc small_pools first_dir.1 user_frame.1 long_cmd user_frame.2 with
  | Ok (true, _) => true | _ => false end = true.
Proof. vm_compute. done. Qed.
Lemma long_overfull : @overfull Palloc.palloc small_pools long_vm user_frame.1.
Proof.
  pose proof (@long_setup_ok Palloc.palloc small_pools user_frame.2 {[init_page_dir booted := λ _, 0]} first_dir.1 user_frame.1 long_cmd
    new_thread_ok dir_not_init user_frame_unmapped (proj1 long_cmd_ok) (proj2 long_cmd_ok)) as Hw.
  pose proof long_run as Hrun. unfold long_vm. revert Hw Hrun. unfold wp.
  destruct (@long_setup Palloc.palloc small_pools first_dir.1 user_frame.1 long_cmd user_frame.2) as [[[] v]|]; [|done..].
  intros Hw _. by apply Hw.
Qed.

Lemma long_arguments_fault_witness : @push_arguments Palloc.palloc user_frame.1 long_vm = Err Fault.
Proof.
  destruct long_overfull as (S & f & kpage & len & g & Hv & E & Hf & Hk & Hb & Hp & Hne & Hneg).
  exact (@long_arguments_fault Palloc.palloc small_pools long_vm S f kpage user_frame.1 len g Hv E Hf Hk Hb Hp Hne Hneg).
Defined.
End ProcessProps.
