(* ===== verification/ProcessFiles.v ===== *)
(** * The file system that programs are loaded from

    filesys/ implements the interface that userprog/process.c is proved
    against. *)
From stdpp Require Import base gmap list list_numbers.
From Stdlib Require Import ZArith Lia.
From S2P Require Import Prelude Vaddr Bitmap Memory Pagedir Block Filesys FileIO FreeMap Directory FilesysInv FilesysOps.
From S2P Require Import FilesysProps Process.

Module ProcessFiles.
Import Filesys FileIO FreeMap Directory FilesysInv FilesysOps FilesysProps.

Section files.
Context {D : Type} `{BlockDevices D}.
Context (malloc_ok : Z → bool) (Hmem : ∀ a, malloc_ok a = true).
Context (stack_bytes : list Z) (Hstack : List.length stack_bytes = 20%nat ∧ Forall (λ c, 0 ≤ c < 256) stack_bytes).
Implicit Types f g : fs D.

(** The file [b] is open, at the position [pos]. *)
Definition open_at f (fi ff : Z) (md : inode_disk) (j b pos : Z) (x : inode) : Prop :=
  inodes f = <[j := x]> {[ fi := map_inode md ]} ∧ open_inodes f = [j; fi]
  ∧ files f = <[b := mk_file j pos false]> {[ ff := mk_file fi 0 false ]} ∧ dirs f = ∅ ∧ free_map_file f = ff
  ∧ 0 < fi < next f ∧ 0 < ff < next f ∧ 0 < j < next f ∧ 0 < b < next f ∧ j ≠ fi ∧ b ≠ ff.

(** The file [nm] is the only one that is open. *)
Definition named_file f (m : gmap (list Z) (list Z)) (h : Z) (nm : list Z) (pos : Z) : Prop :=
  ∃ fm N md rd T fi ff j s d, free_map f = Some fm ∧ stored f fm N md rd T m ∧ T !! nm = Some s ∧ N !! s = Some d
    ∧ open_at f fi ff md j h pos (mk_inode s 1 false 0 d) ∧ 0 ≤ pos < 2^31.

Lemma open_at_close f fi ff md j b pos x :
  dev_ok f → open_at f fi ff md j b pos x → open_cnt x = 1 → removed x = false →
  wp (Filesys.file_close malloc_ok b) (λ _ g, quiet f g ∧ at_rest g fi ff md) f.
Proof.
  intros Hd (Hi & Ho & Hf & Hds & Hm & Hfi & Hff & Hj & Hb & Hjf & Hbf) Hoc Hrm. unfold Filesys.file_close.
  assert (get_file b f = Ok (mk_file j pos false, f)) as Hget by (unfold get_file; by rewrite Hf, lookup_insert_eq).
  destruct (Z.eqb_spec b NULL) as [->|Hnb]; [unfold NULL in Hb; lia|].
  apply wp_bind. unfold file_allow_write. apply wp_bind, wp_ASSERT; [unfold NULL in *; lia|].
  apply wp_bind. eapply wp_eq; [exact Hget|]. simpl. apply wp_ret. apply wp_bind. eapply wp_eq; [exact Hget|].
  apply wp_bind. eapply wp_eq.
  { apply (inode_close_ok malloc_ok f j x); try done; [lia|]. by rewrite Hi, lookup_insert_eq. }
  apply wp_modify. split; [by apply quiet_mem|]. unfold at_rest. simpl. rewrite Hi, Ho, Hf, Hds, Hm.
  rewrite !delete_insert_id by (by rewrite lookup_singleton_ne).
  rewrite filter_cons_False by (intros ?; done). rewrite filter_cons_True by done. split_and!; try done; lia.
Qed.

Lemma named_facts f m h nm pos :
  named_file f m h nm pos → ∃ fm N md rd T fi ff j s d, free_map f = Some fm ∧ stored f fm N md rd T m ∧ T !! nm = Some s ∧ N !! s = Some d
    ∧ open_at f fi ff md j h pos (mk_inode s 1 false 0 d) ∧ 0 ≤ pos < 2^31 ∧ m !! nm = Some (content f (mk_inode s 1 false 0 d))
    ∧ get_file h f = Ok (mk_file j pos false, f) ∧ inodes f !! j = Some (mk_inode s 1 false 0 d)
    ∧ inode_ok f (mk_inode s 1 false 0 d) ∧ dev_ok f ∧ 0 < next f ∧ 0 < h.
Proof.
  intros (fm & N & md & rd & T & fi & ff & j & s & d & Hfm & Hs & HT & Hd & Ho & Hpos).
  exists fm, N, md, rd, T, fi, ff, j, s, d. pose proof Ho as (Hi & _ & Hf & _ & _ & ? & ? & ? & ? & _). pose proof Hs as (_ & _ & Hv).
  split_and!; try done; try lia.
  - rewrite Hv, HT. simpl. by rewrite Hd.
  - unfold get_file. by rewrite Hf, lookup_insert_eq.
  - by rewrite Hi, lookup_insert_eq.
  - by eapply node_inode.
  - apply Hs.
Qed.

(** The position is moved, and the contents may have changed. *)
Lemma named_moved f g fm N md rd T m fi ff j s d h nm pos pos' :
  open_at f fi ff md j h pos (mk_inode s 1 false 0 d) → frame f g → free_map f = Some fm →
  stored g fm N md rd T m → T !! nm = Some s → N !! s = Some d → 0 ≤ pos' < 2^31 →
  named_file (set_files (<[h := mk_file j pos' false]> (files g)) g) m h nm pos'.
Proof.
  intros (Hi & Ho & Hf & Hds & Hm & Hfi & Hff & Hj & Hb & Hjf & Hbf) Hfr Hfm Hs HT Hd Hpos.
  destruct (frame_mem _ _ Hfr) as [Hmm Hfm']. destruct Hfr as (_ & _ & Hn & _).
  unfold mem in Hmm. injection Hmm as _ Hmi Hmo Hmf Hmds Hmff.
  exists fm, N, md, rd, T, fi, ff, j, s, d. split_and!; try done; try lia.
  - simpl. congruence.
  - unfold open_at. simpl. rewrite Hmi, Hmo, Hmf, Hmds, Hmff, Hi, Ho, Hf, Hds, Hm, insert_insert_eq. split_and!; (done || lia).
Qed.

Ltac named H := destruct (named_facts _ _ _ _ _ H)
  as (fm & N & md & rd & T & fi & ff & j & s & d & Hfm & Hs & HT & Hd & Ho & Hpos & Hc & Hget & Hj & Hx & Hdev & Hnx & Hh).

Lemma close_named f m h nm pos : named_file f m h nm pos → wp (Filesys.file_close malloc_ok h) (λ _ g, holds g m) f.
Proof.
  intros Hn. named Hn. eapply wp_mono; [by apply (open_at_close f fi ff md j h pos (mk_inode s 1 false 0 d))|].
  intros _ g [Hq Hat]. by apply (holds_intro f g fm N md rd T m fi ff).
Qed.

Lemma open_named f m nm :
  holds f m →
  wp (Filesys.filesys_open malloc_ok stack_bytes nm)
    (λ h g, match m !! nm with Some _ => named_file g m h nm 0 | None => h = 0 ∧ holds g m end) f.
Proof.
  intros (fm & N & md & rd & T & fi & ff & Hfm & Hs & Hrest). pose proof Hs as (_ & Htree & Hv).
  eapply wp_mono; [by apply (FilesysOps.filesys_open_ok malloc_ok Hmem stack_bytes Hstack f fm N md rd T m fi ff)|].
  intros h g [Hq Hr]. rewrite Hv. destruct (T !! nm) as [s|] eqn:HT; simpl.
  - destruct Hr as (j & d & Hd & Hw). rewrite Hd. simpl.
    exists fm, N, md, rd, T, fi, ff, j, s, d. split_and!; try done; [by destruct Hq as (_ & _ & _ & -> & _) | by eapply stored_quiet].
  - destruct Hr as [-> Hat]. split; [done|]. by apply (holds_intro f g fm N md rd T m fi ff).
Qed.

(** [file_read] into a buffer of [n] bytes: the bytes that it has filled. *)
Definition read_bytes (h n : Z) : M (fs D) (list Z) :=
  r ← Filesys.file_read malloc_ok h (replicate (Z.to_nat n) 0) n; mret (take (Z.to_nat r.1) r.2).

Lemma file_read_named f m h nm c pos n :
  named_file f m h nm pos → m !! nm = Some c → 0 ≤ n < 2^31 →
  wp (Filesys.file_read malloc_ok h (replicate (Z.to_nat n) 0) n) (λ r g, take (Z.to_nat r.1) r.2 = read_spec c n pos
    ∧ r.1 = Z.of_nat (List.length (read_spec c n pos)) ∧ named_file g m h nm (pos + r.1)) f.
Proof.
  intros Hof Hcm Hn. named Hof. rewrite Hc in Hcm. injection Hcm as <-.
  set (x := mk_inode s 1 false 0 d) in *. unfold Filesys.file_read. apply wp_bind. eapply wp_eq; [exact Hget|].
  apply wp_bind. eapply wp_mono; [by apply (read_all malloc_ok Hmem f 0 (mk_file j pos false) x)|].
  intros r g (Hf & Hp & Hr & Hl). cbn [f_pos] in Hr, Hl. destruct (read_spec_bytes f x n pos) as [_ Hl']; [apply Hx | lia | lia |].
  apply wp_bind. eapply wp_eq; [unfold get_file; rewrite (files_frame _ _ Hf); by destruct Ho as (_ & _ & -> & _); rewrite lookup_insert_eq|].
  apply wp_bind, wp_modify, wp_ret. split_and!; [done | done|].
  assert (0 ≤ pos + r.1 < 2^31) as Hrange.
  { destruct Hx as (_ & ? & _). rewrite Hl, Hl'. unfold avail. lia. }
  unfold set_f_pos. simpl. rewrite s32_small by lia.
  apply (named_moved f g fm N md rd T m fi ff j s d h nm pos); try done. eapply stored_quiet; [exact Hs | by apply quiet_frame].
Qed.
Lemma read_named f m h nm c pos n :
  named_file f m h nm pos → m !! nm = Some c → 0 ≤ n < 2^31 →
  wp (read_bytes h n) (λ bs g, bs = read_spec c n pos ∧ named_file g m h nm (pos + Z.of_nat (List.length bs))) f.
Proof.
  intros Hof Hcm Hn. unfold read_bytes. apply wp_bind. eapply wp_mono; [by apply (file_read_named f m h nm c)|].
  intros r g (Hr & Hl & Hg). apply wp_ret. rewrite Hr, <- Hl. done.
Qed.

Lemma write_named f m h nm c pos bs :
  named_file f m h nm pos → m !! nm = Some c → Z.of_nat (List.length bs) < 2^31 → Forall (λ c, 0 ≤ c < 256) bs →
  wp (Filesys.file_write malloc_ok h bs (Z.of_nat (List.length bs)))
    (λ k g, k = write_len c bs pos ∧ named_file g (<[nm := write_spec c bs pos]> m) h nm (pos + k)) f.
Proof.
  intros Hof Hcm Hn Hbs. named Hof. rewrite Hc in Hcm. injection Hcm as <-.
  set (x := mk_inode s 1 false 0 d) in *. unfold Filesys.file_write. apply wp_bind. eapply wp_eq; [exact Hget|]. apply wp_bind.
  eapply wp_mono; [apply (inode_write_at_ok malloc_ok f j x); (done || lia)|]. intros k f2 (Hf2 & Hk & Hp2 & Hall). cbn [f_pos] in *.
  assert (k = avail x (Z.of_nat (List.length bs)) pos) as ->.
  { destruct (decide (k < avail x (Z.of_nat (List.length bs)) pos)) as [Hlt|]; [|lia].
    destruct (Hall Hlt Hnx) as (c & _ & Hc'). by rewrite Hmem in Hc'. }
  destruct (write_spec_bytes f f2 x bs pos) as [Hspec Hlen]; [done | done | lia | done |]. rewrite Hspec, <- Hlen.
  apply wp_bind. eapply wp_eq; [unfold get_file; rewrite (files_frame _ _ Hf2); by destruct Ho as (_ & _ & -> & _); rewrite lookup_insert_eq|].
  assert (0 ≤ pos + write_len (content f x) bs pos < 2^31) as Hrange.
  { destruct Hx as (_ & ? & _). rewrite Hlen. unfold avail. lia. }
  apply wp_bind, wp_modify, wp_ret. split; [done|]. unfold set_f_pos. simpl. rewrite s32_small by lia.
  apply (named_moved f f2 fm N md rd T _ fi ff j s d h nm pos); try done.
  change (content f2 x) with (contents f2 d). apply (stored_write f f2 fm N md rd T m nm s d); try done; [apply Hf2 | by apply size_frame|].
  apply only_patched in Hp2. eapply only_mono; [|exact Hp2]. unfold in_data, avail. simpl. intros p. rewrite length_take. lia.
Qed.

Lemma seek_named f m h nm pos q :
  named_file f m h nm pos → 0 ≤ q < 2^31 → wp (Filesys.file_seek h q) (λ _ g, named_file g m h nm q) f.
Proof.
  intros Hof Hq. named Hof.
  unfold Filesys.file_seek. apply wp_bind, wp_ASSERT; [unfold NULL; lia|]. apply wp_bind, wp_ASSERT; [lia|].
  apply wp_bind. eapply wp_eq; [exact Hget|]. apply wp_modify.
  apply (named_moved f f fm N md rd T m fi ff j s d h nm pos); try done. by apply frame_refl.
Qed.

Lemma tell_named f m h nm pos :
  named_file f m h nm pos → wp (Filesys.file_tell h) (λ n g, n = pos ∧ named_file g m h nm pos) f.
Proof.
  intros Hof. named Hof. unfold Filesys.file_tell. apply wp_bind, wp_ASSERT; [unfold NULL; lia|].
  apply wp_bind. eapply wp_eq; [exact Hget|]. by apply wp_ret.
Qed.

Lemma length_named f m h nm c pos :
  named_file f m h nm pos → m !! nm = Some c →
  wp (Filesys.file_length h) (λ n g, n = Z.of_nat (List.length c) ∧ named_file g m h nm pos) f.
Proof.
  intros Hof Hcm. named Hof. rewrite Hc in Hcm. injection Hcm as <-.
  unfold Filesys.file_length. apply wp_bind, wp_ASSERT; [unfold NULL; lia|]. apply wp_bind. eapply wp_eq; [exact Hget|].
  unfold inode_length. apply wp_bind. eapply wp_eq; [unfold get_inode; simpl; by rewrite Hj|]. apply wp_ret. split; [|done].
  unfold content. rewrite bytes_length. destruct Hx as (_ & ? & _). simpl in *. lia.
Qed.

Lemma named_bytes f m h nm pos :
  named_file f m h nm pos → h ≠ 0 ∧ 0 ≤ pos < 2^31
  ∧ ∃ c, m !! nm = Some c ∧ Z.of_nat (List.length c) < 2^31 ∧ Forall (λ b, 0 ≤ b < 256) c.
Proof.
  intros Hof. named Hof. split_and!; [lia | lia | lia|]. eexists. split; [exact Hc|]. split; [|by apply bytes_range].
  unfold content. rewrite bytes_length. destruct Hx as (_ & ? & _). simpl in *. lia.
Qed.

(** ** The file system that programs are loaded from *)

Definition open_file f (m : gmap (list Z) (list Z)) (h : Z) (c : list Z) (pos : Z) : Prop :=
  ∃ nm, m !! nm = Some c ∧ named_file f m h nm pos.

Lemma open_file_ok f m nm :
  holds f m →
  wp (Filesys.filesys_open malloc_ok stack_bytes nm)
    (λ h g, (h = 0 ∧ holds g m) ∨ ∃ c, m !! nm = Some c ∧ h ≠ 0 ∧ open_file g m h c 0) f.
Proof.
  intros Hh. eapply wp_mono; [by apply open_named|]. intros h g Hr. destruct (m !! nm) as [c|] eqn:E; [|by left].
  right. exists c. destruct (named_bytes _ _ _ _ _ Hr) as (? & _). split_and!; [done | done | by exists nm].
Qed.
Lemma close_file_ok f m h c pos : open_file f m h c pos → wp (Filesys.file_close malloc_ok h) (λ _ g, holds g m) f.
Proof. intros (nm & _ & Hn). by eapply close_named. Qed.
Lemma read_file_at_ok f m h c pos n :
  open_file f m h c pos → 0 ≤ n < 2^31 →
  wp (read_bytes h n) (λ bs g, open_file g m h c (pos + Z.of_nat (List.length bs))
    ∧ bs `prefix_of` take (Z.to_nat n) (drop (Z.to_nat pos) c)) f.
Proof.
  intros (nm & Hc & Hnm) Hn. eapply wp_mono; [by apply read_named|]. intros bs g [-> Hg]. split; [by exists nm | done].
Qed.
Lemma seek_file_ok f m h c pos q : open_file f m h c pos → 0 ≤ q < 2^31 → wp (Filesys.file_seek h q) (λ _ g, open_file g m h c q) f.
Proof. intros (nm & Hc & Hnm) Hq. eapply wp_mono; [by eapply seek_named|]. intros [] g Hg. by exists nm. Qed.
Lemma length_file_ok f m h c pos :
  open_file f m h c pos → wp (Filesys.file_length h) (λ n g, open_file g m h c pos ∧ n = Z.of_nat (List.length c)) f.
Proof. intros (nm & Hc & Hnm). eapply wp_mono; [by eapply length_named|]. intros n g [-> Hg]. split; [by exists nm | done]. Qed.
Lemma file_bytes f m h c pos : open_file f m h c pos → Forall (λ b, 0 ≤ b < 256) c ∧ Z.of_nat (List.length c) < 2^31.
Proof. intros (nm & Hc & Hnm). destruct (named_bytes _ _ _ _ _ Hnm) as (_ & _ & c' & Hc' & ? & ?). rewrite Hc in Hc'. by injection Hc' as <-. Qed.

Definition program_files : FileSystem (fs D) :=
  Build_FileSystem (fs D) holds open_file (Filesys.filesys_open malloc_ok stack_bytes) (Filesys.file_close malloc_ok)
    read_bytes Filesys.file_seek Filesys.file_length open_file_ok (λ s, eq_refl) close_file_ok read_file_at_ok seek_file_ok
    length_file_ok file_bytes.
End files.
End ProcessFiles.
