(* ===== verification/Syscall.v ===== *)
(** * System calls: userprog/syscall.c

    The handler of interrupt 0x30: it fetches the arguments of a system call
    from the user stack, copies strings and buffers into the kernel, performs
    the call and stores the result for the process. *)
From stdpp Require Import base gmap list list_numbers.
From Stdlib Require Import ZArith Lia.
From S2P Require Import Prelude Vaddr Bitmap Palloc Memory Pagedir PagedirInv PagedirOps PagedirProps Process.

(** What syscall.c calls of filesys/, besides what process.c does.
    [file_write h bs n]: the buffer holds [bytes]; [n] is the size that the
    caller gives. *)
Class SystemFiles (F : Type) := {
  file_write : Z → list Z → Z → M F Z;
  file_tell : Z → M F Z;
  filesys_create : list Z → Z → M F bool;
  filesys_remove : list Z → M F bool
}.

Module Syscall.
Import Vaddr Memory Pagedir PagedirProps Process.

(** ** Calls that do not come back

    The process exits, or the machine is switched off. *)
Inductive outcome (A : Type) :=
  | Returns (a : A)
  | Exits
  | PowersOff.
Arguments Returns {A}. Arguments Exits {A}. Arguments PowersOff {A}.

Definition ebind {S A B} (m : M S (outcome A)) (k : A → M S (outcome B)) : M S (outcome B) :=
  o ← m;
  match o with
  | Returns a => k a
  | Exits => mret Exits
  | PowersOff => mret PowersOff
  end.
Definition ret {S A} (a : A) : M S (outcome A) := mret (Returns a).
Declare Scope call_scope.
Notation "x ⇐ m ; k" := (ebind m (λ x, k)) (at level 20, m at level 100, k at level 200, only parsing) : call_scope.
Notation "m ;; ; k" := (ebind m (λ _, k)) (at level 100, k at level 200, only parsing) : call_scope.
Open Scope call_scope.

(** ** Constants *)

(** lib/syscall-nr.h *)
Definition SYS_HALT : Z := 0.
Definition SYS_EXIT : Z := 1.
Definition SYS_EXEC : Z := 2.
Definition SYS_WAIT : Z := 3.
Definition SYS_CREATE : Z := 4.
Definition SYS_REMOVE : Z := 5.
Definition SYS_OPEN : Z := 6.
Definition SYS_FILESIZE : Z := 7.
Definition SYS_READ : Z := 8.
Definition SYS_WRITE : Z := 9.
Definition SYS_SEEK : Z := 10.
Definition SYS_TELL : Z := 11.
Definition SYS_CLOSE : Z := 12.
Definition STDIN_FILENO : Z := 0.
Definition STDOUT_FILENO : Z := 1.

(** The lowest address that a process may use: 0x08048000. *)
Definition USER_BASE : Z := 134512640.

(** ** State

    What the calls use of a child of the process; [struct thread]. *)
Record child := mk_child {
  load_succeeded : bool;
  c_load_sema : Z;
  c_wait_sema : Z;
  c_destroy_sema : Z;
  c_exit_status : Z
}.

(** What has been printed: the buffers of [write], and the message of
    [exit]. *)
Inductive output :=
  | Printed (bs : list Z)
  | Exited (name : list Z) (status : Z).

(** The running process, its children, the characters that have been typed,
    and the lock of the file system. *)
Record task (St F : Type) := mk_task {
  proc : process St F;
  child_list : list Z;
  children : gmap Z child;
  name : list Z;
  exit_status : Z;
  file_lock : option Z;
  input : list Z;
  console : list output
}.
Arguments mk_task {St F}. Arguments proc {St F}. Arguments child_list {St F}. Arguments children {St F}.
Arguments name {St F}. Arguments exit_status {St F}. Arguments file_lock {St F}. Arguments input {St F}.
Arguments console {St F}.

(** The blocks that the handler has got from [malloc] are beside the task. *)
Record sys (St F : Type) := mk_sys {
  tsk : task St F;
  heap : gmap Z (list Z);
  next_block : Z
}.
Arguments mk_sys {St F}. Arguments tsk {St F}. Arguments heap {St F}. Arguments next_block {St F}.

Section syscall.
Context {St : Type} `{PagePools St} {F : Type} `{FileSystem F} `{SystemFiles F}.
Local Notation task := (task St F).
Local Notation sys := (sys St F).
(** [thread_create] of threads/thread.c, and whether [malloc] finds memory
    for a block of a given size. *)
Context (thread_create : list Z → Z → M task Z).
Context (malloc_ok : Z → Z → bool).

Definition set_proc (p : process St F) (k : task) : task :=
  mk_task p (child_list k) (children k) (name k) (exit_status k) (file_lock k) (input k) (console k).
Definition set_child_list (l : list Z) (k : task) : task :=
  mk_task (proc k) l (children k) (name k) (exit_status k) (file_lock k) (input k) (console k).
Definition set_children (c : gmap Z child) (k : task) : task :=
  mk_task (proc k) (child_list k) c (name k) (exit_status k) (file_lock k) (input k) (console k).
Definition set_exit_status (x : Z) (k : task) : task :=
  mk_task (proc k) (child_list k) (children k) (name k) x (file_lock k) (input k) (console k).
Definition set_file_lock (l : option Z) (k : task) : task :=
  mk_task (proc k) (child_list k) (children k) (name k) (exit_status k) l (input k) (console k).
Definition set_input (i : list Z) (k : task) : task :=
  mk_task (proc k) (child_list k) (children k) (name k) (exit_status k) (file_lock k) i (console k).
Definition set_console (c : list output) (k : task) : task :=
  mk_task (proc k) (child_list k) (children k) (name k) (exit_status k) (file_lock k) (input k) c.
Definition set_tsk (k : task) (s : sys) : sys := mk_sys k (heap s) (next_block s).
Definition set_heap (h : gmap Z (list Z)) (s : sys) : sys := mk_sys (tsk s) h (next_block s).

Definition on_proc {A} : M (process St F) A → M task A := zoom proc set_proc.
Definition on_task {A} : M task A → M sys A := zoom tsk set_tsk.

(** ** The calls *)

Definition halt {A} : M task (outcome A) := mret PowersOff.

(** [thread_exit] calls [process_exit]; the thread never runs again. *)
Definition exit {A} (status : Z) : M task (outcome A) :=
  modify (set_exit_status status) ;;
  modify (λ k, set_console (console k ++ [Exited (name k) status]) k) ;;
  on_proc process_exit ;;
  mret Exits.

Definition thread_get_child (tid : Z) : M task (option child) :=
  gets (λ k, if bool_decide (tid ∈ child_list k) then children k !! tid else None).

(** [sema_down] on a semaphore of the child [tid]: with the value 0 the
    process sleeps until the child has called [sema_up]. *)
Definition child_down (tid : Z) (sema : child → Z) (down : child → child) : M task unit :=
  o ← gets (λ k, children k !! tid);
  c ← of_option Fault o;
  if sema c =? 0 then fail Sleep else modify (λ k, set_children (<[tid := down c]> (children k)) k).
Definition load_down (c : child) : child :=
  mk_child (load_succeeded c) (c_load_sema c - 1) (c_wait_sema c) (c_destroy_sema c) (c_exit_status c).
Definition wait_down (c : child) : child :=
  mk_child (load_succeeded c) (c_load_sema c) (c_wait_sema c - 1) (c_destroy_sema c) (c_exit_status c).
Definition destroy_up (c : child) : child :=
  mk_child (load_succeeded c) (c_load_sema c) (c_wait_sema c) (c_destroy_sema c + 1) (c_exit_status c).

Definition exec (file : list Z) : M task Z :=
  tid ← process_execute proc set_proc thread_create file;
  if tid =? TID_ERROR then mret TID_ERROR else
  o ← thread_get_child tid;
  ASSERT (bool_decide (is_Some o)) ;;
  child_down tid c_load_sema load_down ;;
  o ← gets (λ k, children k !! tid);
  c ← of_option Fault o;
  if negb (load_succeeded c) then mret TID_ERROR else mret tid.

(** [process_wait] of userprog/process.c, as this process sees it. *)
Definition wait (tid : Z) : M task Z :=
  o ← thread_get_child tid;
  match o with
  | None => mret (-1)
  | Some _ =>
      child_down tid c_wait_sema wait_down ;;
      modify (λ k, set_child_list (filter (λ t, t ≠ tid) (child_list k)) k) ;;
      o ← gets (λ k, children k !! tid);
      c ← of_option Fault o;
      modify (λ k, set_children (<[tid := destroy_up c]> (children k)) k) ;;
      mret (c_exit_status c)
  end.

Definition create (file : list Z) (initial_size : Z) : M task bool :=
  on_proc (on_disk (filesys_create file (s32 initial_size))).
Definition remove (file : list Z) : M task bool := on_proc (on_disk (filesys_remove file)).

Definition acquire_file_lock : M task unit :=
  t ← gets (λ k, cur (proc k)); zoom file_lock set_file_lock (lock_acquire t).
Definition release_file_lock : M task unit :=
  t ← gets (λ k, cur (proc k)); zoom file_lock set_file_lock (lock_release t).

Definition open (file : list Z) : M task Z :=
  acquire_file_lock ;;
  f ← on_proc (on_disk (filesys_open file));
  result ← on_proc (process_add_file f);
  release_file_lock ;;
  mret result.

Definition filesize (fd : Z) : M task Z :=
  f ← on_proc (process_get_file fd);
  if f =? NULL then mret (-1) else on_proc (on_disk (file_length f)).

(** Without a character to read, the process sleeps. *)
Definition input_getc : M task Z :=
  i ← gets input;
  match i with
  | [] => fail Sleep
  | c :: i => modify (set_input i) ;; mret c
  end.

(** The bytes are stored in the buffer of the process, through its page
    table. *)
Definition store_user (buffer : Z) (bs : list Z) : M task unit :=
  for_loop (length bs) 0 (λ i, on_proc (on_machine (user_store8 (u32 (buffer + i)) (default 0 (bs !! Z.to_nat i))))).

Definition read (fd buffer size : Z) : M task Z :=
  acquire_file_lock ;;
  if fd =? STDIN_FILENO then
    for_loop (Z.to_nat size) 0 (λ i,
      c ← input_getc; on_proc (on_machine (user_store8 (u32 (buffer + i)) c))) ;;
    release_file_lock ;;
    mret (s32 size)
  else
  f ← on_proc (process_get_file fd);
  if f =? NULL then release_file_lock ;; mret (-1) else
  bs ← on_proc (on_disk (file_read f (s32 size)));
  store_user buffer bs ;;
  release_file_lock ;;
  mret (Z.of_nat (length bs)).

(** [putbuf]: a null pointer, or a buffer that is too short, is a fault when
    a byte of it is printed. *)
Definition putbuf (buffer : list Z) (n : Z) : M task unit :=
  if Z.of_nat (length buffer) <? n then fail Fault else
  modify (λ k, set_console (console k ++ [Printed (take (Z.to_nat n) buffer)]) k).

(** [buffer]: the bytes that are there. *)
Definition write (fd : Z) (buffer : list Z) (size : Z) : M task Z :=
  acquire_file_lock ;;
  if fd =? STDOUT_FILENO then
    putbuf buffer size ;;
    release_file_lock ;;
    mret (s32 size)
  else
  f ← on_proc (process_get_file fd);
  if f =? NULL then release_file_lock ;; mret 0 else
  n ← on_proc (on_disk (file_write f buffer (s32 size)));
  release_file_lock ;;
  mret n.

Definition seek (fd position : Z) : M task unit :=
  f ← on_proc (process_get_file fd);
  if f =? NULL then mret tt else on_proc (on_disk (file_seek f (s32 position))).

Definition tell (fd : Z) : M task (outcome Z) :=
  f ← on_proc (process_get_file fd);
  if f =? NULL then exit (-1) else
  n ← on_proc (on_disk (file_tell f));
  mret (Returns n).

Definition close (fd : Z) : M task unit := on_proc (process_close_file fd).

(** ** User memory *)

Definition on_user {A} (m : M (vm St) A) : M sys A := on_task (on_proc (on_machine m)).

Definition user_load32 (va : Z) : M (vm St) Z :=
  a ← user_load8 (u32 va);
  b ← user_load8 (u32 (va + 1));
  c ← user_load8 (u32 (va + 2));
  d ← user_load8 (u32 (va + 3));
  mret (a + 2^8 * b + 2^16 * c + 2^24 * d).

Fixpoint user_bytes (n : nat) (va : Z) : M (vm St) (list Z) :=
  match n with
  | O => mret []
  | Datatypes.S n => c ← user_load8 (u32 va); l ← user_bytes n (va + 1); mret (c :: l)
  end.

Definition good_address (addr : Z) : bool := is_user_vaddr addr && (USER_BASE <=? addr).
Definition check_address (addr : Z) : M sys (outcome unit) :=
  if negb (good_address addr) then on_task (exit (-1)) else ret tt.
Definition check_address4 (addr : Z) : M sys (outcome unit) :=
  check_address addr ;; ; check_address (u32 (addr + 3)).

(** [count] words above the stack pointer, as signed numbers. *)
Fixpoint get_words (count : nat) (esp : Z) : M sys (outcome (list Z)) :=
  match count with
  | O => ret []
  | Datatypes.S count =>
      let esp := u32 (esp + 4) in
      check_address4 esp ;; ;
      x ← on_user (user_load32 esp);
      l ⇐ get_words count esp;
      ret (s32 x :: l)
  end.
Definition get_arguments (esp count : Z) : M sys (outcome (list Z)) :=
  ASSERT ((1 <=? count) && (count <=? 4)) ;; get_words (Z.to_nat count) esp.

(** The steps of the two loops; an address space has less than 2^32 bytes. *)
Definition buffer_step : Z * Z → M sys (Z * Z + outcome unit) := λ '(str, size),
  if size =? 0 then mret (inr (Returns tt)) else
  o ← check_address str;
  match o with
  | Returns _ => mret (inl (u32 (str + 1), size - 1))
  | _ => mret (inr o)
  end.
Definition check_user_string_l (str size : Z) : M sys (outcome unit) := big_loop (2^32) buffer_step (str, size).

Definition string_step (str : Z) : M sys (Z + outcome unit) :=
  o ← check_address str;
  match o with
  | Returns _ =>
      c ← on_user (user_load8 str);
      mret (if c =? 0 then inr (Returns tt) else inl (u32 (str + 1)))
  | _ => mret (inr o)
  end.
Definition check_user_string (str : Z) : M sys (outcome unit) := big_loop (2^32) string_step str.

(** ** Copies in the kernel *)

(** The copy is made at once, so that a new block has its contents. *)
Definition malloc (size : Z) : M sys Z :=
  a ← gets next_block;
  if (size =? 0) || negb (malloc_ok a size) then mret NULL else
  modify (λ s, mk_sys (tsk s) (<[a := []]> (heap s)) (a + 1)) ;;
  mret a.
Definition free (a : Z) : M sys unit :=
  if a =? NULL then mret tt else
  h ← gets heap;
  match h !! a with
  | None => fail Panic
  | Some _ => modify (set_heap (delete a h))
  end.

Definition get_user_string_l (str size : Z) : M sys Z :=
  buffer ← malloc size;
  if buffer =? NULL then mret 0 else
  bs ← on_user (user_bytes (Z.to_nat size) str);
  modify (λ s, set_heap (<[buffer := bs]> (heap s)) s) ;;
  mret buffer.

Definition strlen_step (str p : Z) : M sys (Z + Z) :=
  c ← on_user (user_load8 p);
  mret (if c =? 0 then inr (u32 (p - str)) else inl (u32 (p + 1))).
Definition strlen (str : Z) : M sys Z :=
  ASSERT (negb (str =? NULL)) ;; big_loop (2^32) (strlen_step str) str.

Definition get_user_string (str : Z) : M sys Z :=
  n ← strlen str; get_user_string_l str (u32 (n + 1)).

(** [args[index]]; an element that has not been set is not there. *)
Definition arg (args : list Z) (index : nat) : M sys Z := of_option Fault (args !! index).

Definition is_string (flag : Z) (index : nat) : bool := negb (Z.land flag (Z.shiftr 8 (Z.of_nat index)) =? 0).

Definition free_single_user_string (args : list Z) (flag : Z) (index : nat) : M sys (list Z) :=
  if is_string flag index then p ← arg args index; free (u32 p) ;; mret (<[index := 0]> args) else mret args.
Definition free_user_strings (args : list Z) (flag : Z) : M sys (list Z) :=
  ASSERT ((0 <=? flag) && (flag <=? 15)) ;;
  args ← free_single_user_string args flag 0;
  args ← free_single_user_string args flag 1;
  args ← free_single_user_string args flag 2;
  free_single_user_string args flag 3.

Definition get_single_user_string (args : list Z) (flag : Z) (index : nat) : M sys (outcome (list Z)) :=
  if is_string flag index then
    p ← arg args index;
    a ← get_user_string (u32 p);
    let args := <[index := s32 a]> args in
    if a =? NULL then
      free_user_strings args (Z.land flag (Z.shiftr 240 (Z.of_nat index))) ;;
      on_task (exit (-1))
    else ret args
  else ret args.
Definition check_single_user_string (args : list Z) (flag : Z) (index : nat) : M sys (outcome unit) :=
  if is_string flag index then p ← arg args index; check_user_string (u32 p) else ret tt.
Definition get_user_strings (args : list Z) (flag : Z) : M sys (outcome (list Z)) :=
  ASSERT ((0 <=? flag) && (flag <=? 15)) ;;
  check_single_user_string args flag 0 ;; ;
  check_single_user_string args flag 1 ;; ;
  check_single_user_string args flag 2 ;; ;
  check_single_user_string args flag 3 ;; ;
  args ⇐ get_single_user_string args flag 0;
  args ⇐ get_single_user_string args flag 1;
  args ⇐ get_single_user_string args flag 2;
  get_single_user_string args flag 3.

(** The bytes of a block, and the string in it. *)
Definition block_bytes (p : Z) : M sys (list Z) := gets (λ s, default [] (heap s !! u32 p)).
Fixpoint c_string (l : list Z) : option (list Z) :=
  match l with
  | [] => None
  | c :: l => if c =? 0 then Some [] else cons c <$> c_string l
  end.
Definition block_string (p : Z) : M sys (list Z) := l ← block_bytes p; of_option Fault (c_string l).

(** ** The handler

    The result is the value for [eax], if the call stores one. *)
Definition eax (x : Z) : option Z := Some (u32 x).

(** The calls with a file name as their first argument. *)
Definition with_string (esp count : Z) (call : list Z → list Z → M sys Z) : M sys (outcome (option Z)) :=
  args ⇐ get_arguments esp count;
  args ⇐ get_user_strings args 8;
  p ← arg args 0;
  file ← block_string p;
  x ← call file args;
  free_user_strings args 8 ;;
  ret (eax x).

Definition syscall_handler (esp : Z) : M sys (outcome (option Z)) :=
  check_address4 esp ;; ;
  n ← on_user (user_load32 esp);
  let n := s32 n in
  if n =? SYS_HALT then on_task halt
  else if n =? SYS_EXIT then
    args ⇐ get_arguments esp 1;
    status ← arg args 0;
    on_task (exit status)
  else if n =? SYS_CREATE then
    with_string esp 2 (λ file args,
      initial_size ← arg args 1; b ← on_task (create file (u32 initial_size)); mret (Z.b2z b))
  else if n =? SYS_REMOVE then
    with_string esp 1 (λ file args, b ← on_task (remove file); mret (Z.b2z b))
  else if n =? SYS_WRITE then
    args ⇐ get_arguments esp 3;
    fd ← arg args 0;
    buffer ← arg args 1;
    size ← arg args 2;
    check_user_string_l (u32 buffer) (u32 size) ;; ;
    p ← get_user_string_l (u32 buffer) (u32 size);
    bs ← block_bytes p;
    x ← on_task (write fd bs (u32 size));
    free p ;;
    ret (eax x)
  else if n =? SYS_EXEC then
    with_string esp 1 (λ file args, on_task (exec file))
  else if n =? SYS_WAIT then
    args ⇐ get_arguments esp 1;
    tid ← arg args 0;
    x ← on_task (wait tid);
    ret (eax x)
  else if n =? SYS_OPEN then
    with_string esp 1 (λ file args, on_task (open file))
  else if n =? SYS_FILESIZE then
    args ⇐ get_arguments esp 1;
    fd ← arg args 0;
    x ← on_task (filesize fd);
    ret (eax x)
  else if n =? SYS_READ then
    args ⇐ get_arguments esp 3;
    fd ← arg args 0;
    buffer ← arg args 1;
    size ← arg args 2;
    check_user_string_l (u32 buffer) (u32 size) ;; ;
    x ← on_task (read fd (u32 buffer) (u32 size));
    ret (eax x)
  else if n =? SYS_SEEK then
    args ⇐ get_arguments esp 2;
    fd ← arg args 0;
    position ← arg args 1;
    on_task (seek fd (u32 position)) ;;
    ret None
  else if n =? SYS_TELL then
    args ⇐ get_arguments esp 1;
    fd ← arg args 0;
    x ⇐ on_task (tell fd);
    ret (eax x)
  else if n =? SYS_CLOSE then
    args ⇐ get_arguments esp 1;
    fd ← arg args 0;
    on_task (close fd) ;;
    ret None
  else on_task (exit (-1)).
End syscall.
End Syscall.
