(* ===== verification/SyscallFetch.v ===== *)
(** * The arguments of system calls

    What a process asks for, read off its memory, and that the handler of
    system calls fetches just that. *)
From stdpp Require Import base gmap list list_numbers.
From Stdlib Require Import ZArith Lia.
From S2P Require Import Prelude Vaddr Bitmap Palloc Memory Pagedir PagedirInv PagedirOps PagedirProps Process Syscall.

Module SyscallFetch.
Import Vaddr Memory Pagedir PagedirProps Process Syscall.

(** ** What can be fetched from user memory

    A value; or an address outside of the user addresses comes first; or an
    address that is not mapped does. *)
Inductive fetched (A : Type) :=
  | Got (a : A)
  | Bad
  | Unmapped.
Arguments Got {A}. Arguments Bad {A}. Arguments Unmapped {A}.
#[export] Instance fetched_fmap : FMap fetched := λ A B f x,
  match x with
  | Got a => Got (f a)
  | Bad => Bad
  | Unmapped => Unmapped
  end.

Inductive call :=
  | Halt
  | Exit (status : Z)
  | Exec (cmd_line : list Z)
  | Wait (tid : Z)
  | Create (file : list Z) (initial_size : Z)
  | Remove (file : list Z)
  | Open (file : list Z)
  | Filesize (fd : Z)
  | Read (fd buffer size : Z)
  (** The bytes in the buffer, if all of it is mapped. *)
  | Write (fd : Z) (buffer : option (list Z)) (size : Z)
  | Seek (fd position : Z)
  | Tell (fd : Z)
  | Close (fd : Z)
  | Unknown.

Section fetch.
Context {St : Type} `{PagePools St}.
Implicit Types v : vm St.

Definition ubyte v (va : Z) : option Z := (λ x, mem v x.1.1) <$> translate (mem v) (active v) va.
Fixpoint ubytes v (n : nat) (va : Z) : option (list Z) :=
  match n with
  | O => Some []
  | S n => c ← ubyte v (u32 va); cons c <$> ubytes v n (va + 1)
  end.

Definition fetch_word v (va : Z) : fetched Z :=
  if good_address va && good_address (u32 (va + 3)) then
    match ubytes v 4 va with
    | Some [a; b; c; d] => Got (a + 2^8 * b + 2^16 * c + 2^24 * d)
    | _ => Unmapped
    end
  else Bad.
(** The words above the stack pointer. *)
Fixpoint fetch_words v (n : nat) (esp : Z) : fetched (list Z) :=
  match n with
  | O => Got []
  | S n =>
      match fetch_word v (u32 (esp + 4)) with
      | Got x => cons x <$> fetch_words v n (u32 (esp + 4))
      | Bad => Bad
      | Unmapped => Unmapped
      end
  end.

Inductive fetch_string v : Z → fetched (list Z) → Prop :=
  | string_bad p : good_address p = false → fetch_string v p Bad
  | string_unmapped p : good_address p = true → ubyte v p = None → fetch_string v p Unmapped
  | string_end p : good_address p = true → ubyte v p = Some 0 → fetch_string v p (Got [])
  | string_char p c r :
      good_address p = true → ubyte v p = Some c → c ≠ 0 → fetch_string v (p + 1) r → fetch_string v p (cons c <$> r).

(** Every address of the buffer may be used. *)
Definition good_buffer (p size : Z) : Prop := ∀ i, 0 ≤ i < size → good_address (u32 (p + i)) = true.
#[export] Instance good_buffer_dec p size : Decision (good_buffer p size).
Proof.
  refine (cast_if (decide (Forall (λ i, good_address (u32 (p + i)) = true) (seqZ 0 size)))).
  - abstract (intros i Hi; rewrite Forall_forall in f; apply f, elem_of_seqZ; lia).
  - abstract (intros Hg; apply n, Forall_forall; intros i [? ?]%elem_of_seqZ; apply Hg; lia).
Defined.

(** ** What the process asks for *)

Definition with_words v (n : nat) (esp : Z) (k : list Z → fetched call → Prop) (r : fetched call) : Prop :=
  match fetch_words v n esp with
  | Got ws => k ws r
  | Bad => r = Bad
  | Unmapped => r = Unmapped
  end.
Definition fetch_args v (n : nat) (esp : Z) (mk : list Z → call) : fetched call → Prop :=
  with_words v n esp (λ ws r, r = Got (mk ws)).
Definition word_at (i : nat) (ws : list Z) : Z := default 0 (ws !! i).
Definition fetch_file v (n : nat) (esp : Z) (mk : list Z → list Z → call) : fetched call → Prop :=
  with_words v n esp (λ ws r, ∃ f, fetch_string v (u32 (word_at 0 ws)) f ∧ r = (λ file, mk file ws) <$> f).
Definition fetch_buffer v (esp : Z) (mk : list Z → call) : fetched call → Prop :=
  with_words v 3 esp (λ ws r,
    r = if decide (good_buffer (u32 (word_at 1 ws)) (u32 (word_at 2 ws))) then Got (mk ws) else Bad).

Definition int (i : nat) (ws : list Z) : Z := s32 (word_at i ws).
Definition ptr (i : nat) (ws : list Z) : Z := u32 (word_at i ws).

Definition fetch_call v (esp : Z) (r : fetched call) : Prop :=
  match fetch_word v esp with
  | Bad => r = Bad
  | Unmapped => r = Unmapped
  | Got n =>
      let n := s32 n in
      if n =? SYS_HALT then r = Got Halt
      else if n =? SYS_EXIT then fetch_args v 1 esp (λ ws, Exit (int 0 ws)) r
      else if n =? SYS_CREATE then fetch_file v 2 esp (λ f ws, Create f (ptr 1 ws)) r
      else if n =? SYS_REMOVE then fetch_file v 1 esp (λ f ws, Remove f) r
      else if n =? SYS_WRITE then
        fetch_buffer v esp (λ ws, Write (int 0 ws) (ubytes v (Z.to_nat (ptr 2 ws)) (ptr 1 ws)) (ptr 2 ws)) r
      else if n =? SYS_EXEC then fetch_file v 1 esp (λ f ws, Exec f) r
      else if n =? SYS_WAIT then fetch_args v 1 esp (λ ws, Wait (int 0 ws)) r
      else if n =? SYS_OPEN then fetch_file v 1 esp (λ f ws, Open f) r
      else if n =? SYS_FILESIZE then fetch_args v 1 esp (λ ws, Filesize (int 0 ws)) r
      else if n =? SYS_READ then fetch_buffer v esp (λ ws, Read (int 0 ws) (ptr 1 ws) (ptr 2 ws)) r
      else if n =? SYS_SEEK then fetch_args v 2 esp (λ ws, Seek (int 0 ws) (ptr 1 ws)) r
      else if n =? SYS_TELL then fetch_args v 1 esp (λ ws, Tell (int 0 ws)) r
      else if n =? SYS_CLOSE then fetch_args v 1 esp (λ ws, Close (int 0 ws)) r
      else r = Got Unknown
  end.

(** ** Something is always fetched *)

Lemma good_range p : good_address p = true → USER_BASE ≤ p < PHYS_BASE.
Proof. unfold good_address, is_user_vaddr. intros [? ?]%andb_true_iff. lia. Qed.
Lemma good_u32 p : good_address p = true → u32 p = p ∧ u32 (p + 1) = p + 1.
Proof. intros Hg. apply good_range in Hg. unfold USER_BASE, PHYS_BASE in Hg. rewrite !u32_small; lia. Qed.

Lemma fetch_string_total v p : ∃ r, fetch_string v p r.
Proof.
  remember (Z.to_nat (PHYS_BASE - p)) as n eqn:Hn. revert p Hn. induction n as [|n IH]; intros p Hn.
  { exists Bad. constructor. destruct (good_address p) eqn:Hg; [|done]. apply good_range in Hg. lia. }
  destruct (good_address p) eqn:Hg; [|by exists Bad; constructor].
  destruct (ubyte v p) as [c|] eqn:Hc; [|by exists Unmapped; constructor].
  destruct (decide (c = 0)) as [->|Hne]; [by exists (Got []); constructor|].
  destruct (IH (p + 1)) as [r Hr]; [lia|]. by exists (cons c <$> r); constructor.
Qed.

Lemma with_words_total v n esp k : (∀ ws, ∃ r, k ws r) → ∃ r, with_words v n esp k r.
Proof. intros Hk. unfold with_words. destruct (fetch_words v n esp); eauto. Qed.
Lemma fetch_args_total v n esp mk : ∃ r, fetch_args v n esp mk r.
Proof. apply with_words_total. eauto. Qed.
Lemma fetch_file_total v n esp mk : ∃ r, fetch_file v n esp mk r.
Proof. apply with_words_total. intros ws. destruct (fetch_string_total v (u32 (word_at 0 ws))) as [f Hf]. eauto. Qed.
Lemma fetch_buffer_total v esp mk : ∃ r, fetch_buffer v esp mk r.
Proof. apply with_words_total. eauto. Qed.

#[local] Hint Resolve fetch_args_total fetch_file_total fetch_buffer_total : kernel.
Lemma fetch_call_total v esp : ∃ r, fetch_call v esp r.
Proof.
  unfold fetch_call. destruct (fetch_word v esp) as [n| |]; [|by eauto..]. cbv zeta.
  repeat (case_match; [eauto with kernel; fail|]). eauto.
Qed.
End fetch.
End SyscallFetch.
