(* ===== verification/SyscallProps.v ===== *)
(** * Properties of system calls *)
From stdpp Require Import base gmap list list_numbers.
From Stdlib Require Import ZArith Lia.
From S2P Require Import Prelude Vaddr Bitmap Palloc Memory Pagedir PagedirInv PagedirOps PagedirProps Process.
From S2P Require Import Syscall SyscallFetch.

Module SyscallProps.
Import Vaddr Memory Pagedir PagedirProps Process Syscall SyscallFetch.

Section spec.
Context {St : Type} `{PagePools St} {F : Type} `{FileSystem F} `{SystemFiles F}.
Context (thread_create : list Z → Z → M (task St F) Z) (malloc_ok : Z → Z → bool).

(** ** What the calls do

    [mem]: there is memory for the copy that the handler makes. *)
Definition value (m : M (task St F) Z) : M (task St F) (outcome (option Z)) := x ← m; mret (Returns (eax x)).
Definition none (m : M (task St F) unit) : M (task St F) (outcome (option Z)) := m ;; mret (Returns None).

Definition perform (mem : bool) (c : call) : M (task St F) (outcome (option Z)) :=
  match c with
  | Halt => halt
  | Exit status => exit status
  | Exec file => if mem then value (exec thread_create file) else exit (-1)
  | Wait tid => value (wait tid)
  | Create file n => if mem then value (b ← create file n; mret (Z.b2z b)) else exit (-1)
  | Remove file => if mem then value (b ← remove file; mret (Z.b2z b)) else exit (-1)
  | Open file => if mem then value (open file) else exit (-1)
  | Filesize fd => value (filesize fd)
  | Read fd buffer size => value (read fd buffer size)
  | Write fd buffer size =>
      bs ← (if mem && (0 <? size) then of_option Fault buffer else mret []); value (write fd bs size)
  | Seek fd position => none (seek fd position)
  | Tell fd => o ← tell fd; mret (match o with Returns x => Returns (eax x) | Exits => Exits | PowersOff => PowersOff end)
  | Close fd => none (close fd)
  | Unknown => exit (-1)
  end.
Definition serve (mem : bool) (f : fetched call) : M (task St F) (outcome (option Z)) :=
  match f with
  | Got c => perform mem c
  | Bad => exit (-1)
  | Unmapped => fail Fault
  end.

(** The size of the copy. *)
Definition copy_size (f : fetched call) : Z :=
  match f with
  | Got (Exec s | Create s _ | Remove s | Open s) => Z.of_nat (length s) + 1
  | Got (Write _ _ size) => size
  | _ => 0
  end.

(** The block that [malloc] will return is free; there is none at the null
    pointer. *)
Definition heap_ok (s : sys St F) : Prop :=
  0 < next_block s < 2^32 - 1 ∧ heap s !! next_block s = None ∧ heap s !! NULL = None.

(** ** Symbolic execution *)

Local Notation vmof s := (machine (proc (tsk s))).

Lemma ebind_ok {S A B} (m : M S (outcome A)) (k : A → M S (outcome B)) (s : S) a s' :
  m s = Ok (Returns a, s') → ebind m k s = k a s'.
Proof. intros E. unfold ebind. by rewrite (bind_ok _ _ _ _ _ E). Qed.
Lemma ebind_err {S A B} (m : M S (outcome A)) (k : A → M S (outcome B)) (s : S) e : m s = Err e → ebind m k s = Err e.
Proof. intros E. unfold ebind. by rewrite (bind_err _ _ _ _ E). Qed.
Lemma ebind_exit {A B} (m : M (sys St F) (outcome A)) (k : A → M (sys St F) (outcome B)) s x :
  m s = on_task (exit x) s → ebind m k s = on_task (exit x) s.
Proof.
  intros E. unfold ebind. unfold mbind at 1, M_bind at 1. rewrite E. unfold on_task, zoom, exit. run. unfold on_proc, zoom.
  by destruct (process_exit _) as [[[] p]|e].
Qed.

Implicit Types (s : sys St F) (v : vm St).

Lemma set_tsk_same s : set_tsk (tsk s) s = s.
Proof. by destruct s. Qed.
Lemma user_same s : set_tsk (set_proc (set_machine (vmof s) (proc (tsk s))) (tsk s)) s = s.
Proof. by destruct s as [[[]] ? ?]. Qed.

Lemma on_user_ok {A} (m : M (vm St) A) s a : m (vmof s) = Ok (a, vmof s) → on_user m s = Ok (a, s).
Proof. intros E. unfold on_user, on_task, on_proc, on_machine, zoom. rewrite E. by rewrite user_same. Qed.
Lemma on_user_err {A} (m : M (vm St) A) s e : m (vmof s) = Err e → on_user m s = Err e.
Proof. intros E. unfold on_user, on_task, on_proc, on_machine, zoom. by rewrite E. Qed.

(** ** User memory *)

Lemma load8_eq v va : user_load8 va v = match ubyte v va with Some c => Ok (c, v) | None => Err Fault end.
Proof. unfold user_load8, ubyte. by destruct (translate _ _ _) as [[[a w] d]|]. Qed.
Lemma bytes_eq v n va : user_bytes n va v = match ubytes v n va with Some l => Ok (l, v) | None => Err Fault end.
Proof.
  revert va. induction n as [|n IH]; intros va; simpl; [done|]. unfold mbind at 1, M_bind at 1. rewrite load8_eq.
  destruct (ubyte v (u32 va)) as [c|]; [|done]. simpl. unfold mbind, M_bind. rewrite IH. by destruct (ubytes v n (va + 1)).
Qed.
Lemma load32_eq v va :
  user_load32 va v = match ubytes v 4 va with
                     | Some [a; b; c; d] => Ok (a + 2^8 * b + 2^16 * c + 2^24 * d, v)
                     | _ => Err Fault
                     end.
Proof.
  unfold user_load32. cbn [ubytes]. unfold mbind at 1 2 3 4, M_bind. rewrite load8_eq.
  replace (va + 1 + 1) with (va + 2) by lia. replace (va + 2 + 1) with (va + 3) by lia.
  destruct (ubyte v (u32 va)) as [a|]; [|done]. cbn [mbind option_bind]. rewrite load8_eq.
  destruct (ubyte v (u32 (va + 1))) as [b|]; [|done]. cbn [mbind option_bind]. rewrite load8_eq.
  destruct (ubyte v (u32 (va + 2))) as [c|]; [|done]. cbn [mbind option_bind]. rewrite load8_eq.
  by destruct (ubyte v (u32 (va + 3))) as [d|].
Qed.

Lemma check_good s p : good_address p = true → check_address p s = Ok (Returns tt, s).
Proof. intros Hg. unfold check_address. by rewrite Hg. Qed.
Lemma check_bad s p : good_address p = false → check_address p s = on_task (exit (-1)) s.
Proof. intros Hg. unfold check_address. by rewrite Hg. Qed.

Lemma fetch_word_eq {B} s p (k : Z → M (sys St F) (outcome B)) :
  ebind (check_address4 p) (λ _, x ← on_user (user_load32 p); k x) s
  = match fetch_word (vmof s) p with
    | Got x => k x s
    | Bad => on_task (exit (-1)) s
    | Unmapped => Err Fault
    end.
Proof.
  unfold fetch_word, check_address4. destruct (good_address p) eqn:Hg1; cbn [andb].
  2: { apply ebind_exit, ebind_exit. by apply check_bad. }
  destruct (good_address (u32 (p + 3))) eqn:Hg2.
  2: { apply ebind_exit. erewrite ebind_ok by (by apply check_good). by apply check_bad. }
  erewrite ebind_ok; [|erewrite ebind_ok by (by apply check_good); by apply check_good].
  pose proof (load32_eq (vmof s) p) as E.
  destruct (ubytes (vmof s) 4 p) as [[|a [|b [|c [|d []]]]]|]; try (by apply bind_err, on_user_err).
  by erewrite bind_ok by (by apply on_user_ok).
Qed.

Lemma get_words_eq s n esp :
  get_words n esp s = match fetch_words (vmof s) n esp with
                      | Got ws => Ok (Returns (s32 <$> ws), s)
                      | Bad => on_task (exit (-1)) s
                      | Unmapped => Err Fault
                      end.
Proof.
  revert esp. induction n as [|n IH]; intros esp; cbn [get_words fetch_words]; [done|]. cbv zeta. rewrite fetch_word_eq.
  destruct (fetch_word (vmof s) (u32 (esp + 4))) as [x| |]; [|done..]. specialize (IH (u32 (esp + 4))).
  destruct (fetch_words (vmof s) n (u32 (esp + 4))) as [ws| |].
  - by erewrite ebind_ok by exact IH.
  - by apply ebind_exit.
  - by apply ebind_err.
Qed.

(** ** Strings *)

(** [n] steps reach the end of the user addresses from [p]. *)
Definition fuel (p : Z) (n : nat) : Prop := (0 < n)%nat ∧ (good_address p = true → PHYS_BASE - p < Z.of_nat n).

Lemma fuel_enough p : fuel p (Pos.to_nat (2^32)).
Proof.
  split; [apply Pos2Nat.is_pos|]. intros Hg%good_range. rewrite positive_nat_Z.
  unfold USER_BASE, PHYS_BASE in *. change (Z.pos (2^32)) with 4294967296. lia.
Qed.
Lemma fuel_next p n : good_address p = true → fuel p (S n) → fuel (p + 1) n.
Proof. intros Hg [_ Hn]. specialize (Hn Hg). apply good_range in Hg. split; [lia|]. intros _. lia. Qed.
Lemma fuel_S p n : fuel p n → ∃ m, n = S m.
Proof. intros [Hn _]. destruct n as [|m]; [lia|]. by exists m. Qed.

(** Leaving a loop because the process exits. *)
Lemma loop_exit {A R} (body : A → M (sys St F) (A + outcome R)) a s x m :
  body a s = (o ← on_task (exit (A := R) x); mret (inr o)) s → loop (S m) body a s = on_task (exit x) s.
Proof.
  intros E. cbn [loop]. unfold mbind at 1, M_bind at 1. rewrite E. unfold on_task, zoom, exit. run. unfold on_proc, zoom.
  by destruct (process_exit _) as [[[] ?]|].
Qed.
Lemma check_bad_step {A} s p (k : unit → M (sys St F) (A + outcome unit)) :
  good_address p = false →
  (o ← check_address p; match o with Returns a => k a | _ => mret (inr o) end) s = (o ← on_task (exit (-1)); mret (inr o)) s.
Proof.
  intros Hg. unfold mbind at 1 2, M_bind at 1 2. rewrite check_bad by done. unfold on_task, zoom, exit. run. unfold on_proc, zoom.
  by destruct (process_exit _) as [[[] ?]|].
Qed.

Lemma string_step_err s p : good_address p = true → ubyte (vmof s) p = None → string_step p s = Err Fault.
Proof.
  intros Hg Hu. unfold string_step. erewrite bind_ok by (by apply check_good). cbv beta iota. apply bind_err, on_user_err.
  by rewrite load8_eq, Hu.
Qed.
Lemma string_step_ok s p c :
  good_address p = true → ubyte (vmof s) p = Some c →
  string_step p s = Ok (if c =? 0 then inr (Returns tt) else inl (u32 (p + 1)), s).
Proof.
  intros Hg Hu. unfold string_step. erewrite bind_ok by (by apply check_good). cbv beta iota.
  by erewrite bind_ok by (apply on_user_ok; by rewrite load8_eq, Hu).
Qed.
Lemma strlen_step_ok s q p c :
  ubyte (vmof s) p = Some c → strlen_step q p s = Ok (if c =? 0 then inr (u32 (p - q)) else inl (u32 (p + 1)), s).
Proof. intros Hu. unfold strlen_step. by erewrite bind_ok by (apply on_user_ok; by rewrite load8_eq, Hu). Qed.

Lemma check_user_string_eq s p r :
  fetch_string (vmof s) p r →
  check_user_string p s = match r with
                          | Got _ => Ok (Returns tt, s)
                          | Bad => on_task (exit (-1)) s
                          | Unmapped => Err Fault
                          end.
Proof.
  intros Hr. unfold check_user_string. rewrite big_loop_eq. pose proof (fuel_enough p) as Hn.
  revert Hn. generalize (Pos.to_nat (2^32)) as n.
  induction Hr as [p Hg|p Hg Hu|p Hg Hu|p c r Hg Hu Hc Hr IH]; intros n Hn; destruct (fuel_S _ _ Hn) as [m ->].
  - apply loop_exit. by apply check_bad_step.
  - cbn [loop]. by erewrite bind_err by (by apply string_step_err).
  - cbn [loop]. by erewrite bind_ok by (by apply (string_step_ok _ _ 0)).
  - cbn [loop]. erewrite bind_ok by (by apply (string_step_ok _ _ c)). apply Z.eqb_neq in Hc as ->. rewrite (proj2 (good_u32 p Hg)).
    rewrite (IH m (fuel_next _ _ Hg Hn)). by destruct r.
Qed.

Lemma strlen_loop_eq s q p f n :
  fetch_string (vmof s) p (Got f) → fuel p n → 0 ≤ q ≤ p →
  loop n (strlen_step q) p s = Ok (p - q + Z.of_nat (length f), s).
Proof.
  intros Hr. remember (Got f) as r eqn:Er. revert f Er n.
  induction Hr as [p Hg|p Hg Hu|p Hg Hu|p c r Hg Hu Hc Hr IH]; intros f Er n Hn Hq; try done;
    destruct (fuel_S _ _ Hn) as [m ->]; pose proof (good_range p Hg) as Hp; unfold PHYS_BASE in Hp; cbn [loop].
  - injection Er as <-. erewrite bind_ok by (by apply (strlen_step_ok _ _ _ 0)). simpl. rewrite u32_small by lia.
    by rewrite Z.add_0_r.
  - destruct r as [g| |]; [|done..]. injection Er as <-. erewrite bind_ok by (by apply (strlen_step_ok _ _ _ c)).
    apply Z.eqb_neq in Hc as ->. rewrite (proj2 (good_u32 p Hg)). rewrite (IH g) by (done || lia || by apply fuel_next).
    f_equal. f_equal. simpl. lia.
Qed.
Lemma strlen_eq s p f : fetch_string (vmof s) p (Got f) → strlen p s = Ok (Z.of_nat (length f), s).
Proof.
  intros Hr. assert (good_address p = true) as Hg by (by inversion Hr). apply good_range in Hg as Hp. unfold USER_BASE in Hp.
  unfold strlen. erewrite bind_ok; [|unfold ASSERT; by destruct (Z.eqb_spec p NULL); [unfold NULL in *; lia|]].
  rewrite big_loop_eq. rewrite (strlen_loop_eq s p p f) by (done || lia || apply fuel_enough). f_equal. f_equal. lia.
Qed.

Lemma string_bytes v p f : fetch_string v p (Got f) → ubytes v (length f + 1) p = Some (f ++ [0]).
Proof.
  intros Hr. remember (Got f) as r eqn:Er. revert f Er.
  induction Hr as [p Hg|p Hg Hu|p Hg Hu|p c r Hg Hu Hc Hr IH]; intros f Er; try done.
  - injection Er as <-. simpl. rewrite (proj1 (good_u32 p Hg)), Hu. done.
  - destruct r as [g| |]; [|done..]. injection Er as <-. simpl. rewrite (proj1 (good_u32 p Hg)), Hu. simpl. by rewrite (IH g).
Qed.
Lemma string_length v p f : fetch_string v p (Got f) → Z.of_nat (length f) < PHYS_BASE - USER_BASE ∧ Forall (λ c, c ≠ 0) f.
Proof.
  intros Hr. assert (Z.of_nat (length f) < PHYS_BASE - p ∧ Forall (λ c, c ≠ 0) f) as [Hl ?].
  { remember (Got f) as r eqn:Er. revert f Er.
    induction Hr as [p Hg|p Hg Hu|p Hg Hu|p c r Hg Hu Hc Hr IH]; intros f Er; try done.
    - injection Er as <-. apply good_range in Hg. simpl. split; [lia | done].
    - destruct r as [g| |]; [|done..]. injection Er as <-. destruct (IH g eq_refl) as [? ?]. simpl. split; [lia | by constructor]. }
  split; [|done]. assert (good_address p = true) as Hg by (by inversion Hr). apply good_range in Hg. lia.
Qed.

(** ** Copies *)

(** A copy has been made. *)
Definition copied s (bs : list Z) : sys St F := mk_sys (tsk s) (<[next_block s := bs]> (heap s)) (next_block s + 1).

Lemma malloc_eq s n :
  malloc malloc_ok n s
  = if (n =? 0) || negb (malloc_ok (next_block s) n) then Ok (NULL, s) else Ok (next_block s, copied s []).
Proof. unfold malloc. erewrite bind_ok by done. by destruct (_ || _). Qed.
Lemma copy_eq s p n :
  heap_ok s →
  get_user_string_l malloc_ok p n s
  = if (n =? 0) || negb (malloc_ok (next_block s) n) then Ok (0, s) else
    match ubytes (vmof s) (Z.to_nat n) p with
    | Some bs => Ok (next_block s, copied s bs)
    | None => Err Fault
    end.
Proof.
  intros [Hb _]. unfold get_user_string_l. pose proof (malloc_eq s n) as Hm.
  destruct ((n =? 0) || negb (malloc_ok (next_block s) n)); [by erewrite bind_ok by exact Hm|].
  erewrite bind_ok by exact Hm. cbv beta iota.
  destruct (Z.eqb_spec (next_block s) NULL) as [E|_]; [unfold NULL in E; lia|].
  set (s1 := copied s []). pose proof (bytes_eq (vmof s) (Z.to_nat n) p) as E.
  destruct (ubytes (vmof s) (Z.to_nat n) p) as [bs|].
  - erewrite bind_ok by (by apply (on_user_ok _ s1)). run. unfold s1, copied, set_heap. simpl. by rewrite insert_insert_eq.
  - apply bind_err. by apply (on_user_err _ s1).
Qed.

Lemma free_copy s bs : heap_ok s → free (next_block s) (copied s bs) = Ok (tt, mk_sys (tsk s) (heap s) (next_block s + 1)).
Proof.
  intros (Hb & Hn & _). unfold free. destruct (Z.eqb_spec (next_block s) NULL) as [E|_]; [unfold NULL in E; lia|]. run.
  unfold copied at 1. simpl. rewrite lookup_insert_eq. unfold set_heap. simpl. by rewrite delete_insert_id.
Qed.
(** The task may have changed meanwhile. *)
Lemma free_copy_later s bs k :
  heap_ok s → free (next_block s) (set_tsk k (copied s bs)) = Ok (tt, mk_sys k (heap s) (next_block s + 1)).
Proof. intros Hh. exact (free_copy (set_tsk k s) bs Hh). Qed.

Lemma get_user_string_eq s p f :
  heap_ok s → fetch_string (vmof s) p (Got f) →
  get_user_string malloc_ok p s
  = if malloc_ok (next_block s) (Z.of_nat (length f) + 1) then Ok (next_block s, copied s (f ++ [0])) else Ok (0, s).
Proof.
  intros Hh Hf. unfold get_user_string. erewrite bind_ok by (by apply strlen_eq).
  destruct (string_length _ _ _ Hf) as [Hl _]. unfold PHYS_BASE, USER_BASE in Hl. rewrite u32_small by lia.
  rewrite copy_eq by done. destruct (Z.eqb_spec (Z.of_nat (length f) + 1) 0) as [?|_]; [lia|]. cbn [orb].
  destruct (malloc_ok _ _); [|done]. cbn [negb]. replace (Z.to_nat (Z.of_nat (length f) + 1)) with (length f + 1)%nat by lia.
  by rewrite (string_bytes _ p).
Qed.

Lemma u32_s32 x : u32 (s32 x) = u32 x.
Proof.
  unfold u32, s32, sgn. destruct (x mod 2^32 <? 2^(32-1)); [by rewrite Z.mod_mod|].
  rewrite <- Zminus_mod_idemp_r, Z_mod_same_full, Z.sub_0_r. by rewrite Z.mod_mod.
Qed.

Lemma u32_u32 x : u32 (u32 x) = u32 x.
Proof. unfold u32. by rewrite Z.mod_mod. Qed.

(** The handler only ever copies the string that is its first argument. *)
Lemma get_user_strings_eq s w ws r :
  heap_ok s → fetch_string (vmof s) (u32 w) r →
  get_user_strings malloc_ok (s32 w :: ws) 8 s
  = match r with
    | Got f =>
        if malloc_ok (next_block s) (Z.of_nat (length f) + 1)
        then Ok (Returns (s32 (next_block s) :: ws), copied s (f ++ [0])) else on_task (exit (-1)) s
    | Bad => on_task (exit (-1)) s
    | Unmapped => Err Fault
    end.
Proof.
  intros Hh Hr. unfold get_user_strings. erewrite bind_ok by done. unfold check_single_user_string.
  change (is_string 8 0) with true. change (is_string 8 1) with false. change (is_string 8 2) with false.
  change (is_string 8 3) with false. cbv iota.
  pose proof (check_user_string_eq s (u32 w) r Hr) as Hc. rewrite <- u32_s32 in Hc.
  destruct r as [f| |].
  - erewrite ebind_ok by (erewrite bind_ok by done; exact Hc). do 3 erewrite ebind_ok by done.
    pose proof (get_user_string_eq s (u32 w) f Hh Hr) as Hg. rewrite <- u32_s32 in Hg.
    destruct (malloc_ok _ _).
    + assert (next_block s ≠ 0) as Hne by (destruct Hh; lia).
      erewrite ebind_ok; [by do 2 erewrite ebind_ok by done|].
      unfold get_single_user_string. change (is_string 8 0) with true. cbv iota. erewrite bind_ok by done.
      erewrite bind_ok by exact Hg. cbv zeta. by destruct (Z.eqb_spec (next_block s) NULL).
    + apply ebind_exit. unfold get_single_user_string. change (is_string 8 0) with true. cbv iota. erewrite bind_ok by done.
      erewrite bind_ok by exact Hg. cbv zeta. change (0 =? NULL) with true. cbv iota. by erewrite bind_ok by done.
  - apply ebind_exit. erewrite bind_ok by done. exact Hc.
  - apply ebind_err. erewrite bind_ok by done. exact Hc.
Qed.

Lemma c_string_nul f : Forall (λ c, c ≠ 0) f → c_string (f ++ [0]) = Some f.
Proof.
  induction f as [|c f IH]; [done|]. intros [Hc Hf]%Forall_cons. simpl. destruct (Z.eqb_spec c 0); [done|]. by rewrite IH.
Qed.
Lemma block_bytes_eq s bs k :
  heap_ok s → block_bytes (s32 (next_block s)) (set_tsk k (copied s bs)) = Ok (bs, set_tsk k (copied s bs)).
Proof.
  intros [Hb _]. unfold block_bytes, gets. rewrite u32_s32, u32_small by lia. simpl. by rewrite lookup_insert_eq.
Qed.

(** ** The handler *)

(** The address of the next block after a call with a copy of [n] bytes. *)
Definition after s (n : Z) : Z := if (n =? 0) || negb (malloc_ok (next_block s) n) then next_block s else next_block s + 1.
Definition served s (f : fetched call) : res (outcome (option Z) * sys St F) :=
  match serve (malloc_ok (next_block s) (copy_size f)) f (tsk s) with
  | Ok (r, k) => Ok (r, mk_sys k (heap s) (after s (copy_size f)))
  | Err e => Err e
  end.

Lemma served_plain s f : copy_size f = 0 → served s f = on_task (serve (malloc_ok (next_block s) 0) f) s.
Proof. intros E. unfold served, after, on_task, zoom. rewrite E. simpl. by destruct (serve _ _ _) as [[]|]. Qed.
Lemma served_bad s : on_task (exit (-1)) s = served s Bad.
Proof. by rewrite served_plain. Qed.
Lemma served_unmapped s : Err Fault = served s Unmapped.
Proof. by rewrite served_plain. Qed.

Lemma fetch_words_length v n esp ws : fetch_words v n esp = Got ws → length ws = n.
Proof.
  revert esp ws. induction n as [|n IH]; intros esp ws; simpl; [by intros [= <-]|].
  destruct (fetch_word _ _); [|done..]. destruct (fetch_words v n _) as [l| |] eqn:E; [|done..]. intros [= <-]. simpl. by erewrite IH.
Qed.

Lemma get_arguments_eq s esp n k (kk : list Z → M (sys St F) (outcome (option Z))) r :
  (1 ≤ n ≤ 4)%nat → with_words (vmof s) n esp k r →
  (∀ ws, length ws = n → k ws r → kk (s32 <$> ws) s = served s r) →
  ebind (get_arguments esp (Z.of_nat n)) kk s = served s r.
Proof.
  intros Hn Hw Hk. unfold with_words in Hw. pose proof (get_words_eq s n esp) as Hg.
  assert (get_arguments esp (Z.of_nat n) s = get_words n esp s) as E.
  { unfold get_arguments. erewrite bind_ok; [by rewrite Nat2Z.id|]. unfold ASSERT.
    by destruct (Z.leb_spec 1 (Z.of_nat n)), (Z.leb_spec (Z.of_nat n) 4); [|lia..]. }
  destruct (fetch_words (vmof s) n esp) as [ws| |] eqn:Ew; subst; [|rewrite <- served_bad|rewrite <- served_unmapped].
  - erewrite ebind_ok; [|rewrite E; exact Hg]. apply Hk; [by eapply fetch_words_length | done].
  - apply ebind_exit. by rewrite E.
  - apply ebind_err. by rewrite E.
Qed.

(** Calls without a copy. *)
Lemma plain_eq s esp n mk (kk : list Z → M (sys St F) (outcome (option Z))) r :
  (1 ≤ n ≤ 4)%nat → fetch_args (vmof s) n esp mk r →
  (∀ ws, length ws = n → copy_size (Got (mk ws)) = 0 ∧ kk (s32 <$> ws) s = on_task (perform (malloc_ok (next_block s) 0) (mk ws)) s) →
  ebind (get_arguments esp (Z.of_nat n)) kk s = served s r.
Proof.
  intros Hn Hf Hk. eapply get_arguments_eq; [done | exact Hf|]. intros ws Hl ->. destruct (Hk ws Hl) as [E ->].
  by rewrite served_plain.
Qed.

Lemma free_strings_eq s bs k ws :
  heap_ok s →
  free_user_strings (s32 (next_block s) :: ws) 8 (set_tsk k (copied s bs)) = Ok (0 :: ws, mk_sys k (heap s) (next_block s + 1)).
Proof.
  intros Hh. unfold free_user_strings. erewrite bind_ok by done. erewrite bind_ok; [by do 2 erewrite bind_ok by done|].
  unfold free_single_user_string. change (is_string 8 0) with true. cbv iota. erewrite bind_ok by done.
  rewrite u32_s32, u32_small by (destruct Hh; lia). by erewrite bind_ok by (by apply free_copy_later).
Qed.

(** Calls with a string. *)
Lemma with_string_eq s esp n mk (m : list Z → list Z → M (task St F) Z) call r :
  (1 ≤ n ≤ 4)%nat → heap_ok s → fetch_file (vmof s) n esp mk r →
  (∀ f ws, length ws = n → copy_size (Got (mk f ws)) = Z.of_nat (length f) + 1) →
  (∀ mem f ws, length ws = n → perform mem (mk f ws) = if mem then value (m f ws) else exit (-1)) →
  (∀ f w ws x s', length (w :: ws) = n → call f (x :: (s32 <$> ws)) s' = on_task (m f (w :: ws)) s') →
  with_string malloc_ok esp (Z.of_nat n) call s = served s r.
Proof.
  intros Hn Hh Hf Hsize Hp Hc. unfold with_string. eapply get_arguments_eq; [done | exact Hf|].
  intros [|w ws] Hl (f & Hs & ->); [simpl in Hl; lia|]. unfold word_at in Hs. cbn [fmap list_fmap default lookup list_lookup] in *.
  pose proof (get_user_strings_eq s w (s32 <$> ws) f Hh Hs) as Hg. destruct f as [f| |].
  - destruct (string_length _ _ _ Hs) as [_ Hnz]. cbn [fmap fetched_fmap]. unfold served, after. rewrite Hsize by done.
    unfold serve. rewrite Hp by done. destruct (Z.eqb_spec (Z.of_nat (length f) + 1) 0) as [?|_]; [lia|]. cbn [orb].
    destruct (malloc_ok _ _).
    + erewrite ebind_ok by exact Hg. erewrite bind_ok by done. unfold block_string.
      erewrite bind_ok by (erewrite bind_ok by (by apply (block_bytes_eq s _ (tsk s))); by rewrite c_string_nul).
      unfold value. pose proof (Hc f w ws (s32 (next_block s)) (copied s (f ++ [0])) Hl) as Hcall.
      unfold on_task, zoom in Hcall. change (tsk (copied s (f ++ [0]))) with (tsk s) in Hcall.
      destruct (m f (w :: ws) (tsk s)) as [[x k]|e] eqn:Em.
      * erewrite bind_ok by exact Hcall. erewrite bind_ok by (by apply free_strings_eq). by erewrite bind_ok by exact Em.
      * erewrite bind_err by exact Hcall. by erewrite bind_err by exact Em.
    + by apply ebind_exit.
  - rewrite <- served_bad. by apply ebind_exit.
  - rewrite <- served_unmapped. by apply ebind_err.
Qed.

(** Calls with a buffer. *)
Lemma good_buffer_cons p n :
  0 ≤ n → u32 p = p → good_buffer p (n + 1) ↔ good_address p = true ∧ good_buffer (u32 (p + 1)) n.
Proof.
  intros Hn Hp.
  assert (∀ i, u32 (u32 (p + 1) + i) = u32 (p + (1 + i))) as Hu.
  { intros i. unfold u32. rewrite Zplus_mod_idemp_l. f_equal. lia. }
  split.
  - intros Hg. split; [rewrite <- Hp, <- (Z.add_0_r p); apply Hg; lia|]. intros i Hi. rewrite Hu. apply Hg. lia.
  - intros [H0' Hg] i Hi. destruct (decide (i = 0)) as [->|Hne]; [by rewrite Z.add_0_r, Hp|].
    replace i with (1 + (i - 1)) by lia. rewrite <- Hu. apply Hg. lia.
Qed.

Lemma buffer_loop s n : ∀ p m, u32 p = p → (n < m)%nat →
  loop m buffer_step (p, Z.of_nat n) s
  = if decide (good_buffer p (Z.of_nat n)) then Ok (Returns tt, s) else on_task (exit (-1)) s.
Proof.
  induction n as [|n IH]; intros p [|m] Hp Hm; try lia.
  { cbn [loop]. erewrite bind_ok by done. rewrite decide_True; [done|]. intros i Hi. lia. }
  rewrite Nat2Z.inj_succ, <- Z.add_1_r.
  rewrite (decide_ext _ _ _ _ (good_buffer_cons p (Z.of_nat n) (Nat2Z.is_nonneg n) Hp)).
  destruct (good_address p) eqn:Hg.
  - cbn [loop]. erewrite bind_ok.
    2: { unfold buffer_step. destruct (Z.eqb_spec (Z.of_nat n + 1) 0); [lia|]. by erewrite bind_ok by (by apply check_good). }
    cbv beta iota. replace (Z.of_nat n + 1 - 1) with (Z.of_nat n) by lia.
    rewrite IH by (lia || unfold u32; by rewrite Z.mod_mod). by destruct (decide (good_buffer _ _)), (decide _); naive_solver.
  - rewrite decide_False by naive_solver. apply loop_exit. unfold buffer_step.
    destruct (Z.eqb_spec (Z.of_nat n + 1) 0); [lia|]. by apply check_bad_step.
Qed.
Lemma check_user_string_l_eq s p n :
  u32 p = p → u32 n = n →
  check_user_string_l p n s = if decide (good_buffer p n) then Ok (Returns tt, s) else on_task (exit (-1)) s.
Proof.
  intros Hp Hn. pose proof (u32_range n) as Hr. rewrite Hn in Hr. unfold check_user_string_l. rewrite big_loop_eq.
  assert (n < Z.of_nat (Pos.to_nat (2^32))) as Hm by (rewrite positive_nat_Z; change (Z.pos (2^32)) with (2^32); apply Hr).
  revert Hm. generalize (Pos.to_nat (2^32)) as m. intros m Hm.
  pose proof (buffer_loop s (Z.to_nat n) p m Hp ltac:(lia)) as E. by rewrite Z2Nat.id in E by lia.
Qed.

Lemma value_eq s (m : M (task St F) Z) : (x ← on_task m; ret (eax x)) s = on_task (value m) s.
Proof. unfold on_task, value, zoom, mbind, M_bind. by destruct (m (tsk s)) as [[]|]. Qed.
Lemma none_eq s (m : M (task St F) unit) : (on_task m ;; ret None) s = on_task (none m) s.
Proof. unfold on_task, none, zoom, mbind, M_bind. by destruct (m (tsk s)) as [[]|]. Qed.

Lemma read_eq s esp r :
  fetch_buffer (vmof s) esp (λ ws, Read (int 0 ws) (ptr 1 ws) (ptr 2 ws)) r →
  (args ⇐ get_arguments esp 3;
   fd ← arg args 0;
   buffer ← arg args 1;
   size ← arg args 2;
   check_user_string_l (u32 buffer) (u32 size) ;; ;
   x ← on_task (read fd (u32 buffer) (u32 size));
   ret (eax x)) s = served s r.
Proof.
  intros Hf. eapply (get_arguments_eq s esp 3); [lia | exact Hf|]. intros [|w0 [|w1 [|w2 []]]] Hl Hr; try done.
  do 3 erewrite bind_ok by done. rewrite !u32_s32.
  pose proof (check_user_string_l_eq s (u32 w1) (u32 w2)) as Hc. rewrite !u32_u32 in Hc. specialize (Hc eq_refl eq_refl).
  change (word_at 1 [w0; w1; w2]) with w1 in Hr. change (word_at 2 [w0; w1; w2]) with w2 in Hr.
  destruct (decide (good_buffer (u32 w1) (u32 w2))); subst r.
  - erewrite ebind_ok by exact Hc. rewrite served_plain by done. apply value_eq.
  - rewrite <- served_bad. by apply ebind_exit.
Qed.

Lemma on_task_eq {A} s (m : M (task St F) A) :
  on_task m s = match m (tsk s) with Ok (r, k) => Ok (r, mk_sys k (heap s) (next_block s)) | Err e => Err e end.
Proof. done. Qed.
Lemma write_null s fd n :
  heap_ok s →
  (bs ← block_bytes 0; x ← on_task (write fd bs n); free 0 ;; ret (eax x)) s = on_task (value (write fd [] n)) s.
Proof.
  intros (_ & _ & Hn). erewrite bind_ok; [|unfold block_bytes, gets; change (u32 0) with NULL; by rewrite Hn].
  rewrite <- value_eq. unfold mbind, M_bind. by destruct (on_task _ s) as [[]|].
Qed.
Lemma write_copy s fd cs n :
  heap_ok s →
  (bs ← block_bytes (next_block s); x ← on_task (write fd bs n); free (next_block s) ;; ret (eax x)) (copied s cs)
  = match value (write fd cs n) (tsk s) with
    | Ok (r, k) => Ok (r, mk_sys k (heap s) (next_block s + 1))
    | Err e => Err e
    end.
Proof.
  intros Hh. erewrite bind_ok.
  2: { unfold block_bytes, gets. rewrite u32_small by (destruct Hh; lia). simpl. by rewrite lookup_insert_eq. }
  unfold value. destruct (write fd cs n (tsk s)) as [[x k]|e] eqn:E.
  - erewrite (bind_ok (on_task _)) by (unfold on_task, zoom; simpl; by rewrite E).
    erewrite bind_ok by (by apply free_copy_later). by erewrite bind_ok by exact E.
  - erewrite (bind_err (on_task _)) by (unfold on_task, zoom; simpl; by rewrite E). by erewrite bind_err by exact E.
Qed.

Lemma write_eq s esp r :
  heap_ok s →
  fetch_buffer (vmof s) esp (λ ws, Write (int 0 ws) (ubytes (vmof s) (Z.to_nat (ptr 2 ws)) (ptr 1 ws)) (ptr 2 ws)) r →
  (args ⇐ get_arguments esp 3;
   fd ← arg args 0;
   buffer ← arg args 1;
   size ← arg args 2;
   check_user_string_l (u32 buffer) (u32 size) ;; ;
   p ← get_user_string_l malloc_ok (u32 buffer) (u32 size);
   bs ← block_bytes p;
   x ← on_task (write fd bs (u32 size));
   free p ;;
   ret (eax x)) s = served s r.
Proof.
  intros Hh Hf. eapply (get_arguments_eq s esp 3); [lia | exact Hf|]. intros [|w0 [|w1 [|w2 []]]] Hl Hr; try done.
  do 3 erewrite bind_ok by done. rewrite !u32_s32. change (int 0 [w0; w1; w2]) with (s32 w0) in Hr.
  pose proof (check_user_string_l_eq s (u32 w1) (u32 w2)) as Hc. rewrite !u32_u32 in Hc. specialize (Hc eq_refl eq_refl).
  change (ptr 1 [w0; w1; w2]) with (u32 w1) in Hr. change (ptr 2 [w0; w1; w2]) with (u32 w2) in Hr.
  change (word_at 1 [w0; w1; w2]) with w1 in Hr. change (word_at 2 [w0; w1; w2]) with w2 in Hr.
  destruct (decide (good_buffer (u32 w1) (u32 w2))); subst r; [|rewrite <- served_bad; by apply ebind_exit].
  erewrite ebind_ok by exact Hc. pose proof (copy_eq s (u32 w1) (u32 w2) Hh) as Hcopy.
  unfold served, after, serve, perform. cbn [copy_size]. pose proof (u32_range w2) as Hr.
  destruct (Z.eqb_spec (u32 w2) 0) as [E|Hne]; cbn [orb] in *.
  { erewrite bind_ok by exact Hcopy. rewrite write_null by done. rewrite E, Z.ltb_irrefl, andb_false_r. apply on_task_eq. }
  destruct (Z.ltb_spec 0 (u32 w2)); [|lia]. destruct (malloc_ok (next_block s) (u32 w2)); cbn [negb andb] in *.
  - destruct (ubytes (vmof s) (Z.to_nat (u32 w2)) (u32 w1)) as [bs|]; [|by apply bind_err].
    erewrite bind_ok by exact Hcopy. by apply write_copy.
  - erewrite bind_ok by exact Hcopy. rewrite write_null by done. apply on_task_eq.
Qed.

Lemma tell_eq s fd : (x ⇐ on_task (tell fd); ret (eax x)) s = on_task (perform false (Tell fd)) s.
Proof.
  unfold ebind, on_task, perform, zoom, mbind, M_bind. by destruct (tell fd (tsk s)) as [[[| |] k]|].
Qed.

(** The one argument of a call. *)
Ltac one_word := intros [|w []] Hl; [done | | done]; split; [done|]; erewrite bind_ok by done.

Lemma handler_eq s esp r :
  heap_ok s → fetch_call (vmof s) esp r → syscall_handler thread_create malloc_ok esp s = served s r.
Proof.
  intros Hh Hf. unfold syscall_handler. rewrite fetch_word_eq. unfold fetch_call in Hf.
  destruct (fetch_word (vmof s) esp) as [n| |]; subst; [|apply served_bad | apply served_unmapped].
  cbv zeta in *. generalize dependent (s32 n). clear n. intros n Hf.
  destruct (n =? SYS_HALT); [subst; by rewrite served_plain|].
  destruct (n =? SYS_EXIT); [eapply (plain_eq s esp 1); [lia | exact Hf|]; by one_word|].
  destruct (n =? SYS_CREATE).
  { eapply (with_string_eq s esp 2 _ (λ f ws, b ← create f (ptr 1 ws); mret (Z.b2z b))); try done; [lia|].
    intros f w [|w1 []] x s' Hl; try done. erewrite bind_ok by done. rewrite u32_s32. change (ptr 1 [w; w1]) with (u32 w1).
    unfold on_task, zoom, mbind, M_bind. by destruct (create _ _ _) as [[]|]. }
  destruct (n =? SYS_REMOVE).
  { eapply (with_string_eq s esp 1 _ (λ f ws, b ← remove f; mret (Z.b2z b))); try done; [lia|].
    intros f w ws x s' Hl. unfold on_task, zoom, mbind, M_bind. by destruct (remove _ _) as [[]|]. }
  destruct (n =? SYS_WRITE); [by apply write_eq|].
  destruct (n =? SYS_EXEC); [eapply (with_string_eq s esp 1 _ (λ f _, exec thread_create f)); done || lia|].
  destruct (n =? SYS_WAIT); [eapply (plain_eq s esp 1); [lia | exact Hf|]; one_word; apply value_eq|].
  destruct (n =? SYS_OPEN); [eapply (with_string_eq s esp 1 _ (λ f _, open f)); done || lia|].
  destruct (n =? SYS_FILESIZE); [eapply (plain_eq s esp 1); [lia | exact Hf|]; one_word; apply value_eq|].
  destruct (n =? SYS_READ); [by apply read_eq|].
  destruct (n =? SYS_SEEK).
  { eapply (plain_eq s esp 2); [lia | exact Hf|]. intros [|w [|w1 []]] Hl; try done. split; [done|].
    do 2 erewrite bind_ok by done. rewrite u32_s32. apply none_eq. }
  destruct (n =? SYS_TELL); [eapply (plain_eq s esp 1); [lia | exact Hf|]; one_word; apply tell_eq|].
  destruct (n =? SYS_CLOSE); [eapply (plain_eq s esp 1); [lia | exact Hf|]; one_word; apply none_eq|].
  subst. by rewrite served_plain.
Qed.
End spec.
End SyscallProps.
