(* ===== verification/SyscallFiles.v ===== *)
(** * Files through system calls

    What the system calls on files mean to a process that has at most one
    file open: a map from names to contents, the position in the open file,
    and its memory.  The file system is used through its contract. *)
From stdpp Require Import base gmap list list_numbers.
From Stdlib Require Import ZArith Lia.
From S2P Require Import Prelude Vaddr Bitmap Palloc Memory Pagedir PagedirInv PagedirOps PagedirProps Block Filesys FileIO Directory.
From S2P Require Import Process ProcessSegments Syscall SyscallFetch SyscallProps.

(** The contract of filesys/ with syscall.c.  [fs_open s m h nm p]: the file
    [nm] is the only one that is open, as [h], at the position [p].  The file
    system keeps it as long as every [malloc] succeeds (SyscallDisk). *)
Class FileLaws (F : Type) `{FileSystem F} `{SystemFiles F} := {
  fs_open : F → gmap (list Z) (list Z) → Z → list Z → Z → Prop;
  fs_open_file s m h nm p :
    fs_open s m h nm p → h ≠ 0 ∧ 0 ≤ p < 2^31 ∧ ∃ c, m !! nm = Some c ∧ Z.of_nat (length c) < 2^31 ∧ Forall (λ b, 0 ≤ b < 256) c;
  create_law s m nm n :
    fs_holds s m → Forall (λ c, 0 < c < 256) nm → 0 ≤ n < 2^31 - 512 →
    wp (filesys_create nm n) (λ (ok : bool) s',
      if ok then Directory.valid_name nm ∧ m !! nm = None ∧ fs_holds s' (<[nm := replicate (Z.to_nat n) 0]> m)
      else fs_holds s' m) s;
  remove_law s m nm :
    fs_holds s m →
    wp (filesys_remove nm) (λ (ok : bool) s', fs_holds s' (delete nm m) ∧ (ok = true ↔ is_Some (m !! nm))) s;
  open_law s m nm :
    fs_holds s m →
    wp (filesys_open nm) (λ h s',
      match m !! nm with Some _ => fs_open s' m h nm 0 | None => h = 0 ∧ fs_holds s' m end) s;
  close_law s m h nm p : fs_open s m h nm p → wp (file_close h) (λ _ s', fs_holds s' m) s;
  length_law s m h nm c p :
    fs_open s m h nm p → m !! nm = Some c → wp (file_length h) (λ n s', n = Z.of_nat (length c) ∧ fs_open s' m h nm p) s;
  read_law s m h nm c p n :
    fs_open s m h nm p → m !! nm = Some c → 0 ≤ n < 2^31 →
    wp (file_read h n) (λ bs s', bs = FileIO.read_spec c n p ∧ fs_open s' m h nm (p + Z.of_nat (length bs))) s;
  write_law s m h nm c p bs :
    fs_open s m h nm p → m !! nm = Some c → Z.of_nat (length bs) < 2^31 → Forall (λ c, 0 ≤ c < 256) bs →
    wp (file_write h bs (Z.of_nat (length bs))) (λ k s', k = FileIO.write_len c bs p
      ∧ fs_open s' (<[nm := FileIO.write_spec c bs p]> m) h nm (p + k)) s;
  seek_law s m h nm p q : fs_open s m h nm p → 0 ≤ q < 2^31 → wp (file_seek h q) (λ _ s', fs_open s' m h nm q) s;
  tell_law s m h nm p : fs_open s m h nm p → wp (file_tell h) (λ n s', n = p ∧ fs_open s' m h nm p) s
}.

Module SyscallFiles.
Import Vaddr Memory Pagedir PagedirInv PagedirOps PagedirProps Process ProcessSegments Syscall SyscallFetch SyscallProps.

(** ** Stores to user memory *)

Section memory.
Context {St : Type} `{PagePools St}.
Implicit Types (v : vm St) (S : gmap Z (Z → Z)) (f : Z → Z).

(** The byte at an address of the address space [pd]. *)
Definition byte_of v (pd va : Z) : option Z := (λ x, mem v x.1.1) <$> translate (mem v) pd va.
Definition writable f (va : Z) : Prop := present (f (va / 4096)) ∧ Z.testbit (f (va / 4096)) 1 = true.

Lemma byte_of_space v S pd f va :
  vm_ok v S → S !! pd = Some f → 0 ≤ va < PHYS_BASE →
  byte_of v pd va = if decide (present (f (va / 4096))) then Some (mem v (frame (f (va / 4096)) + va mod 4096)) else None.
Proof.
  intros Hv E Hva. unfold byte_of. rewrite (translate_space v S pd f) by done. unfold translation. by case_bool_decide; case_decide.
Qed.

Lemma user_store_ok v S f va x :
  vm_ok v S → S !! active v = Some f → 0 ≤ va < PHYS_BASE → writable f va →
  ∃ m', user_store8 va x v = Ok (tt, set_mem m' v) ∧ vm_ok (set_mem m' v) S
    ∧ ∀ pd f' va', S !! pd = Some f' → 0 ≤ va' < PHYS_BASE →
        byte_of (set_mem m' v) pd va' = if decide (pd = active v ∧ va' = va) then Some (u8 x) else byte_of v pd va'.
Proof.
  intros Hv E Hva [Hp Hw]. destruct (user_page va Hva) as [Hn _]. pose proof Hv as (_ & [Hd Hinj] & _).
  destruct (Hd _ _ _ E Hn Hp) as (_ & Hu & Hnf). set (q := frame (f (va / 4096))) in *.
  assert (plain v S q) as Hq by (split; [done|]; intros pd' f' E'; by apply (Hnf pd' f')).
  destruct (used_ram_page v S q Hv Hu) as (_ & Hqm & _).
  exists (store8 (q + va mod 4096) x (mem v)).
  assert (only_page q (mem v) (store8 (q + va mod 4096) x (mem v))) as Ho.
  { intros a Ha. unfold store8. rewrite (proj2 (Z.eqb_neq a _)); [done|]. pose proof (Z.mod_pos_bound va 4096). lia. }
  assert (vm_ok (set_mem (store8 (q + va mod 4096) x (mem v)) v) S) as Hv'.
  { apply (write_page_ok v S q); try done. apply store8_bytes. by destruct Hv as ((_ & ? & _) & _). }
  split_and!; [|done|].
  - unfold user_store8. rewrite (translate_space v S (active v) f) by done. unfold translation. by rewrite bool_decide_true, Hw.
  - intros pd f' va' E' Hva'. rewrite (byte_of_space _ S pd f') by done. rewrite (byte_of_space v S pd f') by done.
    destruct (user_page va' Hva') as [Hn' _]. simpl. unfold store8.
    pose proof (Z.mod_pos_bound va 4096). pose proof (Z.mod_pos_bound va' 4096).
    destruct (decide (pd = active v ∧ va' = va)) as [[-> ->]|Hne].
    { rewrite E in E'. injection E' as <-. rewrite decide_True by done. fold q. by rewrite Z.eqb_refl. }
    destruct (decide (present (f' (va' / 4096)))) as [Hp'|]; [|done].
    rewrite (proj2 (Z.eqb_neq _ _)); [done|]. intros Hq'. apply Hne.
    destruct (Hd _ _ _ E' Hn' Hp') as (_ & Hu' & _). destruct (used_ram_page v S _ Hv Hu') as (_ & Hqm' & _).
    destruct (Hinj _ _ _ _ _ _ E' E Hn' Hn Hp' Hp) as [-> Hpage]; [fold q; div_lia|]. split; [done|]. unfold q in *. rewrite Hpage in *.
    rewrite E in E'. injection E' as <-. div_lia.
Qed.

(** The memory of all address spaces after the bytes [bs] have been stored
    at [buffer] in [pd]. *)
Definition stored (pd buffer : Z) (bs : list Z) (g : Z → Z → option Z) (pd' va : Z) : option Z :=
  if decide (pd' = pd ∧ buffer ≤ va < buffer + Z.of_nat (length bs)) then bs !! Z.to_nat (va - buffer) else g pd' va.

Definition memory v S (g : Z → Z → option Z) : Prop :=
  ∀ pd f va, S !! pd = Some f → 0 ≤ va < PHYS_BASE → byte_of v pd va = g pd va.

Lemma memory_store v S f g va x i bs :
  vm_ok v S → S !! active v = Some f → 0 ≤ va + Z.of_nat i < PHYS_BASE → writable f (va + Z.of_nat i) → bs !! i = Some x → 0 ≤ x < 256 →
  memory v S (stored (active v) va (take i bs) g) →
  ∃ m', user_store8 (va + Z.of_nat i) x v = Ok (tt, set_mem m' v) ∧ vm_ok (set_mem m' v) S
    ∧ memory (set_mem m' v) S (stored (active v) va (take (Datatypes.S i) bs) g).
Proof.
  intros Hv E Hva Hw Hx Hb Hm. destruct (user_store_ok v S f (va + Z.of_nat i) x Hv E Hva Hw) as (m' & Hs & Hv' & Hby).
  exists m'. split_and!; try done. intros pd f' va' E' Hva'. rewrite (Hby pd f' va' E' Hva').
  assert (i < length bs)%nat as Hi by (by eapply lookup_lt_Some). unfold stored. rewrite !length_take.
  destruct (decide (pd = active v ∧ va' = va + Z.of_nat i)) as [[-> ->]|Hne].
  { rewrite decide_True by (split; [done | lia]). replace (Z.to_nat (va + Z.of_nat i - va)) with i by lia.
    rewrite lookup_take_lt by lia. rewrite Hx, u8_small by done. done. }
  rewrite (Hm pd f' va' E' Hva'). unfold stored. rewrite length_take.
  destruct (decide (pd = active v ∧ va ≤ va' < va + Z.of_nat (i `min` length bs))) as [[-> Hr]|Hr1].
  - rewrite decide_True by (split; [done | lia]). by rewrite !lookup_take_lt by lia.
  - rewrite decide_False; [done|]. intros [-> ?]. apply Hr1. split; [done|]. destruct (decide (va' = va + Z.of_nat i)); [naive_solver | lia].
Qed.
End memory.

(** ** The meaning of the calls *)

(** The files; the open file with its descriptor, name and position; the next
    descriptor; the memory of all address spaces; the output. *)
Record view := mk_view {
  v_files : gmap (list Z) (list Z);
  v_open : option (Z * list Z * Z);
  v_next : Z;
  v_mem : Z → Z → option Z;
  v_out : list output
}.

Definition ERROR : option Z := Some (u32 (-1)).

(** The file that is open as [fd]. *)
Definition opened (a : view) (fd : Z) (nm c : list Z) (p : Z) : Prop :=
  v_open a = Some (fd, nm, p) ∧ v_files a !! nm = Some c.
Definition not_open (a : view) (fd : Z) : Prop := ∀ nm p, v_open a ≠ Some (fd, nm, p).
Definition with_pos (a : view) (fd : Z) (nm : list Z) (p : Z) : view :=
  mk_view (v_files a) (Some (fd, nm, p)) (v_next a) (v_mem a) (v_out a).
Definition with_files (a : view) (m : gmap (list Z) (list Z)) : view :=
  mk_view m (v_open a) (v_next a) (v_mem a) (v_out a).
Definition with_mem (a : view) (g : Z → Z → option Z) : view :=
  mk_view (v_files a) (v_open a) (v_next a) g (v_out a).

(** The call [c] of the process with the address space [pd] stores the value
    [x] for it, if any. *)
Inductive call_spec (pd : Z) (a : view) : call → option Z → view → Prop :=
  | spec_create nm n :
      Directory.valid_name nm → v_files a !! nm = None →
      call_spec pd a (Create nm n) (Some 1) (with_files a (<[nm := replicate (Z.to_nat n) 0]> (v_files a)))
  | spec_create_fails nm n : call_spec pd a (Create nm n) (Some 0) a
  | spec_remove nm :
      call_spec pd a (Remove nm) (Some (Z.b2z (bool_decide (is_Some (v_files a !! nm))))) (with_files a (delete nm (v_files a)))
  | spec_open nm c :
      v_files a !! nm = Some c →
      call_spec pd a (Open nm) (Some (v_next a))
        (mk_view (v_files a) (Some (v_next a, nm, 0)) (v_next a + 1) (v_mem a) (v_out a))
  | spec_open_fails nm : v_files a !! nm = None → call_spec pd a (Open nm) ERROR a
  | spec_filesize fd nm c p : opened a fd nm c p → call_spec pd a (Filesize fd) (Some (Z.of_nat (length c))) a
  | spec_filesize_fails fd : not_open a fd → call_spec pd a (Filesize fd) ERROR a
  | spec_read fd buffer n nm c p bs :
      opened a fd nm c p → bs = FileIO.read_spec c n p →
      call_spec pd a (Read fd buffer n) (Some (Z.of_nat (length bs)))
        (with_mem (with_pos a fd nm (p + Z.of_nat (length bs))) (stored pd buffer bs (v_mem a)))
  | spec_read_fails fd buffer n : not_open a fd → call_spec pd a (Read fd buffer n) ERROR a
  | spec_write fd bs nm c p k :
      opened a fd nm c p → k = FileIO.write_len c bs p →
      call_spec pd a (Write fd (Some bs) (Z.of_nat (length bs))) (Some k)
        (with_files (with_pos a fd nm (p + k)) (<[nm := FileIO.write_spec c bs p]> (v_files a)))
  | spec_write_fails fd bs :
      not_open a fd → fd ≠ STDOUT_FILENO → call_spec pd a (Write fd (Some bs) (Z.of_nat (length bs))) (Some 0) a
  | spec_print bs :
      call_spec pd a (Write STDOUT_FILENO (Some bs) (Z.of_nat (length bs))) (Some (Z.of_nat (length bs)))
        (mk_view (v_files a) (v_open a) (v_next a) (v_mem a) (v_out a ++ [Printed bs]))
  | spec_seek fd nm c p q : opened a fd nm c p → call_spec pd a (Seek fd q) None (with_pos a fd nm q)
  | spec_seek_fails fd q : not_open a fd → call_spec pd a (Seek fd q) None a
  | spec_tell fd nm c p : opened a fd nm c p → call_spec pd a (Tell fd) (Some p) a
  | spec_close fd nm c p :
      opened a fd nm c p → call_spec pd a (Close fd) None (mk_view (v_files a) None (v_next a) (v_mem a) (v_out a))
  | spec_close_fails fd : not_open a fd → call_spec pd a (Close fd) None a.

Section calls.
Context {St : Type} `{PagePools St} {F : Type} `{FileSystem F} `{SystemFiles F} `{!FileLaws F}.
Context (thread_create : list Z → Z → M (task St F) Z).
Implicit Types (k : task St F) (S : gmap Z (Z → Z)) (f : Z → Z) (a : view).
Local Notation vmof k := (machine (proc k)).

(** ** What the kernel shows to the process *)

Definition base k S f a : Prop :=
  vm_ok (vmof k) S ∧ S !! active (vmof k) = Some f ∧ file_lock k = None ∧ next_fd (proc k) = v_next a ∧ 2 ≤ v_next a ≤ FD_MAX
  ∧ memory (vmof k) S (v_mem a) ∧ console k = v_out a.
Definition slot k (fd : Z) : Z := default NULL (fd_table (proc k) !! fd).
Definition files k a : Prop :=
  match v_open a with
  | None => fs_holds (disk (proc k)) (v_files a) ∧ ∀ fd, 2 ≤ fd < v_next a → slot k fd = NULL
  | Some (fd, nm, p) =>
      fs_open (disk (proc k)) (v_files a) (slot k fd) nm p ∧ 2 ≤ fd < v_next a
      ∧ ∀ fd', 2 ≤ fd' < v_next a → fd' ≠ fd → slot k fd' = NULL
  end.
Definition shows k S f a : Prop := base k S f a ∧ files k a.

(** The calls that are covered: with a file open, no other is opened, created
    or removed; sizes and positions are those of [off_t]; the buffer of [read]
    is writable; [tell] is for an open file. *)
Definition legal f a (c : call) : Prop :=
  match c with
  | Create nm n => v_open a = None ∧ Forall (λ c, 0 < c < 256) nm ∧ 0 ≤ n < 2^31 - 512
  | Remove nm => v_open a = None
  | Open nm => v_open a = None ∧ v_next a < FD_MAX
  | Filesize fd => True
  | Read fd buffer n =>
      fd ≠ STDIN_FILENO ∧ 0 ≤ n < 2^31 ∧ 0 ≤ buffer ∧ buffer + n ≤ PHYS_BASE
      ∧ ∀ i, 0 ≤ i < n → writable f (buffer + i)
  | Write fd (Some bs) n => n = Z.of_nat (length bs) ∧ n < 2^31 ∧ Forall (λ c, 0 ≤ c < 256) bs
  | Seek fd q => 0 ≤ q < 2^31
  | Tell fd => ∃ nm p, v_open a = Some (fd, nm, p)
  | Close fd => True
  | _ => False
  end.

(** ** Descriptors *)

Lemma set_proc_same k : set_proc (proc k) k = k.
Proof. by destruct k. Qed.

Lemma slot_ok fd (p : process St F) : 2 ≤ fd < FD_MAX → fd_slot fd p = Ok (tt, p).
Proof. intros ?. unfold fd_slot. by destruct (Z.leb_spec 2 fd), (Z.ltb_spec fd FD_MAX); [|lia..]. Qed.

Lemma descriptor_eq k fd :
  next_fd (proc k) ≤ FD_MAX →
  on_proc (process_get_file fd) k = Ok (if decide (2 ≤ fd < next_fd (proc k)) then slot k fd else NULL, k).
Proof.
  intros Hr. unfold on_proc, zoom, process_get_file. erewrite bind_ok by done.
  destruct (Z.leb_spec fd 1), (Z.leb_spec (next_fd (proc k)) fd), (decide (2 ≤ fd < next_fd (proc k))); try lia; cbn [orb];
    try (unfold mret, M_ret; by rewrite set_proc_same).
  erewrite bind_ok by (apply slot_ok; lia). unfold gets. by rewrite set_proc_same.
Qed.
Lemma get_slot k S f a fd :
  base k S f a → on_proc (process_get_file fd) k = Ok (if decide (2 ≤ fd < v_next a) then slot k fd else NULL, k).
Proof. intros (_ & _ & _ & Hn & Hr & _). rewrite <- Hn in *. apply descriptor_eq. lia. Qed.
Lemma get_open k S f a fd nm p :
  shows k S f a → v_open a = Some (fd, nm, p) →
  on_proc (process_get_file fd) k = Ok (slot k fd, k) ∧ fs_open (disk (proc k)) (v_files a) (slot k fd) nm p
  ∧ 2 ≤ fd < v_next a ∧ (slot k fd =? NULL) = false ∧ 0 ≤ p < 2^31
  ∧ ∃ c, v_files a !! nm = Some c ∧ Z.of_nat (length c) < 2^31 ∧ opened a fd nm c p ∧ Forall (λ b, 0 ≤ b < 256) c.
Proof.
  intros [Hb Hf] Ho. unfold files in Hf. rewrite Ho in Hf. destruct Hf as (Hop & Hr & _).
  destruct (fs_open_file _ _ _ _ _ Hop) as (Hh & Hp & c & Hc & Hl & Hby). split_and!; try done; try lia.
  - rewrite (get_slot k S f a) by done. by rewrite decide_True.
  - by apply Z.eqb_neq.
  - by exists c.
Qed.
Lemma get_closed k S f a fd : shows k S f a → not_open a fd → on_proc (process_get_file fd) k = Ok (NULL, k).
Proof.
  intros [Hb Hf] Ho. rewrite (get_slot k S f a) by done. destruct (decide (2 ≤ fd < v_next a)) as [Hr|]; [|done].
  unfold files in Hf. destruct (v_open a) as [[[fd' nm] p]|] eqn:E.
  - destruct Hf as (_ & _ & Hf). rewrite Hf; [done | done|]. intros ->. by apply (Ho nm p).
  - destruct Hf as [_ Hf]. by rewrite Hf.
Qed.
Lemma open_or_not a fd : (∃ nm p, v_open a = Some (fd, nm, p)) ∨ not_open a fd.
Proof.
  destruct (v_open a) as [[[fd' nm] p]|] eqn:E; [|right; intros nm p; by rewrite E].
  destruct (decide (fd' = fd)) as [->|]; [by left; exists nm, p|]. right. intros nm' p'. rewrite E. congruence.
Qed.

(** ** The calls *)

Definition does k S f a (c : call) (r : outcome (option Z)) k' : Prop :=
  ∃ x a', r = Returns x ∧ call_spec (active (vmof k)) a c x a' ∧ shows k' S f a' ∧ active (vmof k') = active (vmof k).

Lemma does_intro k S f a c x a' k' :
  call_spec (active (vmof k)) a c x a' → shows k' S f a' → active (vmof k') = active (vmof k) → does k S f a c (Returns x) k'.
Proof. intros ? ? ?. by exists x, a'. Qed.

Lemma wp_disk {A} k (m : M F A) (Q : A → task St F → Prop) :
  wp m (λ x d, Q x (set_proc (set_disk d (proc k)) k)) (disk (proc k)) → wp (on_proc (on_disk m)) Q k.
Proof. intros Hm. by apply wp_zoom, wp_zoom. Qed.

(** The file system changes, and the open file with it. *)
Lemma shows_disk k S f a d m o :
  base k S f a → files (set_proc (set_disk d (proc k)) k) (mk_view m o (v_next a) (v_mem a) (v_out a)) →
  shows (set_proc (set_disk d (proc k)) k) S f (mk_view m o (v_next a) (v_mem a) (v_out a)).
Proof. intros Hb Hf. by split. Qed.

Lemma create_ok k S f a nm n :
  shows k S f a → legal f a (Create nm n) → wp (perform thread_create true (Create nm n)) (does k S f a (Create nm n)) k.
Proof.
  intros [Hb Hf] (Ho & Hnm & Hn). unfold files in Hf. rewrite Ho in Hf. destruct Hf as [Hh Hs]. cbn [perform]. unfold value, create.
  rewrite FileIO.s32_small by lia. apply wp_bind, wp_bind, wp_disk. eapply wp_mono; [by apply (create_law _ (v_files a))|].
  intros [] d Hd; apply wp_ret, wp_ret.
  - destruct Hd as (Hv & Hnone & Hd). eapply does_intro; [by apply spec_create | |done].
    apply shows_disk; [done|]. unfold files. simpl. by rewrite Ho.
  - eapply does_intro; [by apply spec_create_fails | |done]. destruct a as [m o nx g out]. simpl in *. subst o.
    by apply (shows_disk k S f (mk_view m None nx g out)).
Qed.
Lemma remove_ok k S f a nm :
  shows k S f a → legal f a (Remove nm) → wp (perform thread_create true (Remove nm)) (does k S f a (Remove nm)) k.
Proof.
  intros [Hb Hf] Ho. simpl in Ho. unfold files in Hf. rewrite Ho in Hf. destruct Hf as [Hh Hs]. cbn [perform]. unfold value, remove.
  apply wp_bind, wp_bind, wp_disk. eapply wp_mono; [by apply (remove_law _ (v_files a))|].
  intros ok d [Hd Hok]. apply wp_ret, wp_ret. assert (ok = bool_decide (is_Some (v_files a !! nm))) as ->.
  { destruct ok; symmetry; [by apply bool_decide_eq_true, Hok|]. apply bool_decide_eq_false. intros Hm. by apply Hok in Hm. }
  eapply does_intro; [| |done].
  - assert (∀ b, u32 (Z.b2z b) = Z.b2z b) as Hu by (by intros []). unfold eax. rewrite Hu. by apply spec_remove.
  - apply shows_disk; [done|]. unfold files. simpl. by rewrite Ho.
Qed.

Lemma wp_acquire k (Q : unit → task St F → Prop) :
  file_lock k = None → Q tt (set_file_lock (Some (cur (proc k))) k) → wp acquire_file_lock Q k.
Proof. intros Hl HQ. unfold acquire_file_lock. apply wp_bind, wp_gets, wp_zoom. rewrite Hl. by apply wp_lock_acquire. Qed.
Lemma wp_release k (Q : unit → task St F → Prop) :
  file_lock k = Some (cur (proc k)) → Q tt (set_file_lock None k) → wp release_file_lock Q k.
Proof. intros Hl HQ. unfold release_file_lock. apply wp_bind, wp_gets, wp_zoom. rewrite Hl. by apply wp_lock_release. Qed.

Lemma shows_next k S f a : shows k S f a → 2 ≤ v_next a ≤ FD_MAX ∧ file_lock k = None.
Proof. by intros [(_ & _ & ? & _ & ? & _) _]. Qed.

Lemma fd_max_eq : FD_MAX = 2050.
Proof. done. Qed.
Lemma add_file_ok (p : process St F) h (Q : Z → process St F → Prop) :
  h ≠ 0 → 2 ≤ next_fd p < FD_MAX →
  Q (next_fd p) (set_fd_table (<[next_fd p := h]> (fd_table p)) (set_next_fd (next_fd p + 1) p)) → wp (process_add_file h) Q p.
Proof.
  intros Hh Hn HQ. unfold process_add_file. destruct (Z.eqb_spec h NULL); [done|].
  apply wp_bind, wp_gets, wp_bind, wp_modify, wp_bind. rewrite fd_max_eq in Hn. rewrite FileIO.s32_small by lia.
  unfold fd_slot. rewrite fd_max_eq. destruct (Z.leb_spec 2 (next_fd p)), (Z.ltb_spec (next_fd p) 2050); try lia.
  apply wp_ret, wp_bind, wp_modify, wp_ret. done.
Qed.

Lemma open_ok k S f a nm :
  shows k S f a → legal f a (Open nm) → wp (perform thread_create true (Open nm)) (does k S f a (Open nm)) k.
Proof.
  intros Hsh [Ho Hnx]. destruct (shows_next _ _ _ _ Hsh) as [Hr Hl]. destruct Hsh as [Hb Hf]. unfold files in Hf. rewrite Ho in Hf.
  destruct Hf as [Hh Hs]. pose proof Hb as (Hv & E & _ & Hn & _ & Hm & Hc). cbn [perform]. unfold value, open.
  apply wp_bind, wp_bind, wp_acquire; [done|]. apply wp_bind, wp_disk. eapply wp_mono; [by apply (open_law _ (v_files a))|].
  intros h d Hd. destruct (v_files a !! nm) as [c|] eqn:Hc'.
  - destruct (fs_open_file _ _ _ _ _ Hd) as (Hh0 & _). apply wp_bind, wp_zoom, add_file_ok; [done | simpl; lia|]. simpl.
    apply wp_bind, wp_release; [done|]. apply wp_ret, wp_ret. eapply does_intro; [| |done].
    + unfold eax. rewrite Hn, u32_small by (rewrite fd_max_eq in Hnx; lia). by eapply spec_open.
    + split; [split_and!; try done; simpl; lia|]. unfold files, slot. simpl. rewrite Hn, lookup_insert_eq. simpl.
      split_and!; try done; try lia. intros fd' Hfd' Hne. rewrite lookup_insert_ne by done. apply Hs. lia.
  - destruct Hd as [-> Hd]. apply wp_bind, wp_zoom. unfold process_add_file. simpl. apply wp_ret.
    apply wp_bind, wp_release; [done|]. apply wp_ret, wp_ret. eapply does_intro; [by apply spec_open_fails | |done].
    split; [done|]. unfold files. by rewrite Ho.
Qed.

Lemma shows_moved k S f a fd nm p d m p' :
  shows k S f a → v_open a = Some (fd, nm, p) → fs_open d m (slot k fd) nm p' →
  shows (set_proc (set_disk d (proc k)) k) S f (mk_view m (Some (fd, nm, p')) (v_next a) (v_mem a) (v_out a)).
Proof.
  intros [Hb Hf] Ho Hd. apply shows_disk; [done|]. unfold files in *. rewrite Ho in Hf. destruct Hf as (_ & Hr & Hs). by split; [|split].
Qed.
Lemma view_eta a o : v_open a = o → mk_view (v_files a) o (v_next a) (v_mem a) (v_out a) = a.
Proof. intros <-. by destruct a. Qed.

Lemma filesize_ok k S f a fd :
  shows k S f a → wp (perform thread_create true (Filesize fd)) (does k S f a (Filesize fd)) k.
Proof.
  intros Hs. cbn [perform]. unfold value, filesize. destruct (open_or_not a fd) as [(nm & p & Ho)|Hno].
  - destruct (get_open _ _ _ _ _ _ _ Hs Ho) as (Hg & Hop & Hr & Hne & Hp & c & Hc & Hl & Hod & Hby).
    apply wp_bind, wp_bind. eapply wp_eq; [exact Hg|]. rewrite Hne. apply wp_disk.
    eapply wp_mono; [by apply (length_law _ (v_files a) _ nm c p)|]. intros n d [-> Hd]. apply wp_ret. eapply does_intro; [| |done].
    + unfold eax. rewrite u32_small by lia. by eapply spec_filesize.
    + rewrite <- (view_eta a _ Ho) at 1. by apply (shows_moved k S f a fd nm p).
  - apply wp_bind, wp_bind. eapply wp_eq; [by apply (get_closed k S f a)|]. apply wp_ret, wp_ret.
    eapply does_intro; [by apply spec_filesize_fails | done | done].
Qed.
Lemma seek_ok k S f a fd q :
  shows k S f a → legal f a (Seek fd q) → wp (perform thread_create true (Seek fd q)) (does k S f a (Seek fd q)) k.
Proof.
  intros Hs Hq. simpl in Hq. cbn [perform]. unfold none, seek. destruct (open_or_not a fd) as [(nm & p & Ho)|Hno].
  - destruct (get_open _ _ _ _ _ _ _ Hs Ho) as (Hg & Hop & Hr & Hne & Hp & c & Hc & Hl & Hod & Hby).
    apply wp_bind, wp_bind. eapply wp_eq; [exact Hg|]. rewrite Hne, FileIO.s32_small by lia. apply wp_disk.
    eapply wp_mono; [by apply (seek_law _ (v_files a) _ nm p)|]. intros [] d Hd. apply wp_ret.
    eapply does_intro; [by eapply spec_seek | by apply (shows_moved k S f a fd nm p) | done].
  - apply wp_bind, wp_bind. eapply wp_eq; [by apply (get_closed k S f a)|]. apply wp_ret, wp_ret.
    eapply does_intro; [by apply spec_seek_fails | done | done].
Qed.
Lemma tell_ok k S f a fd :
  shows k S f a → legal f a (Tell fd) → wp (perform thread_create true (Tell fd)) (does k S f a (Tell fd)) k.
Proof.
  intros Hs (nm & p & Ho). cbn [perform]. unfold tell.
  destruct (get_open _ _ _ _ _ _ _ Hs Ho) as (Hg & Hop & Hr & Hne & Hp & c & Hc & Hl & Hod & Hby).
  apply wp_bind, wp_bind. eapply wp_eq; [exact Hg|]. rewrite Hne. apply wp_bind, wp_disk.
  eapply wp_mono; [by apply (tell_law _ (v_files a) _ nm p)|]. intros n d [-> Hd]. apply wp_ret, wp_ret. eapply does_intro; [| |done].
  - unfold eax. rewrite u32_small by lia. by eapply spec_tell.
  - rewrite <- (view_eta a _ Ho) at 1. by apply (shows_moved k S f a fd nm p).
Qed.

Lemma close_file_eq k S f a fd (Q : unit → task St F → Prop) :
  base k S f a → 2 ≤ fd < v_next a →
  wp (file_close (slot k fd)) (λ _ d, Q tt (set_proc (set_fd_table (<[fd := NULL]> (fd_table (proc k))) (set_disk d (proc k))) k))
    (disk (proc k)) →
  wp (close fd) Q k.
Proof.
  intros (_ & _ & _ & Hn & Hr & _) Hfd Hw. unfold close. apply wp_zoom. unfold process_close_file. apply wp_bind, wp_gets. rewrite Hn.
  destruct (Z.leb_spec fd 1), (Z.leb_spec (v_next a) fd); try lia. cbn [orb]. apply wp_bind.
  eapply wp_eq; [apply slot_ok; lia|]. apply wp_bind, wp_gets, wp_bind, wp_zoom. eapply wp_mono; [exact Hw|].
  intros [] d HQ. by apply wp_modify.
Qed.

Lemma close_ok k S f a fd : shows k S f a → wp (perform thread_create true (Close fd)) (does k S f a (Close fd)) k.
Proof.
  intros Hs. cbn [perform]. unfold none. apply wp_bind. destruct (open_or_not a fd) as [(nm & p & Ho)|Hno].
  - destruct (get_open _ _ _ _ _ _ _ Hs Ho) as (_ & Hop & Hr & _ & _ & c & _ & _ & Hod & _). destruct Hs as [Hb Hf].
    apply (close_file_eq k S f a); [done | done|]. eapply wp_mono; [by apply (close_law _ (v_files a) _ nm p)|].
    intros [] d Hd. apply wp_ret. eapply does_intro; [by eapply spec_close | |done]. split; [done|].
    unfold files in *. rewrite Ho in Hf. destruct Hf as (_ & _ & Hf). split; [done|]. intros fd' Hfd'. unfold slot. simpl.
    destruct (decide (fd' = fd)) as [->|]; [by rewrite lookup_insert_eq|]. rewrite lookup_insert_ne by done. by apply Hf.
  - pose proof (get_closed k S f a fd Hs Hno) as Hg. pose proof Hs as [Hb Hf]. rewrite (get_slot k S f a) in Hg by done.
    destruct (decide (2 ≤ fd < v_next a)) as [Hr|Hr].
    + injection Hg as Hz. apply (close_file_eq k S f a); [done | done|]. rewrite Hz. eapply wp_eq; [apply file_close_null|]. apply wp_ret.
      eapply does_intro; [by apply spec_close_fails | |done]. split; [done|]. revert Hf. unfold files.
      assert (∀ fd', slot (set_proc (set_fd_table (<[fd := NULL]> (fd_table (proc k))) (set_disk (disk (proc k)) (proc k))) k) fd'
                     = slot k fd') as Hsl.
      { intros fd'. unfold slot at 1. simpl. destruct (decide (fd' = fd)) as [->|]; [by rewrite lookup_insert_eq|].
        by rewrite lookup_insert_ne. }
      destruct (v_open a) as [[[fd' nm] p]|]; [intros (? & ? & Hf); rewrite Hsl | intros (? & Hf)];
        (split; [done|]); [split; [done|] |]; intros x; rewrite Hsl; apply Hf.
    + unfold close. apply wp_zoom. unfold process_close_file. apply wp_bind, wp_gets.
      destruct Hb as (_ & _ & _ & Hn & _). rewrite Hn. destruct (Z.leb_spec fd 1), (Z.leb_spec (v_next a) fd); try lia; cbn [orb];
        (apply wp_ret, wp_ret; rewrite set_proc_same; eapply does_intro; [by apply spec_close_fails | done | done]).
Qed.

Lemma locked_eq {A} k (m : M (process St F) A) x l :
  on_proc m k = Ok (x, k) → on_proc m (set_file_lock l k) = Ok (x, set_file_lock l k).
Proof.
  unfold on_proc, zoom. simpl. destruct (m (proc k)) as [[y p]|]; [|done]. intros [= -> Hk]. f_equal. f_equal.
  by rewrite <- Hk at 2.
Qed.
(** Taking the lock and giving it back. *)
Lemma unlock k S f a : shows k S f a → shows (set_file_lock None k) S f a.
Proof. intros [(? & ? & ? & ? & ? & ? & ?) Hf]. split; [|done]. done. Qed.

Lemma write_ok k S f a fd o n :
  shows k S f a → legal f a (Write fd o n) → wp (perform thread_create true (Write fd o n)) (does k S f a (Write fd o n)) k.
Proof.
  intros Hs Hlg. destruct o as [bs|]; [|done]. destruct Hlg as (-> & Hn & Hbs). cbn [perform andb]. apply wp_bind.
  assert (∀ Q : list Z → task St F → Prop, Q bs k → wp (if 0 <? Z.of_nat (length bs) then of_option Fault (Some bs) else mret []) Q k) as Hbytes.
  { intros Q HQ. destruct bs; simpl; [done|]. done. }
  apply Hbytes. destruct (shows_next _ _ _ _ Hs) as [_ Hl]. unfold value, write.
  apply wp_bind, wp_bind, wp_acquire; [done|]. set (k1 := set_file_lock _ k).
  destruct (Z.eqb_spec fd STDOUT_FILENO) as [->|Hfd].
  { apply wp_bind. unfold putbuf. rewrite Z.ltb_irrefl. apply wp_modify, wp_bind, wp_release; [done|]. apply wp_ret, wp_ret.
    rewrite FileIO.s32_small by lia. unfold eax. rewrite u32_small by lia.
    eapply does_intro; [by apply spec_print | |done]. destruct Hs as [(? & ? & ? & ? & ? & ? & Hc) Hf]. split; [|done].
    unfold base. simpl. rewrite Nat2Z.id, firstn_all, Hc. done. }
  destruct (open_or_not a fd) as [(nm & p & Ho)|Hno].
  - destruct (get_open _ _ _ _ _ _ _ Hs Ho) as (Hg & Hop & Hr & Hne & Hp & c & Hc & Hlen & Hod & Hby).
    apply wp_bind. eapply wp_eq; [by apply locked_eq|]. rewrite Hne, FileIO.s32_small by lia. apply wp_bind, wp_disk.
    eapply wp_mono; [by apply (write_law _ (v_files a) _ nm c p)|]. intros x d [-> Hd]. apply wp_bind, wp_release; [done|].
    apply wp_ret, wp_ret. unfold eax. rewrite u32_small by (unfold FileIO.write_len; lia).
    eapply does_intro; [by eapply spec_write | |done]. exact (unlock _ _ _ _ (shows_moved k S f a fd nm p d _ _ Hs Ho Hd)).
  - apply wp_bind. eapply wp_eq; [apply locked_eq; by apply (get_closed k S f a)|]. apply wp_bind, wp_release; [done|].
    apply wp_ret, wp_ret. eapply does_intro; [by apply spec_write_fails | |done]. exact (unlock k S f a Hs).
Qed.

Lemma store_user_ok k S f g buffer bs (Q : unit → task St F → Prop) :
  vm_ok (vmof k) S → S !! active (vmof k) = Some f → memory (vmof k) S g → Forall (λ c, 0 ≤ c < 256) bs →
  0 ≤ buffer → buffer + Z.of_nat (length bs) ≤ PHYS_BASE → (∀ i, 0 ≤ i < Z.of_nat (length bs) → writable f (buffer + i)) →
  (∀ m', vm_ok (set_mem m' (vmof k)) S → memory (set_mem m' (vmof k)) S (stored (active (vmof k)) buffer bs g) →
     Q tt (set_proc (set_machine (set_mem m' (vmof k)) (proc k)) k)) →
  wp (store_user buffer bs) Q k.
Proof.
  intros Hv E Hm Hbs Hb Hend Hw HQ. unfold store_user.
  apply (wp_for_loop (λ i k', ∃ m', k' = set_proc (set_machine (set_mem m' (vmof k)) (proc k)) k ∧ vm_ok (set_mem m' (vmof k)) S
    ∧ memory (set_mem m' (vmof k)) S (stored (active (vmof k)) buffer (take (Z.to_nat i) bs) g))).
  - exists (mem (vmof k)). replace (set_mem (mem (vmof k)) (vmof k)) with (vmof k) by (by destruct (vmof k)).
    split_and!; [by destruct k as [[]] | done|]. intros pd f' va E' Hva. unfold stored. simpl.
    rewrite decide_False by lia. by apply (Hm pd f').
  - intros i k' Hi (m' & -> & Hv' & Hm'). assert (∃ x, bs !! Z.to_nat i = Some x) as [x Hx] by (apply lookup_lt_is_Some; lia).
    rewrite Hx. cbn [default]. apply wp_zoom, wp_zoom. simpl. rewrite u32_small by (unfold PHYS_BASE in Hend; lia).
    replace (buffer + i) with (buffer + Z.of_nat (Z.to_nat i)) by lia.
    destruct (memory_store (set_mem m' (vmof k)) S f g buffer x (Z.to_nat i) bs) as (m2 & Hs & Hv2 & Hm2); try done.
    + unfold PHYS_BASE in *. lia.
    + replace (Z.of_nat (Z.to_nat i)) with i by lia. apply Hw. lia.
    + rewrite Forall_lookup in Hbs. by eapply Hbs.
    + eapply wp_eq; [exact Hs|]. exists m2. split_and!; [done | done|]. by replace (Z.to_nat (i + 1)) with (Datatypes.S (Z.to_nat i)) by lia.
  - intros k' (m' & -> & Hv' & Hm'). rewrite Z.add_0_l, Nat2Z.id, firstn_all in Hm'. by apply HQ.
Qed.

Lemma read_ok k S f a fd buffer n :
  shows k S f a → legal f a (Read fd buffer n) → wp (perform thread_create true (Read fd buffer n)) (does k S f a (Read fd buffer n)) k.
Proof.
  intros Hs (Hfd & Hn & Hb0 & Hend & Hw). destruct (shows_next _ _ _ _ Hs) as [_ Hl]. cbn [perform]. unfold value, read.
  apply wp_bind, wp_bind, wp_acquire; [done|]. destruct (Z.eqb_spec fd STDIN_FILENO); [done|].
  destruct (open_or_not a fd) as [(nm & p & Ho)|Hno].
  2: { apply wp_bind. eapply wp_eq; [apply locked_eq; by apply (get_closed k S f a)|]. apply wp_bind, wp_release; [done|].
       apply wp_ret, wp_ret. eapply does_intro; [by apply spec_read_fails | exact (unlock k S f a Hs) | done]. }
  destruct (get_open _ _ _ _ _ _ _ Hs Ho) as (Hg & Hop & Hr & Hne & Hp & c & Hc & Hlen & Hod & Hby).
  apply wp_bind. eapply wp_eq; [by apply locked_eq|]. rewrite Hne, FileIO.s32_small by lia. apply wp_bind, wp_disk.
  eapply wp_mono; [by apply (read_law _ (v_files a) _ nm c p)|]. intros bs d [Hbs Hd].
  pose proof (shows_moved k S f a fd nm p d _ _ Hs Ho Hd) as [(Hv & E & _ & Hnx & Hrange & Hm & Hcon) Hf].
  assert (Z.of_nat (length bs) ≤ n) as Hlb by (rewrite Hbs; unfold FileIO.read_spec; rewrite length_take; lia).
  apply wp_bind, (store_user_ok _ S f (v_mem a)); try done; [by rewrite Hbs; apply Forall_take, Forall_drop | lia | intros i Hi; apply Hw; lia|].
  intros m' Hv' Hm'. apply wp_bind, wp_release; [done|]. apply wp_ret, wp_ret. unfold eax. rewrite u32_small by lia.
  eapply does_intro; [by eapply spec_read | |done]. split; [|done]. by repeat (split; [done|]).
Qed.

Lemma call_ok k S f a c : shows k S f a → legal f a c → wp (perform thread_create true c) (does k S f a c) k.
Proof.
  intros Hs Hlg. destruct c; try done.
  - by apply create_ok.
  - by apply remove_ok.
  - by apply open_ok.
  - by apply filesize_ok.
  - by apply read_ok.
  - by apply write_ok.
  - by apply seek_ok.
  - by apply tell_ok.
  - by apply close_ok.
Qed.
End calls.
End SyscallFiles.
