(* ===== verification/SyscallDisk.v ===== *)
(** * System calls on the file system

    filesys/ keeps the contract that the system calls are proved against; the
    properties of the handler of system calls. *)
From stdpp Require Import base gmap list list_numbers.
From Stdlib Require Import ZArith Lia.
From S2P Require Import Prelude Vaddr Bitmap Palloc Memory Pagedir PagedirInv PagedirOps PagedirProps Block Filesys FileIO Directory.
From S2P Require Import FilesysInv FilesysOps FilesysProps Process ProcessSegments ProcessLoad ProcessProps ProcessFiles.
From S2P Require Import Syscall SyscallFetch SyscallProps SyscallFiles.

Module SyscallDisk.

Section disk.
Context {D : Type} `{BlockDevices D}.
Context (malloc_ok : Z → bool) (Hmem : ∀ a, malloc_ok a = true).
Context (stack_bytes : list Z) (Hstack : length stack_bytes = 20%nat ∧ Forall (λ c, 0 ≤ c < 256) stack_bytes).

Definition disk_system : SystemFiles (Filesys.fs D) :=
  Build_SystemFiles (Filesys.fs D) (Filesys.file_write malloc_ok) Filesys.file_tell
    (Filesys.filesys_create malloc_ok stack_bytes) (Filesys.filesys_remove malloc_ok stack_bytes).
Definition disk_files : FileSystem (Filesys.fs D) := ProcessFiles.program_files malloc_ok Hmem stack_bytes Hstack.

Lemma disk_create f m nm n :
  FilesysOps.holds f m → Forall (λ c, 0 < c < 256) nm → 0 ≤ n < 2^31 - 512 →
  wp (Filesys.filesys_create malloc_ok stack_bytes nm n) (λ (ok : bool) g,
    if ok then Directory.valid_name nm ∧ m !! nm = None ∧ FilesysOps.holds g (<[nm := replicate (Z.to_nat n) 0]> m)
    else FilesysOps.holds g m) f.
Proof.
  intros Hh Hnm Hn. eapply wp_mono; [by apply (FilesysOps.filesys_create_ok malloc_ok Hmem stack_bytes Hstack f m)|].
  intros [] g Hg; [done | apply Hg].
Qed.

Definition disk_laws : @FileLaws (Filesys.fs D) disk_files disk_system.
Proof.
  apply (@Build_FileLaws (Filesys.fs D) disk_files disk_system ProcessFiles.named_file).
  - by eapply ProcessFiles.named_bytes.
  - exact disk_create.
  - by apply FilesysOps.filesys_remove_ok.
  - by apply ProcessFiles.open_named.
  - by eapply ProcessFiles.close_named.
  - by eapply ProcessFiles.length_named.
  - by eapply ProcessFiles.read_named.
  - by eapply ProcessFiles.write_named.
  - by eapply ProcessFiles.seek_named.
  - by eapply ProcessFiles.tell_named.
Defined.
End disk.

Import Vaddr Memory Pagedir PagedirInv PagedirOps PagedirProps Process ProcessSegments ProcessLoad.
Import Syscall SyscallFetch SyscallProps SyscallFiles.

(** ** A process with a page of data *)

Section data.
Context {St : Type} `{PagePools St}.

(** [bs] at the lowest user address of the address space [pd]. *)
Definition data_setup (pd kpage : Z) (bs : list Z) : M (vm St) bool :=
  ok ← pagedir_set_page pd USER_BASE kpage true;
  if negb ok then mret false else
  pagedir_activate pd ;; modify (λ v, set_mem (store_bytes kpage bs (mem v)) v) ;; mret true.

Definition has_page (v : vm St) : Prop :=
  ∃ S f, vm_ok v S ∧ S !! active v = Some f ∧ ∀ i, 0 ≤ i < 4096 → writable f (USER_BASE + i).

Lemma data_setup_ok v S pd kpage bs :
  vm_ok v (<[pd := λ _, 0]> S) → pd ≠ init_page_dir v → unmapped v (<[pd := λ _, 0]> S) kpage →
  Forall (λ b, 0 ≤ b < 256) bs → Z.of_nat (length bs) ≤ 4096 →
  wp (data_setup pd kpage bs) (λ b v', b = true → has_page v') v.
Proof.
  intros Hv Hni Hum Hbs Hlen. set (S0 := <[pd := λ _, 0]> S) in *. assert (S0 !! pd = Some (λ _, 0)) as E by apply lookup_insert_eq.
  pose proof (used_ram_page v S0 kpage Hv (proj1 Hum)) as Hkr. unfold data_setup.
  apply wp_bind. eapply wp_mono; [apply (pagedir_set_page_ok v S0 pd (λ _, 0)); try done; congruence|].
  intros [] v2 (Hx2 & Hg2 & Hv2); [|by apply wp_ret]. cbn [negb]. change (USER_BASE / 4096) with 32840 in Hv2.
  set (f := upd (λ _, 0) 32840 (user_pte kpage true)) in *. unfold S0 in Hv2. rewrite insert_insert_eq in Hv2.
  assert ((<[pd := f]> S) !! pd = Some f) as E2 by apply lookup_insert_eq.
  destruct (pd_page v2 _ pd f (proj1 Hv2) E2) as (Hpos & _).
  apply wp_bind. destruct (proj1 (wp_Ok _ _ _) (pagedir_activate_ok v2 _ pd Hv2 (or_intror (ex_intro _ f E2)))) as ([] & v3 & Hrun & Hv3 & _ & Hm3 & Hp3 & Ha3).
  rewrite (proj2 (Z.eqb_neq pd NULL)) in Ha3 by (unfold NULL, PHYS_BASE in *; lia). eapply wp_eq; [exact Hrun|].
  apply wp_bind, wp_modify, wp_ret. intros _. exists (<[pd := f]> S), f.
  change (active (set_mem _ v3)) with (active v3). rewrite Ha3. split_and!; [|done|].
  - apply (write_page_ok v3 _ kpage); [done | by apply (mapped_plain v3 _ pd f 32840 kpage true) | |].
    + intros a Ha. apply store_bytes_out. lia.
    + apply store_bytes_bytes; [done|]. by destruct Hv3 as ((_ & ? & _) & _).
  - intros i Hi. unfold writable. replace ((USER_BASE + i) / 4096) with 32840 by (unfold USER_BASE; div_lia).
    destruct (user_pte_bits kpage true Hkr) as (? & _ & ? & _). done.
Qed.
End data.

Lemma perform_mem {St} `{PagePools St} {F} `{FileSystem F} `{SystemFiles F} thread_create c b :
  copy_size (Got c) = 0 → @perform St _ F _ _ thread_create b c = perform thread_create true c.
Proof. destruct c; simpl; try done; try lia. intros ->. by rewrite Z.ltb_irrefl, !andb_false_r. Qed.

(** The arguments of [create ("a", 600)], and of [open] with a name that is
    not mapped. *)
Definition demo_data : list Z :=
  ProcessProps.le32 4 ++ ProcessProps.le32 134512656 ++ ProcessProps.le32 600 ++ ProcessProps.le32 0 ++ [97; 0; 0; 0]
  ++ replicate 12 0 ++ ProcessProps.le32 6 ++ ProcessProps.le32 134520832.
Definition demo_run : res (bool * vm Palloc.palloc) :=
  @data_setup Palloc.palloc small_pools first_dir.1 user_frame.1 demo_data user_frame.2.
Definition demo_vm : vm Palloc.palloc := (result (false, user_frame.2) demo_run).2.
Lemma demo_ran : match demo_run with Ok (true, _) => true | _ => false end = true.
Proof. vm_compute. done. Qed.
Lemma demo_data_ok : Forall (λ b, 0 ≤ b < 256) demo_data ∧ Z.of_nat (length demo_data) ≤ 4096.
Proof. split; [|vm_compute; done]. vm_compute. repeat constructor; done. Qed.
Lemma demo_words :
  fetch_word demo_vm USER_BASE = Got 4 ∧ fetch_words demo_vm 2 USER_BASE = Got [134512656; 600]
  ∧ ubyte demo_vm 134512656 = Some 97 ∧ ubyte demo_vm 134512657 = Some 0
  ∧ fetch_word demo_vm (USER_BASE + 32) = Got 6 ∧ fetch_words demo_vm 1 (USER_BASE + 32) = Got [134520832]
  ∧ ubyte demo_vm 134520832 = None.
Proof. split_and!; vm_compute; done. Qed.
#[local] Opaque user_frame first_dir booted demo_data.
Lemma demo_page : @has_page Palloc.palloc small_pools demo_vm.
Proof.
  pose proof (@data_setup_ok Palloc.palloc small_pools user_frame.2 {[init_page_dir booted := λ _, 0]} first_dir.1 user_frame.1 demo_data
    ProcessProps.new_thread_ok dir_not_init user_frame_unmapped (proj1 demo_data_ok) (proj2 demo_data_ok)) as Hw.
  pose proof demo_ran as Hr. unfold demo_vm. unfold demo_run in *. revert Hw Hr. unfold wp.
  destruct (@data_setup Palloc.palloc small_pools first_dir.1 user_frame.1 demo_data user_frame.2) as [[[] v]|]; [|done..].
  intros Hw _. by apply Hw.
Qed.
#[local] Opaque demo_vm.

Lemma demo_call : fetch_call demo_vm USER_BASE (Got (Create [97] 600)).
Proof.
  destruct demo_words as (Hn & Hw & Hc & Hz & _). unfold fetch_call. rewrite Hn. unfold fetch_file, with_words. simpl Z.eqb.
  cbv iota zeta. rewrite Hw. exists (Got [97]). split; [|done].
  apply (string_char demo_vm _ 97 (Got [])); [done | exact Hc | done|]. apply string_end; [done | exact Hz].
Qed.

(** No process can be created, there is memory for copies, and the disk is
    empty. *)
Definition no_threads : list Z → Z → M (task Palloc.palloc (Filesys.fs Block.devices)) Z := λ _ _, mret TID_ERROR.
Definition demo_sys : sys Palloc.palloc (Filesys.fs Block.devices) :=
  mk_sys (mk_task (mk_process demo_vm FilesysProps.formatted_fs 3221282816 first_dir.1 2 ∅ 0 0) [] ∅ [97] 0 None [] []) ∅ 1.
Lemma demo_heap : heap_ok demo_sys.
Proof. split_and!; try done; lia. Qed.
Lemma demo_stack_ok : length FilesysProps.demo_stack = 20%nat ∧ Forall (λ c, 0 ≤ c < 256) FilesysProps.demo_stack.
Proof. split; [done|]. by apply Forall_replicate. Qed.
Definition demo_files : FileSystem (Filesys.fs Block.devices) :=
  @disk_files _ Block.block_devices (λ _, true) (λ _, eq_refl) FilesysProps.demo_stack demo_stack_ok.
Definition demo_system : SystemFiles (Filesys.fs Block.devices) :=
  @disk_system _ Block.block_devices (λ _, true) FilesysProps.demo_stack.
Definition demo_laws : @FileLaws _ demo_files demo_system :=
  @disk_laws _ Block.block_devices (λ _, true) (λ _, eq_refl) FilesysProps.demo_stack demo_stack_ok.
#[local] Opaque FilesysProps.formatted_fs.

Lemma demo_shows : ∃ S f a, @shows Palloc.palloc small_pools _ demo_files demo_system demo_laws (tsk demo_sys) S f a
  ∧ v_open a = None ∧ v_files a = ∅.
Proof.
  destruct demo_page as (S & f & Hv & E & _). exists S, f, (mk_view ∅ None 2 (byte_of demo_vm) []).
  split; [|done]. split; [|split; [exact FilesysProps.formatted_holds | intros fd Hfd; done]].
  repeat (split; [done|]). done.
Qed.

(** ** Claims *)

(** C14: The handler of system calls does what the process asks for.  What the
    process asks for is read off its memory: the number and the arguments
    above the stack pointer, and the strings and buffers that they point to.
    Whatever the memory holds, either the handler performs just that call with
    just these arguments, or, if an address of the arguments is not a user
    address, it ends the process with the status -1, or, if one is not mapped,
    the kernel faults.  A call that needs a copy for which there is no memory
    ends the process; the copies are free again afterwards, and the loops over
    user memory end. *)
Theorem syscall_handler_refines {St} `{PagePools St} {F} `{FileSystem F} `{SystemFiles F} thread_create malloc_ok
    (s : sys St F) esp :
  heap_ok s →
  ∃ f, fetch_call (machine (proc (tsk s))) esp f
    ∧ syscall_handler thread_create malloc_ok esp s = served thread_create malloc_ok s f.
Proof.
  intros Hh. destruct (fetch_call_total (machine (proc (tsk s))) esp) as [f Hf]. exists f. split; [done|]. by apply handler_eq.
Qed.
Lemma syscall_handler_refines_witness :
  ∃ f, fetch_call demo_vm USER_BASE f
    ∧ @syscall_handler Palloc.palloc small_pools _ demo_files demo_system no_threads (λ _ _, true) USER_BASE demo_sys
      = @served Palloc.palloc small_pools _ demo_files demo_system no_threads (λ _ _, true) demo_sys f.
Proof.
  exact (@syscall_handler_refines Palloc.palloc small_pools _ demo_files demo_system no_threads (λ _ _, true) demo_sys USER_BASE
    demo_heap).
Defined.

(** C15: System calls on files mean what they should, from the registers of
    the process down to its memory.  For a process that has at most one file
    open, every call to create, remove, open, read, write, seek, tell, measure
    and close files that is [legal] returns, if there is memory for the copies
    of its strings and for the file system.  A call is legal unless it
    creates, removes or opens a file while one is open, opens one when the
    table of descriptors is full, creates a file of 2^31 - 512 bytes or more,
    reads or writes 2^31 bytes or more, seeks to 2^31 or beyond, reads from
    the keyboard or to memory that is not mapped and writable, or asks for the
    position in a file that is not open.  Then what it returns and what it
    does are what the same operation does on a map from names to contents with
    a position in the open file; a descriptor that is not open is an error and changes nothing; a read
    stores just the bytes of the file in the buffer of the process; and the
    memory of every other process, the rest of its own memory, and the lock of
    the file system are as before. *)
Theorem file_calls_refine {St} `{PagePools St} {F} `{FileSystem F} `{SystemFiles F} `{!FileLaws F} thread_create malloc_ok
    (s : sys St F) esp S f a c :
  heap_ok s → shows (tsk s) S f a → fetch_call (machine (proc (tsk s))) esp (Got c) → legal f a c →
  copy_size (Got c) = 0 ∨ malloc_ok (next_block s) (copy_size (Got c)) = true →
  ∃ x a' s', syscall_handler thread_create malloc_ok esp s = Ok (Returns x, s')
    ∧ call_spec (active (machine (proc (tsk s)))) a c x a' ∧ shows (tsk s') S f a' ∧ heap s' = heap s
    ∧ active (machine (proc (tsk s'))) = active (machine (proc (tsk s))).
Proof.
  intros Hh Hs Hc Hlg Hmem.
  destruct (proj1 (wp_Ok _ _ _) (call_ok thread_create (tsk s) S f a c Hs Hlg)) as (r & k' & Hrun & x & a' & -> & Hspec & Hs' & Ha).
  exists x, a', (mk_sys k' (heap s) (after malloc_ok s (copy_size (Got c)))). split_and!; try done.
  rewrite (handler_eq thread_create malloc_ok s esp (Got c) Hh Hc). unfold served, serve.
  destruct Hmem as [Hz | ->]; [rewrite (perform_mem _ _ _ Hz)|]; by rewrite Hrun.
Qed.
Lemma file_calls_refine_witness :
  ∃ x s', @syscall_handler Palloc.palloc small_pools _ demo_files demo_system no_threads (λ _ _, true) USER_BASE demo_sys
          = Ok (Returns x, s') ∧ heap s' = ∅ ∧ (x = Some 0 ∨ x = Some 1).
Proof.
  destruct demo_shows as (S & f & a & Hs & Ho & Hf).
  destruct (@file_calls_refine Palloc.palloc small_pools _ demo_files demo_system demo_laws no_threads (λ _ _, true) demo_sys USER_BASE
    S f a (Create [97] 600) demo_heap Hs demo_call) as (x & a' & s' & Hrun & Hspec & _ & Hheap & _).
  - split; [exact Ho|]. split; [repeat constructor; lia | lia].
  - right. reflexivity.
  - exists x, s'. split; [exact Hrun|]. split; [exact Hheap|]. inversion Hspec; auto.
Defined.

(** C16: A process can halt the machine.  A file name that is a user address
    but not mapped is a page fault in the kernel, since the handler checks only
    that it is a user address; and a position of 2^31 or more in an open file
    is negative for [file_seek], which asserts that it is not. *)
Theorem hostile_calls_halt {St} `{PagePools St} {D} `{BlockDevices D} fs_malloc Hfs stack Hst thread_create malloc_ok
    (s : sys St (Filesys.fs D)) esp :
  heap_ok s →
  let handler := @syscall_handler St _ (Filesys.fs D) (disk_files fs_malloc Hfs stack Hst) (disk_system fs_malloc stack)
                   thread_create malloc_ok esp s in
  let v := machine (proc (tsk s)) in
  (∀ n k p ws, fetch_word v esp = Got n → (n, k) ∈ [(SYS_CREATE, 2%nat); (SYS_REMOVE, 1%nat); (SYS_EXEC, 1%nat); (SYS_OPEN, 1%nat)] →
     fetch_words v k esp = Got (p :: ws) → good_address (u32 p) = true → ubyte v (u32 p) = None → handler = Err Fault)
  ∧ (∀ fd q h, fetch_call v esp (Got (Seek fd q)) → 2^31 ≤ q < 2^32 →
       2 ≤ fd < next_fd (proc (tsk s)) → next_fd (proc (tsk s)) ≤ FD_MAX → fd_table (proc (tsk s)) !! fd = Some h → h ≠ 0 →
       handler = Err Panic).
Proof.
  intros Hh handler v. split.
  - intros n k p ws Hn Hk Hw Hg Hu. unfold handler. rewrite (handler_eq thread_create malloc_ok s esp Unmapped Hh).
    { by rewrite <- served_unmapped. }
    fold v. unfold fetch_call. rewrite Hn.
    repeat (apply elem_of_cons in Hk as [[= -> ->]|Hk]; [simpl Z.eqb; cbv iota zeta; unfold fetch_file, with_words; rewrite Hw;
      exists Unmapped; split; [by apply string_unmapped | done]|]). by apply elem_of_nil in Hk.
  - intros fd q h Hc Hq Hfd Hmax Ht Hne. unfold handler. rewrite (handler_eq thread_create malloc_ok s esp _ Hh Hc).
    rewrite served_plain by done. unfold on_task, zoom, serve, perform, none.
    erewrite bind_err; [done|]. unfold seek. erewrite bind_ok by (by apply descriptor_eq).
    rewrite decide_True by done. unfold slot. rewrite Ht. change (default NULL (Some h)) with h. destruct (Z.eqb_spec h NULL) as [->|_]; [done|].
    unfold on_proc, on_disk, zoom. change (@file_seek _ (disk_files fs_malloc Hfs stack Hst)) with (@Filesys.file_seek D).
    unfold Filesys.file_seek. erewrite bind_ok; [|unfold ASSERT; by rewrite (proj2 (Z.eqb_neq h Filesys.NULL))].
    cbv beta. erewrite bind_err; [done|]. unfold ASSERT, s32, sgn. rewrite Z.mod_small by lia.
    destruct (Z.ltb_spec q (2^(32-1))); [lia|]. by destruct (Z.leb_spec 0 (q - 2^32)); [lia|].
Qed.
Lemma hostile_calls_halt_witness :
  @syscall_handler Palloc.palloc small_pools _ demo_files demo_system no_threads (λ _ _, true) (USER_BASE + 32) demo_sys = Err Fault.
Proof.
  destruct demo_words as (_ & _ & _ & _ & Hn & Hw & Hu).
  exact (proj1 (@hostile_calls_halt Palloc.palloc small_pools _ Block.block_devices (λ _, true) (λ _, eq_refl) FilesysProps.demo_stack
    demo_stack_ok no_threads (λ _ _, true) demo_sys (USER_BASE + 32) demo_heap) 6 1%nat 134520832 [] Hn
    ltac:(apply (bool_decide_unpack _); reflexivity) Hw eq_refl Hu).
Defined.
End SyscallDisk.
