(* ===== verification/Stdio.v ===== *)
(** * Formatted output: lib/stdio.c

    A function that sends characters to [output] is the list of the
    characters that it sends, in order; the output functions themselves are
    [vsnprintf_helper] here and [vprintf_helper] of lib/kernel/console.c.  A
    [va_list] is the list of the arguments that are left. *)
From stdpp Require Import base gmap list list_numbers strings.
From Stdlib Require Import ZArith Lia.
From S2P Require Import Prelude Cstring Sort.

Module Stdio.
Import Mem Sort.

(** ** Results *)

#[export] Instance res_ret : MRet res := λ A a, Ok a.
#[export] Instance res_bind : MBind res := λ A B k m, match m with Ok a => k a | Err e => Err e end.

(** The characters of a string literal. *)
Fixpoint chars (s : string) : list Z :=
  match s with
  | EmptyString => []
  | String a s => Z.of_N (Ascii.N_of_ascii a) :: chars s
  end.

(** ** Arguments

    Every argument is a word of 32 bits on the stack, which [va_arg] reads
    whatever it stands for.  A word that is the address of a string comes with
    the characters that are there: [VString p s] is the word [p], and [s] is
    at [p].  The list ends where the arguments of the caller end. *)
Inductive va :=
  | VWord (x : Z)
  | VString (p : Z) (s : list Z).

Definition va_word (args : list va) : res (Z * list va) :=
  match args with
  | VWord x :: args | VString x _ :: args => Ok (u32 x, args)
  | [] => Err Fault
  end.
(** 64 bits are two words, the low one first. *)
Definition va_long (args : list va) : res (Z * list va) :=
  '(lo, args) ← va_word args;
  '(hi, args) ← va_word args;
  Ok (lo + 2^32 * hi, args).
(** The string at the address in the next word; [None] is the null pointer.
    At any other word that is not the address of a string there is none to
    read. *)
Definition va_string (args : list va) : res (option (list Z) * list va) :=
  match args with
  | VString p s :: args => Ok (if u32 p =? 0 then None else Some s, args)
  | VWord x :: args => if u32 x =? 0 then Ok (None, args) else Err Fault
  | [] => Err Fault
  end.
(** A string somewhere in the kernel, for a conversion that does not print
    its address. *)
Definition str (s : list Z) : va := VString 0xc0100000 s.

(** ** Conversions *)

Definition MINUS : Z := 1.
Definition PLUS : Z := 2.
Definition SPACE : Z := 4.
Definition POUND : Z := 8.
Definition ZERO : Z := 16.
Definition GROUP : Z := 32.

Inductive arg_type := CHAR | SHORT | INT | INTMAX | LONG | LONGLONG | PTRDIFFT | SIZET.

Record printf_conversion := mk_conversion {
  flags : Z;
  width : Z;
  precision : Z;
  type : arg_type
}.
Definition has (flags f : Z) : bool := negb (Z.land flags f =? 0).

Record integer_base := mk_base {
  base : Z;
  digits : list Z;
  x_char : Z;
  group : Z
}.
Definition base_d : integer_base := mk_base 10 (chars "0123456789") 0 3.
Definition base_o : integer_base := mk_base 8 (chars "01234567") 0 3.
Definition base_x : integer_base := mk_base 16 (chars "0123456789abcdef") 120 4.
Definition base_X : integer_base := mk_base 16 (chars "0123456789ABCDEF") 88 4.

(** ** Parsing a conversion *)

Fixpoint parse_flags (format : list Z) (fl : Z) : list Z * Z :=
  match format with
  | c :: f =>
      if c =? 45 then parse_flags f (Z.lor fl MINUS)
      else if c =? 43 then parse_flags f (Z.lor fl PLUS)
      else if c =? 32 then parse_flags f (Z.lor fl SPACE)
      else if c =? 35 then parse_flags f (Z.lor fl POUND)
      else if c =? 48 then parse_flags f (Z.lor fl ZERO)
      else if c =? 39 then parse_flags f (Z.lor fl GROUP)
      else (format, fl)
  | [] => (format, fl)
  end.
Fixpoint parse_number (format : list Z) (n : Z) : list Z * Z :=
  match format with
  | c :: f => if isdigit c then parse_number f (s32 (n * 10 + c - 48)) else (format, n)
  | [] => (format, n)
  end.
(** A number, or [*] for the next argument. *)
Definition parse_star (format : list Z) (args : list va) : res (list Z * Z * list va) :=
  match format with
  | 42 :: f => '(x, args) ← va_word args; Ok (f, s32 x, args)
  | _ => let '(f, n) := parse_number format 0 in Ok (f, n, args)
  end.
Definition parse_type (format : list Z) : list Z * arg_type :=
  match format with
  | 104 :: 104 :: f => (f, CHAR)
  | 104 :: f => (f, SHORT)
  | 106 :: f => (f, INTMAX)
  | 108 :: 108 :: f => (f, LONGLONG)
  | 108 :: f => (f, LONG)
  | 116 :: f => (f, PTRDIFFT)
  | 122 :: f => (f, SIZET)
  | _ => (format, INT)
  end.

Definition parse_conversion (format : list Z) (args : list va) : res (list Z * printf_conversion * list va) :=
  let '(format, fl) := parse_flags format 0 in
  let fl := if has fl MINUS then Z.ldiff fl ZERO else fl in
  let fl := if has fl PLUS then Z.ldiff fl SPACE else fl in
  '(format, w, args) ← parse_star format args;
  let '(w, fl) := if w <? 0 then (s32 (- w), Z.lor fl MINUS) else (w, fl) in
  '(format, p, args) ←
    match format with
    | 46 :: f => '(f, p, args) ← parse_star f args; Ok (f, if p <? 0 then -1 else p, args)
    | _ => Ok (format, -1, args)
    end;
  let fl := if 0 <=? p then Z.ldiff fl ZERO else fl in
  let '(format, t) := parse_type format in
  Ok (format, mk_conversion fl w p t, args).

(** ** Integers *)

Definition output_dup (ch cnt : Z) : list Z := replicate (Z.to_nat cnt) ch.

(** [*cp++ = c] in the buffer of 64 characters; the list has the last
    character first. *)
Definition push (c : Z) (buf : list Z) : res (list Z) :=
  if Z.of_nat (length buf) <? 64 then Ok (c :: buf) else Err Fault.

(** A 64-bit number has at most 64 digits. *)
Fixpoint push_digits (fuel : nat) (b : integer_base) (fl value digit_cnt : Z) (buf : list Z) : res (list Z) :=
  match fuel with
  | O => Err OutOfFuel
  | S fuel =>
      if value =? 0 then Ok buf else
      buf ← (if has fl GROUP && (0 <? digit_cnt) && (digit_cnt mod group b =? 0) then push 44 buf else Ok buf);
      match digits b !! Z.to_nat (value mod base b) with
      | None => Err Fault
      | Some d => buf ← push d buf; push_digits fuel b fl (value / base b) (digit_cnt + 1) buf
      end
  end.
(** At most 63 characters. *)
Fixpoint push_zeros (fuel : nat) (precision : Z) (buf : list Z) : res (list Z) :=
  match fuel with
  | O => Err OutOfFuel
  | S fuel =>
      if (Z.of_nat (length buf) <? precision) && (Z.of_nat (length buf) <? 63) then
        buf ← push 48 buf; push_zeros fuel precision buf
      else Ok buf
  end.

Definition sign_char (is_signed negative : bool) (fl : Z) : list Z :=
  if is_signed then
    if has fl PLUS then [if negative then 45 else 43]
    else if has fl SPACE then [if negative then 45 else 32]
    else if negative then [45] else []
  else [].

Definition format_integer (value : Z) (is_signed negative : bool) (b : integer_base) (c : printf_conversion) : res (list Z) :=
  let fl := flags c in
  let sign := sign_char is_signed negative fl in
  let x := if has fl POUND && negb (value =? 0) then x_char b else 0 in
  buf ← push_digits 65 b fl value 0 [];
  let prec := if precision c <? 0 then 1 else precision c in
  buf ← push_zeros 65 prec buf;
  buf ← (if has fl POUND && (base b =? 8) && negb (bool_decide (head buf = Some 48)) then push 48 buf else Ok buf);
  let pad_cnt := s32 (width c - Z.of_nat (length buf) - (if x =? 0 then 0 else 2) - Z.of_nat (length sign)) in
  let pad_cnt := if pad_cnt <? 0 then 0 else pad_cnt in
  Ok ((if Z.land fl (Z.lor MINUS ZERO) =? 0 then output_dup 32 pad_cnt else [])
      ++ sign
      ++ (if x =? 0 then [] else [48; x])
      ++ (if has fl ZERO then output_dup 48 pad_cnt else [])
      ++ buf
      ++ (if has fl MINUS then output_dup 32 pad_cnt else [])).

(** ** Strings *)

(** The [length] characters of [string]. *)
Definition format_string (string : list Z) (c : printf_conversion) : list Z :=
  let length := Z.of_nat (length string) in
  (if (length <? width c) && negb (has (flags c) MINUS) then output_dup 32 (width c - length) else [])
  ++ string
  ++ (if (length <? width c) && has (flags c) MINUS then output_dup 32 (width c - length) else []).

(** ** The conversions *)

Definition signed_arg (t : arg_type) (args : list va) : res (Z * list va) :=
  match t with
  | CHAR => '(x, args) ← va_word args; Ok (s8 x, args)
  | SHORT => '(x, args) ← va_word args; Ok (sgn 16 x, args)
  | INT | LONG | PTRDIFFT => '(x, args) ← va_word args; Ok (s32 x, args)
  | INTMAX | LONGLONG => '(x, args) ← va_long args; Ok (s64 x, args)
  | SIZET => '(x, args) ← va_word args; Ok (if (2^32 - 1) / 2 <? x then x - (2^32 - 1) - 1 else x, args)
  end.
Definition unsigned_arg (t : arg_type) (args : list va) : res (Z * list va) :=
  match t with
  | CHAR => '(x, args) ← va_word args; Ok (u8 x, args)
  | SHORT => '(x, args) ← va_word args; Ok (u16 x, args)
  | INT | LONG | SIZET => va_word args
  | INTMAX | LONGLONG => va_long args
  | PTRDIFFT => '(x, args) ← va_word args; Ok (Z.land (u64 (s32 x)) (2^32 - 1), args)
  end.

(** [strnlen] of lib/string.c; the precision is converted to [size_t]. *)
Definition strnlen (s : list Z) (maxlen : Z) : Z := Z.min (Z.of_nat (length s)) maxlen.

(** The conversion character [ch]; [unknown] prints a message for one that is
    not supported. *)
Definition convert (unknown : string → Z → res (list Z)) (ch : Z) (c : printf_conversion) (args : list va)
    : res (list Z * list va) :=
  if (ch =? 100) || (ch =? 105) then
    '(value, args) ← signed_arg (type c) args;
    out ← format_integer (u64 (if value <? 0 then - value else value)) true (value <? 0) base_d c;
    Ok (out, args)
  else if (ch =? 111) || (ch =? 117) || (ch =? 120) || (ch =? 88) then
    '(value, args) ← unsigned_arg (type c) args;
    let b := if ch =? 111 then base_o else if ch =? 117 then base_d else if ch =? 120 then base_x else base_X in
    out ← format_integer value false false b c;
    Ok (out, args)
  else if ch =? 99 then
    '(x, args) ← va_word args; Ok (format_string [u8 x] c, args)
  else if ch =? 115 then
    '(s, args) ← va_string args;
    let s := default (chars "(null)") s in
    Ok (format_string (take (Z.to_nat (strnlen s (u32 (precision c)))) s) c, args)
  else if ch =? 112 then
    '(p, args) ← va_word args;
    out ← format_integer p false false base_x (mk_conversion POUND (width c) (precision c) (type c));
    Ok (out, args)
  else if (ch =? 102) || (ch =? 101) || (ch =? 69) || (ch =? 103) || (ch =? 71) || (ch =? 110) then
    out ← unknown "<<no %%%c in kernel>>" ch; Ok (out, args)
  else
    out ← unknown "<<no %%%c conversion>>" ch; Ok (out, args).

(** A conversion character that is the null character at the end of the
    format: the loop goes on behind it. *)
Fixpoint vprintf_loop (unknown : string → Z → res (list Z)) (fuel : nat) (format : list Z) (args : list va) : res (list Z) :=
  match fuel with
  | O => Err OutOfFuel
  | S fuel =>
      match format with
      | [] => Ok []
      | c :: format =>
          if negb (c =? 37) then rest ← vprintf_loop unknown fuel format args; Ok (c :: rest)
          else
          match format with
          | 37 :: format => rest ← vprintf_loop unknown fuel format args; Ok (37 :: rest)
          | _ =>
              '(format, cv, args) ← parse_conversion format args;
              match format with
              | [] => Err Fault
              | ch :: format =>
                  '(out, args) ← convert unknown ch cv args;
                  rest ← vprintf_loop unknown fuel format args;
                  Ok (out ++ rest)
              end
          end
      end
  end.
(** [__printf] calls [__vprintf] again, once, for its messages. *)
Fixpoint vprintf_at (depth : nat) (format : list Z) (args : list va) : res (list Z) :=
  vprintf_loop (λ msg ch, match depth with O => Err OutOfFuel | S d => vprintf_at d (chars msg) [VWord ch] end)
    (S (length format)) format args.
Definition __vprintf (format : list Z) (args : list va) : res (list Z) := vprintf_at 1 format args.
Definition __printf (format : string) (args : list va) : res (list Z) := __vprintf (chars format) args.

(** ** Output to memory *)

Record vsnprintf_aux := mk_aux {
  aux_p : Z;
  aux_length : Z;
  aux_max_length : Z
}.
Definition vsnprintf_helper (ch : Z) (aux : vsnprintf_aux) : M mem vsnprintf_aux :=
  if aux_length aux <? aux_max_length aux then
    store (aux_p aux) ch ;; mret (mk_aux (aux_p aux + 1) (s32 (aux_length aux + 1)) (aux_max_length aux))
  else mret (mk_aux (aux_p aux) (s32 (aux_length aux + 1)) (aux_max_length aux)).
Fixpoint send (out : list Z) (aux : vsnprintf_aux) : M mem vsnprintf_aux :=
  match out with
  | [] => mret aux
  | ch :: out => aux ← vsnprintf_helper ch aux; send out aux
  end.

Definition vsnprintf (buffer buf_size : Z) (format : list Z) (args : list va) : M mem Z :=
  let aux := mk_aux buffer 0 (if 0 <? buf_size then s32 (buf_size - 1) else 0) in
  out ← of_res (__vprintf format args);
  aux ← send out aux;
  (if 0 <? buf_size then store (aux_p aux) 0 else mret tt) ;;
  mret (aux_length aux).
Definition snprintf (buffer buf_size : Z) (format : string) (args : list va) : M mem Z :=
  vsnprintf buffer buf_size (chars format) args.

(** ** Output to the console

    The characters that are printed. *)
Definition printf (format : string) (args : list va) : res (list Z) := __vprintf (chars format) args.
Definition printfs (l : list (res (list Z))) : res (list Z) :=
  foldr (λ m r, a ← m; b ← r; Ok (a ++ b)) (Ok []) l.

(** [isprint] of lib/ctype.h *)
Definition isprint (c : Z) : bool := (32 <=? c) && (c <? 127).
Definition blanks (format : string) (from to : Z) : res (list Z) := printfs ((λ _, printf format []) <$> seqZ from (to - from)).

(** One line of [hex_dump]: the bytes [buf] at [start] to [end]. *)
Definition hex_line (ofs : Z) (buf : list Z) (start end_ : Z) (ascii : bool) : res (list Z) :=
  let at_ i := default 0 (buf !! Z.to_nat (i - start)) in
  printfs
    ([printf "%08jx  " [VWord (ROUND_DOWN ofs 16); VWord 0];
      blanks "   " 0 start;
      printfs ((λ i, printf "%02hhx%c" [VWord (at_ i); VWord (if i =? 16 / 2 - 1 then 45 else 32)]) <$> seqZ start (end_ - start))]
     ++ (if ascii then
           [blanks "   " end_ 16;
            printf "|" [];
            blanks " " 0 start;
            printfs ((λ i, printf "%c" [VWord (if isprint (at_ i) then at_ i else 46)]) <$> seqZ start (end_ - start));
            blanks " " end_ 16;
            printf "|" []]
         else [])
     ++ [Ok [10]]).
(** Each line has at least one byte. *)
Fixpoint hex_lines (fuel : nat) (ofs : Z) (buf : list Z) (size : Z) (ascii : bool) : res (list Z) :=
  match fuel with
  | O => Err OutOfFuel
  | S fuel =>
      if size =? 0 then Ok [] else
      let start := ofs mod 16 in
      let end_ := if size <? 16 - start then start + size else 16 in
      let n := end_ - start in
      line ← hex_line ofs (take (Z.to_nat n) buf) start end_ ascii;
      rest ← hex_lines fuel (u32 (ofs + n)) (drop (Z.to_nat n) buf) (size - n) ascii;
      Ok (line ++ rest)
  end.
Definition hex_dump (ofs : Z) (buf : list Z) (ascii : bool) : res (list Z) :=
  hex_lines (S (length buf)) ofs buf (Z.of_nat (length buf)) ascii.

(** [size] in units of 1024^k bytes, for the [k]-th of [factors]. *)
Fixpoint scale (factors : list string) (size : Z) : string * Z :=
  match factors with
  | [] => (""%string, size)
  | [f] => (f, size)
  | f :: factors => if 1024 <=? size then scale factors (size / 1024) else (f, size)
  end.
Definition print_human_readable_size (size : Z) : res (list Z) :=
  if size =? 1 then printf "1 byte" []
  else
    let '(f, size) := scale ["bytes"; "kB"; "MB"; "GB"; "TB"]%string size in
    printf "%llu %s" [VWord (size mod 2^32); VWord (size / 2^32); str (chars f)].

(** Examples of the conversions. *)
Lemma printf_examples :
  printf "%d|%5d|%-5d|%05d|%+d|% d" (replicate 6 (VWord 42)) = Ok (chars "42|   42|42   |00042|+42| 42")
  ∧ printf "%x %#X %#o %'u" [VWord 48879; VWord 48879; VWord 8; VWord 1234567] = Ok (chars "beef 0XBEEF 010 1,234,567")
  ∧ printf "%s %.2s %5s|%-5s| %c%%" [str (chars "abc"); str (chars "abc"); str (chars "abc"); str (chars "abc"); VWord 120]
    = Ok (chars "abc ab   abc|abc  | x%")
  ∧ printf "%d %lld %q" [VWord (-2147483648); VWord 0; VWord (-2147483648)] = Ok (chars "-2147483648 -9223372036854775808 <<no %q conversion>>")
  ∧ printf "%d %p %s" [VString 3222274048 (chars "abc"); VString 3222274048 (chars "abc"); VWord 0] = Ok (chars "-1072693248 0xc0100000 (null)")
  ∧ hex_dump 5 (chars "Hello") true
    = Ok (chars "00000000                 48 65 6c-6c 6f                   |     Hello      |" ++ [10])
  ∧ print_human_readable_size 262144 = Ok (chars "256 kB").
Proof. split_and!; vm_compute; done. Qed.
End Stdio.
