(* ===== verification/StdioProps.v ===== *)
(** * Properties of formatted output *)
From stdpp Require Import base gmap list list_numbers strings.
From Stdlib Require Import ZArith Lia.
From S2P Require Import Prelude Cstring Sort Stdio.

Module StdioProps.
Import Mem Cstring Sort Stdio.

(** ** Reading numbers back *)

(** The value of a digit, and of a numeral; commas count for nothing. *)
Definition digit_value (b : integer_base) (c : Z) : Z :=
  default 0 ((λ x, Z.of_nat x.1) <$> list_find (λ d, d = c) (digits b)).
Definition read_digit (b : integer_base) (acc c : Z) : Z := if c =? 44 then acc else acc * base b + digit_value b c.
Definition read_number (b : integer_base) (l : list Z) : Z := foldl (read_digit b) 0 l.

(** What the conversions need of a base. *)
Definition good_base (b : integer_base) : Prop :=
  8 ≤ base b ∧ 0 < group b ∧ ∀ i, 0 ≤ i < base b →
    ∃ d, digits b !! Z.to_nat i = Some d ∧ digit_value b d = i ∧ 48 ≤ d < 256 ∧ (base b = 10 → d = 48 + i).
Definition bases : list integer_base := [base_d; base_o; base_x; base_X].

Definition digit_ok (b : integer_base) (i : Z) : bool :=
  match digits b !! Z.to_nat i with
  | Some d => (digit_value b d =? i) && (48 <=? d) && (d <? 256) && (negb (base b =? 10) || (d =? 48 + i))
  | None => false
  end.
Lemma digit_ok_spec b i :
  digit_ok b i = true →
  ∃ d, digits b !! Z.to_nat i = Some d ∧ digit_value b d = i ∧ 48 ≤ d < 256 ∧ (base b = 10 → d = 48 + i).
Proof.
  unfold digit_ok. destruct (digits b !! Z.to_nat i) as [d|]; [|done]. rewrite !andb_true_iff, orb_true_iff, negb_true_iff.
  intros [[[? ?] ?] Hd]. exists d. by split_and!; try lia.
Qed.
Lemma bases_good b : b ∈ bases → good_base b.
Proof.
  intros Hb. assert (8 ≤ base b ∧ 0 < group b ∧ forallb (digit_ok b) (seqZ 0 (base b)) = true) as (? & ? & Hall).
  { unfold bases in Hb. set_unfold. destruct Hb as [->|[->|[->|[->|[]]]]]; by vm_compute. }
  split_and!; try done. intros i Hi. apply digit_ok_spec. rewrite forallb_forall in Hall. apply Hall.
  apply list_elem_of_In, elem_of_seqZ. lia.
Qed.

(** ** The digits *)

Lemma read_app b l c : read_number b (l ++ [c]) = read_digit b (read_number b l) c.
Proof. unfold read_number. by rewrite foldl_app. Qed.

Definition numeral_char (fl c : Z) : Prop := 48 ≤ c < 256 ∨ (has fl GROUP = true ∧ c = 44).

Lemma push_char_ok c buf : (length buf < 64)%nat → push c buf = Ok (c :: buf).
Proof. intros Hl. unfold push. by rewrite (proj2 (Z.ltb_lt _ 64)) by lia. Qed.

(** [k] octal digits are enough for the value. *)
Lemma push_digits_ok b fl k : good_base b → ∀ fuel v cnt buf,
  0 ≤ v < 8^(Z.of_nat k) → (k < fuel)%nat → (length buf + 2 * k ≤ 64)%nat → 0 ≤ cnt →
  ∃ l, push_digits fuel b fl v cnt buf = Ok (l ++ buf) ∧ read_number b l = v ∧ (length l ≤ 2 * k)%nat
    ∧ Forall (numeral_char fl) l ∧ (base b = 10 → has fl GROUP = false → Forall (λ c, 48 ≤ c ≤ 57) l).
Proof.
  intros (Hb & Hg & Hd). induction k as [|k IH]; intros [|fuel] v cnt buf Hv Hf Hl Hc; try lia; cbn [push_digits].
  { assert (v = 0) as -> by (simpl in Hv; lia). by exists []. }
  destruct (Z.eqb_spec v 0) as [->|Hne].
  { exists []. split_and!; simpl; (done || lia). }
  destruct (Hd (v mod base b)) as (d & Hdig & Hdv & Hd48 & Hd10); [apply Z.mod_pos_bound; lia|].
  set (comma := has fl GROUP && (0 <? cnt) && (cnt mod group b =? 0)).
  assert ((if comma then push 44 buf else Ok buf) = Ok ((if comma then [44] else []) ++ buf)) as ->.
  { destruct comma; [|done]. apply push_char_ok. lia. }
  unfold mbind, res_bind. rewrite Hdig. rewrite push_char_ok by (destruct comma; simpl; lia).
  assert (0 ≤ v / base b < 8 ^ Z.of_nat k) as Hv'.
  { rewrite Nat2Z.inj_succ, Z.pow_succ_r in Hv by lia. split; [apply Z.div_pos; lia|].
    apply Z.div_lt_upper_bound; [lia|]. nia. }
  destruct (IH fuel (v / base b) (cnt + 1) (d :: (if comma then [44] else []) ++ buf)) as (l & -> & Hr & Hlen & Hn & H10);
    [done | lia | destruct comma; simpl; lia | lia |].
  assert (numeral_char fl d) as Hnd by (by left).
  exists (l ++ d :: (if comma then [44] else [])). split_and!.
  - by rewrite <- app_assoc.
  - assert (read_number b (l ++ [d]) = v) as Hread.
    { rewrite read_app, Hr. unfold read_digit. destruct (Z.eqb_spec d 44); [lia|]. rewrite Hdv.
      pose proof (Z.div_mod v (base b)). lia. }
    destruct comma; [|done]. replace (l ++ [d; 44]) with ((l ++ [d]) ++ [44]) by (by rewrite <- app_assoc).
    by rewrite read_app, Hread.
  - rewrite length_app. destruct comma; simpl; lia.
  - apply Forall_app. split; [done|]. constructor; [done|]. destruct comma eqn:E; [|constructor].
    constructor; [|constructor]. right. unfold comma in E. by apply andb_true_iff in E as [[? ?]%andb_true_iff _].
  - intros Hb10 Hng. apply Forall_app. split; [by apply H10|]. constructor.
    + rewrite Hd10 by done. pose proof (Z.mod_pos_bound v (base b)). lia.
    + unfold comma. rewrite Hng. constructor.
Qed.

Lemma read_zeros b n l : digit_value b 48 = 0 → read_number b (replicate n 48 ++ l) = read_number b l.
Proof.
  intros H0. unfold read_number. rewrite foldl_app. f_equal. induction n as [|n IH]; [done|]. simpl.
  unfold read_digit at 2. simpl. by rewrite H0.
Qed.

(** Zeros are put in front, up to 63 characters. *)
Lemma push_zeros_ok prec fuel buf :
  (64 ≤ fuel + length buf)%nat → (length buf ≤ 63)%nat →
  ∃ n, push_zeros fuel prec buf = Ok (replicate n 48 ++ buf) ∧ (n + length buf ≤ 63)%nat
    ∧ Z.min prec 63 ≤ Z.of_nat (n + length buf) ∧ (Z.of_nat (length buf) < prec ∨ n = 0%nat) ∧ (n = 0%nat ∨ Z.of_nat (n + length buf) ≤ prec).
Proof.
  revert buf. induction fuel as [|fuel IH]; intros buf Hf Hl; [lia|]. cbn [push_zeros].
  destruct (Z.ltb_spec (Z.of_nat (length buf)) prec), (Z.ltb_spec (Z.of_nat (length buf)) 63); cbn [andb];
    try (exists 0%nat; split_and!; simpl; (done || lia)).
  rewrite push_char_ok by lia. unfold mbind, res_bind. destruct (IH (48 :: buf)) as (n & -> & Hn & Hp & Hor & Hor'); [simpl; lia | simpl; lia|].
  exists (S n). replace (replicate n 48 ++ 48 :: buf) with (replicate (S n) 48 ++ buf).
  - simpl in *. split_and!; try done; lia.
  - rewrite replicate_S_end, <- app_assoc. done.
Qed.

(** ** Integers *)

Definition hex_prefix (b : integer_base) (fl value : Z) : list Z :=
  if has fl POUND && negb (value =? 0) && negb (x_char b =? 0) then [48; x_char b] else [].

(** The characters that stand for the number, with the zeros that the
    precision and the flag [#] ask for. *)
Lemma number_ok value b c :
  b ∈ bases → 0 ≤ value < 2^64 →
  ∃ body, (buf ← push_digits 65 b (flags c) value 0 [];
           buf ← push_zeros 65 (if precision c <? 0 then 1 else precision c) buf;
           if has (flags c) POUND && (base b =? 8) && negb (bool_decide (head buf = Some 48)) then push 48 buf else Ok buf)
          = Ok body
    ∧ read_number b body = value ∧ Forall (numeral_char (flags c)) body ∧ (length body ≤ 64)%nat
    ∧ Z.min (if precision c <? 0 then 1 else precision c) 63 ≤ Z.of_nat (length body)
    ∧ (base b = 10 → has (flags c) GROUP = false → Forall (λ c, 48 ≤ c ≤ 57) body).
Proof.
  intros Hb Hv. pose proof (bases_good b Hb) as Hg. assert (digit_value b 48 = 0) as H0.
  { destruct Hg as (Hb8 & _ & _). unfold bases in Hb. set_unfold. by destruct Hb as [->|[->|[->|[->|[]]]]]. }
  destruct (push_digits_ok b (flags c) 22 Hg 65 value 0 []) as (l & -> & Hr & Hl & Hn & H10);
    [change (8 ^ Z.of_nat 22) with (2^66); lia | lia | simpl; lia | lia |].
  rewrite app_nil_r. unfold mbind, res_bind. set (prec := if precision c <? 0 then 1 else precision c).
  destruct (push_zeros_ok prec 65 l) as (n & -> & Hn63 & Hmin & _); [lia | lia|].
  assert (∀ k, Forall (numeral_char (flags c)) (replicate k 48 ++ l)) as Hall.
  { intros k. apply Forall_app. split; [|done]. apply Forall_replicate. left. lia. }
  assert (∀ k, base b = 10 → has (flags c) GROUP = false → Forall (λ c, 48 ≤ c ≤ 57) (replicate k 48 ++ l)) as Hdec.
  { intros k ? ?. apply Forall_app. split; [apply Forall_replicate; lia | by apply H10]. }
  destruct (has (flags c) POUND && (base b =? 8) && negb (bool_decide (head (replicate n 48 ++ l) = Some 48))).
  - exists (replicate (S n) 48 ++ l). rewrite push_char_ok by (rewrite length_app, length_replicate; lia).
    rewrite read_zeros, length_app, length_replicate by done. split_and!; auto; lia.
  - exists (replicate n 48 ++ l).
    rewrite read_zeros, length_app, length_replicate by done. split_and!; auto; lia.
Qed.

Lemma format_integer_eq value is_signed negative b c body :
  (buf ← push_digits 65 b (flags c) value 0 [];
   buf ← push_zeros 65 (if precision c <? 0 then 1 else precision c) buf;
   if has (flags c) POUND && (base b =? 8) && negb (bool_decide (head buf = Some 48)) then push 48 buf else Ok buf) = Ok body →
  let sign := sign_char is_signed negative (flags c) in
  let pad := Z.max 0 (s32 (width c - Z.of_nat (length body) - Z.of_nat (length (hex_prefix b (flags c) value)) - Z.of_nat (length sign))) in
  format_integer value is_signed negative b c
  = Ok ((if Z.land (flags c) (Z.lor MINUS ZERO) =? 0 then output_dup 32 pad else []) ++ sign ++ hex_prefix b (flags c) value
        ++ (if has (flags c) ZERO then output_dup 48 pad else []) ++ body
        ++ (if has (flags c) MINUS then output_dup 32 pad else [])).
Proof.
  intros E sign pad. unfold format_integer. unfold mbind, res_bind in *.
  destruct (push_digits 65 b (flags c) value 0 []) as [l|]; [|done]. destruct (push_zeros 65 _ l) as [l2|]; [|done]. rewrite E.
  assert (∀ z, (if z <? 0 then 0 else z) = Z.max 0 z) as Hmax by (intros z; destruct (Z.ltb_spec z 0); lia).
  rewrite Hmax. unfold pad, sign, hex_prefix.
  destruct (has (flags c) POUND && negb (value =? 0)); cbn [andb]; [|done]. by destruct (x_char b =? 0).
Qed.

(** A conversion whose padding is not asked for twice. *)
Definition one_padding (fl : Z) : Prop := has fl MINUS && has fl ZERO = false.

Lemma format_integer_ok value is_signed negative b c :
  b ∈ bases → 0 ≤ value < 2^64 → 0 ≤ width c < 2^31 → one_padding (flags c) →
  ∃ body l z r, format_integer value is_signed negative b c
      = Ok (replicate l 32 ++ sign_char is_signed negative (flags c) ++ hex_prefix b (flags c) value
            ++ replicate z 48 ++ body ++ replicate r 32)
    ∧ read_number b body = value ∧ Forall (numeral_char (flags c)) body
    ∧ Z.min (if precision c <? 0 then 1 else precision c) 63 ≤ Z.of_nat (length body)
    ∧ (base b = 10 → has (flags c) GROUP = false → Forall (λ c, 48 ≤ c ≤ 57) body)
    ∧ Z.of_nat (l + z + r) = Z.max 0 (width c - Z.of_nat (length (sign_char is_signed negative (flags c)
                                                        ++ hex_prefix b (flags c) value ++ body)))
    ∧ (if has (flags c) MINUS then l = 0%nat ∧ z = 0%nat else if has (flags c) ZERO then l = 0%nat ∧ r = 0%nat else z = 0%nat ∧ r = 0%nat).
Proof.
  intros Hb Hv Hw Hone. destruct (number_ok value b c Hb Hv) as (body & E & Hr & Hn & Hl & Hp & H10).
  pose proof (format_integer_eq value is_signed negative b c body E) as Hf. cbv zeta in Hf.
  assert (length (sign_char is_signed negative (flags c)) ≤ 1)%nat as Hs.
  { unfold sign_char. destruct is_signed; [|simpl; lia]. repeat case_match; simpl; lia. }
  assert (length (hex_prefix b (flags c) value) ≤ 2)%nat as Hx by (unfold hex_prefix; destruct (_ && _ && _); simpl; lia).
  unfold s32 in Hf. rewrite sgn_small in Hf by lia.
  set (pad := Z.max 0 _) in Hf. unfold output_dup in Hf. unfold one_padding in Hone.
  assert (Z.land (flags c) (Z.lor MINUS ZERO) =? 0 = negb (has (flags c) MINUS || has (flags c) ZERO)) as Hland.
  { rewrite Z.land_lor_distr_r. unfold has. destruct (Z.eqb_spec (Z.land (flags c) MINUS) 0) as [->|Hm].
    - rewrite Z.lor_0_l. by destruct (Z.land (flags c) ZERO =? 0).
    - cbn [negb orb]. apply Z.eqb_neq. rewrite Z.lor_eq_0_iff. naive_solver. }
  rewrite Hland in Hf. destruct (has (flags c) MINUS), (has (flags c) ZERO); cbn [negb orb andb] in *; [done|..].
  - exists body, 0%nat, 0%nat, (Z.to_nat pad). rewrite Hf. split_and!; try done. rewrite !length_app. lia.
  - exists body, 0%nat, (Z.to_nat pad), 0%nat. rewrite Hf, ?app_nil_r. split_and!; try done; rewrite !length_app; lia.
  - exists body, (Z.to_nat pad), 0%nat, 0%nat. rewrite Hf, ?app_nil_r. split_and!; try done; rewrite !length_app; lia.
Qed.

(** An integer conversion never leaves its buffer of 64 characters.  What
    it prints is the sign, the prefix [0x] and a numeral that reads back as
    the value, of at least [precision] digits up to 63, padded to exactly the
    field width when it is shorter: with blanks on the right for the flag
    [-], with zeros behind the sign and the prefix for the flag [0], and with
    blanks on the left otherwise. *)
Theorem format_integer_correct value is_signed negative b c :
  b ∈ bases → 0 ≤ value < 2^64 → 0 ≤ width c < 2^31 → one_padding (flags c) →
  ∃ body l z r, format_integer value is_signed negative b c
      = Ok (replicate l 32 ++ sign_char is_signed negative (flags c) ++ hex_prefix b (flags c) value
            ++ replicate z 48 ++ body ++ replicate r 32)
    ∧ read_number b body = value ∧ Forall (numeral_char (flags c)) body
    ∧ Z.min (if precision c <? 0 then 1 else precision c) 63 ≤ Z.of_nat (length body)
    ∧ Z.of_nat (l + z + r) = Z.max 0 (width c - Z.of_nat (length (sign_char is_signed negative (flags c)
                                                        ++ hex_prefix b (flags c) value ++ body)))
    ∧ (if has (flags c) MINUS then l = 0%nat ∧ z = 0%nat else if has (flags c) ZERO then l = 0%nat ∧ r = 0%nat else z = 0%nat ∧ r = 0%nat).
Proof.
  intros Hb Hv Hw Hone. destruct (format_integer_ok value is_signed negative b c Hb Hv Hw Hone)
    as (body & l & z & r & E & Hr & Hn & Hp & _ & Hpad & Hwhere).
  by exists body, l, z, r.
Qed.

Lemma format_integer_correct_witness :
  ∃ body l z r, format_integer 48879 false false base_x (mk_conversion (Z.lor POUND ZERO) 10 (-1) INT)
      = Ok (replicate l 32 ++ [] ++ [48; 120] ++ replicate z 48 ++ body ++ replicate r 32)
    ∧ read_number base_x body = 48879
    ∧ Z.of_nat (l + z + r) = Z.max 0 (10 - Z.of_nat (length ([] ++ [48; 120] ++ body))).
Proof.
  destruct (format_integer_correct 48879 false false base_x (mk_conversion (Z.lor POUND ZERO) 10 (-1) INT))
    as (body & l & z & r & E & Hr & _ & _ & Hpad & _); [by vm_compute; right; right; left | lia | simpl; lia | done |].
  exists body, l, z, r. by split_and!.
Defined.

(** ** Output to memory *)

Lemma send_ok out p n max m (Q : vsnprintf_aux → mem → Prop) :
  0 < p → 0 ≤ n ≤ max ∨ max < n → 0 ≤ n → n + Z.of_nat (length out) < 2^31 →
  Q (mk_aux (p + Z.of_nat (length (take (Z.to_nat (max - n)) out))) (n + Z.of_nat (length out)) max)
    (write p (take (Z.to_nat (max - n)) out) m) →
  wp (send out (mk_aux p n max)) Q m.
Proof.
  revert p n m. induction out as [|ch out IH]; intros p n m Hp Hn H0 Hl HQ; cbn [send].
  { apply wp_ret. rewrite take_nil in HQ. simpl in HQ. by rewrite !Z.add_0_r in HQ. }
  simpl in Hl. apply wp_bind. unfold vsnprintf_helper. cbn [aux_length aux_max_length aux_p]. unfold s32. rewrite sgn_small by lia.
  destruct (Z.ltb_spec n max).
  - apply wp_bind. apply wp_store; [done|]. apply wp_ret. apply IH; [lia | lia | lia | lia|].
    replace (Z.to_nat (max - n)) with (S (Z.to_nat (max - (n + 1)))) in HQ by lia.
    cbn [take length write] in HQ. rewrite !Nat2Z.inj_succ, !Z.add_succ_r, <- !Z.add_succ_l in HQ. exact HQ.
  - apply wp_ret. apply IH; [lia | lia | lia | lia|]. replace (Z.to_nat (max - n)) with 0%nat in HQ by lia.
    replace (Z.to_nat (max - (n + 1))) with 0%nat by lia.
    cbn [take length write] in *. rewrite Nat2Z.inj_succ, Z.add_succ_r, <- Z.add_succ_l in HQ. exact HQ.
Qed.

Lemma vsnprintf_ok m buffer buf_size format args out :
  0 < buffer → 0 ≤ buf_size < 2^31 → __vprintf format args = Ok out → Z.of_nat (length out) < 2^31 →
  vsnprintf buffer buf_size format args m
  = Ok (Z.of_nat (length out), if 0 <? buf_size then write buffer (take (Z.to_nat (buf_size - 1)) out ++ [0]) m else m).
Proof.
  intros Hb Hs E Hl.
  assert (wp (vsnprintf buffer buf_size format args) (λ r m', r = Z.of_nat (length out)
    ∧ m' = if 0 <? buf_size then write buffer (take (Z.to_nat (buf_size - 1)) out ++ [0]) m else m) m)
    as (r & m' & -> & -> & ->)%wp_Ok; [|done].
  unfold vsnprintf. apply wp_bind. apply (wp_of_res _ out); [done|]. apply wp_bind. unfold s32.
  destruct (Z.ltb_spec 0 buf_size).
  - rewrite sgn_small by lia. apply send_ok; [lia | lia | lia | lia|]. rewrite Z.sub_0_r, Z.add_0_l.
    apply wp_bind. apply wp_store; [cbn [aux_p]; lia|]. apply wp_ret. by rewrite write_app.
  - apply send_ok; [lia | lia | lia | lia|]. cbn. apply wp_bind, wp_ret. by apply wp_ret.
Qed.

(** [vsnprintf] writes inside the [buf_size] bytes of its buffer only.
    A buffer that is not empty holds the longest prefix of the formatted text
    that leaves room for a null character, and that null character; the
    result is the length of the whole text, also when it was truncated. *)
Theorem vsnprintf_truncates m buffer buf_size format args out :
  0 < buffer → 0 ≤ buf_size < 2^31 → __vprintf format args = Ok out → Z.of_nat (length out) < 2^31 →
  ∃ m', vsnprintf buffer buf_size format args m = Ok (Z.of_nat (length out), m')
    ∧ (0 < buf_size → bytes m' buffer (take (Z.to_nat (buf_size - 1)) out ++ [0]))
    ∧ ∀ a, ¬ (buffer ≤ a < buffer + buf_size) → m' !! a = m !! a.
Proof.
  intros Hb Hs E Hl. eexists. split; [by apply vsnprintf_ok|]. split.
  - intros Hp. rewrite (proj2 (Z.ltb_lt _ _)) by done. apply bytes_write.
  - intros a Ha. destruct (Z.ltb_spec 0 buf_size); [|done].
    rewrite lookup_write, length_app, length_take, decide_False; [done|]. simpl. lia.
Qed.

Lemma vsnprintf_truncates_witness :
  ∃ m', vsnprintf 4096 4 (chars "x=%d") [VWord 42] ∅ = Ok (4, m')
    ∧ (0 < 4 → bytes m' 4096 (chars "x=4" ++ [0]))
    ∧ ∀ a, ¬ (4096 ≤ a < 4096 + 4) → m' !! a = (∅ : mem) !! a.
Proof. apply (vsnprintf_truncates ∅ 4096 4 (chars "x=%d") [VWord 42] (chars "x=42")); [lia | lia | by vm_compute | simpl; lia]. Defined.

(** ** Decimal numbers *)

Lemma push_digits_short b fl : has fl GROUP = false → 0 < base b → ∀ k fuel v cnt buf l,
  0 ≤ v < base b ^ Z.of_nat k → push_digits fuel b fl v cnt buf = Ok l → (length l ≤ k + length buf)%nat.
Proof.
  intros Hg Hb. induction k as [|k IH]; intros [|fuel] v cnt buf l Hv; cbn [push_digits]; try done.
  { assert (v = 0) as -> by (simpl in Hv; lia). simpl. intros [= <-]. lia. }
  rewrite Hg. cbn [andb]. destruct (Z.eqb_spec v 0); [intros [= <-]; lia|]. unfold mbind, res_bind.
  case_match; [|done]. unfold push. destruct (Z.of_nat (length buf) <? 64); [|done]. intros E.
  apply IH in E; [simpl in E; lia|].
  rewrite Nat2Z.inj_succ, Z.pow_succ_r in Hv by lia. split; [apply Z.div_pos; lia|]. apply Z.div_lt_upper_bound; lia.
Qed.

Definition is_digit_char (c : Z) : Prop := 48 ≤ c ≤ 57.

(** The characters of a decimal number of at most ten digits. *)
Lemma decimal_ok value negative t :
  0 ≤ value < 10^10 →
  ∃ body, format_integer value true negative base_d (mk_conversion 0 0 (-1) t) = Ok ((if negative then [45] else []) ++ body)
    ∧ read_number base_d body = value ∧ Forall is_digit_char body ∧ (1 ≤ length body ≤ 10)%nat.
Proof.
  intros Hv. destruct (format_integer_ok value true negative base_d (mk_conversion 0 0 (-1) t))
    as (body & l & z & r & E & Hr & _ & Hp & H10 & Hpad & _); [by left | lia | simpl; lia | done |].
  exists body. cbn [flags width precision] in *. assert (l = 0 ∧ z = 0 ∧ r = 0)%nat as (-> & -> & ->) by lia.
  change (hex_prefix base_d 0 value) with (@nil Z) in E. simpl replicate in E. rewrite app_nil_r in E.
  rewrite E. split; [by destruct negative|]. split; [done|]. split; [by apply H10|]. split; [simpl in Hp; lia|].
  unfold format_integer, mbind, res_bind in E. cbn [flags precision width] in E.
  destruct (push_digits 65 base_d 0 value 0 []) as [d|] eqn:Ed; [|done].
  pose proof (push_digits_short base_d 0 eq_refl ltac:(done) 10 65 value 0 [] d ltac:(done) Ed) as Hs.
  rewrite Nat.add_0_r in Hs. destruct (push_zeros_ok (if -1 <? 0 then 1 else -1) 65 d) as (n & Ez & _ & _ & _ & Hn); [lia | lia|].
  rewrite Ez in E. injection E as E. apply (f_equal length) in E. rewrite !length_app, length_replicate in E.
  unfold output_dup in E. simpl in E, Hn. unfold s32 in E. rewrite sgn_small in E by (destruct negative; simpl; lia).
  destruct negative; simpl in E; rewrite length_replicate in E; match type of E with context [if ?x then _ else _] => destruct x eqn:? end; lia.
Qed.

(** [atoi] counts down, so that the smallest number does not overflow. *)
Definition neg_read (v : Z) (l : list Z) : Z := foldl (λ v c, v * 10 - (c - 48)) v l.
Lemma neg_read_le l v : Forall is_digit_char l → v ≤ 0 → neg_read v l ≤ v.
Proof.
  revert v. induction l as [|c l IH]; intros v Hl Hv; [done|]. apply Forall_cons in Hl as [Hc Hl]. unfold is_digit_char in Hc.
  cbn [neg_read foldl]. etrans; [apply (IH (v * 10 - (c - 48))); [done | lia] | lia].
Qed.
Lemma digit_value_d c : is_digit_char c → digit_value base_d c = c - 48.
Proof.
  intros Hc. unfold is_digit_char in Hc.
  assert (c = 48 ∨ c = 49 ∨ c = 50 ∨ c = 51 ∨ c = 52 ∨ c = 53 ∨ c = 54 ∨ c = 55 ∨ c = 56 ∨ c = 57) as Hd by lia.
  by repeat destruct Hd as [->|Hd]; [..|subst c].
Qed.
Lemma neg_read_number l : Forall is_digit_char l → ∀ v, neg_read (- v) l = - foldl (read_digit base_d) v l.
Proof.
  induction 1 as [|c l Hc Hl IH]; intros v; [done|]. cbn [neg_read foldl]. unfold read_digit at 2. rewrite (digit_value_d c Hc).
  unfold is_digit_char in Hc. destruct (Z.eqb_spec c 44); [lia|]. rewrite <- IH. unfold neg_read. f_equal. simpl. lia.
Qed.

Lemma atoi_digits l m fuel s v (Q : Z → mem → Prop) :
  bytes m s (l ++ [0]) → Forall is_digit_char l → (length l < fuel)%nat → v ≤ 0 → -2^31 ≤ neg_read v l → Q (neg_read v l) m →
  wp (loop fuel (λ '(s, value), c ← load s;
        if isdigit (s8 c) then mret (inl (s + 1, s32 (value * 10 - (s8 c - 48)))) else mret (inr value)) (s, v)) Q m.
Proof.
  revert fuel s v. induction l as [|c l IH]; intros [|fuel] s v Hm Hl Hf Hv Hr HQ; try (simpl in Hf; lia); cbn [loop].
  - apply wp_bind, wp_bind. apply (wp_load _ 0); [by destruct Hm|]. apply wp_ret. by apply wp_ret.
  - destruct Hm as [Hc Hm]. apply Forall_cons in Hl as [Hd Hl].
    apply wp_bind, wp_bind. apply (wp_load _ c); [done|]. unfold s8, s32. unfold is_digit_char in Hd. rewrite (sgn_small 8) by lia.
    assert (isdigit c = true) as -> by (unfold isdigit; lia). apply wp_ret.
    pose proof (neg_read_le l (v * 10 - (c - 48)) Hl ltac:(lia)) as Hle. unfold neg_read in *. cbn [foldl] in *.
    rewrite sgn_small by lia. apply IH; (done || simpl in Hf; lia).
Qed.

Lemma atoi_no_space m s c fuel (Q : Z → mem → Prop) :
  m !! s = Some c → isspace c = false → (0 < fuel)%nat → Q s m →
  wp (loop fuel (λ s, c ← load s; if isspace c then mret (inl (s + 1)) else mret (inr s)) s) Q m.
Proof.
  intros Hc Hsp Hf HQ. destruct fuel as [|fuel]; [lia|]. cbn [loop]. apply wp_bind, wp_bind. apply (wp_load _ c); [done|].
  rewrite Hsp. apply wp_ret. by apply wp_ret.
Qed.

Lemma atoi_ok m s (negative : bool) l fuel (Q : Z → mem → Prop) :
  0 < s → bytes m s ((if negative then [45] else []) ++ l ++ [0]) → Forall is_digit_char l → (length l < fuel)%nat → (2 ≤ fuel)%nat →
  read_number base_d l ≤ 2^31 → (negative = false → read_number base_d l < 2^31) → (0 < length l)%nat →
  Q (if negative then - read_number base_d l else read_number base_d l) m →
  wp (atoi fuel s) Q m.
Proof.
  intros Hs Hm Hl Hf Hf2 Hr Hr' Hne HQ. pose proof (neg_read_number l Hl 0) as Hneg.
  change (neg_read 0 l = - read_number base_d l) in Hneg.
  destruct l as [|c l]; [simpl in Hne; lia|]. assert (is_digit_char c) as Hc by (by inversion Hl). unfold is_digit_char in Hc.
  unfold atoi. wp_assert; [lia|]. apply wp_bind. destruct negative; cbn [app] in Hm.
  - destruct Hm as [H0 Hm]. apply (atoi_no_space _ _ 45); [done | done | lia |].
    apply wp_bind. apply (wp_load _ 45); [done|]. change (45 =? 43) with false. change (45 =? 45) with true. cbv iota beta.
    apply wp_bind. apply (atoi_digits (c :: l)); [done | done | done | lia | lia |]. apply wp_ret. by rewrite Hneg.
  - pose proof Hm as [H0 _]. apply (atoi_no_space _ _ c); [done | unfold isspace; lia | lia |].
    apply wp_bind. apply (wp_load _ c); [done|]. destruct (Z.eqb_spec c 43); [lia|]. destruct (Z.eqb_spec c 45); [lia|].
    apply wp_bind. apply (atoi_digits (c :: l)); [done | done | done | lia | lia |]. apply wp_ret. specialize (Hr' eq_refl).
    rewrite Hneg, Z.opp_involutive. unfold s32.
    pose proof (neg_read_le (c :: l) 0 Hl ltac:(lia)). by rewrite sgn_small by lia.
Qed.

(** One conversion of a format. *)
Lemma vprintf_eq unknown fuel f args :
  head f ≠ Some 37 →
  vprintf_loop unknown (S fuel) (37 :: f) args
  = ('(format, cv, args) ← parse_conversion f args;
     match format with
     | [] => Err Fault
     | ch :: format => '(out, args) ← convert unknown ch cv args; rest ← vprintf_loop unknown fuel format args; Ok (out ++ rest)
     end).
Proof.
  intros Hh. cbn [vprintf_loop]. change (negb (37 =? 37)) with false. cbv iota.
  destruct f as [|c f]; [done|]. simpl in Hh. assert (c ≠ 37) by congruence. repeat case_match; done.
Qed.

Lemma printf_d n :
  -2^31 ≤ n < 2^31 →
  ∃ body, __vprintf (chars "%d") [VWord n] = Ok ((if n <? 0 then [45] else []) ++ body)
    ∧ read_number base_d body = Z.abs n ∧ Forall is_digit_char body ∧ (1 ≤ length body ≤ 10)%nat.
Proof.
  intros Hn. destruct (decimal_ok (Z.abs n) (n <? 0) INT) as (body & E & Hb); [lia|]. exists body. split; [|done].
  unfold __vprintf, vprintf_at. change (chars "%d") with [37; 100].
  rewrite vprintf_eq by done. change (parse_conversion [100] [VWord n]) with (Ok ([100], mk_conversion 0 0 (-1) INT, [VWord n])).
  cbn [mbind res_bind]. unfold convert. change ((100 =? 100) || (100 =? 105)) with true. cbn [type signed_arg va_word mbind res_bind].
  assert (s32 (u32 n) = n) as -> by (unfold s32, u32, sgn; repeat case_match; div_lia).
  assert (u64 (if n <? 0 then - n else n) = Z.abs n) as ->.
  { unfold u64. destruct (Z.ltb_spec n 0); rewrite Z.mod_small by lia; lia. }
  rewrite E. cbn. by rewrite app_nil_r.
Qed.

(** C38: Decimal numbers survive the way through a buffer: [atoi] of what
    [snprintf] with ["%d"] has written into a buffer of at least 12 bytes is
    the number that was printed, for every [int]. *)
Theorem print_scan_roundtrip m buffer buf_size n fuel :
  0 < buffer → 12 ≤ buf_size < 2^31 → -2^31 ≤ n < 2^31 → (12 ≤ fuel)%nat →
  ∃ len m', snprintf buffer buf_size "%d" [VWord n] m = Ok (len, m') ∧ atoi fuel buffer m' = Ok (n, m').
Proof.
  intros Hb Hs Hn Hf. destruct (printf_d n Hn) as (body & E & Hr & Hd & Hl).
  assert (Z.of_nat (length ((if n <? 0 then [45] else []) ++ body)) ≤ 11) as Hlen.
  { rewrite length_app. destruct (n <? 0); simpl; lia. }
  eexists _, _. split; [apply (vsnprintf_ok m buffer buf_size (chars "%d") [VWord n]); [done | lia | done | lia]|].
  rewrite (proj2 (Z.ltb_lt _ _)), take_ge by lia. set (m' := write _ _ _).
  assert (wp (atoi fuel buffer) (λ r m2, r = n ∧ m2 = m') m') as (r & m2 & -> & -> & ->)%wp_Ok; [|done].
  apply (atoi_ok m' buffer (n <? 0) body); [done | | done | lia | lia | lia | lia | lia |].
  - rewrite app_assoc. apply bytes_write.
  - split; [|done]. rewrite Hr. destruct (Z.ltb_spec n 0); lia.
Qed.

Lemma print_scan_roundtrip_witness :
  ∃ len m', snprintf 4096 16 "%d" [VWord (-2147483648)] ∅ = Ok (len, m') ∧ atoi 16 4096 m' = Ok (-2147483648, m').
Proof. apply (print_scan_roundtrip ∅ 4096 16 (-2147483648) 16); lia. Defined.

(** ** The types of a format

    The arguments that a format asks for, read off the format alone. *)
Inductive kind := KWord | KString.
Definition has_kind (a : va) (k : kind) : Prop :=
  match k, a with
  | KString, VWord x => u32 x = 0
  | _, _ => True
  end.

Definition star_kinds (f : list Z) : list Z * list kind :=
  match f with
  | 42 :: f => (f, [KWord])
  | _ => ((parse_number f 0).1, [])
  end.
Definition precision_kinds (f : list Z) : list Z * list kind :=
  match f with
  | 46 :: f => star_kinds f
  | _ => (f, [])
  end.
Definition conversion_kinds (f : list Z) : list Z * arg_type * list kind :=
  let '(f, w) := star_kinds (parse_flags f 0).1 in
  let '(f, p) := precision_kinds f in
  let '(f, t) := parse_type f in
  (f, t, w ++ p).
Definition integer_kinds (t : arg_type) : list kind :=
  match t with
  | INTMAX | LONGLONG => [KWord; KWord]
  | _ => [KWord]
  end.
Definition char_kinds (ch : Z) (t : arg_type) : list kind :=
  if bool_decide (ch ∈ chars "diouxX") then integer_kinds t
  else if bool_decide (ch ∈ chars "cp") then [KWord]
  else if ch =? 115 then [KString]
  else [].
(** [None] is a format that ends inside a conversion. *)
Fixpoint format_kinds (fuel : nat) (f : list Z) : option (list kind) :=
  match fuel with
  | O => None
  | S fuel =>
      match f with
      | [] => Some []
      | c :: f =>
          if negb (c =? 37) then format_kinds fuel f
          else if bool_decide (head f = Some 37) then format_kinds fuel (tail f)
          else
            let '(f, t, ks) := conversion_kinds f in
            match f with
            | [] => None
            | ch :: f => (λ ks', ks ++ char_kinds ch t ++ ks') <$> format_kinds fuel f
            end
      end
  end.
Definition format_type (f : list Z) : option (list kind) := format_kinds (S (length f)) f.

(** Arguments of the kinds [ks], then [args']. *)
Definition takes (ks : list kind) (args args' : list va) : Prop := ∃ l, args = l ++ args' ∧ Forall2 has_kind l ks.

Lemma takes_nil args : takes [] args args.
Proof. by exists []. Qed.
Lemma takes_app ks ks' args args'' :
  takes (ks ++ ks') args args'' → ∃ args', takes ks args args' ∧ takes ks' args' args''.
Proof.
  intros (l & -> & Hl). apply Forall2_app_inv_r in Hl as (l1 & l2 & H1 & H2 & ->). exists (l2 ++ args'').
  split; [exists l1 | exists l2]; split; by rewrite ?app_assoc.
Qed.
Lemma takes_nil_inv args args' : takes [] args args' → args = args'.
Proof. intros (l & -> & Hl). by inversion Hl. Qed.
Lemma takes_one k args args' : takes [k] args args' → ∃ a, args = a :: args' ∧ has_kind a k.
Proof. intros (l & -> & Hl). inversion Hl as [|a ? ? ? Hk Hn]; subst. inversion Hn; subst. by exists a. Qed.
Lemma takes_cons a k ks args args' : has_kind a k → takes ks args args' → takes (k :: ks) (a :: args) args'.
Proof. intros Ha (l & -> & Hl). exists (a :: l). split; [done|]. by constructor. Qed.
Lemma takes_trans ks ks' args args' args'' : takes ks args args' → takes ks' args' args'' → takes (ks ++ ks') args args''.
Proof. intros (l & -> & Hl) (l' & -> & Hl'). exists (l ++ l'). split; [by rewrite app_assoc|]. by apply Forall2_app. Qed.

(** [Ok] with the rest [args'] exactly when the arguments have the kinds,
    and a fault otherwise. *)
Definition typed {A} (ks : list kind) (args : list va) (r : list va → A → Prop) (m : res A) : Prop :=
  (∀ args', takes ks args args' → ∃ a, m = Ok a ∧ r args' a)
  ∧ (∀ a, m = Ok a → ∃ args', takes ks args args' ∧ r args' a) ∧ (∀ e, m = Err e → e = Fault).

Lemma typed_bind {A B} ks ks' args r r' (m : res A) (k : A → res B) :
  typed ks args r m → (∀ args' a, r args' a → typed ks' args' r' (k a)) → typed (ks ++ ks') args r' (m ≫= k).
Proof.
  intros (H1 & H2 & H3) Hk. split; [|split].
  - intros args'' (args' & Ht & Ht')%takes_app. destruct (H1 _ Ht) as (a & -> & Hr). by apply (Hk _ _ Hr).
  - intros b E. destruct m as [a|]; [|done]. destruct (H2 a eq_refl) as (args' & Ht & Hr).
    destruct (proj1 (proj2 (Hk _ _ Hr)) b E) as (args'' & Ht' & Hr'). exists args''. split; [by eapply takes_trans | done].
  - intros e E. destruct m as [a|e']; [|injection E as <-; by apply H3]. destruct (H2 a eq_refl) as (args' & Ht & Hr).
    by apply (proj2 (proj2 (Hk _ _ Hr)) e).
Qed.
Lemma typed_ret {A} args (r : list va → A → Prop) a : r args a → typed [] args r (Ok a).
Proof.
  intros Hr. split; [intros args' <-%takes_nil_inv; by eexists|]. split; [|done].
  intros ? [= <-]. exists args. split; [apply takes_nil | done].
Qed.
Lemma typed_bind_ret {A B} ks args r r' (m : res A) (k : A → res B) :
  typed ks args r m → (∀ args' a, r args' a → ∃ b, k a = Ok b ∧ r' args' b) → typed ks args r' (m ≫= k).
Proof.
  intros Hm Hk. rewrite <- (app_nil_r ks). eapply typed_bind; [done|]. intros args' a Hr. destruct (Hk _ _ Hr) as (b & -> & Hb). by apply typed_ret.
Qed.

Lemma va_word_typed args : typed [KWord] args (λ args' a, a.2 = args' ∧ 0 ≤ a.1 < 2^32) (va_word args).
Proof.
  assert (∀ x, 0 ≤ u32 x < 2^32) as Hu by (intros x; apply Z.mod_pos_bound; lia). split; [|split].
  - intros args' ([x|x s] & -> & _)%takes_one; (eexists; split; [done|]; split; [done | apply Hu]).
  - intros a E. destruct args as [|[x|x s] args]; try done; injection E as <-; exists args; (split; [by apply takes_cons, takes_nil|]);
      (split; [done | apply Hu]).
  - intros e E. destruct args as [|[x|x s] args]; by inversion E.
Qed.
Lemma va_long_typed args : typed [KWord; KWord] args (λ args' a, a.2 = args' ∧ 0 ≤ a.1 < 2^64) (va_long args).
Proof.
  apply (typed_bind [KWord] [KWord] _ (λ args' a, a.2 = args' ∧ 0 ≤ a.1 < 2^32)); [apply va_word_typed|]. intros ? [lo args1] [<- Hlo]. simpl in *.
  eapply typed_bind_ret; [apply va_word_typed|]. intros ? [hi args2] [<- Hhi]. simpl in *. eexists. split; [done|]. split; [done|]. simpl. lia.
Qed.
Lemma va_string_typed args : typed [KString] args (λ args' a, a.2 = args') (va_string args).
Proof.
  split; [|split].
  - intros args' ([x|x s] & -> & Hk)%takes_one; cbn in *; [rewrite Hk|]; by eexists.
  - intros a E. destruct args as [|[x|x s] args]; cbn in E; [done | destruct (Z.eqb_spec (u32 x) 0); [|done] |]; injection E as <-;
      exists args; (split; [by apply takes_cons, takes_nil | done]).
  - intros e E. destruct args as [|[x|x s] args]; cbn in E; [by inversion E | destruct (u32 x =? 0); by inversion E | done].
Qed.

Lemma parse_star_typed f args :
  typed (star_kinds f).2 args (λ args' a, a.1.1 = (star_kinds f).1 ∧ a.2 = args') (parse_star f args).
Proof.
  destruct (decide (head f = Some 42)) as [Hh|Hh].
  - destruct f as [|c f]; [done|]. injection Hh as ->. cbn [star_kinds parse_star fst snd].
    eapply typed_bind_ret; [apply va_word_typed|]. intros args' [x args''] [<- _]. by eexists.
  - assert (parse_star f args = let '(f, n) := parse_number f 0 in Ok (f, n, args)) as ->.
    { destruct f as [|c f]; [done|]. simpl in Hh. assert (c ≠ 42) by congruence. unfold parse_star. repeat case_match; done. }
    assert (star_kinds f = ((parse_number f 0).1, [])) as ->.
    { destruct f as [|c f]; [done|]. simpl in Hh. assert (c ≠ 42) by congruence. unfold star_kinds. repeat case_match; done. }
    destruct (parse_number f 0) as [f' n]. by apply typed_ret.
Qed.

Lemma parse_precision_typed f args :
  typed (precision_kinds f).2 args (λ args' a, a.1.1 = (precision_kinds f).1 ∧ a.2 = args')
    (match f with
     | 46 :: f => '(f, p, args) ← parse_star f args; Ok (f, if p <? 0 then -1 else p, args)
     | _ => Ok (f, -1, args)
     end).
Proof.
  destruct (decide (head f = Some 46)) as [Hh|Hh].
  - destruct f as [|c f]; [done|]. injection Hh as ->. cbn [precision_kinds].
    eapply typed_bind_ret; [apply parse_star_typed|]. intros args' [[f' p] args''] [<- <-]. by eexists.
  - assert (precision_kinds f = (f, [])) as Hp.
    { destruct f as [|c f]; [done|]. simpl in Hh. assert (c ≠ 46) by congruence. unfold precision_kinds. repeat case_match; done. }
    rewrite Hp. assert (∀ (x y : res (list Z * Z * list va)), typed (f, @nil kind).2 args (λ args' a, a.1.1 = (f, @nil kind).1 ∧ a.2 = args') y →
      x = y → typed (f, @nil kind).2 args (λ args' a, a.1.1 = (f, @nil kind).1 ∧ a.2 = args') x) as Heq by (by intros x y ? ->).
    apply (Heq _ (Ok (f, -1, args))); [by apply typed_ret|].
    destruct f as [|c f]; [done|]. simpl in Hh. assert (c ≠ 46) by congruence. repeat case_match; done.
Qed.

Lemma parse_conversion_typed f args f' t ks :
  conversion_kinds f = (f', t, ks) →
  typed ks args (λ args' a, a.1.1 = f' ∧ type a.1.2 = t ∧ a.2 = args') (parse_conversion f args).
Proof.
  unfold conversion_kinds, parse_conversion. destruct (parse_flags f 0) as [f1 fl]. cbn [fst].
  pose proof (parse_star_typed f1 args) as Hstar. destruct (star_kinds f1) as [f2 w]. cbn [fst snd] in Hstar.
  destruct (precision_kinds f2) as [f3 p] eqn:Ep. destruct (parse_type f3) as [f4 t'] eqn:Et. intros [= <- <- <-].
  eapply typed_bind; [exact Hstar|]. intros args1 [[f2' n] args1'] [? ?]. simpl in *. subst f2' args1'.
  destruct (if n <? 0 then _ else _) as [n' fl'].
  pose proof (parse_precision_typed f2 args1) as Hprec. rewrite Ep in Hprec.
  eapply typed_bind_ret; [exact Hprec|]. intros args2 [[f3' pr] args2'] [? ?]. simpl in *. subst f3' args2'. rewrite Et. by eexists.
Qed.

Lemma format_integer_total value is_signed negative b c :
  b ∈ bases → 0 ≤ value < 2^64 → ∃ out, format_integer value is_signed negative b c = Ok out.
Proof. intros Hb Hv. destruct (number_ok value b c Hb Hv) as (body & E & _). eexists. by apply (format_integer_eq _ _ _ _ _ body). Qed.

Lemma signed_arg_typed t args : typed (integer_kinds t) args (λ args' a, a.2 = args') (signed_arg t args).
Proof.
  destruct t; cbn [integer_kinds signed_arg]; (eapply typed_bind_ret; [apply va_word_typed || apply va_long_typed|]);
    intros args' [x args''] [<- _]; by eexists.
Qed.
Lemma unsigned_arg_typed t args :
  typed (integer_kinds t) args (λ args' a, a.2 = args' ∧ 0 ≤ a.1 < 2^64) (unsigned_arg t args).
Proof.
  assert (typed [KWord] args (λ args' a, a.2 = args' ∧ 0 ≤ a.1 < 2^64) (va_word args)) as Hw.
  { destruct (va_word_typed args) as (H1 & H2 & H3). split; [|split; [|done]].
    - intros args' (a & -> & ? & ?)%H1. exists a. split; [done|]. split; [done | lia].
    - intros a (args' & ? & ? & ?)%H2. exists args'. split; [done|]. split; [done | lia]. }
  destruct t; cbn [integer_kinds unsigned_arg]; try (exact Hw || apply va_long_typed);
    (eapply typed_bind_ret; [apply va_word_typed|]); intros args' [x args''] [<- Hx]; (eexists; split; [done|]); (split; [done|]); simpl in *.
  - pose proof (Z.mod_pos_bound x (2^8)). unfold u8. lia.
  - pose proof (Z.mod_pos_bound x (2^16)). unfold u16. lia.
  - change (2^32 - 1) with (Z.ones 32). rewrite Z.land_ones by lia. pose proof (Z.mod_pos_bound (u64 (s32 x)) (2^32)). lia.
Qed.

Lemma char_kinds_eq ch t :
  char_kinds ch t =
  if (ch =? 100) || (ch =? 105) then integer_kinds t
  else if (ch =? 111) || (ch =? 117) || (ch =? 120) || (ch =? 88) then integer_kinds t
  else if ch =? 99 then [KWord] else if ch =? 115 then [KString] else if ch =? 112 then [KWord] else [].
Proof.
  unfold char_kinds.
  assert (bool_decide (ch ∈ chars "diouxX") = ((ch =? 100) || (ch =? 105)) || ((ch =? 111) || (ch =? 117) || (ch =? 120) || (ch =? 88))) as ->.
  { apply eq_true_iff_eq. rewrite bool_decide_eq_true. cbn [chars]. set_unfold. cbn. lia. }
  assert (bool_decide (ch ∈ chars "cp") = (ch =? 99) || (ch =? 112)) as ->.
  { apply eq_true_iff_eq. rewrite bool_decide_eq_true. cbn [chars]. set_unfold. cbn. lia. }
  repeat match goal with |- context [ch =? ?k] => destruct (Z.eqb_spec ch k); [by subst|] end. done.
Qed.

Section convert.
Context (unknown : string → Z → res (list Z)).
Hypothesis unknown_ok : ∀ msg ch, msg ∈ ["<<no %%%c in kernel>>"; "<<no %%%c conversion>>"]%string → ∃ out, unknown msg ch = Ok out.

Lemma convert_typed ch c args : typed (char_kinds ch (type c)) args (λ args' a, a.2 = args') (convert unknown ch c args).
Proof.
  rewrite char_kinds_eq. unfold convert. destruct (_ || _).
  { eapply typed_bind_ret; [apply signed_arg_typed|]. intros ? [value args'] <-. cbn [snd].
    destruct (format_integer_total (u64 (if value <? 0 then - value else value)) true (value <? 0) base_d c) as [out ->];
      [by left | apply Z.mod_pos_bound; lia | by eexists]. }
  destruct (_ || _).
  { eapply typed_bind_ret; [apply unsigned_arg_typed|]. intros ? [value args'] [<- Hv]. cbn [fst snd] in *.
    destruct (format_integer_total value false false
      (if ch =? 111 then base_o else if ch =? 117 then base_d else if ch =? 120 then base_x else base_X) c) as [out ->];
      [unfold bases; repeat case_match; set_solver | done | by eexists]. }
  destruct (ch =? 99). { eapply typed_bind_ret; [apply va_word_typed|]. intros ? [x args'] [<- _]. by eexists. }
  destruct (ch =? 115). { eapply typed_bind_ret; [apply va_string_typed|]. intros ? [x args'] <-. by eexists. }
  destruct (ch =? 112).
  { eapply typed_bind_ret; [apply va_word_typed|]. intros ? [p args'] [<- Hp]. cbn [fst snd] in *.
    destruct (format_integer_total p false false base_x (mk_conversion POUND (width c) (precision c) (type c))) as [out ->];
      [unfold bases; set_solver | lia | by eexists]. }
  destruct (_ || _); [destruct (unknown_ok "<<no %%%c in kernel>>" ch) as [out ->]
    | destruct (unknown_ok "<<no %%%c conversion>>" ch) as [out ->]]; (set_solver || by apply typed_ret).
Qed.

Definition typed_opt {A} (o : option (list kind)) (args : list va) (m : res A) : Prop :=
  match o with
  | Some ks => typed ks args (λ _ _, True) m
  | None => m = Err Fault
  end.
Lemma typed_opt_bind {A B} ks o args r (m : res A) (k : A → res B) :
  typed ks args r m → (∀ args' a, r args' a → typed_opt o args' (k a)) → typed_opt (app ks <$> o) args (m ≫= k).
Proof.
  intros Hm Hk. destruct o as [ks'|]; simpl in *; [by eapply typed_bind|].
  destruct Hm as (_ & H2 & H3). destruct m as [a|e]; [|by rewrite (H3 e)].
  destruct (H2 a eq_refl) as (args' & _ & Hr). by apply (Hk args').
Qed.
Lemma typed_opt_map {A B} o args (m : res A) (k : A → B) : typed_opt o args m → typed_opt o args (a ← m; Ok (k a)).
Proof. destruct o as [ks|]; simpl; [|by intros ->]. intros Hm. eapply typed_bind_ret; [done|]. intros. by eexists. Qed.

Lemma parse_flags_short f fl : (length (parse_flags f fl).1 ≤ length f)%nat.
Proof. revert fl. induction f as [|c f IH]; intros fl; [done|]. cbn [parse_flags]. repeat case_match; simpl; try done; etrans; try apply IH; lia. Qed.
Lemma parse_number_short f n : (length (parse_number f n).1 ≤ length f)%nat.
Proof. revert n. induction f as [|c f IH]; intros n; [done|]. cbn [parse_number]. case_match; simpl; [|done]. etrans; [apply IH | lia]. Qed.
Lemma star_kinds_short f : (length (star_kinds f).1 ≤ length f)%nat.
Proof.
  destruct f as [|c f]; [done|]. destruct (decide (c = 42)) as [->|Hc]; [simpl; lia|].
  assert (star_kinds (c :: f) = ((parse_number (c :: f) 0).1, [])) as -> by (unfold star_kinds; repeat case_match; done). apply parse_number_short.
Qed.
Lemma precision_kinds_short f : (length (precision_kinds f).1 ≤ length f)%nat.
Proof.
  destruct f as [|c f]; [done|]. destruct (decide (c = 46)) as [->|Hc].
  - simpl. etrans; [apply star_kinds_short | lia].
  - assert (precision_kinds (c :: f) = (c :: f, [])) as -> by (unfold precision_kinds; repeat case_match; done). done.
Qed.
Lemma parse_type_short f : (length (parse_type f).1 ≤ length f)%nat.
Proof. unfold parse_type. repeat case_match; simpl; lia. Qed.
Lemma conversion_kinds_short f f' t ks : conversion_kinds f = (f', t, ks) → (length f' ≤ length f)%nat.
Proof.
  unfold conversion_kinds. pose proof (parse_flags_short f 0). pose proof (star_kinds_short (parse_flags f 0).1).
  destruct (star_kinds _) as [f1 w]. pose proof (precision_kinds_short f1). destruct (precision_kinds f1) as [f2 p].
  pose proof (parse_type_short f2). destruct (parse_type f2) as [f3 t']. intros [= <- <- <-]. simpl in *. lia.
Qed.

Lemma vprintf_loop_typed fuel f args :
  (length f < fuel)%nat → typed_opt (format_kinds fuel f) args (vprintf_loop unknown fuel f args).
Proof.
  revert f args. induction fuel as [|fuel IH]; intros f args Hf; [lia|]. destruct f as [|c f]; [by apply typed_ret|]. simpl in Hf.
  cbn [format_kinds]. destruct (Z.eqb_spec c 37) as [->|Hc]; cbn [negb].
  2: { cbn [vprintf_loop]. rewrite (proj2 (Z.eqb_neq _ _)) by done. apply typed_opt_map, IH. lia. }
  case_bool_decide as Hh.
  { destruct f as [|c f]; [done|]. injection Hh as ->. simpl in Hf. apply (typed_opt_map _ _ _ (cons 37)), IH. simpl. lia. }
  destruct (conversion_kinds f) as [[f' t] ks] eqn:Ek. pose proof (conversion_kinds_short _ _ _ _ Ek) as Hshort.
  pose proof (parse_conversion_typed f args f' t ks Ek) as Hp.
  rewrite vprintf_eq by done. destruct f' as [|ch f'].
  - destruct Hp as (_ & H2 & H3). destruct (parse_conversion f args) as [[[f0 cv] args1]|e]; [|by rewrite (H3 e)].
    destruct (H2 _ eq_refl) as (args' & _ & ? & _). by simplify_eq/=.
  - assert (∀ o : option (list kind), (λ ks', ks ++ char_kinds ch t ++ ks') <$> o = app ks <$> (app (char_kinds ch t) <$> o)) as -> by (by intros []).
    eapply typed_opt_bind; [exact Hp|]. intros args1 [[f0 cv] args1'] (? & ? & ?). simpl in *. subst.
    eapply typed_opt_bind; [apply convert_typed|]. intros args2 [out args2'] <-. apply typed_opt_map, IH. simpl in *. lia.
Qed.
End convert.

Lemma vprintf_plain unknown fuel f args :
  Forall (λ c, c ≠ 37) f → (length f < fuel)%nat → vprintf_loop unknown fuel f args = Ok f.
Proof.
  intros Hf. revert fuel. induction Hf as [|c f Hc Hf IH]; intros [|fuel] Hl; simpl in Hl; try lia; [done|].
  cbn [vprintf_loop]. rewrite (proj2 (Z.eqb_neq _ _)), IH by (done || lia). done.
Qed.
Lemma vprintf_prefix unknown fuel f g args :
  Forall (λ c, c ≠ 37) f →
  vprintf_loop unknown (length f + fuel) (f ++ g) args = (rest ← vprintf_loop unknown fuel g args; Ok (f ++ rest)).
Proof.
  induction 1 as [|c f Hc Hf IH]; cbn [length app Nat.add]; [by destruct (vprintf_loop _ _ _ _)|].
  cbn [vprintf_loop]. rewrite (proj2 (Z.eqb_neq _ _)), IH by done. cbn [negb]. unfold mbind, res_bind.
  by destruct (vprintf_loop unknown fuel g args).
Qed.
(** The messages for conversions that are not supported. *)
Lemma vprintf_message unknown fuel f g ch :
  Forall (λ c, c ≠ 37) f → Forall (λ c, c ≠ 37) g → (length g < fuel)%nat →
  vprintf_loop unknown (length f + S (S fuel)) (f ++ 37 :: 37 :: 37 :: 99 :: g) [VWord ch] = Ok (f ++ 37 :: u8 (u32 ch) :: g).
Proof.
  intros Hf Hg Hl. rewrite vprintf_prefix by done. set (fuel' := S fuel). cbn [vprintf_loop]. change (negb (37 =? 37)) with false. cbv iota. subst fuel'.
  rewrite vprintf_eq by done. cbn [parse_conversion]. unfold parse_conversion. cbn. by rewrite vprintf_plain.
Qed.
Lemma message_text unknown f g ch :
  Forall (λ c, c ≠ 37) f → Forall (λ c, c ≠ 37) g → ∃ out,
    vprintf_loop unknown (S (length (f ++ 37 :: 37 :: 37 :: 99 :: g))) (f ++ 37 :: 37 :: 37 :: 99 :: g) [VWord ch] = Ok out.
Proof.
  intros Hf Hg. eexists. rewrite length_app, plus_n_Sm. cbn [length].
  apply (vprintf_message _ (S (S (S (length g))))); [done | done | lia].
Qed.
Lemma message_ok msg ch :
  msg ∈ ["<<no %%%c in kernel>>"; "<<no %%%c conversion>>"]%string → ∃ out, vprintf_at 0 (chars msg) [VWord ch] = Ok out.
Proof.
  intros Hm. set_unfold. unfold vprintf_at. destruct Hm as [->|[->|[]]].
  - change (chars "<<no %%%c in kernel>>") with (chars "<<no " ++ 37 :: 37 :: 37 :: 99 :: chars " in kernel>>").
    apply message_text; repeat constructor; done.
  - change (chars "<<no %%%c conversion>>") with (chars "<<no " ++ 37 :: 37 :: 37 :: 99 :: chars " conversion>>").
    apply message_text; repeat constructor; done.
Qed.

Lemma vprintf_typed format args : typed_opt (format_type format) args (__vprintf format args).
Proof. exact (vprintf_loop_typed _ message_ok (S (length format)) format args ltac:(lia)). Qed.
(** A call of [printf] with arguments of the right kinds. *)
Lemma printf_ok format ks args :
  format_type (chars format) = Some ks → Forall2 has_kind args ks → ∃ t, printf format args = Ok t.
Proof.
  intros Hk Ha. pose proof (vprintf_typed (chars format) args) as Ht. rewrite Hk in Ht. destruct Ht as (H1 & _).
  destruct (H1 []) as (t & E & _); [|by exists t]. exists args. by rewrite app_nil_r.
Qed.

(** C37: Type safety of formatted output.  The format alone determines how
    many words [__vprintf] takes from its arguments and which of them it takes
    for the addresses of strings.  A call with at least as many words returns
    its text, whatever the words are, provided that those that are taken for
    strings are addresses of strings or null.  Every other call fails: it has
    fewer arguments than the format asks for, a word for [%s] at which there is
    no string, or a format that ends inside a conversion, behind which the
    function goes on reading. *)
Theorem printf_type_safe format args :
  (∀ ks args', format_type format = Some ks → takes ks args args' → ∃ out, __vprintf format args = Ok out)
  ∧ ((∀ ks args', format_type format = Some ks → ¬ takes ks args args') → __vprintf format args = Err Fault).
Proof.
  pose proof (vprintf_typed format args) as Ht.
  destruct (format_type format) as [ks|]; [|done]. destruct Ht as (H1 & H2 & H3). split.
  - intros ? args' [= <-] Hk. destruct (H1 args' Hk) as (out & E & _). by exists out.
  - intros Hno. destruct (__vprintf format args) as [a|e]; [|by rewrite (H3 e)].
    destruct (H2 a eq_refl) as (args' & Hk & _). by destruct (Hno ks args').
Qed.

(** Pointers may be printed as numbers, and null pointers as strings; a third
    argument is missing here. *)
Lemma printf_type_safe_witness :
  (∃ out, __vprintf (chars "%d%s") [VString 3222274048 (chars "abc"); VWord 0] = Ok out)
  ∧ __vprintf (chars "%d%s%p") [VString 3222274048 (chars "abc"); VWord 0] = Err Fault.
Proof.
  split.
  - apply (proj1 (printf_type_safe (chars "%d%s") [VString 3222274048 (chars "abc"); VWord 0]) [KWord; KString] []);
      [by vm_compute | by exists [VString 3222274048 (chars "abc"); VWord 0]; split; [done | repeat constructor]].
  - apply (proj2 (printf_type_safe (chars "%d%s%p") [VString 3222274048 (chars "abc"); VWord 0])).
    intros ks args' E (l & El & Hl). assert (ks = [KWord; KString; KWord]) as -> by (vm_compute in E; congruence).
    apply Forall2_length in Hl. apply (f_equal length) in El. rewrite length_app in El. cbn in *. lia.
Defined.

(** A negative width sets the flag [-] after [0] has been dropped for it, so
    that the field is padded twice: eight characters for a width of five. *)
Lemma double_padding : printf "%0*d" [VWord (-5); VWord 42] = Ok (chars "00042   ").
Proof. by vm_compute. Qed.
End StdioProps.
