(* ===== verification/Intq.v ===== *)
(** * Interrupt queues: devices/intq.c

    A queue of bytes that threads and interrupt handlers share.  All of it
    runs with interrupts off, so a thread runs from its call to the point
    where it blocks, and from there on when it has been woken up; the calls
    are split at these points. *)
From stdpp Require Import base gmap list list_numbers.
From Stdlib Require Import ZArith Lia.
From S2P Require Import Prelude.

Module Intq.

Definition INTQ_BUFSIZE : Z := 64.

(** [sema], [waiters] and [holder] are the queue's lock. *)
Record intq := mk_intq {
  sema : Z;
  waiters : list Z;
  holder : option Z;
  not_full : option Z;
  not_empty : option Z;
  buf : list Z;
  head : Z;
  tail : Z
}.

(** What the queue sees of the threads: the running one, the blocked ones,
    whether interrupts are off and whether an interrupt is being handled. *)
Record threads := mk_threads {
  cur : Z;
  blocked : gset Z;
  intr_off : bool;
  intr_context : bool
}.
Record st := mk_st { q : intq; thr : threads }.

Definition set_lock (v : Z) (w : list Z) (h : option Z) (x : intq) : intq :=
  mk_intq v w h (not_full x) (not_empty x) (buf x) (head x) (tail x).
Definition set_data (b : list Z) (h t : Z) (x : intq) : intq :=
  mk_intq (sema x) (waiters x) (holder x) (not_full x) (not_empty x) b h t.
Definition set_blocked (b : gset Z) (x : threads) : threads := mk_threads (cur x) b (intr_off x) (intr_context x).
Definition upd_q (f : intq → intq) : M st unit := modify (λ s, mk_st (f (q s)) (thr s)).

(** [thread_block] up to the switch, and [thread_unblock], of threads/thread.c *)
Definition thread_block : M st unit :=
  off ← gets (intr_off ∘ thr);
  ctx ← gets (intr_context ∘ thr);
  ASSERT (negb ctx) ;; ASSERT off ;;
  modify (λ s, mk_st (q s) (set_blocked (blocked (thr s) ∪ {[cur (thr s)]}) (thr s))).
Definition thread_unblock (t : Z) : M st unit :=
  b ← gets (blocked ∘ thr);
  ASSERT (bool_decide (t ∈ b)) ;;
  modify (λ s, mk_st (q s) (set_blocked (blocked (thr s) ∖ {[t]}) (thr s))).

(** A call either has its result, or the thread is blocked: in the loop of
    [sema_down] for the queue's lock, or in [wait]. *)
Inductive point := AtLock | AtWait.
Inductive outcome (A : Type) := Done (a : A) | Stop (p : point).
Arguments Done {A} a.
Arguments Stop {A} p.

(** *** The lock, threads/synch.c *)

(** The loop of [sema_down], from its test on. *)
Definition sema_loop : M st bool :=
  s ← get;
  if sema (q s) =? 0 then
    upd_q (set_lock (sema (q s)) (waiters (q s) ++ [cur (thr s)]) (holder (q s))) ;; thread_block ;; mret false
  else
    upd_q (set_lock (sema (q s) - 1) (waiters (q s)) (holder (q s))) ;; mret true.
(** The rest of [lock_acquire] after the loop. *)
Definition lock_loop : M st bool :=
  a ← sema_loop;
  if a : bool then
    s ← get;
    upd_q (set_lock (sema (q s)) (waiters (q s)) (Some (cur (thr s)))) ;; mret true
  else mret false.
Definition lock_acquire : M st bool :=
  s ← get;
  ASSERT (negb (intr_context (thr s))) ;;
  ASSERT (negb (bool_decide (holder (q s) = Some (cur (thr s))))) ;;
  lock_loop.
Definition lock_release : M st unit :=
  s ← get;
  ASSERT (bool_decide (holder (q s) = Some (cur (thr s)))) ;;
  upd_q (set_lock (sema (q s)) (waiters (q s)) None) ;;
  match waiters (q s) with
  | t :: w => upd_q (set_lock (sema (q s)) w None) ;; thread_unblock t
  | [] => mret tt
  end ;;
  s ← get;
  upd_q (set_lock (sema (q s) + 1) (waiters (q s)) None).

(** *** The queue *)

(** Memory starts with interrupts off and nothing waiting. *)
Definition intq_init (b : list Z) : intq := mk_intq 1 [] None None None b 0 0.
Definition next (pos : Z) : Z := (pos + 1) mod INTQ_BUFSIZE.

Definition intq_empty : M st bool :=
  off ← gets (intr_off ∘ thr); ASSERT off ;; gets (λ s, head (q s) =? tail (q s)).
Definition intq_full : M st bool :=
  off ← gets (intr_off ∘ thr); ASSERT off ;; gets (λ s, next (head (q s)) =? tail (q s)).

(** Which of the two conditions a thread waits for: [WNotEmpty] is
    [&q->not_empty]. *)
Inductive waiter := WNotFull | WNotEmpty.
Definition get_waiter (w : waiter) (x : intq) : option Z :=
  match w with WNotFull => not_full x | WNotEmpty => not_empty x end.
Definition set_waiter (w : waiter) (t : option Z) (x : intq) : intq :=
  match w with
  | WNotFull => mk_intq (sema x) (waiters x) (holder x) t (not_empty x) (buf x) (head x) (tail x)
  | WNotEmpty => mk_intq (sema x) (waiters x) (holder x) (not_full x) t (buf x) (head x) (tail x)
  end.
(** The condition that makes a thread wait. *)
Definition must_wait (w : waiter) : M st bool :=
  match w with WNotFull => intq_full | WNotEmpty => intq_empty end.

Definition wait (w : waiter) : M st unit :=
  s ← get;
  ASSERT (negb (intr_context (thr s))) ;;
  ASSERT (intr_off (thr s)) ;;
  c ← must_wait w;
  ASSERT c ;;
  upd_q (set_waiter w (Some (cur (thr s)))) ;;
  thread_block.
Definition signal (w : waiter) : M st unit :=
  s ← get;
  ASSERT (intr_off (thr s)) ;;
  c ← must_wait w;
  ASSERT (negb c) ;;
  match get_waiter w (q s) with
  | Some t => thread_unblock t ;; upd_q (set_waiter w None)
  | None => mret tt
  end.

(** The loop that waits, from its test on; [Done] is its end. *)
Definition wait_loop (w : waiter) : M st (outcome unit) :=
  c ← must_wait w;
  if c : bool then
    s ← get;
    ASSERT (negb (intr_context (thr s))) ;;
    a ← lock_acquire;
    if a : bool then wait w ;; mret (Stop AtWait) else mret (Stop AtLock)
  else mret (Done tt).
(** The rest of the loop for a thread that has been woken up. *)
Definition wait_resume (w : waiter) (p : point) : M st (outcome unit) :=
  match p with
  | AtLock => a ← lock_loop; if a : bool then wait w ;; mret (Stop AtWait) else mret (Stop AtLock)
  | AtWait => lock_release ;; wait_loop w
  end.

Definition take_byte : M st Z :=
  s ← get;
  byte ← of_option Fault (buf (q s) !! Z.to_nat (tail (q s)));
  upd_q (set_data (buf (q s)) (head (q s)) (next (tail (q s)))) ;;
  signal WNotFull ;;
  mret byte.
Definition put_byte (byte : Z) : M st unit :=
  s ← get;
  _ ← of_option Fault (buf (q s) !! Z.to_nat (head (q s)));
  upd_q (set_data (<[Z.to_nat (head (q s)) := byte]> (buf (q s))) (next (head (q s))) (tail (q s))) ;;
  signal WNotEmpty.

Definition after {A} (m : M st (outcome unit)) (k : M st A) : M st (outcome A) :=
  o ← m;
  match o with
  | Done _ => a ← k; mret (Done a)
  | Stop p => mret (Stop p)
  end.
Definition intq_getc : M st (outcome Z) :=
  s ← get; ASSERT (intr_off (thr s)) ;; after (wait_loop WNotEmpty) take_byte.
Definition getc_resume (p : point) : M st (outcome Z) := after (wait_resume WNotEmpty p) take_byte.
Definition intq_putc (byte : Z) : M st (outcome unit) :=
  s ← get; ASSERT (intr_off (thr s)) ;; after (wait_loop WNotFull) (put_byte byte).
Definition putc_resume (byte : Z) (p : point) : M st (outcome unit) := after (wait_resume WNotFull p) (put_byte byte).

(** ** The queue as a sequence *)

Definition contents (x : intq) : list Z :=
  (λ i, default 0 (buf x !! Z.to_nat ((tail x + i) mod INTQ_BUFSIZE))) <$> seqZ 0 ((head x - tail x) mod INTQ_BUFSIZE).
Definition wf (x : intq) : Prop := length (buf x) = 64%nat ∧ 0 ≤ head x < 64 ∧ 0 ≤ tail x < 64.
Definition cond (w : waiter) (x : intq) : bool :=
  match w with WNotFull => next (head x) =? tail x | WNotEmpty => head x =? tail x end.

Lemma length_contents x : Z.of_nat (length (contents x)) = (head x - tail x) mod 64.
Proof. unfold contents. rewrite length_fmap, length_seqZ. apply Z2Nat.id. by apply Z.mod_pos_bound. Qed.
Lemma contents_bound x : wf x → (length (contents x) ≤ 63)%nat.
Proof. pose proof (length_contents x). pose proof (Z.mod_pos_bound (head x - tail x) 64). lia. Qed.
Lemma cond_empty x : wf x → cond WNotEmpty x = true ↔ contents x = [].
Proof.
  intros (_ & Hh & Ht). rewrite <- length_zero_iff_nil. pose proof (length_contents x). unfold cond. rewrite Z.eqb_eq. split; intros.
  - rewrite H0, Z.sub_diag in H. change (0 mod 64) with 0 in H. lia.
  - rewrite H0 in H. div_lia.
Qed.
Lemma cond_full x : wf x → cond WNotFull x = true ↔ length (contents x) = 63%nat.
Proof.
  intros (_ & Hh & Ht). pose proof (length_contents x). unfold cond, next, INTQ_BUFSIZE. rewrite Z.eqb_eq. split; intros; div_lia.
Qed.

(** Taking a byte takes the first one, and putting a byte adds it behind the
    last one. *)
Lemma contents_take x :
  wf x → cond WNotEmpty x = false →
  ∃ byte, buf x !! Z.to_nat (tail x) = Some byte ∧ contents x = byte :: contents (set_data (buf x) (head x) (next (tail x)) x).
Proof.
  intros (Hl & Hh & Ht) Hc. unfold cond in Hc. apply Z.eqb_neq in Hc.
  destruct (lookup_lt_is_Some_2 (buf x) (Z.to_nat (tail x))) as [byte Hb]; [lia|]. exists byte. split; [done|].
  unfold contents. cbn [buf head tail set_data]. unfold next, INTQ_BUFSIZE.
  rewrite (seqZ_cons 0) by div_lia. cbn [fmap list_fmap]. f_equal.
  { rewrite Z.add_0_r, Z.mod_small, Hb by lia. done. }
  replace (Z.pred ((head x - tail x) mod 64)) with ((head x - (tail x + 1) mod 64) mod 64) by div_lia.
  rewrite <- (fmap_add_seqZ 1 0), <- list_fmap_compose. apply list_fmap_ext. intros i y _. cbn.
  replace ((tail x + (1 + y)) mod 64) with (((tail x + 1) mod 64 + y) mod 64) by (rewrite Zplus_mod_idemp_l; f_equal; lia). done.
Qed.
Lemma contents_put x byte :
  wf x → cond WNotFull x = false →
  contents (set_data (<[Z.to_nat (head x) := byte]> (buf x)) (next (head x)) (tail x) x) = contents x ++ [byte].
Proof.
  intros (Hl & Hh & Ht) Hc. unfold cond, next, INTQ_BUFSIZE in Hc. apply Z.eqb_neq in Hc.
  unfold contents. cbn [buf head tail set_data]. unfold next, INTQ_BUFSIZE.
  replace (((head x + 1) mod 64 - tail x) mod 64) with ((head x - tail x) mod 64 + 1) by div_lia.
  rewrite seqZ_app by div_lia. rewrite fmap_app, Z.add_0_l. f_equal.
  - apply list_fmap_ext. intros i y Hy. apply lookup_seqZ in Hy as [-> Hy]. rewrite list_lookup_insert_ne; [done|]. div_lia.
  - rewrite (seqZ_cons _ 1) by lia. change (Z.pred 1) with 0. cbn [seqZ fmap list_fmap].
    replace ((tail x + (head x - tail x) mod 64) mod 64) with (head x) by div_lia. by rewrite list_lookup_insert_eq by lia.
Qed.

(** ** The operations *)

Definition signaled (w : waiter) (s : st) : st :=
  match get_waiter w (q s) with
  | Some t => mk_st (set_waiter w None (q s)) (set_blocked (blocked (thr s) ∖ {[t]}) (thr s))
  | None => s
  end.
Definition waiting (w : waiter) (s : st) : st :=
  mk_st (set_waiter w (Some (cur (thr s))) (q s)) (set_blocked (blocked (thr s) ∪ {[cur (thr s)]}) (thr s)).

Lemma must_wait_eq w s : intr_off (thr s) = true → must_wait w s = Ok (cond w (q s), s).
Proof. intros Ho. destruct s as [x [c b off ctx]]. simpl in Ho. subst. by destruct w. Qed.
Lemma thread_unblock_eq t s :
  t ∈ blocked (thr s) → thread_unblock t s = Ok (tt, mk_st (q s) (set_blocked (blocked (thr s) ∖ {[t]}) (thr s))).
Proof. intros Ht. unfold thread_unblock. erewrite bind_ok by done. by rewrite bool_decide_eq_true_2. Qed.
Lemma signal_eq w s :
  intr_off (thr s) = true → cond w (q s) = false → (∀ t, get_waiter w (q s) = Some t → t ∈ blocked (thr s)) →
  signal w s = Ok (tt, signaled w s).
Proof.
  intros Ho Hc Hb. unfold signal. erewrite bind_ok by done. rewrite Ho. erewrite bind_ok by done.
  erewrite bind_ok by (by apply must_wait_eq). rewrite Hc. erewrite bind_ok by done.
  unfold signaled. destruct (get_waiter w (q s)) as [t|] eqn:E; [|done]. specialize (Hb t eq_refl).
  by erewrite bind_ok by (by apply thread_unblock_eq).
Qed.
Lemma wait_eq w s :
  intr_off (thr s) = true → intr_context (thr s) = false → cond w (q s) = true → wait w s = Ok (tt, waiting w s).
Proof.
  intros Ho Hx Hc. unfold wait. erewrite bind_ok by done. rewrite Ho, Hx. do 2 erewrite bind_ok by done.
  erewrite bind_ok by (by apply must_wait_eq). rewrite Hc. destruct s as [x [c b off ctx]]. simpl in *. by subst.
Qed.
Lemma wait_panics w s :
  intr_off (thr s) = true → intr_context (thr s) = false → cond w (q s) = false → wait w s = Err Panic.
Proof.
  intros Ho Hx Hc. unfold wait. erewrite bind_ok by done. rewrite Ho, Hx. do 2 erewrite bind_ok by done.
  erewrite bind_ok by (by apply must_wait_eq). by rewrite Hc.
Qed.

Definition taken (s : st) : st := signaled WNotFull (mk_st (set_data (buf (q s)) (head (q s)) (next (tail (q s))) (q s)) (thr s)).
Definition given (byte : Z) (s : st) : st :=
  signaled WNotEmpty (mk_st (set_data (<[Z.to_nat (head (q s)) := byte]> (buf (q s))) (next (head (q s))) (tail (q s)) (q s)) (thr s)).

Lemma take_byte_eq s :
  wf (q s) → intr_off (thr s) = true → cond WNotEmpty (q s) = false →
  (∀ t, not_full (q s) = Some t → t ∈ blocked (thr s)) →
  ∃ byte, take_byte s = Ok (byte, taken s) ∧ contents (q s) = byte :: contents (q (taken s)).
Proof.
  intros Hw Ho Hc Hb. destruct (contents_take (q s) Hw Hc) as (byte & E & Hcon). exists byte. split.
  - unfold take_byte. erewrite bind_ok by done. rewrite E. erewrite bind_ok by done. erewrite bind_ok by done.
    erewrite bind_ok; [done|]. apply signal_eq; [done| |done].
    destruct Hw as (_ & Hh & Ht). unfold cond in *. cbn. unfold next, INTQ_BUFSIZE. apply Z.eqb_neq. apply Z.eqb_neq in Hc. div_lia.
  - rewrite Hcon. f_equal. unfold taken, signaled. by destruct (get_waiter _ _).
Qed.
Lemma put_byte_eq byte s :
  wf (q s) → intr_off (thr s) = true → cond WNotFull (q s) = false →
  (∀ t, not_empty (q s) = Some t → t ∈ blocked (thr s)) →
  put_byte byte s = Ok (tt, given byte s) ∧ contents (q (given byte s)) = contents (q s) ++ [byte].
Proof.
  intros Hw Ho Hc Hb. split.
  - unfold put_byte. erewrite bind_ok by done. destruct Hw as (Hl & Hh & Ht).
    destruct (lookup_lt_is_Some_2 (buf (q s)) (Z.to_nat (head (q s)))) as [old E]; [lia|].
    rewrite E. erewrite bind_ok by done. erewrite bind_ok by done. apply signal_eq; [done| |done].
    unfold cond in *. cbn. unfold next, INTQ_BUFSIZE in *. apply Z.eqb_neq. apply Z.eqb_neq in Hc. div_lia.
  - rewrite <- contents_put by done. unfold given, signaled. by destruct (get_waiter _ _).
Qed.
End Intq.
