(* ===== verification/IntqProps.v ===== *)
(** * Threads and interrupt handlers that share a queue *)
From stdpp Require Import base gmap sets list list_numbers.
From Stdlib Require Import ZArith Lia.
From S2P Require Import Prelude Intq.

Module IntqProps.
Import Intq.

(** ** The lock *)

Definition locked (s : st) : st := mk_st (set_lock (sema (q s) - 1) (waiters (q s)) (Some (cur (thr s))) (q s)) (thr s).
Definition queued (s : st) : st :=
  mk_st (set_lock (sema (q s)) (waiters (q s) ++ [cur (thr s)]) (holder (q s)) (q s))
    (set_blocked (blocked (thr s) ∪ {[cur (thr s)]}) (thr s)).
Definition released (s : st) : st :=
  match waiters (q s) with
  | t :: w => mk_st (set_lock (sema (q s) + 1) w None (q s)) (set_blocked (blocked (thr s) ∖ {[t]}) (thr s))
  | [] => mk_st (set_lock (sema (q s) + 1) [] None (q s)) (thr s)
  end.

Lemma lock_loop_free s : sema (q s) ≠ 0 → lock_loop s = Ok (true, locked s).
Proof.
  intros Hs. unfold lock_loop.
  erewrite (bind_ok _ _ _ true (mk_st (set_lock (sema (q s) - 1) (waiters (q s)) (holder (q s)) (q s)) (thr s))); [done|].
  unfold sema_loop. erewrite bind_ok by done.
  by rewrite (proj2 (Z.eqb_neq _ _)).
Qed.
Lemma lock_loop_held s :
  sema (q s) = 0 → intr_off (thr s) = true → intr_context (thr s) = false → lock_loop s = Ok (false, queued s).
Proof.
  intros Hs Ho Hc. unfold lock_loop. erewrite (bind_ok _ _ _ false (queued s)); [done|]. unfold sema_loop. erewrite bind_ok by done.
  rewrite (proj2 (Z.eqb_eq _ _)) by done. destruct s as [x [c b off ctx]]. simpl in *. by subst.
Qed.
Lemma lock_acquire_eq s :
  intr_context (thr s) = false → holder (q s) ≠ Some (cur (thr s)) → lock_acquire s = lock_loop s.
Proof.
  intros Hc Hh. unfold lock_acquire. erewrite bind_ok by done. rewrite Hc, bool_decide_eq_false_2 by done. by do 2 erewrite bind_ok by done.
Qed.
Lemma lock_release_eq s :
  holder (q s) = Some (cur (thr s)) → (∀ t, t ∈ waiters (q s) → t ∈ blocked (thr s)) → lock_release s = Ok (tt, released s).
Proof.
  intros Hh Hw. unfold lock_release. erewrite bind_ok by done. rewrite bool_decide_eq_true_2 by done. do 2 erewrite bind_ok by done.
  unfold released. destruct (waiters (q s)) as [|t w] eqn:E; [by erewrite bind_ok by done|].
  
  assert (t ∈ blocked (thr s)) by (apply Hw; set_solver). erewrite bind_ok; [|erewrite bind_ok by done; by apply thread_unblock_eq]. done.
Qed.

(** ** Calls *)

Inductive call := Getc | Putc (byte : Z).
Definition waits_for (c : call) : waiter := match c with Getc => WNotEmpty | Putc _ => WNotFull end.
(** What a call does to the queue when it does not have to wait; a byte is the
    result of [intq_getc]. *)
Definition with_result {A} (f : A → option Z) (m : M st (outcome A)) : M st (outcome (option Z)) :=
  o ← m; mret (match o with Done a => Done (f a) | Stop p => Stop p end).
Definition start (c : call) : M st (outcome (option Z)) :=
  match c with
  | Getc => with_result Some intq_getc
  | Putc b => with_result (λ _, None) (intq_putc b)
  end.
Definition resume (c : call) (p : point) : M st (outcome (option Z)) :=
  match c with
  | Getc => with_result Some (getc_resume p)
  | Putc b => with_result (λ _, None) (putc_resume b p)
  end.

(** The queue, the threads that are inside of a call, and the bytes that calls
    have put in and taken out. *)
Record sys := mk_sys {
  kernel : st;
  calls : gmap Z (call * point);
  accepted : list Z;
  delivered : list Z
}.
Inductive event :=
  | ECall (t : Z) (c : call)
  | EResume (t : Z)
  | EIntr (c : call).

Definition on_thread (t : Z) (ctx : bool) (s : st) : st := mk_st (q s) (mk_threads t (blocked (thr s)) true ctx).
Definition finish (t : option Z) (c : call) (o : outcome (option Z)) (k : st) (s : sys) : sys :=
  let forget := match t with Some t => delete t (calls s) | None => calls s end in
  match o, t with
  | Stop p, Some t => mk_sys k (<[t := (c, p)]> (calls s)) (accepted s) (delivered s)
  | Stop _, None => mk_sys k (calls s) (accepted s) (delivered s)
  | Done r, _ =>
      mk_sys k forget
        (match c with Putc b => accepted s ++ [b] | Getc => accepted s end)
        (match r with Some b => delivered s ++ [b] | None => delivered s end)
  end.
Definition exec (e : event) (s : sys) : res sys :=
  match e with
  | ECall t c =>
      match start c (on_thread t false (kernel s)) with
      | Ok (o, k) => Ok (finish (Some t) c o k s)
      | Err f => Err f
      end
  | EResume t =>
      match calls s !! t with
      | Some (c, p) =>
          match resume c p (on_thread t false (kernel s)) with
          | Ok (o, k) => Ok (finish (Some t) c o k s)
          | Err f => Err f
          end
      | None => Err Fault
      end
  | EIntr c =>
      match start c (on_thread (cur (thr (kernel s))) true (kernel s)) with
      | Ok (o, k) => Ok (finish None c o k s)
      | Err f => Err f
      end
  end.

(** A thread that runs, not inside of a call, may make one, a thread that has
    been woken up may go on, and an interrupt handler makes calls that do not
    wait. *)
Definition enabled (e : event) (s : sys) : Prop :=
  match e with
  | ECall t c => calls s !! t = None ∧ t ∉ blocked (thr (kernel s))
  | EResume t => is_Some (calls s !! t) ∧ t ∉ blocked (thr (kernel s))
  | EIntr c => cond (waits_for c) (q (kernel s)) = false
  end.
Definition init_sys (b : list Z) (t : Z) : sys := mk_sys (mk_st (intq_init b) (mk_threads t ∅ true false)) ∅ [] [].
(** The states that events with the property [P] lead to. *)
Inductive reachable (P : event → Prop) : sys → Prop :=
  | reach_init b t : length b = 64%nat → reachable P (init_sys b t)
  | reach_step s e s' : reachable P s → P e → enabled e s → exec e s = Ok s' → reachable P s'.

(** ** The invariant

    The holder of the lock is the thread in [wait]; it sleeps only while its
    condition requires it, and the other threads sleep in the queue of the
    lock. *)
Record inv (x : intq) (b : gset Z) (cs : gmap Z (call * point)) : Prop := mk_inv {
  inv_wf : wf x;
  inv_sema : sema x = match holder x with None => 1 | Some _ => 0 end;
  inv_holder : ∀ h, holder x = Some h → ∃ c, cs !! h = Some (c, AtWait);
  inv_inside : ∀ h c, cs !! h = Some (c, AtWait) → holder x = Some h;
  inv_asleep : ∀ t c, cs !! t = Some (c, AtWait) → t ∈ b →
    get_waiter (waits_for c) x = Some t ∧ cond (waits_for c) x = true;
  inv_waiter : ∀ w t, get_waiter w x = Some t → t ∈ b ∧ ∃ c, cs !! t = Some (c, AtWait) ∧ waits_for c = w;
  inv_nodup : NoDup (waiters x);
  inv_queue : ∀ t, t ∈ waiters x ↔ t ∈ b ∧ ∃ c, cs !! t = Some (c, AtLock)
}.

Lemma no_waiter x b cs w : inv x b cs → holder x = None → get_waiter w x = None.
Proof.
  intros Hi Hh. destruct (get_waiter w x) as [t|] eqn:E; [|done].
  destruct (inv_waiter _ _ _ Hi w t E) as (_ & c & Hc & _). apply (inv_inside _ _ _ Hi) in Hc. congruence.
Qed.
(** Only the threads inside of a call matter. *)
Lemma inv_frame x b b' cs : inv x b cs → (∀ t, is_Some (cs !! t) → t ∈ b ↔ t ∈ b') → inv x b' cs.
Proof.
  intros Hi Hb. split; try apply Hi.
  - intros t c Ht Ht'. apply (inv_asleep _ _ _ Hi); [done|]. by apply Hb; [eexists|].
  - intros w t (Ht & c & Hc & Hw)%(inv_waiter _ _ _ Hi). split; [by apply Hb; [eexists|] | by exists c].
  - intros t. rewrite (inv_queue _ _ _ Hi). split; intros [Ht (c & Hc)]; (split; [by apply Hb; [eexists|] | by exists c]).
Qed.

#[local] Instance waiter_eq_dec : EqDecision waiter.
Proof. solve_decision. Defined.
Lemma get_set_waiter w w' t x : get_waiter w' (set_waiter w t x) = if decide (w = w') then t else get_waiter w' x.
Proof. by destruct w, w'. Qed.
Lemma cond_set_waiter w w' t x : cond w' (set_waiter w t x) = cond w' x.
Proof. by destruct w, w'. Qed.

(** A thread goes to sleep in [wait]. *)
Lemma inv_wait x b cs t c :
  inv x b cs → cs !! t = None → t ∉ b → holder x = None → cond (waits_for c) x = true →
  inv (set_waiter (waits_for c) (Some t) (set_lock (sema x - 1) (waiters x) (Some t) x)) (b ∪ {[t]}) (<[t := (c, AtWait)]> cs).
Proof.
  intros Hi Ht Hnb Hh Hc. pose proof (λ w, no_waiter x b cs w Hi Hh) as Hno.
  assert (∀ w t', get_waiter w (set_waiter (waits_for c) (Some t) (set_lock (sema x - 1) (waiters x) (Some t) x)) = Some t' →
    w = waits_for c ∧ t' = t) as Hget.
  { intros w t'. rewrite get_set_waiter. case_decide; [naive_solver|]. specialize (Hno w). destruct w; simpl in *; congruence. }
  assert (∀ h c', cs !! h ≠ Some (c', AtWait)) as Hnone.
  { intros h c' E. apply (inv_inside _ _ _ Hi) in E. congruence. }
  split.
  - pose proof (inv_wf _ _ _ Hi) as Hwf. by destruct c.
  - pose proof (inv_sema _ _ _ Hi) as E. rewrite Hh in E. destruct c; simpl; lia.
  - intros h E. assert (h = t) as -> by (destruct c; simpl in E; congruence). exists c. by rewrite lookup_insert_eq.
  - intros h c' [[<- _]|[_ E]]%lookup_insert_Some; [by destruct c | by apply Hnone in E].
  - intros t' c' [[<- [= <-]]|[_ E]]%lookup_insert_Some _; [|by apply Hnone in E].
    rewrite get_set_waiter, decide_True, cond_set_waiter by done. split; [done|]. by destruct c.
  - intros w t' [-> ->]%Hget. split; [set_solver|]. exists c. by rewrite lookup_insert_eq.
  - pose proof (inv_nodup _ _ _ Hi). by destruct c.
  - intros t'. assert (waiters (set_waiter (waits_for c) (Some t) (set_lock (sema x - 1) (waiters x) (Some t) x)) = waiters x) as -> by (by destruct c).
    rewrite (inv_queue _ _ _ Hi). destruct (decide (t = t')) as [->|Hne]; [rewrite lookup_insert_eq|rewrite lookup_insert_ne by done].
    + split; [naive_solver|]. intros [_ [? ?]]. congruence.
    + set_solver.
Qed.

(** A thread goes to sleep in the queue of the lock. *)
Lemma inv_lock_sleep x b cs t c :
  inv x b cs → cs !! t = None → t ∉ b → sema x = 0 →
  inv (set_lock (sema x) (waiters x ++ [t]) (holder x) x) (b ∪ {[t]}) (<[t := (c, AtLock)]> cs).
Proof.
  intros Hi Ht Hnb Hs.
  assert (∀ w, get_waiter w (set_lock (sema x) (waiters x ++ [t]) (holder x) x) = get_waiter w x) as Hget by (by intros []).
  assert (∀ w, cond w (set_lock (sema x) (waiters x ++ [t]) (holder x) x) = cond w x) as Hcond by (by intros []).
  assert (t ∉ waiters x) as Hnq by (rewrite (inv_queue _ _ _ Hi); naive_solver).
  split; try setoid_rewrite Hget; try setoid_rewrite Hcond; cbn [waiters set_lock sema holder].
  - apply (inv_wf _ _ _ Hi).
  - apply (inv_sema _ _ _ Hi).
  - intros h (c' & E)%(inv_holder _ _ _ Hi). exists c'. rewrite lookup_insert_ne; [done | congruence].
  - intros h c' [[_ ?]|[_ E]]%lookup_insert_Some; [done | by apply (inv_inside _ _ _ Hi) in E].
  - intros t' c' [[_ ?]|[Hne E]]%lookup_insert_Some Hb; [done|]. apply (inv_asleep _ _ _ Hi); [done | set_solver].
  - intros w t' (? & c' & ? & ?)%(inv_waiter _ _ _ Hi). split; [set_solver|]. exists c'. rewrite lookup_insert_ne; [done | congruence].
  - apply NoDup_app. split; [apply (inv_nodup _ _ _ Hi)|]. split; [set_solver | apply NoDup_singleton].
  - intros t'. rewrite elem_of_app, (inv_queue _ _ _ Hi). destruct (decide (t = t')) as [->|Hne].
    + rewrite lookup_insert_eq. set_solver.
    + rewrite lookup_insert_ne by done. set_solver.
Qed.

(** A thread that has been woken up and has to try the lock again is outside
    of everything. *)
Lemma inv_lock_wake x b cs t c : inv x b cs → cs !! t = Some (c, AtLock) → t ∉ b → inv x b (delete t cs).
Proof.
  intros Hi Ht Hnb. split; try by apply Hi.
  - intros h (c' & E)%(inv_holder _ _ _ Hi). exists c'. rewrite lookup_delete_ne; [done | congruence].
  - intros h c' [_ E]%lookup_delete_Some. by apply (inv_inside _ _ _ Hi) in E.
  - intros t' c' [_ E]%lookup_delete_Some. by apply (inv_asleep _ _ _ Hi).
  - intros w t' (? & c' & ? & ?)%(inv_waiter _ _ _ Hi). split; [done|]. exists c'. rewrite lookup_delete_ne; [done | congruence].
  - intros t'. rewrite (inv_queue _ _ _ Hi). destruct (decide (t = t')) as [->|Hne].
    + rewrite lookup_delete_eq. naive_solver.
    + by rewrite lookup_delete_ne.
Qed.

(** The thread in [wait] has been woken up and releases the lock. *)
Lemma inv_release s cs t c :
  inv (q s) (blocked (thr s)) cs → cs !! t = Some (c, AtWait) → t ∉ blocked (thr s) →
  inv (q (released s)) (blocked (thr (released s))) (delete t cs) ∧ holder (q (released s)) = None.
Proof.
  intros Hi Ht Hnb. pose proof (inv_inside _ _ _ Hi t c Ht) as Hh. pose proof (inv_sema _ _ _ Hi) as Hs. rewrite Hh in Hs.
  assert (∀ w, get_waiter w (q s) = None) as Hno.
  { intros w. destruct (get_waiter w (q s)) as [t'|] eqn:E; [|done]. destruct (inv_waiter _ _ _ Hi w t' E) as (Hb & c' & Hc & _).
    apply (inv_inside _ _ _ Hi) in Hc. naive_solver. }
  assert (∀ t' c', delete t cs !! t' ≠ Some (c', AtWait)) as Hnone.
  { intros t' c' [Hne E]%lookup_delete_Some. apply (inv_inside _ _ _ Hi) in E. congruence. }
  assert (∀ t' c', cs !! t' = Some (c', AtLock) → t ≠ t') as Hne by (intros t' c' ? ->; congruence).
  pose proof (inv_nodup _ _ _ Hi) as Hnd. pose proof (inv_queue _ _ _ Hi) as Hq.
  unfold released. destruct (waiters (q s)) as [|u w] eqn:E; (split; [|done]); split; cbn [q thr blocked set_blocked waiters set_lock sema holder];
    try apply (inv_wf _ _ _ Hi); try done; try lia; try (intros ? ? H; by apply Hnone in H);
    try (intros w' t' H; specialize (Hno w'); destruct w'; simpl in *; congruence).
  - intros t'. rewrite Hq. split; intros [Hb (c' & Hc)]; (split; [done|]); exists c'.
    + rewrite lookup_delete_ne; [done | by eapply Hne].
    + by apply lookup_delete_Some in Hc as [_ ?].
  - by apply NoDup_cons in Hnd as [_ ?].
  - apply NoDup_cons in Hnd as [Hu _]. intros t'. specialize (Hq t'). rewrite elem_of_cons in Hq.
    rewrite elem_of_difference, elem_of_singleton. split.
    + intros Hw. destruct (proj1 Hq (or_intror Hw)) as [Hb (c' & Hc)]. split; [split; [done | by intros ->]|].
      exists c'. rewrite lookup_delete_ne; [done | by eapply Hne].
    + intros [[Hb Hu'] (c' & Hc)]. apply lookup_delete_Some in Hc as [_ Hc]. destruct (proj2 Hq) as [?|?]; [by eauto | done | done].
Qed.

(** A change of the bytes wakes the thread whose condition it changes. *)
Lemma inv_signal s cs w w' b h t :
  inv (q s) (blocked (thr s)) cs → wf (set_data b h t (q s)) → w ≠ w' → cond w' (q s) = false →
  let s' := signaled w (mk_st (set_data b h t (q s)) (thr s)) in inv (q s') (blocked (thr s')) cs.
Proof.
  intros Hi Hwf Hne Hc s'.
  assert (∀ t' c, cs !! t' = Some (c, AtWait) → t' ∈ blocked (thr s) → waits_for c = w ∧ get_waiter w (q s) = Some t') as Hw.
  { intros t' c E Hb. destruct (inv_asleep _ _ _ Hi t' c E Hb) as [Hg Hcond].
    destruct (decide (waits_for c = w)) as [<-|Hn]; [done|]. exfalso. destruct (waits_for c), w, w'; congruence. }
  assert (∀ w t', get_waiter w (set_data b h t (q s)) = Some t' → t' ∈ blocked (thr s) ∧ ∃ c, cs !! t' = Some (c, AtWait) ∧ waits_for c = w) as Hgw.
  { intros w0 t' E. apply (inv_waiter _ _ _ Hi). by destruct w0. }
  assert (∀ u, get_waiter w (set_data b h t (q s)) = Some u → ∀ w0 t', get_waiter w0 (set_data b h t (q s)) = Some t' → w0 = w) as Hone.
  { intros u Eu w0 t' E. destruct (Hgw _ _ Eu) as (_ & c & Hcu & Hwu). destruct (Hgw _ _ E) as (_ & c' & Hct & Hwt).
    apply (inv_inside _ _ _ Hi) in Hcu as H1. apply (inv_inside _ _ _ Hi) in Hct as H2. rewrite H1 in H2. injection H2 as ->. congruence. }
  unfold s', signaled. cbn [q thr]. destruct (get_waiter w (set_data b h t (q s))) as [u|] eqn:E.
  - destruct (Hgw w u E) as (Hub & cu & Hcu & Hwu).
    split; cbn [q thr blocked set_blocked].
    + by destruct w.
    + pose proof (inv_sema _ _ _ Hi). by destruct w.
    + pose proof (inv_holder _ _ _ Hi). by destruct w.
    + pose proof (inv_inside _ _ _ Hi). by destruct w.
    + intros t' c Hc' Hb. exfalso. destruct (Hw t' c Hc') as [_ Hg]; [set_solver|].
      assert (get_waiter w (set_data b h t (q s)) = get_waiter w (q s)) as Heq by (by destruct w). rewrite Heq in E. set_solver.
    + intros w0 t'. rewrite get_set_waiter. case_decide as Hd; [done|]. intros E'. by specialize (Hone u eq_refl w0 t' E').
    + pose proof (inv_nodup _ _ _ Hi). by destruct w.
    + intros t'. assert (waiters (set_waiter w None (set_data b h t (q s))) = waiters (q s)) as -> by (by destruct w).
      rewrite (inv_queue _ _ _ Hi). split; [|set_solver]. intros [Hb (c' & Hc')]. split; [|by exists c'].
      apply elem_of_difference. split; [done|]. intros ->%elem_of_singleton. congruence.
  - split; try apply Hi; try done. intros t' c Hc' Hb. destruct (Hw t' c Hc' Hb) as [_ Hg].
    assert (get_waiter w (set_data b h t (q s)) = get_waiter w (q s)) as Heq by (by destruct w). congruence.
Qed.

Lemma next_range pos : 0 ≤ next pos < 64.
Proof. by apply Z.mod_pos_bound. Qed.
Lemma inv_taken s cs :
  inv (q s) (blocked (thr s)) cs → cond WNotEmpty (q s) = false → inv (q (taken s)) (blocked (thr (taken s))) cs.
Proof.
  intros Hi Hc. apply (inv_signal s cs WNotFull WNotEmpty); [done | | done | done].
  destruct (inv_wf _ _ _ Hi) as (Hl & Hh & Ht). split; [done|]. split; [done | apply next_range].
Qed.
Lemma inv_given s cs byte :
  inv (q s) (blocked (thr s)) cs → cond WNotFull (q s) = false → inv (q (given byte s)) (blocked (thr (given byte s))) cs.
Proof.
  intros Hi Hc. apply (inv_signal s cs WNotEmpty WNotFull); [done | | done | done].
  destruct (inv_wf _ _ _ Hi) as (Hl & Hh & Ht). split; [cbn; by rewrite length_insert|]. split; [apply next_range | done].
Qed.

(** ** One run of a thread *)

Definition act (c : call) : M st (option Z) :=
  match c with
  | Getc => b ← take_byte; mret (Some b)
  | Putc b => put_byte b ;; mret None
  end.
Definition go (c : call) (m : M st (outcome unit)) : M st (outcome (option Z)) := after m (act c).

Lemma start_eq c k : intr_off (thr k) = true → start c k = go c (wait_loop (waits_for c)) k.
Proof.
  intros Ho. destruct c as [|b]; unfold start, with_result, intq_getc, intq_putc, go, after, act, mbind, M_bind, get; rewrite Ho; cbn -[wait_loop take_byte put_byte];
    unfold mbind, M_bind; destruct (wait_loop _ k) as [[[[]|p] k']|]; try done; unfold mret, M_ret; cbn.
  - by destruct (take_byte k') as [[??]|].
  - by destruct (put_byte b k') as [[??]|].
Qed.
Lemma resume_eq c p k : resume c p k = go c (wait_resume (waits_for c) p) k.
Proof.
  destruct c as [|b]; unfold resume, with_result, getc_resume, putc_resume, go, after, act, mbind, M_bind;
    destruct (wait_resume _ p k) as [[[[]|p'] k']|]; try done; unfold mret, M_ret; cbn.
  - by destruct (take_byte k') as [[??]|].
  - by destruct (put_byte b k') as [[??]|].
Qed.

Lemma go_bind c (m : M st unit) n k k' : m k = Ok (tt, k') → go c (m ;; n) k = go c n k'.
Proof. intros E. unfold go, after, mbind, M_bind. by rewrite E. Qed.

(** What a call has done to the bytes. *)
Definition effect (c : call) (x : intq) (r : option Z) (x' : intq) : Prop :=
  match c, r with
  | Getc, Some b => contents x = b :: contents x'
  | Putc b, None => contents x' = contents x ++ [b]
  | _, _ => False
  end.
(** The interrupt level stays as it is, and so do the threads outside of calls,
    but for the thread [e]. *)
Definition framed (e : option Z) (cs : gmap Z (call * point)) (k k' : st) : Prop :=
  cur (thr k') = cur (thr k) ∧ intr_off (thr k') = intr_off (thr k) ∧ intr_context (thr k') = intr_context (thr k)
  ∧ ∀ u, e ≠ Some u → cs !! u = None → u ∈ blocked (thr k') ↔ u ∈ blocked (thr k).
Lemma framed_signaled cs w b h t k :
  inv (q k) (blocked (thr k)) cs → framed None cs k (signaled w (mk_st (set_data b h t (q k)) (thr k))).
Proof.
  intros Hi. unfold signaled. cbn [q thr]. destruct (get_waiter w (set_data b h t (q k))) as [u|] eqn:E; [|done].
  split; [done|]. split; [done|]. split; [done|]. intros v Hv Hcs. cbn. destruct (inv_waiter _ _ _ Hi w u) as (_ & c & Hc & _); [by destruct w|].
  assert (v ≠ u) by congruence. set_solver.
Qed.
Lemma signaled_blocked w x t : blocked (thr (signaled w (mk_st x t))) ⊆ blocked t.
Proof. unfold signaled. cbn [q]. destruct (get_waiter w x); cbn; set_solver. Qed.
Definition stepped (t : Z) (c : call) (cs : gmap Z (call * point)) (k : st) (o : outcome (option Z)) (k' : st) : Prop :=
  match o with
  | Done r => inv (q k') (blocked (thr k')) cs ∧ effect c (q k) r (q k') ∧ framed None cs k k' ∧ blocked (thr k') ⊆ blocked (thr k)
  | Stop p => inv (q k') (blocked (thr k')) (<[t := (c, p)]> cs) ∧ contents (q k') = contents (q k)
      ∧ (p = AtLock → ∃ h c', cs !! h = Some (c', AtWait)) ∧ framed (Some t) cs k k'
  end.

Section run.
Context (k : st) (cs : gmap Z (call * point)).
Hypothesis Hi : inv (q k) (blocked (thr k)) cs.
Hypothesis Hoff : intr_off (thr k) = true.

Lemma act_ok c : cond (waits_for c) (q k) = false →
  ∃ r k', act c k = Ok (r, k') ∧ inv (q k') (blocked (thr k')) cs ∧ effect c (q k) r (q k') ∧ framed None cs k k'
    ∧ blocked (thr k') ⊆ blocked (thr k).
Proof.
  intros Hc. destruct c as [|b]; cbn [waits_for] in Hc.
  - destruct (take_byte_eq k) as (b & E & Hcon); [apply Hi | done | done | apply (inv_waiter _ _ _ Hi WNotFull) |].
    exists (Some b), (taken k). split; [by unfold act; erewrite bind_ok by done|]. split; [by apply inv_taken|]. split; [done|]. split; [by apply framed_signaled | apply signaled_blocked].
  - destruct (put_byte_eq b k) as (E & Hcon); [apply Hi | done | done | apply (inv_waiter _ _ _ Hi WNotEmpty) |].
    exists None, (given b k). split; [by unfold act; erewrite bind_ok by done|]. split; [by apply inv_given|]. split; [done|]. split; [by apply framed_signaled | apply signaled_blocked].
Qed.

Lemma go_done c m t : m k = Ok (Done tt, k) → cond (waits_for c) (q k) = false →
  ∃ r k', go c m k = Ok (Done r, k') ∧ stepped t c cs k (Done r) k'.
Proof.
  intros E Hc. destruct (act_ok c Hc) as (r & k' & Ha & Hi' & He). exists r, k'. split; [|done].
  unfold go, after. erewrite bind_ok by done. cbv beta iota. by erewrite bind_ok by done.
Qed.

Context (c : call).
Abbreviation t := (cur (thr k)).
Hypothesis Hctx : intr_context (thr k) = false.
Hypothesis Hout : cs !! t = None.
Hypothesis Hrun : t ∉ blocked (thr k).

Lemma go_wait m : m k = Ok (Stop AtWait, waiting (waits_for c) (locked k)) → holder (q k) = None → cond (waits_for c) (q k) = true →
  ∃ o k', go c m k = Ok (o, k') ∧ stepped t c cs k o k'.
Proof.
  intros E Hh Hc. exists (Stop AtWait), (waiting (waits_for c) (locked k)). split; [unfold go, after; by erewrite bind_ok by done|].
  split; [by apply inv_wait|]. split; [by destruct c|]. split; [done|]. split; [done|]. split; [done|]. split; [done|]. cbn. intros u Hu. assert (u ≠ cur (thr k)) by congruence. set_solver.
Qed.
Lemma go_lock m : m k = Ok (Stop AtLock, queued k) → holder (q k) ≠ None → ∃ o k', go c m k = Ok (o, k') ∧ stepped t c cs k o k'.
Proof.
  intros E Hh. exists (Stop AtLock), (queued k). split; [unfold go, after; by erewrite bind_ok by done|].
  pose proof (inv_sema _ _ _ Hi) as Hs. destruct (holder (q k)) as [h|] eqn:Eh; [|done]. split; [by apply inv_lock_sleep|].
  split; [done|]. split; [intros _; destruct (inv_holder _ _ _ Hi h Eh) as [c' ?]; by exists h, c'|].
  split; [done|]. split; [done|]. split; [done|]. cbn. intros u Hu. assert (u ≠ cur (thr k)) by congruence. set_solver.
Qed.

(** From the lock on. *)
Definition lock_wait (w : waiter) : M st (outcome unit) :=
  a ← lock_loop; if a : bool then wait w ;; mret (Stop AtWait) else mret (Stop AtLock).
Lemma lock_wait_eq w :
  lock_wait w k = if decide (holder (q k) = None) then
                    if cond w (q k) then Ok (Stop AtWait, waiting w (locked k)) else Err Panic
                  else Ok (Stop AtLock, queued k).
Proof.
  pose proof (inv_sema _ _ _ Hi) as Hs. unfold lock_wait. case_decide as Hh.
  - rewrite Hh in Hs. erewrite bind_ok by (apply lock_loop_free; lia).
    assert (cond w (q (locked k)) = cond w (q k)) as Hcl by (by destruct w). destruct (cond w (q k)).
    + by erewrite bind_ok by (by apply wait_eq).
    + by erewrite bind_err by (by apply wait_panics).
  - destruct (holder (q k)); [|done]. by erewrite bind_ok by (by apply lock_loop_held).
Qed.
Lemma wait_loop_eq w : wait_loop w k = if cond w (q k) then lock_wait w k else Ok (Done tt, k).
Proof.
  unfold wait_loop. erewrite bind_ok by (by apply must_wait_eq). destruct (cond w (q k)); [|done].
  erewrite bind_ok by done. rewrite Hctx. erewrite bind_ok by done. unfold lock_wait, mbind at 1, M_bind at 1.
  rewrite lock_acquire_eq; [done | done|]. intros (c' & E)%(inv_holder _ _ _ Hi). congruence.
Qed.

Lemma go_lock_wait m : m k = lock_wait (waits_for c) k → cond (waits_for c) (q k) = true →
  ∃ o k', go c m k = Ok (o, k') ∧ stepped t c cs k o k'.
Proof.
  intros E Hc. rewrite lock_wait_eq, Hc in E. case_decide; [by apply go_wait | by apply go_lock].
Qed.
Lemma start_ok : ∃ o k', go c (wait_loop (waits_for c)) k = Ok (o, k') ∧ stepped t c cs k o k'.
Proof.
  pose proof (wait_loop_eq (waits_for c)) as E. destruct (cond (waits_for c) (q k)) eqn:Hc; [by apply go_lock_wait|].
  destruct (go_done c (wait_loop (waits_for c)) t E Hc) as (r & k' & ? & ?). by exists (Done r), k'.
Qed.
End run.

Lemma framed_trans e cs k1 k2 k3 : framed None cs k1 k2 → framed e cs k2 k3 → framed e cs k1 k3.
Proof.
  intros (H1 & H2 & H3 & H4) (H1' & H2' & H3' & H4'). split_and!; try congruence. intros u Hu Hc. by rewrite H4', H4.
Qed.
Lemma stepped_before t c cs k1 k2 o k' :
  contents (q k1) = contents (q k2) → framed None cs k2 k1 → blocked (thr k1) ⊆ blocked (thr k2) → stepped t c cs k1 o k' → stepped t c cs k2 o k'.
Proof.
  intros Hc Hf Hb. unfold stepped, effect. rewrite Hc. destruct o; intros (? & ? & ? & ?); split_and!; try done; try (by eapply framed_trans). by etrans.
Qed.

(** A thread that has been woken up in [wait] goes on. *)
Lemma resume_wait_ok k cs c :
  inv (q k) (blocked (thr k)) cs → intr_off (thr k) = true → intr_context (thr k) = false →
  cs !! cur (thr k) = Some (c, AtWait) → cur (thr k) ∉ blocked (thr k) →
  ∃ o k', go c (wait_resume (waits_for c) AtWait) k = Ok (o, k') ∧ stepped (cur (thr k)) c (delete (cur (thr k)) cs) k o k'.
Proof.
  intros Hi Ho Hx Ht Hnb. destruct (inv_release k cs (cur (thr k)) c Hi Ht Hnb) as [Hi' Hh].
  assert (contents (q (released k)) = contents (q k) ∧ intr_off (thr (released k)) = true ∧ intr_context (thr (released k)) = false
    ∧ cur (thr (released k)) = cur (thr k) ∧ cur (thr k) ∉ blocked (thr (released k))) as (Hcon & Ho' & Hx' & Hcur & Hnb').
  { unfold released. destruct (waiters (q k)); [done|]. split_and!; try done. cbn. set_solver. }
  destruct (start_ok (released k) (delete (cur (thr k)) cs) Hi' Ho' c Hx') as (o & k' & E & Hs);
    [rewrite Hcur; apply lookup_delete_eq | by rewrite Hcur |].
  exists o, k'. split; [|rewrite Hcur in Hs; eapply stepped_before; [exact Hcon | | | exact Hs]].
  - rewrite <- E. cbn [wait_resume]. apply go_bind, lock_release_eq; [by apply (inv_inside _ _ _ Hi _ c)|].
    intros t' Hw. by apply (inv_queue _ _ _ Hi).
  - pose proof (inv_queue _ _ _ Hi) as Hq. unfold released. destruct (waiters (q k)) as [|u w]; [done|]. split_and!; try done.
    intros v Hv Hcs. cbn. destruct (proj1 (Hq u)) as (_ & c' & Hc'); [set_solver|]. assert (v ≠ u); [|set_solver].
    intros ->. apply lookup_delete_None in Hcs as [?|?]; congruence.
  - unfold released. destruct (waiters (q k)); cbn; set_solver.
Qed.

(** ** Events *)

Definition good (s : sys) : Prop :=
  inv (q (kernel s)) (blocked (thr (kernel s))) (calls s) ∧ delivered s ++ contents (q (kernel s)) = accepted s.
Definition panics (e : event) (s : sys) : Prop :=
  exec e s = Err Panic
  ∧ ∃ t c, e = EResume t ∧ calls s !! t = Some (c, AtLock) ∧ cond (waits_for c) (q (kernel s)) = false.

(** A thread enters the queue of the lock only when another one is in [wait]. *)
Definition entered (t : option Z) (s s' : sys) : Prop :=
  ∀ u c p, calls s' !! u = Some (c, p) →
    (calls s !! u = Some (c, p) ∧ t ≠ Some u)
    ∨ (t = Some u ∧ (p = AtWait ∨ ∃ h c', h ≠ u ∧ calls s !! h = Some (c', AtWait))).
Definition next_good (t : option Z) (s s' : sys) : Prop := good s' ∧ entered t s s'.

Lemma finish_good t c o k k' s :
  good s → contents (q k) = contents (q (kernel s)) →
  stepped t c (delete t (calls s)) k o k' → next_good (Some t) s (finish (Some t) c o k' s).
Proof.
  intros [Hi Hf] Hc Hs. split.
  2: { destruct o as [r|p]; intros u c' p'; cbn; [intros [? ?]%lookup_delete_Some; left; naive_solver|].
       intros [[<- [= <- <-]]|[? ?]]%lookup_insert_Some; [right | left; naive_solver]. split; [done|].
       destruct Hs as (_ & _ & Hl & _). destruct p; [right | by left]. destruct (Hl eq_refl) as (h & c'' & [? ?]%lookup_delete_Some). by exists h, c''. }
  destruct o as [r|p]; [destruct Hs as (Hi' & He & _) | destruct Hs as (Hi' & He & _)]; split; cbn [finish kernel calls accepted delivered]; try done.
  - unfold effect in He. rewrite Hc in He. destruct c, r; try done.
    + by rewrite <- app_assoc, <- Hf, He.
    + by rewrite He, <- Hf, app_assoc.
  - by rewrite insert_delete_eq in Hi'.
  - by rewrite He, Hc.
Qed.

Lemma exec_call t c s : good s → calls s !! t = None → t ∉ blocked (thr (kernel s)) → ∃ s', exec (ECall t c) s = Ok s' ∧ next_good (Some t) s s'.
Proof.
  intros Hg Ht Hnb. pose proof Hg as [Hi _]. cbn [exec]. rewrite start_eq by done.
  destruct (start_ok (on_thread t false (kernel s)) (calls s) Hi eq_refl c eq_refl Ht Hnb) as (o & k' & -> & Hs).
  eexists. split; [done|]. apply (finish_good _ _ _ (on_thread t false (kernel s))); [done | done | by rewrite delete_id].
Qed.
Lemma start_now k cs c :
  inv (q k) (blocked (thr k)) cs → intr_off (thr k) = true → cond (waits_for c) (q k) = false →
  ∃ r k', start c k = Ok (Done r, k') ∧ stepped (cur (thr k)) c cs k (Done r) k'.
Proof.
  intros Hi Ho Hc. rewrite start_eq by done. apply go_done; [done | done | | done].
  unfold wait_loop. erewrite bind_ok by (by apply must_wait_eq). by rewrite Hc.
Qed.
Lemma exec_intr c s : good s → cond (waits_for c) (q (kernel s)) = false → ∃ s', exec (EIntr c) s = Ok s' ∧ next_good None s s'.
Proof.
  intros [Hi Hf] Hc. cbn [exec].
  destruct (start_now (on_thread (cur (thr (kernel s))) true (kernel s)) (calls s) c Hi eq_refl Hc) as (r & k' & -> & Hi2 & He & _).
  eexists. split; [done|]. split; [|by left]. split; [done|]. cbn. unfold effect in He. cbn [on_thread q] in He.
  destruct c, r; try done; [by rewrite <- app_assoc, <- Hf, He | by rewrite He, <- Hf, app_assoc].
Qed.
Lemma exec_resume t s :
  good s → is_Some (calls s !! t) → t ∉ blocked (thr (kernel s)) → (∃ s', exec (EResume t) s = Ok s' ∧ next_good (Some t) s s') ∨ panics (EResume t) s.
Proof.
  intros Hg [[c p] Ht] Hnb. pose proof Hg as [Hi _]. unfold panics. cbn [exec]. rewrite Ht, resume_eq. set (k := on_thread t false (kernel s)).
  destruct p; cbn [wait_resume].
  - assert (inv (q k) (blocked (thr k)) (delete t (calls s))) as Hi' by (by eapply inv_lock_wake).
    destruct (cond (waits_for c) (q k)) eqn:Hc.
    + left. destruct (go_lock_wait k (delete t (calls s)) Hi' eq_refl c eq_refl (lookup_delete_eq _ _) Hnb (lock_wait (waits_for c)) eq_refl Hc)
        as (o & k' & E & Hs). unfold lock_wait in E. rewrite E. eexists. split; [done|]. by apply (finish_good _ _ _ k).
    + pose proof (lock_wait_eq k _ Hi' eq_refl eq_refl (waits_for c)) as E. rewrite Hc in E. case_decide as Hh.
      * right. unfold go, after. unfold lock_wait in E. erewrite bind_err by done. split; [done|]. by exists t, c.
      * left. destruct (go_lock k (delete t (calls s)) Hi' eq_refl c eq_refl (lookup_delete_eq _ _) Hnb (lock_wait (waits_for c)) E Hh) as (o & k' & E' & Hs).
        unfold lock_wait in E'. rewrite E'. eexists. split; [done|]. by apply (finish_good _ _ _ k).
  - left. destruct (resume_wait_ok k (calls s) c Hi eq_refl eq_refl Ht Hnb) as (o & k' & E & Hs). cbn [wait_resume] in E. rewrite E.
    eexists. split; [done|]. by apply (finish_good _ _ _ k).
Qed.

Definition runs (e : event) : option Z := match e with ECall t _ | EResume t => Some t | EIntr _ => None end.
Lemma exec_ok e s : good s → enabled e s → (∃ s', exec e s = Ok s' ∧ next_good (runs e) s s') ∨ panics e s.
Proof.
  intros Hg He. destruct e as [t c|t|c]; [left; destruct He; by apply exec_call | destruct He; by apply exec_resume | left; by apply exec_intr].
Qed.
Lemma init_good b t : length b = 64%nat → good (init_sys b t).
Proof.
  intros Hl. split; [|done]. cbn. split; cbn; try done; try set_solver.
  - by intros [].
  - constructor.
Qed.
Lemma queue_good P s : reachable P s → good s.
Proof.
  induction 1 as [b t Hl|s e s' _ IH _ He E]; [by apply init_good|].
  destruct (exec_ok e s IH He) as [(s'' & E' & Hg & _)|[E' _]]; congruence.
Qed.

(** C20: An interrupt queue that any number of threads and interrupt handlers
    use is a queue of at most 63 bytes: the bytes that have been taken out,
    followed by those inside of it, are the bytes that have been put in, in
    order.  A thread sleeps in [wait] only while its condition requires it, so
    no wake-up is lost.  Every call returns or goes to sleep, and the only way
    to a panic is that a thread which had to sleep for the queue's lock gets
    it when its condition no longer requires to wait. *)
Theorem intq_monitor P s :
  reachable P s →
  delivered s ++ contents (q (kernel s)) = accepted s
  ∧ (length (contents (q (kernel s))) ≤ 63)%nat
  ∧ (∀ t c, calls s !! t = Some (c, AtWait) → t ∈ blocked (thr (kernel s)) → cond (waits_for c) (q (kernel s)) = true)
  ∧ (∀ e, enabled e s → (∃ s', exec e s = Ok s') ∨ panics e s).
Proof.
  intros [Hi Hf]%queue_good. split; [done|]. split; [apply contents_bound, Hi|]. split.
  - intros t c Ht Hb. by apply (inv_asleep _ _ _ Hi t c).
  - intros e He. destruct (exec_ok e s (conj Hi Hf) He) as [(s' & E & _)|?]; [left; by exists s' | by right].
Qed.

Definition zeros : list Z := replicate 64 0.
Lemma intq_monitor_witness :
  let s := init_sys zeros 1 in delivered s ++ contents (q (kernel s)) = accepted s.
Proof. apply (intq_monitor (λ _, True) (init_sys zeros 1)). by apply reach_init. Defined.


(** Calls of threads are calls of the thread [t]. *)
Definition only (t : Z) (e : event) : Prop := match e with ECall t' _ => t' = t | _ => True end.

Lemma only_inside t s : reachable (only t) s → ∀ u c p, calls s !! u = Some (c, p) → u = t ∧ p = AtWait.
Proof.
  induction 1 as [b t0 Hl|s e s' Hr IH Hp He E]; [done|]. intros u c p Hu.
  destruct (exec_ok e s (queue_good _ _ Hr) He) as [(s'' & E' & _ & Hent)|[E' _]]; [|congruence].
  rewrite E in E'. injection E' as <-. destruct (Hent u c p Hu) as [[Hold _]|[Ht Hnew]]; [by eapply IH|].
  assert (u = t) as ->.
  { destruct e as [t1 c1|t1|c1]; simpl in *; [congruence | | done]. injection Ht as ->. destruct He as [[[c2 p2] E2] _]. by eapply IH. }
  split; [done|]. destruct Hnew as [?|(h & c' & Hne & Eh)]; [done|]. apply IH in Eh as [-> _]. done.
Qed.

(** As long as a single thread, besides the interrupt handlers, uses an
    interrupt queue, no call ever fails. *)
Theorem intq_single_thread t s e :
  reachable (only t) s → enabled e s → ∃ s', exec e s = Ok s'.
Proof.
  intros Hr He. destruct (exec_ok e s (queue_good _ _ Hr) He) as [(s' & E & _)|[_ (u & c & _ & Hu & _)]]; [by exists s'|].
  by apply (only_inside t) in Hu as [_ ?].
Qed.
Lemma intq_single_thread_witness : ∃ s', exec (ECall 1 Getc) (init_sys zeros 1) = Ok s'.
Proof. apply (intq_single_thread 1); [by apply reach_init | done]. Defined.

(** Sequences of events. *)
#[local] Instance enabled_dec e s : Decision (enabled e s).
Proof. destruct e; simpl; apply _. Defined.
Fixpoint run (l : list event) (s : sys) : res sys :=
  match l with
  | [] => Ok s
  | e :: l => if decide (enabled e s) then match exec e s with Ok s => run l s | Err f => Err f end else Err Fault
  end.

(** ** Two threads *)

(** What a step is about: the threads in calls, the bytes, and the queue of the
    lock. *)
Definition looks (s : sys) (cs : gmap Z (call * point)) (l w : list Z) : Prop :=
  good s ∧ calls s = cs ∧ contents (q (kernel s)) = l ∧ waiters (q (kernel s)) = w.
Definition step_to (e : event) (s : sys) (cs : gmap Z (call * point)) (l w : list Z) : Prop :=
  enabled e s ∧ ∃ s', exec e s = Ok s' ∧ looks s' cs l w
    ∧ ∀ v, runs e ≠ Some v → v ∉ blocked (thr (kernel s)) → v ∉ blocked (thr (kernel s')).
Lemma step_good e s s' : good s → enabled e s → exec e s = Ok s' → good s'.
Proof. intros Hg He E. destruct (exec_ok e s Hg He) as [(s'' & E' & ? & _)|[E' _]]; congruence. Qed.

(** A thread whose call has to wait sleeps in [wait] when the lock is free, and
    in the queue of the lock otherwise. *)
Lemma call_sleeps t c s cs l w :
  looks s cs l w → cs !! t = None → t ∉ blocked (thr (kernel s)) → cond (waits_for c) (q (kernel s)) = true →
  if decide (holder (q (kernel s)) = None) then step_to (ECall t c) s (<[t := (c, AtWait)]> cs) l w
  else step_to (ECall t c) s (<[t := (c, AtLock)]> cs) l (w ++ [t]).
Proof.
  intros (Hg & <- & <- & <-) Ht Hnb Hc. pose proof Hg as [Hi _]. assert (enabled (ECall t c) s) as He by done.
  pose proof (λ s', step_good (ECall t c) s s' Hg He) as Hgood. cbn [exec] in Hgood.
  pose proof (start_eq c (on_thread t false (kernel s)) eq_refl) as E.
  pose proof (wait_loop_eq (on_thread t false (kernel s)) (calls s) Hi eq_refl eq_refl Ht (waits_for c)) as Ew. cbn [on_thread q] in Ew.
  rewrite Hc in Ew. pose proof (lock_wait_eq (on_thread t false (kernel s)) (calls s) Hi eq_refl eq_refl (waits_for c)) as El. cbn [on_thread q] in El.
  rewrite Hc in El. rewrite El in Ew. unfold go, after in E. case_decide; erewrite bind_ok in E by done;
    (split; [done|]); cbn [exec]; rewrite E in Hgood |- *; (eexists; split; [done|]); (split; [split; [by apply Hgood|]; split_and!; try done; by destruct c|]); intros v Hv; cbn in Hv |- *; assert (v ≠ t) by congruence; set_solver.
Qed.
Lemma intr_puts b s cs l w :
  looks s cs l w → (length l < 63)%nat → step_to (EIntr (Putc b)) s cs (l ++ [b]) w.
Proof.
  intros (Hg & <- & <- & <-) Hl. pose proof Hg as [Hi _]. set (k := on_thread (cur (thr (kernel s))) true (kernel s)).
  assert (cond WNotFull (q k) = false) as Hc.
  { apply not_true_is_false. intros E%cond_full; [cbn in E; lia | apply Hi]. }
  assert (enabled (EIntr (Putc b)) s) as He by done. pose proof (λ s', step_good _ s s' Hg He) as Hgood. cbn [exec] in Hgood.
  destruct (put_byte_eq b k) as [E Hcon]; [apply Hi | done | done | apply (inv_waiter _ _ _ Hi WNotEmpty)|].
  assert (start (Putc b) k = Ok (Done None, given b k)) as E'.
  { rewrite start_eq by done. unfold go, after, wait_loop. erewrite bind_ok; [|erewrite bind_ok by (by apply must_wait_eq); cbn [waits_for]; by rewrite Hc].
    unfold act. cbv beta iota. erewrite bind_ok; [done|]. by erewrite bind_ok by done. }
  split; [done|]. cbn [exec]. fold k in Hgood |- *. rewrite E' in Hgood |- *. eexists. split; [done|]. split.
  - split; [by apply Hgood|]. split; [done|]. split; [done|]. cbn. unfold given, signaled. by destruct (get_waiter _ _).
  - intros v _ Hv Hb. apply Hv. by apply signaled_blocked in Hb.
Qed.
Lemma resume_takes t a s cs l w :
  looks s cs (a :: l) w → cs !! t = Some (Getc, AtWait) → step_to (EResume t) s (delete t cs) l (list.tail w).
Proof.
  intros (Hg & <- & Hl & <-) Ht. pose proof Hg as [Hi _]. set (k := on_thread t false (kernel s)).
  assert (cond WNotEmpty (q (kernel s)) = false) as Hc.
  { apply not_true_is_false. intros E%cond_empty; [congruence | apply Hi]. }
  assert (t ∉ blocked (thr (kernel s))) as Hnb.
  { intros Hb. destruct (inv_asleep _ _ _ Hi t Getc Ht Hb) as [_ E]. cbn in E. unfold cond in Hc. congruence. }
  assert (enabled (EResume t) s) as He by (by split; [eexists|]).
  destruct (inv_release k (calls s) t Getc Hi Ht Hnb) as [Hi' Hh].
  assert (q (released k) = set_lock (sema (q k) + 1) (list.tail (waiters (q k))) None (q k) ∧ intr_off (thr (released k)) = true) as [Hq Ho].
  { unfold released. by destruct (waiters (q k)). }
  destruct (take_byte_eq (released k)) as (b & E & Hcon); [apply Hi' | done | by rewrite Hq | apply (inv_waiter _ _ _ Hi' WNotFull)|].
  assert (resume Getc AtWait k = Ok (Done (Some b), taken (released k))) as E'.
  { rewrite resume_eq. cbn [wait_resume]. erewrite go_bind.
    2: { apply lock_release_eq; [by apply (inv_inside _ _ _ Hi _ Getc)|]. intros t' Hw. by apply (inv_queue _ _ _ Hi). }
    unfold go, after, wait_loop. erewrite bind_ok; [|erewrite bind_ok by (by apply must_wait_eq); rewrite Hq; cbn [waits_for]; change (cond WNotEmpty (set_lock _ _ _ (q k))) with (cond WNotEmpty (q (kernel s))); by rewrite Hc].
    unfold act. cbv beta iota. erewrite bind_ok; [done|]. by erewrite bind_ok by done. }
  split; [done|]. pose proof (λ s', step_good _ s s' Hg He) as Hgood. cbn [exec] in Hgood |- *. rewrite Ht in Hgood |- *. fold k in Hgood |- *.
  rewrite E' in Hgood |- *. eexists. split; [done|]. split.
  2: { intros v _ Hv Hb%signaled_blocked. apply Hv. unfold released in Hb. destruct (waiters (q k)); cbn in Hb; set_solver. }
  split; [by apply Hgood|]. split; [done|]. cbn [finish kernel]. rewrite Hq in Hcon. change (contents (set_lock _ _ _ (q k))) with (contents (q (kernel s))) in Hcon. rewrite Hl in Hcon. injection Hcon as _ <-.
  split; [done|]. unfold taken, signaled. rewrite Hq. by destruct (get_waiter _ _).
Qed.
(** The thread that had to sleep for the lock, and gets it when its condition
    no longer requires to wait. *)
Lemma resume_panics u c s :
  good s → calls s = {[u := (c, AtLock)]} → waiters (q (kernel s)) = [] → cond (waits_for c) (q (kernel s)) = false →
  enabled (EResume u) s ∧ exec (EResume u) s = Err Panic.
Proof.
  intros [Hi _] Hcs Hw Hc. assert (calls s !! u = Some (c, AtLock)) as Hu by (rewrite Hcs; apply lookup_singleton_eq).
  assert (u ∉ blocked (thr (kernel s))) as Hnb.
  { intros Hb. assert (u ∈ waiters (q (kernel s))) as H by (apply (inv_queue _ _ _ Hi); by eauto). rewrite Hw in H. set_solver. }
  assert (holder (q (kernel s)) = None) as Hh.
  { destruct (holder (q (kernel s))) as [h|] eqn:E; [|done]. destruct (inv_holder _ _ _ Hi h E) as [c' E'].
    rewrite Hcs in E'. by apply lookup_singleton_Some in E' as [_ ?]. }
  split; [by split; [eexists|]|]. cbn [exec]. rewrite Hu, resume_eq. unfold go, after. set (k := on_thread u false (kernel s)).
  pose proof (lock_wait_eq k (delete u (calls s)) (inv_lock_wake _ _ _ _ _ Hi Hu Hnb) eq_refl eq_refl (waits_for c)) as E.
  unfold k in E. cbn [on_thread q] in E. rewrite Hc, decide_True in E by done. by erewrite bind_err by done.
Qed.

Lemma run_step e l s cs b w (P : sys → Prop) :
  step_to e s cs b w →
  (∀ s', looks s' cs b w → (∀ v, runs e ≠ Some v → v ∉ blocked (thr (kernel s)) → v ∉ blocked (thr (kernel s'))) → ∃ s'', run l s' = Ok s'' ∧ P s'') →
  ∃ s'', run (e :: l) s = Ok s'' ∧ P s''.
Proof. intros [He (s' & E & Hl & Hb)] Hn. cbn [run]. rewrite decide_True, E by done. by apply Hn. Qed.
(** Bytes that arrive. *)
Lemma run_bytes bs l s cs b w (P : sys → Prop) :
  looks s cs b w → (length b + length bs ≤ 63)%nat → 
  (∀ s', looks s' cs (b ++ bs) w → (∀ v, v ∉ blocked (thr (kernel s)) → v ∉ blocked (thr (kernel s'))) → ∃ s'', run l s' = Ok s'' ∧ P s'') →
  ∃ s'', run ((EIntr ∘ Putc <$> bs) ++ l) s = Ok s'' ∧ P s''.
Proof.
  revert s b. induction bs as [|x bs IH]; intros s b Hl Hb Hn; cbn [fmap list_fmap app compose].
  { apply Hn; [by rewrite app_nil_r | done]. }
  cbn in Hb. eapply run_step; [apply intr_puts; [done | lia]|]. intros s' Hl' Hb'. apply (IH s' (b ++ [x])); [done | rewrite length_app; cbn; lia|].
  rewrite <- app_assoc. intros s'' Hl'' Hb''. apply Hn; [done|]. intros v Hv. by apply Hb'', Hb'.
Qed.

(** Two readers of the empty queue, and bytes that arrive before the first of
    them runs again. *)
Definition two_readers (t u : Z) (bs : list Z) : list event := [ECall t Getc; ECall u Getc] ++ (EIntr ∘ Putc <$> bs) ++ [EResume t].
(** A reader of the empty queue, interrupts that bring bytes, and a writer. *)
Definition reader_writer (t u : Z) (bs : list Z) (b : Z) : list event :=
  [ECall t Getc] ++ (EIntr ∘ Putc <$> bs) ++ [ECall u (Putc b); EResume t].
(** After the events [l] the thread [u] is ready, and it panics when it runs. *)
Definition leads_to_panic (l : list event) (u : Z) (s : sys) : Prop :=
  ∃ s', run l s = Ok s' ∧ enabled (EResume u) s' ∧ exec (EResume u) s' = Err Panic.
(** No thread is inside of a call, and the queue is empty. *)
Definition idle (s : sys) : Prop := reachable (λ _, True) s ∧ calls s = ∅ ∧ contents (q (kernel s)) = [].

Lemma idle_looks s : idle s → looks s ∅ [] [] ∧ holder (q (kernel s)) = None ∧ cond WNotEmpty (q (kernel s)) = true.
Proof.
  intros (Hr & Hcs & Hc). pose proof (queue_good _ _ Hr) as [Hi Hf]. split_and!.
  - split_and!; [done | done | done|]. destruct (waiters (q (kernel s))) as [|x w] eqn:E; [done|].
    destruct (proj1 (inv_queue _ _ _ Hi x)) as (_ & c & H); [rewrite E; set_solver|]. by rewrite Hcs in H.
  - destruct (holder (q (kernel s))) as [h|] eqn:E; [|done]. destruct (inv_holder _ _ _ Hi h E) as [c H]. by rewrite Hcs in H.
  - apply cond_empty; [apply Hi | done].
Qed.
(** The second thread goes to sleep for the lock, the first one takes its byte
    and lets it go. *)
Lemma lock_taken s t c l w u :
  looks s {[t := (Getc, AtWait)]} l w → t ≠ u → u ∉ blocked (thr (kernel s)) → cond (waits_for c) (q (kernel s)) = true →
  step_to (ECall u c) s {[u := (c, AtLock); t := (Getc, AtWait)]} l (w ++ [u]).
Proof.
  intros Hl Htu Hnb Hc. pose proof (call_sleeps u c s _ l w Hl (lookup_singleton_ne _ _ _ Htu) Hnb Hc) as H.
  case_decide as Hh; [|done]. destruct Hl as ([Hi _] & Hcs & _).
  assert (holder (q (kernel s)) = Some t) by (apply (inv_inside _ _ _ Hi t Getc); rewrite Hcs; apply lookup_singleton_eq). congruence.
Qed.
Lemma then_panics s t u c a l :
  t ≠ u → looks s {[u := (c, AtLock); t := (Getc, AtWait)]} (a :: l) [u] →
  (∀ x, wf x → contents x = l → cond (waits_for c) x = false) → leads_to_panic [EResume t] u s.
Proof.
  intros Htu Hl Hc. eapply run_step; [eapply resume_takes; [done | by rewrite lookup_insert_ne, lookup_singleton_eq]|].
  intros s' (Hg & Hcs & Hcon & Hw) _. exists s'. split; [done|]. apply (resume_panics u c); [done | | done|].
  - rewrite Hcs, delete_insert_ne, delete_singleton_eq by done. apply insert_empty.
  - apply Hc; [apply Hg | done].
Qed.

(** C21: Two threads that use an interrupt queue can bring the kernel down.
    From every state that events lead to in which the queue is empty and no
    thread is inside of a call, for any two threads that may run: when both of
    them read, and then any number of bytes from 2 to 63 arrives before the
    first one runs again; or when one reads, any 63 bytes arrive and the other
    one writes before the first one runs again; then every event succeeds, and
    the second thread, which is ready, fails the assertion in [wait]. *)
Theorem intq_two_threads_panic s t u bs b :
  idle s → t ≠ u → t ∉ blocked (thr (kernel s)) → u ∉ blocked (thr (kernel s)) →
  ((2 ≤ length bs ≤ 63)%nat → leads_to_panic (two_readers t u bs) u s)
  ∧ (length bs = 63%nat → leads_to_panic (reader_writer t u bs b) u s).
Proof.
  intros Hidle Htu Ht Hu. destruct (idle_looks s Hidle) as (Hl & Hh & Hc).
  pose proof (call_sleeps t Getc s ∅ [] [] Hl (lookup_empty _) Ht Hc) as H1. rewrite decide_True, insert_empty in H1 by done.
  split; intros Hlen.
  - eapply run_step; [exact H1|]. intros s1 Hl1 Hb1. assert (u ∉ blocked (thr (kernel s1))) as Hu1 by (apply Hb1; [cbn; congruence | done]).
    eapply run_step; [apply (lock_taken s1 t Getc [] []); [done | done | done|]|].
    { apply cond_empty; [apply Hl1 | apply Hl1]. }
    intros s2 Hl2 _. eapply run_bytes; [exact Hl2 | cbn; lia|]. intros s3 Hl3 _.
    destruct bs as [|b1 [|b2 bs]]; cbn in Hlen; try lia. eapply then_panics; [done | exact Hl3|].
    intros x Hw Hx. apply not_true_is_false. rewrite (cond_empty x Hw), Hx. done.
  - eapply run_step; [exact H1|]. intros s1 Hl1 Hb1. assert (u ∉ blocked (thr (kernel s1))) as Hu1 by (apply Hb1; [cbn; congruence | done]).
    eapply run_bytes; [exact Hl1 | cbn; lia|]. intros s2 Hl2 Hb2.
    eapply run_step; [apply (lock_taken s2 t (Putc b) bs []); [done | done | by apply Hb2|]|].
    { destruct Hl2 as ([Hi _] & _ & E & _). apply cond_full; [apply Hi | by rewrite E]. }
    intros s3 Hl3 _. destruct bs as [|b1 bs]; [done|]. eapply then_panics; [done | exact Hl3|].
    intros x Hw Hx. apply not_true_is_false. rewrite (cond_full x Hw), Hx. cbn in Hlen. lia.
Qed.
Lemma intq_two_threads_panic_witness : leads_to_panic (two_readers 1 2 [65; 66]) 2 (init_sys zeros 1).
Proof.
  apply (intq_two_threads_panic (init_sys zeros 1) 1 2 [65; 66] 0); [|done|cbn; set_solver|cbn; set_solver|cbn; lia].
  split; [by apply reach_init | done].
Defined.
End IntqProps.
