(* ===== verification/Descriptor.v ===== *)
(** * Descriptor tables: userprog/gdt.c, userprog/tss.c and the gates of threads/interrupt.c

    The descriptors are 64-bit numbers whose layout the processor fixes; the
    functions that start with [seg_] and [gate_] read the fields back the way
    the processor does. *)
From stdpp Require Import base gmap list.
From Stdlib Require Import ZArith Lia.
From S2P Require Import Prelude.

Module Descriptor.

(** Selectors, threads/loader.h and userprog/gdt.h *)
Definition SEL_NULL : Z := 0x00.
Definition SEL_KCSEG : Z := 0x08.
Definition SEL_KDSEG : Z := 0x10.
Definition SEL_UCSEG : Z := 0x1B.
Definition SEL_UDSEG : Z := 0x23.
Definition SEL_TSS : Z := 0x28.
Definition SEL_CNT : Z := 6.

Inductive seg_class := CLS_SYSTEM | CLS_CODE_DATA.
Inductive seg_granularity := GRAN_BYTE | GRAN_PAGE.
Definition class_bit (c : seg_class) : Z := match c with CLS_SYSTEM => 0 | CLS_CODE_DATA => 1 end.
Definition granularity_bit (g : seg_granularity) : Z := match g with GRAN_BYTE => 0 | GRAN_PAGE => 1 end.

Definition check (b : bool) : res unit := if b then Ok tt else Err Panic.

Definition make_seg_desc (base limit : Z) (class : seg_class) (type dpl : Z) (granularity : seg_granularity) : res Z :=
  match check (limit <=? 0xfffff), check ((0 <=? type) && (type <=? 15)), check ((0 <=? dpl) && (dpl <=? 3)) with
  | Ok _, Ok _, Ok _ =>
      let e0 := Z.lor (Z.land limit 0xffff) (u32 (Z.shiftl base 16)) in
      let e1 :=
        Z.lor (Z.lor (Z.lor (Z.lor (Z.lor (Z.lor (Z.lor (Z.lor
          (Z.land (Z.shiftr base 16) 0xff)
          (Z.shiftl type 8))
          (Z.shiftl (class_bit class) 12))
          (Z.shiftl dpl 13))
          (Z.shiftl 1 15))
          (Z.land limit 0xf0000))
          (Z.shiftl 1 22))
          (Z.shiftl (granularity_bit granularity) 23))
          (Z.land base 0xff000000) in
      Ok (Z.lor e0 (Z.shiftl e1 32))
  | _, _, _ => Err Panic
  end.
Definition make_code_desc (dpl : Z) : res Z := make_seg_desc 0 0xfffff CLS_CODE_DATA 10 dpl GRAN_PAGE.
Definition make_data_desc (dpl : Z) : res Z := make_seg_desc 0 0xfffff CLS_CODE_DATA 2 dpl GRAN_PAGE.
Definition make_tss_desc (laddr : Z) : res Z := make_seg_desc laddr 0x67 CLS_SYSTEM 9 0 GRAN_BYTE.
Definition make_gdtr_operand (limit base : Z) : Z := Z.lor limit (Z.shiftl base 16).

(** threads/interrupt.c *)
Definition make_gate (function dpl type : Z) : res Z :=
  match check (negb (function =? 0)), check ((0 <=? dpl) && (dpl <=? 3)), check ((0 <=? type) && (type <=? 15)) with
  | Ok _, Ok _, Ok _ =>
      let e0 := Z.lor (Z.land function 0xffff) (Z.shiftl SEL_KCSEG 16) in
      let e1 :=
        Z.lor (Z.lor (Z.lor (Z.lor
          (Z.land function 0xffff0000)
          (Z.shiftl 1 15))
          (Z.shiftl dpl 13))
          (Z.shiftl 0 12))
          (Z.shiftl type 8) in
      Ok (Z.lor e0 (Z.shiftl e1 32))
  | _, _, _ => Err Panic
  end.
Definition make_intr_gate (function dpl : Z) : res Z := make_gate function dpl 14.
Definition make_trap_gate (function dpl : Z) : res Z := make_gate function dpl 15.
Definition make_idtr_operand (limit base : Z) : Z := Z.lor limit (Z.shiftl base 16).

(** ** The tables *)

(** The fields of the TSS that are used; the rest of its page is zero. *)
Record tss := mk_tss {
  esp0 : Z;
  ss0 : Z;
  bitmap : Z
}.
(** [gdtr] and [tr] are the registers of the processor; [tss_page] is the
    pointer to the TSS. *)
Record tables := mk_tables {
  gdt : list Z;
  tss_page : Z;
  the_tss : tss;
  gdtr : Z;
  tr : Z
}.
Definition PGSIZE : Z := 4096.

Definition tss_update (thread_current : Z) : M tables unit :=
  s ← get;
  ASSERT (negb (tss_page s =? 0)) ;;
  put (mk_tables (gdt s) (tss_page s) (mk_tss (u32 (thread_current + PGSIZE)) (ss0 (the_tss s)) (bitmap (the_tss s))) (gdtr s) (tr s)).
(** [page] is what the page allocator has; without a page it panics, since
    [PAL_ASSERT] is set. *)
Definition tss_init (page : option Z) (thread_current : Z) : M tables unit :=
  p ← of_option Panic page;
  s ← get;
  put (mk_tables (gdt s) p (mk_tss 0 SEL_KDSEG 0xdfff) (gdtr s) (tr s)) ;;
  tss_update thread_current.
Definition tss_get : M tables Z :=
  s ← get; ASSERT (negb (tss_page s =? 0)) ;; mret (tss_page s).

Definition set_desc (sel : Z) (d : res Z) : M tables unit :=
  d ← of_res d;
  modify (λ s, mk_tables (<[Z.to_nat (sel / 8) := d]> (gdt s)) (tss_page s) (the_tss s) (gdtr s) (tr s)).
(** [gdt_addr] is the address of the table. *)
Definition gdt_init (gdt_addr : Z) : M tables unit :=
  set_desc SEL_NULL (Ok 0) ;;
  set_desc SEL_KCSEG (make_code_desc 0) ;;
  set_desc SEL_KDSEG (make_data_desc 0) ;;
  set_desc SEL_UCSEG (make_code_desc 3) ;;
  set_desc SEL_UDSEG (make_data_desc 3) ;;
  t ← tss_get;
  set_desc SEL_TSS (make_tss_desc t) ;;
  modify (λ s, mk_tables (gdt s) (tss_page s) (the_tss s) (make_gdtr_operand (SEL_CNT * 8 - 1) gdt_addr) SEL_TSS).

(** ** The processor's view *)

Definition field (d lo width : Z) : Z := (d / 2^lo) mod 2^width.
Definition seg_base (d : Z) : Z := field d 16 24 + 2^24 * field d 56 8.
Definition seg_limit (d : Z) : Z := field d 0 16 + 2^16 * field d 48 4.
Definition seg_type (d : Z) : Z := field d 40 4.
Definition seg_code_data (d : Z) : Z := field d 44 1.
Definition seg_dpl (d : Z) : Z := field d 45 2.
Definition seg_present (d : Z) : Z := field d 47 1.
Definition seg_32bit (d : Z) : Z := field d 54 1.
Definition seg_page_granular (d : Z) : Z := field d 55 1.

Definition gate_offset (d : Z) : Z := field d 0 16 + 2^16 * field d 48 16.
Definition gate_selector (d : Z) : Z := field d 16 16.
Definition gate_type (d : Z) : Z := field d 40 5.
Definition gate_dpl (d : Z) : Z := field d 45 2.
Definition gate_present (d : Z) : Z := field d 47 1.

(** ** Bits next to each other *)

Lemma lor_above a b n : 0 ≤ n → 0 ≤ a < 2^n → Z.lor a (Z.shiftl b n) = a + b * 2^n.
Proof.
  intros Hn Ha. assert (Z.land a (Z.shiftl b n) = 0) as Hl.
  { apply Z.bits_inj'. intros i Hi. rewrite Z.land_spec, Z.bits_0. destruct (Z.lt_ge_cases i n).
    - by rewrite Z.shiftl_spec_low, andb_false_r.
    - by rewrite <- (Z.mod_small a (2^n)), Z.mod_pow2_bits_high by lia. }
  rewrite <- Z.lxor_lor by done. rewrite <- Z.add_nocarry_lxor by done. by rewrite Z.shiftl_mul_pow2.
Qed.
Lemma lor_below a b n m : 0 ≤ m ≤ n → 0 ≤ b < 2^(n - m) → Z.lor (Z.shiftl a n) (Z.shiftl b m) = Z.shiftl (a * 2^(n - m) + b) m.
Proof.
  intros Hm Hb. replace n with (n - m + m) at 1 by lia. rewrite <- Z.shiftl_shiftl, <- Z.shiftl_lor by lia. f_equal.
  rewrite Z.lor_comm, lor_above by lia. lia.
Qed.
Lemma land_field x k n : 0 ≤ k → 0 ≤ n → Z.land x (Z.shiftl (Z.ones n) k) = Z.shiftl ((x / 2^k) mod 2^n) k.
Proof.
  intros Hk Hn. rewrite <- Z.land_ones, <- Z.shiftr_div_pow2 by done. apply Z.bits_inj'. intros i Hi.
  rewrite Z.land_spec, !Z.shiftl_spec, Z.land_spec by done. destruct (Z.lt_ge_cases i k).
  - by rewrite (Z.testbit_neg_r (Z.ones n)), !andb_false_r by lia.
  - rewrite Z.shiftr_spec by lia. by replace (i - k + k) with i by lia.
Qed.

(** Turns disjunctions of disjoint fields into sums, from the inside. *)
Ltac lor_sums :=
  repeat match goal with
  | |- context [Z.lor ?a (Z.shiftl ?b ?n)] =>
      lazymatch a with context [Z.lor] => fail | _ => idtac end;
      lazymatch b with context [Z.lor] => fail | _ => idtac end;
      rewrite (lor_above a b n) by div_lia
  end.

Lemma make_seg_desc_eq base limit class type dpl granularity :
  0 ≤ base < 2^32 → 0 ≤ limit < 2^20 → 0 ≤ type ≤ 15 → 0 ≤ dpl ≤ 3 →
  make_seg_desc base limit class type dpl granularity
  = Ok (limit mod 2^16 + 2^16 * (base mod 2^24) + 2^40 * type + 2^44 * class_bit class + 2^45 * dpl + 2^47
        + 2^48 * (limit / 2^16) + 2^54 + 2^55 * granularity_bit granularity + 2^56 * (base / 2^24)).
Proof.
  intros Hb Hl Ht Hd. unfold make_seg_desc, check.
  rewrite (proj2 (Z.leb_le limit _)), (proj2 (Z.leb_le 0 type)), (proj2 (Z.leb_le type 15)), (proj2 (Z.leb_le 0 dpl)), (proj2 (Z.leb_le dpl 3)) by lia.
  cbn [andb]. f_equal.
  assert (0 ≤ class_bit class ≤ 1) as Hc by (by destruct class). assert (0 ≤ granularity_bit granularity ≤ 1) as Hg by (by destruct granularity).
  change 0xffff with (Z.ones 16). change 0xff with (Z.ones 8). change 0xf0000 with (Z.shiftl (Z.ones 4) 16).
  change 0xff000000 with (Z.shiftl (Z.ones 8) 24).
  rewrite !Z.land_ones, !land_field, Z.shiftr_div_pow2 by lia. rewrite (Z.mod_small (limit / 2^16)), (Z.mod_small (base / 2^24)) by div_lia.
  assert (u32 (Z.shiftl base 16) = Z.shiftl (base mod 2^16) 16) as ->.
  { rewrite !Z.shiftl_mul_pow2 by lia. unfold u32. div_lia. }
  lor_sums. div_lia.
Qed.

(** Segment descriptors: [make_seg_desc] accepts exactly the limits,
    types and privilege levels that fit, and the processor reads the same
    base, limit, class, type, privilege level and granularity back from the
    descriptor, of a 32-bit segment that is present. *)
Theorem make_seg_desc_correct base limit class type dpl granularity :
  0 ≤ base < 2^32 → 0 ≤ limit →
  match make_seg_desc base limit class type dpl granularity with
  | Ok d =>
      0 ≤ d < 2^64 ∧ limit < 2^20 ∧ 0 ≤ type ≤ 15 ∧ 0 ≤ dpl ≤ 3
      ∧ seg_base d = base ∧ seg_limit d = limit ∧ seg_code_data d = class_bit class ∧ seg_type d = type ∧ seg_dpl d = dpl
      ∧ seg_page_granular d = granularity_bit granularity ∧ seg_present d = 1 ∧ seg_32bit d = 1
  | Err e => e = Panic ∧ ¬ (limit < 2^20 ∧ 0 ≤ type ≤ 15 ∧ 0 ≤ dpl ≤ 3)
  end.
Proof.
  intros Hb Hl. destruct (decide (limit < 2^20 ∧ 0 ≤ type ≤ 15 ∧ 0 ≤ dpl ≤ 3)) as [(Hl' & Ht & Hd)|Hn].
  - rewrite make_seg_desc_eq by lia.
    assert (0 ≤ class_bit class ≤ 1) as Hc by (by destruct class). assert (0 ≤ granularity_bit granularity ≤ 1) as Hg by (by destruct granularity).
    unfold seg_base, seg_limit, seg_code_data, seg_type, seg_dpl, seg_page_granular, seg_present, seg_32bit, field.
    repeat (split; [first [lia | div_lia]|]). div_lia.
  - unfold make_seg_desc, check.
    destruct (Z.leb_spec limit 0xfffff), (Z.leb_spec 0 type), (Z.leb_spec type 15), (Z.leb_spec 0 dpl), (Z.leb_spec dpl 3); cbn [andb];
      try (split; [done|]; lia). exfalso. lia.
Qed.

Lemma make_seg_desc_correct_witness :
  match make_seg_desc 0xc0101000 0x67 CLS_SYSTEM 9 0 GRAN_BYTE with
  | Ok d =>
      0 ≤ d < 2^64 ∧ 0x67 < 2^20 ∧ 0 ≤ 9 ≤ 15 ∧ 0 ≤ 0 ≤ 3
      ∧ seg_base d = 0xc0101000 ∧ seg_limit d = 0x67 ∧ seg_code_data d = 0 ∧ seg_type d = 9 ∧ seg_dpl d = 0
      ∧ seg_page_granular d = 0 ∧ seg_present d = 1 ∧ seg_32bit d = 1
  | Err e => e = Panic ∧ ¬ (0x67 < 2^20 ∧ 0 ≤ 9 ≤ 15 ∧ 0 ≤ 0 ≤ 3)
  end.
Proof. apply (make_seg_desc_correct 0xc0101000 0x67 CLS_SYSTEM 9 0 GRAN_BYTE); lia. Defined.

Lemma make_gate_eq function dpl type :
  0 < function < 2^32 → 0 ≤ dpl ≤ 3 → 0 ≤ type ≤ 15 →
  make_gate function dpl type
  = Ok (function mod 2^16 + 2^16 * SEL_KCSEG + 2^40 * type + 2^45 * dpl + 2^47 + 2^48 * (function / 2^16)).
Proof.
  intros Hf Hd Ht. unfold make_gate, check.
  rewrite (proj2 (Z.eqb_neq function 0)), (proj2 (Z.leb_le 0 type)), (proj2 (Z.leb_le type 15)), (proj2 (Z.leb_le 0 dpl)), (proj2 (Z.leb_le dpl 3)) by lia.
  cbn [andb negb]. f_equal. change 0xffff with (Z.ones 16). change 0xffff0000 with (Z.shiftl (Z.ones 16) 16).
  rewrite Z.land_ones, land_field by lia. rewrite (Z.mod_small (function / 2^16)) by div_lia.
  rewrite !lor_below by (change (2 ^ (16 - 15)) with 2; change (2 ^ (15 - 13)) with 4; change (2 ^ (13 - 12)) with 2; change (2 ^ (12 - 8)) with 16; lia).
  change SEL_KCSEG with 8. rewrite !Z.shiftl_mul_pow2 by lia. rewrite <- !Z.shiftl_mul_pow2 by lia. lor_sums.
  rewrite !Z.shiftl_mul_pow2 by lia. div_lia.
Qed.
Lemma make_gate_none function dpl type :
  function = 0 ∨ ¬ (0 ≤ dpl ≤ 3) ∨ ¬ (0 ≤ type ≤ 15) → make_gate function dpl type = Err Panic.
Proof.
  intros Hn. unfold make_gate, check.
  destruct (Z.eqb_spec function 0), (Z.leb_spec 0 type), (Z.leb_spec type 15), (Z.leb_spec 0 dpl), (Z.leb_spec dpl 3); cbn [andb negb]; (done || lia).
Qed.

(** The processor enters [function] in the kernel's code segment through the
    gate, with the given type and privilege level. *)
Definition gate_for (d function dpl type : Z) : Prop :=
  gate_offset d = function ∧ gate_selector d = SEL_KCSEG ∧ gate_type d = type ∧ gate_dpl d = dpl ∧ gate_present d = 1.
Lemma make_gate_ok function dpl type :
  0 < function < 2^32 → 0 ≤ dpl ≤ 3 → 0 ≤ type ≤ 15 → ∃ d, make_gate function dpl type = Ok d ∧ 0 ≤ d < 2^64 ∧ gate_for d function dpl type.
Proof.
  intros Hf Hd Ht. eexists. split; [by apply make_gate_eq|]. change SEL_KCSEG with 8.
  unfold gate_for, gate_offset, gate_selector, gate_type, gate_dpl, gate_present, field. change SEL_KCSEG with 8.
  repeat (split; [first [lia | div_lia]|]). div_lia.
Qed.

(** ** The tables that the kernel sets up *)

(** What the processor finds for a selector. *)
Definition segment (s : tables) (sel : Z) : option Z := gdt s !! Z.to_nat (sel / 8).
(** A segment of 4 GB for code or data, as its type says. *)
Definition flat (d type dpl : Z) : Prop :=
  seg_base d = 0 ∧ seg_limit d = 0xfffff ∧ seg_page_granular d = 1 ∧ seg_code_data d = 1 ∧ seg_type d = type ∧ seg_dpl d = dpl
  ∧ seg_present d = 1 ∧ seg_32bit d = 1.
(** An available TSS of [0x68] bytes at [base]. *)
Definition tss_segment (d base : Z) : Prop :=
  seg_base d = base ∧ seg_limit d = 0x67 ∧ seg_page_granular d = 0 ∧ seg_code_data d = 0 ∧ seg_type d = 9 ∧ seg_dpl d = 0 ∧ seg_present d = 1.

Lemma tss_desc_ok base : 0 ≤ base < 2^32 → ∃ d, make_tss_desc base = Ok d ∧ tss_segment d base.
Proof.
  intros Hb. unfold make_tss_desc. rewrite make_seg_desc_eq by lia. eexists. split; [done|]. cbn [class_bit granularity_bit].
  unfold tss_segment, seg_base, seg_limit, seg_code_data, seg_type, seg_dpl, seg_page_granular, seg_present, field.
  repeat (split; [div_lia|]). div_lia.
Qed.
Lemma flat_descs :
  make_code_desc 0 = Ok 0x00cf9a000000ffff ∧ make_data_desc 0 = Ok 0x00cf92000000ffff
  ∧ make_code_desc 3 = Ok 0x00cffa000000ffff ∧ make_data_desc 3 = Ok 0x00cff2000000ffff.
Proof. by vm_compute. Qed.
Lemma set_desc_eq sel d s :
  set_desc sel (Ok d) s = Ok (tt, mk_tables (<[Z.to_nat (sel / 8) := d]> (gdt s)) (tss_page s) (the_tss s) (gdtr s) (tr s)).
Proof. done. Qed.

(** C25: After [tss_init] and [gdt_init] the selectors of the kernel and of user
    programs name flat code and data segments of privilege levels 0 and 3, the
    task register names the TSS in its page, the table register covers the six
    descriptors, and an interrupt in a user program switches to the kernel's
    data segment and to the end of the thread's page. *)
Theorem protection_tables page thread gdt_addr s :
  length (gdt s) = 6%nat → 0 < page < 2^32 → 0 ≤ thread < 2^32 - PGSIZE → 0 ≤ gdt_addr < 2^32 →
  ∃ s', (tss_init (Some page) thread ;; gdt_init gdt_addr) s = Ok (tt, s')
    ∧ (∃ kc kd uc ud t, segment s' SEL_KCSEG = Some kc ∧ flat kc 10 0 ∧ segment s' SEL_KDSEG = Some kd ∧ flat kd 2 0
         ∧ segment s' SEL_UCSEG = Some uc ∧ flat uc 10 3 ∧ segment s' SEL_UDSEG = Some ud ∧ flat ud 2 3
         ∧ segment s' (tr s') = Some t ∧ tss_segment t page)
    ∧ gdtr s' mod 2^16 = 8 * Z.of_nat (length (gdt s')) - 1 ∧ gdtr s' / 2^16 = gdt_addr
    ∧ tss_page s' = page ∧ ss0 (the_tss s') = SEL_KDSEG ∧ esp0 (the_tss s') = thread + PGSIZE.
Proof.
  intros Hl Hp Ht Hg. destruct s as [g tp td gr t0]. simpl in Hl. do 6 (destruct g as [|? g]; [done|]). destruct g; [|done].
  destruct (tss_desc_ok page) as (td' & Etd & Htd); [lia|].
  assert (tss_init (Some page) thread (mk_tables [z; z0; z1; z2; z3; z4] tp td gr t0)
    = Ok (tt, mk_tables [z; z0; z1; z2; z3; z4] page (mk_tss (thread + PGSIZE) SEL_KDSEG 0xdfff) gr t0)) as Hinit.
  { unfold tss_init. do 3 erewrite bind_ok by done. unfold tss_update. erewrite bind_ok by done. cbn [tss_page].
    rewrite (proj2 (Z.eqb_neq page 0)) by lia. erewrite bind_ok by done. unfold put. cbn -[u32 PGSIZE].
    unfold u32. by rewrite Z.mod_small by (unfold PGSIZE in *; lia). }
  erewrite bind_ok by done. unfold gdt_init.
  destruct flat_descs as (-> & -> & -> & ->).
  do 5 erewrite bind_ok by apply set_desc_eq.
  erewrite (bind_ok tss_get) by (unfold tss_get; erewrite bind_ok by done; cbn [tss_page]; rewrite (proj2 (Z.eqb_neq page 0)) by lia; done).
  rewrite Etd. erewrite bind_ok by apply set_desc_eq. eexists. split; [done|]. cbn -[seg_base flat tss_segment make_gdtr_operand].
  split; [|split; [|split; [|done]]].
  - eexists _, _, _, _, _. split; [done|]. split; [by vm_compute|]. split; [done|]. split; [by vm_compute|]. split; [done|].
    split; [by vm_compute|]. split; [done|]. split; [by vm_compute|]. split; [done|]. done.
  - rewrite !length_insert. unfold make_gdtr_operand. change (SEL_CNT * 8 - 1) with 47. rewrite lor_above by lia. cbn [length]. div_lia.
  - unfold make_gdtr_operand. change (SEL_CNT * 8 - 1) with 47. rewrite lor_above by lia. div_lia.
Qed.

Lemma protection_tables_witness :
  ∃ s', (tss_init (Some 0xc0102000) 0xc0100000 ;; gdt_init 0xc0020000) (mk_tables (replicate 6 0) 0 (mk_tss 0 0 0) 0 0) = Ok (tt, s')
    ∧ esp0 (the_tss s') = 0xc0101000.
Proof.
  destruct (protection_tables 0xc0102000 0xc0100000 0xc0020000 (mk_tables (replicate 6 0) 0 (mk_tss 0 0 0) 0 0))
    as (s' & E & _ & _ & _ & _ & _ & H); [done | lia | unfold PGSIZE; lia | lia|].
  exists s'. split; [exact E | rewrite H; reflexivity].
Defined.
End Descriptor.
