(* ===== verification/Interrupt.v ===== *)
(** * Interrupts: threads/interrupt.c and userprog/exception.c

    Handlers are values of a type [H] that [call] runs; they work on the
    state of the interrupts together with the rest [X] of the kernel's state,
    and so does [thread_yield]. *)
From stdpp Require Import base gmap list list_numbers strings.
From Stdlib Require Import ZArith Lia.
From S2P Require Import Prelude Descriptor Stdio.

Module Interrupt.
Import Descriptor.

Definition PIC0_CTRL : Z := 0x20.
Definition PIC0_DATA : Z := 0x21.
Definition PIC1_CTRL : Z := 0xa0.
Definition PIC1_DATA : Z := 0xa1.
Definition INTR_CNT : Z := 256.

Inductive intr_level := INTR_OFF | INTR_ON.
#[export] Instance intr_level_eq_dec : EqDecision intr_level.
Proof. solve_decision. Defined.

(** threads/interrupt.h *)
Record intr_frame := mk_frame {
  edi : Z; esi : Z; ebp : Z; ebx : Z; edx : Z; ecx : Z; eax : Z;
  es : Z; ds : Z;
  vec_no : Z;
  error_code : Z;
  eip : Z;
  cs : Z;
  esp : Z;
  ss : Z
}.

Section interrupts.
Context {H X : Type}.

(** [flag] is the interrupt flag of the processor, [idtr] its register for the
    table; [outs] is what has been sent to ports, the last first, and
    [console] what has been printed. *)
Record intr := mk_intr {
  idt : list Z;
  idtr : Z;
  intr_handlers : list (option H);
  intr_names : list string;
  unexpected_cnt : list Z;
  in_external_intr : bool;
  yield_on_return : bool;
  flag : intr_level;
  outs : list (Z * Z);
  console : list Z;
  rest : X
}.

Definition set_idt (vec gate : Z) (s : intr) : intr :=
  mk_intr (<[Z.to_nat vec := gate]> (idt s)) (idtr s) (intr_handlers s) (intr_names s) (unexpected_cnt s) (in_external_intr s)
    (yield_on_return s) (flag s) (outs s) (console s) (rest s).
Definition set_idtr (r : Z) (s : intr) : intr :=
  mk_intr (idt s) r (intr_handlers s) (intr_names s) (unexpected_cnt s) (in_external_intr s) (yield_on_return s) (flag s) (outs s) (console s) (rest s).
Definition set_handler (vec : Z) (h : H) (s : intr) : intr :=
  mk_intr (idt s) (idtr s) (<[Z.to_nat vec := Some h]> (intr_handlers s)) (intr_names s) (unexpected_cnt s) (in_external_intr s)
    (yield_on_return s) (flag s) (outs s) (console s) (rest s).
Definition set_names (n : list string) (s : intr) : intr :=
  mk_intr (idt s) (idtr s) (intr_handlers s) n (unexpected_cnt s) (in_external_intr s) (yield_on_return s) (flag s) (outs s) (console s) (rest s).
Definition set_cnt (c : list Z) (s : intr) : intr :=
  mk_intr (idt s) (idtr s) (intr_handlers s) (intr_names s) c (in_external_intr s) (yield_on_return s) (flag s) (outs s) (console s) (rest s).
Definition set_external (e y : bool) (s : intr) : intr :=
  mk_intr (idt s) (idtr s) (intr_handlers s) (intr_names s) (unexpected_cnt s) e y (flag s) (outs s) (console s) (rest s).
Definition set_flag (l : intr_level) (s : intr) : intr :=
  mk_intr (idt s) (idtr s) (intr_handlers s) (intr_names s) (unexpected_cnt s) (in_external_intr s) (yield_on_return s) l (outs s) (console s) (rest s).
Definition add_out (port v : Z) (s : intr) : intr :=
  mk_intr (idt s) (idtr s) (intr_handlers s) (intr_names s) (unexpected_cnt s) (in_external_intr s) (yield_on_return s) (flag s)
    ((port, v) :: outs s) (console s) (rest s).
Definition add_text (t : list Z) (s : intr) : intr :=
  mk_intr (idt s) (idtr s) (intr_handlers s) (intr_names s) (unexpected_cnt s) (in_external_intr s) (yield_on_return s) (flag s) (outs s)
    (console s ++ t) (rest s).

Abbreviation K := (M intr).
Definition outb (port v : Z) : K unit := modify (add_out port (u8 v)).
Definition printf (format : string) (args : list Stdio.va) : K unit :=
  t ← of_res (Stdio.printf format args); modify (add_text t).

(** ** The interrupt level *)

Definition intr_get_level : K intr_level := gets flag.
Definition intr_context : K bool := gets in_external_intr.
Definition intr_enable : K intr_level :=
  old_level ← intr_get_level;
  c ← intr_context;
  ASSERT (negb c) ;;
  modify (set_flag INTR_ON) ;;
  mret old_level.
Definition intr_disable : K intr_level :=
  old_level ← intr_get_level;
  modify (set_flag INTR_OFF) ;;
  mret old_level.
Definition intr_set_level (level : intr_level) : K intr_level :=
  match level with INTR_ON => intr_enable | INTR_OFF => intr_disable end.
Definition intr_yield_on_return : K unit :=
  c ← intr_context;
  ASSERT c ;;
  modify (λ s, set_external (in_external_intr s) true s).

(** ** The interrupt controllers *)

Definition pic_init : K unit :=
  outb PIC0_DATA 0xff ;; outb PIC1_DATA 0xff ;;
  outb PIC0_CTRL 0x11 ;; outb PIC0_DATA 0x20 ;; outb PIC0_DATA 0x04 ;; outb PIC0_DATA 0x01 ;;
  outb PIC1_CTRL 0x11 ;; outb PIC1_DATA 0x28 ;; outb PIC1_DATA 0x02 ;; outb PIC1_DATA 0x01 ;;
  outb PIC0_DATA 0x00 ;; outb PIC1_DATA 0x00.
Definition pic_end_of_interrupt (irq : Z) : K unit :=
  ASSERT ((0x20 <=? irq) && (irq <? 0x30)) ;;
  outb 0x20 0x20 ;;
  if 0x28 <=? irq then outb 0xa0 0x20 else mret tt.

(** ** Registration

    [intr_stubs] are the addresses of the assembly entry points. *)
Context (intr_stubs : Z → Z).

Definition exception_names : list (Z * string) :=
  [(0, "#DE Divide Error"); (1, "#DB Debug Exception"); (2, "NMI Interrupt"); (3, "#BP Breakpoint Exception");
   (4, "#OF Overflow Exception"); (5, "#BR BOUND Range Exceeded Exception"); (6, "#UD Invalid Opcode Exception");
   (7, "#NM Device Not Available Exception"); (8, "#DF Double Fault Exception"); (9, "Coprocessor Segment Overrun");
   (10, "#TS Invalid TSS Exception"); (11, "#NP Segment Not Present"); (12, "#SS Stack Fault Exception");
   (13, "#GP General Protection Exception"); (14, "#PF Page-Fault Exception"); (16, "#MF x87 FPU Floating-Point Error");
   (17, "#AC Alignment Check Exception"); (18, "#MC Machine-Check Exception"); (19, "#XF SIMD Floating-Point Exception")]%string.

(** [idt_addr] is the address of the table. *)
Definition intr_init (idt_addr : Z) : K unit :=
  pic_init ;;
  for_loop (Z.to_nat INTR_CNT) 0 (λ i, g ← of_res (make_intr_gate (intr_stubs i) 0); modify (set_idt i g)) ;;
  modify (set_idtr (make_idtr_operand (8 * INTR_CNT - 1) idt_addr)) ;;
  modify (set_names (replicate (Z.to_nat INTR_CNT) "unknown"%string)) ;;
  modify (λ s, set_names (foldl (λ n '(i, name), <[Z.to_nat i := name]> n) (intr_names s) exception_names) s).

Definition register_handler (vec dpl : Z) (level : intr_level) (handler : H) (name : string) : K unit :=
  s ← get;
  h ← of_option Fault (intr_handlers s !! Z.to_nat vec);
  ASSERT (match h with None => true | Some _ => false end) ;;
  g ← of_res (match level with INTR_ON => make_trap_gate (intr_stubs vec) dpl | INTR_OFF => make_intr_gate (intr_stubs vec) dpl end);
  modify (set_idt vec g) ;;
  modify (set_handler vec handler) ;;
  modify (λ s, set_names (<[Z.to_nat vec := name]> (intr_names s)) s).
Definition intr_register_ext (vec : Z) (handler : H) (name : string) : K unit :=
  ASSERT ((0x20 <=? vec) && (vec <=? 0x2f)) ;;
  register_handler vec 0 INTR_OFF handler name.
Definition intr_register_int (vec dpl : Z) (level : intr_level) (handler : H) (name : string) : K unit :=
  ASSERT ((vec <? 0x20) || (0x2f <? vec)) ;;
  register_handler vec dpl level handler name.

(** ** Handling an interrupt *)

Definition intr_name (vec : Z) : K string := s ← get; of_option Fault (intr_names s !! Z.to_nat vec).

(** A line of output. *)
Definition line (s : string) : string := s +:+ String (Ascii.ascii_of_nat 10) "".

Definition unexpected_interrupt (f : intr_frame) : K unit :=
  s ← get;
  c ← of_option Fault (unexpected_cnt s !! Z.to_nat (vec_no f));
  let n := u32 (c + 1) in
  modify (set_cnt (<[Z.to_nat (vec_no f) := n]> (unexpected_cnt s))) ;;
  if Z.land n (n - 1) =? 0 then
    name ← intr_name (vec_no f);
    printf (line "Unexpected interrupt %#04x (%s)")
      [Stdio.VWord (vec_no f); Stdio.str (Stdio.chars name)]
  else mret tt.

Context (call : H → intr_frame → K unit) (thread_yield : K unit).

Definition external (vec : Z) : bool := (0x20 <=? vec) && (vec <? 0x30).
Definition intr_handler (frame : intr_frame) : K unit :=
  (if external (vec_no frame) then
     l ← intr_get_level; c ← intr_context;
     ASSERT (bool_decide (l = INTR_OFF)) ;; ASSERT (negb c) ;;
     modify (set_external true false)
   else mret tt) ;;
  s ← get;
  handler ← of_option Fault (intr_handlers s !! Z.to_nat (vec_no frame));
  match handler with
  | Some h => call h frame
  | None => if (vec_no frame =? 0x27) || (vec_no frame =? 0x2f) then mret tt else unexpected_interrupt frame
  end ;;
  if external (vec_no frame) then
    l ← intr_get_level; c ← intr_context;
    ASSERT (bool_decide (l = INTR_OFF)) ;; ASSERT c ;;
    modify (λ s, set_external false (yield_on_return s) s) ;;
    pic_end_of_interrupt (vec_no frame) ;;
    y ← gets yield_on_return;
    if y : bool then thread_yield else mret tt
  else mret tt.

(** ** Exceptions

    [cr2] is the processor's register for the address of a page fault,
    [count_fault] is [page_fault_cnt++]. *)
Context (cr2 : X → Z) (count_fault : X → X) (thread_name : X → list Z) (thread_exit : K unit).

Definition words (l : list Z) : list Stdio.va := Stdio.VWord <$> l.

Definition intr_dump_frame (f : intr_frame) : K unit :=
  s ← get;
  name ← intr_name (vec_no f);
  printf (line "Interrupt %#04x (%s) at eip=%p") [Stdio.VWord (vec_no f); Stdio.str (Stdio.chars name); Stdio.VWord (eip f)] ;;
  printf (line " cr2=%08x error=%08x") (words [cr2 (rest s); error_code f]) ;;
  printf (line " eax=%08x ebx=%08x ecx=%08x edx=%08x") (words [eax f; ebx f; ecx f; edx f]) ;;
  printf (line " esi=%08x edi=%08x esp=%08x ebp=%08x") (words [esi f; edi f; esp f; ebp f]) ;;
  printf (line " cs=%04hx ds=%04hx es=%04hx ss=%04hx") (words [cs f; ds f; es f; ss f]).

Definition kill (f : intr_frame) : K unit :=
  s ← get;
  name ← intr_name (vec_no f);
  let vec_name := [Stdio.VWord (vec_no f); Stdio.str (Stdio.chars name)] in
  if cs f =? SEL_UCSEG then
    printf (line "%s: dying due to interrupt %#04x (%s).") (Stdio.str (thread_name (rest s)) :: vec_name) ;;
    intr_dump_frame f ;;
    thread_exit
  else if cs f =? SEL_KCSEG then
    intr_dump_frame f ;;
    fail Panic
  else
    printf (line "Interrupt %#04x (%s) in unknown segment %04x") (vec_name ++ [Stdio.VWord (cs f)]) ;;
    thread_exit.

Definition PF_P : Z := 0x1.
Definition PF_W : Z := 0x2.
Definition PF_U : Z := 0x4.
Definition page_fault (f : intr_frame) : K unit :=
  s ← get;
  let fault_addr := cr2 (rest s) in
  _ ← intr_enable;
  modify (λ s, mk_intr (idt s) (idtr s) (intr_handlers s) (intr_names s) (unexpected_cnt s) (in_external_intr s) (yield_on_return s)
                 (flag s) (outs s) (console s) (count_fault (rest s))) ;;
  let not_present := Z.land (error_code f) PF_P =? 0 in
  let write := negb (Z.land (error_code f) PF_W =? 0) in
  let user := negb (Z.land (error_code f) PF_U =? 0) in
  let text (b : bool) (t e : string) := Stdio.str (Stdio.chars (if b then t else e)) in
  printf (line "Page fault at %p: %s error %s page in %s context.")
    [Stdio.VWord fault_addr; text not_present "not present"%string "rights violation"%string;
     text write "writing"%string "reading"%string; text user "user"%string "kernel"%string] ;;
  kill f.

(** The exceptions that user programs can cause; [kill_h] and [page_fault_h]
    are the two handlers. *)
Context (kill_h page_fault_h : H).
Definition exceptions : list (Z * Z * intr_level * H * string) :=
  [(3, 3, INTR_ON, kill_h, "#BP Breakpoint Exception"); (4, 3, INTR_ON, kill_h, "#OF Overflow Exception");
   (5, 3, INTR_ON, kill_h, "#BR BOUND Range Exceeded Exception"); (0, 0, INTR_ON, kill_h, "#DE Divide Error");
   (1, 0, INTR_ON, kill_h, "#DB Debug Exception"); (6, 0, INTR_ON, kill_h, "#UD Invalid Opcode Exception");
   (7, 0, INTR_ON, kill_h, "#NM Device Not Available Exception"); (11, 0, INTR_ON, kill_h, "#NP Segment Not Present");
   (12, 0, INTR_ON, kill_h, "#SS Stack Fault Exception"); (13, 0, INTR_ON, kill_h, "#GP General Protection Exception");
   (16, 0, INTR_ON, kill_h, "#MF x87 FPU Floating-Point Error"); (19, 0, INTR_ON, kill_h, "#XF SIMD Floating-Point Exception");
   (14, 0, INTR_OFF, page_fault_h, "#PF Page-Fault Exception")]%string.
Fixpoint register_all (l : list (Z * Z * intr_level * H * string)) : K unit :=
  match l with
  | [] => mret tt
  | (vec, dpl, level, h, name) :: l => intr_register_int vec dpl level h name ;; register_all l
  end.
Definition exception_init : K unit := register_all exceptions.
End interrupts.
End Interrupt.
