(* ===== verification/InterruptProps.v ===== *)
(** * Properties of the interrupt tables and of interrupt handling *)
From stdpp Require Import base gmap list list_numbers strings.
From Stdlib Require Import ZArith Lia.
From S2P Require Import Prelude Descriptor Stdio StdioProps Interrupt.

Module InterruptProps.
Import Descriptor Interrupt.

Section props.
Context {H X : Type} (intr_stubs : Z → Z).
Hypothesis stubs_ok : ∀ v, 0 < intr_stubs v < 2^32.
Abbreviation intr := (@intr H X).

(** ** Registrations *)

Inductive request :=
  | RExt (vec : Z) (h : H) (name : string)
  | RInt (vec dpl : Z) (level : intr_level) (h : H) (name : string).
Definition register (r : request) : M intr unit :=
  match r with
  | RExt vec h name => intr_register_ext intr_stubs vec h name
  | RInt vec dpl level h name => intr_register_int intr_stubs vec dpl level h name
  end.
Definition reg_vec (r : request) : Z := match r with RExt v _ _ | RInt v _ _ _ _ => v end.
Definition reg_dpl (r : request) : Z := match r with RExt _ _ _ => 0 | RInt _ d _ _ _ => d end.
Definition reg_level (r : request) : intr_level := match r with RExt _ _ _ => INTR_OFF | RInt _ _ l _ _ => l end.
Definition reg_handler (r : request) : H := match r with RExt _ h _ | RInt _ _ _ h _ => h end.
Definition reg_name (r : request) : string := match r with RExt _ _ n | RInt _ _ _ _ n => n end.
(** 14 is a gate that turns interrupts off, 15 one that does not. *)
Definition gate_kind (l : intr_level) : Z := match l with INTR_OFF => 14 | INTR_ON => 15 end.
Definition allowed (r : request) : Prop :=
  match r with
  | RExt v _ _ => 0x20 ≤ v ≤ 0x2f
  | RInt v d _ _ _ => ¬ (0x20 ≤ v ≤ 0x2f) ∧ 0 ≤ d ≤ 3
  end.

(** What the tables hold for [vec]. *)
Definition entry (s : intr) (vec dpl : Z) (level : intr_level) (h : option H) (name : string) : Prop :=
  (∃ g, idt s !! Z.to_nat vec = Some g ∧ gate_for g (intr_stubs vec) dpl (gate_kind level))
  ∧ intr_handlers s !! Z.to_nat vec = Some h ∧ intr_names s !! Z.to_nat vec = Some name.
Definition table (s : intr) (l : list request) : Prop :=
  length (idt s) = 256%nat ∧ length (intr_handlers s) = 256%nat ∧ length (intr_names s) = 256%nat
  ∧ (∀ r, r ∈ l → entry s (reg_vec r) (reg_dpl r) (reg_level r) (Some (reg_handler r)) (reg_name r))
  ∧ (∀ vec, 0 ≤ vec < 256 → vec ∉ reg_vec <$> l → ∃ name, entry s vec 0 INTR_OFF None name).
(** The rest of the state. *)
Definition same_rest (s s' : intr) : Prop :=
  idtr s' = idtr s ∧ unexpected_cnt s' = unexpected_cnt s ∧ in_external_intr s' = in_external_intr s
  ∧ yield_on_return s' = yield_on_return s ∧ flag s' = flag s ∧ outs s' = outs s ∧ console s' = console s ∧ rest s' = rest s.

Lemma gate_ok vec dpl level :
  0 ≤ dpl ≤ 3 → ∃ g, match level with INTR_ON => make_trap_gate (intr_stubs vec) dpl | INTR_OFF => make_intr_gate (intr_stubs vec) dpl end = Ok g
    ∧ gate_for g (intr_stubs vec) dpl (gate_kind level).
Proof.
  intros Hd. destruct level; [destruct (make_gate_ok (intr_stubs vec) dpl 14) as (g & E & _ & Hg) | destruct (make_gate_ok (intr_stubs vec) dpl 15) as (g & E & _ & Hg)];
    try done; try lia; by exists g.
Qed.

Lemma register_handler_ok s l vec dpl level h name :
  table s l → 0 ≤ vec < 256 → vec ∉ reg_vec <$> l → 0 ≤ dpl ≤ 3 →
  ∃ s', register_handler intr_stubs vec dpl level h name s = Ok (tt, s') ∧ same_rest s s'
    ∧ length (idt s') = 256%nat ∧ length (intr_handlers s') = 256%nat ∧ length (intr_names s') = 256%nat
    ∧ entry s' vec dpl level (Some h) name
    ∧ ∀ vec' dpl' level' h' name', 0 ≤ vec' → vec' ≠ vec → entry s vec' dpl' level' h' name' → entry s' vec' dpl' level' h' name'.
Proof.
  intros (Hi & Hh & Hn & Hreg & Hfree) Hv Hnew Hd. destruct (Hfree vec Hv Hnew) as (name0 & _ & E & _).
  destruct (gate_ok vec dpl level Hd) as (g & Eg & Hg). unfold register_handler. erewrite bind_ok by done. rewrite E. erewrite bind_ok by done.
  erewrite bind_ok by done. rewrite Eg. do 3 erewrite bind_ok by done. eexists. split; [done|]. split; [done|].
  cbn [idt intr_handlers intr_names set_idt set_handler set_names]. rewrite !length_insert. do 3 (split; [done|]). split.
  - split; [exists g; split; [|done]|split]; cbn [idt intr_handlers intr_names set_idt set_handler set_names]; apply list_lookup_insert_eq; lia.
  - intros vec' dpl' level' h' name' Hv' Hne ((g' & Eg' & Hg') & Eh & En).
    split; [exists g'; split; [|done]|split]; cbn [idt intr_handlers intr_names set_idt set_handler set_names]; rewrite list_lookup_insert_ne; (done || lia).
Qed.

Lemma register_ok s l r :
  table s l → Forall (λ r, 0 ≤ reg_vec r) l → 0 ≤ reg_vec r < 256 → allowed r → reg_vec r ∉ reg_vec <$> l →
  ∃ s', register r s = Ok (tt, s') ∧ table s' (r :: l) ∧ same_rest s s'.
Proof.
  intros Ht Hpos Hv Ha Hnew. assert (0 ≤ reg_dpl r ≤ 3) as Hd by (destruct r; simpl in *; lia).
  destruct (register_handler_ok s l (reg_vec r) (reg_dpl r) (reg_level r) (reg_handler r) (reg_name r) Ht Hv Hnew Hd)
    as (s' & E & Hsame & Hl1 & Hl2 & Hl3 & He & Hkeep).
  exists s'. split; [|split; [|done]].
  - destruct r as [v h n|v d lv h n]; simpl in *; unfold intr_register_ext, intr_register_int.
    + rewrite (proj2 (Z.leb_le _ _)), (proj2 (Z.leb_le _ _)) by lia. by erewrite bind_ok by done.
    + destruct (Z.ltb_spec v 0x20), (Z.ltb_spec 0x2f v); try lia; by erewrite bind_ok by done.
  - destruct Ht as (_ & _ & _ & Hreg & Hfree). do 3 (split; [done|]). split.
    + intros r' [->|Hr']%elem_of_cons; [done|]. rewrite Forall_forall in Hpos. apply Hkeep; [by apply Hpos | | by apply Hreg].
      intros Heq. apply Hnew. rewrite <- Heq. by apply list_elem_of_fmap_2.
    + intros vec Hvec Hnot. rewrite fmap_cons, not_elem_of_cons in Hnot. destruct Hnot as [Hne Hnot].
      destruct (Hfree vec Hvec Hnot) as (name & Hent). exists name. apply Hkeep; [lia | done | done].
Qed.

Lemma register_bad s l r :
  table s l → 0 ≤ reg_vec r < 256 → ¬ (allowed r ∧ reg_vec r ∉ reg_vec <$> l) → register r s = Err Panic.
Proof.
  intros (Hi & Hh & Hn & Hreg & Hfree) Hv Hbad.
  assert (∀ vec dpl level (h : H) name, 0 ≤ vec < 256 → vec ∈ reg_vec <$> l ∨ ¬ (0 ≤ dpl ≤ 3) → register_handler intr_stubs vec dpl level h name s = Err Panic) as Hpanic.
  { intros vec dpl level h name Hvec Hor. unfold register_handler. erewrite bind_ok by done.
    destruct (decide (vec ∈ reg_vec <$> l)) as [(r' & -> & Hr')%list_elem_of_fmap|Hnot].
    - destruct (Hreg r' Hr') as (_ & -> & _). erewrite bind_ok by done. by erewrite bind_err by done.
    - destruct (Hfree vec Hvec Hnot) as (name0 & _ & -> & _). do 2 erewrite bind_ok by done. destruct Hor as [?|Hd]; [done|].
      assert (match level with INTR_ON => make_trap_gate (intr_stubs vec) dpl | INTR_OFF => make_intr_gate (intr_stubs vec) dpl end = Err Panic) as ->
        by (destruct level; apply make_gate_none; auto). by erewrite bind_err by done. }
  destruct r as [v h n|v d lv h n]; simpl in *; unfold intr_register_ext, intr_register_int.
  - destruct (Z.leb_spec 0x20 v), (Z.leb_spec v 0x2f); cbn [andb]; try (by erewrite bind_err by done).
    erewrite bind_ok by done. apply Hpanic; [done|]. left. destruct (decide (v ∈ reg_vec <$> l)); [done|]. exfalso. apply Hbad. split; [lia | done].
  - destruct (Z.ltb_spec v 0x20), (Z.ltb_spec 0x2f v); cbn [orb]; try (by erewrite bind_err by done); (erewrite bind_ok by done);
      (apply Hpanic; [done|]); (destruct (decide (v ∈ reg_vec <$> l)); [by left|]); right; intros Hd; apply Hbad; (split; [|done]); (split; [lia | done]).
Qed.

(** ** The first tables *)

Definition pic_setup : list (Z * Z) :=
  [(PIC1_DATA, 0x00); (PIC0_DATA, 0x00); (PIC1_DATA, 0x01); (PIC1_DATA, 0x02); (PIC1_DATA, 0x28); (PIC1_CTRL, 0x11);
   (PIC0_DATA, 0x01); (PIC0_DATA, 0x04); (PIC0_DATA, 0x20); (PIC0_CTRL, 0x11); (PIC1_DATA, 0xff); (PIC0_DATA, 0xff)].
Definition fresh (s : intr) : Prop :=
  length (idt s) = 256%nat ∧ intr_handlers s = replicate 256 None.

Lemma gates_loop s (Q : unit → intr → Prop) :
  length (idt s) = 256%nat →
  (∀ t, length t = 256%nat → (∀ vec, 0 ≤ vec < 256 → ∃ g, t !! Z.to_nat vec = Some g ∧ gate_for g (intr_stubs vec) 0 14) →
     Q tt (mk_intr t (idtr s) (intr_handlers s) (intr_names s) (unexpected_cnt s) (in_external_intr s) (yield_on_return s)
             (flag s) (outs s) (console s) (rest s))) →
  wp (for_loop (Z.to_nat INTR_CNT) 0 (λ i, g ← of_res (make_intr_gate (intr_stubs i) 0); modify (set_idt i g))) Q s.
Proof.
  intros Hl HQ.
  apply (wp_for_loop (λ i s', ∃ t, s' = mk_intr t (idtr s) (intr_handlers s) (intr_names s) (unexpected_cnt s) (in_external_intr s) (yield_on_return s)
             (flag s) (outs s) (console s) (rest s) ∧ length t = 256%nat
    ∧ ∀ vec, 0 ≤ vec < i → ∃ g, t !! Z.to_nat vec = Some g ∧ gate_for g (intr_stubs vec) 0 14)).
  - exists (idt s). split; [by destruct s|]. split; [done | lia].
  - intros i s' Hi (t & -> & Hlt & Hg). change (Z.of_nat (Z.to_nat INTR_CNT)) with 256 in Hi.
    destruct (make_gate_ok (intr_stubs i) 0 14) as (g & E & _ & Hgi); [done | lia | lia|].
    apply wp_bind. apply (wp_of_res _ g); [done|]. apply wp_modify. exists (<[Z.to_nat i := g]> t). split; [done|].
    rewrite length_insert. split; [done|]. intros vec Hv. destruct (decide (vec = i)) as [->|Hne].
    + exists g. rewrite list_lookup_insert_eq by lia. done.
    + rewrite list_lookup_insert_ne by lia. apply Hg. lia.
  - intros s' (t & -> & Hlt & Hg). by apply HQ.
Qed.

Lemma length_names (l : list (Z * string)) n :
  length (foldl (λ n '(i, name), <[Z.to_nat i := name]> n) n l) = length n.
Proof. revert n. induction l as [|[i name] l IH]; intros n; [done|]. cbn [foldl]. by rewrite IH, length_insert. Qed.

Lemma intr_init_ok s idt_addr :
  fresh s → ∃ s', intr_init intr_stubs idt_addr s = Ok (tt, s') ∧ table s' [] ∧ idtr s' = make_idtr_operand 2047 idt_addr
    ∧ outs s' = pic_setup ++ outs s ∧ flag s' = flag s ∧ in_external_intr s' = in_external_intr s ∧ rest s' = rest s.
Proof.
  intros [Hi Hh].
  assert (wp (intr_init intr_stubs idt_addr) (λ _ s', table s' [] ∧ idtr s' = make_idtr_operand 2047 idt_addr
    ∧ outs s' = pic_setup ++ outs s ∧ flag s' = flag s ∧ in_external_intr s' = in_external_intr s ∧ rest s' = rest s) s)
    as ([] & s' & E & Hs')%wp_Ok; [|by exists s'].
  unfold intr_init. apply wp_bind. unfold pic_init. do 11 (apply wp_bind, wp_modify). apply wp_modify.
  apply wp_bind. apply gates_loop; [done|]. intros t Hlt Hg. apply wp_bind, wp_modify. apply wp_bind, wp_modify. apply wp_modify.
  split; [|done]. set (names := foldl _ _ _).
  assert (length names = 256%nat) as Hln by (unfold names; rewrite length_names; cbn [intr_names set_names]; by rewrite length_replicate).
  clearbody names. cbn [set_names set_idtr idtr intr_handlers unexpected_cnt in_external_intr yield_on_return flag outs console rest add_out].
  split; [done|]. split; [cbn [intr_handlers]; by rewrite Hh|]. split; [done|]. split; [by intros r ?%elem_of_nil|]. intros vec Hv _.
  destruct (lookup_lt_is_Some_2 names (Z.to_nat vec)) as [name En]; [lia|]. exists name. split; [by apply Hg|]. split; [|done].
  cbn [intr_handlers]. rewrite Hh. apply lookup_replicate. split; [done | lia].
Qed.

Fixpoint registers (l : list request) : M intr unit :=
  match l with
  | [] => mret tt
  | r :: l => register r ;; registers l
  end.
Definition good_requests (l : list request) : Prop := Forall allowed l ∧ NoDup (reg_vec <$> l).

Lemma registers_ok l : ∀ l0 s, table s l0 → Forall (λ r, 0 ≤ reg_vec r < 256) (l0 ++ l) →
  (Forall allowed l ∧ NoDup (reg_vec <$> l) ∧ ∀ v, v ∈ reg_vec <$> l → v ∉ reg_vec <$> l0) →
  ∃ s', registers l s = Ok (tt, s') ∧ table s' (reverse l ++ l0) ∧ same_rest s s'.
Proof.
  induction l as [|r l IH]; intros l0 s Ht Hv (Ha & Hnd & Hdis); [by exists s|]. cbn [registers].
  apply Forall_app in Hv as [Hv0 Hv]. apply Forall_cons in Hv as [Hr Hv]. apply Forall_cons in Ha as [Har Ha].
  rewrite fmap_cons in Hnd, Hdis. apply NoDup_cons in Hnd as [Hrn Hnd].
  destruct (register_ok s l0 r) as (s1 & E1 & Ht1 & Hs1); [done | by eapply Forall_impl; [done|]; intros ? [] | done | done | apply Hdis; set_solver|].
  destruct (IH (r :: l0) s1 Ht1) as (s' & E & Ht' & Hs').
  { cbn. apply Forall_cons. split; [done|]. by apply Forall_app. }
  { split; [done|]. split; [done|]. intros v Hvl. rewrite fmap_cons, not_elem_of_cons. split; [by intros -> | apply Hdis; set_solver]. }
  exists s'. split; [by erewrite bind_ok by done|]. split.
  - by rewrite reverse_cons, <- app_assoc.
  - unfold same_rest in *. naive_solver congruence.
Qed.

Lemma registers_bad l : ∀ l0 s, table s l0 → Forall (λ r, 0 ≤ reg_vec r < 256) (l0 ++ l) →
  ¬ (Forall allowed l ∧ NoDup (reg_vec <$> l) ∧ ∀ v, v ∈ reg_vec <$> l → v ∉ reg_vec <$> l0) → registers l s = Err Panic.
Proof.
  induction l as [|r l IH]; intros l0 s Ht Hv Hbad.
  { exfalso. apply Hbad. split; [done|]. split; [constructor | by intros v ?%elem_of_nil]. }
  cbn [registers]. apply Forall_app in Hv as [Hv0 Hv]. apply Forall_cons in Hv as [Hr Hv].
  destruct (decide (reg_vec r ∈ reg_vec <$> l0)) as [Hin|Hout].
  { erewrite bind_err; [done|]. apply (register_bad s l0); [done | done|]. naive_solver. }
  assert (allowed r ∨ ¬ allowed r) as [Ha|Ha] by (destruct r; simpl; lia).
  2: { erewrite bind_err; [done|]. apply (register_bad s l0); [done | done|]. naive_solver. }
  destruct (register_ok s l0 r) as (s1 & E1 & Ht1 & _); [done | by eapply Forall_impl; [done|]; intros ? [] | done | done | done|].
  erewrite bind_ok by done. apply (IH (r :: l0)); [done | cbn; apply Forall_cons; split; [done|]; by apply Forall_app|].
  intros (Ha' & Hnd & Hdis). apply Hbad. split; [by constructor|]. rewrite fmap_cons. split.
  - constructor; [|done]. intros Hin. apply (Hdis _ Hin). rewrite fmap_cons. set_solver.
  - intros v [->|Hvl]%elem_of_cons; [done|]. specialize (Hdis v Hvl). rewrite fmap_cons in Hdis. set_solver.
Qed.

(** ** Interrupts *)

Context (call : H → intr_frame → M intr unit) (thread_yield : M intr unit).
Abbreviation intr_handler := (intr_handler call thread_yield).

(** The processor enters the handler through the gate for the interrupt,
    which may turn interrupts off. *)
Definition deliver (frame : intr_frame) : M intr unit :=
  s ← get;
  g ← of_option Fault (idt s !! Z.to_nat (vec_no frame));
  modify (λ s, if gate_type g =? 14 then set_flag INTR_OFF s else s) ;;
  intr_handler frame.

(** A handler of an external interrupt returns, without having turned
    interrupts on. *)
Definition polite (h : H) : Prop := ∀ frame s, flag s = INTR_OFF → in_external_intr s = true →
  ∃ s', call h frame s = Ok (tt, s') ∧ flag s' = INTR_OFF ∧ in_external_intr s' = true.

(** What is done between the two parts for external interrupts. *)
Inductive handled (l : list request) (frame : intr_frame) (s s' : intr) : Prop :=
  | handled_registered r : r ∈ l → reg_vec r = vec_no frame → call (reg_handler r) frame s = Ok (tt, s') → handled l frame s s'
  | handled_spurious : vec_no frame ∉ reg_vec <$> l → vec_no frame = 0x27 ∨ vec_no frame = 0x2f → s' = s → handled l frame s s'
  | handled_unexpected : vec_no frame ∉ reg_vec <$> l → vec_no frame ≠ 0x27 → vec_no frame ≠ 0x2f →
      unexpected_interrupt frame s = Ok (tt, s') → handled l frame s s'.
(** The acknowledgements for the interrupt controllers, the last first. *)
Definition eoi (vec : Z) : list (Z * Z) := (if 0x28 <=? vec then [(0xa0, 0x20)] else []) ++ [(0x20, 0x20)].
Definition acknowledged (vec : Z) (s : intr) : intr :=
  mk_intr (idt s) (idtr s) (intr_handlers s) (intr_names s) (unexpected_cnt s) false (yield_on_return s) (flag s)
    (eoi vec ++ outs s) (console s) (rest s).

(** An interrupt without a handler is counted; the message is printed when the
    count is a power of two. *)
Lemma unexpected_ok frame (s : intr) c name :
  unexpected_cnt s !! Z.to_nat (vec_no frame) = Some c → intr_names s !! Z.to_nat (vec_no frame) = Some name →
  ∃ t, unexpected_interrupt frame s = Ok (tt, add_text t (set_cnt (<[Z.to_nat (vec_no frame) := u32 (c + 1)]> (unexpected_cnt s)) s))
    ∧ if Z.land (u32 (c + 1)) (u32 (c + 1) - 1) =? 0 then
        Stdio.printf (line "Unexpected interrupt %#04x (%s)") [Stdio.VWord (vec_no frame); Stdio.str (Stdio.chars name)] = Ok t
      else t = [].
Proof.
  intros Hc Hn. unfold unexpected_interrupt. erewrite bind_ok by done. rewrite Hc. erewrite bind_ok by done. erewrite bind_ok by done.
  destruct (Z.land (u32 (c + 1)) (u32 (c + 1) - 1) =? 0).
  - unfold intr_name. erewrite bind_ok by (erewrite bind_ok by done; cbn [intr_names set_cnt]; rewrite Hn; done).
    destruct (StdioProps.printf_ok (line "Unexpected interrupt %#04x (%s)") [StdioProps.KWord; StdioProps.KString]
      [Stdio.VWord (vec_no frame); Stdio.str (Stdio.chars name)]) as [t Et]; [by vm_compute | by repeat constructor|].
    exists t. split; [|done]. unfold printf. by rewrite Et.
  - exists []. split; [|done]. unfold mret, M_ret. destruct s. unfold add_text. cbn. by rewrite app_nil_r.
Qed.

Lemma eoi_ok vec (s : intr) :
  external vec = true → pic_end_of_interrupt vec s = Ok (tt, mk_intr (idt s) (idtr s) (intr_handlers s) (intr_names s) (unexpected_cnt s)
    (in_external_intr s) (yield_on_return s) (flag s) (eoi vec ++ outs s) (console s) (rest s)).
Proof.
  intros Hv. unfold pic_end_of_interrupt. unfold external in Hv. rewrite Hv. erewrite bind_ok by done. erewrite bind_ok by done.
  unfold eoi. by destruct (0x28 <=? vec).
Qed.

Section external.
Context (s : intr) (l : list request) (frame : intr_frame).
Hypothesis Htable : table s l.
Hypothesis Hcnt : length (unexpected_cnt s) = 256%nat.
Hypothesis Hallowed : Forall allowed l.
Hypothesis Hvec : external (vec_no frame) = true.
Hypothesis Hpolite : Forall (λ r, polite (reg_handler r)) l.

(** Every external interrupt enters through an interrupt gate. *)
Lemma external_gate : ∃ g, idt s !! Z.to_nat (vec_no frame) = Some g ∧ gate_type g = 14.
Proof.
  destruct Htable as (_ & _ & _ & Hreg & Hfree). unfold external in Hvec. apply andb_true_iff in Hvec as [H1 H2].
  destruct (decide (vec_no frame ∈ reg_vec <$> l)) as [(r & Er & Hr)%list_elem_of_fmap|Hnot].
  - destruct (Hreg r Hr) as ((g & E & _ & _ & Ht & _) & _). rewrite Er. exists g. split; [done|]. rewrite Ht.
    rewrite Forall_forall in Hallowed. specialize (Hallowed r Hr). destruct r; simpl in *; [done | lia].
  - destruct (Hfree (vec_no frame)) as (name & (g & E & _ & _ & Ht & _) & _); [lia | done|]. by exists g.
Qed.

Lemma body_ok s1 :
  intr_handlers s1 = intr_handlers s → intr_names s1 = intr_names s → unexpected_cnt s1 = unexpected_cnt s →
  flag s1 = INTR_OFF → in_external_intr s1 = true →
  ∃ h s2, intr_handlers s1 !! Z.to_nat (vec_no frame) = Some h
    ∧ match h with
      | Some h => call h frame
      | None => if (vec_no frame =? 0x27) || (vec_no frame =? 0x2f) then mret tt else unexpected_interrupt frame
      end s1 = Ok (tt, s2)
    ∧ handled l frame s1 s2 ∧ flag s2 = INTR_OFF ∧ in_external_intr s2 = true.
Proof.
  intros Eh En Ec Hf He. destruct Htable as (_ & _ & _ & Hreg & Hfree). unfold external in Hvec. apply andb_true_iff in Hvec as [H1 H2].
  destruct (decide (vec_no frame ∈ reg_vec <$> l)) as [(r & Er & Hr)%list_elem_of_fmap|Hnot].
  - destruct (Hreg r Hr) as (_ & E & _). rewrite Forall_forall in Hpolite. destruct (Hpolite r Hr frame s1 Hf He) as (s2 & E2 & Hf2 & He2).
    exists (Some (reg_handler r)), s2. rewrite Eh, Er. split; [done|]. split; [done|]. split; [|done]. by eapply handled_registered.
  - destruct (Hfree (vec_no frame)) as (name & _ & E & Ename); [lia | done|]. exists None. rewrite Eh. 
    destruct (Z.eqb_spec (vec_no frame) 0x27), (Z.eqb_spec (vec_no frame) 0x2f); cbn [orb];
      try (exists s1; split; [done|]; split; [done|]; split; [by apply handled_spurious; auto | done]).
    destruct (lookup_lt_is_Some_2 (unexpected_cnt s1) (Z.to_nat (vec_no frame))) as [c Hc]; [rewrite Ec; lia|].
    destruct (unexpected_ok frame s1 c name Hc) as (t & Eu & _); [by rewrite En|]. eexists. split; [done|]. split; [exact Eu|].
    split; [by eapply handled_unexpected | done].
Qed.

(** A new interrupt, while none is being handled. *)
Lemma deliver_intr_ok :
  in_external_intr s = false →
  ∃ s2, handled l frame (set_external true false (set_flag INTR_OFF s)) s2
    ∧ deliver frame s = (if yield_on_return s2 then thread_yield else mret tt) (acknowledged (vec_no frame) s2).
Proof.
  intros Hext. destruct external_gate as (g & Eg & Hg).
  destruct (body_ok (set_external true false (set_flag INTR_OFF s))) as (h & s2 & Eh & Eb & Hh & Hf & He); [done..|].
  exists s2. split; [done|]. unfold deliver. erewrite bind_ok by done. rewrite Eg. erewrite bind_ok by done. rewrite Hg. erewrite bind_ok by done.
  change (14 =? 14) with true. cbv iota. unfold Interrupt.intr_handler. rewrite Hvec.
  erewrite bind_ok; [|do 2 erewrite bind_ok by done; cbn [flag set_flag in_external_intr]; rewrite Hext; do 2 erewrite bind_ok by done; done].
  erewrite bind_ok by done. rewrite Eh. erewrite bind_ok by done. erewrite bind_ok by exact Eb.
  do 2 erewrite bind_ok by done. rewrite Hf, He. do 2 erewrite bind_ok by done. erewrite bind_ok by done.
  erewrite bind_ok by (by apply eoi_ok). by erewrite bind_ok by done.
Qed.
End external.

(** ** Exceptions *)


Context (cr2 : X → Z) (count_fault : X → X) (thread_name : X → list Z) (thread_exit : M intr unit).
Abbreviation intr_dump_frame := (intr_dump_frame cr2).
Abbreviation kill := (kill cr2 thread_name thread_exit).
Abbreviation page_fault := (page_fault cr2 count_fault thread_name thread_exit).





(** ** The interface of the file *)

Lemma build_cases s idt_addr l :
  fresh s → Forall (λ r, 0 ≤ reg_vec r < 256) l →
  (∃ s', (intr_init intr_stubs idt_addr ;; registers l) s = Ok (tt, s') ∧ good_requests l ∧ table s' l
     ∧ idtr s' = make_idtr_operand 2047 idt_addr ∧ flag s' = flag s ∧ in_external_intr s' = in_external_intr s)
  ∨ ((intr_init intr_stubs idt_addr ;; registers l) s = Err Panic ∧ ¬ good_requests l).
Proof using stubs_ok.
  intros Hf Hv. destruct (intr_init_ok s idt_addr Hf) as (s1 & E1 & Ht1 & Hidtr & _ & Hfl & He & _). erewrite bind_ok by done.
  assert (Decision (good_requests l)) as Hdec by (assert (∀ r, Decision (allowed r)) by (intros []; apply _); apply _).
  destruct (decide (good_requests l)) as [[Hall Hnd]|Hbad].
  - left. destruct (registers_ok l [] s1 Ht1 Hv) as (s2 & E2 & Ht2 & Hs1 & _ & Hs2 & _ & Hs3 & _).
    { split; [done|]. split; [done|]. by intros v _ ?%elem_of_nil. }
    rewrite app_nil_r in Ht2. exists s2. split; [done|]. split; [done|]. split; [|split_and!; congruence].
    destruct Ht2 as (? & ? & ? & Hreg & Hfree). do 3 (split; [done|]). split; [intros r Hr; apply Hreg; by apply elem_of_reverse|].
    intros vec Hvec Hnot. apply Hfree; [done|]. intros (r & -> & Hr)%list_elem_of_fmap. apply Hnot, list_elem_of_fmap_2. by apply elem_of_reverse.
  - right. split; [|done]. apply (registers_bad l [] s1 Ht1 Hv). intros (Hall & Hnd & _). by apply Hbad.
Qed.

(** The interrupt tables.  [intr_init] followed by any sequence of
    registrations succeeds exactly if every external handler is for a vector
    from 0x20 to 0x2f, every other one for a vector outside of that range with
    a privilege level from 0 to 3, and no vector is registered twice, and
    panics otherwise.  Afterwards the processor finds for every vector the
    entry point, the privilege level and the kind of gate of its registration,
    and an interrupt gate of privilege level 0 for the vectors without one. *)
Theorem interrupt_tables_built s idt_addr l :
  fresh s → Forall (λ r, 0 ≤ reg_vec r < 256) l → 0 ≤ idt_addr < 2^32 →
  match (intr_init intr_stubs idt_addr ;; registers l) s with
  | Ok (_, s') => good_requests l ∧ table s' l ∧ idtr s' mod 2^16 = 8 * Z.of_nat (length (idt s')) - 1 ∧ idtr s' / 2^16 = idt_addr
  | Err e => e = Panic ∧ ¬ good_requests l
  end.
Proof.
  intros Hf Hv Ha. destruct (build_cases s idt_addr l Hf Hv) as [(s' & -> & Hg & Ht & Hi & _)|[-> Hbad]]; [|done].
  split; [done|]. split; [done|]. destruct Ht as (Hl & _). rewrite Hl, Hi. unfold make_idtr_operand. rewrite lor_above by lia. div_lia.
Qed.

(** C23: External interrupts are atomic.  Once the tables have been built, the
    processor enters every external interrupt with interrupts turned off, so
    that [intr_handler] does not fail: it runs the registered handler with
    [intr_context] true, ignores the two interrupts that can be spurious and
    counts those without a handler; then it acknowledges the interrupt at the
    controllers that took part, and yields if the handler has asked for it. *)
Theorem external_interrupt_handled s0 idt_addr l s1 s frame :
  fresh s0 → Forall (λ r, 0 ≤ reg_vec r < 256) l → (intr_init intr_stubs idt_addr ;; registers l) s0 = Ok (tt, s1) →
  idt s = idt s1 → intr_handlers s = intr_handlers s1 → intr_names s = intr_names s1 → length (unexpected_cnt s) = 256%nat →
  Forall (λ r, polite (reg_handler r)) l → in_external_intr s = false → external (vec_no frame) = true →
  ∃ s2, handled l frame (set_external true false (set_flag INTR_OFF s)) s2
    ∧ deliver frame s = (if yield_on_return s2 then thread_yield else mret tt) (acknowledged (vec_no frame) s2).
Proof.
  intros Hf Hv E Ei Eh En Hc Hp He Hx. destruct (build_cases s0 idt_addr l Hf Hv) as [(s' & E' & [Hall _] & Ht & _)|[E' _]]; [|congruence].
  rewrite E in E'. injection E' as <-. assert (table s l) as Ht' by (unfold table, entry in *; by rewrite Ei, Eh, En).
  by apply (deliver_intr_ok s l frame Ht' Hc Hall Hx Hp).
Qed.

(** The handlers that [main] of threads/init.c has registered, in order. *)
Context (timer_h kbd_h serial_h ide_h syscall_h kill_h page_fault_h : H).
Definition boot_requests : list request :=
  [RExt 0x20 timer_h "8254 Timer"; RExt 0x21 kbd_h "8042 Keyboard"]%string
  ++ ((λ '(vec, dpl, level, h, name), RInt vec dpl level h name) <$> exceptions kill_h page_fault_h)
  ++ [RInt 0x30 3 INTR_ON syscall_h "syscall"; RExt 0x24 serial_h "serial"; RExt 0x2e ide_h "ide0"; RExt 0x2f ide_h "ide1"]%string.

(** A user program can enter the kernel with the instruction [int] at the
    vectors 3, 4, 5 and 0x30 only: the kernel's registrations succeed, and no
    other gate has a privilege level above 0. *)
Theorem user_entry_points s idt_addr :
  fresh s →
  ∃ s', (intr_init intr_stubs idt_addr ;; registers boot_requests) s = Ok (tt, s')
    ∧ ∀ vec, 0 ≤ vec < 256 → ∃ g, idt s' !! Z.to_nat vec = Some g ∧ gate_offset g = intr_stubs vec
        ∧ gate_dpl g = if bool_decide (vec ∈ [3; 4; 5; 0x30]) then 3 else 0.
Proof using stubs_ok.
  intros Hf. assert (good_requests boot_requests) as Hg.
  { split; [|by apply (bool_decide_unpack _); vm_compute]. repeat (constructor; [simpl; lia|]). constructor. }
  destruct (build_cases s idt_addr boot_requests Hf) as [(s' & E & _ & Ht & _)|[_ Hbad]]; [repeat (constructor; [simpl; lia|]); constructor | |done].
  exists s'. split; [done|]. intros vec Hv. destruct Ht as (_ & _ & _ & Hreg & Hfree).
  destruct (decide (vec ∈ reg_vec <$> boot_requests)) as [(r & -> & Hr)%list_elem_of_fmap|Hnot].
  - destruct (Hreg r Hr) as ((g & Eg & Ho & _ & _ & Hd & _) & _). exists g. split; [done|]. split; [done|]. rewrite Hd.
    unfold boot_requests in Hr. cbn in Hr. repeat (apply elem_of_cons in Hr as [->|Hr]; [done|]). by apply elem_of_nil in Hr.
  - destruct (Hfree vec Hv Hnot) as (name & (g & Eg & Ho & _ & _ & Hd & _) & _). exists g. split; [done|]. split; [done|].
    rewrite Hd, bool_decide_eq_false_2; [done|]. intros Hin. apply Hnot. cbn. rewrite !elem_of_cons in *. clear -Hin. tauto.
Qed.

End props.

(** ** Example: entry points 16 bytes apart, and handlers that do nothing *)

Definition stubs (v : Z) : Z := 0xc0020000 + 16 * (v mod 256).
Lemma stubs_range v : 0 < stubs v < 2^32.
Proof. unfold stubs. pose proof (Z.mod_pos_bound v 256). lia. Qed.
Definition reset : @intr unit unit :=
  mk_intr (replicate 256 0) 0 (replicate 256 None) (replicate 256 ""%string) (replicate 256 0) false false INTR_OFF [] [] tt.
Definition timer_only : list (@request unit) := [RExt 0x20 tt "8254 Timer"%string].
Definition timer_frame : intr_frame := mk_frame 0 0 0 0 0 0 0 0 0 0x20 0 0 SEL_KCSEG 0 0.

Lemma interrupt_tables_built_witness :
  match (intr_init stubs 0xc0010000 ;; registers stubs timer_only) reset with
  | Ok (_, s') => good_requests timer_only ∧ table stubs s' timer_only ∧ idtr s' mod 2^16 = 8 * Z.of_nat (length (idt s')) - 1
                  ∧ idtr s' / 2^16 = 0xc0010000
  | Err e => e = Panic ∧ ¬ good_requests timer_only
  end.
Proof. apply (interrupt_tables_built stubs stubs_range reset 0xc0010000 timer_only); [done | repeat constructor; simpl; lia | lia]. Defined.

Lemma external_interrupt_handled_witness :
  ∃ s1 s2, (intr_init stubs 0xc0010000 ;; registers stubs timer_only) reset = Ok (tt, s1)
    ∧ handled (λ _ _, mret tt) timer_only timer_frame (set_external true false (set_flag INTR_OFF s1)) s2
    ∧ deliver (λ _ _, mret tt) (mret tt) timer_frame s1 = Ok (tt, acknowledged 0x20 s2).
Proof.
  destruct (build_cases stubs stubs_range reset 0xc0010000 timer_only) as [(s1 & E & _ & _ & _ & _ & He)|[_ Hbad]].
  - done.
  - repeat constructor; simpl; lia.
  - assert (unexpected_cnt s1 = unexpected_cnt reset) as Hc.
    { pose proof (f_equal (λ r, match r with Ok (_, s) => unexpected_cnt s | Err _ => [] end) E) as Hc. cbv beta iota in Hc. rewrite <- Hc.
      vm_compute. reflexivity. }
    destruct (external_interrupt_handled stubs stubs_range (λ _ _, mret tt) (mret tt) reset 0xc0010000 timer_only s1 s1 timer_frame)
      as (s2 & Hh & Hd); [split; reflexivity | repeat constructor; simpl; lia | exact E | reflexivity | reflexivity | reflexivity
      | rewrite Hc; reflexivity | | rewrite He; reflexivity | reflexivity |].
    + apply Forall_singleton. intros f s Hf Hx. exists s. split; [reflexivity|]. split; assumption.
    + exists s1, s2. split; [exact E|]. split; [exact Hh|]. rewrite Hd. by destruct (yield_on_return s2).
  - exfalso. apply Hbad. split; [repeat constructor; simpl; lia | apply NoDup_singleton].
Defined.

Lemma user_entry_points_witness :
  ∃ s' g, (intr_init stubs 0xc0010000 ;; registers stubs (boot_requests tt tt tt tt tt tt tt)) reset = Ok (tt, s')
    ∧ idt s' !! Z.to_nat 14 = Some g ∧ gate_offset g = 0xc00200e0 ∧ gate_dpl g = 0.
Proof.
  destruct (user_entry_points stubs stubs_range tt tt tt tt tt tt tt reset 0xc0010000) as (s' & E & Hall); [done|].
  destruct (Hall 14) as (g & Eg & Ho & Hd); [lia|]. exists s', g. split; [exact E|]. split; [exact Eg|]. split; [exact Ho | exact Hd].
Defined.

End InterruptProps.
