(* ===== verification/Clock.v ===== *)
(** * Clocks: devices/timer.c, devices/pit.c and devices/rtc.c *)
From stdpp Require Import base gmap list list_numbers.
From Stdlib Require Import ZArith Lia.
From S2P Require Import Prelude Thread.

Module Clock.

Definition check (b : bool) : res unit := if b then Ok tt else Err Panic.

(** ** The interval timer, devices/pit.c *)

Definition PIT_PORT_CONTROL : Z := 0x43.
Definition PIT_PORT_COUNTER (channel : Z) : Z := 0x40 + channel.
Definition PIT_HZ : Z := 1193180.

(** The value for the 16-bit counter. *)
Definition pit_count (frequency : Z) : Z :=
  if frequency <? 19 then 0
  else if PIT_HZ <? frequency then 2
  else u16 (Z.quot (PIT_HZ + Z.quot frequency 2) frequency).
(** The bytes that are sent to ports, in order; interrupts are off between
    them. *)
Definition pit_configure_channel (channel mode frequency : Z) : res (list (Z * Z)) :=
  match check ((channel =? 0) || (channel =? 2)), check ((mode =? 2) || (mode =? 3)) with
  | Ok _, Ok _ =>
      let count := pit_count frequency in
      Ok [(PIT_PORT_CONTROL, u8 (Z.lor (Z.lor (Z.shiftl channel 6) 0x30) (Z.shiftl mode 1)));
          (PIT_PORT_COUNTER channel, u8 count);
          (PIT_PORT_COUNTER channel, u8 (Z.shiftr count 8))]
  | _, _ => Err Panic
  end.

(** ** The timer, devices/timer.c

    Time is counted in iterations of the empty loop; the timer interrupt comes
    every [period] of them, so that [ticks] is a function of the time.  The
    iteration takes its unit of time at [barrier ()], which is in the body of
    every such loop and does nothing else; all other code takes no time, but
    for the unit that [yield_turns] takes. *)
Definition TIMER_FREQ : Z := 100.

Section timer.
Context (period : Z).

Record clock := mk_clock {
  now : Z;
  loops_per_tick : Z;
  interrupts_on : bool
}.
Definition ticks (c : clock) : Z := s64 (now c / period).
Definition barrier : M clock unit := modify (λ c, mk_clock (now c + 1) (loops_per_tick c) (interrupts_on c)).

Definition timer_init : res (list (Z * Z)) := pit_configure_channel 0 2 TIMER_FREQ.

Definition timer_ticks : M clock Z := gets ticks.
Definition timer_elapsed (then_ : Z) : M clock Z := t ← timer_ticks; mret (s64 (t - then_)).

Definition busy_wait (loops : Z) : M clock unit := for_loop (Z.to_nat loops) 0 (λ _, barrier).

(** The loop that waits for a tick takes at most [period] iterations. *)
Definition too_many_loops (loops : Z) : M clock bool :=
  start ← gets ticks;
  loop (S (Z.to_nat period)) (λ _, t ← gets ticks; if t =? start then barrier ;; mret (inl tt) else mret (inr tt)) tt ;;
  start ← gets ticks;
  busy_wait loops ;;
  t ← gets ticks;
  mret (negb (start =? t)).

Definition set_loops (l : Z) : M clock unit := modify (λ c, mk_clock (now c) l (interrupts_on c)).

(** 22 doublings of [2^10] are more than 32 bits. *)
Definition timer_calibrate : M clock unit :=
  on ← gets interrupts_on;
  ASSERT on ;;
  set_loops (2^10) ;;
  loop 23 (λ _,
    l ← gets loops_per_tick;
    tm ← too_many_loops (u32 (Z.shiftl l 1));
    if tm : bool then mret (inr tt)
    else set_loops (u32 (Z.shiftl l 1)) ;; ASSERT (negb (u32 (Z.shiftl l 1) =? 0)) ;; mret (inl tt)) tt ;;
  high_bit ← gets loops_per_tick;
  loop 10 (λ test_bit,
    if test_bit =? Z.shiftr high_bit 10 then mret (inr tt)
    else
      l ← gets loops_per_tick;
      tm ← too_many_loops (Z.lor l test_bit);
      (if tm : bool then mret tt else set_loops (Z.lor l test_bit)) ;;
      mret (inl (Z.shiftr test_bit 1))) (Z.shiftr high_bit 1).

(** The other threads: for each one that is ready at some time, in the order of
    the ready queue, how long it would like to run before it gives up the
    processor. *)
Context (others : Z → list Z).

(** A thread that [schedule] has switched to runs with [thread_ticks] at 0 until
    it gives up the processor, after [want] iterations, or until [thread_tick]
    has counted [TIME_SLICE] ticks. *)
Definition turn_step (st : Z * Z) : M clock (Z * Z + unit) :=
  let '(want, thread_ticks) := st in
  if want <=? 0 then mret (inr tt)
  else
    before ← gets ticks;
    barrier ;;
    after ← gets ticks;
    let thread_ticks := if after =? before then thread_ticks else thread_ticks + 1 in
    if Thread.TIME_SLICE <=? thread_ticks then mret (inr tt) else mret (inl (want - 1, thread_ticks)).
Definition turn (want : Z) : M clock unit := loop (S (Z.to_nat (Thread.TIME_SLICE * period))) turn_step (want, 0).
(** [thread_yield] puts the thread behind those that are ready, and a thread
    that becomes ready later goes behind it: it comes back when each of them
    has had its turn. *)
Definition yield_turns : M clock unit :=
  wants ← gets (others ∘ now);
  for_loop (length wants) 0 (λ i, turn (default 0 (wants !! Z.to_nat i))) ;;
  barrier.

Definition timer_sleep (fuel : nat) (n : Z) : M clock unit :=
  start ← timer_ticks;
  on ← gets interrupts_on;
  ASSERT on ;;
  loop fuel (λ _, e ← timer_elapsed start; if e <? n then yield_turns ;; mret (inl tt) else mret (inr tt)) tt.

Definition real_time_delay (num denom : Z) : M clock unit :=
  ASSERT (Z.rem denom 1000 =? 0) ;;
  l ← gets loops_per_tick;
  busy_wait (Z.quot (s64 (Z.quot (s64 (l * num)) 1000 * TIMER_FREQ)) (Z.quot denom 1000)).
Definition real_time_sleep (fuel : nat) (num denom : Z) : M clock unit :=
  let n := Z.quot (s64 (num * TIMER_FREQ)) denom in
  on ← gets interrupts_on;
  ASSERT on ;;
  if 0 <? n then timer_sleep fuel n else real_time_delay num denom.

Definition timer_msleep (fuel : nat) (ms : Z) : M clock unit := real_time_sleep fuel ms 1000.
Definition timer_usleep (fuel : nat) (us : Z) : M clock unit := real_time_sleep fuel us (1000 * 1000).
Definition timer_nsleep (fuel : nat) (ns : Z) : M clock unit := real_time_sleep fuel ns (1000 * 1000 * 1000).
Definition timer_mdelay (ms : Z) : M clock unit := real_time_delay ms 1000.
Definition timer_udelay (us : Z) : M clock unit := real_time_delay us (1000 * 1000).
Definition timer_ndelay (ns : Z) : M clock unit := real_time_delay ns (1000 * 1000 * 1000).
End timer.

(** ** The time of day, devices/rtc.c

    [inb] and [outb] access the ports of the clock chip. *)
Section rtc.
Context {D : Type} (outb : Z → Z → D → D) (inb : Z → D → Z * D).

Definition CMOS_REG_SET : Z := 0x70.
Definition CMOS_REG_IO : Z := 0x71.
Definition RTC_REG_SEC : Z := 0.
Definition RTC_REG_MIN : Z := 2.
Definition RTC_REG_HOUR : Z := 4.
Definition RTC_REG_MDAY : Z := 7.
Definition RTC_REG_MON : Z := 8.
Definition RTC_REG_YEAR : Z := 9.

Definition bcd_to_bin (x : Z) : Z := Z.land x 0x0f + Z.shiftr x 4 * 10.
Definition cmos_read (index : Z) : M D Z := λ d, Ok (inb CMOS_REG_IO (outb CMOS_REG_SET index d)).
Definition read_bcd (index : Z) : M D Z := x ← cmos_read index; mret (bcd_to_bin x).

Definition days_per_month : list Z := [31; 28; 31; 30; 31; 30; 31; 31; 30; 31; 30; 31].
(** The seconds of the month with index [mon - 1] are the last that the loop
    adds; a month beyond the table is read from behind it. *)
Definition month_seconds (mon : Z) : res Z :=
  if Z.of_nat (length days_per_month) <? mon then Err Fault
  else Ok (foldr (λ d t, d * 24 * 60 * 60 + t) 0 (take (Z.to_nat mon) days_per_month)).
(** [time] is an unsigned 32-bit number. *)
Definition rtc_seconds (sec min hour mday mon year : Z) : res Z :=
  let year := (if year <? 70 then year + 100 else year) - 70 in
  match month_seconds mon with
  | Ok months =>
      Ok (u32 (s32 ((year * 365 + Z.quot (year - 1) 4) * 24 * 60 * 60) + months
               + (if (2 <? mon) && (Z.rem year 4 =? 0) then 24 * 60 * 60 else 0)
               + (mday - 1) * 24 * 60 * 60 + hour * 60 * 60 + min * 60 + sec))
  | Err e => Err e
  end.
Definition rtc_get_time (fuel : nat) : M D Z :=
  t ← loop fuel (λ _,
    sec ← read_bcd RTC_REG_SEC;
    min ← read_bcd RTC_REG_MIN;
    hour ← read_bcd RTC_REG_HOUR;
    mday ← read_bcd RTC_REG_MDAY;
    mon ← read_bcd RTC_REG_MON;
    year ← read_bcd RTC_REG_YEAR;
    again ← read_bcd RTC_REG_SEC;
    mret (if sec =? again then inr (sec, min, hour, mday, mon, year) else inl tt)) tt;
  let '(sec, min, hour, mday, mon, year) := t in
  of_res (rtc_seconds sec min hour mday mon year).
End rtc.
End Clock.
