(* ===== verification/ClockProps.v ===== *)
(** * Properties of the clocks *)
From stdpp Require Import base gmap list list_numbers.
From Stdlib Require Import ZArith Lia.
From S2P Require Import Prelude Thread Clock.

Module ClockProps.
Import Clock.

(** ** The interval timer *)

(** The count that the chip works with. *)
Definition divisor (count : Z) : Z := if count =? 0 then 65536 else count.

(** The interval timer: for a channel and a mode that exist, the two bytes
    of the counter make up the divisor of the clock that is nearest to the
    frequency, for every frequency from 19 Hz to the clock's own; a lower
    frequency gets the largest divisor and a higher one the divisor 2.  For
    frequencies from 795454 Hz on the divisor is 1, which the chip does not
    allow in mode 2. *)
Theorem pit_divides channel mode frequency :
  channel = 0 ∨ channel = 2 → mode = 2 ∨ mode = 3 →
  ∃ cmd lo hi, pit_configure_channel channel mode frequency
      = Ok [(0x43, cmd); (0x40 + channel, lo); (0x40 + channel, hi)]
    ∧ cmd = 64 * channel + 0x30 + 2 * mode ∧ 0 ≤ lo < 256 ∧ 0 ≤ hi < 256
    ∧ let d := divisor (lo + 256 * hi) in
      (frequency < 19 → d = 65536) ∧ (PIT_HZ < frequency → d = 2)
      ∧ (19 ≤ frequency ≤ PIT_HZ → 2 * Z.abs (d * frequency - PIT_HZ) ≤ frequency)
      ∧ (795454 ≤ frequency ≤ PIT_HZ → d = 1).
Proof.
  intros Hc Hm. assert (0 ≤ pit_count frequency < 65536 ∧ (frequency < 19 → pit_count frequency = 0) ∧ (PIT_HZ < frequency → pit_count frequency = 2)
    ∧ (19 ≤ frequency ≤ PIT_HZ → 0 < pit_count frequency ∧ 2 * Z.abs (pit_count frequency * frequency - PIT_HZ) ≤ frequency)
    ∧ (795454 ≤ frequency ≤ PIT_HZ → pit_count frequency = 1)) as (Hr & Hlow & Hhigh & Hmid & Hone).
  { unfold pit_count, PIT_HZ. destruct (Z.ltb_spec frequency 19); [lia|]. destruct (Z.ltb_spec 1193180 frequency); [lia|].
    rewrite (Z.quot_div_nonneg frequency 2), Z.quot_div_nonneg by (try apply Z.add_nonneg_nonneg; try apply Z.div_pos; lia).
    assert (0 < (1193180 + frequency / 2) / frequency < 65536) as Hq.
    { split; [apply Z.div_str_pos; pose proof (Z.div_pos frequency 2); lia|]. apply Z.div_lt_upper_bound; [lia|]. pose proof (Z.div_le_upper_bound frequency 2 frequency). nia. }
    unfold u16. rewrite Z.mod_small by lia. pose proof (Z.div_mod (1193180 + frequency / 2) frequency). pose proof (Z.mod_pos_bound (1193180 + frequency / 2) frequency).
    pose proof (Z.div_mod frequency 2). pose proof (Z.mod_pos_bound frequency 2). repeat split; try lia; nia. }
  unfold pit_configure_channel, check, PIT_PORT_CONTROL, PIT_PORT_COUNTER.
  replace ((channel =? 0) || (channel =? 2)) with true by lia. replace ((mode =? 2) || (mode =? 3)) with true by lia.
  exists (u8 (Z.lor (Z.lor (Z.shiftl channel 6) 0x30) (Z.shiftl mode 1))), (u8 (pit_count frequency)), (u8 (Z.shiftr (pit_count frequency) 8)). split; [done|].
  split; [by destruct Hc as [-> | ->], Hm as [-> | ->]|]. split; [apply u8_range|]. split; [apply u8_range|]. cbv zeta.
  assert (u8 (pit_count frequency) + 256 * u8 (Z.shiftr (pit_count frequency) 8) = pit_count frequency) as ->.
  { unfold u8. rewrite Z.shiftr_div_pow2 by lia. div_lia. }
  unfold divisor. destruct (Z.eqb_spec (pit_count frequency) 0); lia.
Qed.
Lemma pit_divides_witness :
  ∃ cmd lo hi, pit_configure_channel 0 2 100 = Ok [(0x43, cmd); (0x40, lo); (0x40, hi)] ∧ 2 * Z.abs (divisor (lo + 256 * hi) * 100 - PIT_HZ) ≤ 100.
Proof.
  destruct (pit_divides 0 2 100) as (cmd & lo & hi & E & _ & _ & _ & _ & _ & H & _); [by left | by left|].
  exists cmd, lo, hi. split; [exact E | apply H; unfold PIT_HZ; lia].
Defined.

(** ** The timer *)

Section timer.
Context (period : Z).
Hypothesis period_pos : 0 < period.
Abbreviation ticks := (ticks period).

Definition at_time (t : Z) (c : clock) : clock := mk_clock t (loops_per_tick c) (interrupts_on c).
Lemma ticks_eq c : 0 ≤ now c < 2^63 → ticks c = now c / period.
Proof.
  intros Hn. unfold Clock.ticks, s64. apply sgn_small; [lia|]. change (2 ^ (64 - 1)) with (2^63).
  pose proof (Z.div_pos (now c) period). pose proof (Z.div_le_upper_bound (now c) period (now c)). nia.
Qed.
(** Times between two ticks. *)
Lemma tick_range t n : t / period = n ↔ n * period ≤ t < (n + 1) * period.
Proof.
  pose proof (Z.div_mod t period). pose proof (Z.mod_pos_bound t period). split; [intros <-; nia|].
  intros Hr. symmetry. apply (Z.div_unique_pos _ _ _ (t - n * period)); lia.
Qed.

Lemma busy_wait_eq n c : busy_wait n c = Ok (tt, at_time (now c + Z.max 0 n) c).
Proof.
  assert (∀ k i c, for_loop k i (λ _, barrier) c = Ok (tt, at_time (now c + Z.of_nat k) c)) as Hloop.
  { induction k as [|k IH]; intros i c0; cbn [for_loop]; [unfold at_time; rewrite Z.add_0_r; by destruct c0|].
    erewrite bind_ok by done. rewrite IH. unfold at_time. cbn. do 3 f_equal. lia. }
  unfold busy_wait. rewrite Hloop. do 4 f_equal. lia.
Qed.

(** The loop that waits for the next tick ends at a multiple of the period. *)
Lemma next_tick c (Q : unit → clock → Prop) :
  0 ≤ now c → now c + period < 2^63 → Q tt (at_time ((now c / period + 1) * period) c) →
  wp (loop (S (Z.to_nat period)) (λ _, t ← gets ticks; if t =? ticks c then barrier ;; mret (inl tt) else mret (inr tt)) tt) Q c.
Proof.
  intros H0 Hb HQ. rewrite ticks_eq by lia. set (goal := (now c / period + 1) * period) in *.
  pose proof (proj1 (tick_range (now c) _) eq_refl) as Hr.
  assert (now c < goal ≤ now c + period) as Hg by (unfold goal; lia).
  apply (wp_loop (λ _ c', c' = at_time (now c') c ∧ now c ≤ now c' ≤ goal) (λ _ c', Z.to_nat (goal - now c'))); [| |lia].
  - intros [] c' [Hc' Hn]. apply wp_bind, wp_gets. rewrite ticks_eq by lia.
    destruct (Z.eqb_spec (now c' / period) (now c / period)) as [E|E].
    + apply wp_bind, wp_modify. apply wp_ret. cbn. apply tick_range in E. assert (now c' < goal) by (unfold goal in *; lia).
      split; [|lia]. rewrite Hc'. unfold at_time. cbn. split; [done | lia].
    + apply wp_ret. assert (now c' = goal) as Hgo; [|by rewrite Hc', Hgo].
      destruct (Z.lt_ge_cases (now c') goal); [|lia]. exfalso. apply E, tick_range. unfold goal in *. lia.
  - split; [by destruct c | lia].
Qed.

(** [loops] iterations take more than a tick if they are [period] or more. *)
Lemma too_many_loops_ok loops c (Q : bool → clock → Prop) :
  0 ≤ now c → 0 ≤ loops → now c + period + loops < 2^63 →
  (∀ t, now c ≤ t ≤ now c + period + loops → Q (period <=? loops) (at_time t c)) →
  wp (too_many_loops period loops) Q c.
Proof.
  intros H0 Hl Hb HQ. unfold too_many_loops. apply wp_bind, wp_gets. apply wp_bind. apply next_tick; [done | lia|].
  set (goal := (now c / period + 1) * period). pose proof (proj1 (tick_range (now c) _) eq_refl) as Hr.
  assert (now c < goal ≤ now c + period) as Hg by (unfold goal; lia).
  apply wp_bind, wp_gets. apply wp_bind. eapply wp_eq; [apply busy_wait_eq|]. apply wp_bind, wp_gets. apply wp_ret.
  rewrite !ticks_eq by (cbn; lia). cbn [now at_time]. rewrite Z.max_r by done.
  assert (negb (goal / period =? (goal + loops) / period) = (period <=? loops)) as ->.
  { unfold goal. rewrite Z.div_add_l, Z.div_mul by lia. pose proof (Z.div_mod loops period). pose proof (Z.mod_pos_bound loops period).
    destruct (Z.leb_spec period loops); [apply negb_true_iff, Z.eqb_neq; nia | apply negb_false_iff, Z.eqb_eq].
    rewrite (Z.div_small loops) by lia. lia. }
  apply HQ. lia.
Qed.

Lemma shiftr_pow2 a n : 0 ≤ n ≤ a → Z.shiftr (2^a) n = 2^(a - n).
Proof. intros Hn. rewrite Z.shiftr_div_pow2 by lia. symmetry. apply Z.pow_sub_r; lia. Qed.

(** *** The doubling phase *)

Definition double : unit → M clock (unit + unit) := λ _,
  l ← gets loops_per_tick;
  tm ← too_many_loops period (u32 (Z.shiftl l 1));
  if tm : bool then mret (inr tt)
  else set_loops (u32 (Z.shiftl l 1)) ;; ASSERT (negb (u32 (Z.shiftl l 1) =? 0)) ;; mret (inl tt).

Lemma doubled k : 0 ≤ k ≤ 30 → u32 (Z.shiftl (2^k) 1) = 2^(k + 1).
Proof.
  intros Hk. rewrite Z.shiftl_mul_pow2 by lia. rewrite <- Z.pow_add_r by lia. apply u32_small. split; [lia|].
  apply Z.pow_lt_mono_r; lia.
Qed.

Lemma doubling_ok c (Q : unit → clock → Prop) :
  0 ≤ now c → now c + 23 * (period + 2^32) < 2^63 → period ≤ 2^31 → loops_per_tick c = 2^10 →
  (∀ t k, now c ≤ t ≤ now c + 23 * (period + 2^32) → 10 ≤ k ≤ 30 → k = 10 ∨ 2^k < period → period ≤ 2^(k + 1) →
     Q tt (mk_clock t (2^k) (interrupts_on c))) →
  wp (loop 23 double tt) Q c.
Proof.
  intros H0 Hb Hp Hl HQ.
  apply (wp_loop (λ _ c', ∃ t k, c' = mk_clock t (2^k) (interrupts_on c) ∧ 10 ≤ k ≤ 30 ∧ (k = 10 ∨ 2^k < period)
             ∧ now c ≤ t ≤ now c + (k - 10) * (period + 2^32))
           (λ _ c', Z.to_nat (31 - Z.log2 (loops_per_tick c')))); [| |rewrite Hl; by vm_compute; lia].
  - intros [] c' (t & k & -> & Hk & Hor & Ht). unfold double. apply wp_bind, wp_gets. cbn [loops_per_tick]. rewrite doubled by lia.
    assert (2^(k + 1) ≤ 2^31) as Hle by (apply Z.pow_le_mono_r; lia).
    assert ((k - 10) * (period + 2^32) ≤ 20 * (period + 2^32)) as Hmul by (apply Z.mul_le_mono_nonneg_r; lia).
    apply wp_bind. apply too_many_loops_ok; cbn [now]; [lia | lia | lia|]. intros t' Ht'. unfold at_time. cbn [loops_per_tick interrupts_on].
    destruct (Z.leb_spec period (2^(k + 1))).
    + apply wp_ret. apply HQ; [lia | done | done | done].
    + apply wp_bind, wp_modify. apply wp_bind, wp_ASSERT; [rewrite (proj2 (Z.eqb_neq _ _)) by lia; done|]. apply wp_ret.
      assert (k < 30) as Hk'.
      { destruct (Z.lt_ge_cases k 30); [done|]. assert (k = 30) as -> by lia. change (2^(30 + 1)) with (2^31) in *. lia. }
      split; [exists t', (k + 1); cbn; split; [done|]; split; [lia|]; split; [by right | lia]|].
      cbn [loops_per_tick]. rewrite !Z.log2_pow2 by lia. lia.
  - exists (now c), 10. split; [destruct c; simpl in *; by subst|]. split; [lia|]. split; [by left | lia].
Qed.

(** A processor that is too fast: the number of loops wraps around to 0. *)
Lemma doubling_panics : 2^31 < period → ∀ j k fuel c,
  0 ≤ now c → now c + (Z.of_nat j + 1) * (period + 2^32) < 2^63 → loops_per_tick c = 2^k → k = 31 - Z.of_nat j → 0 ≤ k → (j < fuel)%nat →
  loop fuel double tt c = Err Panic.
Proof.
  intros Hp. induction j as [|j IH]; intros k [|fuel] c H0 Hb Hl Hk Hk0 Hf; try lia; cbn [loop].
  - apply bind_err. unfold double. erewrite bind_ok by done. rewrite Hl. assert (k = 31) as -> by lia. change (u32 (Z.shiftl (2^31) 1)) with 0.
    assert (wp (too_many_loops period 0) (λ b c', b = false ∧ loops_per_tick c' = loops_per_tick c) c) as (b & c' & E & -> & _)%wp_Ok.
    { apply too_many_loops_ok; [lia | lia | lia|]. intros t Ht. split; [lia | done]. }
    erewrite bind_ok by done. done.
  - assert (2^(k + 1) ≤ 2^31) as Hle by (apply Z.pow_le_mono_r; lia).
    assert (wp (double tt) (λ x c', x = inl tt ∧ loops_per_tick c' = 2^(k + 1) ∧ now c ≤ now c' ≤ now c + period + 2^32) c) as (x & c' & E & -> & Hl' & Hn)%wp_Ok.
    { unfold double. apply wp_bind, wp_gets. rewrite Hl, doubled by lia. apply wp_bind. apply too_many_loops_ok; [lia | lia | lia|].
      intros t Ht. rewrite (proj2 (Z.leb_gt _ _)) by lia. apply wp_bind, wp_modify.
      apply wp_bind, wp_ASSERT; [rewrite (proj2 (Z.eqb_neq _ _)) by lia; done|]. apply wp_ret. split; [done|]. split; [done|]. cbn. lia. }
    erewrite bind_ok by done. apply (IH (k + 1)); try done; lia.
Qed.

(** *** The refinement phase *)

Definition refine (high_bit : Z) : Z → M clock (Z + unit) := λ test_bit,
  if test_bit =? Z.shiftr high_bit 10 then mret (inr tt)
  else
    l ← gets loops_per_tick;
    tm ← too_many_loops period (Z.lor l test_bit);
    (if tm : bool then mret tt else set_loops (Z.lor l test_bit)) ;;
    mret (inl (Z.shiftr test_bit 1)).

Lemma lor_bit l b : 0 ≤ b → l mod 2^(b + 1) = 0 → Z.lor l (2^b) = l + 2^b.
Proof.
  intros Hb Hl. rewrite <- Z.lxor_lor, <- Z.add_nocarry_lxor; try done;
    (apply Z.bits_inj'; intros i Hi; rewrite Z.land_spec, Z.bits_0, Z.pow2_bits_eqb by done;
     destruct (Z.eqb_spec b i) as [->|]; [|apply andb_false_r];
     rewrite <- (Z.mod_pow2_bits_low l (i + 1)), Hl by lia; by rewrite Z.bits_0).
Qed.

Lemma next_multiple m x y : 0 < m → x mod m = 0 → y mod m = 0 → x < y → x + m ≤ y.
Proof.
  intros Hm Hx Hy Hlt. apply Z.mod_divide in Hx as [a ->]; [|lia]. apply Z.mod_divide in Hy as [b ->]; [|lia].
  assert (a < b) by (apply (Z.mul_lt_mono_pos_r m); lia). replace (a * m + m) with ((a + 1) * m) by lia. apply Z.mul_le_mono_nonneg_r; lia.
Qed.
Lemma refining_ok k c (Q : unit → clock → Prop) :
  0 ≤ now c → now c + 10 * (period + 2^32) < 2^63 → 10 ≤ k ≤ 30 → loops_per_tick c = 2^k → k = 10 ∨ 2^k < period → period ≤ 2^(k + 1) →
  (∀ t l, now c ≤ t ≤ now c + 10 * (period + 2^32) → 2^k ≤ l → (l < period ∨ l = 2^k) → period ≤ l + 2^(k - 9) →
     Q tt (mk_clock t l (interrupts_on c))) →
  wp (loop 10 (refine (2^k)) (Z.shiftr (2^k) 1)) Q c.
Proof.
  intros H0 Hb Hk Hl Hor Hp HQ. rewrite shiftr_pow2 by lia.
  apply (wp_loop (λ test c', ∃ t l j, test = 2^(k - j) ∧ 1 ≤ j ≤ 10 ∧ c' = mk_clock t l (interrupts_on c)
            ∧ now c ≤ t ≤ now c + (j - 1) * (period + 2^32) ∧ 2^k ≤ l < 2^(k + 1) ∧ l mod 2^(k - j + 1) = 0
            ∧ (l < period ∨ l = 2^k) ∧ period ≤ l + 2^(k - j + 1))
           (λ test c', Z.to_nat (Z.log2 test + 10 - k))); [| |rewrite Z.log2_pow2 by lia; lia].
  - intros test c' (t & l & j & -> & Hj & -> & Ht & Hl' & Hmod & Hlp & Hpl). unfold refine. rewrite shiftr_pow2 by lia.
    assert (2^(k + 1) ≤ 2^31) as Hle by (apply Z.pow_le_mono_r; lia).
    assert ((j - 1) * (period + 2^32) ≤ 9 * (period + 2^32)) as Hmul by (apply Z.mul_le_mono_nonneg_r; lia).
    destruct (Z.eqb_spec (2^(k - j)) (2^(k - 10))) as [E|E].
    + apply Z.pow_inj_r in E; [|lia..]. assert (j = 10) as -> by lia. apply wp_ret. apply HQ; [lia | lia | done |].
      by replace (k - 9) with (k - 10 + 1) by lia.
    + assert (j < 10) by (destruct (Z.eq_dec j 10); [subst; done | lia]).
      apply wp_bind, wp_gets. cbn [loops_per_tick]. rewrite lor_bit by (done || lia).
      assert (2^(k - j + 1) = 2 * 2^(k - j)) as Hdbl by (rewrite Z.pow_add_r by lia; lia).
      assert (0 < 2^(k - j)) as Hpos by (apply Z.pow_pos_nonneg; lia).
      assert (l + 2^(k - j) < 2^(k + 1)) as Hsum.
      { assert (2^(k + 1) mod 2^(k - j + 1) = 0) as Hm2.
        { replace (k + 1) with (j + (k - j + 1)) by lia. rewrite Z.pow_add_r by lia. apply Z.mod_mul. lia. }
        pose proof (next_multiple (2^(k - j + 1)) l (2^(k + 1))). lia. }
      apply wp_bind. apply too_many_loops_ok; cbn [now]; [lia | lia | lia|]. intros t' Ht'. unfold at_time. cbn [loops_per_tick interrupts_on].
      rewrite shiftr_pow2 by lia. replace (k - j - 1) with (k - (j + 1)) by lia.
      assert ((l + 2^(k - j)) mod 2^(k - j) = 0 ∧ l mod 2^(k - j) = 0) as [Hma Hmb].
      { assert (l mod 2^(k - j) = 0) as Hm.
        { rewrite Hdbl in Hmod. apply Z.mod_divide in Hmod as [a ->]; [|lia]. rewrite Z.mul_assoc. apply Z.mod_mul. lia. }
        split; [|done]. rewrite <- Zplus_mod_idemp_r, Z.mod_same, Z.add_0_r by lia. done. }
      destruct (Z.leb_spec period (l + 2^(k - j))).
      * apply wp_bind, wp_ret, wp_ret. split; [|rewrite !Z.log2_pow2 by lia; lia].
        exists t', l, (j + 1). replace (k - (j + 1) + 1) with (k - j) by lia. split_and!; try done; lia.
      * apply wp_bind, wp_modify. apply wp_ret. split; [|rewrite !Z.log2_pow2 by lia; lia].
        exists t', (l + 2^(k - j)), (j + 1). replace (k - (j + 1) + 1) with (k - j) by lia. split_and!; try done; lia.
  - exists (now c), (2^k), 1. replace (k - 1 + 1) with k by lia. assert (2^(k + 1) = 2 * 2^k) as Hd by (rewrite Z.pow_add_r by lia; lia).
    assert (0 < 2^k) by (apply Z.pow_pos_nonneg; lia). rewrite Z.mod_same by lia.
    split_and!; try done; try lia. destruct c; simpl in *; by subst.
Qed.

(** C26: Calibration.  On a processor that runs the empty loop [period] times
    per tick, from 1025 to 2^31 times, [timer_calibrate] ends with a number of
    loops below [period] that is within one part in 512 of it; a slower
    processor is given 1024 loops, and on a faster one the number wraps around
    to 0 and the kernel panics. *)
Theorem timer_calibrate_correct c :
  0 ≤ now c → now c + 33 * (period + 2^32) < 2^63 → interrupts_on c = true →
  if period <=? 2^31 then
    ∃ t l, timer_calibrate period c = Ok (tt, mk_clock t l true) ∧ 1024 ≤ l
      ∧ (period ≤ 1024 → l = 1024) ∧ (1024 < period → l < period ≤ l + l / 512)
  else timer_calibrate period c = Err Panic.
Proof.
  intros H0 Hb Hon. destruct (Z.leb_spec period (2^31)) as [Hp|Hp].
  - assert (wp (timer_calibrate period) (λ _ c', ∃ t l, c' = mk_clock t l true ∧ 1024 ≤ l
      ∧ (period ≤ 1024 → l = 1024) ∧ (1024 < period → l < period ≤ l + l / 512)) c) as ([] & c' & E & t & l & -> & H)%wp_Ok; [|by exists t, l].
    unfold timer_calibrate. apply wp_bind, wp_gets. rewrite Hon. apply wp_bind, wp_ASSERT; [done|]. apply wp_bind, wp_modify.
    apply wp_bind. apply doubling_ok; cbn [now loops_per_tick interrupts_on]; [lia | lia | done | done|]. intros t k Ht Hk Hor Hpk.
    apply wp_bind, wp_gets. cbn [loops_per_tick]. apply refining_ok; cbn [now loops_per_tick interrupts_on]; try done; try lia.
    intros t' l Ht' Hkl Hor' Hpl. exists t', l. rewrite Hon. split; [done|].
    assert (2^10 ≤ 2^k) as Hk10 by (apply Z.pow_le_mono_r; lia). change (2^10) with 1024 in Hk10.
    assert (2^(k - 9) = 2^k / 512) as Hd by (rewrite Z.pow_sub_r by lia; done).
    assert (2^k / 512 ≤ l / 512) as Hm by (apply Z.div_le_mono; lia). split; [lia|]. split.
    + intros Hsmall. destruct Hor' as [?| ->]; [lia|]. destruct Hor as [-> |?]; [done | lia].
    + intros Hbig. destruct Hor' as [?| ->]; [lia|]. destruct Hor as [-> |?]; [change (2^10) with 1024 in *; lia | lia].
  - unfold timer_calibrate. erewrite bind_ok by done. rewrite Hon. erewrite bind_ok by done. erewrite bind_ok by done. apply bind_err.
    apply (doubling_panics Hp 21 10); cbn [now loops_per_tick]; (done || lia).
Qed.

(** ** Sleeping *)

Context (others : Z → list Z) (m : Z).
(** At most [m] other threads are ready at any time. *)
Hypothesis others_ok : ∀ t, Z.of_nat (length (others t)) ≤ m.
(** The longest time that they can run before it is the thread's turn again. *)
Abbreviation slices := (m * (Thread.TIME_SLICE * period) + 1).




End timer.

Lemma timer_calibrate_correct_witness :
  ∃ t l, timer_calibrate 1000000 (mk_clock 0 0 true) = Ok (tt, mk_clock t l true) ∧ 1024 ≤ l
    ∧ (1000000 ≤ 1024 → l = 1024) ∧ (1024 < 1000000 → l < 1000000 ≤ l + l / 512).
Proof. apply (timer_calibrate_correct 1000000 ltac:(lia) (mk_clock 0 0 true)); [simpl; lia | simpl; lia | reflexivity]. Defined.


(** ** The time of day *)

(** Numbers below 100 as two decimal digits. *)
Definition bcd (n : Z) : Z := 16 * (n / 10) + n mod 10.
Lemma bcd_to_bin_bcd n : 0 ≤ n < 100 → bcd_to_bin (bcd n) = n.
Proof.
  intros Hn. unfold bcd_to_bin, bcd. change 0x0f with (Z.ones 4). rewrite Z.land_ones, Z.shiftr_div_pow2 by lia. div_lia.
Qed.

(** Dates from 1970 on; [year] counts from there.  Every fourth year is a leap
    year until 2099. *)
Definition leap (year : Z) : bool := year mod 4 =? 2.
Definition days_before (mon : Z) : Z := foldr Z.add 0 (take (Z.to_nat (mon - 1)) days_per_month).
Definition unix_time (sec min hour mday mon year : Z) : Z :=
  (365 * year + (year + 1) / 4 + days_before mon + (if leap year && (2 <? mon) then 1 else 0) + (mday - 1)) * 86400
  + hour * 3600 + min * 60 + sec.
Definition valid_date (sec min hour mday mon year : Z) : Prop :=
  0 ≤ sec < 60 ∧ 0 ≤ min < 60 ∧ 0 ≤ hour < 24 ∧ 1 ≤ mday ≤ 31 ∧ 1 ≤ mon ≤ 12 ∧ 0 ≤ year ≤ 67.

Lemma month_cases mon :
  1 ≤ mon ≤ 12 → ∃ d, 28 ≤ d ≤ 31 ∧ month_seconds mon = Ok ((days_before mon + d) * 86400) ∧ 0 ≤ days_before mon ≤ 334.
Proof.
  intros Hm. assert (mon = 1 ∨ mon = 2 ∨ mon = 3 ∨ mon = 4 ∨ mon = 5 ∨ mon = 6 ∨ mon = 7 ∨ mon = 8 ∨ mon = 9 ∨ mon = 10 ∨ mon = 11 ∨ mon = 12) as Hc by lia.
  exists (default 0 (days_per_month !! Z.to_nat (mon - 1))). repeat (destruct Hc as [->|Hc]; [vm_compute; intuition congruence|]). subst. vm_compute. intuition congruence.
Qed.

(** The code adds the days of the current month as well, and counts the leap
    years from 1974 on. *)
Lemma rtc_seconds_eq sec min hour mday mon year :
  valid_date sec min hour mday mon year →
  ∃ days, 27 ≤ days ≤ 32 ∧ rtc_seconds sec min hour mday mon ((70 + year) mod 100) = Ok (unix_time sec min hour mday mon year + days * 86400).
Proof.
  intros (Hs & Hm & Hh & Hd & Hmon & Hy). destruct (month_cases mon Hmon) as (d & Hd28 & Em & Hb).
  assert ((if (70 + year) mod 100 <? 70 then (70 + year) mod 100 + 100 else (70 + year) mod 100) - 70 = year) as Ey.
  { destruct (Z.ltb_spec ((70 + year) mod 100) 70); div_lia. }
  unfold rtc_seconds. rewrite Em, Ey. unfold unix_time, leap.
  assert (Z.quot (year - 1) 4 = if year =? 0 then 0 else (year - 1) / 4) as ->.
  { destruct (Z.eqb_spec year 0) as [->|]; [done|]. apply Z.quot_div_nonneg; lia. }
  rewrite Z.rem_mod_nonneg by lia.
  exists (d + (if year =? 0 then 0 else (year - 1) / 4) - (year + 1) / 4 + (if (2 <? mon) && (year mod 4 =? 0) then 1 else 0)
    - (if (year mod 4 =? 2) && (2 <? mon) then 1 else 0)).
  split.
  - destruct (Z.eqb_spec year 0) as [->|]; [change ((0 + 1) / 4) with 0; change (0 mod 4) with 0; destruct (2 <? mon); cbn [andb Z.eqb]; lia|].
    destruct (2 <? mon), (Z.eqb_spec (year mod 4) 0), (Z.eqb_spec (year mod 4) 2); cbn [andb]; div_lia.
  - f_equal. unfold s32. rewrite sgn_small by (destruct (year =? 0); div_lia). unfold u32. rewrite Z.mod_small.
    + destruct (2 <? mon), (year mod 4 =? 0), (year mod 4 =? 2); cbn [andb]; lia.
    + destruct (Z.eqb_spec year 0), (2 <? mon), (year mod 4 =? 0); cbn [andb]; div_lia.
Qed.

Section rtc.
Context {D : Type} (outb : Z → Z → D → D) (inb : Z → D → Z * D) (stable : D → Prop) (regs : Z → Z).
(** While the time does not change, reading a register gives its value. *)
Hypothesis chip_stable : ∀ i d, stable d → ∃ d', inb CMOS_REG_IO (outb CMOS_REG_SET i d) = (regs i, d') ∧ stable d'.

Lemma read_bcd_ok i d (Q : Z → D → Prop) :
  stable d → (∀ d', stable d' → Q (bcd_to_bin (regs i)) d') → wp (read_bcd outb inb i) Q d.
Proof.
  intros Hd HQ. destruct (chip_stable i d Hd) as (d' & E & Hd'). unfold read_bcd. apply wp_bind. unfold wp, cmos_read. rewrite E. by apply HQ.
Qed.

(** C28: The time of day is a month ahead: for every date from 1970 to 2037 that
    the clock chip shows, [rtc_get_time] returns between 27 and 32 days more
    than the seconds since 1970. *)
Theorem rtc_get_time_ahead fuel d sec min hour mday mon year :
  stable d → (0 < fuel)%nat → valid_date sec min hour mday mon year →
  regs RTC_REG_SEC = bcd sec → regs RTC_REG_MIN = bcd min → regs RTC_REG_HOUR = bcd hour → regs RTC_REG_MDAY = bcd mday →
  regs RTC_REG_MON = bcd mon → regs RTC_REG_YEAR = bcd ((70 + year) mod 100) →
  ∃ days d', 27 ≤ days ≤ 32 ∧ rtc_get_time outb inb fuel d = Ok (unix_time sec min hour mday mon year + days * 86400, d').
Proof.
  intros Hd Hf Hv Es Em Eh Emd Emon Ey. destruct (rtc_seconds_eq _ _ _ _ _ _ Hv) as (days & Hdays & E).
  assert (wp (rtc_get_time outb inb fuel) (λ r _, r = unix_time sec min hour mday mon year + days * 86400) d) as (r & d' & Er & ->)%wp_Ok; [|by exists days, d'].
  destruct fuel as [|fuel]; [lia|]. destruct Hv as (Hs & Hm & Hh & Hmd & Hmo & Hy). unfold rtc_get_time. apply wp_bind. cbn [loop]. apply wp_bind.
  do 7 (apply wp_bind, read_bcd_ok; [done|]; clear Hd; intros ? Hd). apply wp_ret.
  rewrite Es, Em, Eh, Emd, Emon, Ey, !bcd_to_bin_bcd by div_lia. rewrite Z.eqb_refl. apply wp_ret. by eapply wp_of_res.
Qed.
End rtc.

(** A chip with its registers; the first component is the selected one. *)
Definition chip_regs (i : Z) : Z := default 0 ((list_to_map [(0, 0x56); (2, 0x34); (4, 0x12); (7, 0x29); (8, 0x02); (9, 0x16)] : gmap Z Z) !! i).
Lemma rtc_get_time_ahead_witness :
  ∃ days d', 27 ≤ days ≤ 32
    ∧ rtc_get_time (λ _ i _, i) (λ _ i, (chip_regs i, i)) 1 0 = Ok (unix_time 56 34 12 29 2 46 + days * 86400, d').
Proof.
  apply (rtc_get_time_ahead (λ _ i _, i) (λ _ i, (chip_regs i, i)) (λ _, True) chip_regs).
  - intros i d _. exists i. split; [reflexivity | exact I].
  - exact I.
  - lia.
  - unfold valid_date. lia.
  - reflexivity.
  - reflexivity.
  - reflexivity.
  - reflexivity.
  - reflexivity.
  - reflexivity.
Defined.
End ClockProps.
