(* ===== verification/Serial.v ===== *)
(** * Input and the serial port: devices/input.c, devices/serial.c and devices/kbd.c

    [inb] and [outb] are the ports of the hardware, whose state is [D]. *)
From stdpp Require Import base gmap list list_numbers strings.
From Stdlib Require Import ZArith Lia.
From S2P Require Import Prelude Intq Stdio.

Module Serial.
Import Intq.

Definition IO_BASE : Z := 0x3f8.
Definition RBR_REG : Z := IO_BASE + 0.
Definition THR_REG : Z := IO_BASE + 0.
Definition IER_REG : Z := IO_BASE + 1.
Definition LS_REG : Z := IO_BASE + 0.
Definition MS_REG : Z := IO_BASE + 1.
Definition IIR_REG : Z := IO_BASE + 2.
Definition FCR_REG : Z := IO_BASE + 2.
Definition LCR_REG : Z := IO_BASE + 3.
Definition MCR_REG : Z := IO_BASE + 4.
Definition LSR_REG : Z := IO_BASE + 5.
Definition IER_RECV : Z := 0x01.
Definition IER_XMIT : Z := 0x02.
Definition LCR_N81 : Z := 0x03.
Definition LCR_DLAB : Z := 0x80.
Definition MCR_OUT2 : Z := 0x08.
Definition LSR_DR : Z := 0x01.
Definition LSR_THRE : Z := 0x20.

Inductive serial_mode := UNINIT | POLL | QUEUE.
#[export] Instance serial_mode_eq_dec : EqDecision serial_mode.
Proof. solve_decision. Defined.

(** The state of the keyboard driver. *)
Record keyboard := mk_keyboard {
  left_shift : bool; right_shift : bool;
  left_alt : bool; right_alt : bool;
  left_ctrl : bool; right_ctrl : bool;
  caps_lock : bool;
  key_cnt : Z
}.

Section serial.
Context {D : Type} (inb_port : Z → D → Z * D) (outb_port : Z → Z → D → D).

(** [buffer] is the one of input.c; [handlers] are the vectors that have been
    registered. *)
Record dev := mk_dev {
  txq : intq;
  buffer : intq;
  mode : serial_mode;
  thrs : threads;
  kbd : keyboard;
  handlers : list Z;
  hw : D
}.
Definition on_txq {A} (m : M st A) : M dev A :=
  zoom (λ s, mk_st (txq s) (thrs s)) (λ k s, mk_dev (q k) (buffer s) (mode s) (thr k) (kbd s) (handlers s) (hw s)) m.
Definition on_buffer {A} (m : M st A) : M dev A :=
  zoom (λ s, mk_st (buffer s) (thrs s)) (λ k s, mk_dev (txq s) (q k) (mode s) (thr k) (kbd s) (handlers s) (hw s)) m.
Definition set_mode (md : serial_mode) : M dev unit :=
  modify (λ s, mk_dev (txq s) (buffer s) md (thrs s) (kbd s) (handlers s) (hw s)).
Definition inb (port : Z) : M dev Z := λ s,
  let '(v, d) := inb_port port (hw s) in Ok (v, mk_dev (txq s) (buffer s) (mode s) (thrs s) (kbd s) (handlers s) d).
Definition outb (port v : Z) : M dev unit :=
  modify (λ s, mk_dev (txq s) (buffer s) (mode s) (thrs s) (kbd s) (handlers s) (outb_port port (u8 v) (hw s))).

(** The interrupt level, threads/interrupt.c; [true] is [INTR_OFF]. *)
Definition set_off (off : bool) : M dev unit :=
  modify (λ s, mk_dev (txq s) (buffer s) (mode s) (mk_threads (cur (thrs s)) (blocked (thrs s)) off (intr_context (thrs s))) (kbd s) (handlers s) (hw s)).
Definition intr_disable : M dev bool := old ← gets (intr_off ∘ thrs); set_off true ;; mret old.
Definition intr_set_level (off : bool) : M dev unit :=
  if off then set_off true
  else c ← gets (intr_context ∘ thrs); ASSERT (negb c) ;; set_off false.
Definition assert_off : M dev unit := off ← gets (intr_off ∘ thrs); ASSERT off.
Definition intr_register_ext (vec : Z) : M dev unit :=
  s ← get;
  ASSERT (negb (bool_decide (vec ∈ handlers s))) ;;
  put (mk_dev (txq s) (buffer s) (mode s) (thrs s) (kbd s) (vec :: handlers s) (hw s)).

(** ** The input buffer and the registers *)

Definition input_full : M dev bool := assert_off ;; on_buffer intq_full.

Definition write_ier : M dev unit :=
  assert_off ;;
  e ← on_txq intq_empty;
  let ier := if e : bool then 0 else IER_XMIT in
  f ← input_full;
  let ier := if f : bool then ier else Z.lor ier IER_RECV in
  outb IER_REG ier.
Definition serial_notify : M dev unit :=
  assert_off ;;
  md ← gets mode;
  if decide (md = QUEUE) then write_ier else mret tt.

Definition input_init : M dev unit :=
  modify (λ s, mk_dev (txq s) (intq_init (buf (buffer s))) (mode s) (thrs s) (kbd s) (handlers s) (hw s)).
(** The buffer is not full, so that [intq_putc] does not wait. *)
Definition input_putc (key : Z) : M dev unit :=
  assert_off ;;
  f ← on_buffer intq_full;
  ASSERT (negb f) ;;
  o ← on_buffer (intq_putc key);
  match o with Done _ => serial_notify | Stop _ => fail Sleep end.
(** The rest after [intq_getc]; a thread that waits goes on with
    [input_getc_resume]. *)
Definition input_getc_end (old_level : bool) (o : outcome Z) : M dev (outcome Z) :=
  match o with
  | Done key => serial_notify ;; intr_set_level old_level ;; mret (Done key)
  | Stop p => mret (Stop p)
  end.
Definition input_getc : M dev (outcome Z) :=
  old_level ← intr_disable;
  o ← on_buffer intq_getc;
  input_getc_end old_level o.
Definition input_getc_resume (old_level : bool) (p : point) : M dev (outcome Z) :=
  o ← on_buffer (getc_resume p);
  input_getc_end old_level o.

(** ** The serial port *)

Definition set_serial (bps : Z) : M dev unit :=
  let base_rate := Z.quot 1843200 16 in
  let divisor := u16 (Z.quot base_rate bps) in
  ASSERT ((300 <=? bps) && (bps <=? 115200)) ;;
  outb LCR_REG (Z.lor LCR_N81 LCR_DLAB) ;;
  outb LS_REG (Z.land divisor 0xff) ;;
  outb MS_REG (Z.shiftr divisor 8) ;;
  outb LCR_REG LCR_N81.

Definition init_poll : M dev unit :=
  md ← gets mode;
  ASSERT (bool_decide (md = UNINIT)) ;;
  outb IER_REG 0 ;;
  outb FCR_REG 0 ;;
  set_serial 9600 ;;
  outb MCR_REG MCR_OUT2 ;;
  modify (λ s, mk_dev (intq_init (buf (txq s))) (buffer s) (mode s) (thrs s) (kbd s) (handlers s) (hw s)) ;;
  set_mode POLL.

Definition serial_init_queue : M dev unit :=
  md ← gets mode;
  (if decide (md = UNINIT) then init_poll else mret tt) ;;
  md ← gets mode;
  ASSERT (bool_decide (md = POLL)) ;;
  intr_register_ext (0x20 + 4) ;;
  set_mode QUEUE ;;
  old_level ← intr_disable;
  write_ier ;;
  intr_set_level old_level.

(** [fuel] bounds the wait for the hardware. *)
Definition putc_poll (fuel : nat) (byte : Z) : M dev unit :=
  assert_off ;;
  loop fuel (λ _, v ← inb LSR_REG; mret (if Z.land v LSR_THRE =? 0 then inl tt else inr tt)) tt ;;
  outb THR_REG byte.
(** A byte of the queue, which is not empty here. *)
Definition next_byte : M dev Z :=
  o ← on_txq intq_getc;
  match o with Done b => mret b | Stop _ => fail Sleep end.

Definition serial_putc_end (old_level : bool) (o : outcome unit) : M dev (outcome unit) :=
  match o with
  | Done _ => write_ier ;; intr_set_level old_level ;; mret (Done tt)
  | Stop p => mret (Stop p)
  end.
Definition serial_putc (fuel : nat) (byte : Z) : M dev (outcome unit) :=
  old_level ← intr_disable;
  md ← gets mode;
  if decide (md = QUEUE) then
    (f ← (if old_level : bool then on_txq intq_full else mret false);
     if f : bool then b ← next_byte; putc_poll fuel b else mret tt) ;;
    o ← on_txq (intq_putc byte);
    serial_putc_end old_level o
  else
    (if decide (md = UNINIT) then init_poll else mret tt) ;;
    putc_poll fuel byte ;;
    intr_set_level old_level ;;
    mret (Done tt).
Definition serial_putc_resume (byte : Z) (old_level : bool) (p : point) : M dev (outcome unit) :=
  o ← on_txq (putc_resume byte p);
  serial_putc_end old_level o.

(** The queue holds at most 63 bytes. *)
Definition serial_flush (fuel : nat) : M dev unit :=
  old_level ← intr_disable;
  loop 64 (λ _,
    e ← on_txq intq_empty;
    if e : bool then mret (inr tt) else b ← next_byte; putc_poll fuel b ;; mret (inl tt)) tt ;;
  intr_set_level old_level.

(** Each turn of the first loop fills the input buffer, each turn of the
    second one empties the queue. *)
Definition serial_interrupt : M dev unit :=
  _ ← inb IIR_REG;
  loop 64 (λ _,
    f ← input_full;
    if f : bool then mret (inr tt)
    else
      v ← inb LSR_REG;
      if Z.land v LSR_DR =? 0 then mret (inr tt)
      else b ← inb RBR_REG; input_putc b ;; mret (inl tt)) tt ;;
  loop 64 (λ _,
    e ← on_txq intq_empty;
    if e : bool then mret (inr tt)
    else
      v ← inb LSR_REG;
      if Z.land v LSR_THRE =? 0 then mret (inr tt)
      else b ← next_byte; outb THR_REG b ;; mret (inl tt)) tt ;;
  write_ier.

(** ** The keyboard *)

Definition DATA_REG : Z := 0x60.

(** A scancode and the characters of it and of those behind it. *)
Definition invariant_keymap : list (Z * list Z) :=
  [(0x01, [27]); (0x0e, [8]); (0x0f, 9 :: Stdio.chars "QWERTYUIOP"); (0x1c, [13]); (0x1e, Stdio.chars "ASDFGHJKL");
   (0x2c, Stdio.chars "ZXCVBNM"); (0x37, Stdio.chars "*"); (0x39, Stdio.chars " "); (0x53, [127])].
Definition unshifted_keymap : list (Z * list Z) :=
  [(0x02, Stdio.chars "1234567890-="); (0x1a, Stdio.chars "[]"); (0x27, Stdio.chars ";'`"); (0x2b, [92]); (0x33, Stdio.chars ",./")].
Definition shifted_keymap : list (Z * list Z) :=
  [(0x02, Stdio.chars "!@#$%^&*()_+"); (0x1a, Stdio.chars "{}"); (0x27, [58; 34; 126]); (0x2b, Stdio.chars "|"); (0x33, Stdio.chars "<>?")].

Fixpoint map_key (k : list (Z * list Z)) (scancode : Z) : option Z :=
  match k with
  | [] => None
  | (first, cs) :: k =>
      if (first <=? scancode) && (scancode <? first + Z.of_nat (length cs)) then cs !! Z.to_nat (scancode - first)
      else map_key k scancode
  end.

(** lib/ctype.h *)
Definition isupper (c : Z) : bool := (65 <=? c) && (c <=? 90).
Definition tolower (c : Z) : Z := if isupper c then c - 65 + 97 else c.

Inductive shift_key := LeftShift | RightShift | LeftAlt | RightAlt | LeftCtrl | RightCtrl.
Definition shift_keys : list (Z * shift_key) :=
  [(0x2a, LeftShift); (0x36, RightShift); (0x38, LeftAlt); (0xe038, RightAlt); (0x1d, LeftCtrl); (0xe01d, RightCtrl)].
Definition set_shift (key : shift_key) (v : bool) (k : keyboard) : keyboard :=
  let '(mk_keyboard ls rs la ra lc rc cl n) := k in
  match key with
  | LeftShift => mk_keyboard v rs la ra lc rc cl n
  | RightShift => mk_keyboard ls v la ra lc rc cl n
  | LeftAlt => mk_keyboard ls rs v ra lc rc cl n
  | RightAlt => mk_keyboard ls rs la v lc rc cl n
  | LeftCtrl => mk_keyboard ls rs la ra v rc cl n
  | RightCtrl => mk_keyboard ls rs la ra lc v cl n
  end.
Definition set_caps (v : bool) (k : keyboard) : keyboard :=
  mk_keyboard (left_shift k) (right_shift k) (left_alt k) (right_alt k) (left_ctrl k) (right_ctrl k) v (key_cnt k).
Definition add_key (k : keyboard) : keyboard :=
  mk_keyboard (left_shift k) (right_shift k) (left_alt k) (right_alt k) (left_ctrl k) (right_ctrl k) (caps_lock k) (s64 (key_cnt k + 1)).
Definition upd_kbd (f : keyboard → keyboard) : M dev unit :=
  modify (λ s, mk_dev (txq s) (buffer s) (mode s) (thrs s) (f (kbd s)) (handlers s) (hw s)).
Definition shift (k : keyboard) : bool := left_shift k || right_shift k.
Definition alt (k : keyboard) : bool := left_alt k || right_alt k.
Definition ctrl (k : keyboard) : bool := left_ctrl k || right_ctrl k.

(** The character for a key that is pressed. *)
Definition key_char (k : keyboard) (c : Z) : Z :=
  let c := if ctrl k && (0x40 <=? c) && (c <? 0x60) then c - 0x40
           else if Bool.eqb (shift k) (caps_lock k) then tolower c else c in
  if alt k then u8 (c + 0x80) else c.
Definition find_key (k : keyboard) (code : Z) : option Z :=
  match map_key invariant_keymap code with
  | Some c => Some c
  | None => if shift k then map_key shifted_keymap code else map_key unshifted_keymap code
  end.

Context (shutdown_reboot : M dev unit).

Definition keyboard_interrupt : M dev unit :=
  k ← gets kbd;
  code ← inb DATA_REG;
  code ← (if code =? 0xe0 then b ← inb DATA_REG; mret (Z.lor (Z.shiftl code 8) b) else mret code);
  let release := negb (Z.land code 0x80 =? 0) in
  let code := Z.ldiff code 0x80 in
  if code =? 0x3a then
    if release then mret tt else upd_kbd (set_caps (negb (caps_lock k)))
  else
    match find_key k code with
    | Some c =>
        if release then mret tt
        else
          (if (c =? 127) && ctrl k && alt k then shutdown_reboot else mret tt) ;;
          f ← input_full;
          if f : bool then mret tt else upd_kbd add_key ;; input_putc (key_char k c)
    | None =>
        match list_find (λ x, x.1 = code) shift_keys with
        | Some (_, (_, key)) => upd_kbd (set_shift key (negb release))
        | None => mret tt
        end
    end.
Definition kbd_init : M dev unit := intr_register_ext 0x21.
End serial.
End Serial.
