(* ===== verification/SerialProps.v ===== *)
(** * The serial port as two streams of bytes *)
From stdpp Require Import base gmap sets list list_numbers.
From Stdlib Require Import ZArith Lia.
From S2P Require Import Prelude Intq IntqProps Serial.

Module SerialProps.
Import Intq IntqProps Serial.

(** ** The hardware

    What the driver relies on of a 16550A: the bytes that have been sent and
    read so far, the byte that is ready in the receiver buffer register, the
    interrupt enable register, the divisor latch bit, and the number of times
    that the line status register still shows a busy transmitter.

    Nothing is said of a write to the transmitter holding register while it
    is not empty, which loses a byte, nor of a read of the receiver buffer
    register when no byte is ready.  The line status register tells both: if
    it shows an empty holding register or a byte that is ready, this is still
    so after the register has been read. *)
Class Uart (D : Type) := {
  uart_in : Z → D → Z * D;
  uart_out : Z → Z → D → D;
  sent : D → list Z;
  received : D → list Z;
  ier : D → Z;
  dlab : D → bool;
  busy : D → nat;
  data : D → option Z;
  uart_lsr d : ∃ v d', uart_in LSR_REG d = (v, d') ∧ (Z.land v LSR_THRE = 0 ↔ busy d ≠ 0%nat) ∧ busy d' = pred (busy d)
    ∧ (Z.land v LSR_DR ≠ 0 → is_Some (data d'))
    ∧ sent d' = sent d ∧ received d' = received d ∧ ier d' = ier d ∧ dlab d' = dlab d;
  uart_iir d : ∃ v d', uart_in IIR_REG d = (v, d') ∧ sent d' = sent d ∧ received d' = received d ∧ ier d' = ier d ∧ dlab d' = dlab d;
  uart_rbr b d : dlab d = false → data d = Some b → ∃ d', uart_in RBR_REG d = (b, d') ∧ received d' = received d ++ [b]
    ∧ sent d' = sent d ∧ ier d' = ier d ∧ dlab d' = dlab d;
  uart_thr b d : dlab d = false → busy d = 0%nat → let d' := uart_out THR_REG b d in
    sent d' = sent d ++ [b] ∧ received d' = received d ∧ ier d' = ier d ∧ dlab d' = dlab d;
  uart_ier v d : dlab d = false → let d' := uart_out IER_REG v d in
    ier d' = v ∧ sent d' = sent d ∧ received d' = received d ∧ dlab d' = dlab d;
  uart_lcr v d : let d' := uart_out LCR_REG v d in dlab d' = Z.testbit v 7 ∧ sent d' = sent d ∧ received d' = received d;
  uart_divisor port v d : dlab d = true → port = LS_REG ∨ port = MS_REG →
    let d' := uart_out port v d in dlab d' = true ∧ sent d' = sent d ∧ received d' = received d;
  uart_control port v d : port = FCR_REG ∨ port = MCR_REG →
    let d' := uart_out port v d in dlab d' = dlab d ∧ sent d' = sent d ∧ received d' = received d
}.

Section serial.
Context {D : Type} {U : Uart D} (fuel : nat).
Hypothesis ready_soon : ∀ d : D, (busy d < fuel)%nat.
Abbreviation dev := (@dev D).

Definition set_hw (d : D) (s : dev) : dev := mk_dev (txq s) (buffer s) (mode s) (thrs s) (kbd s) (handlers s) d.
Definition set_tx (k : st) (s : dev) : dev := mk_dev (q k) (buffer s) (mode s) (thr k) (kbd s) (handlers s) (hw s).
Definition set_rx (k : st) (s : dev) : dev := mk_dev (txq s) (q k) (mode s) (thr k) (kbd s) (handlers s) (hw s).
Abbreviation tx s := (mk_st (txq s) (thrs s)).
Abbreviation rx s := (mk_st (buffer s) (thrs s)).

(** The hardware has only been looked at. *)
Definition quiet (d d' : D) : Prop := sent d' = sent d ∧ received d' = received d ∧ ier d' = ier d ∧ dlab d' = dlab d.

(** ** Steps *)

Lemma wp_on_txq {A} (m : M st A) (Q : A → dev → Prop) s a k : m (tx s) = Ok (a, k) → Q a (set_tx k s) → wp (on_txq m) Q s.
Proof. intros E HQ. unfold on_txq. apply wp_zoom. by apply (wp_eq _ _ _ a k). Qed.
Lemma wp_on_buffer {A} (m : M st A) (Q : A → dev → Prop) s a k : m (rx s) = Ok (a, k) → Q a (set_rx k s) → wp (on_buffer m) Q s.
Proof. intros E HQ. unfold on_buffer. apply wp_zoom. by apply (wp_eq _ _ _ a k). Qed.
Lemma wp_inb port v d s (Q : Z → dev → Prop) : uart_in port (hw s) = (v, d) → Q v (set_hw d s) → wp (inb uart_in port) Q s.
Proof. intros E HQ. unfold wp, inb. by rewrite E. Qed.
Lemma wp_outb port v s (Q : unit → dev → Prop) : 0 ≤ v < 256 → Q tt (set_hw (uart_out port v (hw s)) s) → wp (outb uart_out port v) Q s.
Proof. intros Hv HQ. apply wp_modify. by rewrite u8_small. Qed.
Lemma wp_assert_off (Q : unit → dev → Prop) s : intr_off (thrs s) = true → Q tt s → wp assert_off Q s.
Proof. intros Ho HQ. apply wp_bind, wp_gets. by apply wp_ASSERT. Qed.

Lemma must_wait_tx w (Q : bool → dev → Prop) s :
  intr_off (thrs s) = true → Q (cond w (txq s)) s → wp (on_txq (must_wait w)) Q s.
Proof. intros Ho HQ. apply (wp_on_txq _ _ _ (cond w (txq s)) (tx s)); [by apply must_wait_eq | by destruct s]. Qed.
Lemma must_wait_rx w (Q : bool → dev → Prop) s :
  intr_off (thrs s) = true → Q (cond w (buffer s)) s → wp (on_buffer (must_wait w)) Q s.
Proof. intros Ho HQ. apply (wp_on_buffer _ _ _ (cond w (buffer s)) (rx s)); [by apply must_wait_eq | by destruct s]. Qed.
Lemma wp_input_full (Q : bool → dev → Prop) s :
  intr_off (thrs s) = true → Q (cond WNotFull (buffer s)) s → wp input_full Q s.
Proof. intros Ho HQ. apply wp_bind, wp_assert_off; [done|]. by apply (must_wait_rx WNotFull). Qed.

(** The interrupts that the driver wants: to send if there is something to
    send, and to receive if there is room. *)
Definition wanted (s : dev) : Z :=
  (if cond WNotEmpty (txq s) then 0 else IER_XMIT) + (if cond WNotFull (buffer s) then 0 else IER_RECV).
Lemma wp_write_ier (Q : unit → dev → Prop) s :
  intr_off (thrs s) = true → Q tt (set_hw (uart_out IER_REG (wanted s) (hw s)) s) → wp (write_ier uart_out) Q s.
Proof.
  intros Ho HQ. unfold write_ier. apply wp_bind, wp_assert_off; [done|]. apply wp_bind. apply (must_wait_tx WNotEmpty); [done|].
  apply wp_bind, wp_input_full; [done|].
  assert ((if cond WNotFull (buffer s) then if cond WNotEmpty (txq s) then 0 else IER_XMIT
           else Z.lor (if cond WNotEmpty (txq s) then 0 else IER_XMIT) IER_RECV) = wanted s) as ->
    by (unfold wanted; by destruct (cond WNotFull (buffer s)), (cond WNotEmpty (txq s))).
  apply wp_outb; [|done]. unfold wanted. by destruct (cond WNotFull (buffer s)), (cond WNotEmpty (txq s)).
Qed.
Lemma wp_notify (Q : unit → dev → Prop) s :
  intr_off (thrs s) = true → mode s = QUEUE → Q tt (set_hw (uart_out IER_REG (wanted s) (hw s)) s) → wp (serial_notify uart_out) Q s.
Proof.
  intros Ho Hm HQ. unfold serial_notify. apply wp_bind, wp_assert_off; [done|]. apply wp_bind, wp_gets. rewrite decide_True by done. by apply wp_write_ier.
Qed.
Lemma wp_set_level old s (Q : unit → dev → Prop) :
  intr_context (thrs s) = false ∨ old = true →
  Q tt (mk_dev (txq s) (buffer s) (mode s) (mk_threads (cur (thrs s)) (blocked (thrs s)) old (intr_context (thrs s))) (kbd s) (handlers s) (hw s)) →
  wp (intr_set_level old) Q s.
Proof.
  intros Hc HQ. unfold intr_set_level. destruct old; [by apply wp_modify|]. destruct Hc as [Hc|]; [|done].
  apply wp_bind, wp_gets. apply wp_bind, wp_ASSERT; [by cbn; rewrite Hc|]. by apply wp_modify.
Qed.

Lemma wp_putc_poll b s (Q : unit → dev → Prop) :
  intr_off (thrs s) = true → 0 ≤ b < 256 → (∀ d, quiet (hw s) d → busy d = 0%nat → Q tt (set_hw (uart_out THR_REG b d) s)) →
  wp (putc_poll uart_in uart_out fuel b) Q s.
Proof.
  intros Ho Hb HQ. unfold putc_poll. apply wp_bind, wp_assert_off; [done|]. apply wp_bind.
  apply (wp_loop (λ _ s', ∃ d, s' = set_hw d s ∧ quiet (hw s) d) (λ _ s', busy (hw s'))); [| |apply ready_soon].
  - intros [] s' (d & -> & Hq). destruct (uart_lsr d) as (v & d' & E & Hv & Hbusy & _ & Hs & Hr & Hi & Hd). apply wp_bind.
    apply (wp_inb _ v d'); [done|]. apply wp_ret. unfold quiet in *.
    destruct (Z.eqb_spec (Z.land v LSR_THRE) 0) as [Ev|Ev].
    + split; [exists d'; split; [done|]; naive_solver congruence|]. cbn. apply Hv in Ev. lia.
    + apply (wp_outb THR_REG b); [done|]. apply (HQ d'); [naive_solver congruence|]. rewrite Hbusy. destruct (busy d); [done|]. by destruct Ev; apply Hv.
  - exists (hw s). by destruct s.
Qed.

(** ** The state of the driver

    [cs1] and [cs2] are the threads that wait for the transmit queue and for
    the input buffer. *)
Definition byte (b : Z) : Prop := 0 ≤ b < 256.
Record di (s : dev) (cs1 cs2 : gmap Z (call * point)) : Prop := mk_di {
  di_tx : inv (txq s) (blocked (thrs s)) cs1;
  di_rx : inv (buffer s) (blocked (thrs s)) cs2;
  di_apart : ∀ t, is_Some (cs1 !! t) → cs2 !! t = None;
  di_mode : mode s = QUEUE;
  di_dlab : dlab (hw s) = false;
  di_bytes : Forall byte (contents (txq s))
}.
(** The thread that runs and the interrupt level stay; threads may have been
    woken up. *)
Definition same_thread (s s' : dev) : Prop :=
  cur (thrs s') = cur (thrs s) ∧ intr_off (thrs s') = intr_off (thrs s) ∧ intr_context (thrs s') = intr_context (thrs s)
  ∧ blocked (thrs s') ⊆ blocked (thrs s).
Lemma same_thread_trans s1 s2 s3 : same_thread s1 s2 → same_thread s2 s3 → same_thread s1 s3.
Proof. intros (? & ? & ? & ?) (? & ? & ? & ?). split_and!; try congruence. by etrans. Qed.

Lemma di_hw s cs1 cs2 d : di s cs1 cs2 → dlab d = false → di (set_hw d s) cs1 cs2.
Proof. intros []. by split. Qed.

Lemma result_inv {A} (f : A → option Z) m k o k' :
  with_result f m k = Ok (o, k') → ∃ o', m k = Ok (o', k') ∧ o = match o' with Done a => Done (f a) | Stop p => Stop p end.
Proof. unfold with_result, mbind, M_bind. destruct (m k) as [[o' k2]|]; [|done]. intros [= <- <-]. by exists o'. Qed.
Lemma done_inv {A} (f : A → option Z) m k r k' : with_result f m k = Ok (Done r, k') → ∃ a, m k = Ok (Done a, k') ∧ r = f a.
Proof. intros ([a|p] & E & Ho)%result_inv; [|done]. injection Ho as ->. by exists a. Qed.

(** A byte is taken from the transmit queue. *)
Lemma next_byte_ok s cs1 cs2 (Q : Z → dev → Prop) :
  di s cs1 cs2 → intr_off (thrs s) = true → cond WNotEmpty (txq s) = false →
  (∀ b s', di s' cs1 cs2 → contents (txq s) = b :: contents (txq s') → byte b → buffer s' = buffer s → hw s' = hw s → same_thread s s' → Q b s') →
  wp next_byte Q s.
Proof.
  intros Hdi Ho Hc HQ. pose proof Hdi as [Ht Hr Ha Hm Hd Hb].
  destruct (start_now (tx s) cs1 Getc Ht Ho Hc) as (r & k' & E & Hi & He & Hf & Hbl).
  destruct (done_inv _ _ _ _ _ E) as (b & E' & ->). cbn in He. unfold next_byte. apply wp_bind.
  apply (wp_on_txq _ _ _ _ _ E'). apply wp_ret. destruct Hf as (Hf1 & Hf2 & Hf3 & Hf4).
  rewrite He in Hb. apply Forall_cons in Hb as [Hbyte Hb]. apply HQ; try done. split; try done.
  eapply inv_frame; [exact Hr|]. intros t Ht'. cbn. symmetry. apply Hf4; [done|]. destruct (cs1 !! t) eqn:Et; [|done].
  destruct Ht' as [x Hx]. rewrite Ha in Hx; [done | by rewrite Et].
Qed.

(** A byte is put into the input buffer. *)
Lemma input_putc_ok key s cs1 cs2 (Q : unit → dev → Prop) :
  di s cs1 cs2 → intr_off (thrs s) = true → cond WNotFull (buffer s) = false →
  (∀ s', di s' cs1 cs2 → contents (buffer s') = contents (buffer s) ++ [key] → txq s' = txq s → same_thread s s' →
     sent (hw s') = sent (hw s) → received (hw s') = received (hw s) → ier (hw s') = wanted s' → Q tt s') →
  wp (input_putc uart_out key) Q s.
Proof.
  intros Hdi Ho Hc HQ. pose proof Hdi as [Ht Hr Ha Hm Hd Hb]. unfold input_putc. apply wp_bind, wp_assert_off; [done|].
  apply wp_bind. apply (must_wait_rx WNotFull); [done|]. rewrite Hc. apply wp_bind, wp_ASSERT; [done|].
  destruct (start_now (rx s) cs2 (Putc key) Hr Ho Hc) as (r & k' & E & Hi & He & Hf & Hbl).
  destruct (done_inv _ _ _ _ _ E) as ([] & E' & ->). cbn in He. apply wp_bind. apply (wp_on_buffer _ _ _ _ _ E').
  destruct Hf as (Hf1 & Hf2 & Hf3 & Hf4). cbn in Hf1, Hf2, Hf3.
  assert (di (set_rx k' s) cs1 cs2) as Hdi'.
  { split; try done. eapply inv_frame; [exact Ht|]. intros t Ht'. cbn. symmetry. apply Hf4; [done|]. by apply Ha. }
  apply wp_notify; [cbn; congruence | done|]. destruct (uart_ier (wanted (set_rx k' s)) (hw s) Hd) as (U1 & U2 & U3 & U4).
  apply HQ; try done. apply di_hw; [done|]. cbn. congruence.
Qed.

(** All bytes that have been given to the driver to send. *)
Definition out (s : dev) : list Z := sent (hw s) ++ contents (txq s).
(** Bytes have moved along, but none is lost or added. *)
Record moved (s s' : dev) (cs1 cs2 : gmap Z (call * point)) : Prop := mk_moved {
  mv_di : di s' cs1 cs2;
  mv_out : out s' = out s;
  mv_in : ∃ new, received (hw s') = received (hw s) ++ new ∧ contents (buffer s') = contents (buffer s) ++ new;
  mv_thread : same_thread s s'
}.
Lemma moved_refl s cs1 cs2 : di s cs1 cs2 → moved s s cs1 cs2.
Proof. intros Hdi. split; [done | done | exists []; by rewrite !app_nil_r | done]. Qed.
Lemma moved_trans s1 s2 s3 cs1 cs2 : moved s1 s2 cs1 cs2 → moved s2 s3 cs1 cs2 → moved s1 s3 cs1 cs2.
Proof.
  intros [H1 H2 (n & H3 & H4) H5] [H1' H2' (n' & H3' & H4') H5']. split; [done | congruence | | by eapply same_thread_trans].
  exists (n ++ n'). rewrite H3', H3, H4', H4, !app_assoc. done.
Qed.
Lemma moved_quiet s d cs1 cs2 : di s cs1 cs2 → sent d = sent (hw s) → received d = received (hw s) → dlab d = dlab (hw s) → moved s (set_hw d s) cs1 cs2.
Proof.
  intros Hdi Hs Hr Hd. split; [apply di_hw; [done|]; rewrite Hd; apply Hdi | by unfold out; cbn; rewrite Hs | exists []; cbn; by rewrite !app_nil_r | done].
Qed.

Lemma write_ier_ok s cs1 cs2 (Q : unit → dev → Prop) :
  di s cs1 cs2 → intr_off (thrs s) = true →
  (∀ d, di (set_hw d s) cs1 cs2 → sent d = sent (hw s) → received d = received (hw s) → ier d = wanted s → Q tt (set_hw d s)) →
  wp (write_ier uart_out) Q s.
Proof.
  intros Hdi Ho HQ. apply wp_write_ier; [done|]. destruct (uart_ier (wanted s) (hw s) (di_dlab _ _ _ Hdi)) as (U1 & U2 & U3 & U4).
  apply HQ; try done. apply di_hw; [done|]. rewrite U4. apply Hdi.
Qed.

(** The loop that receives. *)
Lemma receive_ok s cs1 cs2 (Q : unit → dev → Prop) :
  di s cs1 cs2 → intr_off (thrs s) = true → (∀ s', moved s s' cs1 cs2 → Q tt s') →
  wp (loop 64 (λ _,
    f ← input_full;
    if f : bool then mret (inr tt)
    else
      v ← inb uart_in LSR_REG;
      if Z.land v LSR_DR =? 0 then mret (inr tt)
      else b ← inb uart_in RBR_REG; input_putc uart_out b ;; mret (inl tt)) tt) Q s.
Proof.
  intros Hdi Ho HQ.
  apply (wp_loop (λ _ s', moved s s' cs1 cs2) (λ _ s', 63 - length (contents (buffer s')))%nat); [| by apply moved_refl | lia].
  intros [] s1 Hmv. pose proof Hmv as [Hd1 _ _ (_ & Hoff & _)]. rewrite Ho in Hoff.
  apply wp_bind, wp_input_full; [done|]. destruct (cond WNotFull (buffer s1)) eqn:Hfull; [apply wp_ret; by apply HQ|].
  destruct (uart_lsr (hw s1)) as (v & d' & E & _ & _ & Hdr & Hs & Hr & _ & Hd). apply wp_bind. apply (wp_inb _ v d'); [done|].
  assert (moved s1 (set_hw d' s1) cs1 cs2) as Hm1 by (by apply moved_quiet).
  destruct (Z.eqb_spec (Z.land v LSR_DR) 0) as [|Hv]; [apply wp_ret; apply HQ; by eapply moved_trans|]. destruct (Hdr Hv) as [b Hb].
  destruct (uart_rbr b d') as (d2 & E2 & Hr2 & Hs2 & _ & Hd2); [rewrite Hd; apply Hd1 | done|]. apply wp_bind. apply (wp_inb _ b d2); [done|].
  apply wp_bind. eapply (input_putc_ok b _ cs1 cs2); [apply di_hw; [apply Hm1|]; rewrite Hd2, Hd; apply Hd1 | done | done|].
  intros s2 Hd2' Hcon Htx Hsame Hsent Hrec _. apply wp_ret. cbn in Hcon, Htx, Hsent, Hrec. split.
  - eapply moved_trans; [exact Hmv|]. split; [done | unfold out; congruence | exists [b]; split; congruence | done].
  - rewrite Hcon, length_app. cbn. pose proof (contents_bound _ (inv_wf _ _ _ (di_rx _ _ _ Hd1))) as Hbd.
    assert (length (contents (buffer s1)) ≠ 63%nat); [|lia]. intros E63. apply (cond_full _ (inv_wf _ _ _ (di_rx _ _ _ Hd1))) in E63. congruence.
Qed.

(** The loop that sends. *)
Lemma transmit_ok s cs1 cs2 (Q : unit → dev → Prop) :
  di s cs1 cs2 → intr_off (thrs s) = true → (∀ s', moved s s' cs1 cs2 → Q tt s') →
  wp (loop 64 (λ _,
    e ← on_txq intq_empty;
    if e : bool then mret (inr tt)
    else
      v ← inb uart_in LSR_REG;
      if Z.land v LSR_THRE =? 0 then mret (inr tt)
      else b ← next_byte; outb uart_out THR_REG b ;; mret (inl tt)) tt) Q s.
Proof.
  intros Hdi Ho HQ.
  apply (wp_loop (λ _ s', moved s s' cs1 cs2) (λ _ s', length (contents (txq s')))); [| by apply moved_refl |].
  2: { pose proof (contents_bound _ (inv_wf _ _ _ (di_tx _ _ _ Hdi))). lia. }
  intros [] s1 Hmv. pose proof Hmv as [Hd1 _ _ (_ & Hoff & _)]. rewrite Ho in Hoff.
  apply wp_bind. apply (must_wait_tx WNotEmpty); [done|]. destruct (cond WNotEmpty (txq s1)) eqn:Hemp; [apply wp_ret; by apply HQ|].
  destruct (uart_lsr (hw s1)) as (v & d' & E & Hthre & Hbusy & _ & Hs & Hr & _ & Hd). apply wp_bind. apply (wp_inb _ v d'); [done|].
  assert (moved s1 (set_hw d' s1) cs1 cs2) as Hm1 by (by apply moved_quiet).
  destruct (Z.eqb_spec (Z.land v LSR_THRE) 0) as [|Hv]; [apply wp_ret; apply HQ; by eapply moved_trans|].
  assert (busy d' = 0%nat) as Hempty by (rewrite Hbusy; destruct (busy (hw s1)); [done | by destruct Hv; apply Hthre]).
  apply wp_bind. eapply (next_byte_ok _ cs1 cs2); [apply Hm1 | done | done|]. intros b s2 Hd2 Hcon Hb Hbuf Hhw Hsame. cbn in Hcon, Hbuf, Hhw.
  apply wp_bind, wp_outb; [done|]. apply wp_ret. destruct (uart_thr b (hw s2)) as (U1 & U2 & U3 & U4); [apply Hd2 | by rewrite Hhw|]. split.
  - eapply moved_trans; [exact Hmv|]. split.
    + apply di_hw; [done|]. rewrite U4. apply Hd2.
    + unfold out. cbn. rewrite U1, Hcon, Hhw, Hs, <- app_assoc. done.
    + exists []. cbn. rewrite U2, Hhw, Hr, Hbuf, !app_nil_r. done.
    + done.
  - cbn. rewrite Hcon. cbn. lia.
Qed.

Lemma serial_interrupt_ok s cs1 cs2 (Q : unit → dev → Prop) :
  di s cs1 cs2 → intr_off (thrs s) = true → (∀ s', moved s s' cs1 cs2 → ier (hw s') = wanted s' → Q tt s') →
  wp (serial_interrupt uart_in uart_out) Q s.
Proof.
  intros Hdi Ho HQ. unfold serial_interrupt. destruct (uart_iir (hw s)) as (v & d' & E & Hs & Hr & _ & Hd).
  apply wp_bind. apply (wp_inb _ v d'); [done|]. assert (moved s (set_hw d' s) cs1 cs2) as Hm1 by (by apply moved_quiet).
  apply wp_bind. eapply (receive_ok _ cs1 cs2); [apply Hm1 | done|]. intros s2 Hm2. assert (intr_off (thrs s2) = true) as Ho2 by (destruct Hm2 as [_ _ _ (_ & -> & _)]; done).
  apply wp_bind. eapply (transmit_ok _ cs1 cs2); [apply Hm2 | done|]. intros s3 Hm3. assert (intr_off (thrs s3) = true) as Ho3 by (destruct Hm3 as [_ _ _ (_ & -> & _)]; done).
  eapply (write_ier_ok _ cs1 cs2); [apply Hm3 | done|]. intros d4 Hd4 Hs4 Hr4 Hier. apply HQ; [|done].
  eapply moved_trans; [exact Hm1|]. eapply moved_trans; [exact Hm2|]. eapply moved_trans; [exact Hm3|].
  apply moved_quiet; [apply Hm3 | done | done|]. rewrite (di_dlab _ _ _ (mv_di _ _ _ _ Hm3)). apply Hd4.
Qed.

(** ** One thread that writes and one that reads *)

Context (tw tr : Z).
Hypothesis tw_tr : tw ≠ tr.
Definition writing (w : option Z) : gmap Z (call * point) := match w with Some b => {[tw := (Putc b, AtWait)]} | None => ∅ end.
Definition reading (r : bool) : gmap Z (call * point) := if r then {[tr := (Getc, AtWait)]} else ∅.
Lemma apart w r t : is_Some (writing w !! t) → reading r !! t = None.
Proof.
  intros [x Hx]. destruct w as [b|]; cbn in Hx; [|by rewrite lookup_empty in Hx]. apply lookup_singleton_Some in Hx as [<- _].
  destruct r; [|apply lookup_empty]. by apply lookup_singleton_ne.
Qed.
Lemma reading_tw r : reading r !! tw = None.
Proof. destruct r; [by apply lookup_singleton_ne | apply lookup_empty]. Qed.
Lemma writing_tr w : writing w !! tr = None.
Proof. destruct w; [by apply lookup_singleton_ne | apply lookup_empty]. Qed.
Lemma writing_none t : writing None !! t = None.
Proof. apply lookup_empty. Qed.
Lemma apart' w r t : is_Some (reading r !! t) → writing w !! t = None.
Proof. intros [x Hx]. destruct (writing w !! t) eqn:E; [|done]. rewrite (apart w r t) in Hx; [done | by rewrite E]. Qed.

(** The interrupts that the driver needs are enabled. *)
Definition armed (s : dev) : Prop :=
  (contents (txq s) ≠ [] → Z.testbit (ier (hw s)) 1 = true) ∧ ((length (contents (buffer s)) < 63)%nat → Z.testbit (ier (hw s)) 0 = true).
Lemma wanted_armed s cs1 cs2 : di s cs1 cs2 → ier (hw s) = wanted s → armed s.
Proof.
  intros Hdi Hier. unfold armed. rewrite Hier. unfold wanted. pose proof (cond_empty _ (inv_wf _ _ _ (di_tx _ _ _ Hdi))) as He.
  pose proof (cond_full _ (inv_wf _ _ _ (di_rx _ _ _ Hdi))) as Hf. split; intros Hc.
  - destruct (cond WNotEmpty (txq s)); [naive_solver|]. by destruct (cond WNotFull (buffer s)).
  - destruct (cond WNotFull (buffer s)); [destruct Hf as [Hf _]; specialize (Hf eq_refl); lia|]. by destruct (cond WNotEmpty (txq s)).
Qed.

(** What holds of the driver between the events: [w] and [r] tell whether the
    threads wait, and the register for interrupts is up to date. *)
Record ready (s : dev) (w : option Z) (r : bool) : Prop := mk_ready {
  rd_di : di s (writing w) (reading r);
  rd_writer : w = None → tw ∉ blocked (thrs s);
  rd_reader : r = false → tr ∉ blocked (thrs s);
  rd_ier : armed s
}.
Definition enter (t : Z) (off ctx : bool) (s : dev) : dev :=
  mk_dev (txq s) (buffer s) (mode s) (mk_threads t (blocked (thrs s)) off ctx) (kbd s) (handlers s) (hw s).
Lemma di_enter t off ctx s cs1 cs2 : di s cs1 cs2 → di (enter t off ctx s) cs1 cs2.
Proof. intros []. by split. Qed.

(** The input side is not touched. *)
Definition same_in (s s' : dev) : Prop := received (hw s') = received (hw s) ∧ contents (buffer s') = contents (buffer s).
Definition same_out (s s' : dev) : Prop := out s' = out s.

(** The end of [serial_putc], with the result [o] of [intq_putc]. *)
Lemma putc_end_ok b old w o k' s r (Q : outcome unit → dev → Prop) :
  di s (writing w) (reading r) → intr_off (thrs s) = true → intr_context (thrs s) = false → cur (thrs s) = tw →
  tw ∉ blocked (thrs s) → (r = false → tr ∉ blocked (thrs s)) → byte b → armed s ∨ o = Done tt →
  stepped tw (Putc b) ∅ (tx s) (match o with Done _ => Done None | Stop p => Stop p end) k' →
  (∀ s', ready s' None r → out s' = out s ++ [b] → same_in s s' → o = Done tt → Q (Done tt) s') →
  (∀ s', ready s' (Some b) r → out s' = out s → same_in s s' → o = Stop AtWait → Q (Stop AtWait) s') →
  wp (serial_putc_end uart_out old o) Q (set_tx k' s).
Proof.
  intros Hdi Ho Hx Hcur Hnb Hrd Hb Hier Hs HQ1 HQ2. destruct o as [[]|p].
  - destruct Hs as (Hi & He & (Hf1 & Hf2 & Hf3 & Hf4) & Hbl). cbn in He, Hf1, Hf2, Hf3, Hbl.
    assert (di (set_tx k' s) (writing None) (reading r)) as Hdi'.
    { split; [done | | apply apart | apply Hdi | apply Hdi |].
      - eapply inv_frame; [apply Hdi|]. intros t _. cbn. symmetry. by apply Hf4.
      - cbn. rewrite He. apply Forall_app. split; [apply Hdi | by constructor]. }
    cbn [serial_putc_end]. apply wp_bind. eapply write_ier_ok; [exact Hdi' | cbn; congruence|]. intros d Hd Hsent Hrec Hi2. cbn in Hsent, Hrec.
    apply wp_bind, wp_set_level; [left; cbn in *; congruence|]. apply wp_ret. apply HQ1; [| |done|done].
    + split; [by destruct Hd; split | cbn; set_solver | intros ?; cbn; set_solver | by eapply (wanted_armed _ _ _ Hd)].
    + unfold out. cbn. by rewrite Hsent, He, app_assoc.
  - destruct Hs as (Hi & He & Hl & (Hf1 & Hf2 & Hf3 & Hf4)). destruct p; [destruct (Hl eq_refl) as (h & c' & Hh); by rewrite lookup_empty in Hh|].
    cbn [serial_putc_end]. apply wp_ret. apply HQ2; [| |done|done].
    + assert (∀ u, u ≠ tw → u ∈ blocked (thr k') ↔ u ∈ blocked (thrs s)) as Hbl by (intros u Hu; apply Hf4; [congruence | apply lookup_empty]).
      split; [| done | |].
      * split; [done | | apply apart | apply Hdi | apply Hdi |].
        -- eapply inv_frame; [apply Hdi|]. intros t Ht. cbn. symmetry. apply Hbl. intros ->.
           destruct Ht as [x Ht]. by rewrite reading_tw in Ht.
        -- cbn in *. rewrite He. apply Hdi.
      * intros Hr. cbn. rewrite Hbl by done. by apply Hrd.
      * destruct Hier as [[Ha1 Ha2]|]; [|done]. split; cbn in *; [by rewrite He | done].
    + unfold out. cbn in *. by rewrite He.
Qed.

Lemma disable_ok t off s (Q : bool → dev → Prop) :
  Q off (enter t true false s) → wp intr_disable Q (enter t off false s).
Proof. intros HQ. unfold intr_disable. apply wp_bind, wp_gets. apply wp_bind, wp_modify. by apply wp_ret. Qed.

(** The result of [intq_putc], when it is called and when it goes on. *)
Lemma putc_start s r b :
  di s (writing None) (reading r) → intr_off (thrs s) = true → intr_context (thrs s) = false → cur (thrs s) = tw → tw ∉ blocked (thrs s) →
  ∃ o k', intq_putc b (tx s) = Ok (o, k') ∧ stepped tw (Putc b) ∅ (tx s) (match o with Done _ => Done None | Stop p => Stop p end) k'
    ∧ (cond WNotFull (txq s) = false → o = Done tt).
Proof.
  intros Hdi Ho Hx Hcur Hnb. destruct (cond WNotFull (txq s)) eqn:Hc.
  - destruct (start_ok (tx s) ∅ (di_tx _ _ _ Hdi) Ho (Putc b) Hx) as (o & k' & E & Hs); [apply writing_none | cbn; congruence|].
    rewrite <- start_eq in E by done. destruct (result_inv _ _ _ _ _ E) as (o' & E' & ->). exists o', k'. split; [done|]. split; [|done].
    cbn in Hs. rewrite Hcur in Hs. by destruct o'.
  - destruct (start_now (tx s) ∅ (Putc b) (di_tx _ _ _ Hdi) Ho Hc) as (x & k' & E & Hs).
    destruct (done_inv _ _ _ _ _ E) as ([] & E' & ->). exists (Done tt), k'. split; [done|]. split; [exact Hs | done].
Qed.

Lemma serial_putc_ok b off s r (Q : outcome unit → dev → Prop) :
  ready s None r → byte b →
  (∀ s', ready s' None r → out s' = out s ++ [b] → same_in s s' → Q (Done tt) s') →
  (∀ s', ready s' (Some b) r → out s' = out s → same_in s s' → off = false → Q (Stop AtWait) s') →
  wp (serial_putc uart_in uart_out fuel b) Q (enter tw off false s).
Proof.
  intros [Hdi Hw Hr Hier] Hb HQ1 HQ2. specialize (Hw eq_refl). unfold serial_putc. apply wp_bind, disable_ok. apply wp_bind, wp_gets.
  rewrite decide_True by apply Hdi. apply wp_bind.
  pose (P := λ s1 : dev, di s1 (writing None) (reading r) ∧ out s1 = out s ∧ same_in s s1 ∧ same_thread (enter tw true false s) s1
    ∧ (armed s1 ∨ cond WNotFull (txq s1) = false) ∧ (off = true → cond WNotFull (txq s1) = false)).
  assert (∀ s1, P s1 → wp (o ← on_txq (intq_putc b); serial_putc_end uart_out off o) Q s1) as Hend.
  { intros s1 (Hd1 & Ho1 & Hin1 & (Ht1 & Ht2 & Ht3 & Ht4) & Hor & Hoff). cbn in Ht1, Ht2, Ht3, Ht4.
    destruct (putc_start s1 r b Hd1 Ht2 Ht3 Ht1) as (o & k' & E & Hs & Hdone); [set_solver|]. apply wp_bind. apply (wp_on_txq _ _ _ _ _ E).
    eapply (putc_end_ok b off None); try done; [set_solver | intros ?; set_solver | naive_solver | | ].
    - intros s' Hrd Hout Hin _. apply HQ1; [done | congruence|]. unfold same_in in *. naive_solver congruence.
    - intros s' Hrd Hout Hin Hstop. apply HQ2; [done | congruence | unfold same_in in *; naive_solver congruence |].
      destruct off; [|done]. specialize (Hdone (Hoff eq_refl)). congruence. }
  destruct off.
  - apply wp_bind. apply (must_wait_tx WNotFull); [done|]. destruct (cond WNotFull (txq (enter tw true false s))) eqn:Hfull.
    + assert (cond WNotEmpty (txq s) = false) as Hne.
      { destruct (cond WNotEmpty (txq s)) eqn:E; [|done]. apply cond_empty in E; [|apply Hdi]. apply cond_full in Hfull; [|apply Hdi].
        cbn in Hfull. by rewrite E in Hfull. }
      apply wp_bind. eapply next_byte_ok; [by apply di_enter | done | done|]. intros b0 s1 Hd1 Hcon Hb0 Hbuf Hhw Hsame.
      pose proof Hsame as (_ & Hoff1 & _). apply wp_putc_poll; [done | done|]. intros d (Hq1 & Hq2 & Hq3 & Hq4) Hempty.
      destruct (uart_thr b0 d) as (U1 & U2 & U3 & U4); [rewrite Hq4; apply Hd1 | done|]. apply Hend. cbn in Hcon, Hbuf, Hhw. split_and!.
      * apply di_hw; [done|]. rewrite U4, Hq4. apply Hd1.
      * unfold out. cbn. rewrite U1, Hq1, Hhw, Hcon, <- app_assoc. done.
      * split; cbn; congruence.
      * done.
      * right. cbn. destruct (cond WNotFull (txq s1)) eqn:E; [|done]. apply cond_full in E; [|apply Hd1].
        apply cond_full in Hfull; [|apply Hdi]. cbn in Hfull. rewrite Hcon in Hfull. cbn in Hfull. lia.
      * intros _. cbn. destruct (cond WNotFull (txq s1)) eqn:E; [|done]. apply cond_full in E; [|apply Hd1].
        apply cond_full in Hfull; [|apply Hdi]. cbn in Hfull. rewrite Hcon in Hfull. cbn in Hfull. lia.
    + apply wp_ret. apply Hend. split_and!; try done. by apply di_enter. by left.
  - apply wp_bind, wp_ret. apply wp_ret. apply Hend. split_and!; try done. by apply di_enter. by left.
Qed.

Lemma serial_putc_resume_ok b old s r (Q : outcome unit → dev → Prop) :
  ready s (Some b) r → tw ∉ blocked (thrs s) → byte b →
  (∀ s', ready s' None r → out s' = out s ++ [b] → same_in s s' → Q (Done tt) s') →
  (∀ s', ready s' (Some b) r → out s' = out s → same_in s s' → Q (Stop AtWait) s') →
  wp (serial_putc_resume uart_out b old AtWait) Q (enter tw true false s).
Proof.
  intros [Hdi _ Hr Hier] Hnb Hb HQ1 HQ2. unfold serial_putc_resume.
  destruct (resume_wait_ok (tx (enter tw true false s)) (writing (Some b)) (Putc b)) as (o & k' & E & Hs);
    [apply Hdi | done | done | apply lookup_singleton_eq | done |].
  rewrite <- resume_eq in E. destruct (result_inv _ _ _ _ _ E) as (o' & E' & ->). cbn [thr cur enter thrs] in Hs.
  assert (delete tw (writing (Some b)) = ∅) as Hdel by (apply delete_singleton_eq). rewrite Hdel in Hs.
  apply wp_bind. apply (wp_on_txq _ _ _ _ _ E').
  eapply (putc_end_ok b old (Some b) o' k' (enter tw true false s) r); try done; [by apply di_enter | by left | |].
  - intros s' Hrd Hout Hin _. by apply HQ1.
  - intros s' Hrd Hout Hin _. by apply HQ2.
Qed.

(** [serial_flush] sends everything; it leaves the interrupt register alone. *)
Lemma serial_flush_ok t off s w r (Q : unit → dev → Prop) :
  ready s w r → (∀ s', ready s' w r → out s' = out s → contents (txq s') = [] → same_in s s' → Q tt s') →
  wp (serial_flush uart_in uart_out fuel) Q (enter t off false s).
Proof.
  intros [Hdi Hw Hr [Ha1 Ha2]] HQ. unfold serial_flush. apply wp_bind, disable_ok. apply wp_bind.
  apply (wp_loop (λ _ s1, di s1 (writing w) (reading r) ∧ out s1 = out s ∧ same_in s s1 ∧ same_thread (enter t true false s) s1
             ∧ ier (hw s1) = ier (hw s))
           (λ _ s1, length (contents (txq s1)))).
  - intros [] s1 (Hd1 & Ho1 & Hin1 & Hsame & Hie). pose proof Hsame as (_ & Hoff1 & Hctx1 & Hbl1). cbn in Hoff1, Hctx1, Hbl1.
    apply wp_bind. apply (must_wait_tx WNotEmpty); [done|]. destruct (cond WNotEmpty (txq s1)) eqn:Hemp.
    + apply wp_ret. apply cond_empty in Hemp; [|apply Hd1]. apply wp_set_level; [by left|]. apply HQ; [| done | done | done].
      split; cbn; [by destruct Hd1; split | intros Hn; specialize (Hw Hn); set_solver | intros Hn; specialize (Hr Hn); set_solver|].
      split; cbn; [done|]. rewrite Hie. destruct Hin1 as [_ ->]. done.
    + apply wp_bind. eapply next_byte_ok; [exact Hd1 | done | done|]. intros b0 s2 Hd2 Hcon Hb0 Hbuf Hhw Hsame2.
      pose proof Hsame2 as (_ & Hoff2 & _). apply wp_bind, wp_putc_poll; [congruence | done|]. intros d (Hq1 & Hq2 & Hq3 & Hq4) Hempty.
      destruct (uart_thr b0 d) as (U1 & U2 & U3 & U4); [rewrite Hq4; apply Hd2 | done|]. apply wp_ret. split; [|cbn; rewrite Hcon; cbn; lia]. split_and!.
      * apply di_hw; [done|]. rewrite U4, Hq4. apply Hd2.
      * rewrite <- Ho1. unfold out. cbn. rewrite U1, Hq1, Hhw, Hcon, <- app_assoc. done.
      * unfold same_in in *. cbn. split; naive_solver congruence.
      * by eapply same_thread_trans.
      * cbn. congruence.
  - split_and!; try done. by apply di_enter.
  - cbn. pose proof (contents_bound _ (inv_wf _ _ _ (di_tx _ _ _ Hdi))). lia.
Qed.

Lemma reading_none t : reading false !! t = None.
Proof. apply lookup_empty. Qed.

(** The end of [input_getc], with the result [o] of [intq_getc]. *)
Lemma getc_end_ok old w o k' s r (Q : outcome Z → dev → Prop) :
  di s (writing w) (reading r) → intr_off (thrs s) = true → intr_context (thrs s) = false → cur (thrs s) = tr →
  tr ∉ blocked (thrs s) → (w = None → tw ∉ blocked (thrs s)) → armed s →
  stepped tr Getc ∅ (rx s) (match o with Done key => Done (Some key) | Stop p => Stop p end) k' →
  (∀ s' key, ready s' w false → out s' = out s → received (hw s') = received (hw s) → contents (buffer s) = key :: contents (buffer s') → Q (Done key) s') →
  (∀ s', ready s' w true → out s' = out s → same_in s s' → Q (Stop AtWait) s') →
  wp (input_getc_end uart_out old o) Q (set_rx k' s).
Proof.
  intros Hdi Ho Hx Hcur Hnb Hwr Harm Hs HQ1 HQ2. destruct o as [key|p].
  - destruct Hs as (Hi & He & (Hf1 & Hf2 & Hf3 & Hf4) & Hbl). cbn in He, Hf1, Hf2, Hf3, Hbl.
    assert (di (set_rx k' s) (writing w) (reading false)) as Hdi'.
    { split; [| done | apply apart | apply Hdi | apply Hdi | apply Hdi].
      eapply inv_frame; [apply Hdi|]. intros t _. cbn. symmetry. by apply Hf4. }
    cbn [input_getc_end]. apply wp_bind. unfold serial_notify. apply wp_bind, wp_assert_off; [cbn; congruence|]. apply wp_bind, wp_gets.
    rewrite decide_True by apply Hdi'. eapply write_ier_ok; [exact Hdi' | cbn; congruence|]. intros d Hd Hsent Hrec Hi2. cbn in Hsent, Hrec.
    apply wp_bind, wp_set_level; [left; cbn in *; congruence|]. apply wp_ret. apply HQ1; [| |done|done].
    + split; [by destruct Hd; split | intros ?; cbn; set_solver | cbn; set_solver | by eapply (wanted_armed _ _ _ Hd)].
    + unfold out. cbn. by rewrite Hsent.
  - destruct Hs as (Hi & He & Hl & (Hf1 & Hf2 & Hf3 & Hf4)). destruct p; [destruct (Hl eq_refl) as (h & c' & Hh); by rewrite lookup_empty in Hh|].
    cbn [input_getc_end]. apply wp_ret. apply HQ2; [| done | split; [done | exact He]].
    assert (∀ u, u ≠ tr → u ∈ blocked (thr k') ↔ u ∈ blocked (thrs s)) as Hbl by (intros u Hu; apply Hf4; [congruence | apply lookup_empty]).
    split; [| | done |].
    + split; [| done | apply apart | apply Hdi | apply Hdi | apply Hdi].
      eapply inv_frame; [apply Hdi|]. intros t Ht. cbn. symmetry. apply Hbl. intros ->. destruct Ht as [x Ht]. by rewrite writing_tr in Ht.
    + intros Hw. cbn. rewrite Hbl by done. by apply Hwr.
    + destruct Harm as [Ha1 Ha2]. split; cbn in *; [done | by rewrite He].
Qed.

Lemma input_getc_ok off s w (Q : outcome Z → dev → Prop) :
  ready s w false →
  (∀ s' key, ready s' w false → out s' = out s → received (hw s') = received (hw s) → contents (buffer s) = key :: contents (buffer s') → Q (Done key) s') →
  (∀ s', ready s' w true → out s' = out s → same_in s s' → Q (Stop AtWait) s') →
  wp (input_getc uart_out) Q (enter tr off false s).
Proof.
  intros [Hdi Hw Hr Harm] HQ1 HQ2. specialize (Hr eq_refl). unfold input_getc. apply wp_bind, disable_ok. apply wp_bind.
  destruct (start_ok (rx (enter tr true false s)) ∅ (di_rx _ _ _ Hdi) eq_refl Getc eq_refl) as (o & k' & E & Hs); [apply reading_none | done|].
  rewrite <- start_eq in E by done. destruct (result_inv _ _ _ _ _ E) as (o' & E' & ->). apply (wp_on_buffer _ _ _ _ _ E').
  apply (getc_end_ok off w o' k' (enter tr true false s) false); try done. by apply di_enter.
Qed.
Lemma input_getc_resume_ok old s w (Q : outcome Z → dev → Prop) :
  ready s w true → tr ∉ blocked (thrs s) →
  (∀ s' key, ready s' w false → out s' = out s → received (hw s') = received (hw s) → contents (buffer s) = key :: contents (buffer s') → Q (Done key) s') →
  (∀ s', ready s' w true → out s' = out s → same_in s s' → Q (Stop AtWait) s') →
  wp (input_getc_resume uart_out old AtWait) Q (enter tr true false s).
Proof.
  intros [Hdi Hw _ Harm] Hnb HQ1 HQ2. unfold input_getc_resume.
  destruct (resume_wait_ok (rx (enter tr true false s)) (reading true) Getc) as (o & k' & E & Hs);
    [apply Hdi | done | done | apply lookup_singleton_eq | done |].
  rewrite <- resume_eq in E. destruct (result_inv _ _ _ _ _ E) as (o' & E' & ->). cbn [thr cur enter thrs] in Hs.
  assert (delete tr (reading true) = ∅) as Hdel by (apply delete_singleton_eq). rewrite Hdel in Hs.
  apply wp_bind. apply (wp_on_buffer _ _ _ _ _ E').
  apply (getc_end_ok old w o' k' (enter tr true false s) true); try done. by apply di_enter.
Qed.

(** The interrupt. *)
Lemma interrupt_ok t s w r (Q : unit → dev → Prop) :
  ready s w r →
  (∀ s' new, ready s' w r → out s' = out s → received (hw s') = received (hw s) ++ new → contents (buffer s') = contents (buffer s) ++ new → Q tt s') →
  wp (serial_interrupt uart_in uart_out) Q (enter t true true s).
Proof.
  intros [Hdi Hw Hr Harm] HQ. eapply serial_interrupt_ok; [by apply di_enter | done|].
  intros s' [Hd' Ho' (new & Hn1 & Hn2) (_ & _ & _ & Hbl)] Hier. cbn in Hbl. apply (HQ s' new); try done.
  split; [done | intros Hn; specialize (Hw Hn); set_solver | intros Hn; specialize (Hr Hn); set_solver | by eapply wanted_armed].
Qed.

(** ** Events *)

Inductive sevent :=
  | EPut (b : Z) (off : bool)
  | EPutResume
  | EGet (off : bool)
  | EGetResume
  | EFlush (t : Z) (off : bool)
  | EIrq (t : Z).
(** [writer] and [reader] are the calls that wait, with the byte and the
    interrupt level; [put] and [got] are the bytes of completed calls. *)
Record ssys := mk_ssys {
  device : dev;
  writer : option (Z * bool);
  reader : option bool;
  put : list Z;
  got : list Z
}.
Definition sexec (e : sevent) (s : ssys) : res ssys :=
  let d := device s in
  match e with
  | EPut b off =>
      match serial_putc uart_in uart_out fuel b (enter tw off false d) with
      | Ok (Done _, d) => Ok (mk_ssys d None (reader s) (put s ++ [b]) (got s))
      | Ok (Stop _, d) => Ok (mk_ssys d (Some (b, off)) (reader s) (put s) (got s))
      | Err f => Err f
      end
  | EPutResume =>
      match writer s with
      | None => Err Fault
      | Some (b, old) =>
          match serial_putc_resume uart_out b old AtWait (enter tw true false d) with
          | Ok (Done _, d) => Ok (mk_ssys d None (reader s) (put s ++ [b]) (got s))
          | Ok (Stop _, d) => Ok (mk_ssys d (Some (b, old)) (reader s) (put s) (got s))
          | Err f => Err f
          end
      end
  | EGet off =>
      match input_getc uart_out (enter tr off false d) with
      | Ok (Done key, d) => Ok (mk_ssys d (writer s) None (put s) (got s ++ [key]))
      | Ok (Stop _, d) => Ok (mk_ssys d (writer s) (Some off) (put s) (got s))
      | Err f => Err f
      end
  | EGetResume =>
      match reader s with
      | None => Err Fault
      | Some old =>
          match input_getc_resume uart_out old AtWait (enter tr true false d) with
          | Ok (Done key, d) => Ok (mk_ssys d (writer s) None (put s) (got s ++ [key]))
          | Ok (Stop _, d) => Ok (mk_ssys d (writer s) (Some old) (put s) (got s))
          | Err f => Err f
          end
      end
  | EFlush t off =>
      match serial_flush uart_in uart_out fuel (enter t off false d) with
      | Ok (_, d) => Ok (mk_ssys d (writer s) (reader s) (put s) (got s))
      | Err f => Err f
      end
  | EIrq t =>
      match serial_interrupt uart_in uart_out (enter t true true d) with
      | Ok (_, d) => Ok (mk_ssys d (writer s) (reader s) (put s) (got s))
      | Err f => Err f
      end
  end.
Definition senabled (e : sevent) (s : ssys) : Prop :=
  match e with
  | EPut b _ => byte b ∧ writer s = None
  | EPutResume => is_Some (writer s) ∧ tw ∉ blocked (thrs (device s))
  | EGet _ => reader s = None
  | EGetResume => is_Some (reader s) ∧ tr ∉ blocked (thrs (device s))
  | EFlush _ _ | EIrq _ => True
  end.

(** ** From the start on *)

Lemma idle_inv b t : length b = 64%nat → inv (intq_init b) t ∅.
Proof. intros Hl. destruct (init_good b 0 Hl) as [Hi _]. eapply inv_frame; [exact Hi|]. by intros u [? ?%lookup_empty_Some]. Qed.

(** The driver and the input buffer before they have been set up. *)
Record unset (s : dev) : Prop := mk_unset {
  un_mode : mode s = UNINIT;
  un_tx : length (buf (txq s)) = 64%nat;
  un_rx : length (buf (buffer s)) = 64%nat;
  un_dlab : dlab (hw s) = false;
  un_free : 0x24 ∉ handlers s;
  un_blocked : blocked (thrs s) = ∅;
  un_context : intr_context (thrs s) = false
}.
Lemma set_serial_ok s (Q : unit → dev → Prop) :
  (∀ d, sent d = sent (hw s) → received d = received (hw s) → dlab d = false → Q tt (set_hw d s)) → wp (set_serial uart_out 9600) Q s.
Proof.
  intros HQ. unfold set_serial. change (u16 (Z.quot (Z.quot 1843200 16) 9600)) with 12. apply wp_bind, wp_ASSERT; [done|].
  destruct (uart_lcr (Z.lor LCR_N81 LCR_DLAB) (hw s)) as (A1 & A2 & A3). apply wp_bind, wp_outb; [by vm_compute|].
  edestruct (uart_divisor LS_REG (Z.land 12 0xff)) as (B1 & B2 & B3); [by rewrite A1 | by left|]. apply wp_bind, wp_outb; [by vm_compute|].
  edestruct (uart_divisor MS_REG (Z.shiftr 12 8)) as (C1 & C2 & C3); [exact B1 | by right|]. apply wp_bind, wp_outb; [by vm_compute|].
  edestruct (uart_lcr LCR_N81) as (D1 & D2 & D3). apply wp_outb; [by vm_compute|]. cbn in *. apply HQ.
  - rewrite D2, C2, B2, A2. done.
  - rewrite D3, C3, B3, A3. done.
  - by rewrite D1.
Qed.
Lemma serial_start_ok s :
  unset s → ∃ s', (input_init ;; serial_init_queue uart_out) s = Ok (tt, s') ∧ ready s' None false
    ∧ sent (hw s') = sent (hw s) ∧ received (hw s') = received (hw s) ∧ contents (txq s') = [] ∧ contents (buffer s') = [].
Proof.
  intros [Hm Ht Hr Hd Hf Hb Hc].
  assert (wp (input_init ;; serial_init_queue uart_out) (λ _ s', ready s' None false
    ∧ sent (hw s') = sent (hw s) ∧ received (hw s') = received (hw s) ∧ contents (txq s') = [] ∧ contents (buffer s') = []) s)
    as ([] & s' & E & H)%wp_Ok; [|by exists s'].
  apply wp_bind, wp_modify. unfold serial_init_queue. apply wp_bind, wp_gets. rewrite decide_True by done. apply wp_bind.
  unfold init_poll. apply wp_bind, wp_gets. rewrite bool_decide_eq_true_2 by done. apply wp_bind, wp_ASSERT; [done|].
  destruct (uart_ier 0 (hw s) Hd) as (A1 & A2 & A3 & A4). apply wp_bind, wp_outb; [lia|].
  destruct (uart_control FCR_REG 0 (uart_out IER_REG 0 (hw s))) as (B1 & B2 & B3); [by left|]. apply wp_bind, wp_outb; [lia|].
  apply wp_bind, set_serial_ok. intros d1 C1 C2 C3. edestruct (uart_control MCR_REG MCR_OUT2 d1) as (D1 & D2 & D3); [by right|].
  apply wp_bind, wp_outb; [by vm_compute|]. apply wp_bind, wp_modify, wp_modify. apply wp_bind, wp_gets. rewrite bool_decide_eq_true_2 by done.
  apply wp_bind, wp_ASSERT; [done|]. apply wp_bind. unfold intr_register_ext. eapply wp_eq.
  { erewrite bind_ok by done. cbn [handlers set_hw]. rewrite bool_decide_eq_false_2 by done. erewrite bind_ok by done. reflexivity. }
  apply wp_bind, wp_modify. cbn [set_hw txq buffer mode thrs kbd handlers hw] in *.
  unfold intr_disable. apply wp_bind. apply wp_bind, wp_gets. apply wp_bind, wp_modify, wp_ret. cbn [set_hw txq buffer mode thrs kbd handlers hw] in *.
  apply wp_bind. eapply (write_ier_ok _ (writing None) (reading false)); [|done|].
  - split; cbn -[intq_init writing reading]; [by apply idle_inv | by apply idle_inv | apply apart | done | congruence | constructor].
  - intros d Hd' Hs' Hr' Hi'. cbn [hw] in Hs', Hr'. apply wp_set_level; [by left|]. split.
    2: { cbn [hw txq buffer set_hw]. rewrite Hs', Hr', D2, D3, C1, C2, B2, B3, A2, A3. done. }
    split; [by destruct Hd'; split | by cbn; rewrite Hb | by cbn; rewrite Hb | by eapply (wanted_armed _ _ _ Hd')].
Qed.

Inductive sreachable (d0 : dev) : ssys → Prop :=
  | sreach_init d : (input_init ;; serial_init_queue uart_out) d0 = Ok (tt, d) → sreachable d0 (mk_ssys d None None [] [])
  | sreach_step s e s' : sreachable d0 s → senabled e s → sexec e s = Ok s' → sreachable d0 s'.
Definition sgood (d0 : dev) (s : ssys) : Prop :=
  ready (device s) (fst <$> writer s) (bool_decide (is_Some (reader s)))
  ∧ out (device s) = sent (hw d0) ++ put s ∧ received (hw (device s)) = received (hw d0) ++ got s ++ contents (buffer (device s))
  ∧ (∀ b old, writer s = Some (b, old) → byte b).

Definition put_result (d : dev) (b : Z) (r : bool) (o : outcome unit) (d' : dev) : Prop :=
  match o with
  | Done _ => ready d' None r ∧ out d' = out d ++ [b] ∧ same_in d d'
  | Stop _ => ready d' (Some b) r ∧ out d' = out d ∧ same_in d d'
  end.
Definition get_result (d : dev) (w : option Z) (o : outcome Z) (d' : dev) : Prop :=
  match o with
  | Done key => ready d' w false ∧ out d' = out d ∧ received (hw d') = received (hw d) ∧ contents (buffer d) = key :: contents (buffer d')
  | Stop _ => ready d' w true ∧ out d' = out d ∧ same_in d d'
  end.
Lemma put_good d0 d b old r pt gt o d' :
  out d = sent (hw d0) ++ pt → received (hw d) = received (hw d0) ++ gt ++ contents (buffer d) → byte b →
  put_result d b (bool_decide (is_Some r)) o d' →
  sgood d0 (match o with Done _ => mk_ssys d' None r (pt ++ [b]) gt | Stop _ => mk_ssys d' (Some (b, old)) r pt gt end).
Proof.
  intros Ho Hi Hb. destruct o; intros (H1 & H2 & H3 & H4); split_and!; cbn; try done; try congruence.
  by rewrite H2, Ho, app_assoc.
Qed.
Lemma get_good d0 d w old pt gt o d' :
  out d = sent (hw d0) ++ pt → received (hw d) = received (hw d0) ++ gt ++ contents (buffer d) → (∀ b old, w = Some (b, old) → byte b) →
  get_result d (fst <$> w) o d' →
  sgood d0 (match o with Done key => mk_ssys d' w None pt (gt ++ [key]) | Stop _ => mk_ssys d' w (Some old) pt gt end).
Proof.
  intros Ho Hi Hb. destruct o; [intros (H1 & H2 & H3 & H4) | intros (H1 & H2 & H3 & H4)]; split_and!; cbn; try done; try congruence.
  by rewrite H3, Hi, H4, <- app_assoc.
Qed.

Lemma sexec_ok d0 e s : sgood d0 s → senabled e s → ∃ s', sexec e s = Ok s' ∧ sgood d0 s'.
Proof.
  intros (Hrd & Hout & Hin & Hbyte) He. destruct s as [d w r pt gt]. cbn [device writer reader put got] in *.
  destruct e as [b off| |off| |t off|t]; cbn [senabled sexec device writer reader put got] in *.
  - destruct He as [Hb ->].
    assert (wp (serial_putc uart_in uart_out fuel b) (put_result d b (bool_decide (is_Some r))) (enter tw off false d)) as (o & d' & E & H)%wp_Ok
      by (eapply serial_putc_ok; [exact Hrd | done | by intros | by intros]).
    rewrite E. eexists. split; [|by eapply (put_good d0 d b off r)]. by destruct o.
  - destruct He as [[[b old] ->] Hnb].
    assert (wp (serial_putc_resume uart_out b old AtWait) (put_result d b (bool_decide (is_Some r))) (enter tw true false d)) as (o & d' & E & H)%wp_Ok
      by (eapply serial_putc_resume_ok; [exact Hrd | done | by eapply Hbyte | by intros | by intros]).
    rewrite E. eexists. split; [|eapply (put_good d0 d b old r); [done | done | by eapply Hbyte | exact H]]. by destruct o.
  - subst r. assert (wp (input_getc uart_out) (get_result d (fst <$> w)) (enter tr off false d)) as (o & d' & E & H)%wp_Ok
      by (eapply input_getc_ok; [exact Hrd | by intros | by intros]).
    rewrite E. eexists. split; [|by eapply (get_good d0 d w off)]. by destruct o.
  - destruct He as [[old ->] Hnb].
    assert (wp (input_getc_resume uart_out old AtWait) (get_result d (fst <$> w)) (enter tr true false d)) as (o & d' & E & H)%wp_Ok
      by (eapply input_getc_resume_ok; [exact Hrd | done | by intros | by intros]).
    rewrite E. eexists. split; [|by eapply (get_good d0 d w old)]. by destruct o.
  - assert (wp (serial_flush uart_in uart_out fuel) (λ _ d', ready d' (fst <$> w) (bool_decide (is_Some r)) ∧ out d' = out d ∧ same_in d d') (enter t off false d))
      as ([] & d' & E & H1 & H2 & H3 & H4)%wp_Ok by (eapply serial_flush_ok; [exact Hrd | by intros]).
    rewrite E. eexists. split; [done|]. split_and!; cbn; try done; congruence.
  - assert (wp (serial_interrupt uart_in uart_out) (λ _ d', ready d' (fst <$> w) (bool_decide (is_Some r)) ∧ out d' = out d
      ∧ ∃ new, received (hw d') = received (hw d) ++ new ∧ contents (buffer d') = contents (buffer d) ++ new) (enter t true true d))
      as ([] & d' & E & H1 & H2 & new & H3 & H4)%wp_Ok by (eapply interrupt_ok; [exact Hrd | eauto]).
    rewrite E. eexists. split; [done|]. split_and!; cbn; try done; [congruence|]. by rewrite H3, H4, Hin, <- !app_assoc.
Qed.

Lemma sreachable_good d0 s : unset d0 → sreachable d0 s → sgood d0 s.
Proof.
  intros Hu. induction 1 as [d E|s e s' _ IH He E].
  - destruct (serial_start_ok d0 Hu) as (d' & E' & Hr & Hs & Hrec & Ht & Hb). rewrite E in E'. injection E' as <-.
    split_and!; cbn; try done; [unfold out; by rewrite Hs, Ht, app_nil_r | by rewrite Hrec, Hb, app_nil_r].
  - destruct (sexec_ok d0 e s IH He) as (s'' & E' & Hg). congruence.
Qed.

(** C22: The serial port is two streams of bytes.  From the initialisation on,
    under any interleaving of one thread that writes, one thread that reads,
    flushes and interrupts, on a chip that loses a byte written while it is
    busy, has nothing to read unless it says so, and is ready to send again
    after at most [fuel] polls of its line status: the bytes sent, followed by those in the transmit
    queue, are the bytes that [serial_putc] was given, in order; the bytes
    that [input_getc] has returned, followed by those in the input buffer, are
    the bytes received, in order.  A thread sleeps only while the queue is
    full or the buffer empty, the interrupts that are needed to go on are
    enabled, and every call and every interrupt returns or goes to sleep. *)
Theorem serial_streams d0 s :
  unset d0 → sreachable d0 s →
  sent (hw (device s)) ++ contents (txq (device s)) = sent (hw d0) ++ put s
  ∧ received (hw (device s)) = received (hw d0) ++ got s ++ contents (buffer (device s))
  ∧ (is_Some (writer s) → tw ∈ blocked (thrs (device s)) → length (contents (txq (device s))) = 63%nat)
  ∧ (is_Some (reader s) → tr ∈ blocked (thrs (device s)) → contents (buffer (device s)) = [])
  ∧ armed (device s)
  ∧ ∀ e, senabled e s → ∃ s', sexec e s = Ok s'.
Proof.
  intros Hu Hr. pose proof (sreachable_good _ _ Hu Hr) as Hg. pose proof Hg as ([Hdi _ _ Harm] & Ho & Hin & _). split_and!; try done.
  - intros [[b old] Ew] Hb. rewrite Ew in Hdi. apply cond_full; [apply Hdi|].
    apply (inv_asleep _ _ _ (di_tx _ _ _ Hdi) tw (Putc b)); [apply lookup_singleton_eq | done].
  - intros Hrd Hb. rewrite bool_decide_eq_true_2 in Hdi by done. apply cond_empty; [apply Hdi|].
    apply (inv_asleep _ _ _ (di_rx _ _ _ Hdi) tr Getc); [apply lookup_singleton_eq | done].
  - intros e He. destruct (sexec_ok d0 e s Hg He) as (s' & E & _). by exists s'.
Qed.
End serial.

(** ** A device that keeps the laws *)

(** A byte that is written while the transmitter is busy is lost, and a read
    when no byte has come in returns 0. *)
Record uart := mk_uart { u_sent : list Z; u_received : list Z; u_input : list Z; u_ier : Z; u_dlab : bool; u_busy : bool }.
Definition u_in (port : Z) (d : uart) : Z * uart :=
  let '(mk_uart s r i e l b) := d in
  if port =? LSR_REG then (Z.lor (if b then 0 else 0x20) (if i is [] then 0 else 1), mk_uart s r i e l false)
  else if (port =? RBR_REG) && negb l then
    match i with [] => (0, d) | x :: i => (x, mk_uart s (r ++ [x]) i e l b) end
  else (0, d).
Definition u_out (port v : Z) (d : uart) : uart :=
  let '(mk_uart s r i e l b) := d in
  if (port =? THR_REG) && negb l then mk_uart (if b then s else s ++ [v]) r i e l true
  else if (port =? IER_REG) && negb l then mk_uart s r i v l b
  else if port =? LCR_REG then mk_uart s r i e (Z.testbit v 7) b
  else d.
#[local] Instance uart_16550a : Uart uart.
Proof.
  refine (Build_Uart _ u_in u_out u_sent u_received u_ier u_dlab (λ d, if u_busy d then 1%nat else 0%nat) (λ d, list.head (u_input d)) _ _ _ _ _ _ _ _).
  - intros [s r i e l b]. do 2 eexists. split; [reflexivity|]. destruct b, i; cbn; repeat split; try done; by eexists.
  - intros [s r i e l b]. do 2 eexists. split; [reflexivity|]. done.
  - intros x [s r [|y i] e [] b] [=] [=]. subst. eexists. by split.
  - intros v [s r i e [] []] [=] [=]. done.
  - intros v [s r i e [] b] [=]. done.
  - intros v [s r i e l b]. done.
  - intros p v [s r i e [] b] [=] [-> | ->]; done.
  - intros p v [s r i e l b] [-> | ->]; done.
Defined.

Definition machine : dev :=
  let q := mk_intq 0 [] None None None (replicate 64 0) 0 0 in
  mk_dev q q UNINIT (mk_threads 1 ∅ false false) (mk_keyboard false false false false false false false 0) [] (mk_uart [] [] [72; 105] 0 false false).
Fixpoint sruns (es : list sevent) (s : ssys) : res ssys :=
  match es with [] => Ok s | e :: es => match sexec 2 1 2 e s with Ok s => sruns es s | Err f => Err f end end.
Fixpoint enabled_all (es : list sevent) (s : ssys) : Prop :=
  match es with [] => True | e :: es => senabled 1 2 e s ∧ match sexec 2 1 2 e s with Ok s => enabled_all es s | Err _ => False end end.
Lemma sruns_reachable d0 es s s' :
  sreachable 2 1 2 d0 s → enabled_all es s → sruns es s = Ok s' → sreachable 2 1 2 d0 s'.
Proof.
  revert s. induction es as [|e es IH]; intros s Hr; [by intros _ [= <-]|]. cbn. intros [He Ha] E.
  destruct (sexec 2 1 2 e s) as [s1|] eqn:E1; [|done]. eapply IH; [by eapply sreach_step | done | done].
Qed.
Definition trace : list sevent := [EGet false; EPut 65 false; EPut 66 false; EIrq 1; EGetResume; EPut 67 true].

Lemma serial_streams_witness :
  ∃ d s, (input_init ;; serial_init_queue uart_out) machine = Ok (tt, d) ∧ sruns trace (mk_ssys d None None [] []) = Ok s
    ∧ put s = [65; 66; 67] ∧ got s = [72] ∧ sent (hw (device s)) ++ contents (txq (device s)) = [65; 66; 67].
Proof.
  eexists. eexists. split; [vm_compute; reflexivity|]. split; [vm_compute; reflexivity|]. split; [done|]. split; [done|].
  refine (proj1 (serial_streams 2 _ 1 2 _ machine _ _ _)).
  - intros d. cbn. destruct (u_busy d); lia.
  - done.
  - split; try done. apply not_elem_of_nil.
  - eapply (sruns_reachable _ trace); [apply sreach_init; vm_compute; reflexivity | | vm_compute; reflexivity].
    vm_compute. repeat split; try done; try by eexists.
Defined.
End SerialProps.
