(* ===== verification/Neighbours.v ===== *)
(** * Block devices side by side

    The contract between the users of two block devices that share no sector,
    such as the file system and the scratch device, and that devices/block.c
    and devices/partition.c keep it. *)
From stdpp Require Import base gmap list.
From Stdlib Require Import ZArith Lia.
From S2P Require Import Prelude Block.

(** [bd_same]: the same devices, up to their contents; [bd_apart d b c]: the
    devices [b] and [c] share no sector. *)
Class Neighbours (D : Type) `{BlockDevices D} := {
  bd_same : D → D → Prop;
  bd_apart : D → Z → Z → Prop;
  bd_same_preorder : PreOrder bd_same;
  bd_same_size d d' c : bd_same d d' → bd_size d' c = bd_size d c;
  bd_same_role d d' r : bd_same d d' → bd_role d' r = bd_role d r;
  bd_same_ok d d' b c : bd_same d d' → bd_ok d c → bd_ok d' b → bd_ok d' c;
  bd_same_apart d d' b c : bd_same d d' → bd_apart d b c → bd_apart d' b c;
  bd_apart_sym d b c : bd_apart d b c → bd_apart d c b;
  bd_apart_read d b c s r d' :
    bd_apart d b c → bd_read b s d = Ok (r, d') →
    bd_same d d' ∧ ∀ s', 0 ≤ s' < bd_size d c → bd_sector d' c s' = bd_sector d c s';
  bd_apart_write d b c s x d' :
    bd_apart d b c → 0 ≤ s < 2^32 → bd_write b s x d = Ok (tt, d') →
    bd_same d d' ∧ ∀ s', 0 ≤ s' < bd_size d c → bd_sector d' c s' = bd_sector d c s'
}.
#[export] Existing Instance bd_same_preorder.


Module Neighbours.
Import Block.

(** The devices are well-formed, whatever their sectors hold. *)
Definition wf_blocks (d : devices) : Prop := ∀ b x, blocks d !! b = Some x → wf_block d b x.

Lemma locate_enough d b n m : wf_blocks d → (Z.to_nat b < n)%nat → (Z.to_nat b < m)%nat → locate n d b = locate m d b.
Proof.
  intros Hw. revert b m. induction n as [|n IH]; intros b [|m] Hn Hm; [lia..|]. simpl.
  destruct (blocks d !! b) as [x|] eqn:E; [|done]. destruct (Hw _ _ E) as (Hb & _ & H).
  destruct (ops x); [done|]. destruct H as (y & z & -> & _ & Hz & Hlt & _).
  destruct (Hw _ _ Hz) as (? & _). rewrite (IH (p_block y) m) by lia. done.
Qed.
Lemma location_below d b x p y s :
  wf_blocks d → blocks d !! b = Some x → ops x = partition_operations p → partitions d !! p = Some y →
  location d b s = location d (p_block y) (p_start y + s).
Proof.
  intros Hw E Ho Hp. destruct (Hw _ _ E) as (Hb & _ & H). rewrite Ho in H.
  destruct H as (y' & z & Hp' & _ & Hz & Hlt & _). simplify_eq. destruct (Hw _ _ Hz) as (? & _).
  unfold location. rewrite (locate_enough d (p_block y) (Datatypes.S (Z.to_nat (p_block y))) (Z.to_nat b)) by (done || lia).
  simpl. rewrite E, Ho, Hp. destruct (locate _ _ _). f_equal. lia.
Qed.

Lemma same_wf_blocks d d' : same d d' → wf_blocks d → wf_blocks d'.
Proof.
  intros Hs Hw b x' Hb'. assert (same d' d) as Hs' by by symmetry.
  destruct (same_block _ _ _ _ Hs' Hb') as (x & Hb & Hc). by apply (same_wf_block d d' b x); auto.
Qed.

(** A read that has returned has changed the statistics only. *)
Lemma read_block_inv fuel d b s r d' : read_block fuel b s d = Ok (r, d') → same d d' ∧ disks d' = disks d.
Proof.
  revert b s r d'. induction fuel as [|fuel IH]; intros b s r d'; [done|]. simpl. unfold check_sector, get_block. run.
  destruct (blocks d !! b) as [x|] eqn:E; [|done]. destruct (size x <=? s); [done|]. rewrite E. destruct (ops x) as [disk|p].
  - unfold ide_read. run. destruct (s <? 2^28); [|done]. intros [= <- <-]. split; [by apply same_alter | done].
  - unfold partition_read, get_partition. run. destruct (partitions d !! p) as [y|]; [|done].
    destruct (read_block fuel (p_block y) _ d) as [[r1 d1]|] eqn:E1; [|done]. destruct (IH _ _ _ _ E1) as [Hs Hd].
    intros [= <- <-]. split; [|done]. transitivity d1; [done|]. by apply same_alter.
Qed.
(** A write that has returned has changed one sector. *)
Lemma write_block_inv fuel d b s buffer d' :
  wf_blocks d → (Z.to_nat b < fuel)%nat → 0 ≤ s → write_block fuel b s buffer d = Ok (tt, d') →
  same d d' ∧ s < device_size d b ∧ disks d' = <[location d b s := buffer]> (disks d).
Proof.
  intros Hw. unfold device_size. revert b s d'. induction fuel as [|fuel IH]; intros b s d' Hf Hs; [lia|]. simpl. unfold check_sector, get_block. run.
  destruct (blocks d !! b) as [x|] eqn:E; [|done]. destruct (Z.leb_spec (size x) s) as [|Hlt]; [done|]. rewrite E. simpl.
  destruct (negb _); [|done]. destruct (Hw _ _ E) as (Hb & Hsz & H). destruct (ops x) as [disk|p] eqn:Ho.
  - unfold ide_write. run. destruct (s <? 2^28); [|done]. intros [= <-]. split_and!; [|done|].
    + transitivity (set_disks (<[(disk, s):=buffer]> (disks d)) d); [done|].
      by apply (same_alter (set_disks (<[(disk, s):=buffer]> (disks d)) d) b count_write).
    + simpl. by rewrite (location_disk d b x disk s).
  - destruct H as (y & z & Hp & _ & Hz & Hlt' & Hst & Hend). destruct (Hw _ _ Hz) as (? & ? & _).
    unfold partition_write, get_partition. run. rewrite Hp, u32_small by lia.
    destruct (write_block fuel (p_block y) (p_start y + s) buffer d) as [[[] d1]|] eqn:E1; [|done].
    destruct (IH (p_block y) (p_start y + s) d1 ltac:(lia) ltac:(lia) E1) as (Hs1 & _ & Hd1). intros [= <-]. split_and!; [|done|].
    + transitivity d1; [done|]. by apply same_alter.
    + simpl. rewrite Hd1. by rewrite (location_below d b x p y).
Qed.

Definition apart (d : devices) (b c : Z) : Prop :=
  wf_blocks d ∧ ∀ s s', 0 ≤ s < device_size d b → 0 ≤ s' < device_size d c → location d b s ≠ location d c s'.

Lemma same_size d d' c : same d d' → device_size d' c = device_size d c.
Proof.
  intros Hs. unfold device_size. destruct (blocks d !! c) as [x|] eqn:E.
  - destruct (same_block _ _ _ _ Hs E) as (x' & -> & (_ & _ & ? & _)%core_fields). done.
  - pose proof Hs as [Hc _]. specialize (Hc c). rewrite E in Hc. by destruct (blocks d' !! c).
Qed.
Lemma same_location d d' b s : same d d' → location d' b s = location d b s.
Proof. intros Hs. unfold location. by rewrite (same_locate _ d d'). Qed.

#[export] Program Instance block_neighbours : Neighbours devices := {| bd_same := same; bd_apart := apart |}.
Next Obligation. simpl. intros d d' c. apply same_size. Qed.
Next Obligation. simpl. intros d d' r (_ & _ & _ & -> & _). done. Qed.
Next Obligation. simpl. intros d d' b c Hs Hc (Hw & _). by apply (device_same d d' c). Qed.
Next Obligation.
  simpl. intros d d' b c Hs [Hw Ha]. split; [by apply (same_wf_blocks d)|]. intros s s'. rewrite !(same_size d d'), !(same_location d d') by done.
  apply Ha.
Qed.
Next Obligation. simpl. intros d b c [Hw Ha]. split; [done|]. intros s s' Hs Hs' E. by eapply (Ha s' s). Qed.
Next Obligation.
  simpl. intros d b c s r d' _ E. apply read_block_inv in E as [Hs Hd]. split; [done|]. intros s' _. by apply same_sector.
Qed.
Next Obligation.
  simpl. intros d b c s x d' [Hw Ha] Hs E. apply write_block_inv in E as (Hsame & Hlt & Hd); [|done|lia|lia]. split; [done|].
  intros s' Hs'. rewrite (sector_written d d' b s s' x) by done. rewrite decide_False; [done|]. intros El. apply (Ha s s'); [lia | done | by symmetry].
Qed.
End Neighbours.
