(* ===== verification/FilesysKeeps.v ===== *)
(** * The file system and the other block devices

    No function of filesys/ touches a device other than the one that the file
    system lives on, as long as the two share no sector. *)
From stdpp Require Import base gmap list.
From Stdlib Require Import ZArith Lia.
From S2P Require Import Prelude Bitmap Block Neighbours Filesys.

(** ** What code leaves alone *)

(** [m] leads from a state only to states that [R] relates it to. *)
Definition stays {S A} (R : S → S → Prop) (m : M S A) : Prop := ∀ s a s', m s = Ok (a, s') → R s s'.

Create HintDb stays.

Section stays.
Context {S : Type} (R : S → S → Prop) `{!PreOrder R}.

Lemma stays_ret {A} (a : A) : stays R (mret a).
Proof. intros s ? ? [= _ <-]. reflexivity. Qed.
Lemma stays_fail {A} e : stays R (@fail S A e).
Proof. by intros s ? ?. Qed.
Lemma stays_gets {A} (f : S → A) : stays R (gets f).
Proof. intros s ? ? [= _ <-]. reflexivity. Qed.
Lemma stays_modify f : (∀ s, R s (f s)) → stays R (modify f).
Proof. intros Hf s ? ? [= _ <-]. apply Hf. Qed.
Lemma stays_ASSERT b : stays R (ASSERT b).
Proof. intros s ? ?. unfold ASSERT. destruct b; [|done]. intros [= _ <-]. reflexivity. Qed.
Lemma stays_of_option {A} e (o : option A) : stays R (of_option e o).
Proof. intros s ? ?. unfold of_option. destruct o; [|done]. intros [= _ <-]. reflexivity. Qed.
Lemma stays_of_res {A} (r : res A) : stays R (of_res r).
Proof. intros s ? ?. unfold of_res. destruct r; [|done]. intros [= _ <-]. reflexivity. Qed.
Lemma stays_bind {A B} (m : M S A) (k : A → M S B) : stays R m → (∀ a, stays R (k a)) → stays R (m ≫= k).
Proof.
  intros Hm Hk s b s'. unfold mbind, M_bind. destruct (m s) as [[a s1]|] eqn:E; [|done]. intros E2.
  transitivity s1; [by eapply Hm | by eapply Hk].
Qed.
Lemma stays_loop {A B} fuel (body : A → M S (A + B)) a : (∀ a, stays R (body a)) → stays R (loop fuel body a).
Proof.
  intros Hb. revert a. induction fuel as [|fuel IH]; intros a; [apply stays_fail|]. cbn. apply stays_bind; [done|].
  intros [a'|r]; [done | apply stays_ret].
Qed.
Lemma stays_for_loop n i (body : Z → M S unit) : (∀ i, stays R (body i)) → stays R (for_loop n i body).
Proof.
  intros Hb. revert i. induction n as [|n IH]; intros i; [apply stays_ret|]. cbn. apply stays_bind; [done|]. by intros _.
Qed.
Lemma stays_wp {A} (m : M S A) (Q : A → S → Prop) s : stays R m → wp m Q s → wp m (λ a s', Q a s' ∧ R s s') s.
Proof. intros Hm (a & s' & E & HQ)%wp_Ok. apply (wp_eq _ _ _ a s'); [done|]. split; [done | by eapply Hm]. Qed.
End stays.

(** One step through the code of a function; calls are found in the
    database [stays]. *)
Ltac stays_step :=
  first [ done
        | lazymatch goal with
          | |- stays _ (_ ≫= _) => apply stays_bind; [typeclasses eauto | |]
          | |- stays _ (mret _) => apply stays_ret; typeclasses eauto
          | |- stays _ (gets _) => apply stays_gets; typeclasses eauto
          | |- stays _ (ASSERT _) => apply stays_ASSERT; typeclasses eauto
          | |- stays _ (fail _) => apply stays_fail
          | |- stays _ (of_option _ _) => apply stays_of_option; typeclasses eauto
          | |- stays _ (of_res _) => apply stays_of_res; typeclasses eauto
          | |- stays _ (loop _ _ _) => apply stays_loop; [typeclasses eauto|]
          | |- stays _ (for_loop _ _ _) => apply stays_for_loop; [typeclasses eauto|]
          | |- ∀ _, _ => intros ?
          | |- stays _ (match ?x with _ => _ end) => destruct x
          | |- stays _ (let '_ := ?x in _) => destruct x
          end
        | progress cbv zeta
        | solve [auto with stays nocore] ].
Ltac stays_run := repeat stays_step.

Module FilesysKeeps.
Import Filesys.

Section stays.
Context {D : Type} `{Neighbours D} (malloc_ok : Z → bool) (stack_bytes : list Z) (c : Z).
Implicit Types f g : fs D.

(** The device [c] is as before. *)
Definition other f g : Prop :=
  fs_device g = fs_device f
  ∧ (bd_apart (dev f) (fs_device f) c →
     bd_same (dev f) (dev g) ∧ ∀ s, 0 ≤ s < bd_size (dev f) c → bd_sector (dev g) c s = bd_sector (dev f) c s).

#[export] Instance other_preorder : PreOrder other.
Proof.
  split.
  - intros f. split; [done|]. intros Ha. split; [reflexivity | done].
  - intros f g h [E1 H1] [E2 H2]. split; [congruence|]. intros Ha. destruct (H1 Ha) as [S1 X1].
    rewrite E1 in H2. destruct (H2 (bd_same_apart _ _ _ _ S1 Ha)) as [S2 X2]. split; [by transitivity (dev g)|].
    intros s Hs. rewrite X2, X1; [done | done|]. by rewrite (bd_same_size _ _ _ S1).
Qed.

Lemma other_same_dev f g : dev g = dev f → fs_device g = fs_device f → other f g.
Proof. intros E Ef. split; [done|]. intros _. rewrite E. split; [reflexivity | done]. Qed.

(** *** The accesses to the state *)

Lemma stays_modify_mem (u : fs D → fs D) :
  (∀ f, dev (u f) = dev f ∧ fs_device (u f) = fs_device f) → stays other (modify u).
Proof. intros Hu. apply stays_modify. intros f. destruct (Hu f). by apply other_same_dev. Qed.
Lemma stays_malloc : stays other (malloc malloc_ok).
Proof. intros f a g [= _ <-]. by apply other_same_dev. Qed.
Lemma stays_get_inode i : stays other (get_inode (D := D) i).
Proof. intros f a g. unfold get_inode. destruct (inodes f !! i); [|done]. intros [= _ <-]. reflexivity. Qed.
Lemma stays_get_file i : stays other (get_file (D := D) i).
Proof. intros f a g. unfold get_file. destruct (files f !! i); [|done]. intros [= _ <-]. reflexivity. Qed.
Lemma stays_get_dir i : stays other (get_dir (D := D) i).
Proof. intros f a g. unfold get_dir. destruct (dirs f !! i); [|done]. intros [= _ <-]. reflexivity. Qed.
Lemma stays_current_free_map : stays other (current_free_map (D := D)).
Proof. intros f a g. unfold current_free_map. destruct (free_map f); [|done]. intros [= _ <-]. reflexivity. Qed.
Lemma stays_on_free_map {A} (m : M Bitmap.bitmap A) : stays other (on_free_map (D := D) m).
Proof.
  intros f a g. unfold on_free_map. destruct (free_map f) as [b|]; [|done]. destruct (m b) as [[x b']|]; [|done].
  intros [= _ <-]. by apply other_same_dev.
Qed.
Lemma stays_copy_to buf ofs bs : stays other (copy_to (S := fs D) buf ofs bs).
Proof. intros f a g. unfold copy_to. case_decide; [|done]. intros [= _ <-]. reflexivity. Qed.
Lemma stays_slice buf ofs n : stays other (slice (S := fs D) buf ofs n).
Proof. intros f a g. unfold slice. case_decide; [|done]. intros [= _ <-]. reflexivity. Qed.

Lemma stays_fs_read s : stays other (fs_read (D := D) s).
Proof.
  intros f a g. unfold fs_read, mbind, M_bind, gets, zoom. destruct (bd_read (fs_device f) (u32 s) (dev f)) as [[r d]|] eqn:E; [|done].
  intros [= _ <-]. split; [done|]. intros Ha. by destruct (bd_apart_read _ _ c _ _ _ Ha E).
Qed.
Lemma stays_fs_write s x : stays other (fs_write (D := D) s x).
Proof.
  intros f a g. unfold fs_write, mbind, M_bind, gets, zoom. destruct (bd_write (fs_device f) (u32 s) x (dev f)) as [[[] d]|] eqn:E; [|done].
  intros [= _ <-]. split; [done|]. intros Ha. by destruct (bd_apart_write _ _ c _ _ _ Ha (u32_range s) E).
Qed.
Hint Resolve stays_malloc stays_get_inode stays_get_file stays_get_dir stays_current_free_map stays_on_free_map stays_copy_to
  stays_slice stays_fs_read stays_fs_write : stays.
Hint Extern 1 (stays other (modify _)) => by apply stays_modify_mem : stays.

(** *** The functions *)

Lemma stays_read_step i st : stays other (read_step malloc_ok i st).
Proof. unfold read_step, need_bounce. stays_run. Qed.
Lemma stays_write_step i st : stays other (write_step malloc_ok i st).
Proof. unfold write_step, need_bounce. stays_run. Qed.
Hint Resolve stays_read_step stays_write_step : stays.
Lemma stays_inode_read_at i buf n ofs : stays other (inode_read_at malloc_ok i buf n ofs).
Proof. unfold inode_read_at. stays_run. Qed.
Hint Resolve stays_inode_read_at : stays.
Lemma stays_inode_write_at i buf n ofs : stays other (inode_write_at malloc_ok i buf n ofs).
Proof. unfold inode_write_at. stays_run. Qed.
Hint Resolve stays_inode_write_at : stays.
Lemma stays_inode_length i : stays other (inode_length (D := D) i).
Proof. unfold inode_length. stays_run. Qed.
Hint Resolve stays_inode_length : stays.
Lemma stays_inode_deny_write i : stays other (inode_deny_write (D := D) i).
Proof. unfold inode_deny_write, put_inode. stays_run. Qed.
Hint Resolve stays_inode_deny_write : stays.
Lemma stays_inode_allow_write i : stays other (inode_allow_write (D := D) i).
Proof. unfold inode_allow_write, put_inode. stays_run. Qed.
Hint Resolve stays_inode_allow_write : stays.
Lemma stays_inode_remove i : stays other (inode_remove (D := D) i).
Proof. unfold inode_remove, put_inode. stays_run. Qed.
Hint Resolve stays_inode_remove : stays.
Lemma stays_inode_reopen i : stays other (inode_reopen (D := D) i).
Proof. unfold inode_reopen, put_inode. stays_run. Qed.
Hint Resolve stays_inode_reopen : stays.
Lemma stays_file_read a buf n : stays other (file_read malloc_ok a buf n).
Proof. unfold file_read, put_file. stays_run. Qed.
Hint Resolve stays_file_read : stays.
Lemma stays_file_write a buf n : stays other (file_write malloc_ok a buf n).
Proof. unfold file_write, put_file. stays_run. Qed.
Hint Resolve stays_file_write : stays.
Lemma stays_file_read_at a buf n ofs : stays other (file_read_at malloc_ok a buf n ofs).
Proof. unfold file_read_at, put_file. stays_run. Qed.
Hint Resolve stays_file_read_at : stays.
Lemma stays_file_write_at a buf n ofs : stays other (file_write_at malloc_ok a buf n ofs).
Proof. unfold file_write_at, put_file. stays_run. Qed.
Hint Resolve stays_file_write_at : stays.
Lemma stays_file_allow_write a : stays other (file_allow_write (D := D) a).
Proof. unfold file_allow_write, put_file. stays_run. Qed.
Hint Resolve stays_file_allow_write : stays.
Lemma stays_file_length a : stays other (file_length (D := D) a).
Proof. unfold file_length, put_file. stays_run. Qed.
Hint Resolve stays_file_length : stays.
Lemma stays_file_seek a n : stays other (file_seek (D := D) a n).
Proof. unfold file_seek, put_file. stays_run. Qed.
Hint Resolve stays_file_seek : stays.
Lemma stays_file_tell a : stays other (file_tell (D := D) a).
Proof. unfold file_tell, put_file. stays_run. Qed.
Hint Resolve stays_file_tell : stays.
Lemma stays_bitmap_write b a : stays other (bitmap_write malloc_ok b a).
Proof. unfold bitmap_write. stays_run. Qed.
Hint Resolve stays_bitmap_write : stays.
Lemma stays_free_map_allocate n : stays other (free_map_allocate malloc_ok n).
Proof. unfold free_map_allocate. stays_run. Qed.
Hint Resolve stays_free_map_allocate : stays.
Lemma stays_free_map_release s n : stays other (free_map_release malloc_ok s n).
Proof. unfold free_map_release. stays_run. Qed.
Hint Resolve stays_free_map_release : stays.
Lemma stays_inode_create s n : stays other (inode_create malloc_ok s n).
Proof. unfold inode_create. stays_run. Qed.
Hint Resolve stays_inode_create : stays.
Lemma stays_find_open s l : stays other (find_open (D := D) s l).
Proof. induction l as [|e l IH]; cbn; stays_run. Qed.
Hint Resolve stays_find_open : stays.
Lemma stays_inode_open s : stays other (inode_open malloc_ok s).
Proof. unfold inode_open, put_inode. stays_run. Qed.
Hint Resolve stays_inode_open : stays.
Lemma stays_inode_close i : stays other (inode_close malloc_ok i).
Proof. unfold inode_close, put_inode. stays_run. Qed.
Hint Resolve stays_inode_close : stays.
Lemma stays_file_open i : stays other (file_open malloc_ok i).
Proof. unfold file_open, put_file. stays_run. Qed.
Hint Resolve stays_file_open : stays.
Lemma stays_file_close a : stays other (file_close malloc_ok a).
Proof. unfold file_close. stays_run. Qed.
Hint Resolve stays_file_close : stays.
Lemma stays_dir_open i : stays other (dir_open malloc_ok i).
Proof. unfold dir_open, put_dir. stays_run. Qed.
Hint Resolve stays_dir_open : stays.
Lemma stays_dir_open_root  : stays other (dir_open_root malloc_ok).
Proof. unfold dir_open_root. stays_run. Qed.
Hint Resolve stays_dir_open_root : stays.
Lemma stays_dir_close a : stays other (dir_close malloc_ok a).
Proof. unfold dir_close. stays_run. Qed.
Hint Resolve stays_dir_close : stays.
Lemma stays_next_entry a ofs e : stays other (next_entry malloc_ok a ofs e).
Proof. unfold next_entry. stays_run. Qed.
Hint Resolve stays_next_entry : stays.
Lemma stays_entry_fuel a : stays other (entry_fuel (D := D) a).
Proof. unfold entry_fuel. stays_run. Qed.
Hint Resolve stays_entry_fuel : stays.
Lemma stays_entry_name e : stays other (entry_name (D := D) e).
Proof. unfold entry_name. stays_run. Qed.
Hint Resolve stays_entry_name : stays.
Lemma stays_lookup_step a nm st : stays other (lookup_step malloc_ok a nm st).
Proof. unfold lookup_step. stays_run. Qed.
Hint Resolve stays_lookup_step : stays.
Lemma stays_lookup a nm : stays other (lookup malloc_ok stack_bytes a nm).
Proof. unfold lookup. stays_run. Qed.
Hint Resolve stays_lookup : stays.
Lemma stays_dir_lookup a nm : stays other (dir_lookup malloc_ok stack_bytes a nm).
Proof. unfold dir_lookup. stays_run. Qed.
Hint Resolve stays_dir_lookup : stays.
Lemma stays_free_slot_step a st : stays other (free_slot_step malloc_ok a st).
Proof. unfold free_slot_step. stays_run. Qed.
Hint Resolve stays_free_slot_step : stays.
Lemma stays_fill_entry e nm s : stays other (fill_entry (D := D) e nm s).
Proof. unfold fill_entry. stays_run. Qed.
Hint Resolve stays_fill_entry : stays.
Lemma stays_dir_add a nm s : stays other (dir_add malloc_ok stack_bytes a nm s).
Proof. unfold dir_add. stays_run. Qed.
Hint Resolve stays_dir_add : stays.
Lemma stays_dir_remove a nm : stays other (dir_remove malloc_ok stack_bytes a nm).
Proof. unfold dir_remove. stays_run. Qed.
Hint Resolve stays_dir_remove : stays.
Lemma stays_readdir_step a e : stays other (readdir_step malloc_ok a e).
Proof. unfold readdir_step, put_dir. stays_run. Qed.
Hint Resolve stays_readdir_step : stays.
Lemma stays_dir_readdir a : stays other (dir_readdir malloc_ok stack_bytes a).
Proof. unfold dir_readdir. stays_run. Qed.
Hint Resolve stays_dir_readdir : stays.
Lemma stays_filesys_create nm n : stays other (filesys_create malloc_ok stack_bytes nm n).
Proof. unfold filesys_create. stays_run. Qed.
Hint Resolve stays_filesys_create : stays.
Lemma stays_filesys_open nm : stays other (filesys_open malloc_ok stack_bytes nm).
Proof. unfold filesys_open. stays_run. Qed.
Hint Resolve stays_filesys_open : stays.
Lemma stays_filesys_remove nm : stays other (filesys_remove malloc_ok stack_bytes nm).
Proof. unfold filesys_remove. stays_run. Qed.
Hint Resolve stays_filesys_remove : stays.
End stays.
End FilesysKeeps.
