(* ===== verification/Ustar.v ===== *)
(** * Archives: lib/ustar.c

    The headers of the files of a tar archive.  A header is a sector of 512
    bytes; a string is the list of its bytes without the null byte.
    [strlcpy] and [snprintf] into a member of the header write the prefix of
    the text that fits and a null byte, as the files Cstring and StdioProps
    show. *)
From stdpp Require Import base list list_numbers strings.
From Stdlib Require Import ZArith Lia.
From S2P Require Import Prelude Stdio.

Module Ustar.
Import Stdio.

(** ** The format *)

Definition USTAR_REGULAR : Z := 48.
Definition USTAR_DIRECTORY : Z := 53.
Definition USTAR_EOF : Z := -1.
Definition USTAR_HEADER_SIZE : Z := 512.
Definition ULONG_MAX : Z := 2^32 - 1.
Definition INT_MAX : Z := 2^31 - 1.

(** The members of [struct ustar_header] that the code uses, with their
    offsets and sizes. *)
Record member := mk_member { offset : Z; size : Z }.
Definition name : member := mk_member 0 100.
Definition mode : member := mk_member 100 8.
Definition uid : member := mk_member 108 8.
Definition gid : member := mk_member 116 8.
Definition file_size : member := mk_member 124 12.
Definition mtime : member := mk_member 136 12.
Definition chksum : member := mk_member 148 8.
Definition typeflag : member := mk_member 156 1.
Definition magic : member := mk_member 257 6.
Definition version : member := mk_member 263 2.
Definition uname : member := mk_member 265 32.
Definition gname : member := mk_member 297 32.
Definition prefix : member := mk_member 345 155.

Definition field (f : member) (h : list Z) : list Z := take (Z.to_nat (size f)) (drop (Z.to_nat (offset f)) h).
Definition char_at (i : Z) (h : list Z) : Z := default 0 (h !! Z.to_nat i).
Definition store (f : member) (x : list Z) (h : list Z) : list Z :=
  take (Z.to_nat (offset f)) h ++ x ++ drop (Z.to_nat (offset f) + length x) h.
Definition strlcpy (f : member) (s : list Z) (h : list Z) : list Z := store f (take (Z.to_nat (size f - 1)) s ++ [0]) h.
Definition snprintf (f : member) (sz : Z) (format : string) (arg : Z) (h : list Z) : res (list Z) :=
  out ← printf format [VWord arg]; Ok (store f (take (Z.to_nat (sz - 1)) out ++ [0]) h).

(** ** Composing a header *)

Definition calculate_chksum (h : list Z) : Z :=
  foldl (λ sum i, u32 (sum + (if (offset chksum <=? i) && (i <? offset chksum + size chksum) then 32 else char_at i h)))
    0 (seqZ 0 USTAR_HEADER_SIZE).

(** The part of a string behind the first slash. *)
Fixpoint after_slash (s : list Z) : list Z :=
  match s with
  | [] => []
  | c :: s => if c =? 47 then s else after_slash s
  end.
Definition antisocial (s : list Z) : bool :=
  bool_decide (head s = Some 47) || bool_decide (take 2 s = chars "./") || bool_decide (take 3 s = chars "../").
Fixpoint strip_loop (fuel : nat) (s : list Z) : res (list Z) :=
  if antisocial s then
    match fuel with O => Err OutOfFuel | S fuel => strip_loop fuel (after_slash s) end
  else Ok s.
Definition strip_antisocial_prefixes (file_name : list Z) : res (list Z) :=
  s ← strip_loop (length file_name) file_name;
  Ok (if bool_decide (s = []) || bool_decide (s = chars "..") then chars "." else s).

Definition newline : string := String (Ascii.ascii_of_nat 10) "".
(** [inl]: the message that is printed before the function returns false. *)
Definition ustar_make_header (file_name : list Z) (type sz : Z) : res (list Z + list Z) :=
  if negb ((type =? USTAR_REGULAR) || (type =? USTAR_DIRECTORY)) then Err Panic
  else
    file_name ← strip_antisocial_prefixes file_name;
    if 99 <? Z.of_nat (length file_name) then
      out ← printf ("%s: file name too long" +:+ newline) [str file_name]; Ok (inl out)
    else
      let h := strlcpy name file_name (replicate 512 0) in
      h ← snprintf mode (size mode) "%07o" (if type =? USTAR_REGULAR then 420 else 493) h;
      let h := strlcpy gid (chars "0000000") (strlcpy uid (chars "0000000") h) in
      h ← snprintf file_size (size file_size) "%011o" sz h;
      h ← snprintf mtime (size file_size) "%011o" 1136102400 h;
      let h := store typeflag [u8 type] h in
      let h := strlcpy magic (chars "ustar") h in
      let h := store version [48; 48] h in
      let h := strlcpy uname (chars "root") (strlcpy gname (chars "root") h) in
      h ← snprintf chksum (size chksum) "%07o" (calculate_chksum h) h;
      Ok (inr h).

(** ** Parsing a header *)

Fixpoint parse_octal (s : list Z) (ofs value : Z) : option Z :=
  match s with
  | [] => None
  | c :: s =>
      if (48 <=? c) && (c <=? 55) then
        if ULONG_MAX / 8 <? value then None else parse_octal s (ofs + 1) (c - 48 + value * 8)
      else if (c =? 32) || (c =? 0) then if 0 <? ofs then Some value else None
      else None
  end.
(** The [size] bytes of the field; [None] is failure. *)
Definition parse_octal_field (s : list Z) : option Z := parse_octal s 0 0.

Fixpoint is_all_zeros (block : list Z) : bool :=
  match block with
  | [] => true
  | c :: block => if negb (c =? 0) then false else is_all_zeros block
  end.

(** The bytes up to the first null byte. *)
Fixpoint string_at (s : list Z) : list Z :=
  match s with
  | [] => []
  | c :: s => if c =? 0 then [] else c :: string_at s
  end.

(** A name, which is null at the end of an archive, a type and a size, or an
    error message. *)
Definition parsed : Type := string + option (list Z) * Z * Z.

Definition ustar_parse_header (h : list Z) : res parsed :=
  if is_all_zeros h then Ok (inr (None, USTAR_EOF, 0))
  else if negb (bool_decide (field magic h = chars "ustar" ++ [0])) then Ok (inl "not a ustar archive")
  else if negb (char_at 263 h =? 48) || negb (char_at 264 h =? 48) then Ok (inl "invalid ustar version")
  else
    match parse_octal_field (field chksum h) with
    | None => Ok (inl "corrupt chksum field")
    | Some sum =>
        if negb (sum =? calculate_chksum h) then Ok (inl "checksum mismatch")
        else if negb (char_at 99 h =? 0) || negb (char_at (offset prefix) h =? 0) then Ok (inl "file name too long")
        else
          let type := char_at (offset typeflag) h in
          let finish sz := nm ← strip_antisocial_prefixes (string_at h); Ok (inr (Some nm, type, sz)) in
          if negb (type =? USTAR_REGULAR) && negb (type =? USTAR_DIRECTORY) then Ok (inl "unimplemented file type")
          else if type =? USTAR_REGULAR then
            match parse_octal_field (field file_size h) with
            | None => Ok (inl "corrupt file size field")
            | Some sz => if INT_MAX <? sz then Ok (inl "file too large") else finish sz
            end
          else finish 0
    end.
End Ustar.
