(* ===== verification/UstarProps.v ===== *)
(** * Properties of archive headers *)
From stdpp Require Import base list list_numbers sets strings.
From Stdlib Require Import ZArith Lia.
From S2P Require Import Prelude Stdio StdioProps Ustar.

Module UstarProps.
Import Stdio StdioProps Ustar.

(** ** Octal numbers of a fixed width *)

Fixpoint octal (w : nat) (n : Z) : list Z :=
  match w with
  | O => []
  | S w => octal w (n / 8) ++ [48 + n mod 8]
  end.
Lemma octal_length w n : length (octal w n) = w.
Proof. revert n. induction w as [|w IH]; intros n; [done|]. cbn. rewrite length_app, IH. simpl. lia. Qed.
Lemma octal_zero w : octal w 0 = replicate w 48.
Proof.
  induction w as [|w IH]; [done|]. cbn [octal]. change (0 / 8) with 0. rewrite IH. change (48 + 0 mod 8) with 48.
  by rewrite <- replicate_S_end.
Qed.
Lemma octal_digits w n : Forall (λ c, 48 ≤ c ≤ 55) (octal w n).
Proof.
  revert n. induction w as [|w IH]; intros n; [constructor|]. cbn. apply Forall_app. split; [done|].
  constructor; [|done]. pose proof (Z.mod_pos_bound n 8). lia.
Qed.

Lemma octal_digit i : 0 ≤ i < 8 → digits base_o !! Z.to_nat i = Some (48 + i).
Proof.
  intros Hi. assert (Forall (λ i, digits base_o !! Z.to_nat i = Some (48 + i)) (seqZ 0 8)) as Hall by (repeat constructor).
  rewrite Forall_forall in Hall. apply Hall, elem_of_seqZ. lia.
Qed.

Lemma push_octal k : ∀ fuel v cnt buf,
  0 ≤ v < 8^(Z.of_nat k) → (k < fuel)%nat → (length buf + k ≤ 64)%nat →
  ∃ l, push_digits fuel base_o ZERO v cnt buf = Ok (l ++ buf) ∧ (length l ≤ k)%nat ∧ replicate (k - length l) 48 ++ l = octal k v
    ∧ (v = 0 ↔ l = []).
Proof.
  induction k as [|k IH]; intros [|fuel] v cnt buf Hv Hf Hl; try lia; cbn [push_digits].
  { assert (v = 0) as -> by (simpl in Hv; lia). by exists []. }
  destruct (Z.eqb_spec v 0) as [->|Hne].
  { exists []. split_and!; [done | simpl; lia | | done]. rewrite octal_zero, app_nil_r, Nat.sub_0_r. done. }
  change (has ZERO GROUP) with false. cbn [andb]. unfold mbind, res_bind. change (base base_o) with 8.
  rewrite octal_digit by (apply Z.mod_pos_bound; lia). rewrite push_char_ok by lia.
  rewrite Nat2Z.inj_succ, Z.pow_succ_r in Hv by lia.
  destruct (IH fuel (v / 8) (cnt + 1) ((48 + v mod 8) :: buf)) as (l & -> & Hlen & Ho & _);
    [split; [apply Z.div_pos; lia | apply Z.div_lt_upper_bound; lia] | lia | simpl; lia|].
  exists (l ++ [48 + v mod 8]). split_and!.
  - by rewrite <- app_assoc.
  - rewrite length_app. simpl. lia.
  - cbn [octal]. rewrite <- Ho, length_app, app_assoc. simpl. by replace (S k - (length l + 1))%nat with (k - length l)%nat by lia.
  - split; [done|]. by destruct l.
Qed.

(** [%0wo] *)
Lemma format_octal w v : (0 < w < 60)%nat → 0 ≤ v < 8^(Z.of_nat w) →
  format_integer v false false base_o (mk_conversion ZERO (Z.of_nat w) (-1) INT) = Ok (octal w v).
Proof.
  intros Hw Hv. destruct (push_octal w 65 v 0 []) as (l & E & Hlen & Ho & H0); [done | lia | simpl; lia|].
  assert (push_zeros 65 1 l = Ok (if decide (l = []) then [48] else l)) as E2.
  { destruct l as [|c l]; [done|]. rewrite decide_False by done. cbn [push_zeros]. rewrite (proj2 (Z.ltb_ge _ 1)); [done|]. simpl. lia. }
  rewrite app_nil_r in E.
  rewrite (format_integer_eq v false false base_o _ (if decide (l = []) then [48] else l)).
  2: { cbn [flags precision]. rewrite E. unfold mbind, res_bind. change (if -1 <? 0 then 1 else -1) with 1. by rewrite E2. }
  cbn [flags width sign_char]. change (Z.land ZERO (Z.lor MINUS ZERO) =? 0) with false. change (has ZERO ZERO) with true.
  change (has ZERO MINUS) with false. cbv iota. rewrite app_nil_r. change (hex_prefix base_o ZERO v) with (@nil Z).
  cbn [app length]. f_equal. unfold output_dup, s32. case_decide as Hn.
  - subst l. simpl in Ho. rewrite sgn_small by (simpl; lia). rewrite <- Ho, app_nil_r, Nat.sub_0_r.
    replace w with (S (w - 1)) at 2 by lia. rewrite replicate_S_end. do 2 f_equal. simpl. lia.
  - rewrite sgn_small by lia. rewrite <- Ho. do 2 f_equal. lia.
Qed.

Lemma printf_octal (w : nat) (format : list Z) n :
  format = 48 :: [48 + Z.of_nat w; 111] ∧ (0 < w < 10)%nat ∨ format = [48; 49; 49; 111] ∧ w = 11%nat →
  u32 n < 8 ^ Z.of_nat w → __vprintf (37 :: format) [VWord n] = Ok (octal w (u32 n)).
Proof.
  intros Hf Hn. pose proof (u32_range n) as Hr. unfold __vprintf. cbn [vprintf_at length].
  rewrite vprintf_eq by (destruct Hf as [[-> _]|[-> _]]; done).
  assert (parse_conversion format [VWord n] = Ok ([111], mk_conversion ZERO (Z.of_nat w) (-1) INT, [VWord n])) as ->.
  { destruct Hf as [[-> Hw]|[-> ->]]; [|done]. do 10 (destruct w as [|w]; [lia || done|]). lia. }
  cbn [mbind res_bind]. unfold convert. change ((111 =? 100) || (111 =? 105)) with false.
  change ((111 =? 111) || (111 =? 117) || (111 =? 120) || (111 =? 88)) with true. cbn [type unsigned_arg va_word mbind res_bind].
  change (if 111 =? 111 then base_o else _) with base_o. rewrite format_octal by lia.
  cbn. by rewrite app_nil_r.
Qed.

Definition digit_step (acc c : Z) : Z := c - 48 + acc * 8.
Lemma foldl_digits ds acc : Forall (λ c, 48 ≤ c ≤ 55) ds → 0 ≤ acc → acc ≤ foldl digit_step acc ds.
Proof.
  revert acc. induction ds as [|c ds IH]; intros acc Hd Ha; [done|]. apply Forall_cons in Hd as [Hc Hd]. cbn.
  assert (acc ≤ digit_step acc c) by (unfold digit_step; lia). etrans; [done|]. apply IH; [done | lia].
Qed.
Lemma parse_octal_app ds r ofs acc :
  Forall (λ c, 48 ≤ c ≤ 55) ds → 0 ≤ acc → foldl digit_step acc ds < 2^32 →
  parse_octal (ds ++ r) ofs acc = parse_octal r (ofs + Z.of_nat (length ds)) (foldl digit_step acc ds).
Proof.
  revert ofs acc. induction ds as [|c ds IH]; intros ofs acc Hd Ha Hv; [simpl; f_equal; lia|].
  apply Forall_cons in Hd as [Hc Hd]. cbn [app parse_octal foldl length] in *.
  rewrite (proj2 (andb_true_iff _ _)) by (split; apply Z.leb_le; lia).
  assert (0 ≤ digit_step acc c) by (unfold digit_step; lia). pose proof (foldl_digits ds (digit_step acc c) Hd H).
  assert (digit_step acc c < 2^32) by lia. change (ULONG_MAX / 8) with (2^29 - 1).
  rewrite (proj2 (Z.ltb_ge _ _)) by (unfold digit_step in *; lia).
  change (c - 48 + acc * 8) with (digit_step acc c). rewrite IH by (done || lia). f_equal. lia.
Qed.
Lemma foldl_octal w : ∀ v acc, 0 ≤ v < 8^(Z.of_nat w) → foldl digit_step acc (octal w v) = acc * 8^(Z.of_nat w) + v.
Proof.
  induction w as [|w IH]; intros v acc Hv; [simpl in *; lia|]. cbn [octal]. rewrite foldl_app.
  rewrite Nat2Z.inj_succ, Z.pow_succ_r in * by lia.
  rewrite IH by (split; [apply Z.div_pos; lia | apply Z.div_lt_upper_bound; lia]). cbn. unfold digit_step.
  pose proof (Z.div_mod v 8). lia.
Qed.
Lemma parse_octal_ok w v r : (0 < w)%nat → 0 ≤ v < 8^(Z.of_nat w) → v < 2^32 → parse_octal_field (octal w v ++ 0 :: r) = Some v.
Proof.
  intros Hw Hv H32. unfold parse_octal_field. rewrite parse_octal_app; [|apply octal_digits | done | rewrite foldl_octal by done; lia].
  rewrite foldl_octal, octal_length by done. cbn. rewrite (proj2 (Z.ltb_lt _ _)) by lia. done.
Qed.

Lemma parse_octal_nonneg_at s ofs acc v : 0 ≤ acc → parse_octal s ofs acc = Some v → 0 ≤ v.
Proof.
  revert ofs acc. induction s as [|c s IH]; intros ofs acc Ha; [done|]. cbn.
  destruct (Z.leb_spec 48 c), (Z.leb_spec c 55); cbn [andb]; try (repeat case_match; naive_solver).
  destruct (_ <? acc); [done|]. apply IH. lia.
Qed.
Lemma parse_octal_nonneg s v : parse_octal_field s = Some v → 0 ≤ v.
Proof. by apply parse_octal_nonneg_at. Qed.

(** ** Members *)

Definition inside (f : member) : Prop := 0 ≤ offset f ∧ 0 < size f ∧ offset f + size f ≤ 512.
Definition disjoint (f g : member) : Prop := offset f + size f ≤ offset g ∨ offset g + size g ≤ offset f.
Definition fits (f : member) (x : list Z) : Prop := Z.of_nat (length x) ≤ size f.

Lemma store_length f x h : inside f → fits f x → length h = 512%nat → length (store f x h) = 512%nat.
Proof. unfold inside, fits, store. intros ? ? Hl. rewrite !length_app, length_take, length_drop. lia. Qed.
Lemma store_lookup f x h i : inside f → fits f x → length h = 512%nat →
  store f x h !! i = if decide (Z.to_nat (offset f) ≤ i < Z.to_nat (offset f) + length x)%nat then x !! (i - Z.to_nat (offset f))%nat else h !! i.
Proof.
  unfold inside, fits, store. intros Hf Hx Hl. case_decide as Hi.
  - rewrite lookup_app_r, length_take by (rewrite length_take; lia). rewrite lookup_app_l by lia. f_equal. lia.
  - destruct (decide (i < Z.to_nat (offset f))%nat).
    + rewrite lookup_app_l by (rewrite length_take; lia). by rewrite lookup_take_lt.
    + rewrite lookup_app_r, length_take by (rewrite length_take; lia). rewrite lookup_app_r by lia. rewrite lookup_drop. f_equal. lia.
Qed.
Lemma field_lookup f h i : field f h !! i = if decide (i < Z.to_nat (size f))%nat then h !! (Z.to_nat (offset f) + i)%nat else None.
Proof. unfold field. case_decide; [rewrite lookup_take_lt by done; by rewrite lookup_drop | by rewrite lookup_take_ge by lia]. Qed.

Lemma field_other f g x h :
  inside f → inside g → disjoint f g → fits g x → length h = 512%nat → field f (store g x h) = field f h.
Proof.
  intros Hf Hg Hd Hx Hl. apply list_eq. intros i. rewrite !field_lookup. case_decide; [|done].
  rewrite store_lookup, decide_False by (try done; unfold inside, disjoint, fits in *; lia). done.
Qed.
Lemma char_other i g x h :
  0 ≤ i → inside g → i < offset g ∨ offset g + size g ≤ i → fits g x → length h = 512%nat → char_at i (store g x h) = char_at i h.
Proof. intros Hi Hg Hd Hx Hl. unfold char_at. rewrite store_lookup, decide_False by (try done; unfold inside, fits in *; lia). done. Qed.
Lemma field_same f x h :
  inside f → fits f x → length h = 512%nat → field f (store f x h) = x ++ drop (length x) (field f h).
Proof.
  intros Hf Hx Hl. apply list_eq. intros i. rewrite field_lookup. destruct (decide (i < length x)%nat).
  - rewrite lookup_app_l by done. rewrite decide_True by (unfold fits in *; lia). rewrite store_lookup, decide_True by (done || lia). f_equal. lia.
  - rewrite lookup_app_r, lookup_drop by lia. rewrite field_lookup. replace (length x + (i - length x))%nat with i by lia.
    case_decide; [|done]. rewrite store_lookup, decide_False by (done || lia). done.
Qed.
Lemma char_field f i h : inside f → offset f ≤ i < offset f + size f → char_at i h = default 0 (field f h !! Z.to_nat (i - offset f)).
Proof.
  unfold inside. intros Hf Hi. unfold char_at. rewrite field_lookup, decide_True by lia. do 2 f_equal. lia.
Qed.

(** Several members. *)
Definition compose (ws : list (member * list Z)) (h : list Z) : list Z := foldl (λ h w, store w.1 w.2 h) h ws.
Definition write_ok (w : member * list Z) : Prop := inside w.1 ∧ fits w.1 w.2.
Lemma compose_length ws h : Forall write_ok ws → length h = 512%nat → length (compose ws h) = 512%nat.
Proof. intros Hw. revert h. induction Hw as [|w ws [Hi Hf] _ IH]; intros h Hl; [done|]. cbn. by apply IH, store_length. Qed.
Lemma compose_bytes ws h (P : Z → Prop) : Forall (λ w, Forall P w.2) ws → Forall P h → Forall P (compose ws h).
Proof.
  intros Hw. revert h. induction Hw as [|w ws Hx _ IH]; intros h Hl; [done|]. cbn. apply IH. unfold store.
  rewrite !Forall_app. auto using Forall_take, Forall_drop.
Qed.
Lemma compose_none f ws h :
  inside f → Forall write_ok ws → Forall (λ w, disjoint f w.1) ws → length h = 512%nat → field f (compose ws h) = field f h.
Proof.
  intros Hf Hw. revert h. induction Hw as [|w ws [Hi Hx] Hw IH]; intros h Hd Hl; [done|]. apply Forall_cons in Hd as [Hd Hds].
  change (compose (w :: ws) h) with (compose ws (store w.1 w.2 h)). rewrite IH; [by apply field_other | done | by apply store_length].
Qed.
Lemma compose_field a f x b h :
  Forall write_ok (a ++ (f, x) :: b) → Forall (λ w, disjoint f w.1) b → length h = 512%nat →
  field f (compose (a ++ (f, x) :: b) h) = x ++ drop (length x) (field f (compose a h)).
Proof.
  intros [Ha [[Hf Hx] Hb]%Forall_cons]%Forall_app Hd Hl. unfold compose. rewrite foldl_app. cbn [foldl fst snd].
  fold (compose a h). fold (compose b (store f x (compose a h))).
  assert (length (compose a h) = 512%nat) by by apply compose_length.
  rewrite compose_none by (try done; by apply store_length). by apply field_same.
Qed.

(** ** Names *)

(** A name that stays inside the directory it is extracted to, as far as its
    first component goes. *)
Definition social (s : list Z) : Prop := antisocial s = false ∧ s ≠ [] ∧ s ≠ chars "..".

Lemma after_slash_suffix s : after_slash s `suffix_of` s.
Proof.
  induction s as [|c s IH]; [done|]. cbn. destruct (c =? 47); [by apply suffix_cons_r | by apply suffix_cons_r].
Qed.
Lemma after_slash_shorter s : s ≠ [] → (length (after_slash s) < length s)%nat.
Proof.
  destruct s as [|c s]; [done|]. intros _. cbn. pose proof (suffix_length _ _ (after_slash_suffix s)).
  destruct (c =? 47); lia.
Qed.
Lemma strip_loop_ok fuel : ∀ s, (length s ≤ fuel)%nat → ∃ r, strip_loop fuel s = Ok r ∧ antisocial r = false ∧ r `suffix_of` s.
Proof.
  induction fuel as [|fuel IH]; intros s Hl.
  - destruct s; [|simpl in Hl; lia]. by exists [].
  - cbn [strip_loop]. destruct (antisocial s) eqn:Ha; [|by exists s].
    destruct s as [|c s]; [done|]. destruct (IH (after_slash (c :: s))) as (r & Hr & ? & Hs).
    { pose proof (after_slash_shorter (c :: s) ltac:(done)). simpl in *. lia. }
    exists r. split_and!; [done..|]. etrans; [exact Hs|]. apply after_slash_suffix.
Qed.
Lemma strip_ok nm : ∃ s, strip_antisocial_prefixes nm = Ok s ∧ social s ∧ (s `suffix_of` nm ∨ s = [46]).
Proof.
  destruct (strip_loop_ok (length nm) nm) as (r & Hr & Ha & Hs); [done|]. unfold strip_antisocial_prefixes. rewrite Hr.
  unfold mbind, res_bind. destruct (bool_decide_reflect (r = [])) as [->|H0]; [eexists; split; [done|]; split; [done | by right]|].
  destruct (bool_decide_reflect (r = chars "..")) as [->|H1]; [eexists; split; [done|]; split; [done | by right]|].
  cbn. exists r. split; [done|]. split; [done | by left].
Qed.
Lemma strip_social s : social s → strip_antisocial_prefixes s = Ok s.
Proof.
  intros (Ha & H0 & H1). unfold strip_antisocial_prefixes. assert (strip_loop (length s) s = Ok s) as ->.
  { destruct s as [|c s]; [done|]. cbn [length strip_loop]. by rewrite Ha. }
  unfold mbind, res_bind. by rewrite !bool_decide_eq_false_2.
Qed.
Lemma strip_chars nm s (P : Z → Prop) : strip_antisocial_prefixes nm = Ok s → Forall P nm → P 46 → Forall P s.
Proof.
  intros E Hnm Hdot. destruct (strip_ok nm) as (s' & E' & _ & Hs). rewrite E in E'. injection E' as <-.
  destruct Hs as [[k ->]| ->]; [by apply Forall_app in Hnm as [_ ?] | by constructor].
Qed.

Lemma string_at_app s r : Forall (λ c, 0 < c < 256) s → string_at (s ++ 0 :: r) = s.
Proof.
  induction 1 as [|c s Hc _ IH]; [done|]. cbn. rewrite (proj2 (Z.eqb_neq c 0)) by lia. by rewrite IH.
Qed.
Lemma string_at_length h n : h !! n = Some 0 → (length (string_at h) ≤ n)%nat.
Proof.
  revert n. induction h as [|c h IH]; intros n Hn; [done|]. cbn. destruct (Z.eqb_spec c 0); [simpl; lia|].
  destruct n as [|n]; [simpl in Hn; congruence|]. simpl in *. apply IH in Hn. lia.
Qed.

Lemma string_at_chars h : Forall (λ c, 0 ≤ c < 256) h → Forall (λ c, 0 < c < 256) (string_at h).
Proof.
  induction 1 as [|c h Hc _ IH]; [constructor|]. cbn. destruct (Z.eqb_spec c 0); [constructor|]. constructor; [lia | done].
Qed.

(** ** Checksums *)

Definition summand (h : list Z) (i : Z) : Z :=
  if (offset chksum <=? i) && (i <? offset chksum + size chksum) then 32 else char_at i h.
Definition is_header (h : list Z) : Prop := length h = 512%nat ∧ Forall (λ c, 0 ≤ c < 256) h.
Definition total (l : list Z) : Z := foldr Z.add 0 l.

Lemma char_range h i : is_header h → 0 ≤ char_at i h < 256.
Proof.
  intros [_ Hb]. unfold char_at. destruct (h !! Z.to_nat i) as [c|] eqn:E; simpl; [|lia].
  rewrite Forall_forall in Hb. apply Hb. by eapply list_elem_of_lookup_2.
Qed.
Lemma summand_range h i : is_header h → 0 ≤ summand h i < 256.
Proof. intros Hh. unfold summand. destruct (_ && _); [lia | by apply char_range]. Qed.
Lemma foldl_sum h l acc :
  is_header h → 0 ≤ acc → acc + 256 * Z.of_nat (length l) < 2^32 →
  foldl (λ sum i, u32 (sum + summand h i)) acc l = acc + total (summand h <$> l).
Proof.
  intros Hh. revert acc. induction l as [|i l IH]; intros acc Ha Hl; [simpl; lia|]. cbn [foldl fmap list_fmap total foldr length] in *.
  pose proof (summand_range h i Hh). rewrite u32_small by lia. rewrite IH by lia. unfold total. simpl. lia.
Qed.
Lemma chksum_total h : is_header h → calculate_chksum h = total (summand h <$> seqZ 0 512).
Proof. intros Hh. unfold calculate_chksum. rewrite (foldl_sum h) by (done || lia || (rewrite length_seqZ; unfold USTAR_HEADER_SIZE; lia)). apply Z.add_0_l. Qed.
Lemma total_range l : Forall (λ c, 0 ≤ c < 256) l → 0 ≤ total l ≤ 255 * Z.of_nat (length l).
Proof. unfold total. induction 1; simpl; lia. Qed.
Lemma chksum_range h : is_header h → 0 ≤ calculate_chksum h < 8^6.
Proof.
  intros Hh. rewrite chksum_total by done. pose proof (total_range (summand h <$> seqZ 0 512)) as Ht.
  rewrite length_fmap, length_seqZ in Ht. enough (Forall (λ c, 0 ≤ c < 256) (summand h <$> seqZ 0 512)) by (specialize (Ht H); lia).
  apply Forall_fmap, Forall_forall. intros i _. by apply summand_range.
Qed.
Lemma chksum_ext h h' : is_header h → is_header h' → (∀ i, 0 ≤ i < 512 → summand h i = summand h' i) → calculate_chksum h = calculate_chksum h'.
Proof.
  intros Hh Hh' He. rewrite !chksum_total by done. f_equal. apply list_fmap_ext. intros j i Hi. apply He.
  apply list_elem_of_lookup_2, elem_of_seqZ in Hi. lia.
Qed.

Definition apart (f g : member) : bool := (offset f + size f <=? offset g) || (offset g + size g <=? offset f).
Lemma apart_all f (ws : list (member * list Z)) : forallb (apart f) ws.*1 = true → Forall (λ w, disjoint f w.1) ws.
Proof.
  induction ws as [|w ws IH]; [done|]. cbn. rewrite andb_true_iff. intros [Hw Hs]. constructor; [|by apply IH].
  unfold apart, disjoint in *. lia.
Qed.

(** ** The header that is composed *)

Definition text (f : member) (s : list Z) : list Z := take (Z.to_nat (size f - 1)) s ++ [0].
Definition contents (s : list Z) (type sz : Z) : list (member * list Z) :=
  [(name, text name s); (mode, octal 7 (if type =? USTAR_REGULAR then 420 else 493) ++ [0]);
   (uid, text uid (chars "0000000")); (gid, text gid (chars "0000000")); (file_size, octal 11 (u32 sz) ++ [0]);
   (mtime, octal 11 (u32 1136102400) ++ [0]); (typeflag, [u8 type]); (magic, text magic (chars "ustar")); (version, [48; 48]);
   (gname, text gname (chars "root")); (uname, text uname (chars "root"))].
Definition bare (s : list Z) (type sz : Z) : list Z := compose (contents s type sz) (replicate 512 0).
Definition full (s : list Z) (type sz : Z) : list (member * list Z) :=
  contents s type sz ++ [(chksum, octal 7 (calculate_chksum (bare s type sz)) ++ [0])].
Definition header (s : list Z) (type sz : Z) : list Z := compose (full s type sz) (replicate 512 0).

Lemma full_ok s type sz : Forall write_ok (full s type sz).
Proof.
  unfold full, contents. cbn [app]. repeat (apply Forall_cons; split; [split|]); [..|apply Forall_nil; done]; cbn [fst snd]; unfold inside, fits, text;
    rewrite ?length_app, ?octal_length, ?length_take; cbn -[Nat.min Z.of_nat Z.le Z.lt]; lia.
Qed.
Lemma full_bytes s type sz : Forall (λ c, 0 < c < 256) s → Forall (λ w, Forall (λ c, 0 ≤ c < 256) w.2) (full s type sz).
Proof.
  intros Hs. assert (∀ w n, Forall (λ c, 0 ≤ c < 256) (octal w n)) as Ho.
  { intros w n. eapply Forall_impl; [apply octal_digits | simpl; lia]. }
  assert (Forall (λ c, 0 ≤ c < 256) (text name s)).
  { apply Forall_app. split; [|by repeat constructor]. apply Forall_take. eapply Forall_impl; [done | simpl; lia]. }
  assert (∀ l, forallb (λ c, (0 <=? c) && (c <? 256)) l = true → Forall (λ c, 0 ≤ c < 256) l) as Hb.
  { intros l Hl. rewrite forallb_forall in Hl. apply Forall_forall. intros c Hc%list_elem_of_In. specialize (Hl c Hc). lia. }
  assert (∀ w n, Forall (λ c, 0 ≤ c < 256) (octal w n ++ [0])) by (intros w n; apply Forall_app; split; [done | by apply Hb]).
  assert (Forall (λ c, 0 ≤ c < 256) [u8 type]) by (constructor; [apply u8_range | done]).
  unfold full, contents. cbn [app].
  do 12 (apply Forall_cons; split; [cbn [snd]; first [assumption | apply H0 | by apply Hb]|]). by apply Forall_nil.
Qed.
Lemma zeros_header : is_header (replicate 512 0).
Proof. split; [done|]. by apply Forall_replicate. Qed.
Lemma header_ok s type sz : Forall (λ c, 0 < c < 256) s → is_header (header s type sz).
Proof.
  intros Hs. split; [apply compose_length; [apply full_ok | done]|].
  apply compose_bytes; [by apply full_bytes | by apply Forall_replicate].
Qed.
Lemma bare_ok s type sz : Forall (λ c, 0 < c < 256) s → is_header (bare s type sz).
Proof.
  intros Hs. pose proof (full_ok s type sz) as [Hc _]%Forall_app. pose proof (full_bytes s type sz Hs) as [Hb _]%Forall_app.
  split; [by apply compose_length | apply compose_bytes; [done | by apply Forall_replicate]].
Qed.

Lemma snprintf_octal f sz format w n h :
  printf format [VWord n] = Ok (octal w (u32 n)) → sz - 1 = Z.of_nat w → snprintf f sz format n h = Ok (store f (octal w (u32 n) ++ [0]) h).
Proof. intros E Hw. unfold snprintf. rewrite E. unfold mbind, res_bind. by rewrite take_ge by (rewrite octal_length; lia). Qed.
Lemma snprintf7 f n h : 0 ≤ n < 8^7 → snprintf f 8 "%07o" n h = Ok (store f (octal 7 n ++ [0]) h).
Proof.
  intros Hn. assert (u32 n = n) as Hu by (apply u32_small; lia). rewrite <- Hu at 2. apply snprintf_octal; [|done].
  unfold printf. change (chars "%07o") with (37 :: [48; 55; 111]). apply printf_octal; [left; split; [done | lia]|].
  rewrite Hu. change (Z.of_nat 7) with 7. lia.
Qed.
Lemma snprintf11 f n h : snprintf f 12 "%011o" n h = Ok (store f (octal 11 (u32 n) ++ [0]) h).
Proof.
  apply snprintf_octal; [|done]. unfold printf. change (chars "%011o") with (37 :: [48; 49; 49; 111]). apply printf_octal; [by right|].
  pose proof (u32_range n). change (Z.of_nat 11) with 11. lia.
Qed.

Lemma res_bind_ok {A B} (r : res A) (k : A → res B) a : r = Ok a → (r ≫= k) = k a.
Proof. by intros ->. Qed.

Lemma make_header_eq nm s type sz :
  type = USTAR_REGULAR ∨ type = USTAR_DIRECTORY → strip_antisocial_prefixes nm = Ok s → Forall (λ c, 0 < c < 256) s → (length s ≤ 99)%nat →
  ustar_make_header nm type sz = Ok (inr (header s type sz)).
Proof.
  intros Ht Hs Hc Hl. unfold ustar_make_header.
  assert (negb ((type =? USTAR_REGULAR) || (type =? USTAR_DIRECTORY)) = false) as -> by (destruct Ht as [-> | ->]; done).
  rewrite (res_bind_ok _ _ _ Hs). rewrite (proj2 (Z.ltb_ge _ _)) by lia.
  cbv zeta. cbn [size mode file_size mtime chksum].
  erewrite res_bind_ok by (apply snprintf7; by destruct (type =? USTAR_REGULAR)).
  erewrite res_bind_ok by apply snprintf11. erewrite res_bind_ok by apply snprintf11.
  pose proof (chksum_range _ (bare_ok s type sz Hc)) as Hr.
  erewrite res_bind_ok; [|apply snprintf7].
  - unfold header, full, compose. rewrite foldl_app. cbn [foldl fst snd]. unfold bare, compose, contents, strlcpy, text.
    cbn [foldl fst snd]. reflexivity.
  - unfold bare, compose, contents, text in Hr. cbn [foldl fst snd] in Hr. unfold strlcpy. change (8^7) with (8 * 8^6). lia.
Qed.

Lemma header_field k f x s type sz :
  full s type sz !! k = Some (f, x) → Forall (λ w, disjoint f w.1) (drop (S k) (full s type sz)) →
  ∃ r, field f (header s type sz) = x ++ r.
Proof.
  intros Hk Hd. unfold header. rewrite <- (take_drop_middle _ _ _ Hk). eexists. apply compose_field; [|done|done].
  rewrite (take_drop_middle _ _ _ Hk). apply full_ok.
Qed.
Ltac header_field k := eapply (header_field k); [reflexivity | by apply apart_all].

Lemma header_prefix s type sz : char_at 345 (header s type sz) = 0.
Proof.
  rewrite (char_field prefix) by (unfold inside; simpl; lia). unfold header. rewrite compose_none; [done | | apply full_ok | | done].
  - unfold inside. simpl. lia.
  - by apply apart_all.
Qed.
Lemma header_name s type sz : (length s ≤ 99)%nat →
  ∃ r, header s type sz = s ++ 0 :: r ∧ char_at 99 (header s type sz) = 0.
Proof.
  intros Hl. assert (field name (header s type sz) = (s ++ [0]) ++ drop (length (s ++ [0])) (field name (replicate 512 0))) as Hf.
  { assert (text name s = s ++ [0]) as <- by (unfold text; rewrite take_ge; [done | simpl; lia]). unfold header. apply (compose_field []); [apply full_ok | by apply apart_all | done]. }
  eexists. split.
  - unfold field in Hf. change (Z.to_nat (offset name)) with 0%nat in Hf. rewrite drop_0 in Hf.
    rewrite <- (take_drop (Z.to_nat (size name)) (header s type sz)) at 1. rewrite Hf, <- !app_assoc. reflexivity.
  - rewrite (char_field name) by (unfold inside; simpl; lia). rewrite Hf. change (Z.to_nat (99 - offset name)) with 99%nat.
    destruct (decide (length s = 99%nat)) as [E|E].
    + rewrite lookup_app_l by (rewrite length_app; simpl; lia). rewrite lookup_app_r by lia. by rewrite E.
    + rewrite lookup_app_r by (rewrite length_app; simpl; lia). rewrite lookup_drop. rewrite length_app. cbn [length].
      replace (length s + 1 + (99 - (length s + 1)))%nat with 99%nat by lia. done.
Qed.
Lemma all_zeros_char h i : is_all_zeros h = true → char_at i h = 0.
Proof.
  intros Hz. unfold char_at. revert Hz. generalize (Z.to_nat i) as n. induction h as [|c h IH]; intros n; [done|]. cbn.
  destruct (Z.eqb_spec c 0) as [->|]; [|done]. intros Hz. destruct n; [done|]. by apply IH.
Qed.

Lemma chksum_stored h x : is_header h → is_header (store chksum x h) → fits chksum x → calculate_chksum (store chksum x h) = calculate_chksum h.
Proof.
  intros Hh Hs Hx. apply chksum_ext; [done..|]. intros i Hi. unfold summand.
  destruct (Z.leb_spec (offset chksum) i), (Z.ltb_spec i (offset chksum + size chksum)); cbn [andb]; try done;
    (apply char_other; [lia | unfold inside; simpl; lia | lia | done | apply Hh]).
Qed.
Lemma header_sum s type sz : Forall (λ c, 0 < c < 256) s → calculate_chksum (header s type sz) = calculate_chksum (bare s type sz).
Proof.
  intros Hs. pose proof (header_ok s type sz Hs) as Hh. revert Hh. unfold header, full, compose. rewrite foldl_app. cbn [foldl fst snd].
  fold (compose (contents s type sz) (replicate 512 0)). fold (bare s type sz). intros Hh.
  apply chksum_stored; [by apply bare_ok | done|]. unfold fits. rewrite length_app, octal_length. simpl. lia.
Qed.

(** What the parser reads. *)
Lemma parse_header_eq s type sz :
  type = USTAR_REGULAR ∨ type = USTAR_DIRECTORY → social s → Forall (λ c, 0 < c < 256) s → (length s ≤ 99)%nat → -2^31 ≤ sz < 2^31 →
  ustar_parse_header (header s type sz)
  = Ok (if (type =? USTAR_REGULAR) && (sz <? 0) then inl "file too large"
        else inr (Some s, type, if type =? USTAR_REGULAR then sz else 0)).
Proof.
  intros Ht Hsoc Hs Hl Hsz. set (h := header s type sz).
  assert (∃ r, field magic h = (chars "ustar" ++ [0]) ++ r) as [r1 Hmagic] by header_field 7%nat.
  assert (∃ r, field version h = [48; 48] ++ r) as [r2 Hver] by header_field 8%nat.
  assert (∃ r, field typeflag h = [u8 type] ++ r) as [r3 Htype] by header_field 6%nat.
  assert (∃ r, field file_size h = (octal 11 (u32 sz) ++ [0]) ++ r) as [r4 Hsize] by header_field 4%nat.
  assert (∃ r, field chksum h = (octal 7 (calculate_chksum (bare s type sz)) ++ [0]) ++ r) as [r5 Hsum] by header_field 11%nat.
  assert (r1 = []) as ->.
  { assert (length (field magic h) ≤ 6)%nat as Hle by (unfold field; rewrite length_take; change (Z.to_nat (size magic)) with 6%nat; lia).
    rewrite Hmagic, length_app in Hle. destruct r1; [done | simpl in Hle; lia]. }
  assert (char_at 257 h = 117 ∧ char_at 263 h = 48 ∧ char_at 264 h = 48 ∧ char_at 156 h = type) as (H1 & H2 & H3 & H4).
  { rewrite (char_field magic 257), (char_field version 263), (char_field version 264), (char_field typeflag 156) by (unfold inside; simpl; lia).
    rewrite Hmagic, Hver, Htype. split_and!; try done. cbn. by destruct Ht as [-> | ->]. }
  destruct (header_name s type sz Hl) as (r & Hname & H99). fold h in Hname, H99.
  pose proof (chksum_range _ (bare_ok s type sz Hs)) as Hr. pose proof (u32_range sz) as Hu.
  unfold ustar_parse_header. destruct (is_all_zeros h) eqn:Hz; [by rewrite (all_zeros_char h 257 Hz) in H1|].
  rewrite Hmagic, bool_decide_eq_true_2 by done. cbn [negb]. rewrite H2, H3. cbn [Z.eqb negb orb].
  rewrite Hsum, <- app_assoc. cbn [app]. rewrite (parse_octal_ok 7) by (change (Z.of_nat 7) with 7; lia).
  unfold h at 1. rewrite header_sum, Z.eqb_refl by done. fold h. cbn [negb].
  change (offset prefix) with 345. unfold h at 2. rewrite header_prefix, H99. cbn [Z.eqb negb orb].
  change (offset typeflag) with 156. rewrite H4.
  assert (strip_antisocial_prefixes (string_at h) = Ok s) as Hstrip by (rewrite Hname, string_at_app by done; by apply strip_social).
  cbv zeta. rewrite !Hstrip. unfold mbind, res_bind. destruct Ht as [-> | ->]; [|done].
  change (negb (USTAR_REGULAR =? USTAR_REGULAR) && negb (USTAR_REGULAR =? USTAR_DIRECTORY)) with false. rewrite Z.eqb_refl. cbn [andb].
  rewrite Hsize, <- app_assoc. cbn [app]. rewrite (parse_octal_ok 11) by (change (Z.of_nat 11) with 11; lia).
  unfold u32, INT_MAX in *. destruct (Z.ltb_spec sz 0).
  - rewrite (proj2 (Z.ltb_lt _ _)); [done|]. div_lia.
  - rewrite Z.mod_small by lia. by rewrite (proj2 (Z.ltb_ge _ _)) by lia.
Qed.

(** C29: Archive headers survive the way through a sector.  For every file name,
    type and size [ustar_make_header] either finds that the name without its
    antisocial prefixes is too long, or composes a header of 512 bytes from
    which [ustar_parse_header] reads that name, the type and the size back; a
    negative size, which is written as a large one, is refused. *)
Theorem ustar_roundtrip nm type sz :
  type = USTAR_REGULAR ∨ type = USTAR_DIRECTORY → Forall (λ c, 0 < c < 256) nm → -2^31 ≤ sz < 2^31 →
  ∃ s, strip_antisocial_prefixes nm = Ok s ∧ social s
    ∧ if decide (99 < length s)%nat then ∃ msg, ustar_make_header nm type sz = Ok (inl msg)
      else ∃ h, ustar_make_header nm type sz = Ok (inr h) ∧ is_header h
        ∧ ustar_parse_header h = Ok (if (type =? USTAR_REGULAR) && (sz <? 0) then inl "file too large"
                                     else inr (Some s, type, if type =? USTAR_REGULAR then sz else 0)).
Proof.
  intros Ht Hnm Hsz. destruct (strip_ok nm) as (s & Hs & Hsoc & _). exists s. split_and!; [done..|].
  pose proof (strip_chars nm s (λ c, 0 < c < 256) Hs Hnm ltac:(simpl; lia)) as Hc. case_decide as Hl.
  - destruct (printf_ok ("%s: file name too long" +:+ newline) [KString] [str s]) as [out Hout]; [done | by repeat constructor|].
    exists out. unfold ustar_make_header. rewrite (res_bind_ok _ _ _ Hs).
    assert (negb ((type =? USTAR_REGULAR) || (type =? USTAR_DIRECTORY)) = false) as -> by (destruct Ht as [-> | ->]; done).
    rewrite (proj2 (Z.ltb_lt _ _)) by lia. by rewrite (res_bind_ok _ _ _ Hout).
  - exists (header s type sz). split_and!; [apply make_header_eq; (done || lia) | by apply header_ok | apply parse_header_eq; (done || lia)].
Qed.

Definition demo_name : list Z := chars "../bin/a.out".
Lemma ustar_roundtrip_witness :
  ∃ h, ustar_make_header demo_name USTAR_REGULAR 600 = Ok (inr h) ∧ ustar_parse_header h = Ok (inr (Some (chars "bin/a.out"), USTAR_REGULAR, 600)).
Proof.
  destruct (ustar_roundtrip demo_name USTAR_REGULAR 600) as (s & Hs & _ & H); [by left | vm_compute; by repeat constructor | lia|].
  assert (s = chars "bin/a.out") as -> by (vm_compute in Hs; by injection Hs as <-).
  destruct H as (h & Hm & _ & Hp). exists h. by split.
Defined.

(** ** Damaged headers *)

Lemma total_change (f g : Z → Z) i k l :
  NoDup l → (∀ j, g j = f j + if decide (j = i) then k else 0) → total (g <$> l) = total (f <$> l) + if decide (i ∈ l) then k else 0.
Proof.
  intros Hn Hg. unfold total. induction Hn as [|j l Hj Hn IH]; [rewrite decide_False by apply not_elem_of_nil; done|].
  cbn. rewrite IH, Hg. destruct (decide (j = i)) as [->|Hne].
  - rewrite (decide_False (P := i ∈ l)), decide_True by (try done; by left). lia.
  - destruct (decide (i ∈ l)); [rewrite decide_True by (by right); lia|].
    rewrite decide_False; [lia|]. by apply not_elem_of_cons.
Qed.
Lemma char_insert h i j c : is_header h → 0 ≤ i < 512 → 0 ≤ j → char_at j (<[Z.to_nat i := c]> h) = if decide (j = i) then c else char_at j h.
Proof.
  intros [Hl _] Hi Hj. unfold char_at. case_decide as E.
  - subst. by rewrite list_lookup_insert_eq by lia.
  - rewrite list_lookup_insert_ne; [done | lia].
Qed.
Lemma is_header_insert h i c : is_header h → 0 ≤ c < 256 → is_header (<[i := c]> h).
Proof. intros [Hl Hb] Hc. split; [by rewrite length_insert | by apply Forall_insert]. Qed.
Lemma chksum_insert h i c :
  is_header h → 0 ≤ i < 512 → ¬ (148 ≤ i < 156) → 0 ≤ c < 256 →
  calculate_chksum (<[Z.to_nat i := c]> h) = calculate_chksum h + (c - char_at i h).
Proof.
  intros Hh Hi Hn Hc. rewrite !chksum_total by (try done; by apply is_header_insert).
  pose (g j := summand h j + if decide (j = i) then c - char_at i h else 0).
  transitivity (total (g <$> seqZ 0 512)).
  - f_equal. apply list_fmap_ext. intros n j Hj%list_elem_of_lookup_2%elem_of_seqZ. unfold g, summand.
    change (offset chksum) with 148. change (148 + size chksum) with 156. rewrite char_insert by (done || lia).
    destruct (decide (j = i)) as [->|]; [|lia]. destruct (Z.leb_spec 148 i), (Z.ltb_spec i 156); cbn [andb]; lia.
  - rewrite (total_change (summand h) g i (c - char_at i h)) by (done || apply NoDup_seqZ). rewrite decide_True; [done|].
    apply elem_of_seqZ. lia.
Qed.

(** What a header that is accepted has passed. *)
Definition accepted (h : list Z) : Prop :=
  field magic h = chars "ustar" ++ [0] ∧ parse_octal_field (field chksum h) = Some (calculate_chksum h) ∧ char_at 99 h = 0.

Lemma parse_cases h :
  is_header h →
  ∃ r, ustar_parse_header h = Ok r
    ∧ match r with
      | inl _ => True
      | inr (None, type, sz) => is_all_zeros h = true ∧ type = USTAR_EOF ∧ sz = 0
      | inr (Some nm, type, sz) => accepted h ∧ strip_antisocial_prefixes (string_at h) = Ok nm ∧ 0 ≤ sz < 2^31
          ∧ (type = USTAR_REGULAR ∨ type = USTAR_DIRECTORY ∧ sz = 0)
      end.
Proof.
  intros Hh. unfold ustar_parse_header. destruct (is_all_zeros h) eqn:Hz; [by eexists|].
  destruct (bool_decide_reflect (field magic h = chars "ustar" ++ [0])) as [Hm|]; cbn [negb]; [|by eexists].
  destruct (negb _ || negb _); [by eexists|]. destruct (parse_octal_field (field chksum h)) as [sum|] eqn:Hsum; [|by eexists].
  destruct (Z.eqb_spec sum (calculate_chksum h)) as [->|]; cbn [negb]; [|by eexists].
  destruct (Z.eqb_spec (char_at 99 h) 0) as [H99|]; cbn [negb orb]; [|by eexists].
  destruct (negb (char_at (offset prefix) h =? 0)); [by eexists|]. cbv zeta.
  destruct (strip_ok (string_at h)) as (s & Hs & _). unfold mbind, res_bind. rewrite Hs.
  destruct (Z.eqb_spec (char_at (offset typeflag) h) USTAR_REGULAR) as [->|]; cbn [negb andb].
  - destruct (parse_octal_field (field file_size h)) as [sz|] eqn:Hsize; [|by eexists].
    unfold INT_MAX. destruct (Z.ltb_spec (2^31 - 1) sz); [by eexists|]. eexists. split; [done|]. split_and!; try done; [|lia | by left].
    apply parse_octal_nonneg in Hsize. lia.
  - destruct (Z.eqb_spec (char_at (offset typeflag) h) USTAR_DIRECTORY) as [->|]; cbn [negb]; [|by eexists].
    eexists. split; [done|]. split_and!; try done; [lia..|]. by right.
Qed.

Lemma damaged_refused h i c :
  is_header h → accepted h → 0 ≤ i < 512 → ¬ (148 ≤ i < 156) → 0 ≤ c < 256 → c ≠ char_at i h →
  ∃ msg, ustar_parse_header (<[Z.to_nat i := c]> h) = Ok (inl msg).
Proof.
  intros Hh (Hm & Hsum & _) Hi Hn Hc Hne. set (h' := <[Z.to_nat i := c]> h).
  assert (is_header h') as Hh' by by apply is_header_insert.
  assert (is_all_zeros h' = false) as Hz.
  { destruct (is_all_zeros h') eqn:Hz; [|done]. exfalso.
    pose proof (all_zeros_char _ 257 Hz) as H1. pose proof (all_zeros_char _ 258 Hz) as H2. unfold h' in H1, H2.
    rewrite char_insert in H1, H2 by (done || lia). rewrite (char_field magic) in H1, H2 by (unfold inside; simpl; lia).
    rewrite Hm in H1, H2. repeat case_decide; simplify_eq; lia. }
  assert (field chksum h' = field chksum h) as Hf.
  { apply list_eq. intros k. rewrite !field_lookup. case_decide as Hk; [|done]. unfold h'. apply list_lookup_insert_ne.
    simpl in Hk |- *. lia. }
  unfold ustar_parse_header. rewrite Hz. destruct (negb (bool_decide _)); [by eexists|]. destruct (negb _ || negb _); [by eexists|].
  rewrite Hf, Hsum. unfold h' at 1. rewrite chksum_insert by done.
  rewrite (proj2 (Z.eqb_neq _ _)) by lia. by eexists.
Qed.

(** C30: Reading an archive is safe.  Every sector of 512 bytes is parsed to an
    error, to the end of the archive, which is a sector of zeros, or to a
    regular file or a directory.  Its name has 1 to 99 characters and does not
    start with a slash, a dot or two dots as a directory; the size is that of
    an [int] and not negative.  And a header that has been accepted is refused
    if any one byte outside of the checksum is changed. *)
Theorem ustar_parse_sound h :
  is_header h →
  ∃ r, ustar_parse_header h = Ok r
    ∧ match r with
      | inl _ => True
      | inr (None, type, sz) => h = replicate 512 0 ∧ type = USTAR_EOF ∧ sz = 0
      | inr (Some nm, type, sz) => social nm ∧ (1 ≤ length nm ≤ 99)%nat ∧ Forall (λ c, 0 < c < 256) nm ∧ 0 ≤ sz < 2^31
          ∧ (type = USTAR_REGULAR ∨ type = USTAR_DIRECTORY ∧ sz = 0)
          ∧ ∀ i c, 0 ≤ i < 512 → ¬ (148 ≤ i < 156) → 0 ≤ c < 256 → c ≠ char_at i h →
              ∃ msg, ustar_parse_header (<[Z.to_nat i := c]> h) = Ok (inl msg)
      end.
Proof.
  intros Hh. destruct (parse_cases h Hh) as (r & Hr & Hc). exists r. split; [done|].
  destruct r as [|[[[nm|] type] sz]]; [done | | ].
  - destruct Hc as (Hacc & Hs & Hsz & Ht). destruct (strip_ok (string_at h)) as (s' & Hs' & Hsoc & Hsuf).
    rewrite Hs in Hs'. injection Hs' as <-. split_and!; try done; try lia.
    + destruct Hsoc as (_ & Hne & _). destruct nm; [done|]. simpl. lia.
    + assert (length (string_at h) ≤ 99)%nat as Hl.
      { apply string_at_length. destruct Hacc as (_ & _ & H99). unfold char_at in H99. change (Z.to_nat 99) with 99%nat in H99.
        destruct (lookup_lt_is_Some_2 h 99) as [x Hx]; [destruct Hh as [-> _]; lia|]. rewrite Hx in *. by simpl in H99; subst. }
      destruct Hsuf as [Hsuf| ->]; [apply suffix_length in Hsuf; lia | simpl; lia].
    + apply (strip_chars _ _ _ Hs); [|simpl; lia]. by apply string_at_chars, Hh.
    + intros i c Hi Hn Hcc Hne. by apply damaged_refused.
  - destruct Hc as (Hz & -> & ->). split_and!; try done. apply list_eq. intros i. destruct Hh as [Hl _].
    destruct (decide (i < 512)%nat).
    + rewrite lookup_replicate_2 by lia. destruct (lookup_lt_is_Some_2 h i) as [x Hx]; [lia|].
      pose proof (all_zeros_char h (Z.of_nat i) Hz) as H0. unfold char_at in H0. rewrite Nat2Z.id, Hx in H0. simpl in H0. by subst.
    + rewrite !lookup_ge_None_2; [done | rewrite length_replicate; lia | lia].
Qed.

Lemma ustar_parse_sound_witness :
  ∃ h msg, ustar_make_header demo_name USTAR_REGULAR 600 = Ok (inr h) ∧ is_header h
    ∧ ustar_parse_header (<[124%nat := 55]> h) = Ok (inl msg).
Proof.
  pose proof (header_ok (chars "bin/a.out") USTAR_REGULAR 600 ltac:(vm_compute; by repeat constructor)) as Hh.
  destruct (ustar_parse_sound (header (chars "bin/a.out") USTAR_REGULAR 600) Hh) as (r & Hr & Hc).
  assert (r = inr (Some (chars "bin/a.out"), USTAR_REGULAR, 600)) as ->.
  { assert (ustar_parse_header (header (chars "bin/a.out") USTAR_REGULAR 600) = Ok (inr (Some (chars "bin/a.out"), USTAR_REGULAR, 600)))
      as E by (vm_compute; done). rewrite E in Hr. by injection Hr as <-. }
  destruct Hc as (_ & _ & _ & _ & _ & Hd). destruct (Hd 124 55) as [msg Hmsg]; [lia..| by vm_compute |].
  exists (header (chars "bin/a.out") USTAR_REGULAR 600), msg. split; [vm_compute; reflexivity|]. split; [exact Hh | exact Hmsg].
Defined.
End UstarProps.
