(* ===== verification/Fsutil.v ===== *)
(** * Utilities of the kernel command line: filesys/fsutil.c

    Listing, printing and deleting files, and copying files between the file
    system and an archive on the scratch device.  The state is that of the
    file system with its block devices, the two static counters of sectors,
    and the text on the console.  A buffer on the heap is the list of its
    bytes; what it held before it is filled plays no part. *)
From stdpp Require Import base gmap list strings.
From Stdlib Require Import ZArith Lia.
From S2P Require Import Prelude Bitmap Block Filesys Stdio Ustar.

Module Fsutil.
Import Filesys Ustar.

Definition PGSIZE : Z := 4096.
Definition BLOCK_SCRATCH : Z := 2.

Record util (D : Type) := mk_util {
  fsys : fs D;
  extract_sector : Z;
  append_sector : Z;
  console : list Z
}.
Arguments mk_util {D} _ _ _ _.
Arguments fsys {D} _.
Arguments extract_sector {D} _.
Arguments append_sector {D} _.
Arguments console {D} _.

Section fsutil.
Context {D : Type} `{BlockDevices D}.
(** As in the file Filesys; [page_ok]: there is a page for a buffer;
    [beyond]: the byte behind the buffer of [fsutil_append]. *)
Context (malloc_ok : Z → bool) (stack_bytes : list Z) (page_ok : bool) (beyond : Z).

Definition set_fsys (f : fs D) (u : util D) : util D := mk_util f (extract_sector u) (append_sector u) (console u).
Definition set_extract (s : Z) (u : util D) : util D := mk_util (fsys u) s (append_sector u) (console u).
Definition set_append (s : Z) (u : util D) : util D := mk_util (fsys u) (extract_sector u) s (console u).
Definition add_text (t : list Z) (u : util D) : util D := mk_util (fsys u) (extract_sector u) (append_sector u) (console u ++ t).

Definition on_fs {A} (m : M (fs D) A) : M (util D) A := zoom fsys set_fsys m.
Definition printf (format : string) (args : list Stdio.va) : M (util D) unit :=
  out ← of_res (Stdio.printf format args); modify (add_text out).
Definition arg (s : list Z) : list Stdio.va := [Stdio.str s].

Definition block_get_role : M (util D) (option Z) := gets (λ u, bd_role (dev (fsys u)) BLOCK_SCRATCH).
Definition block_size (b : Z) : M (util D) Z := gets (λ u, bd_size (dev (fsys u)) b).
Definition block_read (b s : Z) : M (util D) (list Z) := on_fs (zoom dev set_dev (bd_read b s)).
Definition block_write (b s : Z) (x : list Z) : M (util D) unit := on_fs (zoom dev set_dev (bd_write b s x)).

(** [sector++] *)
Definition next_extract : M (util D) Z := s ← gets extract_sector; modify (set_extract (u32 (s + 1))) ;; mret s.
Definition next_append : M (util D) Z := s ← gets append_sector; modify (set_append (u32 (s + 1))) ;; mret s.

(** ** Files *)

Definition fsutil_ls (fuel : nat) : M (util D) unit :=
  printf ("Files in the root directory:" +:+ newline) [] ;;
  dir ← on_fs (dir_open_root malloc_ok);
  if dir =? NULL then fail Panic else
  loop fuel (λ _,
    o ← on_fs (dir_readdir malloc_ok stack_bytes dir);
    match o with
    | Some name => printf ("%s" +:+ newline) (arg name) ;; mret (inl tt)
    | None => mret (inr tt)
    end) tt ;;
  on_fs (dir_close malloc_ok dir) ;;
  printf ("End of listing." +:+ newline) [].

Definition fsutil_cat (fuel : nat) (file_name : list Z) : M (util D) unit :=
  printf ("Printing '%s' to the console..." +:+ newline) (arg file_name) ;;
  file ← on_fs (filesys_open malloc_ok stack_bytes file_name);
  if file =? NULL then fail Panic else
  if negb page_ok then fail Panic else
  loop fuel (λ _,
    pos ← on_fs (file_tell file);
    r ← on_fs (file_read malloc_ok file (replicate (Z.to_nat PGSIZE) 0) PGSIZE);
    if r.1 =? 0 then mret (inr tt) else
    out ← of_res (Stdio.hex_dump (u32 pos) (take (Z.to_nat r.1) r.2) true);
    modify (add_text out) ;;
    mret (inl tt)) tt ;;
  on_fs (file_close malloc_ok file).

Definition fsutil_rm (file_name : list Z) : M (util D) unit :=
  printf ("Deleting '%s'..." +:+ newline) (arg file_name) ;;
  ok ← on_fs (filesys_remove malloc_ok stack_bytes file_name);
  if negb ok then fail Panic else mret tt.

(** ** Archives *)

Definition chunk_of (size : Z) : Z := if BLOCK_SECTOR_SIZE <? size then BLOCK_SECTOR_SIZE else size.

(** The copy of the data of a file; every iteration copies at least a byte. *)
Definition extract_chunk (src dst size : Z) : M (util D) (Z + unit) :=
  if size <=? 0 then mret (inr tt) else
  let chunk_size := chunk_of size in
  s ← next_extract;
  data ← block_read src s;
  n ← on_fs (file_write malloc_ok dst (take (Z.to_nat chunk_size) data) chunk_size);
  if negb (n =? chunk_size) then fail Panic else mret (inl (size - chunk_size)).
Definition extract_data (src dst size : Z) : M (util D) unit := loop (S (Z.to_nat size)) (extract_chunk src dst) size.

Definition extract_file (src : Z) (file_name : list Z) (size : Z) : M (util D) unit :=
  printf ("Putting '%s' into the file system..." +:+ newline) (arg file_name) ;;
  ok ← on_fs (filesys_create malloc_ok stack_bytes file_name size);
  if negb ok then fail Panic else
  dst ← on_fs (filesys_open malloc_ok stack_bytes file_name);
  if dst =? NULL then fail Panic else
  extract_data src dst size ;;
  on_fs (file_close malloc_ok dst).

(** An iteration of the loop over the archive. *)
Definition extract_step (src : Z) (_ : unit) : M (util D) (unit + unit) :=
  s ← next_extract;
  header ← block_read src s;
  r ← of_res (ustar_parse_header header);
  match r with
  | inl error => fail Panic
  | inr (file_name, type, size) =>
      let file_name := default [] file_name in
      if type =? USTAR_EOF then mret (inr tt)
      else if type =? USTAR_DIRECTORY then printf ("ignoring directory %s" +:+ newline) (arg file_name) ;; mret (inl tt)
      else if type =? USTAR_REGULAR then extract_file src file_name size ;; mret (inl tt)
      else mret (inl tt)
  end.

Definition zero_sector : list Z := replicate 512 0.

Definition fsutil_extract (fuel : nat) : M (util D) unit :=
  header ← on_fs (malloc malloc_ok);
  data ← on_fs (malloc malloc_ok);
  if (header =? NULL) || (data =? NULL) then fail Panic else
  o ← block_get_role;
  match o with
  | None => fail Panic
  | Some src =>
      printf ("Extracting ustar archive from scratch device into file system..." +:+ newline) [] ;;
      loop fuel (extract_step src) tt ;;
      printf ("Erasing ustar archive..." +:+ newline) [] ;;
      block_write src 0 zero_sector ;;
      block_write src 1 zero_sector
  end.

Definition append_chunk (src dst size : Z) : M (util D) (Z + unit) :=
  if size <=? 0 then mret (inr tt) else
  let chunk_size := chunk_of size in
  n ← block_size dst;
  s ← gets append_sector;
  if n <=? s then fail Panic else
  r ← on_fs (file_read malloc_ok src (replicate (Z.to_nat chunk_size) 0) chunk_size);
  if negb (r.1 =? chunk_size) then fail Panic else
  s ← next_append;
  block_write dst s (take (Z.to_nat chunk_size) r.2 ++ replicate (Z.to_nat (BLOCK_SECTOR_SIZE - chunk_size)) 0) ;;
  mret (inl (size - chunk_size)).
Definition append_data (src dst size : Z) : M (util D) unit := loop (S (Z.to_nat size)) (append_chunk src dst) size.

Definition fsutil_append (file_name : list Z) : M (util D) unit :=
  printf ("Appending '%s' to ustar archive on scratch device..." +:+ newline) (arg file_name) ;;
  buffer ← on_fs (malloc malloc_ok);
  if buffer =? NULL then fail Panic else
  src ← on_fs (filesys_open malloc_ok stack_bytes file_name);
  if src =? NULL then fail Panic else
  size ← on_fs (file_length src);
  o ← block_get_role;
  match o with
  | None => fail Panic
  | Some dst =>
      r ← of_res (ustar_make_header file_name USTAR_REGULAR size);
      match r with
      | inl msg => modify (add_text msg) ;; fail Panic
      | inr header =>
          s ← next_append;
          block_write dst s header ;;
          append_data src dst size ;;
          s ← gets append_sector;
          block_write dst s zero_sector ;;
          s ← gets append_sector;
          block_write dst s (drop 1 zero_sector ++ [beyond]) ;;
          on_fs (file_close malloc_ok src)
      end
  end.
End fsutil.
End Fsutil.
