(* ===== verification/FsutilProps.v ===== *)
(** * Properties of the utilities of the kernel command line

    Archives on the scratch device: what [fsutil_append] writes, what
    [fsutil_extract] makes of it, and that neither disturbs the other files. *)
From stdpp Require Import base gmap list list_numbers strings.
From Stdlib Require Import ZArith Lia.
From S2P Require Import Prelude Bitmap Block Neighbours Filesys FilesysKeeps FileIO FreeMap Directory FilesysInv FilesysOps FilesysProps.
From S2P Require Import Process ProcessFiles Stdio StdioProps Ustar UstarProps Fsutil.

Module FsutilProps.
Import Filesys FilesysKeeps FileIO FreeMap Directory FilesysInv FilesysOps FilesysProps ProcessFiles Ustar UstarProps Fsutil.

Section devices.
Context {D : Type} `{Neighbours D} (b : Z).
Implicit Types f g : fs D.

(** ** The scratch device beside the file system *)

Definition scratch f : Prop :=
  bd_role (dev f) BLOCK_SCRATCH = Some b ∧ bd_ok (dev f) b ∧ bd_apart (dev f) (fs_device f) b.
Definition ssize f : Z := bd_size (dev f) b.
Definition ssec f (s : Z) : list Z := bd_sector (dev f) b s.
Definition kept f g : Prop := ssize g = ssize f ∧ ∀ s, 0 ≤ s < ssize f → ssec g s = ssec f s.

Lemma kept_refl f : kept f f.
Proof. done. Qed.
Lemma kept_trans f g h : kept f g → kept g h → kept f h.
Proof. intros [S1 X1] [S2 X2]. split; [congruence|]. intros s Hs. rewrite X2, X1; [done | done | by rewrite S1]. Qed.

(** A function of the file system. *)
Lemma fs_step {A} (m : M (fs D) A) (Q : A → fs D → Prop) f :
  stays (other b) m → scratch f → wp m Q f → (∀ a g, Q a g → dev_ok g) →
  wp m (λ a g, Q a g ∧ scratch g ∧ kept f g) f.
Proof.
  intros Hk (Hr & Ho & Ha) Hw Hd. eapply wp_mono; [by apply (stays_wp (other b) m Q)|].
  intros a g [HQ [Ef Hoth]]. destruct (Hoth Ha) as [Hs Hx]. split_and!; [done | | ].
  - split_and!; [by rewrite (bd_same_role _ _ _ Hs) | by eapply (bd_same_ok _ _ _ _ Hs Ho), Hd|].
    rewrite Ef. by apply (bd_same_apart _ _ _ _ Hs).
  - split; [by apply bd_same_size | done].
Qed.

Lemma frame_dev f d :
  bd_ok d (fs_device f) → bd_size d (fs_device f) = bd_size (dev f) (fs_device f) →
  (∀ s, 0 ≤ s < bd_size (dev f) (fs_device f) → bd_sector d (fs_device f) s = bd_sector (dev f) (fs_device f) s) →
  frame f (set_dev d f) ∧ patched f (set_dev d f) 0 [].
Proof.
  intros Hd Hsz Hx. split; [by split_and!|]. intros p Hp. rewrite decide_False by (simpl; lia).
  unfold byte, sec, dev_size in *. simpl. rewrite Hx; [done|]. div_lia.
Qed.

(** Reading and writing the scratch device. *)
Lemma read_scratch f s :
  dev_ok f → scratch f → 0 ≤ s < ssize f →
  wp (zoom dev set_dev (bd_read b s)) (λ r g, r = ssec f s ∧ frame f g ∧ patched f g 0 [] ∧ scratch g ∧ kept f g) f.
Proof.
  intros Hd (Hr & Ho & Ha) Hs. apply wp_zoom. destruct (proj1 (wp_Ok _ _ _) (bd_read_ok _ _ _ Ho Hs)) as (r & d & E & -> & Hok & Hsz & Hx).
  apply (wp_eq _ _ _ _ _ E). destruct (bd_apart_read _ _ (fs_device f) _ _ _ (bd_apart_sym _ _ _ Ha) E) as [Hsame Hfs].
  destruct (frame_dev f d) as [Hf Hp]; [by apply (bd_same_ok _ _ _ _ Hsame Hd Hok) | by apply bd_same_size | done|].
  split_and!; [done | done | done | | by split].
  split_and!; simpl; [by rewrite (bd_same_role _ _ _ Hsame) | done | by apply (bd_same_apart _ _ _ _ Hsame)].
Qed.
Lemma write_scratch f s x :
  dev_ok f → scratch f → 0 ≤ s < ssize f → List.length x = 512%nat → Forall (λ c, 0 ≤ c < 256) x →
  wp (zoom dev set_dev (bd_write b s x)) (λ _ g, frame f g ∧ patched f g 0 [] ∧ scratch g ∧ ssize g = ssize f
    ∧ ∀ s', 0 ≤ s' < ssize f → ssec g s' = if decide (s' = s) then x else ssec f s') f.
Proof.
  intros Hd (Hr & Ho & Ha) Hs Hl Hx. apply wp_zoom. pose proof (bd_size_range _ _ Ho) as Hrange. unfold ssize in Hs.
  destruct (proj1 (wp_Ok _ _ _) (bd_write_ok _ _ _ _ Ho Hs Hl Hx)) as ([] & d & E & Hok & Hsz & Hsec).
  apply (wp_eq _ _ _ _ _ E). assert (0 ≤ s < 2^32) as Hs32 by lia. destruct (bd_apart_write _ _ (fs_device f) _ _ _ (bd_apart_sym _ _ _ Ha) Hs32 E) as [Hsame Hfs].
  destruct (frame_dev f d) as [Hf Hp]; [by apply (bd_same_ok _ _ _ _ Hsame Hd Hok) | by apply bd_same_size | done|].
  split_and!; [done | done | | done | done].
  split_and!; simpl; [by rewrite (bd_same_role _ _ _ Hsame) | done | by apply (bd_same_apart _ _ _ _ Hsame)].
Qed.

(** ** What the file system does not notice *)

Lemma holds_dev f m : holds f m → dev_ok f.
Proof. intros (fm & N & md & rd & T & fi & ff & _ & ((Hd & _) & _) & _). done. Qed.
Lemma holds_frame f g m : holds f m → frame f g → patched f g 0 [] → holds g m.
Proof.
  intros (fm & N & md & rd & T & fi & ff & Hfm & Hs & Hat) Hf Hp.
  apply (holds_intro f g fm N md rd T m fi ff); [done | done | by apply quiet_frame|].
  destruct (frame_mem _ _ Hf) as [Hmm _]. destruct Hf as (_ & _ & Hn & _). unfold mem in Hmm. injection Hmm as _ Hmi Hmo Hmf Hmds Hmff.
  unfold at_rest in *. rewrite Hmi, Hmo, Hmf, Hmds, Hmff. destruct Hat as (? & ? & ? & ? & ? & ? & ?). split_and!; (done || lia).
Qed.
Lemma named_dev f m h nm pos : named_file f m h nm pos → dev_ok f.
Proof. intros (fm & N & md & rd & T & fi & ff & j & s & d & _ & ((Hd & _) & _) & _). done. Qed.
Lemma named_frame f g m h nm pos : named_file f m h nm pos → frame f g → patched f g 0 [] → named_file g m h nm pos.
Proof.
  intros (fm & N & md & rd & T & fi & ff & j & s & d & Hfm & Hs & HT & Hd & Ho & Hpos) Hf Hp.
  destruct (frame_mem _ _ Hf) as [Hmm Hfm2]. exists fm, N, md, rd, T, fi, ff, j, s, d.
  split_and!; try done; try lia; [congruence | eapply stored_quiet; [exact Hs | by apply quiet_frame]|].
  destruct Hf as (_ & _ & Hn & _). unfold mem in Hmm. injection Hmm as _ Hmi Hmo Hmf Hmds Hmff.
  unfold open_at in *. rewrite Hmi, Hmo, Hmf, Hmds, Hmff. destruct Ho as (? & ? & ? & ? & ? & ? & ? & ? & ? & ? & ?). split_and!; (done || lia).
Qed.
Lemma holds_valid f m nm c : holds f m → m !! nm = Some c → valid_name nm.
Proof.
  intros (fm & N & md & rd & T & fi & ff & _ & (_ & Ht & Hv) & _) Hc. destruct Ht as (_ & _ & _ & _ & (Hs1 & Hs2 & _) & _).
  rewrite Hv in Hc. destruct (T !! nm) as [s|] eqn:E; [|done]. destruct (Hs2 _ _ E) as (k & e & Hk & Hu & Hn & _).
  destruct (Hs1 _ _ Hk Hu) as (nm' & Hn' & Hv' & _). rewrite Hn in Hn'. by injection Hn' as ->.
Qed.
End devices.

(** ** The data of a file in sectors *)

Definition len (c : list Z) : Z := Z.of_nat (List.length c).
Definition pad (bs : list Z) : list Z := bs ++ replicate (512 - List.length bs) 0.
Definition sectors (c : list Z) : Z := (len c + 511) / 512.
Definition data_sector (c : list Z) (i : Z) : list Z := pad (take 512 (drop (Z.to_nat (512 * i)) c)).

Lemma pad_length bs : (List.length bs ≤ 512)%nat → List.length (pad bs) = 512%nat.
Proof. intros Hl. unfold pad. rewrite length_app, length_replicate. lia. Qed.
Lemma pad_bytes bs : Forall (λ c, 0 ≤ c < 256) bs → Forall (λ c, 0 ≤ c < 256) (pad bs).
Proof. intros Hb. apply Forall_app. split; [done | by apply Forall_replicate]. Qed.
Lemma chunk_min r : chunk_of r = Z.min 512 r.
Proof. unfold chunk_of, BLOCK_SECTOR_SIZE. destruct (Z.ltb_spec 512 r); lia. Qed.
(** The sector at the position [p], of which [n] bytes are data. *)
Lemma chunk_sector c p n :
  0 ≤ p → p mod 512 = 0 → n = Z.min 512 (len c - p) → 0 ≤ n →
  take (Z.to_nat n) (drop (Z.to_nat p) c) ++ replicate (Z.to_nat (512 - n)) 0 = data_sector c (p / 512).
Proof.
  intros Hp Hm Hn Hn0. unfold data_sector, pad, len in *. replace (512 * (p / 512)) with p by div_lia.
  assert (take 512 (drop (Z.to_nat p) c) = take (Z.to_nat n) (drop (Z.to_nat p) c)) as ->.
  { destruct (decide (n = 512)) as [->|]; [done|]. rewrite !take_ge; [done | rewrite length_drop; lia..]. }
  do 2 f_equal. rewrite length_take, length_drop. lia.
Qed.

Lemma data_sector_length c i : List.length (data_sector c i) = 512%nat.
Proof. apply pad_length. rewrite length_take. lia. Qed.
Lemma data_sector_bytes c i : Forall (λ c, 0 ≤ c < 256) c → Forall (λ c, 0 ≤ c < 256) (data_sector c i).
Proof. intros Hc. apply pad_bytes. auto using Forall_take, Forall_drop. Qed.

(** The sectors from [s0] on start with the data of [c]. *)
Definition data_at (sec : Z → list Z) (s0 : Z) (c : list Z) : Prop :=
  ∀ k, 0 ≤ k < sectors c → let bs := take 512 (drop (Z.to_nat (512 * k)) c) in take (List.length bs) (sec (s0 + k)) = bs.
Lemma data_sector_at sec s0 c : (∀ k, 0 ≤ k < sectors c → sec (s0 + k) = data_sector c k) → data_at sec s0 c.
Proof. intros Hs k Hk bs. rewrite Hs by done. unfold data_sector, pad. fold bs. by rewrite take_app_length. Qed.

(** A file of zeros that is filled from the front. *)
Definition filled (c : list Z) (r : Z) : list Z := take (Z.to_nat (len c - r)) c ++ replicate (Z.to_nat r) 0.
Lemma filled_write c r n :
  0 ≤ n ≤ r → r ≤ len c → let bs := take (Z.to_nat n) (drop (Z.to_nat (len c - r)) c) in
  len bs = n ∧ write_len (filled c r) bs (len c - r) = n ∧ write_spec (filled c r) bs (len c - r) = filled c (r - n).
Proof.
  intros Hn Hr bs. assert (len bs = n) as Hb by (unfold bs, len in *; rewrite length_take, length_drop; lia).
  assert (List.length (take (Z.to_nat (len c - r)) c) = Z.to_nat (len c - r)) as Ht by (rewrite length_take; unfold len in *; lia).
  assert (write_len (filled c r) bs (len c - r) = n) as Hw.
  { unfold write_len, filled. rewrite length_app, Ht, length_replicate. unfold len in *. lia. }
  split_and!; [done | done|]. unfold write_spec. rewrite Hw. unfold filled.
  rewrite take_app_length' by done. rewrite (take_ge bs) by (unfold len in Hb; lia).
  rewrite drop_app_ge by lia. rewrite Ht, drop_replicate, app_assoc. f_equal.
  - replace (Z.to_nat (len c - (r - n))) with (Z.to_nat (len c - r) + Z.to_nat n)%nat by lia. by rewrite <- take_take_drop.
  - f_equal. lia.
Qed.

Lemma parsed_chars h nm type n : is_header h → ustar_parse_header h = Ok (inr (Some nm, type, n)) → Forall (λ c, 0 < c < 256) nm.
Proof.
  intros Hh Hp. destruct (parse_cases h Hh) as (r & Hr & Hc). rewrite Hp in Hr. injection Hr as <-. destruct Hc as (_ & Hs & _).
  apply (strip_chars _ _ _ Hs); [|simpl; lia]. by apply string_at_chars, Hh.
Qed.

(** The entries of an archive from the sector [i] up to the sector [j], with
    the regular files they hold. *)
Inductive entries (sec : Z → list Z) : Z → list (list Z * list Z) → Z → Prop :=
| entries_nil i : entries sec i [] i
| entries_directory i nm n l j :
    ustar_parse_header (sec i) = Ok (inr (Some nm, USTAR_DIRECTORY, n)) → entries sec (i + 1) l j → entries sec i l j
| entries_regular i nm c l j :
    ustar_parse_header (sec i) = Ok (inr (Some nm, USTAR_REGULAR, len c)) → len c < 2^31 - 512 → data_at sec (i + 1) c →
    entries sec (i + 1 + sectors c) l j → entries sec i ((nm, c) :: l) j.

(** The files of a file system after those of an archive have been stored. *)
Definition restore (l : list (list Z * list Z)) (m : gmap (list Z) (list Z)) : gmap (list Z) (list Z) :=
  foldl (λ m e, <[e.1 := e.2]> m) m l.

Lemma sectors_nonneg c : 0 ≤ sectors c.
Proof. unfold sectors, len. div_lia. Qed.
Lemma entries_le sec i l j : entries sec i l j → i ≤ j.
Proof. induction 1; [lia | lia|]. pose proof (sectors_nonneg c). lia. Qed.
Lemma entries_app sec i l1 j l2 k : entries sec i l1 j → entries sec j l2 k → entries sec i (l1 ++ l2) k.
Proof. induction 1; intros; [done | eapply entries_directory; eauto | cbn; eapply entries_regular; eauto]. Qed.
Lemma entries_ext sec sec' i l j : entries sec i l j → (∀ s, i ≤ s < j → sec' s = sec s) → entries sec' i l j.
Proof.
  induction 1 as [i | i nm n l j Hp Ha IH | i nm c l j Hp Hlen Hdata Ha IH]; intros Hsec; [constructor|..]; apply entries_le in Ha as Hle.
  - apply (entries_directory _ _ nm n); [by rewrite Hsec by lia|]. apply IH. intros s Hs. apply Hsec. lia.
  - pose proof (sectors_nonneg c). constructor; [by rewrite Hsec by lia | done | | apply IH; intros s Hs; apply Hsec; lia].
    intros k Hk. cbv zeta. rewrite Hsec by lia. by apply Hdata.
Qed.
Lemma filled_full c : filled c 0 = c.
Proof. unfold filled. rewrite app_nil_r, take_ge; [done | unfold len; lia]. Qed.

(** The entry of a file, and the sectors that entries take. *)
Definition stripped (m : gmap (list Z) (list Z)) (nm : list Z) (e : list Z * list Z) : Prop :=
  m !! nm = Some e.2 ∧ strip_antisocial_prefixes nm = Ok e.1 ∧ len e.2 < 2^31 - 512.
Definition archive_size (l : list (list Z * list Z)) : Z := foldr (λ e n, 1 + sectors e.2 + n) 0 l.

Lemma archive_size_nonneg l : 0 ≤ archive_size l.
Proof. induction l as [|e l IH]; [done|]. cbn [archive_size foldr]. fold (archive_size l). pose proof (sectors_nonneg e.2). lia. Qed.

(** Postconditions of results and of failures. *)
Definition wpe {S A} (m : M S A) (Q : A → S → Prop) (E : failure → Prop) (s : S) : Prop :=
  match m s with Ok (a, s') => Q a s' | Err e => E e end.
Lemma wpe_of_wp {S A} (m : M S A) Q E (s : S) : wp m Q s → wpe m Q E s.
Proof. intros (a & s' & E' & HQ)%wp_Ok. unfold wpe. by rewrite E'. Qed.
Lemma wpe_bind {S A B} (m : M S A) (k : A → M S B) Q E (s : S) :
  wpe m (λ a s', wpe (k a) Q E s') E s → wpe (m ≫= k) Q E s.
Proof. unfold wpe, mbind, M_bind. by destruct (m s) as [[a s']|e]. Qed.
Lemma wpe_mono {S A} (m : M S A) (Q Q' : A → S → Prop) (E E' : failure → Prop) s :
  wpe m Q E s → (∀ a s', Q a s' → Q' a s') → (∀ e, E e → E' e) → wpe m Q' E' s.
Proof. unfold wpe. destruct (m s) as [[a s']|e]; auto. Qed.
Lemma wpe_step {S A B} (m : M S A) (k : A → M S B) Q' Q E (s : S) :
  wp m Q' s → (∀ a s', Q' a s' → wpe (k a) Q E s') → wpe (m ≫= k) Q E s.
Proof. intros Hm Hk. apply wpe_bind, wpe_of_wp. by eapply wp_mono. Qed.

Section util.
Context {D : Type} `{Neighbours D} (b : Z).
Context (malloc_ok : Z → bool) (Hmem : ∀ a, malloc_ok a = true).
Context (stack_bytes : list Z) (Hstack : List.length stack_bytes = 20%nat ∧ Forall (λ c, 0 ≤ c < 256) stack_bytes).
Implicit Types u : util D.

Lemma wp_on_fs {A} (m : M (fs D) A) (Q : A → util D → Prop) u : wp m (λ a f, Q a (set_fsys f u)) (fsys u) → wp (on_fs m) Q u.
Proof. apply wp_zoom. Qed.
Lemma wpe_on_fs {A B} (m : M (fs D) A) (k : A → M (util D) B) Q E u a f :
  m (fsys u) = Ok (a, f) → wpe (k a) Q E (set_fsys f u) → wpe (on_fs m ≫= k) Q E u.
Proof. intros Em Hk. apply (wpe_step _ _ (λ a' u', a' = a ∧ u' = set_fsys f u)); [by apply wp_on_fs, (wp_eq _ _ _ _ _ Em)|]. by intros ? ? [-> ->]. Qed.
Lemma wp_printf format ks args (Q : unit → util D → Prop) u :
  StdioProps.format_type (Stdio.chars format) = Some ks → Forall2 StdioProps.has_kind args ks →
  (∀ out, Q tt (add_text out u)) → wp (printf format args) Q u.
Proof.
  intros Hf Hk HQ. destruct (StdioProps.printf_ok format ks args Hf Hk) as [out E]. unfold printf. apply wp_bind.
  apply (wp_of_res _ out); [done|]. by apply wp_modify.
Qed.
Lemma wp_next_append (Q : Z → util D → Prop) u :
  Q (append_sector u) (set_append (u32 (append_sector u + 1)) u) → wp next_append Q u.
Proof. intros HQ. unfold next_append. apply wp_bind, wp_gets. by apply wp_bind, wp_modify, wp_ret. Qed.
Lemma wp_next_extract (Q : Z → util D → Prop) u :
  Q (extract_sector u) (set_extract (u32 (extract_sector u + 1)) u) → wp next_extract Q u.
Proof. intros HQ. unfold next_extract. apply wp_bind, wp_gets. by apply wp_bind, wp_modify, wp_ret. Qed.

Lemma named_content (f : fs D) m h nm c pos : named_file f m h nm pos → m !! nm = Some c → h ≠ 0 ∧ 0 ≤ pos < 2^31 ∧ len c < 2^31 ∧ Forall (λ b, 0 ≤ b < 256) c.
Proof.
  intros Hn Hc. eapply named_bytes in Hn as (? & ? & c' & Hc' & ? & ?); eauto. rewrite Hc in Hc'. injection Hc' as <-. done.
Qed.

Lemma malloc_quiet (f : fs D) : dev_ok f → 0 < next f → scratch b f →
  wp (malloc malloc_ok) (λ a g, a ≠ NULL ∧ frame f g ∧ patched f g 0 [] ∧ scratch b g ∧ kept b f g) f.
Proof.
  intros Hd Hn Hsc. apply (wp_eq _ _ _ (next f) (set_next (next f + 1) f)); [unfold malloc; by rewrite Hmem|].
  split_and!; try done; [unfold NULL; lia | by split_and!; simpl; try done; lia|].
  intros p Hp. by rewrite decide_False by (simpl; lia).
Qed.
Lemma holds_next (f : fs D) m : holds f m → 0 < next f.
Proof. intros (fm & N & md & rd & T & fi & ff & _ & _ & (_ & _ & _ & _ & _ & ? & _)). lia. Qed.

(** Opening a file that exists. *)
Lemma open_existing (f : fs D) m nm c :
  holds f m → m !! nm = Some c → scratch b f →
  wp (filesys_open malloc_ok stack_bytes nm) (λ h g, named_file g m h nm 0 ∧ h ≠ NULL ∧ scratch b g ∧ kept b f g) f.
Proof.
  intros Hh Hc Hsc. eapply wp_mono.
  { apply (fs_step b); [apply stays_filesys_open | done | apply (open_named malloc_ok Hmem stack_bytes Hstack f m nm Hh)|].
    intros h g. rewrite Hc. apply named_dev. }
  intros h g (Hn & ? & ?). rewrite Hc in Hn. destruct (named_content _ _ _ _ _ _ Hn Hc) as (? & _). done.
Qed.

(** ** Extracting *)

Definition extracting (u0 : util D) (m : gmap (list Z) (list Z)) (h : Z) (nm c : list Z) (s0 r : Z) u : Prop :=
  let p := len c - r in
  0 ≤ r ≤ len c ∧ (r = 0 ∨ p mod 512 = 0) ∧ named_file (fsys u) (<[nm := filled c r]> m) h nm p ∧ scratch b (fsys u)
  ∧ extract_sector u = s0 + (p + 511) / 512 ∧ append_sector u = append_sector u0 ∧ kept b (fsys u0) (fsys u).

Lemma extract_chunk_ok u0 m h nm c s0 r u :
  data_at (ssec b (fsys u0)) s0 c → 0 ≤ s0 → s0 + sectors c < ssize b (fsys u0) → 0 < r → extracting u0 m h nm c s0 r u →
  wp (extract_chunk malloc_ok b h r) (λ x u', ∃ r', x = inl r' ∧ extracting u0 m h nm c s0 r' u' ∧ r' < r) u.
Proof.
  intros Hdata Hs0 Hfit Hr0 (Hr & Hp & Hn & Hsc & Hes & Has & Hk1 & Hk2). set (p := len c - r) in *.
  unfold extract_chunk. rewrite (proj2 (Z.leb_gt _ _)) by done. cbv zeta. set (chunk_size := chunk_of r).
  assert (chunk_size = Z.min 512 r) as Hch by apply chunk_min. clearbody chunk_size. destruct Hp as [|Hp]; [lia|]. unfold sectors in Hfit.
  set (k := p / 512). assert (0 ≤ k) as Hkp by (unfold k; div_lia). assert ((p + 511) / 512 = k) as E by (unfold k; div_lia). rewrite E in *.
  assert ((len c - (r - chunk_size) + 511) / 512 = k + 1) as Hnext by (unfold k; div_lia).
  assert (s0 + k < ssize b (fsys u0)) as Hin by (unfold k; div_lia).
  apply wp_bind, wp_next_extract. rewrite Hes. apply wp_bind, wp_on_fs. cbn [fsys set_extract].
  eapply wp_mono; [apply (read_scratch b); [by eapply named_dev | done | lia]|]. intros data f1 (-> & Hf1 & Hp1 & Hsc1 & Hk3 & Hk4).
  assert (Forall (λ c, 0 ≤ c < 256) (take (Z.to_nat chunk_size) (ssec b (fsys u) (s0 + k)))) as Hbytes
    by (apply Forall_take, bd_bytes; by destruct Hsc as (_ & ? & _)).
  assert (take (Z.to_nat chunk_size) (ssec b (fsys u) (s0 + k)) = take (Z.to_nat chunk_size) (drop (Z.to_nat p) c)) as Edata.
  { rewrite Hk2 by lia. specialize (Hdata k ltac:(unfold sectors, k; div_lia)). cbv zeta in Hdata.
    replace (512 * k) with p in Hdata by (unfold k; div_lia).
    rewrite length_take, length_drop in Hdata. replace (512 `min` (List.length c - Z.to_nat p))%nat with (Z.to_nat chunk_size) in Hdata by (unfold len in *; lia).
    rewrite Hdata. destruct (decide (chunk_size = 512)) as [->|]; [done|]. rewrite !take_ge; [done | rewrite length_drop; unfold len in *; lia..]. }
  rewrite Edata in *. destruct (filled_write c r chunk_size) as (Hbl & Hwl & Hws); [lia | lia|]. fold p in Hbl, Hwl, Hws. set (bs := take _ (drop _ c)) in *.
  apply wp_bind, wp_on_fs. cbn [fsys set_fsys set_extract]. rewrite <- Hbl at 1. eapply wp_mono.
  { apply (fs_step b); [apply stays_file_write | exact Hsc1 | eapply (write_named malloc_ok Hmem stack_bytes Hstack f1 _ h nm (filled c r) p bs);
      [by eapply named_frame | apply lookup_insert_eq | fold (len bs); lia | done] |].
    intros n g (_ & Hg). by eapply named_dev. }
  intros n g ((-> & Hg) & Hsc2 & Hk5 & Hk6). rewrite Hwl, Hws, insert_insert_eq in *. rewrite Z.eqb_refl. apply wp_ret.
  exists (r - chunk_size). split; [done|]. split; [|lia]. unfold extracting. rewrite Hnext. cbn [fsys append_sector extract_sector set_fsys set_extract].
  split_and!; try done; try lia.
  - destruct (decide (r = chunk_size)); [left; lia | right; div_lia].
  - by replace (len c - (r - chunk_size)) with (p + chunk_size) by lia.
  - destruct Hsc as (_ & Hok & _). pose proof (bd_size_range _ _ Hok) as Hrange. change (bd_size (dev (fsys u)) b) with (ssize b (fsys u)) in Hrange.
    rewrite u32_small; lia.
  - apply (kept_trans b _ (fsys u)); [by split|]. apply (kept_trans b _ f1); by split.
Qed.

Lemma extract_data_ok u m h nm c s0 :
  named_file (fsys u) (<[nm := replicate (List.length c) 0]> m) h nm 0 → scratch b (fsys u) → extract_sector u = s0 →
  data_at (ssec b (fsys u)) s0 c → 0 ≤ s0 → s0 + sectors c < ssize b (fsys u) →
  wp (extract_data malloc_ok b h (len c)) (λ _ u', extracting u m h nm c s0 0 u') u.
Proof.
  intros Hn Hsc Hes Hdata Hs0 Hfit. unfold extract_data. assert (0 ≤ len c) by (unfold len; lia).
  apply (wp_loop (λ r u', extracting u m h nm c s0 r u') (λ r _, Z.to_nat r)).
  - intros r u' Hr. destruct (Z.leb_spec r 0).
    + assert (r = 0) as -> by (destruct Hr; lia). unfold extract_chunk. cbn. done.
    + eapply wp_mono; [by apply (extract_chunk_ok u m h nm c s0 r)|]. intros x u2 (r' & -> & Hr' & Hlt).
      split; [done|]. destruct Hr'. lia.
  - unfold extracting, filled. rewrite Z.sub_diag. change ((0 + 511) / 512) with 0. unfold len. rewrite Nat2Z.id. split_and!; try done; try lia.
    by right.
  - lia.
Qed.

(** The files [m] are stored and the extraction has come to the sector [i];
    the scratch device is as it was in [u]. *)
Definition reached u (m : gmap (list Z) (list Z)) (i : Z) u' : Prop :=
  holds (fsys u') m ∧ scratch b (fsys u') ∧ kept b (fsys u) (fsys u') ∧ extract_sector u' = i ∧ append_sector u' = append_sector u.
Lemma reached_trans u m i u1 m' i' u2 : reached u m i u1 → reached u1 m' i' u2 → reached u m' i' u2.
Proof. intros (_ & _ & Hk & _ & Ha) (Hh & Hs & Hk' & Hi & Ha'). split_and!; [done | done | by eapply kept_trans | done | congruence]. Qed.
Lemma reached_text u m i u' out : reached u m i u' → reached u m i (add_text out u').
Proof. done. Qed.

Lemma wpe_header {B} u m i r (k : _ → M (util D) B) Q E :
  reached u m i u → 0 ≤ i < ssize b (fsys u) → ustar_parse_header (ssec b (fsys u) i) = Ok r →
  (∀ u', reached u m (i + 1) u' → wpe (k r) Q E u') →
  wpe (s ← next_extract; header ← block_read b s; r ← of_res (ustar_parse_header header); k r) Q E u.
Proof.
  intros (Hh & Hsc & _ & Hes & _) Hi Hr Hk. eapply wpe_step; [by apply wp_next_extract with (Q := λ s u', s = i ∧ u' = set_extract (u32 (i + 1)) u); rewrite Hes|].
  intros ? ? [-> ->]. eapply wpe_step.
  { apply wp_on_fs with (Q := λ x u', x = ssec b (fsys u) i ∧ reached u m (i + 1) u'). cbn [fsys set_extract].
    eapply wp_mono; [apply (read_scratch b); [by eapply holds_dev | done | done]|]. intros x g (-> & Hf & Hp & Hsc' & Hk').
    destruct Hsc as (_ & Hok & _). pose proof (bd_size_range _ _ Hok) as Hrange. change (bd_size (dev (fsys u)) b) with (ssize b (fsys u)) in Hrange.
    split; [done|]. split_and!; cbn [fsys set_fsys set_extract extract_sector append_sector]; try done; [by eapply holds_frame | apply u32_small; lia]. }
  intros ? u' [-> Hu']. eapply wpe_step; [by apply (wp_of_res _ r) with (Q := λ r' s, r' = r ∧ s = u')|]. intros ? ? [-> ->]. by apply Hk.
Qed.

(** [filesys_create] refuses the file. *)
Definition refused (f : fs D) (nm : list Z) (n : Z) : Prop := ∃ g, filesys_create malloc_ok stack_bytes nm n f = Ok (false, g).

Lemma create_entry u m nm n :
  holds (fsys u) m → scratch b (fsys u) → Forall (λ c, 0 < c < 256) nm → 0 ≤ n < 2^31 - 512 →
  ∃ (ok : bool) g, filesys_create malloc_ok stack_bytes nm n (fsys u) = Ok (ok, g)
    ∧ holds g (if ok then <[nm := replicate (Z.to_nat n) 0]> m else m) ∧ scratch b g ∧ kept b (fsys u) g.
Proof.
  intros Hh Hsc Hnm Hn. apply (wp_Ok _ (λ ok g, holds g (if ok : bool then _ else m) ∧ scratch b g ∧ kept b (fsys u) g)).
  eapply (fs_step b); [apply stays_filesys_create | done | | intros ? ?; apply holds_dev].
  eapply wp_mono; [by apply (filesys_create_ok malloc_ok Hmem stack_bytes Hstack (fsys u) m nm n)|]. intros [] g; naive_solver.
Qed.

Lemma extract_file_ok u m nm c s0 :
  holds (fsys u) m → scratch b (fsys u) → Forall (λ c, 0 < c < 256) nm → len c < 2^31 - 512 → extract_sector u = s0 →
  data_at (ssec b (fsys u)) s0 c → 0 ≤ s0 → s0 + sectors c < ssize b (fsys u) →
  wpe (extract_file malloc_ok stack_bytes b nm (len c))
    (λ _ u', reached u (<[nm := c]> m) (s0 + sectors c) u')
    (λ e, e = Panic ∧ refused (fsys u) nm (len c)) u.
Proof.
  intros Hh Hsc Hnm Hlen Hes Hdata Hs0 Hfit. assert (0 ≤ len c) by (unfold len; lia). unfold extract_file.
  eapply wpe_step; [apply (wp_printf _ [StdioProps.KString]) with (Q := λ _ u', ∃ out, u' = add_text out u); [done | by repeat constructor | by eexists]|].
  intros _ ? [out ->]. set (u1 := add_text out u).
  destruct (create_entry u m nm (len c)) as (ok & f1 & E1 & Hok & Hsc1 & Hk1); [done | done | done | lia|].
  eapply wpe_on_fs; [exact E1|]. destruct ok; cbn [negb]; [|split; [done | by eexists]].
  unfold len in Hok at 1. rewrite Nat2Z.id in Hok. apply wpe_of_wp. apply wp_bind, wp_on_fs.
  eapply wp_mono; [apply (open_existing f1 _ nm _ Hok (lookup_insert_eq _ _ _) Hsc1)|]. intros h f2 (Hn2 & Hh2 & Hsc2 & Hk2).
  rewrite (proj2 (Z.eqb_neq _ _) Hh2). pose proof (kept_trans b _ _ _ Hk1 Hk2) as [Hsz Hsec].
  apply wp_bind. eapply wp_mono; [apply (extract_data_ok _ m h nm c s0); cbn [fsys set_fsys extract_sector]; try done|].
  - intros k Hk. cbv zeta. rewrite Hsec by lia. by apply Hdata.
  - by rewrite Hsz.
  - intros [] u3 (_ & _ & Hn3 & Hsc3 & Hes3 & Has3 & Hk3). rewrite filled_full, Z.sub_0_r in *. apply wp_on_fs. eapply wp_mono.
    { apply (fs_step b); [apply stays_file_close | exact Hsc3 | eapply close_named; eauto |]. intros [] g. apply holds_dev. }
    intros [] f4 (Hh4 & Hsc4 & Hk4). cbn [fsys set_fsys append_sector extract_sector] in *. split_and!; try done.
    apply (kept_trans b _ f2); [by split|]. by apply (kept_trans b _ (fsys u3)).
Qed.

(** Some file of the archive is refused, when those before it are stored. *)
Definition refusal (l : list (list Z * list Z)) (m : gmap (list Z) (list Z)) (e : failure) : Prop :=
  e = Panic ∧ ∃ l1 nm c l2 f, l = l1 ++ (nm, c) :: l2 ∧ holds f (restore l1 m) ∧ refused f nm (len c).

Lemma reached_same u m i u1 sec :
  reached u m i u1 → (∀ s, 0 ≤ s < ssize b (fsys u) → ssec b (fsys u) s = sec s) →
  reached u1 m i u1 ∧ (∀ s, 0 ≤ s < ssize b (fsys u1) → ssec b (fsys u1) s = sec s) ∧ ssize b (fsys u1) = ssize b (fsys u).
Proof.
  intros (? & ? & (Hsz & Hx) & ? & ?) Hsec. split_and!; [by split_and! | | done]. intros s Hs. rewrite Hx by lia. apply Hsec. lia.
Qed.

Lemma extract_loop_ok sec i l j : entries sec i l j → ∀ u m fuel Q (E : failure → Prop),
  reached u m i u → (∀ s, 0 ≤ s < ssize b (fsys u) → ssec b (fsys u) s = sec s) →
  0 ≤ i → j < ssize b (fsys u) → j - i < Z.of_nat fuel →
  (∀ u' fuel', reached u (restore l m) j u' → wpe (loop (S fuel') (extract_step malloc_ok stack_bytes b) tt) Q E u') →
  (∀ e, refusal l m e → E e) →
  wpe (loop fuel (extract_step malloc_ok stack_bytes b) tt) Q E u.
Proof.
  induction 1 as [i | i nm n l j Hp Ha IH | i nm c l j Hp Hlen Hdata Ha IH]; intros u m fuel Q E Hu Hsec Hi Hj Hfuel Hend Href.
  all: destruct fuel as [|fuel]; [try apply entries_le in Ha; try pose proof (sectors_nonneg c); lia|].
  { by apply Hend. }
  all: cbn [loop].
  - apply entries_le in Ha as Hle. apply wpe_bind, (wpe_header u m i _ _ _ _ Hu ltac:(lia) ltac:(by rewrite Hsec by lia)). intros u1 Hu1.
    cbn [default from_option]. eapply wpe_step; [apply (wp_printf _ [StdioProps.KString]) with (Q := λ _ u', reached u m (i + 1) u'); [done | by repeat constructor | done]|].
    intros [] u2 Hu2. destruct (reached_same u m (i + 1) u2 sec Hu2 Hsec) as (Hu3 & Hsec3 & Hsz3). apply (IH u2 m); try (done || lia).
    intros u' fuel' Hu'. apply Hend. by eapply reached_trans.
  - apply entries_le in Ha as Hle. pose proof (sectors_nonneg c) as Hc0.
    apply wpe_bind, (wpe_header u m i _ _ _ _ Hu ltac:(lia) ltac:(by rewrite Hsec by lia)). intros u1 Hu1.
    assert (Forall (λ c, 0 < c < 256) nm) as Hnm.
    { eapply parsed_chars; [|exact Hp]. rewrite <- Hsec by lia. destruct Hu as (_ & (_ & Hok & _) & _). split; [by apply bd_length | by apply bd_bytes]. }
    pose proof Hu1 as (Hh1 & Hsc1 & (Hsz1 & Hx1) & Hes1 & Has1).
    cbn [default from_option]. apply wpe_bind. eapply wpe_mono; [apply (extract_file_ok u1 m nm c (i + 1)); (done || lia || idtac)|..].
    + intros k Hk. cbv zeta. rewrite Hx1, Hsec by lia. by apply Hdata.
    + intros [] u2 Hu2. pose proof (reached_trans _ _ _ _ _ _ _ Hu1 Hu2) as Hu3. cbn.
      destruct (reached_same u _ _ u2 sec Hu3 Hsec) as (Hu4 & Hsec4 & Hsz4). apply (IH u2 (<[nm := c]> m)); try (done || lia).
      * intros u' fuel' Hu'. apply Hend. by eapply reached_trans.
      * intros e (-> & l1 & nm' & c' & l2 & f & -> & Hf & Hr). apply Href. split; [done|]. by exists ((nm, c) :: l1), nm', c', l2, f.
    + intros e [-> Hr]. apply Href. split; [done|]. by exists [], nm, c, l, (fsys u1).
Qed.

(** What the function does before and behind its loop. *)
Lemma fsutil_extract_around (R : Prop) m' j u m i fuel (E : failure → Prop) :
  reached u m i u → 2 ≤ ssize b (fsys u) →
  (∀ Q u', reached u m i u' → (∀ u2, R → reached u m' j u2 → Q tt u2) → wpe (loop fuel (extract_step malloc_ok stack_bytes b) tt) Q E u') →
  wpe (fsutil_extract malloc_ok stack_bytes fuel)
    (λ _ u', R ∧ holds (fsys u') m' ∧ scratch b (fsys u') ∧ extract_sector u' = j ∧ append_sector u' = append_sector u
       ∧ ssize b (fsys u') = ssize b (fsys u)
       ∧ ∀ s, 0 ≤ s < ssize b (fsys u) → ssec b (fsys u') s = if decide (s < 2) then zero_sector else ssec b (fsys u) s) E u.
Proof.
  intros Hu H2 Hloop. unfold fsutil_extract.
  assert (∀ u', reached u m i u' → wp (on_fs (malloc malloc_ok)) (λ a u2, a ≠ NULL ∧ reached u m i u2) u') as Hmal.
  { intros u' (Hh' & Hsc' & Hk' & Hes' & Has'). apply wp_on_fs. eapply wp_mono; [apply malloc_quiet; [by eapply holds_dev | by eapply holds_next | done]|].
    intros a g (? & ? & ? & ? & ?). split; [done|]. split_and!; try done; [by eapply holds_frame | by eapply kept_trans]. }
  eapply wpe_step; [by apply Hmal|]. intros a1 u1 [Ha1 Hu1]. eapply wpe_step; [by apply Hmal|]. intros a2 u2 [Ha2 Hu2].
  rewrite (proj2 (Z.eqb_neq _ _) Ha1), (proj2 (Z.eqb_neq _ _) Ha2). cbn [orb].
  eapply wpe_step; [by apply wp_gets with (Q := λ o u', o = Some b ∧ u' = u2); split; [apply Hu2|]|]. intros ? ? [-> ->].
  eapply wpe_step; [by apply (wp_printf _ []) with (Q := λ _ u', reached u m i u')|]. intros [] u3 Hu3.
  apply wpe_bind, (Hloop _ u3 Hu3). intros u4 HR Hu4.
  eapply wpe_step; [by apply (wp_printf _ []) with (Q := λ _ u', reached u m' j u')|].
  intros [] u5 (Hh5 & Hsc5 & (Hsz5 & Hsec5) & Hes5 & Has5). apply wpe_of_wp, wp_bind.
  assert (List.length zero_sector = 512%nat ∧ Forall (λ c, 0 ≤ c < 256) zero_sector) as [Hzl Hzb] by (split; [done | by apply Forall_replicate]).
  apply wp_on_fs. eapply wp_mono; [apply (write_scratch b); [by eapply holds_dev | done | lia | done | done]|].
  intros [] f6 (Hf6 & Hp6 & Hsc6 & Hsz6 & Hsec6). assert (holds f6 m') by (by eapply holds_frame).
  apply wp_on_fs. eapply wp_mono; [apply (write_scratch b); cbn [fsys set_fsys]; [by eapply holds_dev | done | lia | done | done]|].
  intros [] f7 (Hf7 & Hp7 & Hsc7 & Hsz7 & Hsec7). cbn [fsys set_fsys extract_sector append_sector] in *.
  split_and!; try done; [by eapply holds_frame | lia|]. intros s Hs. rewrite Hsec7, Hsec6, Hsec5 by lia.
  repeat case_decide; (done || lia).
Qed.

Lemma fsutil_extract_ok u m i l j fuel :
  holds (fsys u) m → scratch b (fsys u) → extract_sector u = i → entries (ssec b (fsys u)) i l j → ssec b (fsys u) j = zero_sector →
  0 ≤ i → j < ssize b (fsys u) → 2 ≤ ssize b (fsys u) → j - i < Z.of_nat fuel →
  wpe (fsutil_extract malloc_ok stack_bytes fuel)
    (λ _ u', holds (fsys u') (restore l m) ∧ scratch b (fsys u') ∧ extract_sector u' = j + 1 ∧ append_sector u' = append_sector u
       ∧ ssize b (fsys u') = ssize b (fsys u)
       ∧ ∀ s, 0 ≤ s < ssize b (fsys u) → ssec b (fsys u') s = if decide (s < 2) then zero_sector else ssec b (fsys u) s)
    (refusal l m) u.
Proof.
  intros Hh Hsc Hes Ha Hz Hi Hj H2 Hfuel. eapply wpe_mono; [apply (fsutil_extract_around True (restore l m) (j + 1) u m i); [by split_and! | done|] | by intros [] u' [_ ?] | done].
  intros Q u1 Hu1 HQ. destruct (reached_same u m i u1 _ Hu1 (λ _ _, eq_refl)) as (Hu2 & Hsec2 & Hsz2). apply entries_le in Ha as Hle.
  apply (extract_loop_ok _ _ _ _ Ha u1 m); try (done || lia). intros u3 fuel' Hu3.
  assert (ssize b (fsys u3) = ssize b (fsys u) ∧ ssec b (fsys u3) j = zero_sector) as [Hsz3 Hsec3].
  { destruct Hu3 as (_ & _ & (Hsz3 & Hsec3) & _). split; [lia|]. by rewrite Hsec3, Hsec2 by lia. }
  cbn [loop]. apply wpe_bind, (wpe_header u3 (restore l m) j (inr (None, USTAR_EOF, 0))); [by destruct Hu3 as (? & ? & ? & ? & ?) | lia | by rewrite Hsec3|].
  intros u4 Hu4. apply HQ; [done|]. eapply reached_trans; [exact Hu1|]. by eapply reached_trans.
Qed.

(** An archive without its end. *)
Lemma fsutil_extract_bad u m i l j fuel msg :
  holds (fsys u) m → scratch b (fsys u) → extract_sector u = i → entries (ssec b (fsys u)) i l j →
  ustar_parse_header (ssec b (fsys u) j) = Ok (inl msg) →
  0 ≤ i → j < ssize b (fsys u) → 2 ≤ ssize b (fsys u) → j - i < Z.of_nat fuel →
  fsutil_extract malloc_ok stack_bytes fuel u = Err Panic.
Proof.
  intros Hh Hsc Hes Ha Hz Hi Hj H2 Hfuel.
  assert (wpe (fsutil_extract malloc_ok stack_bytes fuel) (λ _ _, False) (λ e, e = Panic) u) as Hw.
  { eapply wpe_mono; [apply (fsutil_extract_around False m j u m i fuel (λ e, e = Panic)); [by split_and! | done|] | by intros [] u' [? _] | done].
    intros Q u1 Hu1 _. destruct (reached_same u m i u1 _ Hu1 (λ _ _, eq_refl)) as (Hu2 & Hsec2 & Hsz2). apply entries_le in Ha as Hle.
    apply (extract_loop_ok _ _ _ _ Ha u1 m); try (done || lia); [|by intros e [? _]]. intros u3 fuel' Hu3.
    assert (ssize b (fsys u3) = ssize b (fsys u) ∧ ssec b (fsys u3) j = ssec b (fsys u) j) as [Hsz3 Hsec3].
    { destruct Hu3 as (_ & _ & (Hsz3 & Hsec3) & _). split; [lia|]. by rewrite Hsec3, Hsec2 by lia. }
    cbn [loop]. apply wpe_bind, (wpe_header u3 (restore l m) j (inl msg)); [by destruct Hu3 as (? & ? & ? & ? & ?) | lia | by rewrite Hsec3 | done]. }
  unfold wpe in Hw. destruct (fsutil_extract malloc_ok stack_bytes fuel u) as [[[] u']|e]; [done | by rewrite Hw].
Qed.

(** ** Appending *)

Definition appending (u0 : util D) (m : gmap (list Z) (list Z)) (h : Z) (nm c : list Z) (s0 r : Z) u : Prop :=
  let p := len c - r in
  0 ≤ r ≤ len c ∧ (r = 0 ∨ p mod 512 = 0) ∧ named_file (fsys u) m h nm p ∧ scratch b (fsys u)
  ∧ append_sector u = s0 + (p + 511) / 512 ∧ extract_sector u = extract_sector u0 ∧ ssize b (fsys u) = ssize b (fsys u0)
  ∧ ∀ s, 0 ≤ s < ssize b (fsys u0) → ssec b (fsys u) s =
      if decide (s0 ≤ s < s0 + (p + 511) / 512) then data_sector c (s - s0) else ssec b (fsys u0) s.

Lemma append_chunk_ok u0 m h nm c s0 r u :
  m !! nm = Some c → 0 ≤ s0 → s0 + sectors c ≤ ssize b (fsys u0) → 0 < r → appending u0 m h nm c s0 r u →
  wp (append_chunk malloc_ok h b r) (λ x u', ∃ r', x = inl r' ∧ appending u0 m h nm c s0 r' u' ∧ r' < r) u.
Proof.
  intros Hc Hs0 Hfit Hr0 (Hr & Hp & Hn & Hsc & Has & Hes & Hsz & Hsec). set (p := len c - r) in *.
  unfold append_chunk. rewrite (proj2 (Z.leb_gt _ _)) by done. cbv zeta. set (chunk_size := chunk_of r).
  assert (chunk_size = Z.min 512 r) as Hch by apply chunk_min. clearbody chunk_size. destruct Hp as [|Hp]; [lia|]. unfold sectors in Hfit.
  apply wp_bind, wp_gets, wp_bind, wp_gets. destruct (Z.leb_spec (bd_size (dev (fsys u)) b) (append_sector u)) as [Hle|Hlt].
  { exfalso. change (bd_size (dev (fsys u)) b) with (ssize b (fsys u)) in Hle. rewrite Has, Hsz in Hle. div_lia. }
  destruct (named_content _ _ _ _ _ _ Hn Hc) as (_ & Hpos & Hlen & Hbytes).
  apply wp_bind, wp_on_fs. eapply wp_mono.
  { apply (fs_step b); [apply stays_file_read | done | eapply (file_read_named malloc_ok Hmem stack_bytes Hstack); [exact Hn | exact Hc | lia] |].
    intros x g (_ & _ & Hg). by eapply named_dev. }
  intros x g ((Hx & Hx1 & Hg) & Hsc' & Hk1 & Hk2). unfold read_spec in Hx, Hx1.
  assert (x.1 = chunk_size) as E1 by (rewrite Hx1, length_take, length_drop; unfold len in *; lia).
  rewrite E1 in *. rewrite Z.eqb_refl. cbn [negb]. apply wp_bind, wp_next_append. apply wp_bind, wp_on_fs. cbn [append_sector fsys set_fsys set_append].
  change BLOCK_SECTOR_SIZE with 512. rewrite Hx, (chunk_sector c p chunk_size) by lia. set (k := p / 512). assert (0 ≤ k) as Hk0 by (unfold k; div_lia).
  assert (append_sector u = s0 + k) as Hak by (rewrite Has; unfold k; div_lia). rewrite Hak in *.
  assert ((len c - (r - chunk_size) + 511) / 512 = k + 1) as Hnext by (unfold k; div_lia).
  eapply wp_mono; [apply (write_scratch b g); [by eapply named_dev | done | | apply data_sector_length | by apply data_sector_bytes]|].
  { rewrite Hk1, Hsz. unfold k. div_lia. }
  intros _ g2 (Hf & Hpat & Hsc2 & Hsz2 & Hsec2). apply wp_ret. exists (r - chunk_size). split; [done|]. split; [|lia].
  unfold appending. rewrite Hnext. cbn [fsys append_sector extract_sector set_fsys set_append]. split_and!; try done; try lia.
  - destruct (decide (r = chunk_size)); [left; lia | right; div_lia].
  - apply (named_frame g); try done. replace (len c - (r - chunk_size)) with (p + chunk_size) by lia. done.
  - destruct Hsc2 as (_ & Hok & _). pose proof (bd_size_range _ _ Hok) as Hrange. change (bd_size (dev g2) b) with (ssize b g2) in Hrange.
    rewrite u32_small; [lia|]. rewrite Hsz2, Hk1, Hsz in Hrange. unfold k in *. div_lia.
  - intros s Hs. rewrite Hsec2 by (rewrite Hk1, Hsz; done). replace ((p + 511) / 512) with k in Hsec by (unfold k; div_lia).
    destruct (decide (s = s0 + k)) as [->|]; [rewrite decide_True by lia; f_equal; lia|]. rewrite Hk2 by (by rewrite Hsz). rewrite Hsec by done.
    destruct (decide (s0 ≤ s < s0 + k)); [by rewrite decide_True by lia | by rewrite decide_False by lia].
Qed.

Lemma append_data_ok u m h nm c :
  named_file (fsys u) m h nm 0 → m !! nm = Some c → scratch b (fsys u) → 0 ≤ append_sector u →
  append_sector u + sectors c ≤ ssize b (fsys u) →
  wp (append_data malloc_ok h b (len c)) (λ _ u', appending u m h nm c (append_sector u) 0 u') u.
Proof.
  intros Hn Hc Hsc Hs0 Hfit. unfold append_data. assert (0 ≤ len c) by (unfold len; lia).
  apply (wp_loop (λ r u', appending u m h nm c (append_sector u) r u') (λ r _, Z.to_nat r)).
  - intros r u' Hr. destruct (Z.leb_spec r 0).
    + assert (r = 0) as -> by (destruct Hr; lia). unfold append_chunk. cbn. done.
    + eapply wp_mono; [by apply (append_chunk_ok u m h nm c (append_sector u) r)|]. intros x u2 (r' & -> & Hr' & Hlt).
      split; [done|]. destruct Hr'. lia.
  - unfold appending. rewrite Z.sub_diag. change ((0 + 511) / 512) with 0. split_and!; try done; try lia.
    + by right.
    + intros s Hs. by rewrite decide_False by lia.
  - lia.
Qed.

(** The archive as [fsutil_append] leaves it: the header, the data, and one
    sector that ends it. *)
Context (beyond : Z) (Hbeyond : 0 ≤ beyond < 256).

Definition end_sector : list Z := replicate 511 0 ++ [beyond].
Definition appended (s : list Z) (c : list Z) (i : Z) : list Z :=
  if decide (i = 0) then header s USTAR_REGULAR (len c)
  else if decide (i ≤ sectors c) then data_sector c (i - 1) else end_sector.

Lemma write_open u m h nm pos s x (Q : unit → util D → Prop) :
  named_file (fsys u) m h nm pos → scratch b (fsys u) → 0 ≤ s < ssize b (fsys u) → List.length x = 512%nat → Forall (λ c, 0 ≤ c < 256) x →
  (∀ g, named_file g m h nm pos → scratch b g → ssize b g = ssize b (fsys u) →
     (∀ s', 0 ≤ s' < ssize b (fsys u) → ssec b g s' = if decide (s' = s) then x else ssec b (fsys u) s') → Q tt (set_fsys g u)) →
  wp (block_write b s x) Q u.
Proof.
  intros Hn Hsc Hs Hl Hx HQ. apply wp_on_fs. eapply wp_mono; [apply (write_scratch b); try done; by eapply named_dev|].
  intros [] g (Hf & Hp & ? & ? & ?). apply HQ; try done. by eapply named_frame.
Qed.
Lemma end_bytes : List.length end_sector = 512%nat ∧ Forall (λ c, 0 ≤ c < 256) end_sector.
Proof. split; [done|]. apply Forall_app. split; [by apply Forall_replicate | by constructor]. Qed.

Lemma fsutil_append_ok u m nm c s :
  holds (fsys u) m → m !! nm = Some c → scratch b (fsys u) →
  strip_antisocial_prefixes nm = Ok s → Forall (λ c, 0 < c < 256) s → (List.length s ≤ 99)%nat →
  0 ≤ append_sector u → append_sector u + 1 + sectors c < ssize b (fsys u) →
  wp (fsutil_append malloc_ok stack_bytes beyond nm)
    (λ _ u', holds (fsys u') m ∧ scratch b (fsys u') ∧ append_sector u' = append_sector u + 1 + sectors c
       ∧ extract_sector u' = extract_sector u ∧ ssize b (fsys u') = ssize b (fsys u)
       ∧ ∀ i, 0 ≤ i < ssize b (fsys u) → ssec b (fsys u') i =
           if decide (append_sector u ≤ i ≤ append_sector u + 1 + sectors c) then appended s c (i - append_sector u) else ssec b (fsys u) i) u.
Proof.
  intros Hh Hc Hsc Hs Hsc' Hsl Hs0 Hfit. unfold fsutil_append. set (s0 := append_sector u) in *.
  apply wp_bind. apply (wp_printf _ [StdioProps.KString]); [done | by repeat constructor|]. intros out. set (u1 := add_text out u).
  apply wp_bind, wp_on_fs. eapply wp_mono; [apply malloc_quiet; [by eapply holds_dev | by eapply holds_next | done]|].
  intros a f1 (Ha & Hf1 & Hp1 & Hsc1 & Hk1). rewrite (proj2 (Z.eqb_neq _ _) Ha). apply wp_bind, wp_on_fs.
  eapply wp_mono; [by apply (open_existing _ m nm c); [eapply holds_frame|..]|].
  intros h f2 (Hn2 & Hh2 & Hsc2 & Hk2). rewrite (proj2 (Z.eqb_neq _ _) Hh2). cbn [fsys set_fsys] in *. apply wp_bind, wp_on_fs. eapply wp_mono.
  { apply (fs_step b); [apply stays_file_length | exact Hsc2 | eapply length_named; eauto|].
    intros n g [_ Hg]. by eapply named_dev. }
  intros n f3 ((-> & Hn3) & Hsc3 & Hk3). fold (len c). cbn [fsys set_fsys]. apply wp_bind, wp_gets. cbn [fsys set_fsys]. rewrite (proj1 Hsc3).
  apply wp_bind. apply (wp_of_res _ (inr (header s USTAR_REGULAR (len c)))); [apply make_header_eq; (by left) || done|].
  pose proof (kept_trans b _ _ _ (kept_trans b _ _ _ Hk1 Hk2) Hk3) as [Hsz3 Hsec3]. change (fsys u1) with (fsys u) in *.
  assert (0 ≤ sectors c) as Hsec0 by (unfold sectors, len; div_lia).
  destruct Hsc3 as (Hr3 & Hok3 & Hap3). pose proof (bd_size_range _ _ Hok3) as Hrange. change (bd_size (dev f3) b) with (ssize b f3) in Hrange.
  destruct (header_ok s USTAR_REGULAR (len c) Hsc') as [Hhl Hhb].
  apply wp_bind, wp_next_append. cbn [append_sector set_fsys]. change (append_sector u1) with s0. rewrite u32_small by lia.
  apply wp_bind. eapply (write_open _ m h nm 0); [exact Hn3 | by split_and! | cbn [fsys set_append set_fsys]; lia | done | done|].
  cbn [fsys set_append set_fsys append_sector]. intros f4 Hn4 Hsc4 Hsz4 Hsec4.
  apply wp_bind. eapply wp_mono; [apply (append_data_ok _ m h nm c); cbn [fsys set_append set_fsys append_sector]; (done || lia)|].
  intros [] u5 (_ & _ & Hn5 & Hsc5 & Has5 & Hes5 & Hsz5 & Hsec5). cbn [fsys set_append set_fsys append_sector extract_sector] in *.
  rewrite Z.sub_0_r in *. fold (sectors c) in Has5, Hsec5. destruct end_bytes as [Hel Heb].
  apply wp_bind, wp_gets. apply wp_bind. eapply (write_open _ m h nm (len c)); [done | done | lia | done | by apply Forall_replicate|].
  intros f6 Hn6 Hsc6 Hsz6 Hsec6. apply wp_bind, wp_gets. cbn [append_sector set_fsys]. apply wp_bind.
  eapply (write_open _ m h nm (len c)); [done | done | cbn [fsys set_fsys]; lia | done | done |]. cbn [fsys set_fsys].
  intros f7 Hn7 Hsc7 Hsz7 Hsec7. apply wp_on_fs. eapply wp_mono.
  { apply (fs_step b); [apply stays_file_close | exact Hsc7 | eapply close_named; eauto |]. intros [] g. apply holds_dev. }
  intros [] f8 (Hh8 & Hsc8 & Hsz8 & Hsec8). cbn [fsys set_fsys append_sector extract_sector] in *.
  split_and!; [done | done | lia | done | lia|]. intros i Hi. rewrite Hsec8, Hsec7, Hsec6, Hsec5, Hsec4, Hsec3 by lia. rewrite Has5.
  unfold appended. repeat case_decide; try lia; try done; try (f_equal; lia).
Qed.

Lemma end_parse : ustar_parse_header end_sector = Ok (if beyond =? 0 then inr (None, USTAR_EOF, 0) else inl "not a ustar archive").
Proof. unfold ustar_parse_header. change (is_all_zeros end_sector) with (if negb (beyond =? 0) then false else true). by destruct (beyond =? 0). Qed.
Lemma end_zero : beyond = 0 → end_sector = zero_sector.
Proof. intros E. unfold end_sector. by rewrite E. Qed.

(** Appending keeps the archive. *)
Lemma append_entries u u' i l s c :
  entries (ssec b (fsys u)) i l (append_sector u) → 0 ≤ i → social s → Forall (λ c, 0 < c < 256) s → (List.length s ≤ 99)%nat → len c < 2^31 - 512 →
  append_sector u + 1 + sectors c < ssize b (fsys u) →
  (∀ k, 0 ≤ k < ssize b (fsys u) → ssec b (fsys u') k =
     if decide (append_sector u ≤ k ≤ append_sector u + 1 + sectors c) then appended s c (k - append_sector u) else ssec b (fsys u) k) →
  entries (ssec b (fsys u')) i (l ++ [(s, c)]) (append_sector u + 1 + sectors c)
    ∧ ssec b (fsys u') (append_sector u + 1 + sectors c) = end_sector.
Proof.
  intros Ha Hi Hsoc Hs Hl Hlen Hfit Hsec. apply entries_le in Ha as Hle. set (j := append_sector u) in *. pose proof (sectors_nonneg c) as Hc0. split.
  - apply (entries_app _ _ _ j).
    + eapply entries_ext; [exact Ha|]. intros k Hk. rewrite Hsec by lia. by rewrite decide_False by lia.
    + constructor; [| done | | constructor].
      * rewrite Hsec, decide_True, Z.sub_diag by lia. unfold appended. rewrite decide_True by done.
        rewrite parse_header_eq; [|by left | done | done | done | unfold len in *; lia]. cbn.
        by rewrite (proj2 (Z.ltb_ge _ _)) by (unfold len; lia).
      * apply data_sector_at. intros k Hk. rewrite Hsec, decide_True by lia. unfold appended.
        rewrite decide_False, decide_True by lia. f_equal. lia.
  - rewrite Hsec, decide_True by lia. unfold appended. by rewrite !decide_False by lia.
Qed.

(** The commands [append] of a kernel command line. *)
Fixpoint append_files (nms : list (list Z)) : M (util D) unit :=
  match nms with
  | [] => mret tt
  | nm :: nms => fsutil_append malloc_ok stack_bytes beyond nm ;; append_files nms
  end.
Lemma stripped_social u m nm e :
  holds (fsys u) m → stripped m nm e → social e.1 ∧ Forall (λ c, 0 < c < 256) e.1 ∧ (List.length e.1 ≤ 99)%nat.
Proof.
  intros Hh (Hc & Hs & _). destruct (holds_valid _ _ _ _ Hh Hc) as (_ & Hl & Hch). unfold NAME_MAX in Hl.
  destruct (strip_ok nm) as (s & Hs' & Hsoc & Hsuf). destruct e as [s' c]. cbn [fst snd] in *. rewrite Hs in Hs'. injection Hs' as ->. split_and!; [done | by apply (strip_chars nm s _ Hs Hch) |].
  destruct Hsuf as [Hsuf| ->]; [apply suffix_length in Hsuf; lia | simpl; lia].
Qed.

Lemma append_files_ok nms l u m i l0 :
  holds (fsys u) m → scratch b (fsys u) → Forall2 (stripped m) nms l → 0 ≤ i → entries (ssec b (fsys u)) i l0 (append_sector u) →
  append_sector u + archive_size l < ssize b (fsys u) →
  wp (append_files nms)
    (λ _ u', holds (fsys u') m ∧ scratch b (fsys u') ∧ entries (ssec b (fsys u')) i (l0 ++ l) (append_sector u')
       ∧ append_sector u' = append_sector u + archive_size l ∧ extract_sector u' = extract_sector u ∧ ssize b (fsys u') = ssize b (fsys u)
       ∧ (ssec b (fsys u) (append_sector u) = end_sector ∨ l ≠ [] → ssec b (fsys u') (append_sector u') = end_sector)) u.
Proof.
  intros Hh Hsc Hl. revert u l0 Hh Hsc. induction Hl as [|nm [s c] nms l Hst Hl IH]; intros u l0 Hh Hsc Hi Ha Hfit; cbn [append_files].
  { apply wp_ret. rewrite app_nil_r. cbn. split_and!; try done; [lia|]. by intros [|]. }
  destruct (stripped_social u m nm (s, c) Hh Hst) as (Hsoc & Hch & Hsl). destruct Hst as (Hc & Hs & Hlen). cbn [fst snd archive_size foldr] in *.
  fold (archive_size l) in *. pose proof (archive_size_nonneg l) as Hnn. apply entries_le in Ha as Hle.
  apply wp_bind. eapply wp_mono; [apply (fsutil_append_ok u m nm c s); (done || lia)|].
  intros [] u1 (Hh1 & Hsc1 & Has1 & Hes1 & Hsz1 & Hsec1).
  destruct (append_entries u u1 i l0 s c) as [Ha1 Hend1]; try (done || lia). rewrite <- Has1 in Ha1, Hend1.
  eapply wp_mono; [apply (IH u1 (l0 ++ [(s, c)])); (done || lia)|].
  intros [] u2 (Hh2 & Hsc2 & Ha2 & Has2 & Hes2 & Hsz2 & Hend2). rewrite <- app_assoc in Ha2. split_and!; try done; try lia.
  intros _. apply Hend2. by left.
Qed.
End util.

(** ** A machine with two disks *)

#[local] Existing Instance Block.block_devices.
#[local] Existing Instance Neighbours.block_neighbours.

(** A second disk of 40 sectors, for the scratch device. *)
Definition scratch_disk : Block.block := Block.mk_block [104; 100; 98] Block.BLOCK_RAW 40 (Block.ide_operations 8) 0 0.
Definition with_scratch (d : Block.devices) : Block.devices :=
  Block.mk_devices (<[2 := scratch_disk]> (Block.blocks d)) (Block.partitions d) [1; 2] {[ 1 := 1; 2 := 2 ]} (Block.disks d) 3.
Definition demo_fs : fs Block.devices := set_dev (with_scratch (dev formatted_fs)) formatted_fs.
Definition demo_util : util Block.devices := mk_util demo_fs 0 0 [].

Lemma with_scratch_ok (f : fs Block.devices) m x :
  holds f m → fs_device f = 1 → Block.blocks (dev f) = {[ 1 := x ]} → Block.ops x = Block.ide_operations 7 →
  let g := set_dev (with_scratch (dev f)) f in holds g m ∧ scratch 2 g ∧ ssize 2 g = 40.
Proof.
  intros Hh Hfs Hb Ho g. pose proof (holds_dev _ _ Hh) as ((Hw & Hd) & Hwr & _). rewrite Hfs in Hwr.
  assert (Block.blocks (dev g) = {[ 2 := scratch_disk; 1 := x ]}) as Hb' by (cbn; by rewrite Hb).
  assert (Block.wf (dev g)) as Hwf.
  { split; [|done]. intros b y. rewrite Hb'. destruct (Hw 1 x) as (_ & Hsz & _); [by rewrite Hb, lookup_singleton_eq|].
    intros [[<- <-]|[_ [<- <-]%lookup_singleton_Some]]%lookup_insert_Some; (split_and!; [cbn; lia | cbn; lia..|]); [done | by rewrite Ho]. }
  assert (Block.blocks (dev g) !! 1 = Some x ∧ Block.blocks (dev g) !! 2 = Some scratch_disk) as [E1 E2]
    by (rewrite Hb', lookup_insert_eq, lookup_insert_ne, lookup_singleton_eq by done; done).
  assert (Block.device_ok (dev g) 2) as Hok2
    by (split_and!; [done | unfold Block.writable; cbn -[dev]; by rewrite E2 | by eexists]).
  assert (Block.device_ok (dev g) 1) as Hok1.
  { split_and!; [done | | by eexists]. unfold Block.writable in *. cbn -[dev] in *. by rewrite Hb, lookup_singleton_eq, Ho in Hwr; rewrite E1, Ho. }
  assert (∀ s, Block.location (dev g) 1 s = (7, s) ∧ Block.location (dev f) 1 s = (7, s) ∧ Block.location (dev g) 2 s = (8, s)) as L.
  { intros s. unfold Block.location. cbn -[dev]. by rewrite E1, E2, Hb, lookup_singleton_eq, Ho. }
  split_and!; [|split_and!; [done | done|]|unfold ssize; cbn -[dev]; unfold Block.device_size; by rewrite E2].
  - destruct (frame_dev f (dev g)) as [Hf Hp]; [by rewrite Hfs | | | by apply (holds_frame f)]; rewrite Hfs; cbn -[dev].
    + unfold Block.device_size. by rewrite E1, Hb, lookup_singleton_eq.
    + intros s _. unfold Block.sector. destruct (L s) as (-> & -> & _). done.
  - change (fs_device g) with (fs_device f). rewrite Hfs. split; [exact (proj1 Hwf)|]. intros s s' _ _.
    destruct (L s) as (-> & _), (L s') as (_ & _ & ->). done.
Qed.
Lemma demo_ok : holds demo_fs ∅ ∧ scratch 2 demo_fs ∧ ssize 2 demo_fs = 40.
Proof.
  apply (with_scratch_ok formatted_fs ∅ (Block.mk_block [104; 100; 97] Block.BLOCK_RAW 100 (Block.ide_operations 7) 5 6)); [apply formatted_holds | by vm_compute..].
Qed.

(** With a file of 700 bytes, and the archive of it. *)
Definition demo_stored : util Block.devices :=
  match on_fs (filesys_create (λ _, true) demo_stack [47; 97] 700) demo_util with Ok (_, u) => u | Err _ => demo_util end.
Definition demo_archived : util Block.devices :=
  match append_files (λ _, true) demo_stack 0 [[47; 97]] demo_stored with Ok (_, u) => u | Err _ => demo_util end.

Lemma demo_bytes_ok : List.length demo_stack = 20%nat ∧ Forall (λ c, 0 ≤ c < 256) demo_stack.
Proof. split; [done|]. by apply Forall_replicate. Qed.
Lemma demo_stored_ok :
  holds (fsys demo_stored) {[ [47; 97] := replicate 700 0 ]} ∧ scratch 2 (fsys demo_stored) ∧ ssize 2 (fsys demo_stored) = 40
  ∧ append_sector demo_stored = 0 ∧ extract_sector demo_stored = 0.
Proof.
  destruct demo_ok as (Hh & Hs & Hz). assert (match filesys_create (λ _, true) demo_stack [47; 97] 700 demo_fs with Ok (r, _) => r | Err _ => false end = true) as Hok by by vm_compute.
  destruct (create_entry 2 (λ _, true) (λ _, eq_refl) demo_stack demo_bytes_ok demo_util ∅ [47; 97] 700) as (ok & g & E & Hg & Hsg & Hkg & _);
    [done | done | by repeat constructor | lia|]. change (fsys demo_util) with demo_fs in *. rewrite E in Hok. subst ok.
  unfold demo_stored, on_fs, zoom. change (fsys demo_util) with demo_fs. rewrite E. cbn [fsys set_fsys append_sector extract_sector demo_util].
  split_and!; [exact Hg | done | by rewrite Hkg | done | done].
Qed.
Lemma demo_stripped : Forall2 (stripped {[ [47; 97] := replicate 700 0 ]}) [[47; 97]] [([97], replicate 700 0)].
Proof. apply Forall2_cons. split; [|by apply Forall2_nil]. split_and!; [apply lookup_singleton_eq | by vm_compute..]. Qed.
Lemma demo_archived_ok :
  holds (fsys demo_archived) {[ [47; 97] := replicate 700 0 ]} ∧ scratch 2 (fsys demo_archived) ∧ ssize 2 (fsys demo_archived) = 40
  ∧ extract_sector demo_archived = 0 ∧ entries (ssec 2 (fsys demo_archived)) 0 [([97], replicate 700 0)] 3
  ∧ ssec 2 (fsys demo_archived) 3 = zero_sector.
Proof.
  destruct demo_stored_ok as (Hh & Hs & Hz & Ha & He).
  destruct (proj1 (wp_Ok _ _ _) (append_files_ok 2 (λ _, true) (λ _, eq_refl) demo_stack demo_bytes_ok 0 ltac:(lia) [[47; 97]] _ demo_stored _ 0 []
    Hh Hs demo_stripped (Z.le_refl 0) ltac:(rewrite Ha; constructor) ltac:(rewrite Ha, Hz; by vm_compute)))
    as ([] & u & E & Hh' & Hs' & Hent & Ha' & He' & Hz' & Hend).
  unfold demo_archived. rewrite E. rewrite Ha in Ha'. change (append_sector u = 3) in Ha'. rewrite Ha' in *.
  split_and!; [done | done | congruence | congruence | done |]. apply Hend. by right.
Qed.

(** ** Properties *)

(** C32: [fsutil_extract] restores an archive.  If every [malloc] succeeds (the
    function panics when it gets no buffer), no file is open, and the scratch
    device holds
    the entries [l] from the sector on that the function has come to, and a
    sector of zeros behind them, then the function returns: every file of the
    archive is in the file system with its contents, no other file has
    changed, and the first two sectors of the scratch device, and no others,
    have been erased.  Or it panics, and only because the file system has
    refused to create a file of the archive, when those in front of it were
    stored.  The loop runs at most as often as the archive has sectors. *)
Theorem fsutil_extract_restores {D} `{Neighbours D} b malloc_ok stack_bytes (u : util D) m l j fuel :
  (∀ a, malloc_ok a = true) → List.length stack_bytes = 20%nat ∧ Forall (λ c, 0 ≤ c < 256) stack_bytes →
  holds (fsys u) m → scratch b (fsys u) →
  entries (ssec b (fsys u)) (extract_sector u) l j → ssec b (fsys u) j = zero_sector →
  0 ≤ extract_sector u → j < ssize b (fsys u) → 2 ≤ ssize b (fsys u) → j - extract_sector u < Z.of_nat fuel →
  (∃ u', fsutil_extract malloc_ok stack_bytes fuel u = Ok (tt, u')
     ∧ holds (fsys u') (restore l m) ∧ extract_sector u' = j + 1
     ∧ ∀ s, 0 ≤ s < ssize b (fsys u) → ssec b (fsys u') s = if decide (s < 2) then zero_sector else ssec b (fsys u) s)
  ∨ (fsutil_extract malloc_ok stack_bytes fuel u = Err Panic
     ∧ ∃ l1 nm c l2 f, l = l1 ++ (nm, c) :: l2 ∧ holds f (restore l1 m)
         ∧ ∃ g, filesys_create malloc_ok stack_bytes nm (len c) f = Ok (false, g)).
Proof.
  intros Hmem Hstack Hh Hs Ha Hend Hi Hj H2 Hfuel.
  pose proof (fsutil_extract_ok b malloc_ok Hmem stack_bytes Hstack u m _ l j fuel Hh Hs eq_refl Ha Hend Hi Hj H2 Hfuel) as Hw.
  unfold wpe in Hw. destruct (fsutil_extract malloc_ok stack_bytes fuel u) as [[[] u']|e].
  - left. exists u'. destruct Hw as (? & _ & ? & _ & _ & ?). done.
  - right. destruct Hw as [-> Hr]. done.
Qed.

Lemma fsutil_extract_restores_witness :
  ∃ u', fsutil_extract (λ _, true) demo_stack 4 demo_archived = Ok (tt, u')
    ∧ holds (fsys u') {[ [97] := replicate 700 0; [47; 97] := replicate 700 0 ]}.
Proof.
  destruct demo_archived_ok as (Hh & Hs & Hz & He & Ha & Hend).
  assert (match fsutil_extract (λ _, true) demo_stack 4 demo_archived with Ok _ => true | Err _ => false end = true) as Hok by by vm_compute.
  destruct (fsutil_extract_restores 2 (λ _, true) demo_stack demo_archived {[ [47; 97] := replicate 700 0 ]} [([97], replicate 700 0)] 3 4)
    as [(u' & E & Hh' & _)|(E & _)].
  - done.
  - apply demo_bytes_ok.
  - exact Hh.
  - exact Hs.
  - rewrite He. exact Ha.
  - exact Hend.
  - by rewrite He.
  - by rewrite Hz.
  - by rewrite Hz.
  - by rewrite He.
  - exists u'. split; [exact E | exact Hh'].
  - rewrite E in Hok. discriminate Hok.
Defined.

(** C31: Files travel on the scratch device, as long as the kernel has memory:
    every [malloc] of both machines is assumed to succeed, where the functions
    panic if they get no buffer.  The commands [append] of one
    machine leave its files alone and write an archive of them, each under
    its name without antisocial prefixes.  A machine that finds this archive
    on its scratch device and runs [extract] then has all these files with
    their contents besides its own, or panics because its file system has
    refused to create one of them.  This holds if the byte behind the buffer
    of [fsutil_append] is 0: the function writes the end of the archive twice
    to the same sector, the second time from one byte further on, and with any
    other byte there every extraction of the archive panics. *)
Theorem fsutil_transfer {D} `{Neighbours D} b malloc_ok stack_bytes beyond (u : util D) m nms l :
  (∀ a, malloc_ok a = true) → List.length stack_bytes = 20%nat ∧ Forall (λ c, 0 ≤ c < 256) stack_bytes → 0 ≤ beyond < 256 →
  holds (fsys u) m → scratch b (fsys u) → append_sector u = 0 → nms ≠ [] → Forall2 (stripped m) nms l →
  archive_size l < ssize b (fsys u) →
  ∃ u', append_files malloc_ok stack_bytes beyond nms u = Ok (tt, u') ∧ holds (fsys u') m ∧ append_sector u' = archive_size l
    ∧ scratch b (fsys u') ∧ extract_sector u' = extract_sector u ∧ ssize b (fsys u') = ssize b (fsys u)
    ∧ ∀ c (v : util D) m2 fuel,
        holds (fsys v) m2 → scratch c (fsys v) → extract_sector v = 0 → ssize c (fsys v) = ssize b (fsys u) → 2 ≤ ssize c (fsys v) →
        (∀ s, 0 ≤ s ≤ archive_size l → ssec c (fsys v) s = ssec b (fsys u') s) → archive_size l < Z.of_nat fuel →
        if decide (beyond = 0) then
          (∃ v', fsutil_extract malloc_ok stack_bytes fuel v = Ok (tt, v') ∧ holds (fsys v') (restore l m2))
          ∨ (fsutil_extract malloc_ok stack_bytes fuel v = Err Panic ∧ refusal malloc_ok stack_bytes l m2 Panic)
        else fsutil_extract malloc_ok stack_bytes fuel v = Err Panic.
Proof.
  intros Hmem Hstack Hb Hh Hs Has Hne Hl Hfit.
  destruct (proj1 (wp_Ok _ _ _) (append_files_ok b malloc_ok Hmem stack_bytes Hstack beyond Hb nms l u m 0 [] Hh Hs Hl (Z.le_refl 0)
    ltac:(rewrite Has; constructor) ltac:(lia))) as ([] & u' & E & Hh' & Hs' & Ha' & Has' & He' & Hz' & Hend).
  rewrite Has, Z.add_0_l in Has'. rewrite Has' in *. exists u'. split_and!; [done..|].
  intros c v m2 fuel Hv Hsv Hev Hzv H2 Hcopy Hfuel. pose proof (archive_size_nonneg l) as Hnn.
  assert (entries (ssec c (fsys v)) 0 l (archive_size l)) as Hav by (eapply entries_ext; [exact Ha'|]; intros s Hs1; apply Hcopy; lia).
  assert (ssec c (fsys v) (archive_size l) = end_sector beyond) as Hendv.
  { rewrite Hcopy by lia. apply Hend. right. intros ->. by inversion Hl; subst. }
  case_decide as Hbz.
  - pose proof (fsutil_extract_ok c malloc_ok Hmem stack_bytes Hstack v m2 0 l (archive_size l) fuel Hv Hsv Hev Hav
      ltac:(by rewrite Hendv, end_zero) ltac:(lia) ltac:(lia) H2 ltac:(lia)) as Hw.
    unfold wpe in Hw. destruct (fsutil_extract malloc_ok stack_bytes fuel v) as [[[] v']|e].
    + left. exists v'. by destruct Hw as (? & _).
    + right. destruct Hw as [-> Hr]. by split.
  - apply (fsutil_extract_bad c malloc_ok Hmem stack_bytes Hstack v m2 0 l (archive_size l) fuel "not a ustar archive"); try (done || lia).
    rewrite Hendv, end_parse. by rewrite (proj2 (Z.eqb_neq _ _)).
Qed.

Lemma fsutil_transfer_witness :
  ∃ u', append_files (λ _, true) demo_stack 1 [[47; 97]] demo_stored = Ok (tt, u')
    ∧ fsutil_extract (λ _, true) demo_stack 4 u' = Err Panic.
Proof.
  destruct demo_stored_ok as (Hh & Hs & Hz & Ha & He).
  destruct (fsutil_transfer 2 (λ _, true) demo_stack 1 demo_stored {[ [47; 97] := replicate 700 0 ]} [[47; 97]] [([97], replicate 700 0)])
    as (u' & E & Hh' & Ha' & Hs' & He' & Hz' & Hall).
  - done.
  - apply demo_bytes_ok.
  - lia.
  - exact Hh.
  - exact Hs.
  - exact Ha.
  - done.
  - apply demo_stripped.
  - rewrite Hz. by vm_compute.
  - exists u'. split; [exact E|].
    apply (Hall 2 u' {[ [47; 97] := replicate 700 0 ]} 4%nat Hh' Hs' ltac:(congruence) Hz' ltac:(rewrite Hz', Hz; lia) ltac:(done) ltac:(by vm_compute)).
Defined.
End FsutilProps.
